(* ===== verification/_CoqProject ===== *)
-Q . S2P
Prelude.v
GptLib.v
GptSync.v
GptWrite.v
GptAnalyze.v
GptMain.v
GptTheorems.v
GptShow.v
UmmLinks.v
UmmMalloc.v
UmmProofs.v
UmmInv.v
UmmTheorems.v
UmmSpec.v
EmuLang.v
EmuVariable.v
EmuStore.v
EmuSpec.v
EmuRefine.v
EmuMap.v
EmuNext.v
EmuTheorems.v
MemoryMap.v
MemoryAlloc.v
MemoryServices.v
RtShims.v
BootArgs.v
CustomSlide.v
SlideProofs.v
SlideTheorems.v
VMem.v
VMemProofs.v
VMemTheorems.v
VMemRange.v
BootFixes.v
BootServices.v
BootVirtual.v
BootTheorems.v
StartImage.v
PartDisk.v
PartGpt.v
PartGptProofs.v
PartGptEntries.v
PartGptTheorems.v
PartIo.v
PartDemo.v
PartMbr.v
PartMbrTheorems.v
DataHub.v
DataHubProofs.v
DataHubTheorems.v
Sha1.v
Sha1Spec.v
Sha1Proofs.v
HashService.v
HashTheorems.v
FsInject.v
FsInjectSpec.v
FsInjectTheorems.v
FsInjectDemo.v
AptioEntry.v
AptioTheorems.v
FatBinary.v
FatBinaryTheorems.v
FatBinaryDemo.v
KeyAggregator.v
KeyTheorems.v
KeyFeeder.v
KeyFeederTheorems.v
KeyChain.v
SmcHelper.v
SmcTheorems.v
PartAsync.v
PartAsyncTheorems.v
PartBinding.v
PartBindingTheorems.v
Apfs.v
ApfsTheorems.v
ApfsDemo.v
