(* ===== verification/Prelude.v ===== *)
(** * Clover boot loader: a verification library for its C components

    Clover is a boot loader for PCs.  This library models parts written in C that
    carry logic of their own: the synchronisation of partition tables, the emulation
    of UEFI variables, the driver that repairs the memory environment for boot.efi,
    the partition driver, and several protocols.  Models are functions translated from the source; each theorem about
    them is a property of the code.

    ** Conventions

    Machine words are integers in [Z] with the wrap-around written out ([wrap32],
    [wrap64]); bit fields are [bits].  Buffers are lists of bytes; tables are lists
    of records; an array index outside the array, a NULL dereference, a division by
    zero and a processor that stops are [None].  Code with state is a computation
    in the monad [M S A := S → option (A * S)] over the record of its variables.
    An [EFI_STATUS] is a value.  Code outside the repository (firmware services,
    block devices, variable services, the processor) is a parameter or a class whose
    laws are documented behaviour; each use of such a class is instantiated.

    ** Files

    Prelude.v: words, little-endian fields, status codes, the monad, shared lemmas on
    lists, hints and tactics.

    gptsync (src/gptsync): keeps the MBR of a disk in step with its GPT.
    - GptLib.v: lib.c, disk access of os_efi.c ([read_mbr], [read_gpt],
      [detect_mbrtype_fs]); GptSync.v: gptsync.c ([check_mbr], [check_gpt],
      [analyze], [write_mbr], [gptsync]) and main of os_efi.c; GptShow.v: showpart.c.
    - GptWrite.v, GptAnalyze.v, GptMain.v, GptTheorems.v: proofs.  Nothing is assumed of
      the disk after a write that failed.  Shown: a run of [gptsync] ends with the disk
      unchanged, or attempts one write of the confirmed table after both tables that were
      read passed their checks, and the status tells which; what is written is read back; a second run finds
      nothing to do; the proposed table has no overlaps; [check_gpt] accepts exactly
      the tables it should; [read_gpt] is safe for sane headers and not otherwise.

    EmuVariableUefi (src/Protocols/EmuVariableUefi): the variable services of UEFI,
    kept in two memory stores.
    - EmuLang.v: lists of language codes; EmuVariable.v: EmuVariable.c and
      InitVariable.c on the bytes of the stores.
    - EmuStore.v (byte layout), EmuSpec.v (the abstract services on a list of
      variables), EmuRefine.v, EmuMap.v (services as a finite map), EmuNext.v
      (enumeration), EmuTheorems.v.  Shown: the byte-level services refine the
      abstract ones; SetVariable and GetVariable are update and lookup of a map;
      enumeration visits every variable once and ends; every sequence of calls keeps
      the stores well-formed and never leaves a buffer; the stores at the start, with
      the failures of the pool.  The theorems leave out the variables with language codes,
      where the code can fault, and each store has the two bytes behind it that the code
      reads.

    AptioMemoryFix (src/MemoryFix/AptioMemoryFix): prepares memory for boot.efi.
    - UmmMalloc.v, UmmLinks.v, UmmProofs.v, UmmInv.v, UmmTheorems.v, UmmSpec.v: the
      pool allocator UmmMalloc.c with the overrides of AllocatePool and FreePool,
      which the build option APTIOFIX_CUSTOM_POOL_ALLOCATOR enables.  Shown: for any
      interleaving of requests the regions handed out are disjoint, inside the heap
      and keep their contents; the search is best fit.
    - MemoryMap.v, MemoryAlloc.v, MemoryServices.v: MemoryMap.c and the overrides of
      the memory services in ServiceOverrides.c.  Shown: shrinking in place equals a
      function on lists, every address keeps its kind of memory, pages from the top
      lie in free memory and nothing leaks, however often the map grows while it is read;
      leaving boot services succeeds when the map changed once and does not change again.
    - RtShims.v: RtShims.c.  Shown: protected runtime memory gets its types back; the
      shims' pointers are converted as the virtual map says.
    - BootArgs.v: BootArgs.c.  Shown: removing an argument removes exactly its words;
      a command line on which the removal never ends.
    - CustomSlide.v, SlideProofs.v, SlideTheorems.v: CustomSlide.c.  Shown: the slides
      chosen are those whose region is free memory, the value passed on is one of
      them, and the hand-off to the kernel restores what was changed.
    - VMem.v, VMemProofs.v, VMemTheorems.v, VMemRange.v: VMem.c.  Shown: after mapping a
      page, or a range, it translates as requested and every other translation is as
      before; exactly the missing tables are taken from the pool.
    - BootFixes.v, BootServices.v, BootVirtual.v, BootTheorems.v: BootFixes.c and the
      overrides of ExitBootServices and SetVirtualAddressMap, which put the parts above
      together.  Shown: virtual addresses are set as macOS asked, with the memory mapped there
      when the firmware is called; the calls return, and the kernel's entry, its
      memory map and its command line are as without the driver when it starts; a slide
      that the user gives is respected.
    - StartImage.v: the override of StartImage, the detection of boot.efi,
      [InstallRtShims] and the switches of the shims.  Shown: which images count as
      boot.efi; what every image finds while images start images; the shims from their
      installation to virtual addresses.
    - AptioEntry.v, AptioTheorems.v: AptioMemoryFix.c and the installation of the overrides,
      on the tables of boot and runtime services and over repeated loads.  Shown: services
      are overridden at most once and stand for those of the firmware, with correct checksums,
      whatever is installed in memory and among the protocols in between; the entry point
      returns; a load that fails late blocks all further ones.

    PartitionDxe (src/Drivers/PartitionDxe): finds the partitions of a disk and offers
    each as a block device.
    - PartDisk.v: installing a child device and its block I/O (Partition.c); PartGpt.v:
      Gpt.c; PartMbr.v: Mbr.c, Apple.c, ElTorito.c and the order of detection; PartAsync.v:
      asynchronous block I/O, over a class of DiskIo2; PartBinding.v: starting and stopping.
    - PartGptProofs.v (valid tables, the other copy), PartGptEntries.v (checks of
      entries, children), PartGptTheorems.v, PartIo.v, PartMbrTheorems.v, and PartDemo.v
      with concrete disks.  Shown: partitions survive the loss of one copy of the table,
      which is written again; the children of a table are apart and inside the usable
      blocks; requests to a child are answered from its part of the disk or refused, and
      writes to one child do not change another; which boot records are valid; a
      chain of logical drives that leads forward ends; inputs on which the driver leaves
      its buffers, its partition, or never ends.
    - PartAsyncTheorems.v, PartBindingTheorems.v.  Shown: however calls and answers of the
      device interleave, each accepted request is answered once and nothing leaks; an
      asynchronous write does what the synchronous one does; starting opens or closes as its
      outcome requires; which children remain after a stop.

    DataHubDxe (src/Protocols/DataHubDxe): a log of records with readers and filter
    drivers.
    - DataHub.v: DataHub.c with the locks of UefiLib; DataHubProofs.v, DataHubTheorems.v.
      Shown: any calls keep the hub's invariant; what is logged is read back and the
      right filters are signalled; a filter driver gets every record once; how calls with
      the count zero repeat or skip records.

    HashServiceFix (src/Protocols/HashServiceFix): replaces a broken SHA-1 service.
    - Sha1.v: sha1.c for any width of its words; HashService.v: HashServiceFix.c;
      Sha1Spec.v: SHA-1 after FIPS 180 and the compression of a block; Sha1Proofs.v:
      updates and padding; HashTheorems.v.  Shown: with the 64-bit words that sha1.h defines
      the code computes, for any division of the message, the function [wide_sha1] of it,
      which is not SHA-1; calls of the service give the digest of all data up to then; what
      the entry point replaces.

    FSInject (src/FSInject): shows the files of a folder of one volume in another volume.
    - FsInject.v: FSInject.c over a class of file systems; FsInjectSpec.v: the union of the
      volumes and the laws of the file systems below; FsInjectTheorems.v; FsInjectDemo.v:
      a file system with the laws.  Shown: an open leaks no handle, whatever fails below, and
      finds the file that the union names when nothing fails; the listing of the injected folder; names of directories; a name
      that makes the driver read past a string.

    OsxFatBinaryDrv (src/Protocols/OsxFatBinaryDrv): LoadImage for fat binaries.
    - FatBinary.v: OsxFatBinaryDrv.c over a class of boot services; FatBinaryTheorems.v;
      FatBinaryDemo.v: a firmware with the laws.  Shown: the firmware gets the image for the
      processor; a file from a file system is loaded without leaks; a variable that is freed
      without being set; a table without a match that leads past the buffer.

    AppleKeyAggregator (src/Protocols/AppleKeyAggregator): the keys pressed on all keyboards.
    - KeyAggregator.v: AppleKeyAggregator.c; KeyTheorems.v.  Shown: calls keep the database
      sound; the state is the union of the buffers; the sort sorts and an exact search for at
      most eight keys is equality of sets; an array that is half as long as it should be, and a search that
      looks at the first key only.

    AppleKeyFeeder (src/Protocols/AppleKeyFeeder): passes the keys of the firmware's console
    on to the key database and keeps them for later readers.
    - KeyFeeder.v: AppleKeyMapUtils.c, SimpleTextProxy.c, SimpleTextExProxy.c and
      AppleKeyFeeder.c over a class of key databases; KeyFeederTheorems.v; KeyChain.v:
      AppleKeyAggregator as the database.  Shown: with any database the feeder refines a
      keyboard with a queue; with the aggregator, boot.efi sees the key typed last until it is
      released; the key map is injective on the printable characters.

    SMCHelper (src/Protocols/SMCHelper): an emulated system management controller.
    - SmcHelper.v: SMCHelper.c; SmcTheorems.v.  Shown: the list of keys refines a finite map,
      and the variables are those of the values written; keys are counted and listed as those
      of the map if none is added twice; names and keys are inverse.

    ApfsDriverLoader (src/FileSystems/ApfsDriverLoader): starts the driver that an APFS
    container holds.
    - Apfs.v: ApfsDriverLoader.c over the disk of PartitionDxe; ApfsTheorems.v; ApfsDemo.v:
      containers.  Shown: the checksum is Fletcher's for blocks of up to 256 KB; the driver of
      a well-formed container is started, byte for byte; nothing is started whose superblock
      and boot record do not have Fletcher's checksum; containers and partition tables that lead past a
      buffer.

    ** Fuel

    Loops over arrays recurse on the list, and loops that count recurse on the count.
    Other loops take fuel: the length of the array for [ShrinkMemMap] and
    [UnlockSlideSupportForSafeMode], the number of blocks for the free list, the size of
    the store for walks over variables, the number of matches for
    [RemoveArgumentFromCommandLine], one attempt for each 512 bytes that the memory map can
    reach for the loop that reads it, the number of blocks of an extended partition for its chain, one more than the
    records of the log for a reader of the data hub, the length of the data for the
    blocks of SHA-1, 64 for its padding, and the number of entries for a listing.
    Theorems state that the fuel is enough, or (for [RemoveArgumentFromCommandLine])
    when no fuel is.

    ** Not modelled

    Printing and debug output; the option -aptiodump, which only prints; registration of
    protocols and events; register access and assembly; C++ code (rEFIt_UEFI) and vendored
    packages (EDK II, OpenSSL, file systems); the older variants of the memory fix, from
    which AptioMemoryFix comes; drivers of devices, and the drivers of src/Protocols that log
    the calls they see, decode images, poll hardware or register constants; functions that
    only pass a call on.  In PartitionDxe, a media change that calls the driver while it
    starts. *)

From Stdlib Require Import ZArith Lia.
From Stdlib Require Ascii String.
From stdpp Require Import base list list_numbers strings.

Ltac Zify.zify_post_hook ::= Z.div_mod_to_equations.

Open Scope Z_scope.

(** ** Machine words *)

Definition wrap8 (x : Z) : Z := x mod 2 ^ 8.
Definition wrap16 (x : Z) : Z := x mod 2 ^ 16.
Definition wrap32 (x : Z) : Z := x mod 2 ^ 32.
Definition wrap64 (x : Z) : Z := x mod 2 ^ 64.

Definition is_byte (b : Z) : Prop := 0 ≤ b < 256.

Lemma wrap32_small x : 0 ≤ x < 2 ^ 32 → wrap32 x = x.
Proof. apply Z.mod_small. Qed.

Lemma wrap64_small x : 0 ≤ x < 2 ^ 64 → wrap64 x = x.
Proof. apply Z.mod_small. Qed.

Lemma wrap8_small x : 0 ≤ x < 256 → wrap8 x = x.
Proof. apply Z.mod_small. Qed.

Lemma wrap32_range x : 0 ≤ wrap32 x < 2 ^ 32.
Proof. by apply Z.mod_pos_bound. Qed.

Lemma wrap64_range x : 0 ≤ wrap64 x < 2 ^ 64.
Proof. by apply Z.mod_pos_bound. Qed.

(** A bit field: bits [lo .. lo + n) of a word. *)
Definition bits (x lo n : Z) : Z := Z.land (Z.shiftr x lo) (Z.ones n).

Lemma bits_spec x lo n : 0 ≤ lo → 0 ≤ n → bits x lo n = x / 2 ^ lo mod 2 ^ n.
Proof. intros. unfold bits. by rewrite Z.land_ones, Z.shiftr_div_pow2. Qed.

Lemma bits_range x lo n : 0 ≤ n → 0 ≤ bits x lo n < 2 ^ n.
Proof. intros. unfold bits. rewrite Z.land_ones by done. apply Z.mod_pos_bound. lia. Qed.

(** Bits below a shifted number. *)
Lemma shiftl_lor a n d : 0 ≤ n → 0 ≤ d < 2 ^ n → Z.lor (Z.shiftl a n) d = a * 2 ^ n + d.
Proof.
  intros Hn Hd. assert (Z.land (Z.shiftl a n) d = 0) as H0.
  { apply Z.bits_inj'. intros i Hi. rewrite Z.land_spec, Z.bits_0. destruct (Z.lt_ge_cases i n); [by rewrite Z.shiftl_spec_low|].
    rewrite <- (Z.mod_small d (2 ^ n) Hd), Z.mod_pow2_bits_high, andb_false_r by lia. done. }
  by rewrite <- (Z.lxor_lor _ _ H0), <- (Z.add_nocarry_lxor _ _ H0), Z.shiftl_mul_pow2 by lia.
Qed.

(** Masking with [n] ones at bit [k] keeps that field in place. *)
Lemma land_field x k n : 0 ≤ k → 0 ≤ n → Z.land x (Z.shiftl (Z.ones n) k) = bits x k n * 2 ^ k.
Proof.
  intros Hk Hn. rewrite <- Z.shiftl_mul_pow2 by done. unfold bits. apply Z.bits_inj'. intros i Hi.
  rewrite Z.land_spec, !Z.shiftl_spec by done. destruct (Z.lt_ge_cases i k).
  - by rewrite !(Z.testbit_neg_r _ (i - k)), andb_false_r by lia.
  - rewrite Z.land_spec, Z.shiftr_spec by lia. by replace (i - k + k) with i by lia.
Qed.

(** ** Little-endian integers in byte lists *)

Fixpoint le_get (bs : list Z) : Z :=
  match bs with
  | [] => 0
  | b :: bs => b + 256 * le_get bs
  end.

Fixpoint le_put (n : nat) (z : Z) : list Z :=
  match n with
  | O => []
  | S n => z mod 256 :: le_put n (z / 256)
  end.

Lemma length_le_put n z : length (le_put n z) = n.
Proof. revert z; induction n; intros; simpl; auto. Qed.

Lemma le_put_bytes n z : Forall is_byte (le_put n z).
Proof.
  revert z; induction n; intros z; simpl; constructor; auto.
  unfold is_byte. by apply Z.mod_pos_bound.
Qed.

Lemma le_get_put n z : 0 ≤ z < 256 ^ Z.of_nat n → le_get (le_put n z) = z.
Proof.
  revert z; induction n as [|n IH]; intros z Hz; simpl.
  - change (256 ^ Z.of_nat 0) with 1 in Hz. lia.
  - rewrite Nat2Z.inj_succ, Z.pow_succ_r in Hz by lia.
    rewrite IH; [lia|]. split; [lia|].
    apply Z.div_lt_upper_bound; lia.
Qed.

Lemma le_get_range bs : Forall is_byte bs → 0 ≤ le_get bs < 256 ^ Z.of_nat (length bs).
Proof.
  induction 1 as [|b bs Hb Hbs IH]; simpl.
  - change (256 ^ Z.of_nat 0) with 1. lia.
  - rewrite Nat2Z.inj_succ, Z.pow_succ_r by lia. unfold is_byte in Hb. lia.
Qed.

Lemma le_put_get bs : Forall is_byte bs → le_put (length bs) (le_get bs) = bs.
Proof.
  induction 1 as [|b bs Hb Hbs IH]; simpl; [done|]. unfold is_byte in Hb.
  replace ((b + 256 * le_get bs) mod 256) with b by lia.
  replace ((b + 256 * le_get bs) / 256) with (le_get bs) by lia.
  by rewrite IH.
Qed.

(** ** Byte arrays *)

(** [slice off len m]: the [len] bytes of [m] from offset [off]. *)
Definition slice (off len : nat) (m : list Z) : list Z := take len (drop off m).

(** A little-endian load of [len] bytes. *)
Definition load (len off : nat) (m : list Z) : Z := le_get (slice off len m).

(** A store of bytes [bs] at offset [off] ([CopyMem] into an array). *)
Definition store (off : nat) (bs : list Z) (m : list Z) : list Z := list_inserts off bs m.

Lemma length_slice off len m : (off + len ≤ length m)%nat → length (slice off len m) = len.
Proof. intros. unfold slice. rewrite length_take, length_drop. lia. Qed.

Lemma length_store off bs m : length (store off bs m) = length m.
Proof. apply length_inserts. Qed.

Lemma slice_lookup off len m i :
  slice off len m !! i = if decide (i < len)%nat then m !! (off + i)%nat else None.
Proof.
  unfold slice. case_decide.
  - by rewrite lookup_take_lt, lookup_drop by lia.
  - by rewrite lookup_take_ge by lia.
Qed.

Lemma slice_store_same off bs m :
  (off + length bs ≤ length m)%nat → slice off (length bs) (store off bs m) = bs.
Proof.
  intros Hm. apply list_eq. intros i. rewrite slice_lookup. unfold store.
  case_decide.
  - rewrite list_lookup_inserts by lia. f_equal. lia.
  - symmetry. apply lookup_ge_None. lia.
Qed.

Lemma slice_store_eq off bs n m :
  length bs = n → (off + n ≤ length m)%nat → slice off n (store off bs m) = bs.
Proof. intros <-. apply slice_store_same. Qed.

Lemma slice_store_disj off bs off' len m :
  (off' + len ≤ off ∨ off + length bs ≤ off')%nat →
  slice off' len (store off bs m) = slice off' len m.
Proof.
  intros Hd. apply list_eq. intros i. rewrite !slice_lookup. unfold store.
  case_decide; [|done]. destruct Hd.
  - by rewrite list_lookup_inserts_lt by lia.
  - by rewrite list_lookup_inserts_ge by lia.
Qed.

Lemma load_store_same len off z m :
  0 ≤ z < 256 ^ Z.of_nat len → (off + len ≤ length m)%nat →
  load len off (store off (le_put len z) m) = z.
Proof.
  intros Hz Hm. unfold load.
  rewrite <- (length_le_put len z) at 1.
  rewrite slice_store_same by (rewrite length_le_put; lia). by apply le_get_put.
Qed.

Lemma load_store_disj len off off' bs m :
  (off' + len ≤ off ∨ off + length bs ≤ off')%nat →
  load len off' (store off bs m) = load len off' m.
Proof. intros. unfold load. by rewrite slice_store_disj. Qed.

Lemma Forall_slice (P : Z → Prop) off len m : Forall P m → Forall P (slice off len m).
Proof. intros. by apply Forall_take, Forall_drop. Qed.

Lemma Forall_store (P : Z → Prop) off bs m :
  Forall P m → Forall P bs → Forall P (store off bs m).
Proof. apply Forall_inserts. Qed.

Lemma load_range len off m :
  Forall is_byte m → (off + len ≤ length m)%nat → 0 ≤ load len off m < 256 ^ Z.of_nat len.
Proof.
  intros Hb Hl. rewrite <- (length_slice off len m) at 3 by done.
  by apply le_get_range, Forall_slice.
Qed.

(** ** Filters *)

Lemma list_filter_all {A} (P : A → Prop) `{!∀ x, Decision (P x)} (l : list A) :
  (∀ x, x ∈ l → P x) → filter P l = l.
Proof.
  induction l as [|x l IH]; intros Hl; [done|].
  rewrite filter_cons_True by (apply Hl, list_elem_of_here).
  f_equal. apply IH. intros. by apply Hl, list_elem_of_further.
Qed.

Lemma list_filter_none {A} (P : A → Prop) `{!∀ x, Decision (P x)} (l : list A) :
  (∀ x, x ∈ l → ¬ P x) → filter P l = [].
Proof.
  induction l as [|x l IH]; intros Hl; [done|].
  rewrite filter_cons_False by (apply Hl, list_elem_of_here).
  apply IH. intros. by apply Hl, list_elem_of_further.
Qed.

(** The bytes of an ASCII string literal. *)
Definition str_bytes (s : string) : list Z :=
  map (λ a, Z.of_nat (Ascii.nat_of_ascii a)) (String.list_ascii_of_string s).

(** ** Status codes of the UEFI services *)

Inductive EFI_STATUS :=
  | EFI_SUCCESS | EFI_INVALID_PARAMETER | EFI_UNSUPPORTED | EFI_BUFFER_TOO_SMALL
  | EFI_OUT_OF_RESOURCES | EFI_NOT_FOUND | EFI_WRITE_PROTECTED | EFI_ALREADY_STARTED
  | EFI_DEVICE_ERROR | EFI_NO_MAPPING | EFI_NO_MEDIA | EFI_MEDIA_CHANGED | EFI_BAD_BUFFER_SIZE
  | EFI_ACCESS_DENIED | EFI_NOT_READY.

#[global] Instance EFI_STATUS_eq_dec : EqDecision EFI_STATUS.
Proof. solve_decision. Defined.

Definition EFI_ERROR (s : EFI_STATUS) : bool :=
  match s with EFI_SUCCESS => false | _ => true end.

(** ** A state monad with failure

    [M S A] runs on a state [S]; [None] is undefined behaviour of the C code
    (a division by zero, a null dereference, an access outside an array), so a
    theorem that a run is [Some _] is a memory-safety statement. *)

Definition M (S A : Type) : Type := S → option (A * S).

#[global] Instance M_ret S : MRet (M S) := λ A a s, Some (a, s).
#[global] Instance M_bind S : MBind (M S) := λ A B k m s,
  match m s with
  | Some (a, s') => k a s'
  | None => None
  end.

Definition gets {S A} (f : S → A) : M S A := λ s, Some (f s, s).
Definition modify {S} (f : S → S) : M S unit := λ s, Some (tt, f s).
Definition undef {S A} : M S A := λ _, None.

Lemma M_bind_Some {S A B} (m : M S A) (k : A → M S B) s r :
  (m ≫= k) s = Some r ↔ ∃ a s', m s = Some (a, s') ∧ k a s' = Some r.
Proof.
  unfold mbind, M_bind. destruct (m s) as [[a s']|].
  - split; [by eauto|]. intros (?&?&?&?). by simplify_eq.
  - split; [done|]. by intros (?&?&?&?).
Qed.

Lemma bind_gets {S A B} (f : S → A) (k : A → M S B) s : (gets f ≫= k) s = k (f s) s.
Proof. done. Qed.

Lemma bind_modify {S B} (f : S → S) (k : unit → M S B) s : (modify f ≫= k) s = k tt (f s).
Proof. done. Qed.

Lemma bind_ret {S A B} (a : A) (k : A → M S B) s : (mret a ≫= k) s = k a s.
Proof. done. Qed.

Lemma bind_eq {S A B} (m : M S A) (k : A → M S B) s a s' :
  m s = Some (a, s') → (m ≫= k) s = k a s'.
Proof. intros E. unfold mbind, M_bind. by rewrite E. Qed.

(** Use [Some (a, s) = Some (b, t)], replacing the later names [b] and [t]. *)
Ltac m_subst H :=
  lazymatch type of H with
  | Some (?a, ?s) = Some (?b, ?t) =>
      apply (inj Some) in H;
      let Ha := fresh in let Hs := fresh in
      pose proof (f_equal fst H) as Ha; pose proof (f_equal snd H) as Hs; cbn [fst snd] in Ha, Hs; clear H;
      first [subst t | idtac]; first [subst b | idtac]; simplify_eq
  end.

(** Split every monadic bind in hypotheses into its two steps. *)
Ltac m_inv :=
  repeat match goal with
  | H : (_ ≫= _) _ = Some _ |- _ =>
      apply M_bind_Some in H; destruct H as (?&?&?&H)
  | H : mret _ _ = Some _ |- _ => unfold mret, M_ret in H; m_subst H
  | H : gets _ _ = Some _ |- _ => unfold gets in H; m_subst H
  | H : modify _ _ = Some _ |- _ => unfold modify in H; m_subst H
  | H : undef _ = Some _ |- _ => discriminate H
  end.

(** ** Booleans as propositions *)

Lemma orb_false b1 b2 : b1 || b2 = false ↔ b1 = false ∧ b2 = false.
Proof. apply orb_false_iff. Qed.

(** Reflect the integer tests of the code into propositions. *)
Ltac zbool :=
  repeat match goal with
  | H : (_ && _) = true |- _ => apply andb_true_iff in H; destruct H
  | H : (_ || _) = false |- _ => apply orb_false_iff in H; destruct H
  | H : negb _ = true |- _ => apply negb_true_iff in H
  | H : negb _ = false |- _ => apply negb_false_iff in H
  | H : (_ =? _)%Z = true |- _ => apply Z.eqb_eq in H
  | H : (_ =? _)%Z = false |- _ => apply Z.eqb_neq in H
  | H : (_ <? _)%Z = true |- _ => apply Z.ltb_lt in H
  | H : (_ <? _)%Z = false |- _ => apply Z.ltb_ge in H
  | H : (_ <=? _)%Z = true |- _ => apply Z.leb_le in H
  | H : (_ <=? _)%Z = false |- _ => apply Z.leb_gt in H
  | H : (_ =? _)%nat = true |- _ => apply Nat.eqb_eq in H
  | H : (_ =? _)%nat = false |- _ => apply Nat.eqb_neq in H
  | H : (_ <? _)%nat = true |- _ => apply Nat.ltb_lt in H
  | H : (_ <? _)%nat = false |- _ => apply Nat.ltb_ge in H
  | H : (_ <=? _)%nat = true |- _ => apply Nat.leb_le in H
  | H : (_ <=? _)%nat = false |- _ => apply Nat.leb_gt in H
  end.

Create HintDb clover.
Create Rewrite HintDb clover.
#[export] Hint Resolve le_put_bytes Forall_slice Forall_store wrap32_range wrap64_range : clover.
#[export] Hint Rewrite length_store length_le_put : clover.

(** ** Parts of the state a computation does not change *)

Definition keeps {S A X} (f : S → X) (m : M S A) : Prop :=
  ∀ s a s', m s = Some (a, s') → f s' = f s.

Section Keeps.
Context {S X : Type} (f : S → X).

Lemma keeps_ret {A} (a : A) : keeps f (mret a : M S A).
Proof. by intros s b s' [= <- <-]. Qed.

Lemma keeps_gets {A} (g : S → A) : keeps f (gets g).
Proof. by intros s b s' [= <- <-]. Qed.

Lemma keeps_undef {A} : keeps f (undef : M S A).
Proof. by intros s b s' [=]. Qed.

Lemma keeps_modify g : (∀ s, f (g s) = f s) → keeps f (modify g).
Proof. intros Hg s b s' [= <- <-]. apply Hg. Qed.

Lemma keeps_bind {A B} (m : M S A) (k : A → M S B) :
  keeps f m → (∀ a, keeps f (k a)) → keeps f (m ≫= k).
Proof.
  intros Hm Hk s b s'' (a & s' & H1 & H2)%M_bind_Some.
  by rewrite (Hk a _ _ _ H2), (Hm _ _ _ H1).
Qed.
End Keeps.

#[export] Hint Resolve keeps_ret keeps_gets keeps_undef : clover.

(** Decompose a program into its primitive steps. *)
Ltac keeps_tac :=
  repeat first
    [ progress intros
    | solve [auto with clover]
    | apply keeps_bind
    | apply keeps_modify
    | case_match ].

(** An invariant that a computation preserves. *)
Definition preserves {S A} (P : S → Prop) (m : M S A) : Prop :=
  ∀ s a s', P s → m s = Some (a, s') → P s'.

Section Preserves.
Context {S : Type} (P : S → Prop).

Lemma preserves_ret {A} (a : A) : preserves P (mret a : M S A).
Proof. by intros s b s' ? [= <- <-]. Qed.

Lemma preserves_gets {A} (g : S → A) : preserves P (gets g).
Proof. by intros s b s' ? [= <- <-]. Qed.

Lemma preserves_undef {A} : preserves P (undef : M S A).
Proof. by intros s b s' ? [=]. Qed.

Lemma preserves_modify g : (∀ s, P s → P (g s)) → preserves P (modify g).
Proof. intros Hg s b s' ? [= <- <-]. by apply Hg. Qed.

Lemma preserves_bind {A B} (m : M S A) (k : A → M S B) :
  preserves P m → (∀ a, preserves P (k a)) → preserves P (m ≫= k).
Proof.
  intros Hm Hk s b s'' Hs (a & s' & H1 & H2)%M_bind_Some.
  eapply Hk; [|done]. by eapply Hm.
Qed.
End Preserves.

#[export] Hint Resolve preserves_ret preserves_gets preserves_undef : clover.

Ltac preserves_tac :=
  repeat first
    [ progress intros
    | solve [auto with clover]
    | apply preserves_bind
    | apply preserves_modify
    | case_match ].
