(* ===== verification/GptLib.v ===== *)
(** * gptsync/lib.c and gptsync/os_efi.c: reading both partition tables

    The data of [gptsync/gptsync.h], the module variables of [gptsync/lib.c] as
    the fields of [State], the type tables, and the functions that read the MBR,
    the GPT and the first sectors of a partition.  The block device is the UEFI
    Block I/O protocol, which the program only calls: it is the class [BlockIo],
    with the documented behaviour the theorems rely on in [BlockIoLaws].
    Console output ([Print]) is not modelled. *)

From Stdlib Require Import ZArith Lia.
From stdpp Require Import base list list_numbers strings.
From S2P Require Import Prelude.

Open Scope Z_scope.

(** ** The block device *)

Class BlockIo (D : Type) := {
  ReadBlocks : D → Z → option (list Z);
  WriteBlocks : D → Z → list Z → bool * D
}.

(** Documented behaviour of EFI_BLOCK_IO_PROTOCOL with a 512-byte block size.  Nothing is
    said of the device after a write that failed. *)
Class BlockIoLaws (D : Type) `{BlockIo D} := {
  read_block_size d lba b : ReadBlocks d lba = Some b → length b = 512%nat;
  read_block_bytes d lba b : ReadBlocks d lba = Some b → Forall is_byte b;
  read_after_write d d' lba b :
    WriteBlocks d lba b = (true, d') → length b = 512%nat → Forall is_byte b →
    ReadBlocks d' lba = Some b;
  read_other_block d d' lba lba' b :
    WriteBlocks d lba b = (true, d') → lba' ≠ lba → ReadBlocks d' lba' = ReadBlocks d lba'
}.

(** A RAM disk: sectors that are not 512 bytes cannot be read or written. *)
Abbreviation RamDisk := (list (list Z)).

Definition good_sector (b : list Z) : Prop := length b = 512%nat ∧ Forall is_byte b.

#[global] Instance is_byte_dec b : Decision (is_byte b).
Proof. unfold is_byte. apply _. Defined.
#[global] Instance good_sector_dec b : Decision (good_sector b).
Proof. unfold good_sector. apply _. Defined.

#[global] Instance RamDisk_BlockIo : BlockIo RamDisk := {
  ReadBlocks d lba :=
    if decide (0 ≤ lba) then
      match d !! Z.to_nat lba with
      | Some b => if decide (good_sector b) then Some b else None
      | None => None
      end
    else None;
  WriteBlocks d lba b :=
    if decide (0 ≤ lba < Z.of_nat (length d)) then (true, <[Z.to_nat lba := b]> d) else (false, d)
}.

Lemma ramdisk_read (d : RamDisk) lba b :
  ReadBlocks d lba = Some b ↔ 0 ≤ lba ∧ d !! Z.to_nat lba = Some b ∧ good_sector b.
Proof.
  unfold ReadBlocks, RamDisk_BlockIo. split.
  - repeat case_match; intros; simplify_eq; eauto.
  - intros (?&Hl&?). by rewrite decide_True, Hl, decide_True.
Qed.

Lemma ramdisk_write (d d' : RamDisk) lba b :
  WriteBlocks d lba b = (true, d') ↔
  0 ≤ lba < Z.of_nat (length d) ∧ d' = <[Z.to_nat lba := b]> d.
Proof. unfold WriteBlocks, RamDisk_BlockIo. case_decide; split; [by intros [= <-]|by intros [_ ->]|done|by intros [? _]]. Qed.

#[global] Instance RamDisk_laws : BlockIoLaws RamDisk.
Proof.
  split.
  - intros d lba b (?&?&[]) % ramdisk_read. done.
  - intros d lba b (?&?&[]) % ramdisk_read. done.
  - intros d d' lba b [? ->]%ramdisk_write ??. apply ramdisk_read.
    split; [lia|]. split; [|done]. apply list_lookup_insert_eq. lia.
  - intros d d' lba lba' b [? ->]%ramdisk_write ?.
    apply option_eq. intros x. rewrite !ramdisk_read.
    split; intros (?&Hl&?); (split; [done|]; split; [|done]).
    + by rewrite list_lookup_insert_ne in Hl by lia.
    + by rewrite list_lookup_insert_ne by lia.
Qed.

(** ** Data of gptsync.h *)

Inductive GPT_KIND := GPT_KIND_SYSTEM | GPT_KIND_DATA | GPT_KIND_BASIC_DATA | GPT_KIND_FATAL.

#[global] Instance GPT_KIND_eq_dec : EqDecision GPT_KIND.
Proof. solve_decision. Defined.

Record MBR_PARTTYPE := { mt_type : Z; mt_name : string }.

Record GPT_PARTTYPE := {
  gt_guid : list Z;
  gt_mbr_type : Z;
  gt_name : string;
  gt_kind : GPT_KIND
}.

(** [gpt_parttype] is a pointer: [None] is NULL. *)
Record PARTITION_INFO := {
  index : Z;
  start_lba : Z;
  end_lba : Z;
  mbr_type : Z;
  gpt_type : list Z;
  gpt_parttype : option GPT_PARTTYPE;
  active : bool
}.

#[global] Instance GPT_PARTTYPE_eq_dec : EqDecision GPT_PARTTYPE.
Proof. solve_decision. Defined.
#[global] Instance PARTITION_INFO_eq_dec : EqDecision PARTITION_INFO.
Proof. solve_decision. Defined.

(** The zero-initialised array element. *)
Definition zero_part : PARTITION_INFO := {|
  index := 0; start_lba := 0; end_lba := 0; mbr_type := 0;
  gpt_type := replicate 16 0; gpt_parttype := None; active := false |}.

#[global] Instance PARTITION_INFO_inhabited : Inhabited PARTITION_INFO := populate zero_part.

Definition set_mbr_type (t : Z) (p : PARTITION_INFO) : PARTITION_INFO := {|
  index := index p; start_lba := start_lba p; end_lba := end_lba p; mbr_type := t;
  gpt_type := gpt_type p; gpt_parttype := gpt_parttype p; active := active p |}.

Definition set_active (b : bool) (p : PARTITION_INFO) : PARTITION_INFO := {|
  index := index p; start_lba := start_lba p; end_lba := end_lba p; mbr_type := mbr_type p;
  gpt_type := gpt_type p; gpt_parttype := gpt_parttype p; active := b |}.

(** ** Tables of lib.c *)

Definition mbr_types : list MBR_PARTTYPE := [
  {| mt_type := 0x01; mt_name := "FAT12 (CHS)" |};
  {| mt_type := 0x04; mt_name := "FAT16 <32M (CHS)" |};
  {| mt_type := 0x05; mt_name := "Extended (CHS)" |};
  {| mt_type := 0x06; mt_name := "FAT16 (CHS)" |};
  {| mt_type := 0x07; mt_name := "NTFS/HPFS" |};
  {| mt_type := 0x0b; mt_name := "FAT32 (CHS)" |};
  {| mt_type := 0x0c; mt_name := "FAT32 (LBA)" |};
  {| mt_type := 0x0e; mt_name := "FAT16 (LBA)" |};
  {| mt_type := 0x0f; mt_name := "Extended (LBA)" |};
  {| mt_type := 0x11; mt_name := "Hidden FAT12 (CHS)" |};
  {| mt_type := 0x14; mt_name := "Hidden FAT16 <32M (CHS)" |};
  {| mt_type := 0x16; mt_name := "Hidden FAT16 (CHS)" |};
  {| mt_type := 0x17; mt_name := "Hidden NTFS/HPFS" |};
  {| mt_type := 0x1b; mt_name := "Hidden FAT32 (CHS)" |};
  {| mt_type := 0x1c; mt_name := "Hidden FAT32 (LBA)" |};
  {| mt_type := 0x1e; mt_name := "Hidden FAT16 (LBA)" |};
  {| mt_type := 0x82; mt_name := "Linux swap / Solaris" |};
  {| mt_type := 0x83; mt_name := "Linux" |};
  {| mt_type := 0x85; mt_name := "Linux Extended" |};
  {| mt_type := 0x86; mt_name := "NT FAT volume set" |};
  {| mt_type := 0x87; mt_name := "NTFS volume set" |};
  {| mt_type := 0x8e; mt_name := "Linux LVM" |};
  {| mt_type := 0xa5; mt_name := "FreeBSD" |};
  {| mt_type := 0xa6; mt_name := "OpenBSD" |};
  {| mt_type := 0xa7; mt_name := "NeXTSTEP" |};
  {| mt_type := 0xa8; mt_name := "Mac OS X UFS" |};
  {| mt_type := 0xa9; mt_name := "NetBSD" |};
  {| mt_type := 0xab; mt_name := "Mac OS X Boot" |};
  {| mt_type := 0xac; mt_name := "Apple RAID" |};
  {| mt_type := 0xaf; mt_name := "Mac OS X HFS+" |};
  {| mt_type := 0xbe; mt_name := "Solaris Boot" |};
  {| mt_type := 0xbf; mt_name := "Solaris" |};
  {| mt_type := 0xeb; mt_name := "BeOS" |};
  {| mt_type := 0xee; mt_name := "EFI Protective" |};
  {| mt_type := 0xef; mt_name := "EFI System (FAT)" |};
  {| mt_type := 0xfd; mt_name := "Linux RAID" |}
].

Definition gpt_types : list GPT_PARTTYPE := [
  {| gt_guid := [0x28; 0x73; 0x2A; 0xC1; 0x1F; 0xF8; 0xD2; 0x11; 0xBA; 0x4B; 0x00; 0xA0; 0xC9; 0x3E; 0xC9; 0x3B];
     gt_mbr_type := 0xef; gt_name := "EFI System (FAT)"; gt_kind := GPT_KIND_SYSTEM |};
  {| gt_guid := [0x41; 0xEE; 0x4D; 0x02; 0xE7; 0x33; 0xD3; 0x11; 0x9D; 0x69; 0x00; 0x08; 0xC7; 0x81; 0xF3; 0x9F];
     gt_mbr_type := 0x00; gt_name := "MBR partition scheme"; gt_kind := GPT_KIND_FATAL |};
  {| gt_guid := [0x16; 0xE3; 0xC9; 0xE3; 0x5C; 0x0B; 0xB8; 0x4D; 0x81; 0x7D; 0xF9; 0x2D; 0xF0; 0x02; 0x15; 0xAE];
     gt_mbr_type := 0x00; gt_name := "MS Reserved"; gt_kind := GPT_KIND_SYSTEM |};
  {| gt_guid := [0xA2; 0xA0; 0xD0; 0xEB; 0xE5; 0xB9; 0x33; 0x44; 0x87; 0xC0; 0x68; 0xB6; 0xB7; 0x26; 0x99; 0xC7];
     gt_mbr_type := 0x00; gt_name := "Basic Data"; gt_kind := GPT_KIND_BASIC_DATA |};
  {| gt_guid := [0xAA; 0xC8; 0x08; 0x58; 0x8F; 0x7E; 0xE0; 0x42; 0x85; 0xD2; 0xE1; 0xE9; 0x04; 0x34; 0xCF; 0xB3];
     gt_mbr_type := 0x00; gt_name := "MS LDM Metadata"; gt_kind := GPT_KIND_FATAL |};
  {| gt_guid := [0xA0; 0x60; 0x9B; 0xAF; 0x31; 0x14; 0x62; 0x4F; 0xBC; 0x68; 0x33; 0x11; 0x71; 0x4A; 0x69; 0xAD];
     gt_mbr_type := 0x00; gt_name := "MS LDM Data"; gt_kind := GPT_KIND_FATAL |};
  {| gt_guid := [0x1E; 0x4C; 0x89; 0x75; 0xEB; 0x3A; 0xD3; 0x11; 0xB7; 0xC1; 0x7B; 0x03; 0xA0; 0x00; 0x00; 0x00];
     gt_mbr_type := 0x00; gt_name := "HP/UX Data"; gt_kind := GPT_KIND_DATA |};
  {| gt_guid := [0x28; 0xE7; 0xA1; 0xE2; 0xE3; 0x32; 0xD6; 0x11; 0xA6; 0x82; 0x7B; 0x03; 0xA0; 0x00; 0x00; 0x00];
     gt_mbr_type := 0x00; gt_name := "HP/UX Service"; gt_kind := GPT_KIND_SYSTEM |};
  {| gt_guid := [0x0F; 0x88; 0x9D; 0xA1; 0xFC; 0x05; 0x3B; 0x4D; 0xA0; 0x06; 0x74; 0x3F; 0x0F; 0x84; 0x91; 0x1E];
     gt_mbr_type := 0xfd; gt_name := "Linux RAID"; gt_kind := GPT_KIND_DATA |};
  {| gt_guid := [0x6D; 0xFD; 0x57; 0x06; 0xAB; 0xA4; 0xC4; 0x43; 0x84; 0xE5; 0x09; 0x33; 0xC8; 0x4B; 0x4F; 0x4F];
     gt_mbr_type := 0x82; gt_name := "Linux Swap"; gt_kind := GPT_KIND_SYSTEM |};
  {| gt_guid := [0x79; 0xD3; 0xD6; 0xE6; 0x07; 0xF5; 0xC2; 0x44; 0xA2; 0x3C; 0x23; 0x8F; 0x2A; 0x3D; 0xF9; 0x28];
     gt_mbr_type := 0x8e; gt_name := "Linux LVM"; gt_kind := GPT_KIND_DATA |};
  {| gt_guid := [0x39; 0x33; 0xA6; 0x8D; 0x07; 0x00; 0xC0; 0x60; 0xC4; 0x36; 0x08; 0x3A; 0xC8; 0x23; 0x09; 0x08];
     gt_mbr_type := 0x00; gt_name := "Linux Reserved"; gt_kind := GPT_KIND_SYSTEM |};
  {| gt_guid := [0x48; 0x61; 0x68; 0x21; 0x49; 0x64; 0x6F; 0x6E; 0x74; 0x4E; 0x65; 0x65; 0x64; 0x45; 0x46; 0x49];
     gt_mbr_type := 0x00; gt_name := "GRUB2 BIOS Boot"; gt_kind := GPT_KIND_SYSTEM |};
  {| gt_guid := [0xB4; 0x7C; 0x6E; 0x51; 0xCF; 0x6E; 0xD6; 0x11; 0x8F; 0xF8; 0x00; 0x02; 0x2D; 0x09; 0x71; 0x2B];
     gt_mbr_type := 0xa5; gt_name := "FreeBSD Data"; gt_kind := GPT_KIND_DATA |};
  {| gt_guid := [0xB5; 0x7C; 0x6E; 0x51; 0xCF; 0x6E; 0xD6; 0x11; 0x8F; 0xF8; 0x00; 0x02; 0x2D; 0x09; 0x71; 0x2B];
     gt_mbr_type := 0x00; gt_name := "FreeBSD Swap"; gt_kind := GPT_KIND_SYSTEM |};
  {| gt_guid := [0xB6; 0x7C; 0x6E; 0x51; 0xCF; 0x6E; 0xD6; 0x11; 0x8F; 0xF8; 0x00; 0x02; 0x2D; 0x09; 0x71; 0x2B];
     gt_mbr_type := 0xa5; gt_name := "FreeBSD UFS"; gt_kind := GPT_KIND_DATA |};
  {| gt_guid := [0xB8; 0x7C; 0x6E; 0x51; 0xCF; 0x6E; 0xD6; 0x11; 0x8F; 0xF8; 0x00; 0x02; 0x2D; 0x09; 0x71; 0x2B];
     gt_mbr_type := 0x00; gt_name := "FreeBSD Vinum"; gt_kind := GPT_KIND_DATA |};
  {| gt_guid := [0xBA; 0x7C; 0x6E; 0x51; 0xCF; 0x6E; 0xD6; 0x11; 0x8F; 0xF8; 0x00; 0x02; 0x2D; 0x09; 0x71; 0x2B];
     gt_mbr_type := 0xa5; gt_name := "FreeBSD ZFS"; gt_kind := GPT_KIND_DATA |};
  {| gt_guid := [0x9D; 0x6B; 0xBD; 0x83; 0x41; 0x7F; 0xDC; 0x11; 0xBE; 0x0B; 0x00; 0x15; 0x60; 0xB8; 0x4F; 0x0F];
     gt_mbr_type := 0xa5; gt_name := "FreeBSD Boot"; gt_kind := GPT_KIND_DATA |};
  {| gt_guid := [0x32; 0x8D; 0xF4; 0x49; 0x0E; 0xB1; 0xDC; 0x11; 0xB9; 0x9B; 0x00; 0x19; 0xD1; 0x87; 0x96; 0x48];
     gt_mbr_type := 0x00; gt_name := "NetBSD Swap"; gt_kind := GPT_KIND_SYSTEM |};
  {| gt_guid := [0x5A; 0x8D; 0xF4; 0x49; 0x0E; 0xB1; 0xDC; 0x11; 0xB9; 0x9B; 0x00; 0x19; 0xD1; 0x87; 0x96; 0x48];
     gt_mbr_type := 0xa9; gt_name := "NetBSD FFS"; gt_kind := GPT_KIND_DATA |};
  {| gt_guid := [0x82; 0x8D; 0xF4; 0x49; 0x0E; 0xB1; 0xDC; 0x11; 0xB9; 0x9B; 0x00; 0x19; 0xD1; 0x87; 0x96; 0x48];
     gt_mbr_type := 0xa9; gt_name := "NetBSD LFS"; gt_kind := GPT_KIND_DATA |};
  {| gt_guid := [0xAA; 0x8D; 0xF4; 0x49; 0x0E; 0xB1; 0xDC; 0x11; 0xB9; 0x9B; 0x00; 0x19; 0xD1; 0x87; 0x96; 0x48];
     gt_mbr_type := 0xa9; gt_name := "NetBSD RAID"; gt_kind := GPT_KIND_DATA |};
  {| gt_guid := [0xC4; 0x19; 0xB5; 0x2D; 0x0E; 0xB1; 0xDC; 0x11; 0xB9; 0x9B; 0x00; 0x19; 0xD1; 0x87; 0x96; 0x48];
     gt_mbr_type := 0xa9; gt_name := "NetBSD CCD"; gt_kind := GPT_KIND_DATA |};
  {| gt_guid := [0xEC; 0x19; 0xB5; 0x2D; 0x0E; 0xB1; 0xDC; 0x11; 0xB9; 0x9B; 0x00; 0x19; 0xD1; 0x87; 0x96; 0x48];
     gt_mbr_type := 0xa9; gt_name := "NetBSD CGD"; gt_kind := GPT_KIND_DATA |};
  {| gt_guid := [0x00; 0x53; 0x46; 0x48; 0x00; 0x00; 0xAA; 0x11; 0xAA; 0x11; 0x00; 0x30; 0x65; 0x43; 0xEC; 0xAC];
     gt_mbr_type := 0xaf; gt_name := "Mac OS X HFS+"; gt_kind := GPT_KIND_DATA |};
  {| gt_guid := [0x00; 0x53; 0x46; 0x55; 0x00; 0x00; 0xAA; 0x11; 0xAA; 0x11; 0x00; 0x30; 0x65; 0x43; 0xEC; 0xAC];
     gt_mbr_type := 0xa8; gt_name := "Mac OS X UFS"; gt_kind := GPT_KIND_DATA |};
  {| gt_guid := [0x74; 0x6F; 0x6F; 0x42; 0x00; 0x00; 0xAA; 0x11; 0xAA; 0x11; 0x00; 0x30; 0x65; 0x43; 0xEC; 0xAC];
     gt_mbr_type := 0xab; gt_name := "Mac OS X Boot"; gt_kind := GPT_KIND_DATA |};
  {| gt_guid := [0x44; 0x49; 0x41; 0x52; 0x00; 0x00; 0xAA; 0x11; 0xAA; 0x11; 0x00; 0x30; 0x65; 0x43; 0xEC; 0xAC];
     gt_mbr_type := 0xac; gt_name := "Apple RAID"; gt_kind := GPT_KIND_DATA |};
  {| gt_guid := [0x44; 0x49; 0x41; 0x52; 0x4F; 0x5F; 0xAA; 0x11; 0xAA; 0x11; 0x00; 0x30; 0x65; 0x43; 0xEC; 0xAC];
     gt_mbr_type := 0xac; gt_name := "Apple RAID (Offline)"; gt_kind := GPT_KIND_DATA |};
  {| gt_guid := [0x65; 0x62; 0x61; 0x4C; 0x00; 0x6C; 0xAA; 0x11; 0xAA; 0x11; 0x00; 0x30; 0x65; 0x43; 0xEC; 0xAC];
     gt_mbr_type := 0x00; gt_name := "Apple Label"; gt_kind := GPT_KIND_SYSTEM |};
  {| gt_guid := [0x6F; 0x63; 0x65; 0x52; 0x65; 0x76; 0xAA; 0x11; 0xAA; 0x11; 0x00; 0x30; 0x65; 0x43; 0xEC; 0xAC];
     gt_mbr_type := 0x00; gt_name := "Apple TV Recovery"; gt_kind := GPT_KIND_BASIC_DATA |};
  {| gt_guid := [0x7f; 0x23; 0x96; 0x6A; 0xD2; 0x1D; 0xB2; 0x11; 0x99; 0xa6; 0x08; 0x00; 0x20; 0x73; 0x66; 0x31];
     gt_mbr_type := 0x00; gt_name := "Solaris Reserved"; gt_kind := GPT_KIND_SYSTEM |};
  {| gt_guid := [0x45; 0xCB; 0x82; 0x6A; 0xD2; 0x1D; 0xB2; 0x11; 0x99; 0xa6; 0x08; 0x00; 0x20; 0x73; 0x66; 0x31];
     gt_mbr_type := 0xbf; gt_name := "Solaris Boot"; gt_kind := GPT_KIND_DATA |};
  {| gt_guid := [0x4D; 0xCF; 0x85; 0x6A; 0xD2; 0x1D; 0xB2; 0x11; 0x99; 0xa6; 0x08; 0x00; 0x20; 0x73; 0x66; 0x31];
     gt_mbr_type := 0xbf; gt_name := "Solaris Root"; gt_kind := GPT_KIND_DATA |};
  {| gt_guid := [0x6F; 0xC4; 0x87; 0x6A; 0xD2; 0x1D; 0xB2; 0x11; 0x99; 0xa6; 0x08; 0x00; 0x20; 0x73; 0x66; 0x31];
     gt_mbr_type := 0x00; gt_name := "Solaris Swap"; gt_kind := GPT_KIND_SYSTEM |};
  {| gt_guid := [0xC3; 0x8C; 0x89; 0x6A; 0xD2; 0x1D; 0xB2; 0x11; 0x99; 0xa6; 0x08; 0x00; 0x20; 0x73; 0x66; 0x31];
     gt_mbr_type := 0xbf; gt_name := "Solaris Usr / Apple ZFS"; gt_kind := GPT_KIND_DATA |};
  {| gt_guid := [0x2B; 0x64; 0x8B; 0x6A; 0xD2; 0x1D; 0xB2; 0x11; 0x99; 0xa6; 0x08; 0x00; 0x20; 0x73; 0x66; 0x31];
     gt_mbr_type := 0x00; gt_name := "Solaris Backup"; gt_kind := GPT_KIND_SYSTEM |};
  {| gt_guid := [0xC7; 0x2A; 0x8D; 0x6A; 0xD2; 0x1D; 0xB2; 0x11; 0x99; 0xa6; 0x08; 0x00; 0x20; 0x73; 0x66; 0x31];
     gt_mbr_type := 0x00; gt_name := "Solaris Reserved (Stand)"; gt_kind := GPT_KIND_SYSTEM |};
  {| gt_guid := [0xE9; 0xF2; 0x8E; 0x6A; 0xD2; 0x1D; 0xB2; 0x11; 0x99; 0xa6; 0x08; 0x00; 0x20; 0x73; 0x66; 0x31];
     gt_mbr_type := 0xbf; gt_name := "Solaris Var"; gt_kind := GPT_KIND_DATA |};
  {| gt_guid := [0x39; 0xBA; 0x90; 0x6A; 0xD2; 0x1D; 0xB2; 0x11; 0x99; 0xa6; 0x08; 0x00; 0x20; 0x73; 0x66; 0x31];
     gt_mbr_type := 0xbf; gt_name := "Solaris Home"; gt_kind := GPT_KIND_DATA |};
  {| gt_guid := [0xA5; 0x83; 0x92; 0x6A; 0xD2; 0x1D; 0xB2; 0x11; 0x99; 0xa6; 0x08; 0x00; 0x20; 0x73; 0x66; 0x31];
     gt_mbr_type := 0x00; gt_name := "Solaris Alternate Sector"; gt_kind := GPT_KIND_SYSTEM |};
  {| gt_guid := [0x3B; 0x5A; 0x94; 0x6A; 0xD2; 0x1D; 0xB2; 0x11; 0x99; 0xa6; 0x08; 0x00; 0x20; 0x73; 0x66; 0x31];
     gt_mbr_type := 0x00; gt_name := "Solaris Reserved (Cache)"; gt_kind := GPT_KIND_SYSTEM |};
  {| gt_guid := [0xD1; 0x30; 0x96; 0x6A; 0xD2; 0x1D; 0xB2; 0x11; 0x99; 0xa6; 0x08; 0x00; 0x20; 0x73; 0x66; 0x31];
     gt_mbr_type := 0x00; gt_name := "Solaris Reserved"; gt_kind := GPT_KIND_SYSTEM |};
  {| gt_guid := [0x67; 0x07; 0x98; 0x6A; 0xD2; 0x1D; 0xB2; 0x11; 0x99; 0xa6; 0x08; 0x00; 0x20; 0x73; 0x66; 0x31];
     gt_mbr_type := 0x00; gt_name := "Solaris Reserved"; gt_kind := GPT_KIND_SYSTEM |}
].

Definition empty_guid : list Z := replicate 16 0.

Definition gpt_dummy_type : GPT_PARTTYPE := {|
  gt_guid := replicate 16 0; gt_mbr_type := 0; gt_name := "Unknown"; gt_kind := GPT_KIND_FATAL |}.

Definition mbr_parttype_name (type : Z) : string :=
  match list_find (λ t, mt_type t = type) mbr_types with
  | Some (_, t) => mt_name t
  | None => "Unknown"
  end.

Definition find_gpt_parttype (type_guid : list Z) : GPT_PARTTYPE :=
  match list_find (λ t, gt_guid t = type_guid) gpt_types with
  | Some (_, t) => t
  | None => gpt_dummy_type
  end.
(** ** Module state *)

(** The console keyboard: keys already buffered, and the batches of keys that
    arrive during each later stall or wait. *)
Record Keyboard := { pending : list Z; arrivals : list (list Z) }.

Record State (D : Type) := mkState {
  BlockIO : option D;
  BlockIO2 : option D;
  sector : list Z;
  mbr_parts : list PARTITION_INFO;
  mbr_part_count : nat;
  gpt_parts : list PARTITION_INFO;
  gpt_part_count : nat;
  new_mbr_parts : list PARTITION_INFO;
  new_mbr_part_count : nat;
  keyboard : Keyboard
}.
Arguments mkState {_}. Arguments BlockIO {_}. Arguments BlockIO2 {_}. Arguments sector {_}.
Arguments mbr_parts {_}. Arguments mbr_part_count {_}. Arguments gpt_parts {_}.
Arguments gpt_part_count {_}. Arguments new_mbr_parts {_}. Arguments new_mbr_part_count {_}.
Arguments keyboard {_}.

(** The static initialisation of lib.c and os_efi.c. *)
Definition init_state {D} (k : Keyboard) : State D := {|
  BlockIO := None; BlockIO2 := None; sector := replicate 512 0;
  mbr_parts := replicate 4 zero_part; mbr_part_count := 0;
  gpt_parts := replicate 128 zero_part; gpt_part_count := 0;
  new_mbr_parts := replicate 4 zero_part; new_mbr_part_count := 0;
  keyboard := k |}.

Section Setters.
Context {D : Type}.
Implicit Types s : State D.

Definition with_dev (b b2 : option D) s : State D :=
  mkState b b2 (sector s) (mbr_parts s) (mbr_part_count s) (gpt_parts s)
    (gpt_part_count s) (new_mbr_parts s) (new_mbr_part_count s) (keyboard s).
Definition with_sector (x : list Z) s : State D :=
  mkState (BlockIO s) (BlockIO2 s) x (mbr_parts s) (mbr_part_count s) (gpt_parts s)
    (gpt_part_count s) (new_mbr_parts s) (new_mbr_part_count s) (keyboard s).
Definition with_mbr (x : list PARTITION_INFO) (n : nat) s : State D :=
  mkState (BlockIO s) (BlockIO2 s) (sector s) x n (gpt_parts s)
    (gpt_part_count s) (new_mbr_parts s) (new_mbr_part_count s) (keyboard s).
Definition with_gpt (x : list PARTITION_INFO) (n : nat) s : State D :=
  mkState (BlockIO s) (BlockIO2 s) (sector s) (mbr_parts s) (mbr_part_count s) x n
    (new_mbr_parts s) (new_mbr_part_count s) (keyboard s).
Definition with_new (x : list PARTITION_INFO) (n : nat) s : State D :=
  mkState (BlockIO s) (BlockIO2 s) (sector s) (mbr_parts s) (mbr_part_count s)
    (gpt_parts s) (gpt_part_count s) x n (keyboard s).
Definition with_keyboard (k : Keyboard) s : State D :=
  mkState (BlockIO s) (BlockIO2 s) (sector s) (mbr_parts s) (mbr_part_count s)
    (gpt_parts s) (gpt_part_count s) (new_mbr_parts s) (new_mbr_part_count s) k.
End Setters.

(** ** Sector I/O (os_efi.c) *)

Section Io.
Context {D : Type} `{BlockIo D}.

(** The device every call uses: [BlockIO2] when it is not NULL. *)
Definition the_dev (s : State D) : option D :=
  match BlockIO2 s with Some d => Some d | None => BlockIO s end.

Definition set_the_dev (d : D) (s : State D) : State D :=
  match BlockIO2 s with
  | Some _ => with_dev (BlockIO s) (Some d) s
  | None => with_dev (Some d) None s
  end.

(** Every call of the program passes the module buffer [sector]. *)
Definition read_sector (lba : Z) : M (State D) Z := λ s,
  match the_dev s with
  | None => None
  | Some d =>
      match ReadBlocks d lba with
      | Some b => Some (0, with_sector b s)
      | None => Some (1, s)
      end
  end.

Definition write_sector (lba : Z) : M (State D) Z := λ s,
  match the_dev s with
  | None => None
  | Some d =>
      let '(ok, d') := WriteBlocks d lba (sector s) in
      Some (if ok then 0 else 1, set_the_dev d' s)
  end.
End Io.

(** ** Reading the MBR *)

Record MBR_PARTITION_INFO := {
  flags : Z;
  start_chs : list Z;
  type : Z;
  end_chs : list Z;
  mstart_lba : Z;
  size : Z
}.

(** [table[i]] with [table = (MBR_PARTITION_INFO * )(sector + 446)]. *)
Definition mbr_entry (sec : list Z) (i : nat) : MBR_PARTITION_INFO := {|
  flags := load 1 (446 + 16 * i) sec;
  start_chs := slice (447 + 16 * i) 3 sec;
  type := load 1 (450 + 16 * i) sec;
  end_chs := slice (451 + 16 * i) 3 sec;
  mstart_lba := load 4 (454 + 16 * i) sec;
  size := load 4 (458 + 16 * i) sec |}.

Definition mbr_signature (sec : list Z) : Z := load 2 510 sec.

Definition entry_used (e : MBR_PARTITION_INFO) : bool :=
  (0 <? mstart_lba e) && (0 <? size e).

Definition entry_bad_flags (e : MBR_PARTITION_INFO) : bool :=
  negb (flags e =? 0x00) && negb (flags e =? 0x80).

Section ReadMbr.
Context {D : Type} `{BlockIo D}.

(** The partition stored for table slot [i]; fields the code does not assign
    keep the value of the array element [old]. *)
Definition mbr_part_of (old : PARTITION_INFO) (i : nat) (e : MBR_PARTITION_INFO) : PARTITION_INFO := {|
  index := Z.of_nat i;
  start_lba := mstart_lba e;
  end_lba := wrap64 (mstart_lba e + size e - 1);
  mbr_type := type e;
  gpt_type := gpt_type old;
  gpt_parttype := gpt_parttype old;
  active := bool_decide (flags e = 0x80) |}.

(** [mbr_parts[mbr_part_count] = ...; mbr_part_count++]. *)
Definition push_mbr (i : nat) (e : MBR_PARTITION_INFO) : M (State D) unit := λ s,
  if (mbr_part_count s <? 4)%nat then
    Some (tt, with_mbr (<[mbr_part_count s :=
        mbr_part_of (mbr_parts s !!! mbr_part_count s) i e]> (mbr_parts s))
      (S (mbr_part_count s)) s)
  else None.

Fixpoint read_mbr_fill (l : list nat) : M (State D) unit :=
  match l with
  | [] => mret tt
  | i :: l =>
      sec ← gets sector;
      let e := mbr_entry sec i in
      (if (mstart_lba e =? 0) || (size e =? 0) then mret tt else push_mbr i e);;
      read_mbr_fill l
  end.

Definition read_mbr : M (State D) Z :=
  status ← read_sector 0;
  if negb (status =? 0) then mret status else
  sec ← gets sector;
  if negb (mbr_signature sec =? 0xaa55) then mret 1 else
  let table := mbr_entry sec <$> seq 0 4 in
  if existsb entry_bad_flags table then mret 1 else
  if negb (existsb entry_used table) then mret 0 else
  read_mbr_fill (seq 0 4);;
  mret 0.
End ReadMbr.

(** ** Reading the GPT *)

Section ReadGpt.
Context {D : Type} `{BlockIo D}.

(** The [GPT_ENTRY] at byte [off] of the sector, as the partition stored for
    table slot [i]. *)
Definition gpt_part_of (sec : list Z) (off : nat) (i : Z) : PARTITION_INFO :=
  let guid := slice off 16 sec in {|
    index := i;
    start_lba := load 8 (off + 32) sec;
    end_lba := load 8 (off + 40) sec;
    mbr_type := 0;
    gpt_type := guid;
    gpt_parttype := Some (find_gpt_parttype guid);
    active := false |}.

Definition push_gpt (p : PARTITION_INFO) : M (State D) unit := λ s,
  if (gpt_part_count s <? 128)%nat then
    Some (tt, with_gpt (<[gpt_part_count s := p]> (gpt_parts s)) (S (gpt_part_count s)) s)
  else None.

(** The body of the loop on [sector + ((i * entry_size) % 512)]; [undef] when a
    field the code reads lies outside the 512-byte buffer, or when the
    128-element array is full. *)
Definition read_gpt_entry (off : nat) (i : Z) : M (State D) unit :=
  sec ← gets sector;
  if (512 <? off + 16)%nat then undef else
  if bool_decide (slice off 16 sec = empty_guid) then mret tt else
  if (512 <? off + 48)%nat then undef else
  push_gpt (gpt_part_of sec off i).

Fixpoint read_gpt_entries (n : nat) (i entry_lba entry_size : Z) : M (State D) Z :=
  match n with
  | O => mret 0
  | S n =>
      let off := (i * entry_size) mod 512 in
      status ← (if off =? 0 then read_sector entry_lba else mret 0);
      if negb (status =? 0) then mret status else
      let entry_lba := if off =? 0 then wrap64 (entry_lba + 1) else entry_lba in
      read_gpt_entry (Z.to_nat off) i;;
      read_gpt_entries n (i + 1) entry_lba entry_size
  end.

Definition read_gpt : M (State D) Z :=
  status ← read_sector 1;
  if negb (status =? 0) then mret status else
  header ← gets sector;
  if negb (load 8 0 header =? 0x5452415020494645) then mret 0 else
  let entry_size := load 4 84 header in
  if entry_size =? 0 then undef else
  if (0 <? 512 mod entry_size) || (512 <? entry_size) then mret 0 else
  read_gpt_entries (Z.to_nat (load 4 80 header)) 0 (load 8 72 header) entry_size.
End ReadGpt.

(** ** Detecting a file system *)

(** What [detect_mbrtype_fs] leaves in [*parttype] and [*fsname]. *)
Definition fs_unknown : Z * string := (0, "Unknown"%string).

Definition match_at (off : nat) (lit : string) (sec : list Z) : bool :=
  bool_decide (slice off (String.length lit) sec = str_bytes lit).

Definition b2z (b : bool) : Z := if b then 1 else 0.

(** The part on the boot sector: XFS, NTFS and FAT. *)
Definition detect_boot_sector (sec : list Z) : option (Z * string) :=
  if load 4 0 sec =? 0x42534658 then Some (0x83, "XFS"%string) else
  let sectsize := load 2 11 sec in
  let clustersize := load 1 13 sec in
  if (512 <=? sectsize) && (Z.land sectsize (sectsize - 1) =? 0)
     && (0 <? clustersize) && (Z.land clustersize (clustersize - 1) =? 0) then
    if match_at 3 "NTFS    " sec then Some (0x07, "NTFS"%string) else
    let reserved := load 2 14 sec in
    let fatcount := load 1 16 sec in
    let score :=
      b2z (((load 1 0 sec =? 0xEB) && (load 1 2 sec =? 0x90)) || (load 1 0 sec =? 0xE9))
      + b2z ((load 1 510 sec =? 0x55) && (load 1 511 sec =? 0xAA))
      + b2z ((reserved =? 1) || (reserved =? 32))
      + b2z (fatcount =? 2)
      + b2z ((load 1 21 sec =? 0xF0) || (0xF8 <=? load 1 21 sec)) in
    let sectcount := if load 2 19 sec =? 0 then load 4 32 sec else load 2 19 sec in
    let fatsize := if load 2 22 sec =? 0 then load 4 36 sec else load 2 22 sec in
    let dirsize := (load 2 17 sec * 32 + (sectsize - 1)) / sectsize in
    let clustercount :=
      wrap64 (sectcount - (reserved + fatcount * fatsize + dirsize)) / clustersize in
    if 3 <=? score then
      if clustercount <? 4085 then Some (0x01, "FAT12"%string)
      else if clustercount <? 65525 then Some (0x0e, "FAT16"%string)
      else Some (0x0c, "FAT32"%string)
    else None
  else None.

(** The part on the sector at 1 KiB: HFS and ext2/3/4. *)
Definition detect_1k_sector (sec : list Z) : option (Z * string) :=
  let signature := load 2 0 sec in
  if signature =? 0x4442 then
    Some (0xaf, if load 2 0x7c sec =? 0x2B48 then "HFS Extended (HFS+)"%string
                else "HFS Standard"%string)
  else if signature =? 0x2B48 then Some (0xaf, "HFS Extended (HFS+)"%string)
  else if load 2 56 sec =? 0xEF53 then
    Some (0x83,
      if negb (Z.land (load 2 96 sec) 0x02C0 =? 0) || negb (Z.land (load 2 100 sec) 0x0078 =? 0)
      then "ext4"%string
      else if negb (Z.land (load 2 92 sec) 0x0004 =? 0) then "ext3"%string else "ext2"%string)
  else None.

Definition is_reiserfs (sec : list Z) : bool :=
  match_at 52 "ReIsErFs" sec || match_at 52 "ReIsEr2Fs" sec || match_at 52 "ReIsEr3Fs" sec.

(** The part on the sector at 64 KiB: btrfs, ReiserFS and Reiser4. *)
Definition detect_64k_sector (sec : list Z) : option (Z * string) :=
  if match_at 64 "_BHRfS_M" sec then Some (0x83, "btrfs"%string)
  else if is_reiserfs sec then Some (0x83, "ReiserFS"%string)
  else if match_at 0 "ReIsEr4" sec then Some (0x83, "Reiser4"%string)
  else None.

Section Detect.
Context {D : Type} `{BlockIo D}.

(** One step of the detection: read a sector, return on a read error or on a
    match, else go on. *)
Definition detect_step (lba : Z) (probe : list Z → option (Z * string))
    (next : M (State D) (Z * (Z * string))) : M (State D) (Z * (Z * string)) :=
  status ← read_sector lba;
  if negb (status =? 0) then mret (status, fs_unknown) else
  sec ← gets sector;
  match probe sec with
  | Some r => mret (0, r)
  | None => next
  end.

Definition detect_mbrtype_fs (partlba : Z) : M (State D) (Z * (Z * string)) :=
  detect_step partlba detect_boot_sector $
  detect_step (wrap64 (partlba + 2)) detect_1k_sector $
  detect_step (wrap64 (partlba + 128)) detect_64k_sector $
  detect_step (wrap64 (partlba + 64))
    (λ sec, if match_at 0 "JFS1" sec then Some (0x83, "JFS"%string) else None) $
  detect_step (wrap64 (partlba + 16))
    (λ sec, if is_reiserfs sec then Some (0x83, "ReiserFS"%string) else None) $
  mret (0, fs_unknown).
End Detect.
