(* ===== verification/GptSync.v ===== *)
(** * gptsync/gptsync.c and gptsync/os_efi.c: synchronising the MBR with the GPT

    The consistency checks of both tables, the analysis that composes the new
    MBR, the routine that writes it, the keyboard prompt and the entry points. *)

From Stdlib Require Import ZArith Lia.
From stdpp Require Import base list list_numbers strings.
From S2P Require Import Prelude.
From S2P Require Import GptLib.

Open Scope Z_scope.

(** ** Boot code (clover_boot0ss_mbr.h) *)

Definition MBR_BOOTCODE_SIZE : nat := 440.

Definition clover_boot0ss_mbr : list Z := [
  0xfa; 0x31; 0xc0; 0x8e; 0xd0; 0xbc; 0xf0; 0xff; 0xfb; 0x8e; 0xc0; 0x8e; 0xd8; 0xbe; 0; 0x7c;
  0xbf; 0; 0xe0; 0xfc; 0xb9; 0; 0x01; 0xf2; 0xa5; 0xea; 0x1e; 0xe0; 0; 0; 0x66; 0x31;
  0xc0; 0x66; 0xa3; 0; 0xe4; 0xb0; 0x02; 0xbb; 0; 0x10; 0xe8; 0x19; 0x01; 0x72; 0x06; 0xbe;
  0xbe; 0x11; 0xe8; 0x09; 0; 0xbf; 0x97; 0xe1; 0xe8; 0x3e; 0x01; 0xf4; 0xeb; 0xfd; 0x81; 0x7c;
  0x40; 0x55; 0xaa; 0x75; 0x58; 0x31; 0xdb; 0xfe; 0xc7; 0xb9; 0x04; 0; 0x66; 0x8b; 0x44; 0x08;
  0x66; 0xa3; 0; 0xe4; 0x80; 0x7c; 0x04; 0; 0x74; 0x30; 0x80; 0x7c; 0x04; 0xee; 0x75; 0x05;
  0xc6; 0x04; 0; 0xb3; 0x01; 0x80; 0xff; 0x01; 0x75; 0x02; 0xeb; 0x09; 0x80; 0x3c; 0x80; 0x75;
  0x19; 0x30; 0xf6; 0xeb; 0x0e; 0xb6; 0x01; 0x80; 0x7c; 0x04; 0xaf; 0x74; 0x06; 0x80; 0x7c; 0x04;
  0x0c; 0x75; 0x07; 0xe8; 0x90; 0; 0x75; 0x02; 0xeb; 0x14; 0x83; 0xc6; 0x10; 0xe2; 0xbd; 0xfe;
  0xcb; 0x75; 0x03; 0xe8; 0x0b; 0; 0xfe; 0xcf; 0xbe; 0xbe; 0x11; 0x74; 0xac; 0xc3; 0xe9; 0x5f;
  0x9b; 0x53; 0xbf; 0; 0x12; 0x66; 0x81; 0x3d; 0x45; 0x46; 0x49; 0x20; 0x75; 0x66; 0x66; 0x81;
  0x7d; 0x04; 0x50; 0x41; 0x52; 0x54; 0x75; 0x5c; 0x89; 0xfe; 0x66; 0x8b; 0x44; 0x48; 0x66; 0xa3;
  0; 0xe4; 0x8b; 0x4c; 0x50; 0x8b; 0x5c; 0x54; 0x53; 0xb0; 0x20; 0xbb; 0; 0x14; 0x53; 0xe8;
  0x74; 0; 0x5e; 0x5b; 0x0f; 0x82; 0x5d; 0xff; 0x66; 0x8b; 0x44; 0x0c; 0x66; 0x3d; 0x65; 0x43;
  0xec; 0xac; 0x74; 0x10; 0x66; 0x3d; 0xc9; 0x3e; 0xc9; 0x3b; 0x74; 0x08; 0x66; 0x3d; 0xb7; 0x26;
  0x99; 0xc7; 0x75; 0x1c; 0x66; 0x8b; 0x44; 0x20; 0x66; 0xa3; 0; 0xe4; 0xb6; 0x01; 0xe8; 0x15;
  0; 0x75; 0x0d; 0xbe; 0xbe; 0x11; 0x66; 0x89; 0x44; 0x08; 0xc6; 0x44; 0x04; 0xaf; 0xeb; 0x8e;
  0x01; 0xde; 0xe2; 0xc4; 0x5b; 0xc3; 0x60; 0xb0; 0x03; 0xbb; 0; 0x7c; 0xe8; 0x27; 0; 0x0f;
  0x82; 0x12; 0xff; 0x08; 0xf6; 0x74; 0x15; 0xa1; 0; 0x80; 0x3d; 0x48; 0x2b; 0x74; 0x0d; 0x3d;
  0x48; 0x58; 0x74; 0x08; 0xa1; 0x5a; 0x7c; 0x3d; 0x42; 0x4f; 0x75; 0x08; 0x89; 0xdf; 0x81; 0xbd;
  0xfe; 0x01; 0x55; 0xaa; 0x61; 0xc3; 0x51; 0xb9; 0x05; 0; 0xe8; 0x06; 0; 0x73; 0x02; 0xe2;
  0xf9; 0x59; 0xc3; 0x66; 0x60; 0x89; 0xe5; 0x1e; 0x1e; 0x66; 0x8b; 0x0e; 0; 0xe4; 0x66; 0x51;
  0x06; 0x53; 0x30; 0xe4; 0x50; 0x6a; 0x10; 0x89; 0xe6; 0xb4; 0x42; 0xcd; 0x13; 0x73; 0x05; 0x31;
  0xc0; 0xcd; 0x13; 0xf9; 0x89; 0xec; 0x66; 0x61; 0xc3; 0x60; 0x57; 0xbe; 0xac; 0xe1; 0xe8; 0x06;
  0; 0x5e; 0xe8; 0x02; 0; 0x61; 0xc3; 0xbb; 0x01; 0; 0xfc; 0xac; 0x3c; 0; 0x74; 0x06;
  0xb4; 0x0e; 0xcd; 0x10; 0xeb; 0xf5; 0xc3; 0x65; 0x72; 0x72; 0x6f; 0x72; 0; 0; 0; 0;
  0; 0; 0; 0; 0; 0; 0; 0; 0; 0; 0; 0; 0x0a; 0x0d; 0x62; 0x6f;
  0x6f; 0x74; 0x30; 0x73; 0x73; 0x3a; 0x20; 0
].

(** ** Consistency checks *)

(** [!(a.start_lba > b.end_lba || b.start_lba > a.end_lba)]. *)
Definition overlaps (a b : PARTITION_INFO) : bool :=
  negb ((end_lba b <? start_lba a) || (end_lba a <? start_lba b)).

(** The inner loop on [k]: does entry [i] overlap another of the first [n]? *)
Definition overlaps_other (parts : list PARTITION_INFO) (n i : nat) : bool :=
  existsb (λ k, negb (k =? i)%nat && overlaps (parts !!! i) (parts !!! k)) (seq 0 n).

Definition is_extended (t : Z) : bool := (t =? 0x05) || (t =? 0x0f) || (t =? 0x85).

Section Checks.
Context {D : Type}.

(** The message for an extended partition reads [gpt_parts[i].gpt_parttype->name]. *)
Fixpoint check_mbr_loop (l : list nat) : M (State D) Z :=
  match l with
  | [] => mret 0
  | i :: l =>
      parts ← gets mbr_parts;
      n ← gets mbr_part_count;
      if overlaps_other parts n i then mret 1 else
      if is_extended (mbr_type (parts !!! i)) then
        gparts ← gets gpt_parts;
        match gpt_parttype (gparts !!! i) with
        | Some _ => mret 1
        | None => undef
        end
      else check_mbr_loop l
  end.

Definition check_mbr : M (State D) Z :=
  n ← gets mbr_part_count;
  check_mbr_loop (seq 0 n).

Definition is_data_kind (k : GPT_KIND) : bool :=
  bool_decide (k = GPT_KIND_DATA) || bool_decide (k = GPT_KIND_BASIC_DATA).

Fixpoint check_gpt_loop (l : list nat) (found_data_parts : bool) : M (State D) Z :=
  match l with
  | [] => mret (if found_data_parts then 0 else 1)
  | i :: l =>
      parts ← gets gpt_parts;
      n ← gets gpt_part_count;
      let p := parts !!! i in
      if end_lba p <? start_lba p then mret 1 else
      if overlaps_other parts n i then mret 1 else
      match gpt_parttype p with
      | None => undef
      | Some t =>
          if bool_decide (gt_kind t = GPT_KIND_FATAL) then mret 1
          else check_gpt_loop l (found_data_parts || is_data_kind (gt_kind t))
      end
  end.

Definition check_gpt : M (State D) Z :=
  n ← gets gpt_part_count;
  if (n =? 0)%nat then mret 1 else check_gpt_loop (seq 0 n) false.
End Checks.

(** ** Analysis: MBR types of the GPT partitions *)

Section Classify.
Context {D : Type} `{BlockIo D}.

Definition legit_esp_type (t : Z) : bool := (t =? 0x01) || (t =? 0x0e) || (t =? 0x0c).

Definition esp_type (have_esp : bool) (detected : Z) : Z :=
  if negb have_esp && legit_esp_type detected then 0xef
  else if negb (detected =? 0) then detected
  else if have_esp then 0x83
  else 0xef.

Definition classify_type (have_esp : bool) (p : PARTITION_INFO) (t : GPT_PARTTYPE) : M (State D) Z :=
  if bool_decide (gt_kind t = GPT_KIND_BASIC_DATA) then
    r ← detect_mbrtype_fs (start_lba p);
    mret (if negb (r.2.1 =? 0) then r.2.1 else 0x0b)
  else if gt_mbr_type t =? 0xef then
    r ← detect_mbrtype_fs (start_lba p);
    mret (esp_type have_esp r.2.1)
  else mret (gt_mbr_type t).

Fixpoint classify_parts (l : list nat) (have_esp : bool) : M (State D) unit :=
  match l with
  | [] => mret tt
  | i :: l =>
      p ← gets (λ s, gpt_parts s !!! i);
      match gpt_parttype p with
      | None => undef
      | Some t =>
          ty ← classify_type have_esp p t;
          modify (λ s, with_gpt (<[i := set_mbr_type ty p]> (gpt_parts s)) (gpt_part_count s) s);;
          classify_parts l (have_esp || (ty =? 0xef))
      end
  end.
End Classify.

(** ** Analysis: what to do *)

Inductive ACTION := ACTION_NONE | ACTION_NOP | ACTION_REWRITE.

#[global] Instance ACTION_eq_dec : EqDecision ACTION.
Proof. solve_decision. Defined.

Definition count_active (parts : list PARTITION_INFO) : nat :=
  length (filter (λ p, active p = true) parts).

(** Position or type differs between MBR entry [i] and GPT entry [i]. *)
Definition part_changed (mbr gpt : list PARTITION_INFO) (i : nat) : bool :=
  negb (start_lba (mbr !!! i) =? start_lba (gpt !!! i))
  || negb (end_lba (mbr !!! i) =? end_lba (gpt !!! i))
  || (negb (mbr_type (gpt !!! i) =? 0) && negb (mbr_type (mbr !!! i) =? mbr_type (gpt !!! i))).

(** "The Apple Way": the protective entry covers the tables and the ESP. *)
Definition apple_way (mbr gpt : list PARTITION_INFO) : bool :=
  (mbr_type (mbr !!! 0%nat) =? 0xee) && (mbr_type (gpt !!! 0%nat) =? 0xef)
  && (start_lba (mbr !!! 0%nat) =? 1) && (end_lba (mbr !!! 0%nat) =? end_lba (gpt !!! 0%nat)).

Definition apple_action (mbr : list PARTITION_INFO) (mc : nat) (gpt : list PARTITION_INFO) (gc : nat) : ACTION :=
  let a :=
    if (negb (mc =? gc)%nat && (gc <=? 4)%nat) || (negb (mc =? 4)%nat && (4 <? gc)%nat)
    then ACTION_REWRITE
    else if existsb (part_changed mbr gpt) (seq 1 (mc - 1)) then ACTION_REWRITE
    else ACTION_NOP in
  if (count_active (take mc mbr) =? 1)%nat then a else ACTION_REWRITE.

Definition decide_action (mbr : list PARTITION_INFO) (mc : nat) (gpt : list PARTITION_INFO) (gc : nat) : ACTION :=
  if (mc =? 0)%nat then ACTION_REWRITE
  else if (mc =? 1)%nat && (mbr_type (mbr !!! 0%nat) =? 0xee) then ACTION_REWRITE
  else if apple_way mbr gpt then apple_action mbr mc gpt gc
  else if mbr_type (mbr !!! 0%nat) =? 0xef then
    if existsb (part_changed mbr gpt) (seq 0 mc) then ACTION_NONE else ACTION_REWRITE
  else ACTION_NONE.

(** ** Analysis: the new table *)

Definition min_start_lba (gpt : list PARTITION_INFO) (gc : nat) : Z :=
  foldl (λ m p, if start_lba p <? m then start_lba p else m) (start_lba (gpt !!! 0%nat)) (take gc gpt).

Definition protective_entry (old : PARTITION_INFO) (last : Z) : PARTITION_INFO := {|
  index := 0; start_lba := 1; end_lba := last; mbr_type := 0xee;
  gpt_type := gpt_type old; gpt_parttype := gpt_parttype old; active := active old |}.

(** The old MBR entry with the same start, and what is kept of it. *)
Definition find_old (mbr : list PARTITION_INFO) (mc : nat) (lba : Z) : option PARTITION_INFO :=
  snd <$> list_find (λ p, start_lba p = lba) (take mc mbr).

Definition new_entry (old : PARTITION_INFO) (cnt : nat) (p : PARTITION_INFO)
    (mbr : list PARTITION_INFO) (mc : nat) : PARTITION_INFO :=
  let o := find_old mbr mc (start_lba p) in
  let ty := match o with
            | Some q => if mbr_type p =? 0 then mbr_type q else mbr_type p
            | None => mbr_type p
            end in
  {| index := Z.of_nat cnt; start_lba := start_lba p; end_lba := end_lba p;
     mbr_type := if ty =? 0 then 0xc0 else ty;
     gpt_type := gpt_type old; gpt_parttype := gpt_parttype old;
     active := match o with Some q => active q | None => false end |}.

Fixpoint fill_new (gpt : list PARTITION_INFO) (mbr : list PARTITION_INFO) (mc : nat)
    (news : list PARTITION_INFO) (cnt : nat) : list PARTITION_INFO * nat :=
  match gpt with
  | [] => (news, cnt)
  | p :: gpt =>
      if (cnt <? 4)%nat then
        fill_new gpt mbr mc (<[cnt := new_entry (news !!! cnt) cnt p mbr mc]> news) (S cnt)
      else (news, cnt)
  end.

(** ** Analysis: exactly one active entry *)

Definition bootable_type (iter i : nat) (t : Z) : bool :=
  ((iter =? 0)%nat &&
     ((t =? 0xa8) || (t =? 0xab) || (t =? 0xac) || (t =? 0xaf) ||
      (t =? 0x07) || (t =? 0x0b) || (t =? 0x0c)))
  || ((1 <=? iter)%nat && (t =? 0x83))
  || ((2 <=? iter)%nat && (0 <? i)%nat).

Fixpoint activate_first (iter i : nat) (ps : list PARTITION_INFO) : list PARTITION_INFO :=
  match ps with
  | [] => []
  | p :: ps =>
      if bootable_type iter i (mbr_type p) then set_active true p :: ps
      else p :: activate_first iter (S i) ps
  end.

Definition deactivate_protective (ps : list PARTITION_INFO) : list PARTITION_INFO :=
  match ps with
  | [] => []
  | p :: ps =>
      (if ((mbr_type p =? 0xee) || (mbr_type p =? 0xef)) && active p
       then set_active false p else p) :: ps
  end.

(** Deactivate all but the first active entry. *)
Fixpoint deactivate_rest (seen : bool) (ps : list PARTITION_INFO) : list PARTITION_INFO :=
  match ps with
  | [] => []
  | p :: ps =>
      if active p then (if seen then set_active false p else p) :: deactivate_rest true ps
      else p :: deactivate_rest seen ps
  end.

Definition active_step (iter : nat) (ps : list PARTITION_INFO) : list PARTITION_INFO :=
  let c := count_active ps in
  if (c =? 1)%nat then ps
  else if (c =? 0)%nat then activate_first iter 0 ps
  else if (iter =? 0)%nat then deactivate_protective ps
  else deactivate_rest false ps.

(** The loop over [iter]; leaving it when the count is one is the same as
    letting the remaining steps do nothing. *)
Definition fix_active (ps : list PARTITION_INFO) : list PARTITION_INFO :=
  active_step 2 (active_step 1 (active_step 0 ps)).

(** The new table: the array [news] and its count. *)
Definition compose_new (gpt : list PARTITION_INFO) (gc : nat) (mbr : list PARTITION_INFO) (mc : nat)
    (news : list PARTITION_INFO) : list PARTITION_INFO * nat :=
  let esp := mbr_type (gpt !!! 0%nat) =? 0xef in
  let last := if esp then end_lba (gpt !!! 0%nat) else wrap64 (min_start_lba gpt gc - 1) in
  let rest := if esp then drop 1 (take gc gpt) else take gc gpt in
  let '(ps, n) := fill_new rest mbr mc (<[0%nat := protective_entry (news !!! 0%nat) last]> news) 1 in
  (fix_active (take n ps) ++ drop n ps, n).

Section Analyze.
Context {D : Type} `{BlockIo D}.

Definition analyze : M (State D) Z :=
  modify (λ s, with_new (new_mbr_parts s) 0 s);;
  gc ← gets gpt_part_count;
  if (gc =? 0)%nat then mret 0 else
  classify_parts (seq 0 gc) false;;
  s ← gets id;
  match decide_action (mbr_parts s) (mbr_part_count s) (gpt_parts s) gc with
  | ACTION_NOP => mret 0
  | ACTION_NONE => mret 1
  | ACTION_REWRITE =>
      let '(ps, n) := compose_new (gpt_parts s) gc (mbr_parts s) (mbr_part_count s) (new_mbr_parts s) in
      modify (with_new ps n);;
      mret 0
  end.
End Analyze.

(** ** Writing the new MBR *)

Definition clamp32 (lba : Z) : Z := if 0xffffffff <? lba then 0xffffffff else lba.

Definition unused_entry : list Z := replicate 16 0.

Definition entry_bytes (fl : Z) (p : PARTITION_INFO) : list Z :=
  [fl; 0xfe; 0xff; 0xff; wrap8 (mbr_type p); 0xfe; 0xff; 0xff]
  ++ le_put 4 (clamp32 (start_lba p))
  ++ le_put 4 (clamp32 (wrap64 (end_lba p + 1 - start_lba p))).

(** The loop over the four slots; [act] is the flag the first active entry gets. *)
Fixpoint write_table (l : list nat) (news : list PARTITION_INFO) (act : Z) (sec : list Z) : list Z :=
  match l with
  | [] => sec
  | i :: l =>
      match snd <$> list_find (λ p, index p = Z.of_nat i) news with
      | None => write_table l news act (store (446 + 16 * i) unused_entry sec)
      | Some p =>
          let fl := if active p then act else 0 in
          let act := if active p then 0 else act in
          write_table l news act (store (446 + 16 * i) (entry_bytes fl p) sec)
      end
  end.

Definition add_bootcode (sec : list Z) : list Z :=
  if existsb (λ b, negb (b =? 0)) (take MBR_BOOTCODE_SIZE sec) then sec
  else store 0 clover_boot0ss_mbr (store 0 (replicate MBR_BOOTCODE_SIZE 0) sec).

Definition new_mbr_sector (news : list PARTITION_INFO) (sec : list Z) : list Z :=
  add_bootcode (write_table (seq 0 4) news 0x80 (store 510 (le_put 2 0xaa55) sec)).

Section WriteMbr.
Context {D : Type} `{BlockIo D}.

Definition write_mbr : M (State D) Z :=
  status ← read_sector 0;
  if negb (status =? 0) then mret status else
  modify (λ s, with_sector
    (new_mbr_sector (take (new_mbr_part_count s) (new_mbr_parts s)) (sector s)) s);;
  status ← write_sector 0;
  mret status.
End WriteMbr.

(** ** Keyboard input (os_efi.c) *)

Section Input.
Context {D : Type}.

(** Read until the buffer is empty; was there a key? *)
Definition ReadAllKeyStrokes : M (State D) bool := λ s,
  Some (negb (bool_decide (pending (keyboard s) = [])),
        with_keyboard {| pending := []; arrivals := arrivals (keyboard s) |} s).

(** Time passes ([Stall], [WaitForEvent]): the next batch of keys arrives. *)
Definition wait_keys : M (State D) unit := modify (λ s,
  match arrivals (keyboard s) with
  | [] => s
  | b :: bs => with_keyboard {| pending := pending (keyboard s) ++ b; arrivals := bs |} s
  end).

Definition ReadKeyStroke : M (State D) (option Z) := λ s,
  match pending (keyboard s) with
  | [] => Some (None, s)
  | k :: ks => Some (Some k, with_keyboard {| pending := ks; arrivals := arrivals (keyboard s) |} s)
  end.

(** Status and, on success, the answer. *)
Definition input_boolean : M (State D) (Z * bool) :=
  got ← ReadAllKeyStrokes;
  (if got : bool then wait_keys;; ReadAllKeyStrokes;; mret tt else mret tt);;
  wait_keys;;
  k ← ReadKeyStroke;
  match k with
  | None => mret (1, false)
  | Some c =>
      ReadAllKeyStrokes;;
      mret (0, (c =? 121) || (c =? 89))
  end.

Definition PauseForKey : M (State D) unit :=
  got ← ReadAllKeyStrokes;
  (if got : bool then wait_keys;; ReadAllKeyStrokes;; mret tt else mret tt);;
  wait_keys;;
  ReadAllKeyStrokes;;
  mret tt.
End Input.

(** ** Entry points *)

Section Main.
Context {D : Type} `{BlockIo D}.

(** [return ((status_gpt) || (status_mbr));]. *)
Definition gptsync : M (State D) Z :=
  status_gpt ← read_gpt;
  status_mbr ← read_mbr;
  if negb (status_gpt =? 0) || negb (status_mbr =? 0) then mret 1 else
  status ← check_gpt;
  if negb (status =? 0) then mret status else
  status ← check_mbr;
  if negb (status =? 0) then mret status else
  status ← analyze;
  if negb (status =? 0) then mret status else
  n ← gets new_mbr_part_count;
  if (n =? 0)%nat then mret status else
  r ← input_boolean;
  if negb (r.1 =? 0) || negb r.2 then mret r.1 else
  write_mbr.

(** A handle that carries the protocol asked for: the (type, subtype) nodes of
    its device path, and the interface with its block size ([None]: the
    protocol cannot be opened). *)
Record Handle := { path : list (Z * Z); interface : option (D * Z) }.

Definition unusable_node (n : Z * Z) : bool :=
  ((n.1 =? 3) && ((n.2 =? 5) || (n.2 =? 0x0f) || (n.2 =? 4) || (n.2 =? 3))) || (n.1 =? 4).

Definition usable (h : Handle) : bool := negb (existsb unusable_node (path h)).

(** The selection loop over a handle buffer; [None] entries are NULL handles. *)
Fixpoint select_dev (hs : list (option Handle)) : option D :=
  match hs with
  | [] => None
  | None :: hs => select_dev hs
  | Some h :: hs =>
      if usable h then
        match interface h with
        | Some (d, bs) => if bs =? 512 then Some d else select_dev hs
        | None => select_dev hs
        end
      else select_dev hs
  end.

(** LocateHandle reports the buffer size in bytes and the code uses it as the
    number of entries: the zeroed buffer holds 8 entries per handle found. *)
Definition handle_buffer (hs : list Handle) : list (option Handle) :=
  (Some <$> hs) ++ replicate (7 * length hs) None.

Definition GptSyncMain (handles2 handles : list Handle) : M (State D) EFI_STATUS :=
  if bool_decide (handles = []) && bool_decide (handles2 = []) then mret EFI_NOT_FOUND else
  modify (λ s, with_dev (BlockIO s) (select_dev (handle_buffer handles2)) s);;
  modify (λ s, with_dev (select_dev (handle_buffer handles)) (BlockIO2 s) s);;
  s ← gets id;
  match the_dev s with
  | None => mret EFI_NOT_FOUND
  | Some _ =>
      SyncStatus ← gptsync;
      (if SyncStatus =? 0 then PauseForKey else mret tt);;
      mret (if negb (SyncStatus =? 0) then EFI_NOT_FOUND else EFI_SUCCESS)
  end.
End Main.
