(* ===== verification/GptWrite.v ===== *)
(** * Writing and reading back the MBR

    What [write_mbr] stores in sector 0, and that [read_mbr] reads it back. *)

From Stdlib Require Import ZArith Lia.
From stdpp Require Import base list list_numbers strings.
From S2P Require Import Prelude.
From S2P Require Import GptLib.
From S2P Require Import GptSync.

Open Scope Z_scope.

(** The fields of a partition an MBR entry carries. *)
Definition mbr_view (p : PARTITION_INFO) : Z * Z * Z * Z * bool :=
  (index p, start_lba p, end_lba p, mbr_type p, active p).

Definition entry_view (i : nat) (e : MBR_PARTITION_INFO) : Z * Z * Z * Z * bool :=
  (Z.of_nat i, mstart_lba e, wrap64 (mstart_lba e + size e - 1), type e, bool_decide (flags e = 0x80)).

(** ** The table as a list of slots *)

Fixpoint slots (l : list nat) (news : list PARTITION_INFO) (act : Z) : list (nat * list Z) :=
  match l with
  | [] => []
  | i :: l =>
      match snd <$> list_find (λ p, index p = Z.of_nat i) news with
      | None => (i, unused_entry) :: slots l news act
      | Some p => (i, entry_bytes (if active p then act else 0x00) p)
                  :: slots l news (if active p then 0x00 else act)
      end
  end.

Definition store_slots (ss : list (nat * list Z)) (sec : list Z) : list Z :=
  foldl (λ m s, store (446 + 16 * s.1) s.2 m) sec ss.

Lemma store_slots_cons s ss sec :
  store_slots (s :: ss) sec = store_slots ss (store (446 + 16 * s.1) s.2 sec).
Proof. done. Qed.

Lemma write_table_slots l news act sec :
  write_table l news act sec = store_slots (slots l news act) sec.
Proof.
  revert act sec; induction l as [|i l IH]; intros act sec; simpl; [done|].
  destruct (snd <$> list_find (λ p, index p = Z.of_nat i) news); simpl; by rewrite IH.
Qed.

Lemma slots_keys l news act : (slots l news act).*1 = l.
Proof.
  revert act; induction l as [|i l IH]; intros act; simpl; [done|].
  destruct (snd <$> _); simpl; by rewrite IH.
Qed.

Lemma length_entry_bytes fl p : length (entry_bytes fl p) = 16%nat.
Proof. done. Qed.

Lemma slots_length l news act : Forall (λ s, length s.2 = 16%nat) (slots l news act).
Proof.
  revert act; induction l as [|i l IH]; intros act; simpl; [constructor|].
  destruct (snd <$> _); constructor; done.
Qed.

Lemma length_store_slots ss sec : length (store_slots ss sec) = length sec.
Proof.
  revert sec; induction ss as [|s ss IH]; intros sec; simpl; [done|].
  rewrite IH. apply length_store.
Qed.

Lemma slice_store_slots_out ss sec off len :
  Forall (λ s, length s.2 = 16%nat) ss → Forall (λ s, s.1 < 4)%nat ss →
  (off + len ≤ 446 ∨ 510 ≤ off)%nat →
  slice off len (store_slots ss sec) = slice off len sec.
Proof.
  intros Hl Hk Ho. revert sec; induction ss as [|s ss IH]; intros sec; simpl; [done|].
  inversion Hl; inversion Hk; subst. rewrite IH by done.
  apply slice_store_disj. lia.
Qed.

Lemma slice_store_slots_ne ss sec i :
  Forall (λ s, length s.2 = 16%nat) ss → i ∉ ss.*1 →
  slice (446 + 16 * i) 16 (store_slots ss sec) = slice (446 + 16 * i) 16 sec.
Proof.
  intros Hl. revert sec; induction ss as [|s ss IH]; intros sec; simpl; [done|].
  intros [Hi Hin]%not_elem_of_cons. inversion Hl; subst. rewrite IH by done.
  apply slice_store_disj. lia.
Qed.

Lemma slice_store_slots_in ss sec i bs :
  Forall (λ s, length s.2 = 16%nat) ss → NoDup ss.*1 → (i, bs) ∈ ss → (i < 4)%nat →
  length sec = 512%nat →
  slice (446 + 16 * i) 16 (store_slots ss sec) = bs.
Proof.
  intros Hl. revert sec; induction ss as [|s ss IH]; intros sec Hd Hin Hi Hs.
  - by apply not_elem_of_nil in Hin.
  - rewrite store_slots_cons. rewrite fmap_cons in Hd.
    inversion Hl as [|? ? Hls]; inversion Hd; subst.
    apply elem_of_cons in Hin as [<-|Hin].
    + rewrite slice_store_slots_ne by done. change (length bs = 16%nat) in Hls.
      apply slice_store_eq; [done|]. cbn [fst]. lia.
    + apply IH; auto. by rewrite length_store.
Qed.

(** Every field of a slot is read from its 16 bytes. *)
Lemma slice_slice off len m off' len' :
  (off' + len' ≤ len)%nat → slice off' len' (slice off len m) = slice (off + off') len' m.
Proof.
  intros. apply list_eq. intros i. rewrite !slice_lookup.
  case_decide; [|done]. rewrite decide_True by lia. f_equal. lia.
Qed.

Lemma load_slice off len m off' n :
  (off' + n ≤ len)%nat → load n off' (slice off len m) = load n (off + off') m.
Proof. intros. unfold load. by rewrite slice_slice. Qed.

(** An entry decoded from 16 bytes. *)
Definition entry_of (bs : list Z) : MBR_PARTITION_INFO := {|
  flags := load 1 0 bs; start_chs := slice 1 3 bs; type := load 1 4 bs;
  end_chs := slice 5 3 bs; mstart_lba := load 4 8 bs; size := load 4 12 bs |}.

Lemma mbr_entry_slice sec i : mbr_entry sec i = entry_of (slice (446 + 16 * i) 16 sec).
Proof.
  unfold mbr_entry, entry_of. f_equal; symmetry.
  all: rewrite ?load_slice, ?slice_slice by lia; f_equal; lia.
Qed.

(** ** Decoding what was written *)

(** The bytes slot [i] holds once a table with at most one active entry is written. *)
Definition slot_of (o : option PARTITION_INFO) : list Z :=
  match o with
  | Some p => entry_bytes (if active p then 0x80 else 0x00) p
  | None => unused_entry
  end.

(** A table the analysis may propose: entries numbered in order. *)
Definition indexed (news : list PARTITION_INFO) : Prop :=
  ∀ i p, news !! i = Some p → index p = Z.of_nat i.

(** An entry whose extent fits the 32-bit fields of an MBR entry. *)
Definition fits_mbr (p : PARTITION_INFO) : Prop :=
  0 < start_lba p < 2 ^ 32 ∧ start_lba p ≤ end_lba p ∧
  end_lba p + 1 - start_lba p < 2 ^ 32 ∧ 0 ≤ mbr_type p < 256.

#[global] Instance fits_mbr_dec p : Decision (fits_mbr p).
Proof. unfold fits_mbr. apply _. Defined.

Lemma find_indexed news i :
  indexed news → snd <$> list_find (λ p, index p = Z.of_nat i) news = news !! i.
Proof.
  intros Hn. destruct (list_find _ news) as [[j p]|] eqn:E; simpl.
  - apply list_find_Some in E as (Hj & Hi & _).
    rewrite (Hn j p Hj) in Hi. assert (j = i) as -> by lia. done.
  - symmetry. destruct (news !! i) as [p|] eqn:Ei; [|done].
    rewrite list_find_None in E. eapply Forall_lookup_1 in E; [|done].
    by rewrite (Hn i p Ei) in E.
Qed.

Lemma count_active_app l1 l2 : count_active (l1 ++ l2) = (count_active l1 + count_active l2)%nat.
Proof. unfold count_active. by rewrite filter_app, length_app. Qed.

Lemma count_active_cons p l :
  count_active (p :: l) = ((if active p then 1 else 0) + count_active l)%nat.
Proof. unfold count_active. rewrite filter_cons. by destruct (active p). Qed.

Lemma slots_spec m k news act :
  indexed news → (count_active news ≤ 1)%nat →
  act = (if (count_active (take k news) =? 0)%nat then 0x80 else 0x00) →
  slots (seq k m) news act = (λ i, (i, slot_of (news !! i))) <$> seq k m.
Proof.
  intros Hn Hc. revert k act; induction m as [|m IH]; intros k act Hact; simpl; [done|].
  rewrite find_indexed by done.
  destruct (news !! k) as [p|] eqn:Ek; simpl.
  - pose proof (take_S_r _ _ _ Ek) as HS.
    assert (count_active (take (S k) news) =
      (count_active (take k news) + if active p then 1 else 0)%nat) as Hcount.
    { rewrite HS, count_active_app, count_active_cons. cbn. lia. }
    assert (count_active (take (S k) news) ≤ 1)%nat.
    { rewrite <- (take_drop (S k) news) in Hc. rewrite count_active_app in Hc. lia. }
    assert ((if active p then act else 0) = (if active p then 0x80 else 0x00)) as ->.
    { destruct (active p); [|done]. rewrite Hact.
      destruct (Nat.eqb_spec (count_active (take k news)) 0); [done|lia]. }
    f_equal. apply IH. rewrite Hcount. destruct (active p).
    + by rewrite Nat.add_1_r.
    + by rewrite Nat.add_0_r.
  - f_equal. apply IH. rewrite Hact. apply lookup_ge_None in Ek.
    by rewrite !take_ge by lia.
Qed.

(** What a written entry decodes to. *)
Definition entry_for (p : PARTITION_INFO) : MBR_PARTITION_INFO := {|
  flags := if active p then 0x80 else 0x00; start_chs := [0xfe; 0xff; 0xff];
  type := mbr_type p; end_chs := [0xfe; 0xff; 0xff];
  mstart_lba := start_lba p; size := end_lba p + 1 - start_lba p |}.

Definition zero_entry : MBR_PARTITION_INFO := {|
  flags := 0; start_chs := [0; 0; 0]; type := 0; end_chs := [0; 0; 0];
  mstart_lba := 0; size := 0 |}.

Lemma clamp32_small x : x < 2 ^ 32 → clamp32 x = x.
Proof. unfold clamp32. intros. destruct (Z.ltb_spec 0xffffffff x); lia. Qed.

Lemma entry_of_slot p : fits_mbr p → entry_of (slot_of (Some p)) = entry_for p.
Proof.
  intros (Hs & Hle & Hn & Ht). unfold slot_of, entry_bytes.
  rewrite wrap64_small, !clamp32_small by lia.
  set (n := end_lba p + 1 - start_lba p) in *.
  unfold entry_of, entry_for. f_equal.
  - by destruct (active p).
  - change (wrap8 (mbr_type p) + 256 * 0 = mbr_type p). rewrite wrap8_small by lia. lia.
  - change (le_get (le_put 4 (start_lba p)) = start_lba p). apply le_get_put. lia.
  - change (le_get (le_put 4 n) = n). apply le_get_put. lia.
Qed.

Lemma entry_of_unused : entry_of (slot_of None) = zero_entry.
Proof. done. Qed.

Lemma length_add_bootcode sec : length (add_bootcode sec) = length sec.
Proof. unfold add_bootcode. case_match; by rewrite ?length_store. Qed.

Lemma slice_add_bootcode sec off len :
  (440 ≤ off)%nat → slice off len (add_bootcode sec) = slice off len sec.
Proof.
  intros. unfold add_bootcode. case_match; [done|].
  assert (length clover_boot0ss_mbr = 440%nat) as Hl by done.
  rewrite !slice_store_disj; [done|rewrite length_replicate; unfold MBR_BOOTCODE_SIZE; lia|lia].
Qed.

Section NewSector.
Context (news : list PARTITION_INFO) (sec : list Z).
Context (Hsec : length sec = 512%nat).

Let ss := slots (seq 0 4) news 0x80.
Let sec0 := store 510 (le_put 2 0xaa55) sec.

Lemma new_mbr_sector_eq : new_mbr_sector news sec = add_bootcode (store_slots ss sec0).
Proof. unfold new_mbr_sector. by rewrite write_table_slots. Qed.

Lemma length_new_mbr_sector : length (new_mbr_sector news sec) = 512%nat.
Proof.
  rewrite new_mbr_sector_eq, length_add_bootcode, length_store_slots.
  unfold sec0. by rewrite length_store.
Qed.

Lemma slots_lt4 : Forall (λ s, s.1 < 4)%nat ss.
Proof.
  apply Forall_forall. intros [i bs] Hin.
  assert (i ∈ ss.*1) as Hi by (apply list_elem_of_fmap; by exists (i, bs)).
  unfold ss in Hi. rewrite slots_keys in Hi. apply elem_of_seq in Hi. cbn [fst]. lia.
Qed.

Lemma new_mbr_sector_signature : mbr_signature (new_mbr_sector news sec) = 0xaa55.
Proof.
  rewrite new_mbr_sector_eq. unfold mbr_signature, load.
  rewrite slice_add_bootcode by lia.
  rewrite slice_store_slots_out; [|apply slots_length|apply slots_lt4|lia].
  unfold sec0. rewrite slice_store_eq by (rewrite ?length_le_put; lia). done.
Qed.

(** The disk signature and the two bytes after it are kept. *)
Lemma new_mbr_sector_disksig : slice 440 6 (new_mbr_sector news sec) = slice 440 6 sec.
Proof.
  rewrite new_mbr_sector_eq, slice_add_bootcode by lia.
  rewrite slice_store_slots_out; [|apply slots_length|apply slots_lt4|lia].
  apply slice_store_disj. lia.
Qed.

Lemma new_mbr_sector_bootcode :
  slice 0 440 (new_mbr_sector news sec) =
    if decide (slice 0 440 sec = replicate 440 0) then clover_boot0ss_mbr else slice 0 440 sec.
Proof.
  rewrite new_mbr_sector_eq.
  set (w := store_slots ss sec0).
  assert (length w = 512%nat) as Hw.
  { unfold w. rewrite length_store_slots. unfold sec0. by rewrite length_store. }
  assert (slice 0 440 w = slice 0 440 sec) as Hb.
  { unfold w. rewrite slice_store_slots_out; [|apply slots_length|apply slots_lt4|lia].
    apply slice_store_disj. lia. }
  unfold add_bootcode. change (take MBR_BOOTCODE_SIZE w) with (slice 0 440 w). rewrite Hb.
  destruct (existsb _ (slice 0 440 sec)) eqn:E.
  - rewrite decide_False; [done|]. intros Hz. rewrite Hz in E. by vm_compute in E.
  - rewrite decide_True.
    + rewrite slice_store_eq; [done|done|rewrite length_store; lia].
    + apply list_eq_Forall2, Forall2_same_length_lookup_2.
      { by rewrite length_slice, length_replicate by lia. }
      intros i x y Hx Hy. apply lookup_replicate in Hy as [-> _].
      rewrite <- not_true_iff_false in E.
      destruct (decide (x = 0)); [done|]. exfalso. apply E, existsb_exists. exists x.
      split; [by apply list_elem_of_In, list_elem_of_lookup; eauto|].
      apply negb_true_iff, Z.eqb_neq. done.
Qed.

(** Every slot holds the entry of its partition. *)
Lemma new_mbr_sector_slot i :
  indexed news → (count_active news ≤ 1)%nat → (i < 4)%nat →
  slice (446 + 16 * i) 16 (new_mbr_sector news sec) = slot_of (news !! i).
Proof.
  intros Hn Hc Hi. rewrite new_mbr_sector_eq, slice_add_bootcode by lia.
  apply slice_store_slots_in; [apply slots_length| | |done|].
  - unfold ss. rewrite slots_keys. apply NoDup_seq.
  - unfold ss. rewrite slots_spec by done. apply list_elem_of_fmap.
    exists i. split; [done|]. apply elem_of_seq. lia.
  - unfold sec0. by rewrite length_store.
Qed.
End NewSector.

(** ** Reading the table *)

Definition slot_live (sec : list Z) (i : nat) : Prop :=
  mstart_lba (mbr_entry sec i) ≠ 0 ∧ size (mbr_entry sec i) ≠ 0.

#[global] Instance slot_live_dec sec i : Decision (slot_live sec i).
Proof. unfold slot_live. apply _. Defined.

(** The slots of sector 0 that hold a partition. *)
Definition live_slots (sec : list Z) (l : list nat) : list nat := filter (slot_live sec) l.

Section Read.
Context {D : Type} `{BlockIoLaws D}.
Implicit Types s : State D.

Lemma read_mbr_fill_cons i l s :
  read_mbr_fill (i :: l) s =
    if (mstart_lba (mbr_entry (sector s) i) =? 0) || (size (mbr_entry (sector s) i) =? 0)
    then read_mbr_fill l s
    else match push_mbr i (mbr_entry (sector s) i) s with
         | Some (_, s') => read_mbr_fill l s'
         | None => None
         end.
Proof.
  cbn [read_mbr_fill]. unfold mbind, M_bind, gets. by destruct (_ || _).
Qed.

Lemma read_mbr_fill_spec l s :
  length (mbr_parts s) = 4%nat →
  (mbr_part_count s + length (live_slots (sector s) l) ≤ 4)%nat →
  ∃ ps, read_mbr_fill l s =
      Some (tt, with_mbr ps (mbr_part_count s + length (live_slots (sector s) l)) s)
    ∧ length ps = 4%nat
    ∧ mbr_view <$> take (mbr_part_count s + length (live_slots (sector s) l)) ps =
        (mbr_view <$> take (mbr_part_count s) (mbr_parts s))
        ++ ((λ i, entry_view i (mbr_entry (sector s) i)) <$> live_slots (sector s) l).
Proof.
  revert s; induction l as [|i l IH]; intros s Hlen Hcnt.
  - exists (mbr_parts s). simpl. rewrite Nat.add_0_r, app_nil_r. by destruct s.
  - unfold live_slots in *. rewrite filter_cons in *.
    rewrite read_mbr_fill_cons.
    destruct (decide (slot_live (sector s) i)) as [[H1 H2]|Hd].
    + assert ((mstart_lba (mbr_entry (sector s) i) =? 0)
        || (size (mbr_entry (sector s) i) =? 0) = false) as ->.
      { apply orb_false_iff. by rewrite !Z.eqb_neq. }
      cbn [length] in Hcnt. unfold push_mbr.
      assert ((mbr_part_count s <? 4)%nat = true) as -> by (apply Nat.ltb_lt; lia).
      edestruct (IH (with_mbr (<[mbr_part_count s :=
        mbr_part_of (mbr_parts s !!! mbr_part_count s) i (mbr_entry (sector s) i)]> (mbr_parts s))
        (S (mbr_part_count s)) s)) as (ps & Hr & Hl & Hv).
      { simpl. by rewrite length_insert. }
      { simpl. lia. }
      exists ps. cbn [length]. rewrite Nat.add_succ_r. split; [exact Hr|]. split; [done|].
      simpl in Hv. rewrite fmap_cons. rewrite Hv.
      rewrite (take_S_r _ _ (mbr_part_of (mbr_parts s !!! mbr_part_count s) i (mbr_entry (sector s) i)))
        by (apply list_lookup_insert_eq; lia).
      rewrite take_insert by lia.
      rewrite fmap_app, <- app_assoc. f_equal. by rewrite decide_False by lia.
    + assert ((mstart_lba (mbr_entry (sector s) i) =? 0)
        || (size (mbr_entry (sector s) i) =? 0) = true) as ->.
      { destruct (decide (mstart_lba (mbr_entry (sector s) i) = 0)) as [->|]; [done|].
        destruct (decide (size (mbr_entry (sector s) i) = 0)) as [->|]; [by rewrite orb_true_r|].
        by destruct Hd. }
      apply (IH s); done.
Qed.

Lemma live_slots_le4 sec : (length (live_slots sec (seq 0 4)) ≤ 4)%nat.
Proof. unfold live_slots. etrans; [apply length_filter|done]. Qed.

(** [read_mbr] on a readable, valid sector with at least one partition. *)
Lemma read_mbr_ok d sec s :
  the_dev s = Some d → ReadBlocks d 0 = Some sec →
  mbr_signature sec = 0xaa55 →
  Forall (λ i, flags (mbr_entry sec i) = 0x00 ∨ flags (mbr_entry sec i) = 0x80) (seq 0 4) →
  live_slots sec (seq 0 4) ≠ [] →
  length (mbr_parts s) = 4%nat → mbr_part_count s = 0%nat →
  ∃ s', read_mbr s = Some (0, s')
    ∧ the_dev s' = Some d ∧ length (mbr_parts s') = 4%nat
    ∧ mbr_part_count s' = length (live_slots sec (seq 0 4))
    ∧ mbr_view <$> take (mbr_part_count s') (mbr_parts s') =
        (λ i, entry_view i (mbr_entry sec i)) <$> live_slots sec (seq 0 4).
Proof.
  intros Hd Hr Hsig Hfl Hlive Hlen Hcnt.
  pose proof (read_block_size _ _ _ Hr) as Hsz. pose proof (read_block_bytes _ _ _ Hr) as Hby.
  destruct (read_mbr_fill_spec (seq 0 4) (with_sector sec s)) as (ps & Hf & Hl & Hv).
  { done. }
  { cbn [with_sector mbr_part_count sector]. rewrite Hcnt. apply live_slots_le4. }
  exists (with_mbr ps (length (live_slots sec (seq 0 4))) (with_sector sec s)).
  cbn [with_sector mbr_part_count sector] in Hf, Hv. rewrite Hcnt, Nat.add_0_l in Hf, Hv.
  rewrite take_0, app_nil_l in Hv.
  split; [|done].
  unfold read_mbr, mbind, M_bind, read_sector. rewrite Hd, Hr.
  unfold gets. cbn [Z.eqb negb with_sector sector].
  rewrite Hsig. cbn [Z.eqb Pos.eqb negb].
  assert (existsb entry_bad_flags (mbr_entry sec <$> seq 0 4) = false) as ->.
  { rewrite <- not_true_iff_false, existsb_exists. intros (e & He & Hbad).
    apply list_elem_of_In, list_elem_of_fmap in He as (i & -> & Hi).
    rewrite Forall_forall in Hfl. unfold entry_bad_flags in Hbad.
    destruct (Hfl i Hi) as [E|E]; rewrite E in Hbad; done. }
  assert (existsb entry_used (mbr_entry sec <$> seq 0 4) = true) as ->.
  { apply existsb_exists. destruct (live_slots sec (seq 0 4)) as [|i is'] eqn:E; [done|].
    assert (i ∈ live_slots sec (seq 0 4)) as Hi by (rewrite E; apply elem_of_cons; auto).
    apply list_elem_of_filter in Hi as [[H1 H2] Hi].
    exists (mbr_entry sec i). split; [by apply list_elem_of_In, list_elem_of_fmap; eauto|].
    apply elem_of_seq in Hi. unfold entry_used. apply andb_true_iff. rewrite !Z.ltb_lt.
    unfold mbr_entry in *. simpl in *.
    pose proof (load_range 4 (454 + 16 * i) sec Hby ltac:(lia)).
    pose proof (load_range 4 (458 + 16 * i) sec Hby ltac:(lia)). simpl in *. lia. }
  cbn [negb]. cbn [with_sector]. by rewrite Hf.
Qed.
End Read.

(** ** The round trip *)

Section RoundTrip.
Context {D : Type} `{BlockIoLaws D}.
Implicit Types s : State D.

(** What [write_mbr] did if it could read sector 0. *)
Lemma write_mbr_spec s r s' :
  write_mbr s = Some (r, s') → the_dev s' = the_dev s ∨
  ∃ d d' sec ok, the_dev s = Some d ∧ ReadBlocks d 0 = Some sec
    ∧ WriteBlocks d 0 (new_mbr_sector (take (new_mbr_part_count s) (new_mbr_parts s)) sec) = (ok, d')
    ∧ r = (if ok then 0 else 1) ∧ the_dev s' = Some d' ∧ mbr_parts s' = mbr_parts s
    ∧ new_mbr_parts s' = new_mbr_parts s ∧ new_mbr_part_count s' = new_mbr_part_count s.
Proof.
  unfold write_mbr, mbind, M_bind, read_sector, write_sector, modify, mret, M_ret.
  destruct (the_dev s) as [d|] eqn:Hd; [|done].
  destruct (ReadBlocks d 0) as [sec|] eqn:Hr; [|intros [= _ <-]; by left]. cbn [Z.eqb negb].
  set (s1 := with_sector _ _). change (the_dev s1) with (the_dev s). rewrite Hd.
  destruct (WriteBlocks d 0 (sector s1)) as [ok d'] eqn:Hw.
  intros E. right. exists d, d', sec, ok. destruct ok; injection E as <- <-;
  repeat split; try done; unfold s1, set_the_dev, the_dev; simpl; by destruct (BlockIO2 s).
Qed.

(** What a successful [write_mbr] did. *)
Lemma write_mbr_ok s s' :
  write_mbr s = Some (0, s') →
  ∃ d d' sec, the_dev s = Some d ∧ ReadBlocks d 0 = Some sec
    ∧ WriteBlocks d 0 (new_mbr_sector (take (new_mbr_part_count s) (new_mbr_parts s)) sec) = (true, d')
    ∧ the_dev s' = Some d' ∧ mbr_parts s' = mbr_parts s
    ∧ new_mbr_parts s' = new_mbr_parts s ∧ new_mbr_part_count s' = new_mbr_part_count s.
Proof.
  unfold write_mbr, mbind, M_bind, read_sector, write_sector, modify, mret, M_ret.
  destruct (the_dev s) as [d|] eqn:Hd; [|done].
  destruct (ReadBlocks d 0) as [sec|] eqn:Hr; [|done]. cbn [Z.eqb negb].
  set (s1 := with_sector _ _). change (the_dev s1) with (the_dev s). rewrite Hd.
  destruct (WriteBlocks d 0 (sector s1)) as [[] d'] eqn:Hw; [|done].
  intros [= <-]. exists d, d', sec.
  repeat split; try done; unfold s1, set_the_dev, the_dev; simpl; by destruct (BlockIO2 s).
Qed.

Lemma new_mbr_sector_bytes news sec :
  Forall is_byte sec → Forall is_byte (new_mbr_sector news sec).
Proof.
  intros Hs. unfold new_mbr_sector.
  assert (∀ l act m, Forall is_byte m → is_byte act → Forall is_byte (write_table l news act m)) as Hw.
  { induction l as [|i l IH]; intros act m Hm Ha; simpl; [done|].
    assert (is_byte 0) by (unfold is_byte; lia).
    destruct (snd <$> _) as [p|]; apply IH; try done; [|by destruct (active p)|].
    - apply Forall_store; [done|]. unfold entry_bytes.
      apply Forall_app; split; [|apply Forall_app; split; apply le_put_bytes].
      unfold wrap8; repeat apply Forall_cons_2; try apply Forall_nil_2;
        unfold is_byte in *; destruct (active p); lia.
    - apply Forall_store; [done|]. unfold unused_entry. by apply Forall_replicate. }
  assert (Forall is_byte (write_table (seq 0 4) news 0x80 (store 510 (le_put 2 0xaa55) sec))) as Hm.
  { apply Hw; [|unfold is_byte; lia]. auto with clover. }
  unfold add_bootcode. case_match; [done|].
  apply Forall_store; [apply Forall_store; [done|]|].
  - apply Forall_replicate. unfold is_byte. lia.
  - unfold clover_boot0ss_mbr. repeat constructor; unfold is_byte; lia.
Qed.

Lemma live_slots_new news sec :
  length sec = 512%nat → indexed news → (count_active news ≤ 1)%nat → (length news ≤ 4)%nat →
  Forall fits_mbr news →
  live_slots (new_mbr_sector news sec) (seq 0 4) = seq 0 (length news).
Proof.
  intros Hsec Hn Hc Hlen Hf. unfold live_slots.
  replace (seq 0 4) with (seq 0 (length news) ++ seq (length news) (4 - length news))
    by (rewrite <- seq_app; f_equal; lia).
  rewrite filter_app.
  rewrite (list_filter_all _ (seq 0 (length news))), (list_filter_none _ (seq (length news) _)).
  - apply app_nil_r.
  - intros i Hi%elem_of_seq [H1 H2]. rewrite mbr_entry_slice, new_mbr_sector_slot in H1 by (done || lia).
    by rewrite lookup_ge_None_2 in H1 by lia.
  - intros i Hi%elem_of_seq. unfold slot_live.
    rewrite mbr_entry_slice, new_mbr_sector_slot by (done || lia).
    destruct (lookup_lt_is_Some_2 news i) as [p Hp]; [lia|]. rewrite Hp.
    eapply Forall_lookup_1 in Hf; [|done]. rewrite entry_of_slot by done.
    destruct Hf as (?&?&?&?). simpl. lia.
Qed.

(** Reading a sector 0 that holds a proposed table gives the table back. *)
Lemma read_mbr_new d sec news s :
  the_dev s = Some d → length sec = 512%nat →
  ReadBlocks d 0 = Some (new_mbr_sector news sec) →
  indexed news → (count_active news ≤ 1)%nat → Forall fits_mbr news →
  news ≠ [] → (length news ≤ 4)%nat →
  length (mbr_parts s) = 4%nat → mbr_part_count s = 0%nat →
  ∃ s', read_mbr s = Some (0, s')
    ∧ the_dev s' = Some d ∧ length (mbr_parts s') = 4%nat
    ∧ mbr_part_count s' = length news
    ∧ mbr_view <$> take (mbr_part_count s') (mbr_parts s') = mbr_view <$> news.
Proof.
  intros Hd Hsec Hr Hn Hc Hf Hne Hlen Hmp Hcnt.
  pose proof (live_slots_new news sec Hsec Hn Hc Hlen Hf) as Hls.
  destruct (read_mbr_ok d (new_mbr_sector news sec) s) as (s' & Hs' & ? & ? & Hcnt' & Hv);
    try done.
  - by apply new_mbr_sector_signature.
  - apply Forall_forall. intros i Hi%elem_of_seq.
    rewrite mbr_entry_slice, new_mbr_sector_slot by (done || lia).
    destruct (news !! i) as [p|] eqn:Ep; [|by left].
    rewrite entry_of_slot by (eapply Forall_lookup_1; done).
    simpl. destruct (active p); auto.
  - rewrite Hls. destruct news; done.
  - exists s'. rewrite Hls, length_seq in Hcnt'. do 4 (split; [done|]).
    rewrite Hv, Hls. apply list_eq. intros i.
    rewrite !list_lookup_fmap.
    destruct (decide (i < length news)%nat) as [Hi|Hi].
    + rewrite lookup_seq_lt by done. cbn [fmap option_fmap option_map Nat.add].
      rewrite mbr_entry_slice, new_mbr_sector_slot by (done || lia).
      destruct (lookup_lt_is_Some_2 news i Hi) as [p Hp]. rewrite Hp. cbn [fmap option_fmap option_map].
      eapply Forall_lookup_1 in Hf; [|done]. rewrite entry_of_slot by done.
      destruct Hf as (?&?&?&?). unfold entry_view, mbr_view. simpl.
      rewrite wrap64_small by lia. rewrite (Hn i p Hp).
      repeat f_equal; [lia|]. by destruct (active p).
    + rewrite lookup_seq_ge, lookup_ge_None_2 by lia. done.
Qed.
End RoundTrip.
