(* ===== verification/GptAnalyze.v ===== *)
(** * The analysis: what the new MBR table looks like

    The shape of the table [compose_new] builds, the active flag, overlaps, and
    that a written table is recognised as synchronised. *)

From Stdlib Require Import ZArith Lia.
From stdpp Require Import base list list_numbers strings.
From S2P Require Import Prelude.
From S2P Require Import GptLib.
From S2P Require Import GptSync.
From S2P Require Import GptWrite.

Open Scope Z_scope.

(** ** Exactly one active entry *)

Lemma count_active_erase (ps qs : list PARTITION_INFO) :
  set_active false <$> ps = set_active false <$> qs → length ps = length qs.
Proof. intros E. apply (f_equal length) in E. by rewrite !length_fmap in E. Qed.

Lemma set_active_idem b c p : set_active b (set_active c p) = set_active b p.
Proof. done. Qed.

Lemma activate_first_erase iter i ps :
  set_active false <$> activate_first iter i ps = set_active false <$> ps.
Proof.
  revert i; induction ps as [|p ps IH]; intros i; simpl; [done|].
  case_match; simpl; [done|]. by rewrite IH.
Qed.

Lemma deactivate_protective_erase ps :
  set_active false <$> deactivate_protective ps = set_active false <$> ps.
Proof. destruct ps as [|p ps]; simpl; [done|]. by case_match. Qed.

Lemma deactivate_rest_erase seen ps :
  set_active false <$> deactivate_rest seen ps = set_active false <$> ps.
Proof.
  revert seen; induction ps as [|p ps IH]; intros seen; simpl; [done|].
  destruct (active p); simpl; rewrite IH; by destruct seen.
Qed.

Lemma active_step_erase iter ps :
  set_active false <$> active_step iter ps = set_active false <$> ps.
Proof.
  unfold active_step. repeat case_match; try done.
  - apply activate_first_erase.
  - apply deactivate_protective_erase.
  - apply deactivate_rest_erase.
Qed.

(** The fix-up only touches the active flags. *)
Lemma fix_active_erase ps : set_active false <$> fix_active ps = set_active false <$> ps.
Proof. unfold fix_active. by rewrite !active_step_erase. Qed.

Lemma length_fix_active ps : length (fix_active ps) = length ps.
Proof. apply count_active_erase, fix_active_erase. Qed.

(** Activating flips at most one flag, and flips one when some entry qualifies. *)
Lemma activate_first_le iter i ps :
  count_active ps = 0%nat → (count_active (activate_first iter i ps) ≤ 1)%nat.
Proof.
  revert i; induction ps as [|p ps IH]; intros i Hc; [cbn; lia|].
  rewrite count_active_cons in Hc. destruct (active p) eqn:Ha; [lia|].
  cbn [activate_first]. case_match; rewrite count_active_cons; simpl.
  - lia.
  - rewrite Ha. apply IH. lia.
Qed.

Lemma activate_first_hit iter i ps k p :
  count_active ps = 0%nat → ps !! k = Some p → bootable_type iter (i + k) (mbr_type p) = true →
  count_active (activate_first iter i ps) = 1%nat.
Proof.
  revert i k; induction ps as [|q ps IH]; intros i k Hc Hk Hb; [done|].
  rewrite count_active_cons in Hc. destruct (active q) eqn:Ha; [lia|].
  cbn [activate_first]. destruct k as [|k]; simpl in Hk; simplify_eq.
  - rewrite Nat.add_0_r in Hb. rewrite Hb, count_active_cons. simpl. lia.
  - case_match; rewrite count_active_cons; simpl; [lia|]. rewrite Ha.
    apply (IH (S i) k); [lia|done|]. by rewrite Nat.add_succ_comm.
Qed.

Lemma deactivate_rest_true ps : count_active (deactivate_rest true ps) = 0%nat.
Proof.
  induction ps as [|p ps IH]; simpl; [done|].
  destruct (active p) eqn:Ha; rewrite count_active_cons; simpl; [done|by rewrite Ha].
Qed.

Lemma deactivate_rest_count ps :
  (1 ≤ count_active ps)%nat → count_active (deactivate_rest false ps) = 1%nat.
Proof.
  induction ps as [|p ps IH]; simpl; [cbn; lia|].
  rewrite count_active_cons. destruct (active p) eqn:Ha; intros.
  - by rewrite count_active_cons, Ha, deactivate_rest_true.
  - rewrite count_active_cons, Ha. simpl. apply IH. lia.
Qed.

Lemma active_step_one iter ps : count_active ps = 1%nat → active_step iter ps = ps.
Proof. intros E. unfold active_step. by rewrite E. Qed.

Lemma active_step_zero iter ps :
  count_active ps = 0%nat → active_step iter ps = activate_first iter 0 ps.
Proof. intros E. unfold active_step. by rewrite E. Qed.

Lemma active_step_many iter ps :
  (2 ≤ count_active ps)%nat →
  active_step iter ps = if (iter =? 0)%nat then deactivate_protective ps else deactivate_rest false ps.
Proof.
  intros E. unfold active_step.
  destruct (count_active ps) as [|[|n]]; [lia|lia|done].
Qed.

Lemma length_active_step iter ps : length (active_step iter ps) = length ps.
Proof. apply count_active_erase, active_step_erase. Qed.

(** The three rounds end with exactly one active entry when there are two or more. *)
Lemma fix_active_one ps : (2 ≤ length ps)%nat → count_active (fix_active ps) = 1%nat.
Proof.
  intros Hlen. unfold fix_active.
  assert (∀ n qs, length qs = length ps → (n = 1 ∨ n = 2)%nat → (2 ≤ count_active qs)%nat →
    count_active (active_step n qs) = 1%nat) as Hmany.
  { intros n qs _ Hn Hq. rewrite active_step_many by done.
    replace (n =? 0)%nat with false by (destruct Hn; subst; done).
    apply deactivate_rest_count. lia. }
  assert (∀ qs, length qs = length ps → (count_active qs ≤ 1)%nat →
    count_active (active_step 2 qs) = 1%nat) as Hfew.
  { intros qs Hq Hc. destruct (decide (count_active qs = 1%nat)) as [E|E].
    - by rewrite active_step_one.
    - rewrite active_step_zero by lia.
      destruct (lookup_lt_is_Some_2 qs 1) as [p Hp]; [lia|].
      apply (activate_first_hit 2 0 qs 1 p); [lia|done|].
      unfold bootable_type. simpl. by rewrite orb_true_r. }
  assert (∀ qs, length qs = length ps → count_active (active_step 2 (active_step 1 qs)) = 1%nat) as H12.
  { intros qs Hq. destruct (decide (2 ≤ count_active qs)%nat) as [Hm|Hm].
    - rewrite (active_step_one 2); apply (Hmany 1%nat); auto.
    - apply Hfew; [by rewrite length_active_step|].
      destruct (decide (count_active qs = 1%nat)) as [E|E].
      + by rewrite active_step_one, E.
      + rewrite active_step_zero by lia. apply activate_first_le. lia. }
  apply H12, length_active_step.
Qed.

(** ** The shape of the new table *)

(** What an entry says apart from the active flag. *)
Definition extent (p : PARTITION_INFO) : Z * Z * Z * Z :=
  (index p, start_lba p, end_lba p, mbr_type p).

Lemma extent_set_active b p : extent (set_active b p) = extent p.
Proof. done. Qed.

Lemma fix_active_extent ps : extent <$> fix_active ps = extent <$> ps.
Proof.
  assert (∀ qs : list PARTITION_INFO, extent <$> qs = extent <$> (set_active false <$> qs)) as E.
  { intros qs. rewrite <- list_fmap_compose. by apply list_fmap_ext. }
  by rewrite E, fix_active_erase, <- E.
Qed.

Lemma length_fill_new gpt mbr mc news cnt :
  length (fill_new gpt mbr mc news cnt).1 = length news.
Proof.
  revert news cnt; induction gpt as [|p gpt IH]; intros news cnt; simpl; [done|].
  case_match; [|done]. by rewrite IH, length_insert.
Qed.

Lemma fill_new_count gpt mbr mc news cnt :
  (cnt ≤ 4)%nat → (fill_new gpt mbr mc news cnt).2 = Nat.min 4 (cnt + length gpt).
Proof.
  revert news cnt; induction gpt as [|p gpt IH]; intros news cnt Hc; cbn [fill_new length snd]; [lia|].
  case_match; zbool; [rewrite IH by lia; lia|]. cbn [snd]. lia.
Qed.

(** Slots below the fill position are kept. *)
Lemma fill_new_below gpt mbr mc news cnt j :
  (j < cnt)%nat → (fill_new gpt mbr mc news cnt).1 !! j = news !! j.
Proof.
  revert news cnt; induction gpt as [|p gpt IH]; intros news cnt Hj; simpl; [done|].
  case_match; [|done]. rewrite IH by lia. apply list_lookup_insert_ne. lia.
Qed.

(** Slot [cnt + k] is filled from the [k]-th partition. *)
Lemma fill_new_at gpt mbr mc news cnt k p :
  length news = 4%nat → (cnt + k < 4)%nat → gpt !! k = Some p →
  ∃ old, (fill_new gpt mbr mc news cnt).1 !! (cnt + k)%nat = Some (new_entry old (cnt + k) p mbr mc).
Proof.
  revert news cnt k; induction gpt as [|q gpt IH]; intros news cnt k Hl Hk Hp; [done|]; simpl.
  assert ((cnt <? 4)%nat = true) as -> by (apply Nat.ltb_lt; lia).
  destruct k as [|k]; simpl in Hp; simplify_eq.
  - rewrite Nat.add_0_r, fill_new_below by lia.
    eexists. apply list_lookup_insert_eq. lia.
  - rewrite <- Nat.add_succ_comm. apply IH; [by rewrite length_insert|lia|done].
Qed.

Section Compose.
Context (gpt : list PARTITION_INFO) (gc : nat) (mbr : list PARTITION_INFO) (mc : nat).
Context (news : list PARTITION_INFO).
Context (Hnews : length news = 4%nat).

(** The partitions that get an entry of their own. *)
Definition rest_parts : list PARTITION_INFO :=
  if mbr_type (gpt !!! 0%nat) =? 0xef then drop 1 (take gc gpt) else take gc gpt.

(** The last LBA of the protective entry. *)
Definition protective_end : Z :=
  if mbr_type (gpt !!! 0%nat) =? 0xef then end_lba (gpt !!! 0%nat)
  else wrap64 (min_start_lba gpt gc - 1).

Let start := <[0%nat := protective_entry (news !!! 0%nat) protective_end]> news.
Let filled := fill_new rest_parts mbr mc start 1.

Lemma compose_new_eq :
  compose_new gpt gc mbr mc news = (fix_active (take filled.2 filled.1) ++ drop filled.2 filled.1, filled.2).
Proof.
  unfold compose_new, filled, start, rest_parts, protective_end.
  by destruct (fill_new _ _ _ _ _).
Qed.

Lemma compose_new_count : (compose_new gpt gc mbr mc news).2 = Nat.min 4 (1 + length rest_parts).
Proof. rewrite compose_new_eq. simpl. apply fill_new_count. lia. Qed.

Lemma length_filled : length filled.1 = 4%nat.
Proof. unfold filled. rewrite length_fill_new. unfold start. by rewrite length_insert. Qed.

Lemma length_compose_new : length (compose_new gpt gc mbr mc news).1 = 4%nat.
Proof.
  rewrite compose_new_eq. simpl.
  rewrite length_app, length_fix_active, <- length_app, take_drop. apply length_filled.
Qed.

(** The proposed entries, and their extents. *)
Definition proposed : list PARTITION_INFO :=
  take (compose_new gpt gc mbr mc news).2 (compose_new gpt gc mbr mc news).1.

Lemma proposed_eq : proposed = fix_active (take filled.2 filled.1).
Proof.
  unfold proposed. rewrite compose_new_eq. simpl. rewrite take_app_length'; [done|].
  rewrite length_fix_active, length_take, length_filled.
  unfold filled. rewrite fill_new_count by lia. lia.
Qed.

Lemma length_proposed : length proposed = Nat.min 4 (1 + length rest_parts).
Proof.
  rewrite proposed_eq, length_fix_active, length_take, length_filled.
  unfold filled. rewrite fill_new_count by lia. lia.
Qed.

Lemma proposed_extent j :
  extent <$> proposed !! j = extent <$> (take filled.2 filled.1) !! j.
Proof.
  rewrite <- !list_lookup_fmap. by rewrite proposed_eq, fix_active_extent.
Qed.

Lemma proposed_head : extent <$> proposed !! 0%nat = Some (0, 1, protective_end, 0xee).
Proof.
  rewrite proposed_extent, lookup_take_lt.
  - unfold filled. rewrite fill_new_below by lia. unfold start.
    by rewrite list_lookup_insert_eq by lia.
  - unfold filled. rewrite fill_new_count by lia. lia.
Qed.

Lemma proposed_at k p :
  (1 + k < 4)%nat → rest_parts !! k = Some p →
  ∃ old, extent <$> proposed !! (1 + k)%nat = Some (extent (new_entry old (1 + k) p mbr mc)).
Proof.
  intros Hk Hp. pose proof (lookup_lt_Some _ _ _ Hp).
  destruct (fill_new_at rest_parts mbr mc start 1 k p) as [old Ho].
  { unfold start. by rewrite length_insert. } { done. } { done. }
  exists old. rewrite proposed_extent, lookup_take_lt.
  - unfold filled. by rewrite Ho.
  - unfold filled. rewrite fill_new_count by lia. lia.
Qed.

(** Entry [j] of the proposal: the protective entry, or the [j]-th of the rest. *)
Lemma proposed_cases j q :
  proposed !! j = Some q →
  (j = 0%nat ∧ extent q = (0, 1, protective_end, 0xee)) ∨
  (∃ k p old, j = S k ∧ rest_parts !! k = Some p ∧ extent q = extent (new_entry old j p mbr mc)).
Proof.
  intros Hj. pose proof (lookup_lt_Some _ _ _ Hj) as Hlt. rewrite length_proposed in Hlt.
  destruct j as [|k].
  - left. split; [done|]. pose proof proposed_head as E. rewrite Hj in E.
    by apply (inj Some) in E.
  - right. destruct (lookup_lt_is_Some_2 rest_parts k) as [p Hp]; [lia|].
    destruct (proposed_at k p) as [old E]; [lia|done|].
    rewrite Nat.add_1_l, Hj in E. apply (inj Some) in E. by eauto 10.
Qed.

Lemma proposed_indexed : indexed proposed.
Proof.
  intros j q Hj. destruct (proposed_cases j q Hj) as [[-> E]|(k & p & old & -> & _ & E)];
    by apply (f_equal (λ x, x.1.1.1)) in E.
Qed.

Lemma proposed_one_active : (1 ≤ length rest_parts)%nat → count_active proposed = 1%nat.
Proof.
  intros Hr. rewrite proposed_eq. apply fix_active_one.
  rewrite length_take, length_filled. unfold filled. rewrite fill_new_count by lia. lia.
Qed.
End Compose.

(** ** What the analysis changes *)

(** A part of the state that does not depend on the sector buffer. *)
Class NoSector {D X} (f : State D → X) : Prop :=
  no_sector x s : f (with_sector x s) = f s.

Section AnalyzeFrame.
Context {D : Type} `{BlockIo D}.

#[export] Instance no_sector_dev : NoSector (@the_dev D).
Proof. done. Qed.
#[export] Instance no_sector_mbr : NoSector (@mbr_parts D).
Proof. done. Qed.
#[export] Instance no_sector_mbrc : NoSector (@mbr_part_count D).
Proof. done. Qed.
#[export] Instance no_sector_gpt : NoSector (@gpt_parts D).
Proof. done. Qed.
#[export] Instance no_sector_gptc : NoSector (@gpt_part_count D).
Proof. done. Qed.
#[export] Instance no_sector_new : NoSector (@new_mbr_parts D).
Proof. done. Qed.
#[export] Instance no_sector_newc : NoSector (@new_mbr_part_count D).
Proof. done. Qed.
#[export] Instance no_sector_kbd : NoSector (@keyboard D).
Proof. done. Qed.

Lemma keeps_read_sector {X} (f : State D → X) `{!NoSector f} lba : keeps f (read_sector lba).
Proof.
  intros s a s'. unfold read_sector. repeat case_match; intros; simplify_eq; [apply no_sector|done].
Qed.

Lemma keeps_detect {X} (f : State D → X) `{!NoSector f} lba : keeps f (detect_mbrtype_fs lba).
Proof.
  assert (∀ lba' probe next, keeps f next → keeps f (detect_step (D:=D) lba' probe next)) as Hs.
  { intros lba' probe next Hn. unfold detect_step.
    pose proof (keeps_read_sector f lba'). keeps_tac. }
  unfold detect_mbrtype_fs. repeat apply Hs. apply keeps_ret.
Qed.

Lemma keeps_classify_type {X} (f : State D → X) `{!NoSector f} b p t : keeps f (classify_type b p t).
Proof. unfold classify_type. pose proof (keeps_detect f (start_lba p)). keeps_tac. Qed.

(** A part of the state that does not depend on the MBR types of [gpt_parts]. *)
Lemma keeps_classify {X} (f : State D → X) `{!NoSector f} l b :
  (∀ i ty s, f (with_gpt (<[i := set_mbr_type ty (gpt_parts s !!! i)]> (gpt_parts s))
                         (gpt_part_count s) s) = f s) →
  keeps f (classify_parts l b).
Proof.
  intros Hf. revert b; induction l as [|i l IH]; intros b; simpl; [apply keeps_ret|].
  intros s a s'' E. m_inv. destruct (gpt_parttype (gpt_parts s !!! i)) as [t|]; [|done]. m_inv.
  match goal with H : classify_type _ _ _ _ = Some (_, ?s1) |- _ =>
    pose proof (keeps_classify_type f _ _ _ _ _ _ H);
    pose proof (keeps_classify_type gpt_parts _ _ _ _ _ _ H) as Hg
  end.
  rewrite (IH _ _ _ _ E). rewrite <- Hg, Hf. done.
Qed.

(** The GPT partitions without the MBR types the analysis assigns. *)
Definition untyped (s : State D) : list PARTITION_INFO := set_mbr_type 0 <$> gpt_parts s.

Lemma keeps_classify_untyped l b : keeps untyped (classify_parts l b).
Proof.
  apply keeps_classify; [done|]. intros i ty s. unfold untyped. simpl.
  apply list_eq. intros j. rewrite !list_lookup_fmap.
  destruct (decide (i = j)) as [<-|]; [|by rewrite list_lookup_insert_ne].
  destruct (decide (i < length (gpt_parts s))%nat) as [Hi|Hi].
  - rewrite list_lookup_insert_eq by done. simpl.
    rewrite (list_lookup_lookup_total_lt (gpt_parts s) i) by done. done.
  - by rewrite list_insert_ge by lia.
Qed.

Lemma analyze_inv s s' :
  analyze s = Some (0, s') → new_mbr_part_count s' ≠ 0%nat →
  decide_action (mbr_parts s) (mbr_part_count s) (gpt_parts s') (gpt_part_count s) = ACTION_REWRITE
  ∧ (new_mbr_parts s', new_mbr_part_count s') =
      compose_new (gpt_parts s') (gpt_part_count s) (mbr_parts s) (mbr_part_count s) (new_mbr_parts s)
  ∧ mbr_parts s' = mbr_parts s ∧ mbr_part_count s' = mbr_part_count s
  ∧ gpt_part_count s' = gpt_part_count s ∧ the_dev s' = the_dev s
  ∧ keyboard s' = keyboard s ∧ untyped s' = untyped s.
Proof.
  intros E Hn. unfold analyze in E. m_inv. case_match; m_inv; try done.
  match goal with H : classify_parts _ _ _ = Some (_, ?s1) |- _ =>
    pose proof (keeps_classify mbr_parts _ _ ltac:(done) _ _ _ H) as Hm;
    pose proof (keeps_classify mbr_part_count _ _ ltac:(done) _ _ _ H) as Hmc;
    pose proof (keeps_classify gpt_part_count _ _ ltac:(done) _ _ _ H) as Hgc;
    pose proof (keeps_classify new_mbr_parts _ _ ltac:(done) _ _ _ H) as Hnp;
    pose proof (keeps_classify new_mbr_part_count _ _ ltac:(done) _ _ _ H) as Hnc;
    pose proof (keeps_classify the_dev _ _ ltac:(done) _ _ _ H) as Hd;
    pose proof (keeps_classify keyboard _ _ ltac:(done) _ _ _ H) as Hk;
    pose proof (keeps_classify_untyped _ _ _ _ _ H) as Hu; set (t := s1) in *
  end.
  simpl in *. rewrite Hm, Hmc in E.
  case_match; m_inv; try done.
  case_match. m_inv. simpl. rewrite Hnp in *.
  repeat split; try congruence; [exact Hd|exact Hu].
Qed.
End AnalyzeFrame.

(** ** Overlaps *)

(** The partitions of a table are pairwise disjoint. *)
Definition disjoint_parts (ps : list PARTITION_INFO) : Prop :=
  ∀ i j p q, ps !! i = Some p → ps !! j = Some q → i ≠ j → overlaps p q = false.

Lemma overlaps_false a b :
  overlaps a b = false ↔ end_lba b < start_lba a ∨ end_lba a < start_lba b.
Proof.
  unfold overlaps. rewrite negb_false_iff, orb_true_iff, !Z.ltb_lt. done.
Qed.

Lemma extent_overlaps a b a' b' :
  extent a = extent a' → extent b = extent b' → overlaps a b = overlaps a' b'.
Proof. unfold extent, overlaps. intros [= _ -> -> _] [= _ -> -> _]. done. Qed.

Lemma min_start_le gpt gc i p :
  take gc gpt !! i = Some p → min_start_lba gpt gc ≤ start_lba p.
Proof.
  unfold min_start_lba. generalize (start_lba (gpt !!! 0%nat)).
  generalize (take gc gpt). intros l. revert i. induction l as [|q l IH]; intros i m Hi; [done|].
  simpl. destruct i as [|i]; simpl in Hi.
  - simplify_eq. clear IH. assert (∀ m, foldl (λ m p, if start_lba p <? m then start_lba p else m) m l ≤ m) as Hm.
    { clear. induction l as [|q l IH]; intros m; simpl; [lia|].
      etrans; [apply IH|]. case_match; zbool; lia. }
    etrans; [apply Hm|]. case_match; zbool; lia.
  - by apply (IH i).
Qed.

Lemma min_start_in gpt gc :
  (1 ≤ gc)%nat → gpt ≠ [] → ∃ p, p ∈ take gc gpt ∧ min_start_lba gpt gc = start_lba p.
Proof.
  intros Hgc Hne. destruct gpt as [|p0 gpt]; [done|]. destruct gc as [|gc]; [lia|].
  unfold min_start_lba. cbn [take lookup_total list_lookup_total foldl].
  rewrite Z.ltb_irrefl.
  assert (∀ l q, ∃ p, (p = q ∨ p ∈ l) ∧
    foldl (λ m p, if start_lba p <? m then start_lba p else m) (start_lba q) l = start_lba p) as Hl.
  { clear. induction l as [|x l IH]; intros q; simpl; [eauto|].
    case_match.
    - destruct (IH x) as (p & Hp & E). exists p. rewrite E, elem_of_cons. destruct Hp; auto.
    - destruct (IH q) as (p & Hp & E). exists p. rewrite E, elem_of_cons. destruct Hp; auto. }
  destruct (Hl (take gc gpt) p0) as (p & Hp & E). exists p. split; [|done].
  apply elem_of_cons. destruct Hp; auto.
Qed.

Section Disjoint.
Context (gpt : list PARTITION_INFO) (gc : nat) (mbr : list PARTITION_INFO) (mc : nat).
Context (news : list PARTITION_INFO).
Context (Hnews : length news = 4%nat) (Hgc : (1 ≤ gc ≤ length gpt)%nat).

Lemma rest_lookup k p :
  rest_parts gpt gc !! k = Some p →
  ∃ i, take gc gpt !! i = Some p ∧
       i = if mbr_type (gpt !!! 0%nat) =? 0xef then S k else k.
Proof.
  unfold rest_parts. case_match; [|by eauto].
  rewrite lookup_drop. rewrite Nat.add_1_l. by eauto.
Qed.

(** The partitions are above LBA 1 and the ESP, when entry 0 is one, comes first. *)
Definition esp_first : Prop :=
  ∀ p, p ∈ rest_parts gpt gc →
    if mbr_type (gpt !!! 0%nat) =? 0xef then end_lba (gpt !!! 0%nat) < start_lba p
    else 1 < start_lba p < 2 ^ 64.

(** Extents of GPT partitions are kept, so a disjoint GPT gives a disjoint MBR. *)
Lemma proposed_disjoint :
  disjoint_parts (take gc gpt) → esp_first → disjoint_parts (proposed gpt gc mbr mc news).
Proof.
  intros Hd He i j p q Hi Hj Hij.
  assert (∀ k r, rest_parts gpt gc !! k = Some r → protective_end gpt gc < start_lba r) as Hprot.
  { intros k r Hr. pose proof (He r ltac:(by eapply list_elem_of_lookup_2)) as Hs.
    unfold protective_end. destruct (mbr_type (gpt !!! 0%nat) =? 0xef) eqn:Et; [done|].
    assert (rest_parts gpt gc = take gc gpt) as Er by (unfold rest_parts; by rewrite Et).
    destruct (min_start_in gpt gc) as (m & Hm & Em); [lia|by intros ->; simpl in Hgc; lia|].
    rewrite <- Er in Hm. pose proof (He m Hm) as Hm1. rewrite Et in Hm1. rewrite Er in Hr.
    pose proof (min_start_le gpt gc _ _ Hr). rewrite wrap64_small; lia. }
  assert (∀ a b k r o, extent a = (0, 1, protective_end gpt gc, 0xee) →
    rest_parts gpt gc !! k = Some r → extent b = extent (new_entry o (S k) r mbr mc) →
    end_lba a < start_lba b) as Hpr.
  { intros a b k r o Ha Hr Hb. apply (f_equal (λ x, x.1.2)) in Ha.
    apply (f_equal (λ x, x.1.1.2)) in Hb. simpl in *. rewrite Ha, Hb. eauto. }
  apply overlaps_false.
  apply (proposed_cases gpt gc mbr mc news Hnews) in Hi as [[-> Ep]|(ki & pi & oi & -> & Hi & Ep)];
  apply (proposed_cases gpt gc mbr mc news Hnews) in Hj as [[-> Eq]|(kj & pj & oj & -> & Hj & Eq)]; try done.
  - right. by eapply Hpr.
  - left. by eapply Hpr.
  - apply overlaps_false.
    rewrite (extent_overlaps _ _ _ _ Ep Eq).
    destruct (rest_lookup _ _ Hi) as (i & Hi' & ->). destruct (rest_lookup _ _ Hj) as (j & Hj' & ->).
    refine (Hd _ _ pi pj Hi' Hj' _). case_match; lia.
Qed.
End Disjoint.

(** ** A written table is recognised as synchronised *)

Section Idempotent.
Context (gpt : list PARTITION_INFO) (gc : nat) (mbr : list PARTITION_INFO) (mc : nat).
Context (news : list PARTITION_INFO).
Context (Hnews : length news = 4%nat) (Hgc : (2 ≤ gc ≤ length gpt)%nat).
Context (Hesp : mbr_type (gpt !!! 0%nat) = 0xef).

(** [mbr'] carries the proposed entries, as a fresh [read_mbr] finds them. *)
Context (mbr' : list PARTITION_INFO) (mc' : nat).
Context (Hmc' : mc' = length (proposed gpt gc mbr mc news)).
Context (Hview : mbr_view <$> take mc' mbr' = mbr_view <$> proposed gpt gc mbr mc news).

Lemma readback_lookup j q :
  proposed gpt gc mbr mc news !! j = Some q →
  mbr_view (mbr' !!! j) = mbr_view q.
Proof.
  intros Hj. pose proof (lookup_lt_Some _ _ _ Hj) as Hlt.
  assert (mbr_view <$> take mc' mbr' !! j = Some (mbr_view q)) as E.
  { rewrite <- list_lookup_fmap, Hview, list_lookup_fmap, Hj. done. }
  rewrite lookup_take_lt in E by lia.
  destruct (mbr' !! j) as [r|] eqn:Er; [|done].
  rewrite (list_lookup_total_correct _ _ _ Er). by apply (inj Some) in E.
Qed.

Lemma length_rest_esp : length (rest_parts gpt gc) = (gc - 1)%nat.
Proof.
  unfold rest_parts. rewrite Hesp. simpl. rewrite length_drop, length_take. lia.
Qed.

Lemma readback_count : mc' = Nat.min 4 gc.
Proof.
  rewrite Hmc', length_proposed, length_rest_esp by done. lia.
Qed.

(** Entry [j] of the table read back is GPT partition [j]. *)
Lemma readback_unchanged j : (1 ≤ j < mc')%nat → part_changed mbr' gpt j = false.
Proof.
  intros Hj. destruct j as [|k]; [lia|]. pose proof readback_count as Hc.
  destruct (lookup_lt_is_Some_2 (proposed gpt gc mbr mc news) (S k)) as [q Hq]; [lia|].
  pose proof (readback_lookup _ _ Hq) as Hv.
  destruct (proposed_cases gpt gc mbr mc news Hnews (S k) q Hq)
    as [[? _]|(k' & p & old & [= <-] & Hp & E)]; [done|].
  unfold rest_parts in Hp. rewrite Hesp in Hp. simpl in Hp.
  rewrite lookup_drop, lookup_take_lt in Hp by lia. rewrite Nat.add_1_l in Hp.
  unfold part_changed. rewrite (list_lookup_total_correct _ _ _ Hp).
  unfold mbr_view in Hv. unfold extent in E. simpl in E.
  injection Hv as Hv1 Hv2 Hv3 Hv4 Hv5. injection E as E1 E2 E3 E4.
  rewrite Hv2, Hv3, Hv4, E2, E3, E4, !Z.eqb_refl. simpl.
  destruct (Z.eqb_spec (mbr_type p) 0) as [Ez|Ez]; [done|]. simpl.
  apply negb_false_iff, Z.eqb_eq. destruct (find_old _ _ _); simpl.
  all: destruct (Z.eqb_spec (mbr_type p) 0); try done.
  all: destruct (Z.eqb_spec (mbr_type p) 0); done.
Qed.

Lemma count_active_view (l1 l2 : list PARTITION_INFO) :
  mbr_view <$> l1 = mbr_view <$> l2 → count_active l1 = count_active l2.
Proof.
  revert l2; induction l1 as [|p l1 IH]; intros [|q l2] E; try done.
  rewrite !fmap_cons in E. injection E as E1 E2 E3 E4 E5 E.
  rewrite !count_active_cons, E5. by rewrite (IH l2).
Qed.

Lemma readback_action : decide_action mbr' mc' gpt gc = ACTION_NOP.
Proof.
  pose proof readback_count as Hc.
  destruct (lookup_lt_is_Some_2 (proposed gpt gc mbr mc news) 0) as [q Hq]; [lia|].
  pose proof (readback_lookup _ _ Hq) as Hv.
  pose proof (proposed_head gpt gc mbr mc news Hnews) as Eh. rewrite Hq in Eh.
  unfold protective_end in Eh. rewrite Hesp in Eh. simpl in Eh. unfold extent in Eh.
  injection Eh as E1 E2 E3 E4. unfold mbr_view in Hv. injection Hv as Hv1 Hv2 Hv3 Hv4 Hv5.
  unfold decide_action.
  assert ((mc' =? 0)%nat = false) as -> by (apply Nat.eqb_neq; lia).
  assert ((mc' =? 1)%nat = false) as -> by (apply Nat.eqb_neq; lia).
  assert (apple_way mbr' gpt = true) as ->.
  { unfold apple_way. rewrite Hv2, Hv3, Hv4, E2, E3, E4, Hesp. simpl. by rewrite Z.eqb_refl. }
  unfold apple_action.
  rewrite (count_active_view _ _ Hview), proposed_one_active by (done || rewrite length_rest_esp; lia).
  cbn [andb Nat.eqb].
  assert (existsb (part_changed mbr' gpt) (seq 1 (mc' - 1)) = false) as ->.
  { rewrite <- not_true_iff_false, existsb_exists. intros (j & Hj & E).
    apply list_elem_of_In, elem_of_seq in Hj. rewrite readback_unchanged in E by lia. done. }
  case_match; [|done]. exfalso.
  apply orb_true_iff in H as [H|H]; zbool; lia.
Qed.
End Idempotent.
