(* ===== verification/GptMain.v ===== *)
(** * gptsync: the properties of the whole program *)

From Stdlib Require Import ZArith Lia.
From stdpp Require Import base list list_numbers strings.
From S2P Require Import Prelude.
From S2P Require Import GptLib.
From S2P Require Import GptSync.
From S2P Require Import GptWrite.
From S2P Require Import GptAnalyze.

Open Scope Z_scope.

(** ** The consistency check of the GPT *)

(** What [check_gpt] requires of the first [n] entries. *)
Definition gpt_consistent (parts : list PARTITION_INFO) (n : nat) : Prop :=
  (∀ i, (i < n)%nat → ∃ t, gpt_parttype (parts !!! i) = Some t ∧
     start_lba (parts !!! i) ≤ end_lba (parts !!! i) ∧ gt_kind t ≠ GPT_KIND_FATAL)
  ∧ (∀ i k, (i < n)%nat → (k < n)%nat → i ≠ k → overlaps (parts !!! i) (parts !!! k) = false)
  ∧ (∃ i t, (i < n)%nat ∧ gpt_parttype (parts !!! i) = Some t ∧ is_data_kind (gt_kind t) = true).

Lemma overlaps_other_false parts n i :
  overlaps_other parts n i = false ↔
  ∀ k, (k < n)%nat → k ≠ i → overlaps (parts !!! i) (parts !!! k) = false.
Proof.
  unfold overlaps_other. rewrite <- not_true_iff_false, existsb_exists. split.
  - intros Hn k Hk Hne. apply not_true_iff_false. intros Ho. apply Hn. exists k.
    split; [apply list_elem_of_In, elem_of_seq; lia|].
    rewrite Ho, andb_true_r. by apply negb_true_iff, Nat.eqb_neq.
  - intros Hall (k & Hk%list_elem_of_In%elem_of_seq & E). zbool.
    rewrite Hall in *; [done|lia|done].
Qed.

Section CheckGpt.
Context {D : Type}.
Implicit Types s : State D.

Lemma check_gpt_loop_ok l found s :
  check_gpt_loop l found s = Some (0, s) ↔
  (∀ i, i ∈ l → ∃ t, gpt_parttype (gpt_parts s !!! i) = Some t ∧
     start_lba (gpt_parts s !!! i) ≤ end_lba (gpt_parts s !!! i) ∧ gt_kind t ≠ GPT_KIND_FATAL ∧
     overlaps_other (gpt_parts s) (gpt_part_count s) i = false)
  ∧ (found = true ∨ ∃ i t, i ∈ l ∧ gpt_parttype (gpt_parts s !!! i) = Some t
       ∧ is_data_kind (gt_kind t) = true).
Proof.
  revert found; induction l as [|i l IH]; intros found; simpl.
  - unfold mret, M_ret. destruct found; split; intros Hx; try done.
    + split; [|by left]. intros i Hi. by apply not_elem_of_nil in Hi.
    + destruct Hx as [_ [?|(i & t & Hi & _)]]; [done|]. by apply not_elem_of_nil in Hi.
  - unfold mbind, M_bind, gets. setoid_rewrite elem_of_cons.
    destruct (Z.ltb_spec (end_lba (gpt_parts s !!! i)) (start_lba (gpt_parts s !!! i))).
    { split; [done|]. intros [Hall _]. destruct (Hall i (or_introl eq_refl)) as (t & _ & ? & _). lia. }
    destruct (overlaps_other _ _ i) eqn:Eo.
    { split; [done|]. intros [Hall _]. destruct (Hall i (or_introl eq_refl)) as (t & _ & _ & _ & ?). congruence. }
    destruct (gpt_parttype (gpt_parts s !!! i)) as [t|] eqn:Et.
    2: { split; [done|]. intros [Hall _]. destruct (Hall i (or_introl eq_refl)) as (t & ? & _). congruence. }
    case_bool_decide as Hk.
    { split; [done|]. intros [Hall _]. destruct (Hall i (or_introl eq_refl)) as (t' & ? & _ & ? & _). congruence. }
    rewrite IH. rewrite orb_true_iff. split.
    + intros [Hall Hf]. split.
      * intros j [->|Hj]; [exists t; auto|by apply Hall].
      * destruct Hf as [[?|?]|(j & t' & ? & ? & ?)]; [by left|right; exists i, t; auto|right; exists j, t'; auto].
    + intros [Hall Hf]. split; [by auto|].
      destruct Hf as [?|(j & t' & [->|?] & ? & ?)]; [auto| |right; eauto 6].
      left. right. congruence.
Qed.

Lemma check_gpt_ok s :
  check_gpt s = Some (0, s) ↔ gpt_consistent (gpt_parts s) (gpt_part_count s).
Proof.
  unfold check_gpt, mbind, M_bind, gets.
  destruct (Nat.eqb_spec (gpt_part_count s) 0) as [E|E].
  { split; [done|]. intros (_ & _ & i & t & Hi & _). lia. }
  rewrite check_gpt_loop_ok. unfold gpt_consistent. setoid_rewrite elem_of_seq.
  setoid_rewrite overlaps_other_false. split.
  - intros [Hall [?|(i & t & ? & ? & ?)]]; [done|]. split; [|split].
    + intros j Hj. destruct (Hall j) as (t' & ? & ? & ? & _); [lia|]. eauto.
    + intros j k Hj Hk Hne. destruct (Hall j) as (t' & _ & _ & _ & Ho); [lia|]. apply Ho; auto.
    + exists i, t. auto with lia.
  - intros (Hall & Ho & i & t & Hi & Ht & Hd). split.
    + intros j Hj. destruct (Hall j) as (t' & ? & ? & ?); [lia|]. exists t'. repeat split; auto with lia.
    + right. exists i, t. auto with lia.
Qed.

Lemma check_gpt_state s r s' : check_gpt s = Some (r, s') → s' = s.
Proof.
  assert (∀ l found, check_gpt_loop l found s = Some (r, s') → s' = s) as Hl.
  { induction l as [|i l IH]; intros found; simpl.
    - unfold mret, M_ret. by intros [= _ ->].
    - unfold mbind, M_bind, gets, mret, M_ret. repeat case_match; try naive_solver.
      all: intros [= _ ->]; done. }
  unfold check_gpt, mbind, M_bind, gets, mret, M_ret. case_match; [by intros [= _ ->]|apply Hl].
Qed.

Lemma check_mbr_state s r s' : check_mbr s = Some (r, s') → s' = s.
Proof.
  assert (∀ l, check_mbr_loop l s = Some (r, s') → s' = s) as Hl.
  { induction l as [|i l IH]; simpl.
    - unfold mret, M_ret. by intros [= _ ->].
    - unfold mbind, M_bind, gets, mret, M_ret. repeat case_match; try done; by intros [= _ ->]. }
  unfold check_mbr, mbind, M_bind, gets. apply Hl.
Qed.
(** What [check_mbr] requires of the first [n] entries: no two share a sector, and none is an
    extended partition. *)
Definition mbr_consistent (parts : list PARTITION_INFO) (n : nat) : Prop :=
  (∀ i k, (i < n)%nat → (k < n)%nat → i ≠ k →
     end_lba (parts !!! k) < start_lba (parts !!! i) ∨ end_lba (parts !!! i) < start_lba (parts !!! k))
  ∧ (∀ i, (i < n)%nat → mbr_type (parts !!! i) ∉ [0x05; 0x0f; 0x85]).

Lemma check_mbr_loop_ok s l : check_mbr_loop l s = Some (0, s) →
  ∀ i, i ∈ l → overlaps_other (mbr_parts s) (mbr_part_count s) i = false ∧ is_extended (mbr_type (mbr_parts s !!! i)) = false.
Proof.
  induction l as [|j l IH]; simpl; [by intros _ i Hi%not_elem_of_nil|].
  unfold mbind, M_bind, gets, mret, M_ret. destruct (overlaps_other _ _ j) eqn:Eo; [done|].
  destruct (is_extended _) eqn:Ee; [by case_match|]. intros E i [->|Hi]%elem_of_cons; [done|auto].
Qed.

Lemma check_mbr_ok s : check_mbr s = Some (0, s) → mbr_consistent (mbr_parts s) (mbr_part_count s).
Proof.
  unfold check_mbr, mbind, M_bind, gets. intros E. pose proof (check_mbr_loop_ok _ _ E) as Hl. setoid_rewrite elem_of_seq in Hl. split.
  - intros i k Hi Hk Hne. destruct (Hl i) as [Ho _]; [lia|]. pose proof (proj1 (overlaps_other_false _ _ _) Ho k Hk (not_eq_sym Hne)) as Hok.
    unfold overlaps in Hok. apply negb_false_iff, orb_true_iff in Hok as [?|?]; zbool; lia.
  - intros i Hi. destruct (Hl i) as [_ He]; [lia|]. unfold is_extended in He. zbool. rewrite !elem_of_cons, elem_of_nil. lia.
Qed.
End CheckGpt.

(** ** What reading the tables establishes *)

Section Reading.
Context {D : Type} `{BlockIo D}.
Implicit Types s : State D.

(** Every stored GPT partition points into the type table (or to the dummy). *)
Definition gpt_ok s : Prop :=
  length (gpt_parts s) = 128%nat ∧ (gpt_part_count s ≤ 128)%nat ∧
  ∀ i, (i < gpt_part_count s)%nat →
    gpt_parttype (gpt_parts s !!! i) = Some (find_gpt_parttype (gpt_type (gpt_parts s !!! i))).

Lemma push_gpt_ok p :
  gpt_parttype p = Some (find_gpt_parttype (gpt_type p)) → preserves gpt_ok (push_gpt p).
Proof.
  intros Hp s a s' (Hl & Hc & Hall). unfold push_gpt. case_match; [|done]. zbool.
  intros [= _ <-]. split; [|split]; simpl.
  - by rewrite length_insert.
  - lia.
  - intros i Hi. destruct (decide (i = gpt_part_count s)) as [->|Hne].
    + by rewrite list_lookup_total_insert_eq by lia.
    + rewrite list_lookup_total_insert_ne by done. apply Hall. lia.
Qed.

Lemma read_sector_gpt_ok lba : preserves gpt_ok (read_sector lba).
Proof.
  intros s a s' Hs. unfold read_sector. repeat case_match; intros; simplify_eq; exact Hs.
Qed.

Lemma read_gpt_gpt_ok : preserves gpt_ok read_gpt.
Proof.
  assert (∀ n i lba es, preserves gpt_ok (read_gpt_entries (D:=D) n i lba es)) as He.
  { induction n as [|n IH]; intros i lba es; simpl; [apply preserves_ret|].
    pose proof read_sector_gpt_ok. unfold read_gpt_entry.
    preserves_tac. by apply push_gpt_ok. }
  unfold read_gpt. pose proof read_sector_gpt_ok. preserves_tac.
Qed.

(** Reading the GPT leaves the rest of the state alone. *)
Class NoGpt {X} (f : State D → X) : Prop := no_gpt x n s : f (with_gpt x n s) = f s.

Lemma keeps_read_gpt {X} (f : State D → X) `{!NoSector f, !NoGpt f} : keeps f read_gpt.
Proof.
  assert (∀ p, keeps f (push_gpt (D:=D) p)) as Hp.
  { intros p s a s'. unfold push_gpt. case_match; [|done]. intros [= _ <-]. apply no_gpt. }
  assert (∀ n i lba es, keeps f (read_gpt_entries (D:=D) n i lba es)) as He.
  { induction n as [|n IH]; intros i lba es; simpl; [apply keeps_ret|].
    pose proof (keeps_read_sector (D:=D) f). unfold read_gpt_entry. keeps_tac. }
  unfold read_gpt. pose proof (keeps_read_sector (D:=D) f). keeps_tac.
Qed.

Class NoMbr {X} (f : State D → X) : Prop := no_mbr x n s :
  length x = length (mbr_parts s) → f (with_mbr x n s) = f s.

Lemma keeps_read_mbr {X} (f : State D → X) `{!NoSector f, !NoMbr f} : keeps f read_mbr.
Proof.
  assert (∀ i e, keeps f (push_mbr (D:=D) i e)) as Hp.
  { intros i e s a s'. unfold push_mbr. case_match; [|done]. intros [= _ <-]. apply no_mbr.
    by rewrite length_insert. }
  assert (∀ l, keeps f (read_mbr_fill (D:=D) l)) as He.
  { induction l as [|i l IH]; simpl; [apply keeps_ret|]. keeps_tac. }
  unfold read_mbr. pose proof (keeps_read_sector (D:=D) f). keeps_tac.
Qed.
End Reading.

(** ** The prompt *)

Section Prompt.
Context {D : Type}.
Implicit Types s : State D.

(** The key [input_boolean] looks at: buffered keys, and the first batch after
    them, are dropped. *)
Definition answer_key (k : Keyboard) : option Z :=
  let late := if bool_decide (pending k = []) then arrivals k else tail (arrivals k) in
  match late with
  | (c :: _) :: _ => Some c
  | _ => None
  end.

Definition confirmed (k : Keyboard) : bool :=
  match answer_key k with Some c => (c =? 121) || (c =? 89) | None => false end.

Lemma input_boolean_answer s :
  ∃ k', input_boolean s = Some
    (match answer_key (keyboard s) with None => (1, false) | Some _ => (0, confirmed (keyboard s)) end,
     with_keyboard k' s).
Proof.
  unfold confirmed, answer_key.
  unfold input_boolean, mbind, M_bind, ReadAllKeyStrokes, wait_keys, ReadKeyStroke, modify, mret, M_ret.
  destruct s as [b b2 sec mp mc gp gc np nc [pend arr]]. simpl.
  case_bool_decide; simpl.
  - destruct arr as [|[|c b0] arr]; simpl; eexists; reflexivity.
  - destruct arr as [|b1 [|[|c b0] arr]]; simpl; eexists; reflexivity.
Qed.
End Prompt.

(** ** MBR types of the data partitions *)

Lemma find_gpt_parttype_in guid : find_gpt_parttype guid ∈ gpt_dummy_type :: gpt_types.
Proof.
  unfold find_gpt_parttype. destruct (list_find _ _) as [[i t]|] eqn:E.
  - apply list_find_Some in E as [Hl _]. apply elem_of_cons. right. by eapply list_elem_of_lookup_2.
  - apply elem_of_cons. by left.
Qed.

(** No type of a data partition maps to the ESP type 0xef. *)
Lemma data_types_not_esp t :
  t ∈ gpt_dummy_type :: gpt_types → is_data_kind (gt_kind t) = true → gt_mbr_type t ≠ 0xef.
Proof.
  intros Ht Hk.
  assert (forallb (λ t, negb (is_data_kind (gt_kind t)) || negb (gt_mbr_type t =? 0xef))
    (gpt_dummy_type :: gpt_types) = true) as Hc by reflexivity.
  rewrite forallb_forall in Hc. specialize (Hc t ltac:(by apply list_elem_of_In)).
  rewrite Hk in Hc. simpl in Hc. by apply negb_true_iff, Z.eqb_neq in Hc.
Qed.

(** The MBR types [detect_mbrtype_fs] can report. *)
Definition fs_types : list Z := [0; 0x01; 0x07; 0x0c; 0x0e; 0x83; 0xaf].

Section Types.
Context {D : Type} `{BlockIo D}.
Implicit Types s : State D.

Lemma detect_range lba s r s' : detect_mbrtype_fs lba s = Some (r, s') → r.2.1 ∈ fs_types.
Proof.
  assert (∀ z : Z, z ∈ fs_types ↔ bool_decide (z ∈ fs_types) = true) as Hd
    by (intros; by rewrite bool_decide_eq_true).
  assert (∀ lba' probe next,
    (∀ sec x, probe sec = Some x → x.1 ∈ fs_types) →
    (∀ s r s', next s = Some (r, s') → r.2.1 ∈ fs_types) →
    ∀ s r s', detect_step (D:=D) lba' probe next s = Some (r, s') → r.2.1 ∈ fs_types) as Hstep.
  { intros lba' probe next Hp Hn s1 r1 s1' E. unfold detect_step in E. m_inv.
    case_match; m_inv; [by apply Hd|]. case_match; m_inv; [by eapply Hp|by eapply Hn]. }
  unfold detect_mbrtype_fs.
  revert s r s'. repeat (apply Hstep; [intros sec x; unfold detect_boot_sector, detect_1k_sector,
    detect_64k_sector; repeat case_match; intros; simplify_eq; by apply Hd|]).
  intros s r s' E. m_inv. by apply Hd.
Qed.

Lemma classify_data b p t s ty s' :
  t ∈ gpt_dummy_type :: gpt_types → is_data_kind (gt_kind t) = true →
  classify_type b p t s = Some (ty, s') → ty ≠ 0xef.
Proof.
  intros Ht Hk E. unfold classify_type in E. case_bool_decide.
  - m_inv. match goal with Hr : detect_mbrtype_fs _ _ = Some (?r, _) |- _ =>
      apply detect_range in Hr; revert Hr; generalize (r.2.1) end.
    intros z Hz. unfold fs_types in Hz. rewrite !elem_of_cons in Hz.
    case_match; [|lia]. destruct_or!; try lia. by apply not_elem_of_nil in Hz.
  - pose proof (data_types_not_esp t Ht Hk) as Hne.
    assert ((gt_mbr_type t =? 0xef) = false) as Hq by by apply Z.eqb_neq.
    rewrite Hq in E. by m_inv.
Qed.
End Types.

(** ** From the checks to the proposal *)

Lemma untyped_at (ps qs : list PARTITION_INFO) i :
  set_mbr_type 0 <$> ps = set_mbr_type 0 <$> qs →
  set_mbr_type 0 (ps !!! i) = set_mbr_type 0 (qs !!! i).
Proof.
  intros E. apply (f_equal (λ l, l !! i)) in E. rewrite !list_lookup_fmap in E.
  rewrite !list_lookup_total_alt.
  destruct (ps !! i) as [p|], (qs !! i) as [q|]; simpl in *; try done.
  by apply (inj Some) in E.
Qed.

Lemma gpt_consistent_untyped (ps qs : list PARTITION_INFO) n :
  set_mbr_type 0 <$> ps = set_mbr_type 0 <$> qs → gpt_consistent ps n → gpt_consistent qs n.
Proof.
  intros E. assert (∀ i, start_lba (qs !!! i) = start_lba (ps !!! i)
    ∧ end_lba (qs !!! i) = end_lba (ps !!! i) ∧ gpt_parttype (qs !!! i) = gpt_parttype (ps !!! i)) as Hi.
  { intros i. pose proof (untyped_at _ _ i E) as Ei. unfold set_mbr_type in Ei. by injection Ei. }
  unfold gpt_consistent, overlaps.
  intros (H1 & H2 & i & t & H3). split; [|split].
  - intros j Hj. destruct (Hi j) as (-> & -> & ->). auto.
  - intros j k Hj Hk Hne. destruct (Hi j) as (-> & -> & _), (Hi k) as (-> & -> & _). by apply H2.
  - exists i, t. destruct (Hi i) as (_ & _ & ->). done.
Qed.

Section Outcome.
Context {D : Type} `{BlockIoLaws D}.
Implicit Types s : State D.

Lemma classify_parts_frame l b i s u s' :
  i ∉ l → classify_parts l b s = Some (u, s') → gpt_parts s' !!! i = gpt_parts s !!! i.
Proof.
  revert b s; induction l as [|j l IH]; intros b s Hi E; simpl in E; m_inv; [done|].
  apply not_elem_of_cons in Hi as [Hne Hi].
  destruct (gpt_parttype (gpt_parts s !!! j)) as [t|]; [|done]. m_inv.
  rewrite (IH _ _ Hi E). simpl. rewrite list_lookup_total_insert_ne by done.
  by erewrite (keeps_classify_type gpt_parts) by done.
Qed.

Lemma classify_parts_at l b i s u s' :
  NoDup l → i ∈ l → (i < length (gpt_parts s))%nat → classify_parts l b s = Some (u, s') →
  ∃ t b' s1 ty s2, gpt_parttype (gpt_parts s !!! i) = Some t
    ∧ classify_type b' (gpt_parts s !!! i) t s1 = Some (ty, s2)
    ∧ gpt_parts s' !!! i = set_mbr_type ty (gpt_parts s !!! i).
Proof.
  revert b s; induction l as [|j l IH]; intros b s Hnd Hi Hlt E; simpl in E; m_inv.
  { by apply not_elem_of_nil in Hi. }
  apply NoDup_cons in Hnd as [Hj Hnd].
  destruct (gpt_parttype (gpt_parts s !!! j)) as [t|] eqn:Et; [|done]. m_inv.
  match goal with Hc : classify_type _ _ _ _ = Some (?ty, ?s1) |- _ =>
    pose proof (keeps_classify_type gpt_parts _ _ _ _ _ _ Hc) as Hg; pose proof Hc as Hty end.
  apply elem_of_cons in Hi as [->|Hi].
  - eexists t, _, _, _, _. split; [done|]. split; [exact Hty|].
    rewrite (classify_parts_frame _ _ _ _ _ _ Hj E). simpl. rewrite Hg.
    by rewrite list_lookup_total_insert_eq.
  - assert (i ≠ j) as Hne by (intros ->; done).
    eapply IH in E; [|done|done|by simpl; rewrite length_insert, Hg].
    destruct E as (t' & b' & s1 & ty & s2 & E1 & E2 & E3). simpl in E1, E2, E3.
    rewrite Hg, list_lookup_total_insert_ne in E1, E2, E3 by done.
    by eauto 10.
Qed.

Lemma analyze_classified s s' :
  analyze s = Some (0, s') → new_mbr_part_count s' ≠ 0%nat →
  ∃ u s1, classify_parts (seq 0 (gpt_part_count s)) false (with_new (new_mbr_parts s) 0 s) = Some (u, s1)
    ∧ gpt_parts s1 = gpt_parts s'.
Proof.
  intros E Hn. unfold analyze in E. m_inv. simpl in E. case_match; m_inv; try done.
  eexists _, _. split; [done|].
  case_match; m_inv; try done. case_match. by m_inv.
Qed.

(** A consistent GPT leaves at least one partition beside the protective entry. *)
Lemma rest_nonempty s s' :
  gpt_ok s → gpt_consistent (gpt_parts s) (gpt_part_count s) →
  analyze s = Some (0, s') → new_mbr_part_count s' ≠ 0%nat →
  (1 ≤ length (rest_parts (gpt_parts s') (gpt_part_count s)))%nat.
Proof.
  intros (Hlen & Hc & Hok) (Hall & Hdis & i & t & Hi & Ht & Hdata) E Hn.
  pose proof (analyze_inv s s' E Hn) as (_ & _ & _ & _ & _ & _ & _ & Hu).
  assert (length (gpt_parts s') = 128%nat) as Hlen'.
  { unfold untyped in Hu. apply (f_equal length) in Hu. rewrite !length_fmap in Hu. lia. }
  unfold rest_parts. case_match eqn:Et; rewrite ?length_drop, length_take; [|lia].
  destruct (decide (2 ≤ gpt_part_count s)%nat); [lia|]. exfalso.
  assert (i = 0%nat) as -> by lia. assert (gpt_part_count s = 1%nat) as Hc1 by lia.
  destruct (analyze_classified s s' E Hn) as (u & s1 & Hcl & Hs1).
  assert (0 ∈ seq 0 (gpt_part_count s))%nat as Hin by (apply elem_of_seq; lia).
  assert (0 < length (gpt_parts (with_new (new_mbr_parts s) 0 s)))%nat as Hpos by (simpl; lia).
  destruct (classify_parts_at _ _ _ _ _ _ (NoDup_seq _ _) Hin Hpos Hcl)
    as (t' & b' & s2 & ty & s3 & Ht' & Hty & Hp). simpl in Ht', Hty, Hp.
  rewrite Hs1 in Hp. simplify_eq.
  assert (ty ≠ 0xef) as Hne.
  { eapply classify_data; [|done|done]. rewrite Hok in Ht by lia.
    injection Ht as <-. apply find_gpt_parttype_in. }
  rewrite Hp in Et. simpl in Et. by zbool.
Qed.
End Outcome.

#[export] Hint Extern 1 (NoSector _) => (intros ? ?; reflexivity) : typeclass_instances.
#[export] Hint Extern 1 (NoGpt _) => (intros ? ? ?; reflexivity) : typeclass_instances.
#[export] Hint Extern 1 (NoMbr _) =>
  (intros ? ? ? ?; first [reflexivity | assumption]) : typeclass_instances.

(** ** Theorems *)

Section Theorems.
Context {D : Type} `{BlockIoLaws D}.
Implicit Types s : State D.

(** The state [gptsync] starts from: the static initialisation, a device chosen. *)
Definition fresh s : Prop :=
  mbr_parts s = replicate 4 zero_part ∧ mbr_part_count s = 0%nat ∧
  gpt_parts s = replicate 128 zero_part ∧ gpt_part_count s = 0%nat ∧
  new_mbr_parts s = replicate 4 zero_part.

Lemma fresh_gpt_ok s : fresh s → gpt_ok s.
Proof. intros (_ & _ & Hp & Hc & _). unfold gpt_ok. rewrite Hp, Hc. repeat split; [lia|]. intros; lia. Qed.

Lemma keeps_write_mbr_gpt : keeps (λ s, (gpt_parts s, gpt_part_count s)) (write_mbr (D:=D)).
Proof.
  unfold write_mbr. pose proof (keeps_read_sector (D:=D) (λ s, (gpt_parts s, gpt_part_count s)) 0).
  assert (keeps (λ s : State D, (gpt_parts s, gpt_part_count s)) (write_sector 0)).
  { intros s a s'. unfold write_sector, set_the_dev. repeat case_match; intros; by simplify_eq. }
  keeps_tac.
Qed.

(** What a proposed table is when it reaches the disk. *)
Definition good_proposal (news : list PARTITION_INFO) : Prop :=
  indexed news ∧ (2 ≤ length news ≤ 4)%nat ∧ count_active news = 1%nat.

(** What reading and checking both tables leaves behind. *)
Lemma reading_phase s sg s1 sm s2 :
  fresh s → read_gpt s = Some (sg, s1) → read_mbr s1 = Some (sm, s2) →
  gpt_ok s2 ∧ the_dev s2 = the_dev s ∧ keyboard s2 = keyboard s
  ∧ length (new_mbr_parts s2) = 4%nat ∧ length (mbr_parts s2) = 4%nat.
Proof.
  intros Hf Hg Hm. pose proof (fresh_gpt_ok s Hf) as Hok.
  apply (read_gpt_gpt_ok _ _ _ Hok) in Hg as Hok1.
  destruct Hf as (Hmp & _ & _ & _ & Hnp).
  pose proof (keeps_read_mbr (D:=D) (λ s, (gpt_parts s, gpt_part_count s)) _ _ _ Hm) as [= E1 E2].
  split; [unfold gpt_ok; by rewrite E1, E2|].
  rewrite (keeps_read_mbr (D:=D) the_dev _ _ _ Hm), (keeps_read_gpt (D:=D) the_dev _ _ _ Hg).
  rewrite (keeps_read_mbr (D:=D) keyboard _ _ _ Hm), (keeps_read_gpt (D:=D) keyboard _ _ _ Hg).
  rewrite (keeps_read_mbr (D:=D) new_mbr_parts _ _ _ Hm), (keeps_read_gpt (D:=D) new_mbr_parts _ _ _ Hg).
  rewrite (keeps_read_mbr (D:=D) (λ s, length (mbr_parts s)) _ _ _ Hm).
  rewrite (keeps_read_gpt (D:=D) mbr_parts _ _ _ Hg), Hnp, Hmp. done.
Qed.
End Theorems.

(** Leave a program at an early return, or go on with a zero status. *)
Ltac early_return E :=
  lazymatch type of E with
  | (if negb (?r =? 0) then _ else _) _ = _ =>
      let Hr := fresh "Hr" in
      destruct (Z.eqb_spec r 0) as [Hr|Hr]; cbn [negb] in E;
      [subst r | injection E as <- <-]
  end.

Lemma keeps_analyze {D} `{BlockIo D} {X} (f : State D → X) `{!NoSector f, !NoGpt f} :
  (∀ x n s, f (with_new x n s) = f s) → keeps f analyze.
Proof.
  intros Hn s r s' E. unfold analyze in E. m_inv.
  destruct (_ =? 0)%nat in E; [by m_inv|].
  apply M_bind_Some in E as ([] & s1 & Hc & E).
  apply (keeps_classify f) in Hc; [|intros; apply no_gpt]. m_inv.
  case_match; m_inv; rewrite ?Hc, ?Hn; [done|done|].
  case_match. m_inv. by rewrite Hn, Hc, Hn.
Qed.

(** The proposal of a successful analysis of a consistent GPT. *)
Lemma analyze_good {D} `{BlockIoLaws D} (s s' : State D) :
  gpt_ok s → length (new_mbr_parts s) = 4%nat →
  gpt_consistent (gpt_parts s) (gpt_part_count s) →
  analyze s = Some (0, s') → new_mbr_part_count s' ≠ 0%nat →
  gpt_consistent (gpt_parts s') (gpt_part_count s') ∧
  good_proposal (take (new_mbr_part_count s') (new_mbr_parts s')).
Proof.
  intros Hok Hnp Hcons E Hn.
  pose proof (analyze_inv s s' E Hn) as (_ & Hnew & _ & _ & Hgc & _ & _ & Hu).
  pose proof (rest_nonempty s s' Hok Hcons E Hn) as Hrest.
  split; [rewrite Hgc; by eapply gpt_consistent_untyped|].
  assert (take (new_mbr_part_count s') (new_mbr_parts s') =
    proposed (gpt_parts s') (gpt_part_count s) (mbr_parts s) (mbr_part_count s) (new_mbr_parts s)) as ->.
  { unfold proposed. by rewrite <- Hnew. }
  split; [by apply proposed_indexed|]. split.
  - rewrite length_proposed by done. lia.
  - by apply proposed_one_active.
Qed.

(** C1. Whatever [gptsync] returns, the disk is as it was, or the user answered yes, and both
    tables could be read and passed their checks: no MBR entries overlap and none is extended,
    and the GPT has data partitions, none that is empty, overlaps another or must not be
    touched.  Then the run tried one write, of a table of two to four entries in sector 0,
    numbered in order, of which exactly one is active; the disk is as that write left it, and
    the status tells whether it succeeded.  Nothing is assumed of a write that fails. *)
Theorem gptsync_outcome {D} `{BlockIoLaws D} (s s' : State D) (d : D) (st : Z) :
  fresh s → the_dev s = Some d → gptsync s = Some (st, s') →
  the_dev s' = Some d ∨
  (confirmed (keyboard s) = true ∧
   (∃ s1 s2, read_gpt s = Some (0, s1) ∧ read_mbr s1 = Some (0, s2) ∧
      mbr_consistent (mbr_parts s2) (mbr_part_count s2) ∧ gpt_consistent (gpt_parts s2) (gpt_part_count s2)) ∧
   gpt_consistent (gpt_parts s') (gpt_part_count s') ∧
   good_proposal (take (new_mbr_part_count s') (new_mbr_parts s')) ∧
   ∃ sec ok d', ReadBlocks d 0 = Some sec ∧
     WriteBlocks d 0 (new_mbr_sector (take (new_mbr_part_count s') (new_mbr_parts s')) sec) = (ok, d') ∧
     the_dev s' = Some d' ∧ st = (if ok then 0 else 1)).
Proof.
  intros Hf Hd E. unfold gptsync in E.
  apply M_bind_Some in E as (sg & s1 & Hg & E). apply M_bind_Some in E as (sm & s2 & Hm & E).
  destruct (reading_phase s sg s1 sm s2 Hf Hg Hm) as (Hok & Hdev & Hkb & Hnp & _).
  rewrite Hd in Hdev. destruct (_ || _) eqn:Est in E; [injection E as <- <-; by left|].
  assert (sg = 0 ∧ sm = 0) as [-> ->] by (zbool; lia).
  apply M_bind_Some in E as (r & s2' & Hc & E). pose proof (check_gpt_state _ _ _ Hc) as ->.
  early_return E; [|by left]. apply check_gpt_ok in Hc as Hcons.
  apply M_bind_Some in E as (r & s2' & Hc2 & E). pose proof (check_mbr_state _ _ _ Hc2) as ->.
  early_return E; [|by left]. apply check_mbr_ok in Hc2.
  apply M_bind_Some in E as (r & s3 & Ha & E).
  pose proof (keeps_analyze the_dev ltac:(done) _ _ _ Ha) as Hdev3. rewrite Hdev in Hdev3.
  pose proof (keeps_analyze keyboard ltac:(done) _ _ _ Ha) as Hkb3. rewrite Hkb in Hkb3.
  early_return E; [|by left].
  apply M_bind_Some in E as (n & s3' & [= <- <-] & E).
  destruct (Nat.eqb_spec (new_mbr_part_count s3) 0) as [Hn|Hn]; [injection E as <- <-; by left|].
  destruct (analyze_good s2 s3 Hok Hnp Hcons Ha Hn) as [Hcons3 Hgood].
  apply M_bind_Some in E as (a & s4 & Hi & E).
  destruct (input_boolean_answer s3) as [k' Hk]. rewrite Hk, Hkb3 in Hi. injection Hi as <- <-.
  destruct (negb _ || negb _) eqn:Eb in E; [injection E as <- <-; by left|].
  destruct (answer_key (keyboard s)) eqn:Eans; [|done]. simpl in Eb. apply negb_false_iff in Eb.
  pose proof (keeps_write_mbr_gpt _ _ _ E) as [= Eg Egc].
  destruct (write_mbr_spec _ _ _ E) as [Hsame|(d1 & d' & sec & ok & Hd1 & Hr & Hw & Hst & Hd' & _ & Hnp' & Hnc')]; [by left; rewrite Hsame|].
  right. rewrite Eg, Egc, Hnp', Hnc'. simpl in *. change (the_dev s3 = Some d1) in Hd1.
  rewrite Hdev3 in Hd1. injection Hd1 as <-.
  split; [done|]. split; [by exists s1, s2|]. split; [done|]. split; [done|]. by exists sec, ok, d'.
Qed.
