(* ===== verification/GptTheorems.v ===== *)
(** * gptsync: properties of the steps, and concrete runs *)

From Stdlib Require Import ZArith Lia.
From stdpp Require Import base list list_numbers strings.
From S2P Require Import Prelude.
From S2P Require Import GptLib.
From S2P Require Import GptSync.
From S2P Require Import GptWrite.
From S2P Require Import GptAnalyze.
From S2P Require Import GptMain.

Open Scope Z_scope.

(** ** A demonstration disk *)

Definition zero_sector : list Z := replicate 512 0.

Definition mbr0 : list Z := store 510 [0x55; 0xaa] zero_sector.

Definition gpt_header (entry_lba count size : Z) : list Z :=
  store 84 (le_put 4 size) (store 80 (le_put 4 count) (store 72 (le_put 8 entry_lba)
    (store 0 (str_bytes "EFI PART") zero_sector))).

Definition gpt_entry (guid : list Z) (first last : Z) : list Z :=
  guid ++ replicate 16 7 ++ le_put 8 first ++ le_put 8 last ++ replicate 80 0.

Definition guid_esp : list Z :=
  [0x28; 0x73; 0x2A; 0xC1; 0x1F; 0xF8; 0xD2; 0x11; 0xBA; 0x4B; 0x00; 0xA0; 0xC9; 0x3E; 0xC9; 0x3B].
Definition guid_hfs : list Z :=
  [0x00; 0x53; 0x46; 0x48; 0x00; 0x00; 0xAA; 0x11; 0xAA; 0x11; 0x00; 0x30; 0x65; 0x43; 0xEC; 0xAC].
Definition guid_lvm : list Z :=
  [0x79; 0xD3; 0xD6; 0xE6; 0x07; 0xF5; 0xC2; 0x44; 0xA2; 0x3C; 0x23; 0x8F; 0x2A; 0x3D; 0xF9; 0x28].

(** An ESP, an HFS+ and an LVM partition; one unused table slot. *)
Definition demo_entries : list Z :=
  gpt_entry guid_esp 40 59 ++ gpt_entry guid_hfs 60 99 ++ gpt_entry guid_lvm 100 199 ++ replicate 128 0.

Definition demo_disk : RamDisk := [mbr0; gpt_header 2 4 128; demo_entries].

(** The user types "y". *)
Definition demo_state : State RamDisk :=
  with_dev (Some demo_disk) None (init_state {| pending := []; arrivals := [[121]] |}).

Lemma demo_fresh : fresh demo_state.
Proof. done. Defined.

(** The run that [gptsync_outcome] is about does write a new table. *)
Lemma gptsync_outcome_witness :
  match gptsync demo_state with
  | Some (st, s') =>
      the_dev s' = Some demo_disk ∨
      (confirmed (keyboard demo_state) = true ∧
       (∃ s1 s2, read_gpt demo_state = Some (0, s1) ∧ read_mbr s1 = Some (0, s2) ∧
          mbr_consistent (mbr_parts s2) (mbr_part_count s2) ∧ gpt_consistent (gpt_parts s2) (gpt_part_count s2)) ∧
       gpt_consistent (gpt_parts s') (gpt_part_count s') ∧
       good_proposal (take (new_mbr_part_count s') (new_mbr_parts s')) ∧
       ∃ sec ok d', ReadBlocks demo_disk 0 = Some sec ∧
         WriteBlocks demo_disk 0 (new_mbr_sector (take (new_mbr_part_count s') (new_mbr_parts s')) sec) = (ok, d') ∧
         the_dev s' = Some d' ∧ st = (if ok then 0 else 1))
  | None => False
  end.
Proof.
  destruct (gptsync demo_state) as [[st s']|] eqn:E.
  - exact (gptsync_outcome demo_state s' demo_disk st demo_fresh eq_refl E).
  - vm_compute in E. discriminate E.
Defined.

(** The table the demonstration run writes: protective entry up to the end of
    the ESP, then the two other partitions, the HFS+ one active. *)
Example demo_run_table :
  match gptsync demo_state with
  | Some (st, s') =>
      st = 0 ∧ mbr_view <$> take (new_mbr_part_count s') (new_mbr_parts s') =
        [(0, 1, 59, 0xee, false); (1, 60, 99, 0xaf, true); (2, 100, 199, 0x8e, false)]
  | None => False
  end.
Proof. vm_compute. split; reflexivity. Qed.

(** ** The GPT check *)

(** On partitions that came from the disk, [check_gpt] never faults, answers
    0 or 1, leaves the state alone, and answers 0 exactly when no entry ends
    before it starts, no two entries overlap, no entry has a type that must not
    be touched, and some entry is a data partition. *)
Theorem check_gpt_decides {D} (s : State D) :
  gpt_ok s →
  ∃ r, check_gpt s = Some (r, s) ∧ (r = 0 ∨ r = 1) ∧
       (r = 0 ↔ gpt_consistent (gpt_parts s) (gpt_part_count s)).
Proof.
  intros (_ & _ & Hok).
  assert (∃ r, check_gpt s = Some (r, s) ∧ (r = 0 ∨ r = 1)) as (r & Hr & H01).
  { unfold check_gpt, mbind, M_bind, gets. case_match; [exists 1; auto|]. clear H.
    assert (∀ l, (∀ i, i ∈ l → (i < gpt_part_count s)%nat) → ∀ found,
      ∃ r, check_gpt_loop l found s = Some (r, s) ∧ (r = 0 ∨ r = 1)) as Hl.
    { induction l as [|i l IH]; intros Hin found; simpl.
      - destruct found; unfold mret, M_ret; eauto.
      - unfold mbind, M_bind, gets, mret, M_ret.
        case_match; [eauto|]. case_match; [eauto|].
        rewrite Hok by (apply Hin, list_elem_of_here). case_match; [eauto|].
        apply IH. intros. by apply Hin, list_elem_of_further. }
    apply Hl. intros i Hi%elem_of_seq. lia. }
  exists r. split; [done|]. split; [done|]. rewrite <- check_gpt_ok. rewrite Hr.
  split; [by intros ->|]. by intros [= ->].
Qed.

(** The state after reading the GPT of the demonstration disk. *)
Definition demo_read : State RamDisk :=
  match read_gpt demo_state with Some (_, s) => s | None => demo_state end.

Lemma demo_read_ok : gpt_ok demo_read.
Proof.
  unfold demo_read. destruct (read_gpt demo_state) as [[r s]|] eqn:E.
  - exact (read_gpt_gpt_ok _ _ _ (fresh_gpt_ok _ demo_fresh) E).
  - exact (fresh_gpt_ok _ demo_fresh).
Qed.

Lemma check_gpt_decides_witness :
  ∃ r, check_gpt demo_read = Some (r, demo_read) ∧ (r = 0 ∨ r = 1) ∧
       (r = 0 ↔ gpt_consistent (gpt_parts demo_read) (gpt_part_count demo_read)).
Proof. exact (check_gpt_decides demo_read demo_read_ok). Defined.

(** ** Memory safety of reading the GPT *)

(** The entry sizes that pass the code's divisibility test and leave room for the
    48 bytes of an entry the code reads. *)
Lemma entry_size_cases es :
  512 mod es = 0 → 48 ≤ es ≤ 512 → es = 64 ∨ es = 128 ∨ es = 256 ∨ es = 512.
Proof.
  intros Hm Hb. apply Z.mod_divide in Hm as [k Hk]; [|lia].
  assert (k = 1 ∨ k = 2 ∨ k = 3 ∨ k = 4 ∨ k = 5 ∨ k = 6 ∨ k = 7 ∨ k = 8 ∨ k = 9 ∨ k = 10) as Hc by nia.
  destruct_or!; subst k; lia.
Qed.

Lemma entry_offset es i :
  512 mod es = 0 → 48 ≤ es ≤ 512 → 0 ≤ (i * es) mod 512 ∧ (i * es) mod 512 + 48 ≤ 512.
Proof.
  intros Hm Hb. destruct (entry_size_cases es Hm Hb) as [->|[->|[->| ->]]]; lia.
Qed.

Section ReadGptSafe.
Context {D : Type} `{BlockIoLaws D}.

Lemma read_gpt_entries_safe n i lba es (s : State D) d :
  the_dev s = Some d → 512 mod es = 0 → 48 ≤ es ≤ 512 →
  (gpt_part_count s + n ≤ 128)%nat →
  ∃ r s', read_gpt_entries n i lba es s = Some (r, s').
Proof.
  intros Hd Hm Hb. revert i lba s Hd; induction n as [|n IH]; intros i lba s Hd Hn.
  { by exists 0, s. }
  destruct (entry_offset es i Hm Hb) as [Ho1 Ho2].
  cbn [read_gpt_entries]. set (off := (i * es) mod 512) in *.
  assert (∃ r s1, (if off =? 0 then read_sector lba else mret 0) s = Some (r, s1)
    ∧ the_dev s1 = Some d ∧ gpt_part_count s1 = gpt_part_count s) as (r & s1 & Hr & Hd1 & Hc1).
  { case_match; [|by exists 0, s]. unfold read_sector. rewrite Hd.
    destruct (ReadBlocks d lba); eauto. }
  unfold mbind, M_bind at 1. rewrite Hr.
  destruct (negb (r =? 0)); [eexists _, _; reflexivity|].
  assert (∃ u s2, read_gpt_entry (Z.to_nat off) i s1 = Some (u, s2)
    ∧ the_dev s2 = Some d ∧ (gpt_part_count s2 ≤ S (gpt_part_count s1))%nat) as (u & s2 & Hu & Hd2 & Hc2).
  { unfold read_gpt_entry, mbind, M_bind, gets.
    assert ((512 <? Z.to_nat off + 16)%nat = false) as -> by (apply Nat.ltb_ge; lia).
    case_bool_decide; [by exists tt, s1; eauto|].
    assert ((512 <? Z.to_nat off + 48)%nat = false) as -> by (apply Nat.ltb_ge; lia).
    unfold push_gpt. assert ((gpt_part_count s1 <? 128)%nat = true) as -> by (apply Nat.ltb_lt; lia).
    eexists _, _. split; [done|]. split; [done|]. simpl. lia. }
  unfold M_bind. rewrite Hu. apply IH; [done|lia].
Qed.
End ReadGptSafe.

(** C36. Reading the GPT commits no division by zero, no read outside the sector
    buffer and no write outside [gpt_parts] when the header, if it carries the
    GPT signature, declares entries of at least 48 bytes and at most 128 of them;
    every stored partition then points to its entry of the type table. *)
Theorem read_gpt_safe {D} `{BlockIoLaws D} (s : State D) (d : D) :
  fresh s → the_dev s = Some d →
  (∀ hdr, ReadBlocks d 1 = Some hdr → load 8 0 hdr = 0x5452415020494645 →
     48 ≤ load 4 84 hdr ∧ load 4 80 hdr ≤ 128) →
  ∃ r s', read_gpt s = Some (r, s') ∧ gpt_ok s'.
Proof.
  intros Hf Hd Hh. pose proof (fresh_gpt_ok s Hf) as Hok.
  assert (∃ r s', read_gpt s = Some (r, s')) as (r & s' & E).
  { unfold read_gpt, mbind, M_bind, read_sector. rewrite Hd.
    destruct (ReadBlocks d 1) as [hdr|] eqn:Hr; [|eexists _, _; reflexivity]. unfold gets. cbn [Z.eqb negb with_sector sector].
    specialize (Hh hdr eq_refl).
    destruct (Z.eqb_spec (load 8 0 hdr) 0x5452415020494645) as [Es|Es]; [|eexists _, _; reflexivity]. cbn [negb].
    destruct (Hh Es) as [H48 H128].
    pose proof (load_range 4 80 hdr (read_block_bytes _ _ _ Hr)
      ltac:(rewrite (read_block_size _ _ _ Hr); lia)).
    assert ((load 4 84 hdr =? 0) = false) as -> by (apply Z.eqb_neq; lia).
    destruct ((0 <? 512 mod load 4 84 hdr) || (512 <? load 4 84 hdr)) eqn:Ec; [eexists _, _; reflexivity|].
    zbool. assert (0 ≤ 512 mod load 4 84 hdr) by (apply Z.mod_pos_bound; lia).
    destruct Hf as (_ & _ & _ & Hc & _).
    apply (read_gpt_entries_safe _ _ _ _ _ d); [done|lia|lia|]. simpl. rewrite Hc. lia. }
  exists r, s'. split; [done|]. exact (read_gpt_gpt_ok _ _ _ Hok E).
Qed.

Lemma read_gpt_safe_witness : ∃ r s', read_gpt demo_state = Some (r, s') ∧ gpt_ok s'.
Proof.
  apply (read_gpt_safe demo_state demo_disk demo_fresh eq_refl).
  intros hdr Hr _. assert (hdr = gpt_header 2 4 128) as ->.
  { vm_compute in Hr. vm_compute. by injection Hr. }
  vm_compute. done.
Defined.

(** A disk whose header declares [count] entries of [size] bytes, every entry of
    the table area in use. *)
Definition bad_disk (count size : Z) : State RamDisk :=
  with_dev (Some ([mbr0; gpt_header 2 count size]
    ++ replicate 33 (replicate 512 7))) None
    (init_state {| pending := []; arrivals := [] |}).

(** The bounds of [read_gpt_safe] are not checked by the code: a header with
    entry size 0 divides by zero, entries of 32 bytes are read past the end of
    the sector buffer, and 129 used entries write past [gpt_parts[128]]. *)
Theorem read_gpt_unchecked :
  read_gpt (bad_disk 4 0) = None ∧ read_gpt (bad_disk 16 32) = None ∧
  read_gpt (bad_disk 129 128) = None ∧
  is_Some (read_gpt (bad_disk 128 128)).
Proof. vm_compute. repeat split. by eexists. Qed.

(** ** The written table *)

(** Writing the new MBR touches sector 0 only; there it keeps the disk
    signature (bytes 440 to 445), sets the boot signature, and keeps the boot
    code unless all 440 bytes of it are zero, in which case it installs boot0ss. *)
Theorem write_mbr_frame {D} `{BlockIoLaws D} (s s' : State D) :
  write_mbr s = Some (0, s') →
  ∃ d d' sec sec', the_dev s = Some d ∧ the_dev s' = Some d' ∧
    ReadBlocks d 0 = Some sec ∧ ReadBlocks d' 0 = Some sec' ∧
    (∀ lba, lba ≠ 0 → ReadBlocks d' lba = ReadBlocks d lba) ∧
    slice 440 6 sec' = slice 440 6 sec ∧ mbr_signature sec' = 0xaa55 ∧
    slice 0 440 sec' = (if decide (slice 0 440 sec = replicate 440 0)
                        then clover_boot0ss_mbr else slice 0 440 sec).
Proof.
  intros E. destruct (write_mbr_ok s s' E) as (d & d' & sec & Hd & Hr & Hw & Hd' & _).
  set (news := take _ _) in Hw.
  pose proof (read_block_size _ _ _ Hr) as Hl. pose proof (read_block_bytes _ _ _ Hr) as Hb.
  exists d, d', sec, (new_mbr_sector news sec). do 3 (split; [done|]).
  split; [apply (read_after_write _ _ _ _ Hw); [by apply length_new_mbr_sector|by apply new_mbr_sector_bytes]|].
  split; [intros lba Hne; by eapply read_other_block|].
  split; [by apply new_mbr_sector_disksig|]. split; [by apply new_mbr_sector_signature|].
  by apply new_mbr_sector_bootcode.
Qed.

(** A state with a proposed table, ready to be written. *)
Definition demo_new : list PARTITION_INFO := [
  {| index := 0; start_lba := 1; end_lba := 59; mbr_type := 0xee; gpt_type := replicate 16 0;
     gpt_parttype := None; active := false |};
  {| index := 1; start_lba := 60; end_lba := 99; mbr_type := 0xaf; gpt_type := replicate 16 0;
     gpt_parttype := None; active := true |};
  zero_part; zero_part].

Definition demo_write : State RamDisk := with_new demo_new 2 demo_state.

Definition demo_written : State RamDisk :=
  match write_mbr demo_write with Some (_, s) => s | None => demo_write end.

Lemma demo_write_ok : write_mbr demo_write = Some (0, demo_written).
Proof. vm_compute. reflexivity. Defined.

Lemma write_mbr_frame_witness :
  ∃ d d' sec sec', the_dev demo_write = Some d ∧ the_dev demo_written = Some d' ∧
    ReadBlocks d 0 = Some sec ∧ ReadBlocks d' 0 = Some sec' ∧
    (∀ lba, lba ≠ 0 → ReadBlocks d' lba = ReadBlocks d lba) ∧
    slice 440 6 sec' = slice 440 6 sec ∧ mbr_signature sec' = 0xaa55 ∧
    slice 0 440 sec' = (if decide (slice 0 440 sec = replicate 440 0)
                        then clover_boot0ss_mbr else slice 0 440 sec).
Proof. exact (write_mbr_frame demo_write demo_written demo_write_ok). Defined.

(** C6. Reading the MBR back after a successful write gives the proposed entries:
    the same slots, extents, types and active flag, when the entries are numbered
    in order, fit the 32-bit fields and at most one is active. *)
Theorem mbr_write_read {D} `{BlockIoLaws D} (s s' : State D) :
  let news := take (new_mbr_part_count s) (new_mbr_parts s) in
  write_mbr s = Some (0, s') →
  indexed news → (count_active news ≤ 1)%nat → Forall fits_mbr news →
  news ≠ [] → (length news ≤ 4)%nat → length (mbr_parts s) = 4%nat →
  ∃ s'', read_mbr (with_mbr (mbr_parts s') 0 s') = Some (0, s'') ∧
    mbr_view <$> take (mbr_part_count s'') (mbr_parts s'') = mbr_view <$> news.
Proof.
  intros news E Hn Hc Hf Hne Hlen Hmp.
  destruct (write_mbr_ok s s' E) as (d & d' & sec & Hd & Hr & Hw & Hd' & Hmp' & _ & _).
  fold news in Hw.
  pose proof (read_block_size _ _ _ Hr) as Hl. pose proof (read_block_bytes _ _ _ Hr) as Hb.
  destruct (read_mbr_new d' sec news (with_mbr (mbr_parts s') 0 s')) as (s'' & Hs & _ & _ & _ & Hv);
    try done; [|by rewrite Hmp'|by eauto].
  apply (read_after_write _ _ _ _ Hw); [by apply length_new_mbr_sector|by apply new_mbr_sector_bytes].
Qed.

Lemma demo_new_indexed : indexed (take 2 demo_new).
Proof. intros [|[|i]] p Hp; by simplify_eq/=. Qed.

Lemma mbr_write_read_witness :
  ∃ s'', read_mbr (with_mbr (mbr_parts demo_written) 0 demo_written) = Some (0, s'') ∧
    mbr_view <$> take (mbr_part_count s'') (mbr_parts s'') = mbr_view <$> take 2 demo_new.
Proof.
  apply (mbr_write_read demo_write demo_written demo_write_ok demo_new_indexed).
  - vm_compute. lia.
  - apply (bool_decide_unpack _). vm_compute. exact I.
  - done.
  - simpl. lia.
  - done.
Defined.

(** ** The proposed table *)

(** A table written by one run is recognised as synchronised by the next: if
    the first GPT partition is the ESP, and the entries fit the MBR fields, then
    reading the MBR back and comparing it with the same GPT gives ACTION_NOP. *)
Theorem sync_idempotent {D} `{BlockIoLaws D} (s s1 s2 : State D) :
  analyze s = Some (0, s1) → new_mbr_part_count s1 ≠ 0%nat →
  write_mbr s1 = Some (0, s2) →
  length (new_mbr_parts s) = 4%nat → length (mbr_parts s) = 4%nat →
  (2 ≤ gpt_part_count s ≤ length (gpt_parts s1))%nat →
  mbr_type (gpt_parts s1 !!! 0%nat) = 0xef →
  Forall fits_mbr (take (new_mbr_part_count s1) (new_mbr_parts s1)) →
  ∃ s3, read_mbr (with_mbr (mbr_parts s2) 0 s2) = Some (0, s3) ∧
    decide_action (mbr_parts s3) (mbr_part_count s3) (gpt_parts s3) (gpt_part_count s3) = ACTION_NOP.
Proof.
  intros Ha Hn Hw Hnp Hmp Hgc Hesp Hfits.
  destruct (analyze_inv s s1 Ha Hn) as (_ & Hnew & Hm1 & Hmc1 & Hgc1 & _).
  assert (take (new_mbr_part_count s1) (new_mbr_parts s1) =
    proposed (gpt_parts s1) (gpt_part_count s) (mbr_parts s) (mbr_part_count s) (new_mbr_parts s)) as Hp.
  { unfold proposed. by rewrite <- Hnew. }
  assert (1 ≤ length (rest_parts (gpt_parts s1) (gpt_part_count s)))%nat as Hrest.
  { unfold rest_parts. rewrite Hesp. simpl. rewrite length_drop, length_take. lia. }
  destruct (write_mbr_ok s1 s2 Hw) as (d & d' & sec & Hd & Hr & Hwb & Hd' & Hm2 & _ & _).
  pose proof (keeps_write_mbr_gpt _ _ _ Hw) as [= Hg2 Hgc2].
  pose proof (read_block_size _ _ _ Hr) as Hl. pose proof (read_block_bytes _ _ _ Hr) as Hb.
  rewrite Hp in Hwb, Hfits.
  destruct (read_mbr_new d' sec
    (proposed (gpt_parts s1) (gpt_part_count s) (mbr_parts s) (mbr_part_count s) (new_mbr_parts s))
    (with_mbr (mbr_parts s2) 0 s2)) as (s3 & Hs3 & _ & _ & Hc3 & Hv); try done.
  - apply (read_after_write _ _ _ _ Hwb); [by apply length_new_mbr_sector|by apply new_mbr_sector_bytes].
  - by apply proposed_indexed.
  - rewrite proposed_one_active by done. lia.
  - intros Hnil. apply (f_equal length) in Hnil. rewrite length_proposed in Hnil by done. simpl in Hnil. lia.
  - rewrite length_proposed by done. lia.
  - simpl. by rewrite Hm2, Hm1.
  - exists s3. split; [done|].
    pose proof (keeps_read_mbr gpt_parts _ _ _ Hs3) as E1.
    pose proof (keeps_read_mbr gpt_part_count _ _ _ Hs3) as E2.
    simpl in E1, E2. rewrite E1, E2, Hg2, Hgc2, Hgc1.
    apply (readback_action (gpt_parts s1) (gpt_part_count s) (mbr_parts s) (mbr_part_count s) (new_mbr_parts s));
      done.
Qed.

(** The demonstration disk, analysed and written. *)
Definition demo_analyzed : State RamDisk :=
  match analyze demo_read with Some (_, s) => s | None => demo_read end.
Definition demo_synced : State RamDisk :=
  match write_mbr demo_analyzed with Some (_, s) => s | None => demo_analyzed end.

Lemma sync_idempotent_witness :
  ∃ s3, read_mbr (with_mbr (mbr_parts demo_synced) 0 demo_synced) = Some (0, s3) ∧
    decide_action (mbr_parts s3) (mbr_part_count s3) (gpt_parts s3) (gpt_part_count s3) = ACTION_NOP.
Proof.
  apply (sync_idempotent demo_read demo_analyzed demo_synced).
  - vm_compute. reflexivity.
  - vm_compute. lia.
  - vm_compute. reflexivity.
  - vm_compute. reflexivity.
  - vm_compute. reflexivity.
  - vm_compute. lia.
  - vm_compute. reflexivity.
  - apply (bool_decide_unpack _). vm_compute. exact I.
Defined.

(** On a GPT whose partitions are pairwise disjoint the proposed MBR entries
    are pairwise disjoint too, the protective entry included, when the ESP in
    GPT slot 0 lies before the other partitions (or, with no ESP there, when every
    partition starts above LBA 1). *)
Theorem proposal_disjoint {D} `{BlockIoLaws D} (s s1 : State D) :
  analyze s = Some (0, s1) → new_mbr_part_count s1 ≠ 0%nat →
  length (new_mbr_parts s) = 4%nat → (1 ≤ gpt_part_count s ≤ length (gpt_parts s1))%nat →
  disjoint_parts (take (gpt_part_count s) (gpt_parts s1)) →
  esp_first (gpt_parts s1) (gpt_part_count s) →
  disjoint_parts (take (new_mbr_part_count s1) (new_mbr_parts s1)).
Proof.
  intros Ha Hn Hnp Hgc Hd He.
  destruct (analyze_inv s s1 Ha Hn) as (_ & Hnew & _).
  assert (take (new_mbr_part_count s1) (new_mbr_parts s1) =
    proposed (gpt_parts s1) (gpt_part_count s) (mbr_parts s) (mbr_part_count s) (new_mbr_parts s)) as ->.
  { unfold proposed. by rewrite <- Hnew. }
  by apply proposed_disjoint.
Qed.

(** Pairwise disjointness, executable. *)
Definition disjoint_partsb (ps : list PARTITION_INFO) : bool :=
  forallb (λ i, negb (overlaps_other ps (length ps) i)) (seq 0 (length ps)).

Lemma disjoint_partsb_ok ps : disjoint_partsb ps = true → disjoint_parts ps.
Proof.
  unfold disjoint_partsb. rewrite forallb_forall. intros Hall i j p q Hi Hj Hne.
  pose proof (lookup_lt_Some _ _ _ Hi). pose proof (lookup_lt_Some _ _ _ Hj).
  assert (i ∈ seq 0 (length ps)) as Hin by (apply elem_of_seq; lia).
  specialize (Hall i ltac:(by apply list_elem_of_In)). apply negb_true_iff in Hall.
  rewrite overlaps_other_false in Hall. specialize (Hall j ltac:(lia) ltac:(done)).
  by rewrite (list_lookup_total_correct _ _ _ Hi), (list_lookup_total_correct _ _ _ Hj) in Hall.
Qed.

Lemma proposal_disjoint_witness :
  disjoint_parts (take (new_mbr_part_count demo_analyzed) (new_mbr_parts demo_analyzed)).
Proof.
  apply (proposal_disjoint demo_read demo_analyzed).
  - vm_compute. reflexivity.
  - vm_compute. lia.
  - vm_compute. reflexivity.
  - vm_compute. lia.
  - apply disjoint_partsb_ok. vm_compute. reflexivity.
  - unfold esp_first.
    replace (mbr_type (gpt_parts demo_analyzed !!! 0%nat) =? 0xef) with true by (vm_compute; reflexivity).
    apply Forall_forall, (bool_decide_unpack _). vm_compute. exact I.
Defined.

(** A consistent GPT whose slot 0 is an ESP that lies behind another partition. *)
Definition late_esp_entries : list Z :=
  gpt_entry guid_esp 140 159 ++ gpt_entry guid_hfs 60 99 ++ replicate 256 0.
Definition late_esp_state : State RamDisk :=
  with_dev (Some [mbr0; gpt_header 2 4 128; late_esp_entries]) None
    (init_state {| pending := []; arrivals := [[121]] |}).

(** When the ESP in GPT slot 0 is not the first partition on the disk, the
    program accepts the GPT, and proposes and writes a protective entry that
    overlaps the entry of another partition; the MBR it wrote is then refused by
    its own check. *)
Theorem late_esp_overlap :
  match gptsync late_esp_state with
  | Some (st, s') =>
      st = 0 ∧
      mbr_view <$> take (new_mbr_part_count s') (new_mbr_parts s') =
        [(0, 1, 159, 0xee, false); (1, 60, 99, 0xaf, true)] ∧
      (match read_mbr (with_mbr (mbr_parts s') 0 s') with
       | Some (r, s'') => r = 0 ∧ check_mbr s'' = Some (1, s'')
       | None => False
       end)
  | None => False
  end.
Proof. vm_compute. repeat split; reflexivity. Qed.
