(* ===== verification/GptShow.v ===== *)
(** * gptsync: the partition report (showpart.c)

    [FindMem], [detect_bootcode], [analyze_part], [analyze_parts] and [showpart].
    The report is the sequence of lines the code prints; a run returns its status
    together with the lines printed so far.  The tables [read_gpt] and [read_mbr]
    print while reading are not part of the report. *)

From Stdlib Require Import ZArith Lia.
From stdpp Require Import base list list_numbers strings.
From S2P Require Import Prelude.
From S2P Require Import GptLib.
From S2P Require Import GptSync.
From S2P Require Import GptWrite.
From S2P Require Import GptAnalyze.
From S2P Require Import GptMain.
From S2P Require Import GptTheorems.

Open Scope Z_scope.

(** ** Boot code detection *)

(** The loop of [FindMem] from [Offset] on, for [n] more offsets. *)
Fixpoint find_from (buf search : list Z) (off n : nat) : Z :=
  match n with
  | O => -1
  | S n =>
      if bool_decide (slice off (length search) buf = search) then Z.of_nat off
      else find_from buf search (S off) n
  end.

(** [BufferLength - SearchStringLength] is unsigned: with a search string longer
    than the buffer it wraps and the loop leaves the buffer ([None]). *)
Definition FindMem (buf search : list Z) : option Z :=
  if (length buf <? length search)%nat then None
  else Some (find_from buf search 0 (length buf - length search)).

Definition finds (buf search : list Z) : bool :=
  match FindMem buf search with Some r => 0 <=? r | None => false end.

(** The search strings.  An escape [\x0D] directly followed by the letter [b]
    takes the letter as a third hexadecimal digit, so "\x0A\x0Dboot0ss: " is the
    bytes 0A DB "oot0ss: "; the length the call passes then includes the
    terminating NUL. *)
Definition lit_grub : list Z :=
  str_bytes "Geom" ++ [0] ++ str_bytes "Hard Disk" ++ [0] ++ str_bytes "Read" ++ [0] ++ str_bytes " Error".
Definition lit_cdboot : list Z := str_bytes "/cdboot" ++ [0] ++ str_bytes "/CDBOOT" ++ [0].
Definition lit_haiku : list Z :=
  [4] ++ str_bytes "beos" ++ [6] ++ str_bytes "system" ++ [5] ++ str_bytes "zbeos".
Definition lit_boot0ss : list Z := [0x0A; 0xDB] ++ str_bytes "oot0ss: " ++ [0].
Definition lit_boot0af : list Z := [0x0A; 0xDB] ++ str_bytes "oot0af: " ++ [0].
Definition lit_boot0 : list Z := [0x0A; 0xDB] ++ str_bytes "oot0: " ++ [0].

(** The name of the boot code in a sector, [None] for the code's NULL. *)
Definition bootcode_known (sec : list Z) : option string :=
  let found lit := finds sec (str_bytes lit) in
  if match_at 2 "LILO" sec || match_at 6 "LILO" sec then Some "LILO"%string
  else if match_at 3 "SYSLINUX" sec then Some "SYSLINUX"%string
  else if found "ISOLINUX"%string then Some "ISOLINUX"%string
  else if finds sec lit_grub then Some "GRUB"%string
  else if ((load 4 502 sec =? 0) && (load 4 506 sec =? 50000) && (load 2 510 sec =? 0xaa55))
          || found "Starting the BTX loader"%string then Some "FreeBSD"%string
  else if found "!Loading"%string || finds sec lit_cdboot then Some "OpenBSD"%string
  else if found "Not a bootxx image"%string then Some "NetBSD"%string
  else if found "NTLDR"%string then Some "Windows NTLDR"%string
  else if found "BOOTMGR"%string then Some "Windows BOOTMGR (Vista)"%string
  else if found "CPUBOOT SYS"%string || found "KERNEL  SYS"%string then Some "FreeDOS"%string
  else if found "OS2LDR"%string || found "OS2BOOT"%string then Some "eComStation"%string
  else if found "Be Boot Loader"%string then Some "BeOS"%string
  else if found "yT Boot Loader"%string then Some "ZETA"%string
  else if finds sec lit_haiku then Some "Haiku"%string
  else if finds sec lit_boot0ss then Some "Mac OS X (boot0ss)"%string
  else if finds sec lit_boot0af then Some "Mac OS X (boot0af)"%string
  else if finds sec lit_boot0 then Some "Mac OS X (boot0)"%string
  else None.

Definition bootcode_name (sec : list Z) : string :=
  let bootable := (load 2 510 sec =? 0xaa55) && negb (load 1 0 sec =? 0) in
  let known :=
    if finds sec (str_bytes "Non-system disk") then Some "None (Non-system disk message)"%string
    else bootcode_known sec in
  match known with
  | Some n => n
  | None => if bootable then "Unknown, but bootable"%string else "None"%string
  end.

(** ** The report *)

Inductive ReportLine :=
  | MbrContents
  | PartitionAt (lba : Z)
  | BootCode (name : string)
  | FileSystem (name : string)
  | ListedInGpt (n : nat) (type : string)
  | ListedInMbr (n : nat) (type : Z) (name : string) (active : bool).

Section Show.
Context {D : Type} `{BlockIo D}.

(** [None] as name when the sector could not be read. *)
Definition detect_bootcode (partlba : Z) : M (State D) (Z * option string) :=
  status ← read_sector partlba;
  if negb (status =? 0) then mret (status, None) else
  sec ← gets sector;
  mret (0, Some (bootcode_name sec)).

(** The cross-reference loop over the GPT; the type pointer is dereferenced. *)
Fixpoint gpt_listing (partlba : Z) (l : list nat) : M (State D) (list ReportLine) :=
  match l with
  | [] => mret []
  | i :: l =>
      p ← gets (λ s, gpt_parts s !!! i);
      if start_lba p =? partlba then
        match gpt_parttype p with
        | None => undef
        | Some t => rest ← gpt_listing partlba l; mret (ListedInGpt (i + 1) (gt_name t) :: rest)
        end
      else gpt_listing partlba l
  end.

Definition mbr_listing (partlba : Z) (parts : list PARTITION_INFO) (count : nat) : list ReportLine :=
  flat_map (λ i, let p := parts !!! i in
    if start_lba p =? partlba then
      [ListedInMbr (i + 1) (mbr_type p) (mbr_parttype_name (wrap8 (mbr_type p))) (active p)]
    else []) (seq 0 count).

Definition analyze_part (partlba : Z) : M (State D) (Z * list ReportLine) :=
  let heading := if partlba =? 0 then MbrContents else PartitionAt partlba in
  r ← detect_bootcode partlba;
  match r with
  | (_, None) => mret (r.1, [heading])
  | (_, Some bootcodename) =>
      if partlba =? 0 then mret (0, [heading; BootCode bootcodename]) else
      fs ← detect_mbrtype_fs partlba;
      if negb (fs.1 =? 0) then mret (fs.1, [heading; BootCode bootcodename]) else
      count ← gets gpt_part_count;
      gl ← gpt_listing partlba (seq 0 count);
      ml ← gets (λ s, mbr_listing partlba (mbr_parts s) (mbr_part_count s));
      mret (0, heading :: BootCode bootcodename :: FileSystem (fs.2.2) :: gl ++ ml)
  end.

(** Analyse the partitions at the given LBAs, up to the first error. *)
Fixpoint analyze_list (lbas : list Z) : M (State D) (Z * list ReportLine) :=
  match lbas with
  | [] => mret (0, [])
  | lba :: lbas =>
      r ← analyze_part lba;
      if negb (r.1 =? 0) then mret r else
      rest ← analyze_list lbas;
      mret (rest.1, r.2 ++ rest.2)
  end.

(** An MBR entry that is neither protective nor at the start of a GPT partition. *)
Definition mbr_only (gpt : list PARTITION_INFO) (p : PARTITION_INFO) : bool :=
  negb ((start_lba p =? 1) && (mbr_type p =? 0xee))
  && negb (existsb (λ q, start_lba q =? start_lba p) gpt).

(** The MBR itself, the GPT partitions, then the partitions of the MBR only.
    Nothing [analyze_part] does changes the tables the loops run over. *)
Definition analyze_parts : M (State D) (Z * list ReportLine) :=
  gpt ← gets (λ s, take (gpt_part_count s) (gpt_parts s));
  mbr ← gets (λ s, take (mbr_part_count s) (mbr_parts s));
  analyze_list (0 :: (start_lba <$> gpt) ++ (start_lba <$> filter (λ p, mbr_only gpt p = true) mbr)).

Definition showpart : M (State D) (Z * list ReportLine) :=
  status_gpt ← read_gpt;
  status_mbr ← read_mbr;
  if negb (status_gpt =? 0) || negb (status_mbr =? 0) then mret (1, [])
  else analyze_parts.
End Show.

(** ** Lemmas *)

Lemma find_from_spec buf search off n :
  let r := find_from buf search off n in
  (r = -1 ∧ ∀ o, (off ≤ o < off + n)%nat → slice o (length search) buf ≠ search) ∨
  (∃ k, r = Z.of_nat k ∧ (off ≤ k < off + n)%nat ∧ slice k (length search) buf = search ∧
     ∀ o, (off ≤ o < k)%nat → slice o (length search) buf ≠ search).
Proof.
  revert off; induction n as [|n IH]; intros off; simpl.
  { left. split; [done|]. lia. }
  case_bool_decide as He.
  - right. exists off. repeat split; [lia|lia|done|lia].
  - destruct (IH (S off)) as [[-> Hn]|(k & -> & Hk & Hs & Hn)].
    + left. split; [done|]. intros o Ho. destruct (decide (o = off)) as [->|]; [done|]. apply Hn. lia.
    + right. exists k. repeat split; [lia|lia|done|].
      intros o Ho. destruct (decide (o = off)) as [->|]; [done|]. apply Hn. lia.
Qed.

(** The LBAs a report has a section for; the MBR counts as LBA 0. *)
Definition headings (l : list ReportLine) : list Z :=
  omap (λ x, match x with MbrContents => Some 0 | PartitionAt b => Some b | _ => None end) l.

Lemma headings_app l1 l2 : headings (l1 ++ l2) = headings l1 ++ headings l2.
Proof. apply omap_app. Qed.

Section ShowLemmas.
Context {D : Type} `{BlockIoLaws D}.

Lemma gpt_listing_ok lba l (s : State D) :
  gpt_ok s → (∀ i, i ∈ l → (i < gpt_part_count s)%nat) →
  ∃ x, gpt_listing lba l s = Some (x, s) ∧ headings x = [].
Proof.
  intros (Hlen & Hmax & Hok) Hl. induction l as [|i l IH]; simpl; [by eexists|].
  destruct IH as (x & Hx & Hh); [intros; by apply Hl, list_elem_of_further|].
  unfold mbind, M_bind, gets.
  case_match; [|by eauto]. rewrite Hok by (apply Hl, list_elem_of_here).
  rewrite Hx. by eexists.
Qed.

Lemma headings_mbr_listing lba parts n : headings (mbr_listing lba parts n) = [].
Proof.
  unfold mbr_listing. induction (seq 0 n) as [|i l IH]; [done|].
  cbn [flat_map]. rewrite headings_app, IH. by case_match.
Qed.

(** The parts of the state the report depends on, besides the device. *)
Definition tables (s : State D) := (gpt_parts s, gpt_part_count s, mbr_parts s, mbr_part_count s).

Lemma keeps_gpt_listing {X} (f : State D → X) lba l : keeps f (gpt_listing lba l).
Proof. induction l as [|i l IH]; simpl; keeps_tac. Qed.

Lemma keeps_analyze_part {X} (f : State D → X) `{!NoSector f} lba : keeps f (analyze_part lba).
Proof.
  unfold analyze_part, detect_bootcode. pose proof (keeps_read_sector f lba).
  pose proof (keeps_detect f lba). pose proof (keeps_gpt_listing f lba). keeps_tac.
Qed.

Lemma keeps_analyze_list {X} (f : State D → X) `{!NoSector f} lbas : keeps f (analyze_list lbas).
Proof.
  induction lbas as [|b lbas IH]; simpl; [apply keeps_ret|].
  pose proof (keeps_analyze_part f b). keeps_tac.
Qed.

Lemma keeps_analyze_parts {X} (f : State D → X) `{!NoSector f} : keeps f analyze_parts.
Proof. unfold analyze_parts. pose proof (keeps_analyze_list f). keeps_tac. Qed.

Lemma read_sector_total lba (s : State D) d :
  the_dev s = Some d → ∃ st s', read_sector lba s = Some (st, s') ∧ the_dev s' = Some d.
Proof. intros Hd. unfold read_sector. rewrite Hd. destruct (ReadBlocks d lba); eauto. Qed.

Lemma detect_total lba (s : State D) d :
  the_dev s = Some d → ∃ r s', detect_mbrtype_fs lba s = Some (r, s').
Proof.
  assert (∀ b probe next, (∀ s, the_dev s = Some d → ∃ r s', next s = Some (r, s')) →
    ∀ s, the_dev s = Some d → ∃ r s', detect_step b probe next s = Some (r, s')) as Hs.
  { intros b probe next Hn s0 Hd. unfold detect_step, mbind, M_bind.
    destruct (read_sector_total b s0 d Hd) as (st & s1 & -> & Hd1).
    destruct (negb (st =? 0)); [eexists _, _; reflexivity|]. unfold gets.
    destruct (probe _); [eexists _, _; reflexivity|]. by apply Hn. }
  revert s. unfold detect_mbrtype_fs. repeat apply Hs. intros. eexists _, _. reflexivity.
Qed.

Lemma gpt_ok_tables s s' : tables s' = tables s → gpt_ok s → gpt_ok s'.
Proof. intros [= E1 E2 E3 E4] (? & ? & ?). unfold gpt_ok. by rewrite E1, E2. Qed.

(** One section per analysed LBA; a run does not fault. *)
Lemma analyze_part_ok lba (s : State D) d :
  the_dev s = Some d → gpt_ok s →
  ∃ r s', analyze_part lba s = Some (r, s') ∧ headings (r.2) = [lba].
Proof.
  intros Hd Hok. unfold analyze_part, detect_bootcode, mbind, M_bind.
  assert (∀ n : string, headings [(if lba =? 0 then MbrContents else PartitionAt lba); BootCode n] = [lba]) as Hh.
  { intros n. destruct (Z.eqb_spec lba 0) as [->|]; done. }
  destruct (read_sector lba s) as [[st s1]|] eqn:E1;
    [|by destruct (read_sector_total lba s d Hd) as (? & ? & ? & _); congruence].
  destruct (negb (st =? 0)).
  { eexists _, _. split; [reflexivity|]. apply (Hh ""%string). }
  unfold gets, mret, M_ret. destruct (lba =? 0) eqn:El.
  { eexists _, _. split; [reflexivity|]. apply (Hh ""%string). }
  pose proof (keeps_read_sector the_dev lba _ _ _ E1) as Hd1. rewrite Hd in Hd1.
  destruct (detect_total lba s1 d Hd1) as (fs & s2 & E2). rewrite E2.
  destruct (negb (fs.1 =? 0)).
  { eexists _, _. split; [reflexivity|]. apply (Hh ""%string). }
  assert (gpt_ok s2) as Hok2.
  { apply (gpt_ok_tables s); [|done].
    by rewrite (keeps_detect tables lba _ _ _ E2), (keeps_read_sector tables lba _ _ _ E1). }
  destruct (gpt_listing_ok lba (seq 0 (gpt_part_count s2)) s2) as (x & Hx & Hhx); [done| |].
  { intros i Hi%elem_of_seq. lia. }
  rewrite Hx. eexists _, _. split; [reflexivity|]. simpl.
  rewrite headings_app, Hhx, headings_mbr_listing. done.
Qed.

Lemma analyze_list_ok lbas (s : State D) d :
  the_dev s = Some d → gpt_ok s →
  ∃ r s', analyze_list lbas s = Some (r, s') ∧ headings (r.2) `prefix_of` lbas ∧
    (r.1 = 0 → headings (r.2) = lbas).
Proof.
  revert s; induction lbas as [|b lbas IH]; intros s Hd Hok; simpl.
  { eexists _, _. split; [reflexivity|]. done. }
  unfold mbind, M_bind. destruct (analyze_part_ok b s d Hd Hok) as (r & s1 & E & Hh). rewrite E.
  destruct (Z.eqb_spec (r.1) 0) as [Hr|Hr]; simpl.
  - destruct (IH s1) as (r2 & s2 & E2 & Hp & Hall).
    { by rewrite (keeps_analyze_part the_dev b _ _ _ E). }
    { apply (gpt_ok_tables s); [|done]. apply (keeps_analyze_part tables b _ _ _ E). }
    rewrite E2. eexists _, _. split; [reflexivity|]. simpl. rewrite headings_app, Hh. simpl. split.
    + by apply prefix_cons.
    + intros Hz. by rewrite Hall.
  - eexists _, _. split; [reflexivity|]. rewrite Hh. split; [|done].
    apply prefix_cons, prefix_nil.
Qed.
End ShowLemmas.

(** ** Theorems *)

(** [FindMem] returns the offset of the first occurrence that does not end at
    the very end of the buffer, and -1 exactly when there is none; it never reads
    outside the buffer when the search string fits it. *)
Theorem FindMem_first (buf search : list Z) :
  (length search ≤ length buf)%nat →
  ∃ r, FindMem buf search = Some r ∧
    ((r = -1 ∧ ∀ o, (o + length search < length buf)%nat → slice o (length search) buf ≠ search) ∨
     (∃ k, r = Z.of_nat k ∧ (k + length search < length buf)%nat ∧ slice k (length search) buf = search ∧
        ∀ o, (o < k)%nat → slice o (length search) buf ≠ search)).
Proof.
  intros Hl. unfold FindMem. assert ((length buf <? length search)%nat = false) as -> by by apply Nat.ltb_ge.
  eexists. split; [reflexivity|].
  destruct (find_from_spec buf search 0 (length buf - length search)) as [[-> Hn]|(k & -> & Hk & Hs & Hn)].
  - left. split; [done|]. intros o Ho. apply Hn. lia.
  - right. exists k. repeat split; [lia|done|]. intros o Ho. apply Hn. lia.
Qed.

Lemma FindMem_first_witness :
  ∃ r, FindMem (str_bytes "xxNTLDR") (str_bytes "NTLDR") = Some r ∧
    ((r = -1 ∧ ∀ o, (o + length (str_bytes "NTLDR") < length (str_bytes "xxNTLDR"))%nat →
        slice o (length (str_bytes "NTLDR")) (str_bytes "xxNTLDR") ≠ str_bytes "NTLDR") ∨
     (∃ k, r = Z.of_nat k ∧ (k + length (str_bytes "NTLDR") < length (str_bytes "xxNTLDR"))%nat ∧
        slice k (length (str_bytes "NTLDR")) (str_bytes "xxNTLDR") = str_bytes "NTLDR" ∧
        ∀ o, (o < k)%nat → slice o (length (str_bytes "NTLDR")) (str_bytes "xxNTLDR") ≠ str_bytes "NTLDR")).
Proof. apply (FindMem_first (str_bytes "xxNTLDR") (str_bytes "NTLDR")). vm_compute. lia. Defined.

(** The occurrence at the end of the buffer is missed. *)
Example FindMem_misses_end : FindMem (str_bytes "xxNTLDR") (str_bytes "NTLDR") = Some (-1).
Proof. reflexivity. Qed.

(** The report does not recognise the boot code the program itself installs:
    an MBR with the boot0ss code of clover_boot0ss_mbr.h, which does carry the
    message "\n\rboot0ss: ", is reported as "Unknown, but bootable". *)
Theorem boot0ss_not_recognised :
  slice 428 11 clover_boot0ss_mbr = [0x0A; 0x0D] ++ str_bytes "boot0ss: " ∧
  match detect_bootcode 0 demo_written with
  | Some (r, s') => r = (0, Some "Unknown, but bootable"%string) ∧ slice 0 440 (sector s') = clover_boot0ss_mbr
  | None => False
  end.
Proof. vm_compute. repeat split; reflexivity. Qed.

(** A report over tables read from a disk never faults and never changes the
    disk; it has one section per analysed sector, in the order MBR, GPT
    partitions, partitions of the MBR only, and no section is missing unless a
    sector could not be read. *)
Theorem analyze_parts_report {D} `{BlockIoLaws D} (s : State D) (d : D) :
  gpt_ok s → the_dev s = Some d →
  let gpt := take (gpt_part_count s) (gpt_parts s) in
  let mbr := take (mbr_part_count s) (mbr_parts s) in
  let lbas := 0 :: (start_lba <$> gpt) ++ (start_lba <$> filter (λ p, mbr_only gpt p = true) mbr) in
  ∃ st lines s', analyze_parts s = Some (st, lines, s') ∧ the_dev s' = Some d ∧
    headings lines `prefix_of` lbas ∧ (st = 0 → headings lines = lbas).
Proof.
  intros Hok Hd gpt mbr lbas.
  destruct (analyze_list_ok lbas s d Hd Hok) as ([st lines] & s' & E & Hp & Hall).
  exists st, lines, s'. split; [done|].
  split; [by rewrite (keeps_analyze_list the_dev lbas _ _ _ E)|]. done.
Qed.

Lemma analyze_parts_report_witness :
  let gpt := take (gpt_part_count demo_read) (gpt_parts demo_read) in
  let mbr := take (mbr_part_count demo_read) (mbr_parts demo_read) in
  let lbas := 0 :: (start_lba <$> gpt) ++ (start_lba <$> filter (λ p, mbr_only gpt p = true) mbr) in
  ∃ st lines s', analyze_parts demo_read = Some (st, lines, s') ∧ the_dev s' = Some demo_disk ∧
    headings lines `prefix_of` lbas ∧ (st = 0 → headings lines = lbas).
Proof. apply (analyze_parts_report demo_read demo_disk demo_read_ok). vm_compute. reflexivity. Defined.
