(* ===== verification/UmmLinks.v ===== *)
(** * Doubly linked segments

    [seg n p x l z]: following [n] from [x] visits the nodes [l] and ends in [z],
    and [p] leads back.  The heap's block chain and its free list are such
    segments; the free list is cyclic, [x = z = 0].  The lemmas say what the
    pointer assignments of the allocator do to a segment. *)

From Stdlib Require Import ZArith Lia.
From stdpp Require Import base list sets.
From S2P Require Import Prelude.

Open Scope Z_scope.

Fixpoint seg (n p : Z → Z) (x : Z) (l : list Z) (z : Z) : Prop :=
  match l with
  | [] => n x = z ∧ p z = x
  | y :: l => n x = y ∧ p y = x ∧ seg n p y l z
  end.

(** Memberships in small lists, and disequalities that follow from them. *)
Ltac mem_step :=
  match goal with
  | H : _ ∧ _ |- _ => destruct H
  | H : _ ∈ _ :: _ |- _ => apply elem_of_cons in H; destruct H
  | H : _ ∈ _ ++ _ |- _ => apply elem_of_app in H; destruct H
  | H : _ ∈ [] |- _ => by apply not_elem_of_nil in H
  | H : _ ∉ _ :: _ |- _ => apply not_elem_of_cons in H
  | H : _ ∉ _ ++ _ |- _ => apply not_elem_of_app in H
  | Hd : ∀ x, x ∈ ?l → x ∉ _, Hx : ?a ∈ ?l |- _ => pose proof (Hd _ Hx); revert Hx
  | |- _ ∉ _ => intros ?
  | |- _ ≠ _ => intros ?
  end.
Ltac mem :=
  intros; repeat mem_step; intros; subst;
  repeat match goal with H : _ ∉ _ :: _ |- _ => apply not_elem_of_cons in H; destruct H
                       | H : _ ∉ _ ++ _ |- _ => apply not_elem_of_app in H; destruct H end;
  rewrite ?elem_of_app, ?elem_of_cons, ?elem_of_app, ?elem_of_cons, ?elem_of_app, ?elem_of_cons;
  solve [done | congruence | tauto].

Lemma seg_app n p x l1 y l2 z :
  seg n p x (l1 ++ y :: l2) z ↔ seg n p x l1 y ∧ seg n p y l2 z.
Proof.
  revert x; induction l1 as [|w l1 IH]; intros x; simpl; [tauto|]. rewrite IH. tauto.
Qed.

Lemma seg_ext n p n' p' x l z :
  (∀ a, a ∈ x :: l → n' a = n a) → (∀ b, b ∈ l ++ [z] → p' b = p b) →
  seg n p x l z → seg n' p' x l z.
Proof.
  revert x; induction l as [|y l IH]; intros x Hn Hp; simpl in *.
  - rewrite Hn, Hp by mem. done.
  - intros (H1 & H2 & H3). rewrite Hn, Hp by mem. split; [done|]. split; [done|].
    apply IH; [intros; apply Hn; mem|intros; apply Hp; mem|done].
Qed.

(** The node before the end and the node after the start. *)
Lemma seg_last n p x l z : seg n p x l z → p z ∈ x :: l.
Proof.
  revert x; induction l as [|y l IH]; intros x; simpl.
  - intros [_ ->]. mem.
  - intros (_ & _ & H%IH). mem.
Qed.

Lemma seg_first n p x l z : seg n p x l z → n x ∈ l ++ [z].
Proof. destruct l; simpl; intros H; destruct H as [-> _]; mem. Qed.

Lemma seg_first_eq n p x l z : seg n p x l z → n x = List.hd z l.
Proof. destruct l; simpl; by intros [-> _]. Qed.

(** Redirecting the last [n] pointer and the [p] pointer of the end node. *)
Lemma seg_relink n p n' p' x l z z' :
  seg n p x l z → NoDup (x :: l) →
  (∀ a, a ∈ x :: l → n' a = if decide (a = p z) then z' else n a) →
  (∀ b, b ∈ l → p' b = p b) → p' z' = p z →
  seg n' p' x l z'.
Proof.
  revert x; induction l as [|y l IH]; intros x Hs Hd Hn Hp Hz; simpl in *.
  - destruct Hs as [H1 H2]. rewrite Hn, H2 by mem. by rewrite decide_True, Hz.
  - destruct Hs as (H1 & H2 & H3). apply NoDup_cons in Hd as [Hx Hd].
    pose proof (seg_last _ _ _ _ _ H3) as Hl.
    split; [|split].
    + rewrite Hn by mem. rewrite decide_False; [done|]. mem.
    + rewrite Hp by mem. done.
    + apply IH; [done|done| | |done]; [intros; apply Hn; mem|intros; apply Hp; mem].
Qed.

(** Redirecting the first link: [x'] takes the place of [x]. *)
Lemma seg_relink_first n p n' p' x x' l z :
  seg n p x l z → NoDup l →
  n' x' = n x → (∀ a, a ∈ l → n' a = n a) →
  (∀ b, b ∈ l ++ [z] → p' b = if decide (b = n x) then x' else p b) → z ∉ l →
  seg n' p' x' l z.
Proof.
  intros Hs Hd Hx Hn Hp Hz. destruct l as [|y l]; simpl in *.
  - destruct Hs as [H1 H2]. split; [congruence|]. rewrite Hp by mem. by rewrite decide_True.
  - destruct Hs as (H1 & H2 & H3). apply NoDup_cons in Hd as [Hy Hd].
    split; [congruence|]. split; [rewrite Hp by mem; by rewrite decide_True|].
    apply (seg_ext n p); [| |done].
    + intros a Ha. apply Hn. mem.
    + intros b Hb. rewrite Hp by mem. rewrite decide_False; [done|].
      rewrite H1. intros ->. apply elem_of_app in Hb as [|]; mem.
Qed.

(** ** Cyclic lists through node 0 *)

Section Cycle.
Context (n p n' p' : Z → Z).

Lemma cyc_insert c fl :
  seg n p 0 fl 0 → NoDup (0 :: c :: fl) →
  (∀ a, n' a = if decide (a = 0) then c else if decide (a = c) then n 0 else n a) →
  (∀ a, p' a = if decide (a = c) then 0 else if decide (a = n 0) then c else p a) →
  seg n' p' 0 (c :: fl) 0.
Proof.
  intros Hs Hd Hn Hp. apply NoDup_cons in Hd as [H0 Hd]. apply NoDup_cons in Hd as [Hc Hd].
  assert (c ≠ 0) by mem. assert (0 ∉ fl) by mem.
  simpl. split; [rewrite Hn, decide_True; done|]. split; [rewrite Hp, decide_True; done|].
  apply (seg_relink_first n p _ _ 0); try done.
  - rewrite Hn, decide_False, decide_True; done.
  - intros a Ha. rewrite Hn, !decide_False; [done|mem|mem].
  - intros b Hb. rewrite Hp, decide_False; [done|]. intros ->.
    apply elem_of_app in Hb as [|]; mem.
Qed.

Lemma cyc_remove f1 c f2 :
  seg n p 0 (f1 ++ c :: f2) 0 → NoDup (0 :: f1 ++ c :: f2) →
  (∀ a, a ≠ c → n' a = if decide (a = p c) then n c else n a) →
  (∀ a, a ≠ c → p' a = if decide (a = n c) then p c else p a) →
  seg n' p' 0 (f1 ++ f2) 0.
Proof.
  intros Hs Hd Hn Hp. apply seg_app in Hs as [H1 H2].
  apply NoDup_cons in Hd as [H0 Hd]. apply NoDup_app in Hd as (Hd1 & Hd12 & Hd2).
  apply NoDup_cons in Hd2 as [Hc Hd2].
  pose proof (seg_last _ _ _ _ _ H1) as Hl. pose proof (seg_first _ _ _ _ _ H2) as Hf.
  assert (NoDup (0 :: f1)) by (apply NoDup_cons; split; [mem|done]).
  remember (n c) as q eqn:Eq. destruct f2 as [|y f2].
  - rewrite app_nil_r. simpl in H2. destruct H2 as [Hnc Hp0]. rewrite <- Eq in Hnc. clear Eq. subst q.
    apply (seg_relink n p _ _ _ _ c 0); try done.
    + intros a Ha. rewrite Hn by mem. done.
    + intros b Hb. rewrite Hp, decide_False; [done| |]; mem.
    + rewrite Hp, decide_True; [done|done|mem].
  - simpl in H2. destruct H2 as (Hnc & Hpy & H2). rewrite <- Eq in Hnc. clear Eq. subst q.
    apply NoDup_cons in Hd2 as [Hy Hd2]. apply seg_app. split.
    + apply (seg_relink n p _ _ _ _ c y); try done.
      * intros a Ha. rewrite Hn by mem. done.
      * intros b Hb. rewrite Hp, decide_False; [done| |]; mem.
      * rewrite Hp, decide_True; [done|done|mem].
    + apply (seg_ext n p); [| |done].
      * intros a Ha. rewrite Hn, decide_False; [done| |]; mem.
      * intros b Hb. apply elem_of_app in Hb as [|]; rewrite Hp, decide_False; mem.
Qed.

(** Node [m] takes the place of node [c]. *)
Lemma cyc_replace f1 c f2 m :
  seg n p 0 (f1 ++ c :: f2) 0 → NoDup (0 :: f1 ++ c :: f2) → m ∉ 0 :: f1 ++ c :: f2 →
  (∀ a, a ≠ c → n' a = if decide (a = m) then n c else if decide (a = p c) then m else n a) →
  (∀ a, a ≠ c → p' a = if decide (a = m) then p c else if decide (a = n c) then m else p a) →
  seg n' p' 0 (f1 ++ m :: f2) 0.
Proof.
  intros Hs Hd Hm Hn Hp. apply seg_app in Hs as [H1 H2].
  apply NoDup_cons in Hd as [H0 Hd]. apply NoDup_app in Hd as (Hd1 & Hd12 & Hd2).
  apply NoDup_cons in Hd2 as [Hc Hd2].
  pose proof (seg_last _ _ _ _ _ H1) as Hl. pose proof (seg_first _ _ _ _ _ H2) as Hf.
  assert (NoDup (0 :: f1)) by (apply NoDup_cons; split; [mem|done]).
  apply seg_app. split.
  - apply (seg_relink n p _ _ _ _ c m); try done.
    + intros a Ha. rewrite Hn, (decide_False (P:=a=m)); [done| |]; mem.
    + intros b Hb. rewrite Hp, !decide_False; [done| | |]; mem.
    + rewrite Hp, decide_True; [done|done|mem].
  - apply (seg_relink_first n p _ _ c m); try done.
    + rewrite Hn, decide_True; [done|done|mem].
    + intros a Ha. rewrite Hn, !decide_False; [done| | |]; mem.
    + intros b Hb. rewrite Hp, (decide_False (P:=b=m)); [done| |];
        apply elem_of_app in Hb as [|]; mem.
    + mem.
Qed.
End Cycle.

(** ** The block chain *)

Section Chain.
Context (n p n' p' : Z → Z).

(** A new node [m] between [c] and its successor. *)
Lemma chain_split x l1 c l2 z m :
  seg n p x (l1 ++ c :: l2) z → NoDup (x :: l1 ++ c :: l2 ++ [z]) → m ∉ x :: l1 ++ c :: l2 ++ [z] →
  (∀ a, a ∈ x :: l1 ++ m :: c :: l2 → n' a = if decide (a = m) then n c else if decide (a = c) then m else n a) →
  (∀ a, a ∈ l1 ++ m :: c :: l2 ++ [z] → p' a = if decide (a = m) then c else if decide (a = n c) then m else p a) →
  seg n' p' x (l1 ++ c :: m :: l2) z.
Proof.
  intros Hs Hd Hm Hn Hp. apply seg_app in Hs as [H1 H2].
  apply NoDup_cons in Hd as [H0 Hd]. apply NoDup_app in Hd as (Hd1 & Hd12 & Hd2).
  apply NoDup_cons in Hd2 as [Hc Hd2]. apply NoDup_app in Hd2 as (Hd2 & Hdz & _).
  pose proof (seg_first _ _ _ _ _ H2) as Hf.
  apply seg_app. split.
  - apply (seg_ext n p); [| |done].
    + intros a Ha. rewrite Hn, !decide_False; [done| | |]; mem.
    + intros b Hb. rewrite Hp, !decide_False; [done| | |]; mem.
  - simpl. split; [|split].
    + rewrite Hn, decide_False, decide_True; [done|done| |]; mem.
    + rewrite Hp, decide_True; [done|done|]; mem.
    + apply (seg_relink_first n p _ _ c m); try done.
      * rewrite Hn, decide_True; [done|done|mem].
      * intros a Ha. rewrite Hn, !decide_False; [done| | |]; mem.
      * intros b Hb. rewrite Hp, (decide_False (P:=b=m)); [done| |]; mem.
      * intros ?. apply (Hdz z); mem.
Qed.

(** Node [d], the successor of [c], leaves the chain. *)
Lemma chain_merge x l1 c d l2 z :
  seg n p x (l1 ++ c :: d :: l2) z → NoDup (x :: l1 ++ c :: d :: l2 ++ [z]) →
  (∀ a, a ∈ x :: l1 ++ c :: l2 → n' a = if decide (a = c) then n d else n a) →
  (∀ a, a ∈ l1 ++ c :: l2 ++ [z] → p' a = if decide (a = n d) then c else p a) →
  seg n' p' x (l1 ++ c :: l2) z.
Proof.
  intros Hs Hd Hn Hp. apply seg_app in Hs as [H1 H2]. simpl in H2. destruct H2 as (Hcd & Hdc & H2).
  apply NoDup_cons in Hd as [H0 Hd]. apply NoDup_app in Hd as (Hd1 & Hd12 & Hd2).
  apply NoDup_cons in Hd2 as [Hc Hd2]. apply NoDup_cons in Hd2 as [Hdd Hd2].
  apply NoDup_app in Hd2 as (Hd2 & Hdz & _).
  pose proof (seg_first _ _ _ _ _ H2) as Hf.
  apply seg_app. split.
  - apply (seg_ext n p); [| |done].
    + intros a Ha. rewrite Hn, !decide_False; [done| |]; mem.
    + intros b Hb. rewrite Hp, !decide_False; [done| |]; mem.
  - apply (seg_relink_first n p _ _ d c); try done.
    + rewrite Hn, decide_True; [done|done|mem].
    + intros a Ha. rewrite Hn, !decide_False; [done| |]; mem.
    + intros b Hb. apply Hp; mem.
    + intros ?. apply (Hdz z); mem.
Qed.
End Chain.
