(* ===== verification/UmmMalloc.v ===== *)
(** * AptioMemoryFix: the pool allocator (UmmMalloc.c) and its two clients

    A heap is an array of 16-byte blocks.  Each block has a header ([next],
    [prev]: block numbers, with the top bit of [next] marking a free block) and a
    body that holds either the links of the free list or the first 8 bytes of the
    user's data.  The array is a finite map from block numbers; blocks that are
    absent from the map are the zero-filled blocks the pool starts with.  An access
    outside [0, umm_numblocks) is undefined behaviour.  [MOAllocatePool] and
    [MOFreePool] (ServiceOverrides.c) are the boot services built on the
    allocator; the firmware services they fall back to are parameters. *)

From Stdlib Require Import ZArith Lia.
From stdpp Require Import base gmap list sorting.
From S2P Require Import Prelude.

Open Scope Z_scope.

(** ** Data *)

Record umm_block := { next : Z; prev : Z; nfree : Z; pfree : Z }.

#[global] Instance umm_block_eq_dec : EqDecision umm_block.
Proof. solve_decision. Defined.

#[global] Instance umm_block_inhabited : Inhabited umm_block :=
  populate {| next := 0; prev := 0; nfree := 0; pfree := 0 |}.

(** The four words of a block: [header.used.next], [header.used.prev],
    [body.free.next] and [body.free.prev]. *)
Inductive umm_field := NBLOCK | PBLOCK | NFREE | PFREE.

Definition get_field (f : umm_field) (b : umm_block) : Z :=
  match f with NBLOCK => next b | PBLOCK => prev b | NFREE => nfree b | PFREE => pfree b end.

Definition set_field (f : umm_field) (v : Z) (b : umm_block) : umm_block :=
  match f with
  | NBLOCK => {| next := v; prev := prev b; nfree := nfree b; pfree := pfree b |}
  | PBLOCK => {| next := next b; prev := v; nfree := nfree b; pfree := pfree b |}
  | NFREE => {| next := next b; prev := prev b; nfree := v; pfree := pfree b |}
  | PFREE => {| next := next b; prev := prev b; nfree := nfree b; pfree := v |}
  end.

Definition UMM_FREELIST_MASK : Z := 0x80000000.
Definition UMM_BLOCKNO_MASK : Z := 0x7FFFFFFF.
Definition UMM_MALLOC_CFG_HEAP_SIZE : Z := 0x2000000.
Definition sizeof_umm_block : Z := 16.
Definition sizeof_body : Z := 8.

(** The static variables; [default_umm_heap] is 0 for NULL. *)
Record UmmState := mkUmm {
  default_umm_heap : Z;
  umm_heap : gmap Z umm_block;
  umm_numblocks : Z
}.

Definition umm_static (pool : gmap Z umm_block) : UmmState :=
  {| default_umm_heap := 0; umm_heap := pool; umm_numblocks := 0 |}.

(** ** Block accesses *)

Definition in_heap (s : UmmState) (c : Z) : bool := (0 <=? c) && (c <? umm_numblocks s).

(** The word [f] of block [c]. *)
Definition fld (f : umm_field) (s : UmmState) (c : Z) : Z := get_field f (umm_heap s !!! c).

Definition upd (f : umm_field) (v : Z) (c : Z) (s : UmmState) : UmmState :=
  mkUmm (default_umm_heap s) (<[c := set_field f v (umm_heap s !!! c)]> (umm_heap s)) (umm_numblocks s).

Definition blk (f : umm_field) (c : Z) : M UmmState Z := λ s,
  if in_heap s c then Some (fld f s c, s) else None.

Definition put (f : umm_field) (c v : Z) : M UmmState unit := λ s,
  if in_heap s c then Some (tt, upd f v c s) else None.

Abbreviation UMM_NBLOCK := (blk NBLOCK).
Abbreviation UMM_PBLOCK := (blk PBLOCK).
Abbreviation UMM_NFREE := (blk NFREE).
Abbreviation UMM_PFREE := (blk PFREE).

(** ** The allocator *)

(** The number of blocks for [size] bytes of data ([size] is a UINT32). *)
Definition umm_blocks (size : Z) : Z :=
  if size <=? sizeof_body then 1
  else wrap32 (2 + wrap32 (size - (1 + sizeof_body)) / sizeof_umm_block).

Definition umm_split_block (c blocks new_freemask : Z) : M UmmState unit :=
  n ← UMM_NBLOCK c;
  put NBLOCK (wrap32 (c + blocks)) (Z.lor (Z.land n UMM_BLOCKNO_MASK) new_freemask);;
  put PBLOCK (wrap32 (c + blocks)) c;;
  n ← UMM_NBLOCK c;
  put PBLOCK (Z.land n UMM_BLOCKNO_MASK) (wrap32 (c + blocks));;
  put NBLOCK c (wrap32 (c + blocks)).

Definition umm_disconnect_from_free_list (c : Z) : M UmmState unit :=
  p ← UMM_PFREE c;
  n ← UMM_NFREE c;
  put NFREE p n;;
  n ← UMM_NFREE c;
  p ← UMM_PFREE c;
  put PFREE n p;;
  x ← UMM_NBLOCK c;
  put NBLOCK c (Z.land x (Z.lxor UMM_FREELIST_MASK 0xFFFFFFFF)).

Definition umm_assimilate_up (c : Z) : M UmmState unit :=
  d ← UMM_NBLOCK c;
  n ← UMM_NBLOCK d;
  if negb (Z.land n UMM_FREELIST_MASK =? 0) then
    umm_disconnect_from_free_list d;;
    d ← UMM_NBLOCK c;
    n ← UMM_NBLOCK d;
    put PBLOCK (Z.land n UMM_BLOCKNO_MASK) c;;
    d ← UMM_NBLOCK c;
    n ← UMM_NBLOCK d;
    put NBLOCK c (Z.land n UMM_BLOCKNO_MASK)
  else mret tt.

Definition umm_assimilate_down (c freemask : Z) : M UmmState Z :=
  p ← UMM_PBLOCK c;
  n ← UMM_NBLOCK c;
  put NBLOCK p (Z.lor n freemask);;
  n ← UMM_NBLOCK c;
  p ← UMM_PBLOCK c;
  put PBLOCK n p;;
  UMM_PBLOCK c.

Definition umm_init : M UmmState unit :=
  modify (λ s, mkUmm (default_umm_heap s) (umm_heap s)
                     (UMM_MALLOC_CFG_HEAP_SIZE / sizeof_umm_block));;
  nb ← gets umm_numblocks;
  let block_last := wrap32 (nb - 1) in
  put NBLOCK 0 1;; put NFREE 0 1;; put PFREE 0 1;;
  put NBLOCK 1 (Z.lor block_last UMM_FREELIST_MASK);;
  put NFREE 1 0;; put PBLOCK 1 0;; put PFREE 1 0;;
  put NBLOCK block_last 0;; put PBLOCK block_last 1.

Definition UmmInitialized (s : UmmState) : bool := negb (default_umm_heap s =? 0).

Definition UmmSetHeap (heap : Z) : M UmmState unit :=
  modify (λ s, mkUmm heap (umm_heap s) (umm_numblocks s));;
  umm_init.

Definition UmmFree (ptr : Z) : M UmmState bool :=
  init ← gets UmmInitialized;
  if negb init then mret false else
  if ptr =? 0 then mret false else
  base ← gets default_umm_heap;
  if (ptr <? base) || (wrap64 (base + UMM_MALLOC_CFG_HEAP_SIZE) <=? ptr) then mret false else
  let c := wrap32 ((ptr - base) / sizeof_umm_block) in
  umm_assimilate_up c;;
  p ← UMM_PBLOCK c;
  n ← UMM_NBLOCK p;
  if negb (Z.land n UMM_FREELIST_MASK =? 0) then
    umm_assimilate_down c UMM_FREELIST_MASK;;
    mret true
  else
    f ← UMM_NFREE 0;
    put PFREE f c;;
    f ← UMM_NFREE 0;
    put NFREE c f;;
    put PFREE c 0;;
    put NFREE 0 c;;
    n ← UMM_NBLOCK c;
    put NBLOCK c (Z.lor n UMM_FREELIST_MASK);;
    mret true.

(** The variables of the search loop of [UmmMalloc]. *)
Record Search := { cf : Z; blockSize : Z; bestBlock : Z; bestSize : Z }.

(** [while (cf)]: the whole free list is scanned; [fuel] bounds the iterations. *)
Fixpoint best_fit (fuel : nat) (blocks : Z) (v : Search) : M UmmState Search :=
  match fuel with
  | O => undef
  | S fuel =>
      if cf v =? 0 then mret v else
      n ← UMM_NBLOCK (cf v);
      let size := wrap32 (Z.land n UMM_BLOCKNO_MASK - cf v) in
      let better := (blocks <=? size) && (size <? bestSize v) in
      f ← UMM_NFREE (cf v);
      best_fit fuel blocks {| cf := f; blockSize := size;
        bestBlock := if better then cf v else bestBlock v;
        bestSize := if better then size else bestSize v |}
  end.

(** The address of [UMM_DATA(c)]. *)
Definition data_ptr (base c : Z) : Z := wrap64 (base + sizeof_umm_block * c + 8).

(** The part of [UmmMalloc] for a free chunk larger than needed: the first
    [blocks] blocks of [c] are split off, and the rest takes its place in the
    free list. *)
Definition umm_alloc_split (c blocks : Z) : M UmmState unit :=
  umm_split_block c blocks UMM_FREELIST_MASK;;
  let m := wrap32 (c + blocks) in
  p ← UMM_PFREE c;
  put NFREE p m;;
  p ← UMM_PFREE c;
  put PFREE m p;;
  f ← UMM_NFREE c;
  put PFREE f m;;
  f ← UMM_NFREE c;
  put NFREE m f.

Definition UmmMalloc (size : Z) : M UmmState Z :=
  init ← gets UmmInitialized;
  if negb init then mret 0 else
  if size =? 0 then mret 0 else
  let blocks := umm_blocks size in
  f ← UMM_NFREE 0;
  nb ← gets umm_numblocks;
  v ← best_fit (Z.to_nat nb) blocks
        {| cf := f; blockSize := 0; bestBlock := f; bestSize := 0x7FFFFFFF |};
  let c := if bestSize v =? 0x7FFFFFFF then cf v else bestBlock v in
  let bsize := if bestSize v =? 0x7FFFFFFF then blockSize v else bestSize v in
  n ← UMM_NBLOCK c;
  if negb (Z.land n UMM_BLOCKNO_MASK =? 0) && (blocks <=? bsize) then
    (if bsize =? blocks then umm_disconnect_from_free_list c
     else umm_alloc_split c blocks);;
    base ← gets default_umm_heap;
    mret (data_ptr base c)
  else mret 0.

(** ** The boot services (ServiceOverrides.c) *)

Inductive EFI_MEMORY_TYPE :=
  | EfiReservedMemoryType | EfiLoaderCode | EfiLoaderData | EfiBootServicesCode
  | EfiBootServicesData | EfiRuntimeServicesCode | EfiRuntimeServicesData
  | EfiConventionalMemory | EfiUnusableMemory | EfiACPIReclaimMemory
  | EfiACPIMemoryNVS | EfiMemoryMappedIO | EfiMemoryMappedIOPortSpace | EfiPalCode.

#[global] Instance EFI_MEMORY_TYPE_eq_dec : EqDecision EFI_MEMORY_TYPE.
Proof. solve_decision. Defined.

Section PoolServices.
(** The firmware's own services, saved at installation; they do not touch the pool. *)
Variable mStoredAllocatePool : EFI_MEMORY_TYPE → Z → EFI_STATUS * Z.
Variable mStoredFreePool : Z → EFI_STATUS.
(** [gMacOSBootNestedCount] and [mFilterDynamicPoolAllocations]. *)
Variable gMacOSBootNestedCount : Z.
Variable mFilterDynamicPoolAllocations : bool.

Definition MOAllocatePool (Type_ : EFI_MEMORY_TYPE) (Size : Z) : M UmmState (EFI_STATUS * Z) :=
  if (0 <? gMacOSBootNestedCount) && bool_decide (Type_ = EfiBootServicesData)
     && mFilterDynamicPoolAllocations then
    Buffer ← UmmMalloc (wrap32 Size);
    if negb (Buffer =? 0) then mret (EFI_SUCCESS, Buffer)
    else mret (mStoredAllocatePool Type_ Size)
  else mret (mStoredAllocatePool Type_ Size).

Definition MOFreePool (Buffer : Z) : M UmmState EFI_STATUS :=
  r ← UmmFree Buffer;
  if (r : bool) then mret EFI_SUCCESS else mret (mStoredFreePool Buffer).
End PoolServices.
