(* ===== verification/UmmProofs.v ===== *)
(** * UmmMalloc: effect of the pointer code, heap invariant and its preservation *)

From Stdlib Require Import ZArith Lia.
From stdpp Require Import base gmap list sorting.
From S2P Require Import Prelude.
From S2P Require Import UmmLinks.
From S2P Require Import UmmMalloc.

Open Scope Z_scope.

(** ** The free bit of the [next] word *)

Definition pack (x : Z) (f : bool) : Z := x + (if f then 2 ^ 31 else 0).

Definition blockno (x : Z) : Prop := 0 ≤ x < 2 ^ 31.

Lemma pack_no x f : blockno x → Z.land (pack x f) UMM_BLOCKNO_MASK = x.
Proof.
  intros Hx. change UMM_BLOCKNO_MASK with (Z.ones 31). rewrite Z.land_ones by lia.
  unfold pack, blockno in *. destruct f; lia.
Qed.

Lemma free_bit_small x : blockno x → Z.land x UMM_FREELIST_MASK = 0.
Proof.
  intros Hx. change UMM_FREELIST_MASK with (Z.shiftl 1 31).
  rewrite <- (Z.mod_small x (2 ^ 31)) by done. rewrite <- Z.land_ones by lia.
  rewrite <- Z.land_assoc. change (Z.land (Z.ones 31) (Z.shiftl 1 31)) with 0. apply Z.land_0_r.
Qed.

Lemma pack_lor x : blockno x → Z.lor x UMM_FREELIST_MASK = pack x true.
Proof. intros Hx. rewrite <- Z.add_nocarry_lor by by apply free_bit_small. done. Qed.

Lemma pack_free x f : blockno x → negb (Z.land (pack x f) UMM_FREELIST_MASK =? 0) = f.
Proof.
  intros Hx. destruct f.
  - rewrite <- pack_lor by done. rewrite Z.land_comm, Z.land_lor_distr_r, Z.land_diag.
    rewrite Z.land_comm, free_bit_small by done. done.
  - unfold pack. by rewrite Z.add_0_r, free_bit_small.
Qed.

Lemma pack_clear x f : blockno x → Z.land (pack x f) (Z.lxor UMM_FREELIST_MASK 0xFFFFFFFF) = x.
Proof. apply pack_no. Qed.

Lemma pack_false x : pack x false = x.
Proof. unfold pack. lia. Qed.

(** ** Running block accesses *)

Definition field_eqb (f g : umm_field) : bool :=
  match f, g with
  | NBLOCK, NBLOCK | PBLOCK, PBLOCK | NFREE, NFREE | PFREE, PFREE => true
  | _, _ => false
  end.

Lemma fld_upd f g v c s a :
  fld f (upd g v c s) a = if field_eqb f g then (if decide (a = c) then v else fld f s a) else fld f s a.
Proof.
  unfold fld, upd. simpl. rewrite lookup_total_insert. case_decide; subst.
  - rewrite decide_True by done. by destruct f, g.
  - rewrite decide_False by done. by destruct field_eqb.
Qed.

Lemma in_heap_upd f v c s a : in_heap (upd f v c s) a = in_heap s a.
Proof. done. Qed.

Lemma bind_blk {B} f c s (k : Z → M UmmState B) :
  in_heap s c = true → (blk f c ≫= k) s = k (fld f s c) s.
Proof. intros Hc. unfold mbind, M_bind, blk. by rewrite Hc. Qed.

Lemma bind_put {B} f c v s (k : unit → M UmmState B) :
  in_heap s c = true → (put f c v ≫= k) s = k tt (upd f v c s).
Proof. intros Hc. unfold mbind, M_bind, put. by rewrite Hc. Qed.

Lemma blk_eq f c s : in_heap s c = true → blk f c s = Some (fld f s c, s).
Proof. intros Hc. unfold blk. by rewrite Hc. Qed.

Lemma put_eq f c v s : in_heap s c = true → put f c v s = Some (tt, upd f v c s).
Proof. intros Hc. unfold put. by rewrite Hc. Qed.

(** Evaluate the words of an updated heap, block numbers being equal or not as the
    context says. *)
Ltac flds :=
  repeat first
    [ rewrite fld_upd; cbn [field_eqb]
    | rewrite decide_True by congruence
    | rewrite decide_False by congruence ].

Ltac run :=
  repeat first
    [ rewrite bind_gets | rewrite bind_modify
    | rewrite bind_blk by (rewrite ?in_heap_upd; assumption); flds
    | rewrite bind_put by (rewrite ?in_heap_upd; assumption); flds
    | rewrite blk_eq by (rewrite ?in_heap_upd; assumption); flds
    | rewrite put_eq by (rewrite ?in_heap_upd; assumption); flds ].

(** ** Effects *)

(** [s'] has the same blocks as [s], with the words given by the four functions. *)
Definition words (s s' : UmmState) (N P F G : Z → Z) : Prop :=
  default_umm_heap s' = default_umm_heap s ∧ umm_numblocks s' = umm_numblocks s ∧
  (∀ a, fld NBLOCK s' a = N a) ∧ (∀ a, fld PBLOCK s' a = P a) ∧
  (∀ a, fld NFREE s' a = F a) ∧ (∀ a, fld PFREE s' a = G a).

Definition over (c v : Z) (f : Z → Z) : Z → Z := λ a, if decide (a = c) then v else f a.

Ltac words_tac := repeat split; intros; unfold over; rewrite ?fld_upd; cbn [field_eqb]; reflexivity.

Section Effects.
Context (s : UmmState).

Lemma disconnect_words c p n :
  fld PFREE s c = p → fld NFREE s c = n →
  in_heap s c = true → in_heap s p = true → in_heap s n = true → c ≠ p → c ≠ n →
  ∃ s', umm_disconnect_from_free_list c s = Some (tt, s') ∧
    words s s' (over c (Z.land (fld NBLOCK s c) (Z.lxor UMM_FREELIST_MASK 0xFFFFFFFF)) (fld NBLOCK s))
      (fld PBLOCK s) (over p n (fld NFREE s)) (over n p (fld PFREE s)).
Proof.
  intros Hp Hn Hc Hip Hin Hcp Hcn. unfold umm_disconnect_from_free_list.
  run. rewrite Hp, Hn. run. rewrite ?Hp, ?Hn. run. eexists. split; [done|]. words_tac.
Qed.

Lemma split_words c blocks m d :
  wrap32 (c + blocks) = m → Z.land (fld NBLOCK s c) UMM_BLOCKNO_MASK = d →
  in_heap s c = true → in_heap s m = true → in_heap s d = true → c ≠ m →
  ∃ s', umm_split_block c blocks UMM_FREELIST_MASK s = Some (tt, s') ∧
    words s s' (over c m (over m (Z.lor d UMM_FREELIST_MASK) (fld NBLOCK s)))
      (over d m (over m c (fld PBLOCK s))) (fld NFREE s) (fld PFREE s).
Proof.
  intros Hm Hd Hc Him Hid Hcm. unfold umm_split_block. rewrite Hm. run. rewrite Hd. run. rewrite ?Hd. run. eexists. split; [done|]. words_tac.
Qed.

Lemma assimilate_down_words c p n :
  fld PBLOCK s c = p → fld NBLOCK s c = n →
  in_heap s c = true → in_heap s p = true → in_heap s n = true → c ≠ p → c ≠ n →
  ∃ s', umm_assimilate_down c UMM_FREELIST_MASK s = Some (p, s') ∧
    words s s' (over p (Z.lor n UMM_FREELIST_MASK) (fld NBLOCK s)) (over n p (fld PBLOCK s))
      (fld NFREE s) (fld PFREE s).
Proof.
  intros Hp Hn Hc Hip Hin Hcp Hcn. unfold umm_assimilate_down.
  run. rewrite Hp, Hn. run. rewrite ?Hp, ?Hn. run. rewrite ?Hp.
  eexists. split; [done|]. words_tac.
Qed.

End Effects.

(** Composition of effects is by replacing the words of the intermediate state. *)
Lemma words_in_heap s s' N P F G a : words s s' N P F G → in_heap s' a = in_heap s a.
Proof. intros (_ & E & _). unfold in_heap. by rewrite E. Qed.

Lemma assimilate_up_words s c d e q r :
  fld NBLOCK s c = d → negb (Z.land (fld NBLOCK s d) UMM_FREELIST_MASK =? 0) = true →
  Z.land (Z.land (fld NBLOCK s d) (Z.lxor UMM_FREELIST_MASK 0xFFFFFFFF)) UMM_BLOCKNO_MASK = e →
  fld PFREE s d = q → fld NFREE s d = r →
  in_heap s c = true → in_heap s d = true → in_heap s e = true → in_heap s q = true → in_heap s r = true →
  c ≠ d → d ≠ q → d ≠ r →
  ∃ s', umm_assimilate_up c s = Some (tt, s') ∧
    words s s'
      (over c e (over d (Z.land (fld NBLOCK s d) (Z.lxor UMM_FREELIST_MASK 0xFFFFFFFF)) (fld NBLOCK s)))
      (over e c (fld PBLOCK s)) (over q r (fld NFREE s)) (over r q (fld PFREE s)).
Proof.
  intros Hd Hf He Hq Hr Hc Hid Hie Hiq Hir Hcd Hdq Hdr. unfold umm_assimilate_up.
  run. rewrite Hd. run. rewrite Hf.
  destruct (disconnect_words s d q r) as (s1 & E1 & W1); try done.
  rewrite (bind_eq _ _ _ _ _ E1). pose proof W1 as (Wb & Wn & W_N & W_P & W_F & W_G).
  assert (∀ a, in_heap s1 a = in_heap s a) as Hi by (intros; by eapply words_in_heap).
  assert (in_heap s1 c = true) as Hc1 by by rewrite Hi. assert (in_heap s1 d = true) as Hd1 by by rewrite Hi.
  assert (in_heap s1 e = true) as He1 by by rewrite Hi.
  assert (fld NBLOCK s1 c = d) as Ec by (rewrite W_N; unfold over; by rewrite decide_False).
  assert (Z.land (fld NBLOCK s1 d) UMM_BLOCKNO_MASK = e) as Ee
    by (rewrite W_N; unfold over; by rewrite decide_True).
  run. rewrite Ec. run. rewrite Ee. run. rewrite ?Ec. run. rewrite ?Ee. run.
  eexists. split; [done|]. repeat split; try done; intros a; rewrite ?fld_upd; cbn [field_eqb]; unfold over.
  - case_decide; [done|]. by rewrite W_N.
  - case_decide; [done|]. by rewrite W_P.
  - by rewrite W_F.
  - by rewrite W_G.
Qed.

(** ** Adjacent elements of a list *)

Fixpoint adj (R : Z → Z → Prop) (l : list Z) : Prop :=
  match l with
  | a :: ((b :: _) as t) => R a b ∧ adj R t
  | _ => True
  end.

Lemma adj_app R l1 a l2 : adj R (l1 ++ a :: l2) ↔ adj R (l1 ++ [a]) ∧ adj R (a :: l2).
Proof.
  induction l1 as [|x l1 IH]; simpl; [tauto|].
  destruct l1 as [|y l1]; simpl in *; tauto.
Qed.

Lemma adj_impl (R R' : Z → Z → Prop) l :
  (∀ a b, a ∈ l → b ∈ l → R a b → R' a b) → adj R l → adj R' l.
Proof.
  induction l as [|a l IH]; [done|]. intros Hi. destruct l as [|b l]; [done|].
  intros [H1 H2]. split.
  - apply Hi; [apply list_elem_of_here|apply list_elem_of_further, list_elem_of_here|done].
  - apply IH; [|done]. intros. apply Hi; [by apply list_elem_of_further|by apply list_elem_of_further|done].
Qed.

Lemma sorted_nodup l : StronglySorted Z.lt l → NoDup l.
Proof.
  induction 1 as [|a l Hs IH Hf]; constructor; [|done].
  intros Ha. rewrite Forall_forall in Hf. specialize (Hf a Ha). lia.
Qed.

(** ** The heap invariant *)

Definition NBno (s : UmmState) (a : Z) : Z := Z.land (fld NBLOCK s a) UMM_BLOCKNO_MASK.

Lemma NBno_range s a : blockno (NBno s a).
Proof.
  unfold NBno. change UMM_BLOCKNO_MASK with (Z.ones 31). rewrite Z.land_ones by lia.
  unfold blockno. apply Z.mod_pos_bound. lia.
Qed.

(** Not both free. *)
Definition apart (fl : list Z) (a b : Z) : Prop := ¬ (a ∈ fl ∧ b ∈ fl).

(** [bs]: the first blocks of the chunks the heap is divided into, in address
    order; [fl]: the free ones, in the order of the free list. *)
Record heap_ok (s : UmmState) (bs fl : list Z) : Prop := {
  ok_base : 0 < default_umm_heap s ∧ default_umm_heap s + UMM_MALLOC_CFG_HEAP_SIZE < 2 ^ 64;
  ok_num : umm_numblocks s = UMM_MALLOC_CFG_HEAP_SIZE / sizeof_umm_block;
  ok_first : List.hd 0 bs = 1;
  ok_sorted : StronglySorted Z.lt (0 :: bs ++ [umm_numblocks s - 1]);
  ok_chain : seg (NBno s) (fld PBLOCK s) 0 bs (umm_numblocks s - 1);
  ok_next : ∀ b, b ∈ 0 :: bs → fld NBLOCK s b = pack (NBno s b) (bool_decide (b ∈ fl));
  ok_last : fld NBLOCK s (umm_numblocks s - 1) = 0;
  ok_free : seg (fld NFREE s) (fld PFREE s) 0 fl 0;
  ok_nodup : NoDup fl;
  ok_sub : ∀ c, c ∈ fl → c ∈ bs;
  ok_apart : adj (apart fl) bs
}.

Section Facts.
Context {s : UmmState} {bs fl : list Z} (Hok : heap_ok s bs fl).
Abbreviation L := (umm_numblocks s - 1).

Lemma ok_chain_nodup : NoDup (0 :: bs ++ [L]).
Proof. apply sorted_nodup, (ok_sorted _ _ _ Hok). Qed.

Lemma ok_bs_nodup : NoDup bs.
Proof. pose proof ok_chain_nodup as [_ Hd]%NoDup_cons. by apply NoDup_app in Hd as (? & _). Qed.

Lemma ok_numblocks : umm_numblocks s = 0x200000.
Proof. by rewrite (ok_num _ _ _ Hok). Qed.

Lemma ok_range b : b ∈ bs → 0 < b < L.
Proof.
  intros Hb. pose proof (ok_sorted _ _ _ Hok) as Hs. split.
  - apply StronglySorted_inv in Hs as [_ Hf]. rewrite Forall_forall in Hf. apply Hf.
    apply elem_of_app. by left.
  - rewrite app_comm_cons in Hs. eapply StronglySorted_app_1_elem_of; [exact Hs| |].
    + by apply list_elem_of_further.
    + apply list_elem_of_here.
Qed.

Lemma ok_in_heap b : b ∈ 0 :: bs ++ [L] → in_heap s b = true.
Proof.
  pose proof ok_numblocks as Hn. unfold in_heap. intros Hb.
  assert (0 ≤ b < umm_numblocks s) as Hr; [|apply andb_true_iff; split; [apply Z.leb_le|apply Z.ltb_lt]; lia].
  apply elem_of_cons in Hb as [->|Hb]; [lia|]. apply elem_of_app in Hb as [Hb%ok_range|Hb]; [lia|].
  apply list_elem_of_singleton in Hb. lia.
Qed.

Lemma ok_zero_not_free : 0 ∉ fl.
Proof. intros H%(ok_sub _ _ _ Hok)%ok_range. lia. Qed.

Lemma ok_free_nodup : NoDup (0 :: fl).
Proof. apply NoDup_cons. split; [apply ok_zero_not_free|apply (ok_nodup _ _ _ Hok)]. Qed.

Lemma ok_free_in c : c ∈ 0 :: fl → c ∈ 0 :: bs ++ [L].
Proof.
  intros [->|Hc]%elem_of_cons; [apply list_elem_of_here|].
  apply list_elem_of_further, elem_of_app. left. by apply (ok_sub _ _ _ Hok).
Qed.

Lemma ok_free_links f1 c f2 : fl = f1 ++ c :: f2 →
  fld PFREE s c ∈ 0 :: fl ∧ fld NFREE s c ∈ 0 :: fl ∧ c ≠ fld PFREE s c ∧ c ≠ fld NFREE s c.
Proof.
  intros E. pose proof (ok_free _ _ _ Hok) as Hs. pose proof ok_free_nodup as Hd.
  rewrite E in Hs, Hd |- *. apply seg_app in Hs as [H1 H2].
  pose proof (seg_last _ _ _ _ _ H1) as Hp. pose proof (seg_first _ _ _ _ _ H2) as Hn. clear H1 H2.
  apply NoDup_cons in Hd as [H0 Hd]. apply NoDup_app in Hd as (Hd1 & Hd12 & Hd2).
  apply NoDup_cons in Hd2 as [Hc Hd2]. clear E.
  revert Hp Hn. generalize (fld PFREE s c), (fld NFREE s c). intros p n Hp Hn.
  split; [mem|]. split; [mem|]. split; mem.
Qed.

(** The successor of a chunk in the chain. *)
Lemma ok_next_chunk l1 c l2 : bs = l1 ++ c :: l2 →
  NBno s c = List.hd L l2 ∧ NBno s c ∈ bs ++ [L] ∧ c < NBno s c.
Proof.
  intros E. pose proof (ok_chain _ _ _ Hok) as Hc. rewrite E in Hc. apply seg_app in Hc as [_ Hc].
  rewrite (seg_first_eq _ _ _ _ _ Hc). split; [done|].
  pose proof (ok_sorted _ _ _ Hok) as Hs. rewrite E in Hs |- *.
  apply StronglySorted_inv in Hs as [Hs _]. rewrite <- app_assoc in Hs. simpl in Hs.
  apply StronglySorted_app_1_r, StronglySorted_inv in Hs as [_ Hf]. rewrite Forall_forall in Hf.
  assert (List.hd L l2 ∈ l2 ++ [L]) as Hin by (destruct l2; apply list_elem_of_here).
  split; [|by apply Hf]. rewrite <- app_assoc. simpl. apply elem_of_app. right. by apply list_elem_of_further.
Qed.

Lemma ok_prev_chunk l1 c l2 : bs = l1 ++ c :: l2 → fld PBLOCK s c = List.last l1 0.
Proof.
  intros E. pose proof (ok_chain _ _ _ Hok) as Hc. rewrite E in Hc. apply seg_app in Hc as [Hc _].
  clear E. induction l1 as [|x l1 IH] using rev_ind; [by destruct Hc|].
  apply seg_app in Hc as [_ [_ Hc]]. by rewrite last_last.
Qed.

(** No chunk starts inside another one. *)
Lemma ok_gap b x : b ∈ bs → x ∈ 0 :: bs ++ [L] → ¬ (b < x < NBno s b).
Proof.
  intros Hb Hx [Hlt1 Hlt2]. apply list_elem_of_split in Hb as (l1 & l2 & E).
  destruct (ok_next_chunk _ _ _ E) as (Hn & _ & _).
  pose proof (ok_sorted _ _ _ Hok) as Hs. rewrite E in Hs, Hx.
  rewrite <- app_assoc in Hs, Hx. simpl in Hs, Hx.
  rewrite app_comm_cons in Hs, Hx. apply StronglySorted_app in Hs as (H1 & _ & Hs).
  apply elem_of_app in Hx as [Hx|Hx].
  - specialize (H1 x b Hx (list_elem_of_here _ _)). lia.
  - apply elem_of_cons in Hx as [->|Hx]; [lia|].
    apply StronglySorted_inv in Hs as [Hs _].
    destruct l2 as [|y l2]; simpl in *.
    + apply list_elem_of_singleton in Hx. lia.
    + apply elem_of_cons in Hx as [->|Hx]; [lia|].
      apply StronglySorted_inv in Hs as [_ Hf]. rewrite Forall_forall in Hf. specialize (Hf x Hx). lia.
Qed.
End Facts.
