(* ===== verification/UmmInv.v ===== *)
(** * UmmMalloc: the pointer code preserves the heap invariant *)

From Stdlib Require Import ZArith Lia.
From stdpp Require Import base gmap list sorting.
From S2P Require Import Prelude.
From S2P Require Import UmmLinks.
From S2P Require Import UmmMalloc.
From S2P Require Import UmmProofs.

Open Scope Z_scope.

Lemma land_no x : blockno x → Z.land x UMM_BLOCKNO_MASK = x.
Proof. intros Hx. rewrite <- (pack_false x) at 1. by apply pack_no. Qed.

Lemma over_eq c v f a : a = c → over c v f a = v.
Proof. intros ->. unfold over. by rewrite decide_True. Qed.

Lemma over_ne c v f a : a ≠ c → over c v f a = f a.
Proof. intros. unfold over. by rewrite decide_False. Qed.

Lemma elem_of_remove {A} (x : A) l1 y l2 : x ∈ l1 ++ l2 → x ∈ l1 ++ y :: l2.
Proof. rewrite !elem_of_app, elem_of_cons. tauto. Qed.

Lemma nodup_middle {A} (l1 : list A) x l2 : NoDup (l1 ++ x :: l2) ↔ (x ∉ l1 ++ l2) ∧ NoDup (l1 ++ l2).
Proof. by rewrite <- NoDup_cons, Permutation_middle. Qed.

Lemma sorted_insert x l1 c l2 z m :
  StronglySorted Z.lt (x :: l1 ++ c :: l2 ++ [z]) → c < m < List.hd z l2 →
  StronglySorted Z.lt (x :: l1 ++ c :: m :: l2 ++ [z]).
Proof.
  rewrite !app_comm_cons. intros (Hx & Hs1 & Hs2)%StronglySorted_app Hm.
  apply StronglySorted_inv in Hs2 as [Hs2 Hf]. apply StronglySorted_app. split; [|split; [done|]].
  - intros x1 x2 Hx1 Hx2. pose proof (Hx x1 c Hx1 (list_elem_of_here _ _)) as Hxc.
    apply elem_of_cons in Hx2 as [->|[->|Hx2]%elem_of_cons]; [lia|lia|].
    apply Hx; [done|]. by apply list_elem_of_further.
  - assert (Forall (Z.lt m) (l2 ++ [z])) as Hfm.
    { destruct l2 as [|y l2]; simpl in *; (constructor; [lia|]); [done|].
      apply StronglySorted_inv in Hs2 as [_ Hf2]. eapply Forall_impl; [exact Hf2|]. simpl. lia. }
    constructor; [by constructor|]. constructor; [lia|]. eapply Forall_impl; [exact Hfm|]. simpl. lia.
Qed.

Lemma sorted_remove x l1 c d l2 :
  StronglySorted Z.lt (x :: l1 ++ c :: d :: l2) → StronglySorted Z.lt (x :: l1 ++ c :: l2).
Proof.
  rewrite !app_comm_cons. intros (Hx & Hs1 & Hs2)%StronglySorted_app.
  apply StronglySorted_inv in Hs2 as [Hs2 Hf]. apply StronglySorted_inv in Hs2 as [Hs2 _].
  apply StronglySorted_app. split; [|split; [done|]].
  - intros x1 x2 H1 H2. apply Hx; [done|]. clear -H2. mem.
  - constructor; [done|]. by inversion Hf.
Qed.

Lemma apart_sub fl fl' l : (∀ x, x ∈ l → x ∈ fl' → x ∈ fl) → adj (apart fl) l → adj (apart fl') l.
Proof. intros Hx. apply adj_impl. intros a b Ha Hb Hab [H1 H2]. apply Hab. auto. Qed.

(** Free chunk [c] is divided into a used chunk [c] and a free chunk [m]. *)
Lemma apart_insert fl fl' l1 c l2 m :
  adj (apart fl) (l1 ++ c :: l2) → c ∈ fl → m ∉ l1 ++ c :: l2 → c ∉ fl' →
  (∀ x, x ≠ m → x ∈ fl' → x ∈ fl) → adj (apart fl') (l1 ++ c :: m :: l2).
Proof.
  intros H Hc Hm Hc' Hsub.
  assert (∀ x, x ∈ l1 ++ c :: l2 → x ∈ fl' → x ∈ fl) as Hsub'.
  { intros x Hx. apply Hsub. by intros ->. }
  apply adj_app in H as [H1 H2]. apply adj_app. split.
  - eapply apart_sub; [|exact H1]. intros x Hx. apply Hsub'. clear -Hx. mem.
  - split; [by intros [? _]|]. destruct l2 as [|d l2]; [done|]. destruct H2 as [Hcd H2]. split.
    + intros [_ Hd]. apply Hcd. split; [done|]. apply Hsub'; [clear; mem|done].
    + eapply apart_sub; [|exact H2]. intros x Hx. apply Hsub'. clear -Hx. mem.
Qed.

(** Chunk [d] is merged into the chunk [c] before it. *)
Lemma apart_remove fl fl' l1 c d l2 :
  adj (apart fl) (l1 ++ c :: d :: l2) → (∀ x, x ∈ fl' → x ∈ fl) →
  (∀ e, List.head l2 = Some e → apart fl' c e) → adj (apart fl') (l1 ++ c :: l2).
Proof.
  intros H Hsub Hce. apply adj_app in H as [H1 H2]. apply adj_app. split.
  - eapply apart_sub; [|exact H1]. auto.
  - destruct l2 as [|e l2]; [done|]. split; [by apply Hce|]. destruct H2 as [_ [_ H2]].
    eapply apart_sub; [|exact H2]. auto.
Qed.

(** Chunk [c] becomes free between two used neighbours. *)
Lemma apart_push fl l1 c l2 z :
  adj (apart fl) (l1 ++ c :: l2) → c ∉ fl → NoDup (l1 ++ c :: l2) →
  List.last l1 0 ∉ fl → List.hd z l2 ∉ fl →
  adj (apart (c :: fl)) (l1 ++ c :: l2).
Proof.
  intros H Hc Hd Hl Hr. apply nodup_middle in Hd as [Hcn Hd].
  assert (∀ x, x ≠ c → x ∈ c :: fl → x ∈ fl) as Hsub by (intros ? ? [?|?]%elem_of_cons; done).
  apply adj_app in H as [H1 H2]. apply adj_app. split.
  - clear H2. destruct l1 as [|w l1 _] using rev_ind; [done|].
    rewrite last_last in Hl. rewrite <- app_assoc in H1 |- *. simpl in *.
    apply adj_app in H1 as [H1 _]. apply adj_app. split.
    + eapply apart_sub; [|exact H1]. intros x Hx. apply Hsub. intros ->. apply Hcn. clear -Hx. mem.
    + split; [|done]. intros [Hw%Hsub _]; [done|]. intros ->. apply Hcn. clear. mem.
  - destruct l2 as [|e l2]; [done|]. destruct H2 as [_ H2]. split.
    + intros [_ He%Hsub]; [done|]. intros ->. apply Hcn. clear. mem.
    + eapply apart_sub; [|exact H2]. intros x Hx. apply Hsub. intros ->. apply Hcn. clear -Hx. mem.
Qed.

Section Preserve.
Context {s s' : UmmState} {bs fl : list Z} (Hok : heap_ok s bs fl).

Lemma no_of_next a x f : fld NBLOCK s' a = pack x f → blockno x → NBno s' a = x.
Proof. intros E Hx. unfold NBno. by rewrite E, pack_no. Qed.

Lemma no_same a : fld NBLOCK s' a = fld NBLOCK s a → NBno s' a = NBno s a.
Proof. unfold NBno. by intros ->. Qed.

(** An exact fit: chunk [c] leaves the free list. *)
Lemma ok_disconnect f1 c f2 :
  fl = f1 ++ c :: f2 →
  words s s' (over c (Z.land (fld NBLOCK s c) (Z.lxor UMM_FREELIST_MASK 0xFFFFFFFF)) (fld NBLOCK s))
    (fld PBLOCK s) (over (fld PFREE s c) (fld NFREE s c) (fld NFREE s))
    (over (fld NFREE s c) (fld PFREE s c) (fld PFREE s)) →
  (∀ a, NBno s' a = NBno s a) ∧ heap_ok s' bs (f1 ++ f2).
Proof.
  intros E (Wb & Wn & WN & WP & WF & WG).
  pose proof (ok_free_nodup Hok) as Hd. pose proof (ok_nodup _ _ _ Hok) as Hd'. rewrite E in Hd, Hd'.
  apply nodup_middle in Hd' as [Hcn Hd'].
  assert (c ∈ fl) as Hc by (rewrite E; apply elem_of_app; right; apply list_elem_of_here).
  pose proof (ok_sub _ _ _ Hok c Hc) as Hcb. pose proof (ok_range Hok c Hcb) as Hr.
  pose proof (ok_next _ _ _ Hok c (list_elem_of_further _ _ _ Hcb)) as Hnc.
  assert (fld NBLOCK s' c = pack (NBno s c) false) as HNc.
  { rewrite WN, over_eq by done. rewrite Hnc at 1. rewrite pack_clear by apply NBno_range.
    by rewrite pack_false. }
  assert (∀ a, NBno s' a = NBno s a) as HN.
  { intros a. destruct (decide (a = c)) as [->|Hac].
    - eapply no_of_next; [exact HNc|apply NBno_range].
    - apply no_same. by rewrite WN, over_ne. }
  assert (∀ b, b ≠ c → (b ∈ f1 ++ f2 ↔ b ∈ fl)) as Hmem.
  { intros b Hb. rewrite E, !elem_of_app, elem_of_cons. naive_solver. }
  split; [done|]. destruct Hok as [H1 H2 H3 H4 H5 H6 H7 H8 H9 H10 H11]. split; rewrite ?Wb, ?Wn; try done.
  - apply (seg_ext (NBno s) (fld PBLOCK s)); [intros; apply HN|intros; apply WP|done].
  - intros b Hb. destruct (decide (b = c)) as [->|Hbc].
    + rewrite HNc, HN. f_equal. symmetry. by apply bool_decide_eq_false.
    + rewrite WN, over_ne, HN, (H6 b Hb) by done. f_equal. apply bool_decide_ext. by rewrite Hmem.
  - rewrite WN, over_ne; [done|lia].
  - apply (cyc_remove (fld NFREE s) (fld PFREE s) _ _ f1 c f2); [by rewrite <- E|done| |].
    + intros a _. apply WF.
    + intros a _. apply WG.
  - intros x Hx. apply H10. rewrite E. by apply elem_of_remove.
  - eapply adj_impl; [|exact H11]. intros a b _ _ Ha [Hb1 Hb2]. apply Ha.
    rewrite E. split; by apply elem_of_remove.
Qed.

(** A larger free chunk: block [m] inside chunk [c] becomes the free chunk. *)
Lemma ok_split f1 c f2 m :
  fl = f1 ++ c :: f2 → c < m < NBno s c →
  words s s' (over c m (over m (Z.lor (NBno s c) UMM_FREELIST_MASK) (fld NBLOCK s)))
    (over (NBno s c) m (over m c (fld PBLOCK s)))
    (over m (fld NFREE s c) (over (fld PFREE s c) m (fld NFREE s)))
    (over (fld NFREE s c) m (over m (fld PFREE s c) (fld PFREE s))) →
  ∃ l1 l2, bs = l1 ++ c :: l2 ∧ heap_ok s' (l1 ++ c :: m :: l2) (f1 ++ m :: f2) ∧
    NBno s' c = m ∧ NBno s' m = NBno s c ∧ (∀ a, a ≠ c → a ≠ m → NBno s' a = NBno s a).
Proof.
  intros E Hm (Wb & Wn & WN & WP & WF & WG).
  assert (c ∈ fl) as Hc by (rewrite E; apply elem_of_app; right; apply list_elem_of_here).
  pose proof (ok_sub _ _ _ Hok c Hc) as Hcb. pose proof (ok_range Hok c Hcb) as Hr.
  pose proof (ok_numblocks Hok) as Hnum.
  apply list_elem_of_split in Hcb as (l1 & l2 & Eb).
  destruct (ok_next_chunk Hok _ _ _ Eb) as (Hhd & Hin & _).
  assert (c ∈ bs) as Hcb by (rewrite Eb; apply elem_of_app; right; apply list_elem_of_here).
  assert (m ∉ 0 :: bs ++ [umm_numblocks s - 1]) as Hmn.
  { intros Hx. by apply (ok_gap Hok c m Hcb Hx). }
  assert (NBno s c < 2 ^ 31) as Hlt by apply NBno_range.
  assert (NBno s c ≤ umm_numblocks s - 1) as HleL.
  { apply elem_of_app in Hin as [Hin%(ok_range Hok)|Hin%list_elem_of_singleton]; lia. }
  assert (m ∉ fl) as Hmf.
  { intros Hx%(ok_sub _ _ _ Hok). apply Hmn. apply list_elem_of_further, elem_of_app. by left. }
  pose proof (ok_free_nodup Hok) as Hd0. pose proof (ok_nodup _ _ _ Hok) as Hd. rewrite E in Hd, Hd0.
  pose proof Hd as Hd'. apply nodup_middle in Hd' as [Hcn Hd'].
  pose proof (ok_chain_nodup Hok) as Hcd.
  destruct (ok_free_links Hok _ _ _ E) as (_ & Hnf & _).
  assert (m ≠ fld NFREE s c) as Hmnf.
  { intros ->. apply elem_of_cons in Hnf as [Hz|Hz]; [lia|done]. }
  exists l1, l2. split; [done|].
  assert (fld NBLOCK s' c = pack m false) as HNc by (rewrite WN, over_eq, pack_false; done).
  assert (fld NBLOCK s' m = pack (NBno s c) true) as HNm.
  { rewrite WN, over_ne, over_eq by (done || lia). apply pack_lor, NBno_range. }
  assert (NBno s' c = m) as HBc by (eapply no_of_next; [exact HNc|unfold blockno; lia]).
  assert (NBno s' m = NBno s c) as HBm by (eapply no_of_next; [exact HNm|apply NBno_range]).
  assert (∀ a, a ≠ c → a ≠ m → NBno s' a = NBno s a) as HB.
  { intros a Ha1 Ha2. apply no_same. by rewrite WN, !over_ne. }
  split; [|done].
  destruct Hok as [H1 H2 H3 H4 H5 H6 H7 H8 H9 H10 H11]. rewrite Eb in *. split; rewrite ?Wb, ?Wn; try done.
  - by destruct l1.
  - rewrite <- app_assoc in H4 |- *. apply sorted_insert; [done|lia].
  - rewrite <- app_assoc in Hcd, Hmn. apply (chain_split (NBno s) (fld PBLOCK s)); try done.
    + intros a _. unfold over in *. repeat case_decide; subst; try done. by apply HB.
    + intros a _. rewrite WP. unfold over. repeat case_decide; subst; try done. lia.
  - intros b Hb. destruct (decide (b = c)) as [->|Hbc].
    { rewrite HNc, HBc. f_equal. symmetry. apply bool_decide_eq_false.
      rewrite elem_of_app, elem_of_cons in *. intuition lia. }
    destruct (decide (b = m)) as [->|Hbm].
    { rewrite HNm, HBm. f_equal. symmetry. apply bool_decide_eq_true.
      rewrite elem_of_app, elem_of_cons. tauto. }
    rewrite WN, !over_ne, HB by done. rewrite H6.
    + f_equal. apply bool_decide_ext. rewrite E, !elem_of_app, !elem_of_cons. tauto.
    + clear -Hb Hbm. mem.
  - rewrite WN, !over_ne; [done|lia|lia].
  - apply (cyc_replace (fld NFREE s) (fld PFREE s) _ _ f1 c f2 m); [by rewrite <- E|done| | |].
    + rewrite <- E. rewrite not_elem_of_cons. split; [|done]. lia.
    + intros a _. rewrite WF. done.
    + intros a _. rewrite WG. unfold over. by repeat case_decide; subst.
  - apply nodup_middle. split; [|done]. intros Hx. apply Hmf. rewrite E. by apply elem_of_remove.
  - intros x Hx. assert (x = m ∨ x ∈ l1 ++ c :: l2) as [->|Hx'].
    { apply elem_of_app in Hx as [Hx|[->|Hx]%elem_of_cons]; [right; apply H10| by left|right; apply H10];
        rewrite E; apply elem_of_app; [by left|right; by apply list_elem_of_further]. }
    + clear. mem.
    + clear -Hx'. mem.
  - apply (apart_insert fl); [done|done| | |].
    + intros Hx. apply Hmn, list_elem_of_further, elem_of_app. by left.
    + intros Hx. apply Hcn. assert (c ≠ m) by lia. clear -Hx H. mem.
    + intros x Hx Hxf. rewrite E. apply elem_of_remove. clear -Hx Hxf. mem.
Qed.

(** Freeing, first step: the free chunk [d] after [c] is merged into [c]. *)
Lemma ok_merge_up l1 c d l2 f1 f2 :
  bs = l1 ++ c :: d :: l2 → c ∉ fl → fl = f1 ++ d :: f2 →
  words s s'
    (over c (NBno s d) (over d (Z.land (fld NBLOCK s d) (Z.lxor UMM_FREELIST_MASK 0xFFFFFFFF)) (fld NBLOCK s)))
    (over (NBno s d) c (fld PBLOCK s)) (over (fld PFREE s d) (fld NFREE s d) (fld NFREE s))
    (over (fld NFREE s d) (fld PFREE s d) (fld PFREE s)) →
  heap_ok s' (l1 ++ c :: l2) (f1 ++ f2) ∧ NBno s' c = NBno s d ∧
  (∀ a, a ≠ c → a ≠ d → NBno s' a = NBno s a).
Proof.
  intros Eb Hcf E (Wb & Wn & WN & WP & WF & WG).
  pose proof (ok_free_nodup Hok) as Hd0. pose proof (ok_nodup _ _ _ Hok) as Hd. rewrite E in Hd, Hd0.
  pose proof Hd as Hd'. apply nodup_middle in Hd' as [Hdn Hd'].
  pose proof (ok_chain_nodup Hok) as Hcd. rewrite Eb, <- app_assoc in Hcd. simpl in Hcd.
  assert (c ∈ bs ∧ d ∈ bs) as [Hcb Hdb] by (rewrite Eb; clear; split; mem).
  pose proof (ok_range Hok c Hcb) as Hrc. pose proof (ok_range Hok d Hdb) as Hrd.
  destruct (ok_next_chunk Hok _ _ _ Eb) as (Hcd' & _ & Hlt). simpl in Hcd'.
  assert (fld NBLOCK s' c = pack (NBno s d) false) as HNc by (rewrite WN, over_eq, pack_false; done).
  assert (NBno s' c = NBno s d) as HBc by (eapply no_of_next; [exact HNc|apply NBno_range]).
  assert (∀ a, a ≠ c → a ≠ d → NBno s' a = NBno s a) as HB.
  { intros a Ha1 Ha2. apply no_same. by rewrite WN, !over_ne. }
  assert (∀ a, a ∈ 0 :: l1 ++ c :: l2 → a ≠ d) as Hnd.
  { intros a Ha ->. clear -Hcd Ha. apply NoDup_cons in Hcd as [H0 Hcd].
    rewrite (cons_middle c), app_assoc in Hcd. apply nodup_middle in Hcd as [Hn _]. mem. }
  split; [|done].
  destruct Hok as [H1 H2 H3 H4 H5 H6 H7 H8 H9 H10 H11]. rewrite Eb in *. split; rewrite ?Wb, ?Wn; try done.
  - by destruct l1.
  - rewrite <- app_assoc in H4 |- *. simpl in H4 |- *.
    by apply sorted_remove in H4.
  - apply (chain_merge (NBno s) (fld PBLOCK s) _ _ 0 l1 c d l2); try done.
    intros a Ha. case_decide; [by subst|]. apply HB; [done|]. by apply Hnd.
  - intros b Hb. destruct (decide (b = c)) as [->|Hbc].
    { rewrite HNc, HBc. f_equal. symmetry. apply bool_decide_eq_false.
      intros Hx. apply Hcf. rewrite E. by apply elem_of_remove. }
    specialize (Hnd b Hb). rewrite WN, !over_ne, HB by done. rewrite H6.
    + f_equal. apply bool_decide_ext. rewrite E. clear -Hnd. split; mem.
    + clear -Hb. mem.
  - rewrite WN, !over_ne; [done|lia|lia].
  - apply (cyc_remove (fld NFREE s) (fld PFREE s) _ _ f1 d f2); [by rewrite <- E|done| |].
    + intros a _. apply WF.
    + intros a _. apply WG.
  - intros x Hx. assert (x ∈ l1 ++ c :: d :: l2) as Hxb.
    { apply H10. rewrite E. by apply elem_of_remove. }
    assert (x ≠ d) by (by intros ->). clear -Hxb H. mem.
  - apply (apart_remove fl _ _ _ d); [done| |].
    + intros x Hx. rewrite E. by apply elem_of_remove.
    + intros e _ [Hx _]. apply Hcf. rewrite E. by apply elem_of_remove.
Qed.

(** Freeing, second step: [c] is merged into the free chunk [p] before it. *)
Lemma ok_merge_down l1 p c l2 :
  bs = l1 ++ p :: c :: l2 → p ∈ fl → c ∉ fl → NBno s c ∉ fl →
  words s s' (over p (Z.lor (NBno s c) UMM_FREELIST_MASK) (fld NBLOCK s))
    (over (NBno s c) p (fld PBLOCK s)) (fld NFREE s) (fld PFREE s) →
  heap_ok s' (l1 ++ p :: l2) fl ∧ NBno s' p = NBno s c ∧ (∀ a, a ≠ p → NBno s' a = NBno s a).
Proof.
  intros Eb Hpf Hcf Hnf (Wb & Wn & WN & WP & WF & WG).
  pose proof (ok_chain_nodup Hok) as Hcd. rewrite Eb, <- app_assoc in Hcd. simpl in Hcd.
  assert (c ∈ bs ∧ p ∈ bs) as [Hcb Hpb] by (rewrite Eb; clear; split; mem).
  pose proof (ok_range Hok p Hpb) as Hrp.
  assert (NBno s c = List.hd (umm_numblocks s - 1) l2) as Hhd.
  { apply (ok_next_chunk Hok (l1 ++ [p])). by rewrite <- app_assoc. }
  assert (fld NBLOCK s' p = pack (NBno s c) true) as HNp
    by (rewrite WN, over_eq, pack_lor; [done|apply NBno_range|done]).
  assert (NBno s' p = NBno s c) as HBp by (eapply no_of_next; [exact HNp|apply NBno_range]).
  assert (∀ a, a ≠ p → NBno s' a = NBno s a) as HB.
  { intros a Ha. apply no_same. by rewrite WN, over_ne. }
  split; [|done].
  destruct Hok as [H1 H2 H3 H4 H5 H6 H7 H8 H9 H10 H11]. rewrite Eb in *. split; rewrite ?Wb, ?Wn; try done.
  - by destruct l1.
  - rewrite <- app_assoc in H4 |- *. simpl in H4 |- *.
    by apply sorted_remove in H4.
  - apply (chain_merge (NBno s) (fld PBLOCK s) _ _ 0 l1 p c l2); try done.
    intros a Ha. case_decide; [by subst|]. by apply HB.
  - intros b Hb. destruct (decide (b = p)) as [->|Hbp].
    { rewrite HNp, HBp. f_equal. symmetry. by apply bool_decide_eq_true. }
    rewrite WN, over_ne, HB by done. apply H6. clear -Hb. mem.
  - rewrite WN, over_ne; [done|lia].
  - apply (seg_ext (fld NFREE s) (fld PFREE s)); [intros; apply WF|intros; apply WG|done].
  - intros x Hx. assert (x ≠ c) as Hne by by intros ->. pose proof (H10 x Hx) as Hxb. clear -Hxb Hne. mem.
  - apply (apart_remove fl _ _ _ c); [done|done|].
    intros e He [_ Hx]. apply Hnf. rewrite Hhd. destruct l2; [done|]. by injection He as ->.
Qed.

(** Freeing, the other second step: [c] becomes the head of the free list. *)
Lemma ok_push l1 c l2 :
  bs = l1 ++ c :: l2 → c ∉ fl → List.last l1 0 ∉ fl → NBno s c ∉ fl →
  words s s' (over c (Z.lor (NBno s c) UMM_FREELIST_MASK) (fld NBLOCK s)) (fld PBLOCK s)
    (over 0 c (over c (fld NFREE s 0) (fld NFREE s)))
    (over c 0 (over (fld NFREE s 0) c (fld PFREE s))) →
  heap_ok s' bs (c :: fl) ∧ (∀ a, NBno s' a = NBno s a).
Proof.
  intros Eb Hcf Hpf Hnf (Wb & Wn & WN & WP & WF & WG).
  assert (c ∈ bs) as Hcb by (rewrite Eb; clear; mem).
  pose proof (ok_range Hok c Hcb) as Hrc. pose proof (ok_free_nodup Hok) as Hd.
  destruct (ok_next_chunk Hok _ _ _ Eb) as (Hhd & _ & _).
  assert (fld NBLOCK s' c = pack (NBno s c) true) as HNc
    by (rewrite WN, over_eq, pack_lor; [done|apply NBno_range|done]).
  assert (∀ a, NBno s' a = NBno s a) as HB.
  { intros a. destruct (decide (a = c)) as [->|].
    - eapply no_of_next; [exact HNc|apply NBno_range].
    - apply no_same. by rewrite WN, over_ne. }
  split; [|done].
  destruct Hok as [H1 H2 H3 H4 H5 H6 H7 H8 H9 H10 H11]. split; rewrite ?Wb, ?Wn; try done.
  - apply (seg_ext (NBno s) (fld PBLOCK s)); [intros; apply HB|intros; apply WP|done].
  - intros b Hb. rewrite HB. destruct (decide (b = c)) as [->|Hbc].
    { rewrite HNc. f_equal. symmetry. apply bool_decide_eq_true, list_elem_of_here. }
    rewrite WN, over_ne, H6 by done. f_equal. apply bool_decide_ext. rewrite elem_of_cons. tauto.
  - rewrite WN, over_ne; [done|lia].
  - apply (cyc_insert (fld NFREE s) (fld PFREE s)); [done| | |].
    + apply NoDup_cons in Hd as [Hd1 Hd2]. apply NoDup_cons. split; [|by apply NoDup_cons].
      rewrite not_elem_of_cons. split; [lia|done].
    + intros a. rewrite WF. done.
    + intros a. rewrite WG. done.
  - by apply NoDup_cons.
  - intros x [->|Hx]%elem_of_cons; [done|]. by apply H10.
  - rewrite Eb in H11 |- *. rewrite Hhd in Hnf. apply (apart_push fl _ _ _ (umm_numblocks s - 1)); try done.
    apply sorted_nodup. rewrite <- Eb. apply StronglySorted_inv in H4 as [H4 _].
    by apply StronglySorted_app_1_l in H4.
Qed.
End Preserve.
