(* ===== verification/UmmTheorems.v ===== *)
(** * UmmMalloc: specifications of initialisation, allocation and freeing *)

From Stdlib Require Import ZArith Lia.
From stdpp Require Import base gmap list sorting.
From S2P Require Import Prelude.
From S2P Require Import UmmLinks.
From S2P Require Import UmmMalloc.
From S2P Require Import UmmProofs.
From S2P Require Import UmmInv.

Open Scope Z_scope.

(** ** Initialisation *)

Lemma init_ok base s :
  0 < base → base + UMM_MALLOC_CFG_HEAP_SIZE < 2 ^ 64 →
  ∃ s', UmmSetHeap base s = Some (tt, s') ∧ heap_ok s' [1] [1] ∧ default_umm_heap s' = base.
Proof.
  intros Hb Hb2. unfold UmmSetHeap, umm_init.
  set (s0 := mkUmm base (umm_heap s) 0x200000).
  rewrite !bind_modify, bind_gets. cbv beta zeta. cbn [default_umm_heap umm_heap umm_numblocks].
  change (UMM_MALLOC_CFG_HEAP_SIZE / sizeof_umm_block) with 0x200000. fold s0.
  change (wrap32 (0x200000 - 1)) with 0x1FFFFF.
  assert (in_heap s0 0 = true) as H0 by done. assert (in_heap s0 1 = true) as H1 by done.
  assert (in_heap s0 0x1FFFFF = true) as HL by done.
  run. eexists. split; [reflexivity|]. split; [|done].
  change (Z.lor 0x1FFFFF UMM_FREELIST_MASK) with (pack 0x1FFFFF true).
  split; cbn [default_umm_heap umm_numblocks upd s0]; try done.
  - repeat constructor.
  - unfold NBno. cbn [seg]. flds. repeat split.
  - intros b [->|[->|Hb'%not_elem_of_nil]%elem_of_cons]%elem_of_cons; [| |done];
      unfold NBno; flds; done.
  - flds. done.
  - cbn [seg]. flds. done.
  - constructor; [|constructor]. apply not_elem_of_nil.
Qed.

(** ** The search of [UmmMalloc] *)

Definition csize (s : UmmState) (c : Z) : Z := NBno s c - c.

Lemma sorted_length l lo hi :
  StronglySorted Z.lt l → (∀ x, x ∈ l → lo ≤ x < hi) → lo ≤ hi → Z.of_nat (length l) ≤ hi - lo.
Proof.
  intros Hs. revert lo. induction Hs as [|a l Hs IH Hf]; intros lo Hr Hle; simpl; [lia|].
  pose proof (Hr a (list_elem_of_here _ _)) as Ha.
  rewrite Forall_forall in Hf. specialize (IH (a + 1)).
  assert (Z.of_nat (length l) ≤ hi - (a + 1)); [|lia]. apply IH; [|lia].
  intros x Hx. specialize (Hf x Hx). specialize (Hr x (list_elem_of_further _ _ _ Hx)). lia.
Qed.

Section Search.
Context {s : UmmState} {bs fl : list Z} (Hok : heap_ok s bs fl).

Lemma csize_bound c : c ∈ bs → 0 < csize s c < 0x200000.
Proof.
  intros Hc. pose proof (ok_range Hok c Hc) as Hr. pose proof (ok_numblocks Hok) as Hn.
  apply list_elem_of_split in Hc as (l1 & l2 & E).
  destruct (ok_next_chunk Hok _ _ _ E) as (_ & Hin & Hlt). unfold csize.
  apply elem_of_app in Hin as [Hin%(ok_range Hok)|Hin%list_elem_of_singleton]; lia.
Qed.

Lemma free_list_length : (length fl < Z.to_nat (umm_numblocks s))%nat.
Proof.
  pose proof (ok_numblocks Hok) as Hn.
  assert (length fl ≤ length bs)%nat as Hle.
  { apply submseteq_length, NoDup_submseteq; [apply (ok_nodup _ _ _ Hok)|apply (ok_sub _ _ _ Hok)]. }
  pose proof (ok_sorted _ _ _ Hok) as Hs. apply StronglySorted_inv in Hs as [Hs _].
  apply StronglySorted_app_1_l in Hs.
  pose proof (sorted_length bs 1 (umm_numblocks s - 1) Hs) as Hb.
  assert (Z.of_nat (length bs) ≤ umm_numblocks s - 1 - 1); [|lia]. apply Hb; [|lia].
  intros x Hx%(ok_range Hok). lia.
Qed.

(** What the search knows after visiting the free chunks [l]. *)
Definition searched (blocks : Z) (l : list Z) (v : Search) : Prop :=
  (bestSize v = 0x7FFFFFFF ∧ (∀ c, c ∈ l → csize s c < blocks) ∧ blockSize v < blocks) ∨
  (bestBlock v ∈ l ∧ bestSize v = csize s (bestBlock v) ∧ blocks ≤ bestSize v ∧
   ∀ c, c ∈ l → blocks ≤ csize s c → bestSize v ≤ csize s c).

Lemma searched_step blocks l c f v :
  c ∈ bs → searched blocks l v →
  let size := csize s c in
  let better := (blocks <=? size) && (size <? bestSize v) in
  searched blocks (l ++ [c]) {| cf := f; blockSize := size;
    bestBlock := if better then c else bestBlock v; bestSize := if better then size else bestSize v |}.
Proof.
  intros Hc Hs. pose proof (csize_bound c Hc) as Hb. cbn zeta. unfold searched. cbn [blockSize bestBlock bestSize].
  assert (∀ P : Z → Prop, (∀ x, x ∈ l → P x) → P c → ∀ x, x ∈ l ++ [c] → P x) as Hall.
  { intros P H1 H2 x [Hx|Hx%list_elem_of_singleton]%elem_of_app; [by apply H1|by subst]. }
  destruct ((blocks <=? csize s c) && (csize s c <? bestSize v)) eqn:E.
  - zbool. right. split; [apply elem_of_app; right; by apply list_elem_of_singleton|].
    split; [done|]. split; [lia|]. apply (Hall (λ x, blocks ≤ csize s x → csize s c ≤ csize s x)); [|done]. intros x Hx Hbx.
    destruct Hs as [(Hs & Hn & _)|(_ & _ & _ & Hmin)]; [specialize (Hn x Hx); lia|].
    specialize (Hmin x Hx Hbx). lia.
  - apply andb_false_iff in E. destruct Hs as [(Hs & Hn & _)|(Hin & Heq & Hge & Hmin)].
    + left. split; [done|]. assert (csize s c < blocks) by (destruct E; zbool; lia).
      split; [|done]. by apply (Hall (λ x, csize s x < blocks)).
    + right. split; [apply elem_of_app; by left|]. split; [done|]. split; [done|].
      apply (Hall (λ x, blocks ≤ csize s x → bestSize v ≤ csize s x)); [done|]. intros Hbx. destruct E; zbool; lia.
Qed.

Lemma best_fit_ok blocks rest visited fuel v :
  fl = visited ++ rest → cf v = List.hd 0 rest → (length rest < fuel)%nat → searched blocks visited v →
  ∃ v', best_fit fuel blocks v s = Some (v', s) ∧ cf v' = 0 ∧ searched blocks fl v'.
Proof.
  revert visited fuel v. induction rest as [|c rest IH]; intros visited fuel v E Hcf Hfuel Hs;
    (destruct fuel as [|fuel]; [simpl in Hfuel; lia|]); cbn [best_fit List.hd] in *; rewrite Hcf.
  - exists v. rewrite app_nil_r in E. subst visited. done.
  - assert (c ∈ fl) as Hc by (rewrite E; apply elem_of_app; right; apply list_elem_of_here).
    pose proof (ok_sub _ _ _ Hok c Hc) as Hcb. pose proof (ok_range Hok c Hcb) as Hr.
    pose proof (csize_bound c Hcb) as Hsz.
    assert ((c =? 0) = false) as -> by (apply Z.eqb_neq; lia).
    assert (in_heap s c = true) as Hi.
    { apply (ok_in_heap Hok), (ok_free_in Hok). by apply list_elem_of_further. }
    run. fold (NBno s c). fold (csize s c). rewrite (wrap32_small (csize s c)) by lia.
    apply (IH (visited ++ [c])).
    + by rewrite <- app_assoc.
    + simpl. pose proof (ok_free _ _ _ Hok) as Hsg. rewrite E in Hsg. apply seg_app in Hsg as [_ Hsg].
      by apply seg_first_eq in Hsg.
    + simpl in Hfuel. lia.
    + by apply searched_step.
Qed.
End Search.

(** ** Chunks in use *)

Definition used (bs fl : list Z) (b : Z) : Prop := b ∈ bs ∧ b ∉ fl.

(** The words that belong to the user of chunk [b]: the body of its first block
    and the whole of its other blocks. *)
Definition data_word (s : UmmState) (b : Z) (f : umm_field) (a : Z) : Prop :=
  (a = b ∧ (f = NFREE ∨ f = PFREE)) ∨ b < a < NBno s b.

(** Chunk [b] keeps its size and the contents of its data. *)
Definition same_chunk (s s' : UmmState) (b : Z) : Prop :=
  NBno s' b = NBno s b ∧ ∀ f a, data_word s b f a → fld f s' a = fld f s a.

Lemma same_chunk_trans s1 s2 s3 b : same_chunk s1 s2 b → same_chunk s2 s3 b → same_chunk s1 s3 b.
Proof.
  intros [E1 H1] [E2 H2]. split; [congruence|]. intros f a Ha. rewrite H2, H1; [done|done|].
  unfold data_word in *. by rewrite E1.
Qed.

(** Header words change at the starts of chunks only, links at free chunks only,
    apart from the blocks [m] and [c]. *)
Lemma same_chunk_words s s' bs fl N P F G b c m :
  heap_ok s bs fl → words s s' N P F G → used bs fl b → b ≠ c → c ∈ bs → NBno s' b = NBno s b →
  (m = c ∨ c < m < NBno s c) →
  (∀ a, a ∉ 0 :: bs ++ [umm_numblocks s - 1] → a ≠ m → N a = fld NBLOCK s a ∧ P a = fld PBLOCK s a) →
  (∀ a, a ∉ 0 :: fl → a ≠ m → a ≠ c → F a = fld NFREE s a ∧ G a = fld PFREE s a) →
  same_chunk s s' b.
Proof.
  intros Hok (_ & _ & WN & WP & WF & WG) [Hb Hbf] Hbc Hc Hsz Hm HNP HFG. split; [done|].
  assert (∀ a, b < a < NBno s b → a ∉ 0 :: bs ++ [umm_numblocks s - 1]) as Hin.
  { intros a Ha Hx. by apply (ok_gap Hok b a Hb Hx). }
  assert (∀ x, x ∈ bs → x ∈ 0 :: bs ++ [umm_numblocks s - 1]) as Hbs.
  { intros x Hx. apply list_elem_of_further, elem_of_app. by left. }
  assert (∀ a, b < a < NBno s b → a ≠ m ∧ a ≠ c) as Hne.
  { intros a Ha. assert (a ≠ c) as Hac by (intros ->; by apply (Hin c Ha), Hbs). split; [|done].
    destruct Hm as [->|Hm]; [done|]. intros ->.
    pose proof (ok_gap Hok b c Hb (Hbs c Hc)). pose proof (ok_gap Hok c b Hc (Hbs b Hb)). lia. }
  assert (b ≠ m) as Hbm.
  { destruct Hm as [->|Hm]; [done|]. intros <-. by apply (ok_gap Hok c b Hc (Hbs b Hb)). }
  assert (b ≠ 0) as Hb0 by (pose proof (ok_range Hok b Hb); lia).
  intros f a [[-> Hf]|Ha].
  - destruct (HFG b) as [E1 E2]; [by rewrite not_elem_of_cons|done|done|].
    destruct Hf as [-> | ->]; congruence.
  - destruct (Hne a Ha) as [Ham Hac]. destruct (HNP a (Hin a Ha) Ham) as [E1 E2].
    destruct (HFG a) as [E3 E4]; [|done|done|].
    + intros Hx. apply (Hin a Ha). by apply (ok_free_in Hok).
    + destruct f; congruence.
Qed.

(** ** Allocation *)

Lemma umm_blocks_range size : 0 < size < 2 ^ 32 → 1 ≤ umm_blocks size < 2 ^ 31.
Proof.
  intros Hs. unfold umm_blocks, sizeof_body, sizeof_umm_block. case_match; zbool; [lia|].
  rewrite (wrap32_small (size - _)) by lia. rewrite wrap32_small by lia. lia.
Qed.

Lemma used_split l1 c l2 f1 f2 m b :
  c ∉ f1 ++ f2 → m ∉ l1 ++ c :: l2 → m ≠ c →
  used (l1 ++ c :: m :: l2) (f1 ++ m :: f2) b ↔ used (l1 ++ c :: l2) (f1 ++ c :: f2) b ∨ b = c.
Proof.
  unfold used. rewrite !elem_of_app, !elem_of_cons. intros Hc Hm Hmc.
  destruct (decide (b = c)) as [->|]; [|destruct (decide (b = m)) as [->|]; tauto].
  split; [tauto|]. intros _. split; [tauto|]. intros [?|[?|?]]; [tauto|congruence|tauto].
Qed.

Section Malloc.
Context {s : UmmState} {bs fl : list Z} (Hok : heap_ok s bs fl).

Lemma over_out (c v : Z) (f : Z → Z) (l : list Z) (a : Z) : a ∉ l → c ∈ l → over c v f a = f a.
Proof. intros Ha Hc. apply over_ne. by intros ->. Qed.

(** Taking a free chunk of exactly the right size. *)
Lemma malloc_exact c :
  c ∈ fl →
  ∃ s' fl', umm_disconnect_from_free_list c s = Some (tt, s') ∧ heap_ok s' bs fl' ∧
    default_umm_heap s' = default_umm_heap s ∧ csize s' c = csize s c ∧
    (∀ b, used bs fl' b ↔ used bs fl b ∨ b = c) ∧ (∀ b, used bs fl b → same_chunk s s' b).
Proof.
  intros Hc. pose proof Hc as (f1 & f2 & E)%list_elem_of_split.
  destruct (ok_free_links Hok _ _ _ E) as (Hp & Hn & Hpc & Hnc).
  pose proof (ok_free_in Hok) as Hfi. pose proof (ok_in_heap Hok) as Hi.
  destruct (disconnect_words s c _ _ eq_refl eq_refl) as (s' & Hs' & W); auto.
  { by apply Hi, Hfi, list_elem_of_further. }
  destruct (ok_disconnect Hok _ _ _ E W) as [HN Hok']. exists s', (f1 ++ f2).
  pose proof (ok_nodup _ _ _ Hok) as Hd. rewrite E in Hd. apply nodup_middle in Hd as [Hcn _].
  split; [done|]. split; [done|]. split; [apply W|]. split; [unfold csize; by rewrite HN|]. split.
  - intros b. unfold used. rewrite E, !elem_of_app, elem_of_cons.
    destruct (decide (b = c)) as [->|]; [|tauto]. rewrite elem_of_app in Hcn.
    pose proof (ok_sub _ _ _ Hok c Hc). tauto.
  - intros b Hb. apply (same_chunk_words s s' bs fl _ _ _ _ b c c Hok W Hb); auto.
    + intros ->. by destruct Hb.
    + by apply (ok_sub _ _ _ Hok).
    + intros a Ha Hac. by rewrite over_ne.
    + intros a Ha _ _. rewrite !(over_out _ _ _ (0 :: fl)) by done. done.
Qed.

Lemma alloc_split_words c blocks m d p n :
  wrap32 (c + blocks) = m → Z.land (fld NBLOCK s c) UMM_BLOCKNO_MASK = d →
  fld PFREE s c = p → fld NFREE s c = n →
  in_heap s c = true → in_heap s m = true → in_heap s d = true → in_heap s p = true → in_heap s n = true →
  c ≠ m → c ≠ p → c ≠ n → m ≠ n →
  ∃ s', umm_alloc_split c blocks s = Some (tt, s') ∧
    words s s' (over c m (over m (Z.lor d UMM_FREELIST_MASK) (fld NBLOCK s)))
      (over d m (over m c (fld PBLOCK s)))
      (over m n (over p m (fld NFREE s))) (over n m (over m p (fld PFREE s))).
Proof.
  intros Hm Hd Hp Hn Hc Him Hid Hip Hin Hcm Hcp Hcn Hmn. unfold umm_alloc_split.
  destruct (split_words s c blocks m d) as (s1 & E1 & W1); try done.
  rewrite (bind_eq _ _ _ _ _ E1). cbv zeta. rewrite Hm. pose proof W1 as (Wb & Wn & WN & WP & WF & WG).
  assert (∀ a, in_heap s1 a = in_heap s a) as Hi by (intros; by eapply words_in_heap).
  rewrite <- Hi in Hc, Him, Hip, Hin.
  assert (fld PFREE s1 c = p) as Ep by by rewrite WG. assert (fld NFREE s1 c = n) as En by by rewrite WF.
  run. rewrite Ep. run. rewrite ?Ep. run. rewrite ?En. run. rewrite ?En. run.
  eexists. split; [reflexivity|]. repeat split; try done; intros a; rewrite ?fld_upd; cbn [field_eqb]; unfold over.
  - by rewrite WN. 
  - by rewrite WP.
  - by rewrite WF.
  - by rewrite WG.
Qed.

(** Splitting a larger free chunk. *)
Lemma malloc_split c blocks :
  c ∈ fl → 1 ≤ blocks < csize s c →
  ∃ s' bs' fl', umm_alloc_split c blocks s = Some (tt, s') ∧ heap_ok s' bs' fl' ∧
    default_umm_heap s' = default_umm_heap s ∧ csize s' c = blocks ∧
    (∀ b, used bs' fl' b ↔ used bs fl b ∨ b = c) ∧ (∀ b, used bs fl b → same_chunk s s' b).
Proof.
  intros Hc Hbl. unfold csize in Hbl. set (m := c + blocks). pose proof Hc as (f1 & f2 & E)%list_elem_of_split.
  pose proof (ok_sub _ _ _ Hok c Hc) as Hcb. pose proof (csize_bound Hok c Hcb) as Hsz. unfold csize in Hsz.
  pose proof (ok_range Hok c Hcb) as Hr. pose proof (ok_numblocks Hok) as Hnum.
  destruct (ok_free_links Hok _ _ _ E) as (Hp & Hn & Hpc & Hnc).
  pose proof (ok_free_in Hok) as Hfi. pose proof (ok_in_heap Hok) as Hi.
  pose proof Hcb as (k1 & k2 & Ek)%list_elem_of_split.
  destruct (ok_next_chunk Hok _ _ _ Ek) as (_ & Hin & _).
  assert (NBno s c ≤ umm_numblocks s - 1) as HleL.
  { pose proof Hin as Hin'. apply elem_of_app in Hin' as [Hin'%(ok_range Hok)|Hin'%list_elem_of_singleton]; lia. }
  assert (c < m < NBno s c) as Hm by (unfold m; lia).
  assert (m ∉ 0 :: bs ++ [umm_numblocks s - 1]) as Hmn by (intros Hx; by apply (ok_gap Hok c m Hcb Hx)).
  destruct (alloc_split_words c blocks m (NBno s c) _ _ ltac:(apply wrap32_small; lia) eq_refl eq_refl eq_refl)
    as (s' & Hs' & W); auto.
  { by apply Hi, Hfi, list_elem_of_further. }
  { unfold in_heap. apply andb_true_iff. split; [apply Z.leb_le|apply Z.ltb_lt]; lia. }
  { by apply Hi, list_elem_of_further. }
  { lia. }
  { intros Hx. apply Hmn. rewrite Hx. by apply Hfi. }
  destruct (ok_split Hok f1 c f2 m E Hm W) as (l1 & l2 & Eb & Hok' & Hc' & Hm' & Hsame).
  exists s', (l1 ++ c :: m :: l2), (f1 ++ m :: f2). split; [done|]. split; [done|]. split; [apply W|].
  split; [unfold csize; rewrite Hc'; unfold m; lia|].
  pose proof (ok_nodup _ _ _ Hok) as Hd. rewrite E in Hd. apply nodup_middle in Hd as [Hcn _].
  assert (m ∉ bs) as Hmb by (intros Hx; apply Hmn, list_elem_of_further, elem_of_app; by left).
  split.
  - intros b. rewrite E, Eb. apply used_split; [done|by rewrite <- Eb|lia].
  - intros b Hb. assert (b ≠ c) as Hbc by (intros ->; by destruct Hb).
    assert (b ≠ m) as Hbm by (intros ->; by destruct Hb).
    apply (same_chunk_words s s' bs fl _ _ _ _ b c m Hok W Hb); auto.
    + intros a Ha Ham. rewrite !over_ne; try done; intros ->; apply Ha; [|].
      * by apply list_elem_of_further.
      * apply list_elem_of_further, elem_of_app. by left.
    + intros a Ha Ham _. rewrite (over_ne m), (over_out (fld PFREE s c) _ _ (0 :: fl)) by done.
      by rewrite (over_out (fld NFREE s c) _ _ (0 :: fl)), (over_ne m).
Qed.
End Malloc.

Section Malloc2.
Context {s : UmmState} {bs fl : list Z} (Hok : heap_ok s bs fl).

Lemma ok_initialized : UmmInitialized s = true.
Proof.
  unfold UmmInitialized. apply negb_true_iff, Z.eqb_neq. pose proof (ok_base _ _ _ Hok). lia.
Qed.

Lemma data_ptr_small c : 0 ≤ c < umm_numblocks s →
  data_ptr (default_umm_heap s) c = default_umm_heap s + 16 * c + 8.
Proof.
  intros Hc. pose proof (ok_base _ _ _ Hok). pose proof (ok_numblocks Hok).
  unfold data_ptr, sizeof_umm_block, UMM_MALLOC_CFG_HEAP_SIZE in *. rewrite wrap64_small; lia.
Qed.

(** The outcome of a successful allocation of [blocks] blocks at chunk [c]. *)
Definition allocated_at (blocks c : Z) (s' : UmmState) : Prop :=
  ∃ bs' fl', heap_ok s' bs' fl' ∧ default_umm_heap s' = default_umm_heap s ∧ csize s' c = blocks ∧
    (∀ b, used bs' fl' b ↔ used bs fl b ∨ b = c) ∧ (∀ b, used bs fl b → same_chunk s s' b).

Lemma search_ok blocks :
  1 ≤ blocks →
  ∃ v, best_fit (Z.to_nat (umm_numblocks s)) blocks
      {| cf := fld NFREE s 0; blockSize := 0; bestBlock := fld NFREE s 0; bestSize := 0x7FFFFFFF |} s = Some (v, s)
    ∧ cf v = 0 ∧ searched (s:=s) blocks fl v.
Proof.
  intros Hb. apply (best_fit_ok Hok blocks fl []); [done| |apply (free_list_length Hok)|].
  - pose proof (ok_free _ _ _ Hok) as Hs. by apply seg_first_eq in Hs.
  - left. simpl. split; [done|]. split; [|lia]. by intros c ?%not_elem_of_nil.
Qed.

Lemma malloc_spec size :
  0 < size < 2 ^ 32 →
  let blocks := umm_blocks size in
  ∃ r s', UmmMalloc size s = Some (r, s') ∧
    ((r = 0 ∧ s' = s ∧ ∀ c, c ∈ fl → csize s c < blocks) ∨
     (∃ c, c ∈ fl ∧ r = default_umm_heap s + 16 * c + 8 ∧ blocks ≤ csize s c ∧
        (∀ c', c' ∈ fl → blocks ≤ csize s c' → csize s c ≤ csize s c') ∧ allocated_at blocks c s')).
Proof.
  intros Hsize blocks. pose proof (umm_blocks_range size Hsize) as Hbl. fold blocks in Hbl.
  pose proof (ok_numblocks Hok) as Hnum.
  assert (in_heap s 0 = true) as H0 by (apply (ok_in_heap Hok), list_elem_of_here).
  unfold UmmMalloc. rewrite bind_gets, ok_initialized. cbn [negb].
  assert ((size =? 0) = false) as -> by (apply Z.eqb_neq; lia). fold blocks.
  run. destruct (search_ok blocks) as (v & Hv & Hcf & Hs); [lia|].
  rewrite (bind_eq _ _ _ _ _ Hv). destruct Hs as [(Hbest & Hnone & Hsz)|(Hin & Heq & Hge & Hmin)].
  - rewrite Hbest, Hcf. cbn [Z.eqb Pos.eqb]. run.
    assert ((blocks <=? blockSize v) = false) as -> by (apply Z.leb_gt; lia).
    rewrite andb_false_r. exists 0, s. split; [done|]. by left.
  - pose proof (ok_sub _ _ _ Hok _ Hin) as Hcb. pose proof (csize_bound Hok _ Hcb) as Hcs.
    pose proof (ok_range Hok _ Hcb) as Hr.
    assert ((bestSize v =? 0x7FFFFFFF) = false) as -> by (apply Z.eqb_neq; lia).
    rewrite Heq in *. set (c := bestBlock v) in *.
    assert (in_heap s c = true) as Hic by by apply (ok_in_heap Hok), (ok_free_in Hok), list_elem_of_further.
    run. fold (NBno s c). assert ((NBno s c =? 0) = false) as -> by (apply Z.eqb_neq; unfold csize in *; lia).
    assert ((blocks <=? csize s c) = true) as -> by (apply Z.leb_le; lia). cbn [negb andb].
    assert (∃ s', (if csize s c =? blocks then umm_disconnect_from_free_list c else umm_alloc_split c blocks) s
      = Some (tt, s') ∧ allocated_at blocks c s') as (s' & Hrun & Hal).
    { destruct (Z.eqb_spec (csize s c) blocks) as [E|E].
      - destruct (malloc_exact Hok c Hin) as (s' & fl' & ? & ? & ? & ? & ? & ?).
        exists s'. split; [done|]. exists bs, fl'. rewrite <- E. done.
      - destruct (malloc_split Hok c blocks Hin) as (s' & bs' & fl' & ? & ?); [lia|].
        exists s'. split; [done|]. by exists bs', fl'. }
    rewrite (bind_eq _ _ _ _ _ Hrun). rewrite bind_gets.
    exists (data_ptr (default_umm_heap s') c), s'. split; [done|]. right. exists c. split; [done|].
    destruct Hal as (bs' & fl' & Hal). pose proof Hal as (_ & Hbase & _).
    split; [rewrite Hbase; apply data_ptr_small; lia|]. split; [done|]. split; [done|]. by exists bs', fl'.
Qed.
End Malloc2.

(** ** Freeing *)

Lemma used_merge l1 c d l2 f1 f2 b :
  NoDup (f1 ++ d :: f2) → NoDup (l1 ++ c :: d :: l2) →
  used (l1 ++ c :: l2) (f1 ++ f2) b ↔ used (l1 ++ c :: d :: l2) (f1 ++ d :: f2) b.
Proof.
  intros [Hf _]%nodup_middle Hb. rewrite (cons_middle c), app_assoc in Hb. apply nodup_middle in Hb as [Hb _].
  unfold used. rewrite !elem_of_app, !elem_of_cons, ?elem_of_nil in *.
  destruct (decide (b = d)) as [->|]; tauto.
Qed.

Lemma used_down l1 p c l2 fl b :
  NoDup (l1 ++ p :: c :: l2) → c ∉ fl →
  used (l1 ++ p :: l2) fl b ↔ used (l1 ++ p :: c :: l2) fl b ∧ b ≠ c.
Proof.
  intros Hd Hc. rewrite (cons_middle p), app_assoc in Hd. apply nodup_middle in Hd as [Hd _].
  unfold used. rewrite !elem_of_app, !elem_of_cons, ?elem_of_nil in *.
  destruct (decide (b = c)) as [->|]; tauto.
Qed.

Section Free.
Context {s : UmmState} {bs fl : list Z} (Hok : heap_ok s bs fl).

Lemma next_word_used c : used bs fl c → fld NBLOCK s c = NBno s c.
Proof.
  intros [Hc Hcf]. rewrite (ok_next _ _ _ Hok) by by apply list_elem_of_further.
  rewrite bool_decide_eq_false_2 by done. by rewrite pack_false.
Qed.

(** The free bit of the chunk that starts at [x], or of the end block. *)
Lemma free_bit x : x ∈ 0 :: bs ++ [umm_numblocks s - 1] →
  negb (Z.land (fld NBLOCK s x) UMM_FREELIST_MASK =? 0) = bool_decide (x ∈ fl).
Proof.
  intros Hx. assert (x ∈ 0 :: bs ∨ x = umm_numblocks s - 1) as [Hb| ->].
  { rewrite elem_of_cons, elem_of_app, list_elem_of_singleton in *. tauto. }
  - rewrite (ok_next _ _ _ Hok) by done. apply pack_free, NBno_range.
  - rewrite (ok_last _ _ _ Hok), bool_decide_eq_false_2; [done|].
    intros ?%(ok_sub _ _ _ Hok)%(ok_range Hok). lia.
Qed.

Lemma first_free_in : fld NFREE s 0 ∈ 0 :: fl.
Proof.
  pose proof (ok_free _ _ _ Hok) as Hs. apply seg_first in Hs.
  apply elem_of_app in Hs as [Hs|Hs%list_elem_of_singleton]; [by apply list_elem_of_further|].
  rewrite Hs. apply list_elem_of_here.
Qed.

(** The chunk after a free chunk is in use. *)
Lemma next_not_free d : d ∈ fl → NBno s d ∉ fl.
Proof.
  intros Hd Hx. pose proof (ok_sub _ _ _ Hok d Hd) as (l1 & l2 & Eb)%list_elem_of_split.
  destruct (ok_next_chunk Hok _ _ _ Eb) as (E & _ & _). rewrite E in Hx.
  destruct l2 as [|e l2]; simpl in Hx.
  - apply (ok_sub _ _ _ Hok), (ok_range Hok) in Hx. lia.
  - pose proof (ok_apart _ _ _ Hok) as Ha. rewrite Eb in Ha.
    apply adj_app in Ha as [_ [Ha _]]. by apply Ha.
Qed.

(** [umm_assimilate_up] on a used chunk: afterwards the next chunk is in use. *)
Lemma assimilate_up_ok c :
  used bs fl c →
  ∃ s' bs' fl', umm_assimilate_up c s = Some (tt, s') ∧ heap_ok s' bs' fl' ∧
    default_umm_heap s' = default_umm_heap s ∧
    used bs' fl' c ∧ (NBno s' c ∉ fl') ∧
    (∀ b, used bs' fl' b ↔ used bs fl b) ∧ (∀ b, used bs fl b → b ≠ c → same_chunk s s' b).
Proof.
  intros Hu. pose proof Hu as [Hc Hcf]. pose proof Hc as (l1 & l2 & Eb)%list_elem_of_split.
  pose proof (next_word_used c Hu) as Hnw. destruct (ok_next_chunk Hok _ _ _ Eb) as (Hhd & Hin & Hlt).
  pose proof (ok_in_heap Hok) as Hi. pose proof (ok_free_in Hok) as Hfi.
  assert (in_heap s c = true) as Hic by (apply Hi, list_elem_of_further, elem_of_app; by left).
  assert (in_heap s (NBno s c) = true) as Hid by by apply Hi, list_elem_of_further.
  destruct (decide (NBno s c ∈ fl)) as [Hdf|Hdf].
  - destruct l2 as [|d l2].
    { simpl in Hhd. rewrite Hhd in Hdf. apply (ok_sub _ _ _ Hok), (ok_range Hok) in Hdf. lia. }
    simpl in Hhd. rewrite Hhd in *. pose proof Hdf as (f1 & f2 & Ef)%list_elem_of_split.
    destruct (ok_free_links Hok _ _ _ Ef) as (Hp & Hn & Hpc & Hnc).
    assert (bs = (l1 ++ [c]) ++ d :: l2) as Eb' by by rewrite <- app_assoc.
    destruct (ok_next_chunk Hok _ _ _ Eb') as (_ & Hin2 & Hlt2).
    assert (d ∈ bs) as Hdb by by apply (ok_sub _ _ _ Hok).
    assert (Z.land (Z.land (fld NBLOCK s d) (Z.lxor UMM_FREELIST_MASK 0xFFFFFFFF)) UMM_BLOCKNO_MASK = NBno s d) as He.
    { rewrite (ok_next _ _ _ Hok) at 1 by by apply list_elem_of_further.
      rewrite pack_clear by apply NBno_range. apply land_no, NBno_range. }
    assert (negb (Z.land (fld NBLOCK s d) UMM_FREELIST_MASK =? 0) = true) as Hfb.
    { rewrite free_bit by by apply list_elem_of_further. by apply bool_decide_eq_true. }
    destruct (assimilate_up_words s c d (NBno s d) _ _ Hnw Hfb He eq_refl eq_refl) as (s' & Hs' & W); auto.
    { by apply Hi, list_elem_of_further. }
    { lia. }
    destruct (ok_merge_up Hok _ _ _ _ _ _ Eb Hcf Ef W) as (Hok' & Hc' & Hsame).
    exists s', (l1 ++ c :: l2), (f1 ++ f2). split; [done|]. split; [done|]. split; [apply W|].
    assert (∀ b, used (l1 ++ c :: l2) (f1 ++ f2) b ↔ used bs fl b) as Hused.
    { intros b. rewrite Eb, Ef. apply used_merge; [by rewrite <- Ef; apply (ok_nodup _ _ _ Hok)|].
      rewrite <- Eb. apply (ok_bs_nodup Hok). }
    split; [by apply Hused|]. split; [|split; [done|]].
    + rewrite Hc'. intros Hx. apply (next_not_free d Hdf). rewrite Ef. by apply elem_of_remove.
    + intros b Hb Hbc. assert (b ≠ d) as Hbd by (intros ->; by destruct Hb).
      apply (same_chunk_words s s' bs fl _ _ _ _ b c c Hok W Hb); auto.
      * intros a Ha Hac. rewrite !over_ne; [done| | |done]; intros ->; apply Ha.
        -- by apply list_elem_of_further.
        -- apply list_elem_of_further, elem_of_app. by left.
      * intros a Ha _ _. rewrite !(over_out _ _ _ (0 :: fl)) by done. done.
  - exists s, bs, fl. split; [|do 5 (split; [done|]); by split].
    unfold umm_assimilate_up. run. rewrite Hnw. run.
    rewrite free_bit, bool_decide_eq_false_2 by (done || by apply list_elem_of_further). done.
Qed.
End Free.

Section Free2.
Context {s : UmmState} {bs fl : list Z} (Hok : heap_ok s bs fl).

(** The second half of [UmmFree], on a used chunk [c] whose next chunk is in use. *)
Definition free_rest (c : Z) : M UmmState bool :=
  p ← UMM_PBLOCK c;
  n ← UMM_NBLOCK p;
  if negb (Z.land n UMM_FREELIST_MASK =? 0) then
    umm_assimilate_down c UMM_FREELIST_MASK;;
    mret true
  else
    f ← UMM_NFREE 0;
    put PFREE f c;;
    f ← UMM_NFREE 0;
    put NFREE c f;;
    put PFREE c 0;;
    put NFREE 0 c;;
    n ← UMM_NBLOCK c;
    put NBLOCK c (Z.lor n UMM_FREELIST_MASK);;
    mret true.

Lemma push_words c :
  in_heap s c = true → in_heap s 0 = true → in_heap s (fld NFREE s 0) = true → c ≠ 0 → c ≠ fld NFREE s 0 →
  in_heap s (fld PBLOCK s c) = true →
  negb (Z.land (fld NBLOCK s (fld PBLOCK s c)) UMM_FREELIST_MASK =? 0) = false →
  ∃ s', free_rest c s = Some (true, s') ∧
    words s s' (over c (Z.lor (fld NBLOCK s c) UMM_FREELIST_MASK) (fld NBLOCK s)) (fld PBLOCK s)
      (over 0 c (over c (fld NFREE s 0) (fld NFREE s)))
      (over c 0 (over (fld NFREE s 0) c (fld PFREE s))).
Proof.
  intros Hc H0 Hn Hc0 Hcn Hp Hf. unfold free_rest. run. rewrite Hf. run.
  eexists. split; [reflexivity|]. words_tac.
Qed.

Lemma down_words c p :
  fld PBLOCK s c = p → in_heap s c = true → in_heap s p = true → in_heap s (fld NBLOCK s c) = true →
  c ≠ p → c ≠ fld NBLOCK s c →
  negb (Z.land (fld NBLOCK s p) UMM_FREELIST_MASK =? 0) = true →
  ∃ s', free_rest c s = Some (true, s') ∧
    words s s' (over p (Z.lor (fld NBLOCK s c) UMM_FREELIST_MASK) (fld NBLOCK s))
      (over (fld NBLOCK s c) p (fld PBLOCK s)) (fld NFREE s) (fld PFREE s).
Proof.
  intros Hp Hc Hip Hin Hcp Hcn Hf. unfold free_rest. run. rewrite Hp. run. rewrite Hf.
  destruct (assimilate_down_words s c p _ Hp eq_refl) as (s' & E & W); auto.
  rewrite (bind_eq _ _ _ _ _ E). by exists s'.
Qed.

Lemma free_rest_ok c :
  used bs fl c → NBno s c ∉ fl →
  ∃ s' bs' fl', free_rest c s = Some (true, s') ∧ heap_ok s' bs' fl' ∧
    default_umm_heap s' = default_umm_heap s ∧
    (∀ b, used bs' fl' b ↔ used bs fl b ∧ b ≠ c) ∧ (∀ b, used bs fl b → b ≠ c → same_chunk s s' b).
Proof.
  intros Hu Hnf. pose proof Hu as [Hc Hcf]. pose proof Hc as (l1 & l2 & Eb)%list_elem_of_split.
  pose proof (next_word_used Hok c Hu) as Hnw. destruct (ok_next_chunk Hok _ _ _ Eb) as (Hhd & Hin & Hlt).
  pose proof (ok_in_heap Hok) as Hi. pose proof (ok_prev_chunk Hok _ _ _ Eb) as Hp.
  pose proof (ok_range Hok c Hc) as Hr.
  assert (∀ x, x ∈ bs → x ∈ 0 :: bs ++ [umm_numblocks s - 1]) as Hbs.
  { intros x Hx. apply list_elem_of_further, elem_of_app. by left. }
  assert (in_heap s c = true) as Hic by by apply Hi, Hbs.
  assert (in_heap s (fld NBLOCK s c) = true) as Hid by (rewrite Hnw; by apply Hi, list_elem_of_further).
  assert (List.last l1 0 ∈ 0 :: bs ++ [umm_numblocks s - 1]) as Hlast2.
  { rewrite Eb. destruct l1 as [|w l1 _] using rev_ind; [apply list_elem_of_here|]. rewrite last_last.
    clear. mem. }
  pose proof (free_bit Hok _ Hlast2) as Hfb. rewrite <- Hp in Hfb, Hlast2.
  case_bool_decide as Hpf; rewrite Hp in Hpf.
  - (* merge into the free chunk before *)
    destruct l1 as [|p l1 _] using rev_ind.
    { simpl in Hpf. by apply (ok_zero_not_free Hok) in Hpf. }
    rewrite last_last in *. rewrite <- app_assoc in Eb. simpl in Eb.
    destruct (down_words c p Hp) as (s' & Hs' & W); auto; [| |lia|by rewrite Hp in Hfb|].
    { apply Hi. by rewrite <- Hp. }
    { intros <-. done. }
    rewrite Hnw in W. destruct (ok_merge_down Hok _ _ _ _ Eb Hpf Hcf Hnf W) as (Hok' & Hp' & Hsame).
    exists s', (l1 ++ p :: l2), fl. split; [done|]. split; [done|]. split; [apply W|]. split.
    + intros b. rewrite Eb. apply used_down; [|done]. rewrite <- Eb. apply (ok_bs_nodup Hok).
    + intros b Hb Hbc. assert (b ≠ p) as Hbp by (intros ->; by destruct Hb).
      apply (same_chunk_words s s' bs fl _ _ _ _ b c c Hok W Hb); auto.
      intros a Ha Hac. rewrite !over_ne; [done| |]; intros ->; apply Ha.
      * by apply list_elem_of_further.
      * apply Hbs, (ok_sub _ _ _ Hok), Hpf.
  - destruct (push_words c) as (s' & Hs' & W); auto.
    { apply Hi, list_elem_of_here. }
    { apply Hi, (ok_free_in Hok), (first_free_in Hok). }
    { lia. }
    { intros E. pose proof (first_free_in Hok) as Hf. rewrite <- E in Hf.
      apply elem_of_cons in Hf as [|]; [lia|done]. }
    rewrite Hnw in W. destruct (ok_push Hok _ _ _ Eb Hcf Hpf Hnf W) as (Hok' & Hsame).
    exists s', bs, (c :: fl). split; [done|]. split; [done|]. split; [apply W|]. split.
    + intros b. unfold used. rewrite elem_of_cons. tauto.
    + intros b Hb Hbc. apply (same_chunk_words s s' bs fl _ _ _ _ b c c Hok W Hb); auto.
      * intros a Ha Hac. by rewrite over_ne.
      * intros a Ha _ Hac. pose proof (first_free_in Hok).
        rewrite (over_out 0 _ _ (0 :: fl)), (over_ne c), (over_ne c), (over_out _ _ _ (0 :: fl));
          done || apply list_elem_of_here.
Qed.
End Free2.
