(* ===== verification/UmmSpec.v ===== *)
(** * UmmMalloc: what clients of the allocator get

    The allocator as a state machine: its clients allocate, free pointers they hold
    and write to the memory they hold.  The theorems hold in every state that can
    be reached this way from [UmmSetHeap]. *)

From Stdlib Require Import ZArith Lia.
From stdpp Require Import base gmap list sorting relations.
From S2P Require Import Prelude.
From S2P Require Import UmmLinks.
From S2P Require Import UmmMalloc.
From S2P Require Import UmmProofs.
From S2P Require Import UmmInv.
From S2P Require Import UmmTheorems.

Open Scope Z_scope.

(** ** Lemmas *)

Section Ok.
Context {s : UmmState} {bs fl : list Z} (Hok : heap_ok s bs fl).

Lemma free_spec c :
  used bs fl c →
  ∃ s' bs' fl', UmmFree (default_umm_heap s + 16 * c + 8) s = Some (true, s') ∧ heap_ok s' bs' fl' ∧
    default_umm_heap s' = default_umm_heap s ∧
    (∀ b, used bs' fl' b ↔ used bs fl b ∧ b ≠ c) ∧ (∀ b, used bs fl b → b ≠ c → same_chunk s s' b).
Proof.
  intros Hu. pose proof (ok_base _ _ _ Hok) as Hb. pose proof (ok_numblocks Hok) as Hn.
  destruct Hu as [Hc Hcf]. pose proof (ok_range Hok c Hc) as Hr.
  unfold UMM_MALLOC_CFG_HEAP_SIZE in *. unfold UmmFree, UMM_MALLOC_CFG_HEAP_SIZE, sizeof_umm_block.
  rewrite bind_gets, (ok_initialized Hok). cbn [negb].
  assert ((default_umm_heap s + 16 * c + 8 =? 0) = false) as -> by (apply Z.eqb_neq; lia).
  rewrite bind_gets.
  assert ((default_umm_heap s + 16 * c + 8 <? default_umm_heap s) = false) as -> by (apply Z.ltb_ge; lia).
  assert ((wrap64 (default_umm_heap s + 33554432) <=? default_umm_heap s + 16 * c + 8) = false) as ->.
  { rewrite wrap64_small by lia. apply Z.leb_gt. lia. }
  cbn [orb]. cbv zeta.
  assert (wrap32 ((default_umm_heap s + 16 * c + 8 - default_umm_heap s) / 16) = c) as ->
    by (rewrite wrap32_small; lia).
  destruct (assimilate_up_ok Hok c (conj Hc Hcf)) as (s1 & bs1 & fl1 & E1 & Hok1 & Hb1 & Hu1 & Hn1 & Hs1 & Hf1).
  rewrite (bind_eq _ _ _ _ _ E1).
  destruct (free_rest_ok Hok1 c Hu1 Hn1) as (s2 & bs2 & fl2 & E2 & Hok2 & Hb2 & Hs2 & Hf2).
  exists s2, bs2, fl2. split; [exact E2|]. split; [done|]. split; [congruence|]. split.
  - intros b. by rewrite Hs2, Hs1.
  - intros b Hub Hbc. eapply same_chunk_trans; [by apply Hf1|]. apply Hf2; [by apply Hs1|done].
Qed.

(** Writing to the data of a used chunk does not touch the heap structure. *)
Lemma ok_client_write b f a v :
  used bs fl b → data_word s b f a →
  heap_ok (upd f v a s) bs fl ∧ ∀ x, x ∈ 0 :: bs → NBno (upd f v a s) x = NBno s x.
Proof.
  intros [Hb Hbf] Hw. pose proof (ok_range Hok b Hb) as Hr.
  assert (∀ x, x ∈ 0 :: bs ++ [umm_numblocks s - 1] → (f = NBLOCK ∨ f = PBLOCK) → x ≠ a) as H1.
  { intros x Hx Hf ->. destruct Hw as [[_ Hw]|Hw]; [destruct Hf, Hw; congruence|].
    by apply (ok_gap Hok b a Hb Hx). }
  assert (∀ x, x ∈ 0 :: fl → x ≠ a) as H2.
  { intros x Hx ->. destruct Hw as [[-> _]|Hw].
    - apply elem_of_cons in Hx as [|]; [lia|done].
    - by apply (ok_gap Hok b a Hb (ok_free_in Hok _ Hx)). }
  assert (∀ x, x ∈ 0 :: bs ++ [umm_numblocks s - 1] → fld NBLOCK (upd f v a s) x = fld NBLOCK s x) as HN.
  { intros x Hx. rewrite fld_upd. destruct f; try done. cbn [field_eqb]. rewrite decide_False; auto. }
  assert (∀ x, x ∈ 0 :: bs ++ [umm_numblocks s - 1] → fld PBLOCK (upd f v a s) x = fld PBLOCK s x) as HP.
  { intros x Hx. rewrite fld_upd. destruct f; try done. cbn [field_eqb]. rewrite decide_False; auto. }
  assert (∀ x, x ∈ 0 :: fl → fld NFREE (upd f v a s) x = fld NFREE s x ∧ fld PFREE (upd f v a s) x = fld PFREE s x) as HF.
  { intros x Hx. rewrite !fld_upd. destruct f; cbn [field_eqb]; rewrite ?decide_False; auto. }
  assert (∀ x, x ∈ 0 :: bs → x ∈ 0 :: bs ++ [umm_numblocks s - 1]) as Hsub by (intros; mem).
  assert (∀ x, x ∈ 0 :: bs → NBno (upd f v a s) x = NBno s x) as HB.
  { intros x Hx. unfold NBno. by rewrite HN by auto. }
  split; [|done]. destruct Hok as [K1 K2 K3 K4 K5 K6 K7 K8 K9 K10 K11]. split; cbn [upd default_umm_heap umm_numblocks]; try done.
  - apply (seg_ext (NBno s) (fld PBLOCK s)); [done| |done]. intros x Hx. apply HP. by apply list_elem_of_further.
  - intros x Hx. rewrite HN, HB by auto. by apply K6.
  - rewrite HN; [done|]. clear. mem.
  - apply (seg_ext (fld NFREE s) (fld PFREE s)); [| |done]; intros x Hx; apply HF; [done|].
    clear -Hx. mem.
Qed.

(** With no chunk in use, everything is one free chunk again. *)
Lemma all_free : (∀ b, ¬ used bs fl b) → bs = [1] ∧ fl = [1].
Proof.
  intros Hu. assert (∀ b, b ∈ bs → b ∈ fl) as Hf.
  { intros b Hb. destruct (decide (b ∈ fl)); [done|]. by destruct (Hu b). }
  pose proof (ok_first _ _ _ Hok) as H1. destruct bs as [|x [|y l]] eqn:E; simpl in H1; [done| |].
  - subst x. split; [done|]. pose proof (ok_sub _ _ _ Hok) as Hsub. pose proof (ok_nodup _ _ _ Hok) as Hd.
    pose proof (Hf 1 (list_elem_of_here _ _)) as Hin.
    destruct fl as [|a [|b fl']]; [by apply not_elem_of_nil in Hin| |].
    + specialize (Hsub a (list_elem_of_here _ _)). apply list_elem_of_singleton in Hsub. by subst.
    + pose proof (Hsub a ltac:(clear; mem)) as ->%list_elem_of_singleton.
      pose proof (Hsub b ltac:(clear; mem)) as ->%list_elem_of_singleton.
      apply NoDup_cons in Hd as [Hd _]. exfalso. apply Hd. clear. mem.
  - destruct (ok_apart _ _ _ Hok) as [Ha _]. exfalso. apply Ha. split; apply Hf; clear; mem.
Qed.
End Ok.

(** ** Clients *)

(** The allocator and the pointers its clients hold. *)
Definition Client : Type := UmmState * list Z.

(** The chunk of a pointer. *)
Definition chunk_of (s : UmmState) (p : Z) : Z := (p - default_umm_heap s) / 16.

(** The number of bytes from [p] to the end of its chunk. *)
Definition region_size (s : UmmState) (p : Z) : Z := 16 * csize s (chunk_of s p) - 8.

Inductive client_step : Client → Client → Prop :=
  | client_malloc s live size p s' :
      0 ≤ size < 2 ^ 32 → UmmMalloc size s = Some (p, s') →
      client_step (s, live) (s', if p =? 0 then live else p :: live)
  | client_free s l1 p l2 r s' :
      UmmFree p s = Some (r, s') → client_step (s, l1 ++ p :: l2) (s', l1 ++ l2)
  | client_write s live p f a v :
      p ∈ live → data_word s (chunk_of s p) f a → client_step (s, live) (upd f v a s, live).

Definition client_ok (base : Z) (c : Client) : Prop :=
  ∃ bs fl, heap_ok c.1 bs fl ∧ default_umm_heap c.1 = base ∧ NoDup c.2 ∧
    ∀ p, p ∈ c.2 ↔ ∃ b, used bs fl b ∧ p = base + 16 * b + 8.

Lemma chunk_of_ptr s b : chunk_of s (default_umm_heap s + 16 * b + 8) = b.
Proof. unfold chunk_of. lia. Qed.

Lemma client_step_ok base c c' : client_ok base c → client_step c c' → client_ok base c'.
Proof.
  intros (bs & fl & Hok & Hb & Hd & Hl) Hstep. destruct Hstep as [s live size p s' Hsz E|s l1 p l2 r s' E|s live p f a v Hp Hw];
    simpl in *.
  - destruct (decide (size = 0)) as [->|].
    { unfold UmmMalloc in E. rewrite bind_gets, (ok_initialized Hok) in E. injection E as <- <-. by exists bs, fl. }
    destruct (malloc_spec Hok size) as (r & s1 & E1 & H); [lia|]. rewrite E1 in E. simplify_eq.
    destruct H as [(-> & -> & _)|(c & Hc & -> & _ & _ & bs' & fl' & Hok' & Hb' & _ & Hu & _)]; [by exists bs, fl|].
    pose proof (ok_range Hok c (ok_sub _ _ _ Hok c Hc)). pose proof (ok_base _ _ _ Hok).
    assert ((default_umm_heap s + 16 * c + 8 =? 0) = false) as -> by (apply Z.eqb_neq; lia).
    exists bs', fl'. simpl. split; [done|]. split; [done|].
    split.
    + apply NoDup_cons. split; [|done]. rewrite Hl. intros (b & Hub & Eb). assert (b = c) as -> by lia.
      by destruct Hub.
    + intros p. rewrite elem_of_cons, Hl. setoid_rewrite Hu. split.
      * intros [->|(b & ? & ?)]; eauto.
      * intros (b & [?| ->] & ?); eauto.
  - destruct (proj1 (Hl p)) as (c & Hu & ->); [clear; mem|].
    rewrite <- Hb in E. destruct (free_spec Hok c Hu) as (s1 & bs' & fl' & E1 & Hok' & Hb' & Hu' & _).
    rewrite E1 in E. simplify_eq. exists bs', fl'. simpl. apply nodup_middle in Hd as [Hn Hd].
    split; [done|]. split; [done|]. split; [done|]. intros p. setoid_rewrite Hu'.
    assert (p ∈ l1 ++ l2 ↔ p ∈ l1 ++ (default_umm_heap s + 16 * c + 8) :: l2 ∧ p ≠ default_umm_heap s + 16 * c + 8) as ->.
    { split; [|intros [? ?]; mem]. intros Hp. split; [mem|]. by intros ->. }
    rewrite Hl. split.
    + intros [(b & ? & ->) Hne]. exists b. split; [|done]. split; [done|]. by intros ->.
    + intros (b & [? Hne] & ->). split; [eauto|]. lia.
  - destruct (proj1 (Hl p) Hp) as (b & Hu & ->). rewrite <- Hb, chunk_of_ptr in Hw.
    destruct (ok_client_write Hok b f a v Hu Hw) as [Hok' _]. by exists bs, fl.
Qed.

Lemma client_reach_ok base s0 s c :
  0 < base → base + UMM_MALLOC_CFG_HEAP_SIZE < 2 ^ 64 → UmmSetHeap base s0 = Some (tt, s) →
  rtc client_step (s, []) c → client_ok base c.
Proof.
  intros Hb Hb2 E Hr. destruct (init_ok base s0 Hb Hb2) as (s1 & E1 & Hok & Hbase).
  rewrite E1 in E. simplify_eq.
  assert (client_ok (default_umm_heap s) (s, [])) as Hc.
  { exists [1], [1]. simpl. split; [done|]. split; [done|]. split; [constructor|].
    intros p. split; [by intros ?%not_elem_of_nil|]. by intros (b & [? ?] & _). }
  clear -Hr Hc. induction Hr as [|x y z Hxy _ IH]; [done|]. apply IH. by eapply client_step_ok.
Qed.

Lemma region_of base s bs fl b : heap_ok s bs fl → default_umm_heap s = base → b ∈ bs →
  base + 24 ≤ base + 16 * b + 8 ∧ 0 < region_size s (base + 16 * b + 8) ∧
  base + 16 * b + 8 + region_size s (base + 16 * b + 8) = base + 16 * NBno s b ∧
  NBno s b < umm_numblocks s.
Proof.
  intros Hok <- Hb. pose proof (ok_range Hok b Hb). pose proof (csize_bound Hok b Hb) as Hc.
  unfold region_size. rewrite chunk_of_ptr. unfold csize in *.
  apply list_elem_of_split in Hb as (l1 & l2 & Eb). destruct (ok_next_chunk Hok _ _ _ Eb) as (_ & Hin & _).
  assert (NBno s b ≤ umm_numblocks s - 1); [|lia].
  apply elem_of_app in Hin as [Hin%(ok_range Hok)|Hin%list_elem_of_singleton]; lia.
Qed.

(** A state of the allocator and the pointers held, reached from [UmmSetHeap base]. *)
Definition reachable (base : Z) (s : UmmState) (live : list Z) : Prop :=
  0 < base ∧ base + UMM_MALLOC_CFG_HEAP_SIZE < 2 ^ 64 ∧
  ∃ s0 s1, UmmSetHeap base s0 = Some (tt, s1) ∧ rtc client_step (s1, []) (s, live).

Lemma reachable_ok base s live : reachable base s live → client_ok base (s, live).
Proof. intros (Hb & Hb2 & s0 & s1 & E & Hr). by eapply client_reach_ok. Qed.

(** Pointer [q] keeps its region and its contents. *)
Definition undisturbed (s s' : UmmState) (q : Z) : Prop :=
  region_size s' q = region_size s q ∧
  ∀ f a, data_word s (chunk_of s q) f a → fld f s' a = fld f s a.

Lemma same_undisturbed s s' b :
  default_umm_heap s' = default_umm_heap s → same_chunk s s' b →
  undisturbed s s' (default_umm_heap s + 16 * b + 8).
Proof.
  intros Hb [E H]. unfold undisturbed, region_size. rewrite chunk_of_ptr. rewrite <- Hb at 1.
  rewrite chunk_of_ptr. split; [|done]. unfold csize. by rewrite E.
Qed.

Lemma umm_blocks_bytes size :
  0 < size < 2 ^ 32 → size ≤ 16 * umm_blocks size - 8 < size + 16.
Proof.
  intros Hs. unfold umm_blocks, sizeof_body, sizeof_umm_block. case_match; zbool; [lia|].
  rewrite (wrap32_small (size - _)) by lia. rewrite wrap32_small by lia. lia.
Qed.

(** ** Theorems *)

(** C2. In every reachable state no request faults or loops: any size can be
    requested, any held pointer can be freed, and freeing it succeeds.  The memory
    of every held pointer lies inside the pool, and the memories of two held
    pointers are disjoint. *)
Theorem umm_clients_safe (base : Z) (s : UmmState) (live : list Z) :
  reachable base s live →
  (∀ size, 0 ≤ size < 2 ^ 32 → is_Some (UmmMalloc size s)) ∧
  (∀ p, p ∈ live → ∃ s', UmmFree p s = Some (true, s')) ∧
  (∀ p, p ∈ live → base < p ∧ 0 < region_size s p ∧ p + region_size s p ≤ base + UMM_MALLOC_CFG_HEAP_SIZE) ∧
  (∀ p q, p ∈ live → q ∈ live → p ≠ q → p + region_size s p ≤ q ∨ q + region_size s q ≤ p).
Proof.
  intros (bs & fl & Hok & Hb & Hd & Hl)%reachable_ok. simpl in *. split; [|split; [|split]].
  - intros size Hsz. destruct (decide (size = 0)) as [->|].
    + unfold UmmMalloc. rewrite bind_gets, (ok_initialized Hok). by eexists.
    + destruct (malloc_spec Hok size) as (r & s' & -> & _); [lia|]. by eexists.
  - intros p (b & Hu & ->)%Hl. destruct (free_spec Hok b Hu) as (s' & ? & ? & E & _).
    rewrite Hb in E. by exists s'.
  - intros p (b & [Hu _] & ->)%Hl. destruct (region_of base s bs fl b Hok Hb Hu) as (? & ? & E & ?).
    pose proof (ok_numblocks Hok). unfold UMM_MALLOC_CFG_HEAP_SIZE. lia.
  - intros p q (b & [Hub _] & ->)%Hl (c & [Huc _] & ->)%Hl Hne.
    destruct (region_of base s bs fl b Hok Hb Hub) as (_ & _ & E1 & _).
    destruct (region_of base s bs fl c Hok Hb Huc) as (_ & _ & E2 & _). rewrite E1, E2.
    assert (b ∈ 0 :: bs ++ [umm_numblocks s - 1] ∧ c ∈ 0 :: bs ++ [umm_numblocks s - 1]) as [Hxb Hxc] by (split; mem).
    pose proof (ok_gap Hok b c Hub Hxc). pose proof (ok_gap Hok c b Huc Hxb). lia.
Qed.

(** A successful allocation returns a pointer nobody holds, to at least [size]
    and less than [size + 16] bytes, and disturbs no memory held by a client; a
    failed one changes nothing. *)
Theorem umm_malloc_region (base size p : Z) (s s' : UmmState) (live : list Z) :
  reachable base s live → 0 < size < 2 ^ 32 → UmmMalloc size s = Some (p, s') →
  (p = 0 ∧ s' = s) ∨
  (p ∉ live ∧ size ≤ region_size s' p < size + 16 ∧ ∀ q, q ∈ live → undisturbed s s' q).
Proof.
  intros (bs & fl & Hok & Hb & Hd & Hl)%reachable_ok Hsz E. simpl in *. subst base.
  destruct (malloc_spec Hok size Hsz) as (r & s1 & E1 & H). rewrite E1 in E. simplify_eq.
  destruct H as [(-> & -> & _)|(c & Hc & -> & _ & _ & bs' & fl' & Hok' & Hb' & Hcs & Hu & Hsame)]; [by left|right].
  split; [|split].
  - rewrite Hl. intros (b & Hub & Eb). assert (b = c) as -> by lia. by destruct Hub.
  - unfold region_size. rewrite <- Hb' at 2. rewrite <- Hb', chunk_of_ptr, Hcs. by apply umm_blocks_bytes.
  - intros q (b & Hub & ->)%Hl. apply same_undisturbed; [done|]. by apply Hsame.
Qed.

(** The search is a best fit over the whole free list: the request is refused
    only when every free chunk is too small, and otherwise the chunk taken is a
    smallest one among the free chunks that are large enough. *)
Theorem umm_best_fit (s : UmmState) (bs fl : list Z) (size : Z) :
  heap_ok s bs fl → 0 < size < 2 ^ 32 →
  ∃ p s', UmmMalloc size s = Some (p, s') ∧
    if p =? 0 then ∀ c, c ∈ fl → csize s c < umm_blocks size
    else chunk_of s p ∈ fl ∧ umm_blocks size ≤ csize s (chunk_of s p) ∧
      ∀ c, c ∈ fl → umm_blocks size ≤ csize s c → csize s (chunk_of s p) ≤ csize s c.
Proof.
  intros Hok Hsz. destruct (malloc_spec Hok size Hsz) as (p & s' & E & H). exists p, s'. split; [done|].
  destruct H as [(-> & _ & H)|(c & Hc & -> & Hge & Hmin & _)]; [done|].
  pose proof (ok_range Hok c (ok_sub _ _ _ Hok c Hc)). pose proof (ok_base _ _ _ Hok).
  assert ((default_umm_heap s + 16 * c + 8 =? 0) = false) as -> by (apply Z.eqb_neq; lia).
  by rewrite chunk_of_ptr.
Qed.

(** Freeing a held pointer succeeds and disturbs no other held memory. *)
Theorem umm_free_frame (base p : Z) (s : UmmState) (l1 l2 : list Z) :
  reachable base s (l1 ++ p :: l2) →
  ∃ s', UmmFree p s = Some (true, s') ∧ ∀ q, q ∈ l1 ++ l2 → undisturbed s s' q.
Proof.
  intros (bs & fl & Hok & Hb & Hd & Hl)%reachable_ok. simpl in *. subst base.
  destruct (proj1 (Hl p)) as (c & Hu & ->); [clear; mem|].
  destruct (free_spec Hok c Hu) as (s' & bs' & fl' & E & Hok' & Hb' & Hu' & Hsame).
  exists s'. split; [done|]. intros q Hq. destruct (proj1 (Hl q)) as (b & Hub & ->); [clear -Hq; mem|].
  apply same_undisturbed; [done|]. apply Hsame; [done|]. intros ->.
  apply nodup_middle in Hd as [Hn _]. done.
Qed.

(** Nothing is lost to fragmentation: when every pointer has been freed, in any
    order, the largest request the pool can ever serve succeeds again. *)
Theorem umm_recovers (base : Z) (s : UmmState) :
  reachable base s [] →
  ∃ s', UmmMalloc (16 * (UMM_MALLOC_CFG_HEAP_SIZE / sizeof_umm_block - 2) - 8) s = Some (base + 24, s').
Proof.
  intros (bs & fl & Hok & Hb & Hd & Hl)%reachable_ok. simpl in *.
  assert (∀ b, ¬ used bs fl b) as Hu.
  { intros b Hub. by apply (not_elem_of_nil (base + 16 * b + 8)), Hl; exists b. }
  destruct (all_free Hok Hu) as [-> ->].
  assert (csize s 1 = 0x200000 - 2) as Hsz.
  { pose proof (ok_chain _ _ _ Hok) as (_ & _ & E & _). unfold csize. rewrite E, (ok_numblocks Hok). lia. }
  destruct (malloc_spec Hok (16 * (UMM_MALLOC_CFG_HEAP_SIZE / sizeof_umm_block - 2) - 8)) as (p & s' & E & H).
  { vm_compute. done. }
  exists s'. rewrite E. do 2 f_equal.
  destruct H as [(-> & _ & H)|(c & Hc & -> & _)].
  - specialize (H 1 (list_elem_of_here _ _)). rewrite Hsz in H. vm_compute in H. done.
  - apply list_elem_of_singleton in Hc. lia.
Qed.

(** [umm_blocks] is the least number of 16-byte blocks that hold an 8-byte
    header and [size] bytes of data. *)
Theorem umm_blocks_minimal (size b : Z) :
  0 < size < 2 ^ 32 → size ≤ 16 * umm_blocks size - 8 ∧ (size ≤ 16 * b - 8 → umm_blocks size ≤ b).
Proof. intros Hs. pose proof (umm_blocks_bytes size Hs). lia. Qed.

(** A pointer that is not into the pool is left to the firmware: [UmmFree]
    answers FALSE without touching the heap, and [MOFreePool] forwards it. *)
Theorem free_pool_foreign (stored : Z → EFI_STATUS) (s : UmmState) (p : Z) :
  default_umm_heap s = 0 ∨ p < default_umm_heap s ∨ wrap64 (default_umm_heap s + UMM_MALLOC_CFG_HEAP_SIZE) ≤ p →
  UmmFree p s = Some (false, s) ∧ MOFreePool stored p s = Some (stored p, s).
Proof.
  intros H. assert (UmmFree p s = Some (false, s)) as E.
  { unfold UmmFree. rewrite bind_gets. unfold UmmInitialized.
    destruct (Z.eqb_spec (default_umm_heap s) 0) as [|Hb]; [done|]. cbn [negb].
    destruct (p =? 0); [done|]. rewrite bind_gets.
    destruct H as [H|[H|H]]; [done| |].
    - assert ((p <? default_umm_heap s) = true) as -> by (by apply Z.ltb_lt). done.
    - assert ((wrap64 (default_umm_heap s + UMM_MALLOC_CFG_HEAP_SIZE) <=? p) = true) as -> by (by apply Z.leb_le).
      by rewrite orb_true_r. }
  split; [done|]. unfold MOFreePool. by rewrite (bind_eq _ _ _ _ _ E).
Qed.

(** ** A concrete run: two allocations, a write, and both freed *)

Definition demo_base : Z := 0x10000000.
Definition run_unit (m : M UmmState unit) (s : UmmState) : UmmState :=
  match m s with Some (_, s') => s' | None => s end.
Definition run_malloc (size : Z) (s : UmmState) : UmmState :=
  match UmmMalloc size s with Some (_, s') => s' | None => s end.
Definition run_free (p : Z) (s : UmmState) : UmmState :=
  match UmmFree p s with Some (_, s') => s' | None => s end.

Definition demo0 : UmmState := run_unit (UmmSetHeap demo_base) (umm_static ∅).
Definition demo1 : UmmState := run_malloc 100 demo0.
Definition demo2 : UmmState := run_malloc 8 demo1.
Definition demo3 : UmmState := upd NFREE 0xdeadbeef 8 demo2.
Definition demo4 : UmmState := run_free (demo_base + 24) demo3.
Definition demo5 : UmmState := run_free (demo_base + 136) demo4.

Lemma reachable_init s0 : UmmSetHeap demo_base (umm_static ∅) = Some (tt, s0) → reachable demo_base s0 [].
Proof. intros E. repeat split; [by exists (umm_static ∅), s0]. Qed.

Lemma reachable_step s live s' live' :
  reachable demo_base s live → client_step (s, live) (s', live') → reachable demo_base s' live'.
Proof.
  intros (H1 & H2 & s0 & s1 & E & Hr) Hs. split; [done|]. split; [done|]. exists s0, s1. split; [done|].
  by eapply rtc_r.
Qed.

Lemma demo0_reachable : reachable demo_base demo0 [].
Proof. apply reachable_init. vm_compute. reflexivity. Qed.

Lemma demo1_reachable : reachable demo_base demo1 [demo_base + 24].
Proof.
  apply (reachable_step demo0 []); [apply demo0_reachable|].
  apply (client_malloc demo0 [] 100 (demo_base + 24)); [lia|]. vm_compute. reflexivity.
Qed.

Lemma demo2_reachable : reachable demo_base demo2 [demo_base + 136; demo_base + 24].
Proof.
  apply (reachable_step demo1 [demo_base + 24]); [apply demo1_reachable|].
  apply (client_malloc demo1 [demo_base + 24] 8 (demo_base + 136)); [lia|]. vm_compute. reflexivity.
Qed.

Lemma demo3_reachable : reachable demo_base demo3 [demo_base + 136; demo_base + 24].
Proof.
  apply (reachable_step demo2 [demo_base + 136; demo_base + 24]); [apply demo2_reachable|].
  apply (client_write demo2 _ (demo_base + 136)); [apply list_elem_of_here|].
  left. split; [vm_compute; reflexivity|by left].
Qed.

Lemma demo5_reachable : reachable demo_base demo5 [].
Proof.
  apply (reachable_step demo4 [demo_base + 136]).
  - apply (reachable_step demo3 [demo_base + 136; demo_base + 24]); [apply demo3_reachable|].
    apply (client_free demo3 [demo_base + 136] (demo_base + 24) [] true). vm_compute. reflexivity.
  - apply (client_free demo4 [] (demo_base + 136) [] true). vm_compute. reflexivity.
Qed.

Lemma umm_clients_safe_witness :
  (∀ size, 0 ≤ size < 2 ^ 32 → is_Some (UmmMalloc size demo3)) ∧
  (∀ p, p ∈ [demo_base + 136; demo_base + 24] → ∃ s', UmmFree p demo3 = Some (true, s')) ∧
  (∀ p, p ∈ [demo_base + 136; demo_base + 24] →
     demo_base < p ∧ 0 < region_size demo3 p ∧ p + region_size demo3 p ≤ demo_base + UMM_MALLOC_CFG_HEAP_SIZE) ∧
  (∀ p q, p ∈ [demo_base + 136; demo_base + 24] → q ∈ [demo_base + 136; demo_base + 24] → p ≠ q →
     p + region_size demo3 p ≤ q ∨ q + region_size demo3 q ≤ p).
Proof. exact (umm_clients_safe demo_base demo3 _ demo3_reachable). Defined.

Lemma umm_malloc_region_witness :
  (demo_base + 136 = 0 ∧ demo2 = demo1) ∨
  ((demo_base + 136 ∉ [demo_base + 24]) ∧ 8 ≤ region_size demo2 (demo_base + 136) < 8 + 16 ∧
   ∀ q, q ∈ [demo_base + 24] → undisturbed demo1 demo2 q).
Proof.
  apply (umm_malloc_region demo_base 8 (demo_base + 136) demo1 demo2 [demo_base + 24] demo1_reachable).
  - lia.
  - vm_compute. reflexivity.
Defined.

Lemma demo0_ok : heap_ok demo0 [1] [1].
Proof.
  destruct (init_ok demo_base (umm_static ∅)) as (s' & E & Hok & _); [done|done|].
  unfold demo0, run_unit. by rewrite E.
Qed.

Lemma umm_best_fit_witness :
  ∃ p s', UmmMalloc 100 demo0 = Some (p, s') ∧
    if p =? 0 then ∀ c, c ∈ [1] → csize demo0 c < umm_blocks 100
    else chunk_of demo0 p ∈ [1] ∧ umm_blocks 100 ≤ csize demo0 (chunk_of demo0 p) ∧
      ∀ c, c ∈ [1] → umm_blocks 100 ≤ csize demo0 c → csize demo0 (chunk_of demo0 p) ≤ csize demo0 c.
Proof. apply (umm_best_fit demo0 [1] [1] 100 demo0_ok). lia. Defined.

Lemma umm_free_frame_witness :
  ∃ s', UmmFree (demo_base + 24) demo3 = Some (true, s') ∧
    ∀ q, q ∈ [demo_base + 136] ++ [] → undisturbed demo3 s' q.
Proof. exact (umm_free_frame demo_base (demo_base + 24) demo3 [demo_base + 136] [] demo3_reachable). Defined.

Lemma umm_recovers_witness :
  ∃ s', UmmMalloc (16 * (UMM_MALLOC_CFG_HEAP_SIZE / sizeof_umm_block - 2) - 8) demo5 = Some (demo_base + 24, s').
Proof. exact (umm_recovers demo_base demo5 demo5_reachable). Defined.

Lemma umm_blocks_minimal_witness :
  100 ≤ 16 * umm_blocks 100 - 8 ∧ (100 ≤ 16 * 7 - 8 → umm_blocks 100 ≤ 7).
Proof. apply (umm_blocks_minimal 100 7). lia. Defined.

Lemma free_pool_foreign_witness :
  UmmFree 0x1000 demo0 = Some (false, demo0) ∧
  MOFreePool (λ _, EFI_NOT_FOUND) 0x1000 demo0 = Some (EFI_NOT_FOUND, demo0).
Proof. apply (free_pool_foreign (λ _, EFI_NOT_FOUND) demo0 0x1000). right. left. vm_compute. reflexivity. Defined.

(** [MOAllocatePool] narrows the requested size to 32 bits: a request for
    4 GiB + 16 bytes is answered with EFI_SUCCESS and a region of 24 bytes. *)
Theorem allocate_pool_truncates (storedA : EFI_MEMORY_TYPE → Z → EFI_STATUS * Z) :
  ∃ s', MOAllocatePool storedA 1 true EfiBootServicesData (2 ^ 32 + 16) demo0
        = Some ((EFI_SUCCESS, demo_base + 24), s') ∧
    region_size s' (demo_base + 24) = 24.
Proof.
  exists (run_malloc 16 demo0). split; vm_compute; reflexivity.
Qed.
