(* ===== verification/EmuLang.v ===== *)
(** * EmuVariable: language code lists (EmuVariable.c)

    A language list is a NUL-terminated ASCII string, here its characters without
    the NUL.  ISO 639 lists are sequences of three-letter codes, RFC 4646 lists are
    codes separated by semicolons.  [None] in the outer option is an access outside
    the string. *)

From Stdlib Require Import ZArith Lia.
From stdpp Require Import base list list_numbers strings.
From S2P Require Import Prelude.

Open Scope Z_scope.

Definition SEMI : Z := 59.
Definition DASH : Z := 45.
Definition ISO_639_2_ENTRY_SIZE : nat := 3.

(** [while (s[0] == ';') s++]. *)
Fixpoint skip_semi (s : list Z) : list Z :=
  match s with
  | c :: s' => if c =? SEMI then skip_semi s' else s
  | [] => []
  end.

(** The characters up to the next semicolon or the end. *)
Fixpoint token (s : list Z) : list Z :=
  match s with
  | c :: s' => if c =? SEMI then [] else c :: token s'
  | [] => []
  end.

(** [AsciiStrnCmp (a, b, n) == 0]. *)
Definition AsciiStrnEq (a b : list Z) (n : nat) : bool := bool_decide (take n a = take n b).

(** The ISO loop of [GetIndexFromSupportedLangCodes] from offset [index] on. *)
Fixpoint iso_index (fuel : nat) (sup lang : list Z) (index : nat) : Z :=
  match fuel with
  | O => 0
  | S fuel =>
      if (index <? length sup)%nat then
        if AsciiStrnEq lang (drop index sup) ISO_639_2_ENTRY_SIZE then Z.of_nat (index / ISO_639_2_ENTRY_SIZE)
        else iso_index fuel sup lang (index + ISO_639_2_ENTRY_SIZE)
      else 0
  end.

(** The RFC 4646 loop. *)
Fixpoint rfc_index (fuel : nat) (sup lang : list Z) (index : Z) : Z :=
  match fuel, sup with
  | O, _ | _, [] => 0
  | S fuel, _ =>
      let s := skip_semi sup in
      let n := length (token s) in
      if (n =? length lang)%nat && AsciiStrnEq lang s n then index
      else rfc_index fuel (drop n s) lang (index + 1)
  end.

Definition GetIndexFromSupportedLangCodes (SupportedLang Lang : list Z) (Iso639Language : bool) : Z :=
  if Iso639Language then iso_index (S (length SupportedLang)) SupportedLang Lang 0
  else rfc_index (S (length SupportedLang)) SupportedLang Lang 0.

(** The RFC loop of [GetLangFromSupportedLangCodes]; [None] is the NULL result. *)
Fixpoint rfc_lang (fuel : nat) (s : list Z) (subindex index : Z) : option (list Z) :=
  match fuel with
  | O => None
  | S fuel =>
      let t := token s in
      let rest := drop (length t) s in
      if bool_decide (rest = []) && negb (subindex =? index) then None
      else if subindex =? index then Some t
      else rfc_lang fuel (skip_semi rest) (subindex + 1) index
  end.

(** The ISO case copies three bytes at [Index * 3]; the string and its NUL are
    [length + 1] bytes. *)
Definition GetLangFromSupportedLangCodes (SupportedLang : list Z) (Index : Z) (Iso639Language : bool)
    : option (option (list Z)) :=
  if Iso639Language then
    let off := (Z.to_nat Index * ISO_639_2_ENTRY_SIZE)%nat in
    if (length SupportedLang + 1 <? off + ISO_639_2_ENTRY_SIZE)%nat then None
    else Some (Some (take ISO_639_2_ENTRY_SIZE (drop off SupportedLang)))
  else Some (rfc_lang (S (length SupportedLang)) SupportedLang 0 Index).

(** The scan of [SupportedLanguages] for the first [n] characters of [lang]. *)
Fixpoint best_scan (fuel : nat) (iso : bool) (sup lang : list Z) (n : nat) : option (option (list Z)) :=
  match fuel, sup with
  | O, _ | _, [] => Some None
  | S fuel, _ =>
      if iso then
        if AsciiStrnEq sup lang n then
          if (length sup + 1 <? 3)%nat then None else Some (Some (take 3 sup))
        else if (length sup <? 3)%nat then None
        else best_scan fuel iso (drop 3 sup) lang n
      else
        let s := skip_semi sup in
        let t := token s in
        if (length t <? n)%nat then best_scan fuel iso (drop (length t) s) lang n
        else if AsciiStrnEq s lang n then Some (Some t)
        else best_scan fuel iso (drop (length t) s) lang n
  end.

(** [for (n--; n > 0 && lang[n] != '-'; n--)]. *)
Fixpoint trim (lang : list Z) (n : nat) : nat :=
  match n with
  | O => O
  | S n' => match n' with
            | O => O
            | _ => if (lang !!! n' =? DASH)%Z then n' else trim lang n'
            end
  end.

(** The [while (LanguageLength > 0)] loop. *)
Fixpoint best_loop (fuel : nat) (iso : bool) (sup lang : list Z) (n : nat) : option (option (list Z)) :=
  match fuel with
  | O => Some None
  | S fuel =>
      if (n =? 0)%nat then Some None else
      match best_scan (S (length sup)) iso sup lang n with
      | None => None
      | Some (Some t) => Some (Some t)
      | Some None => best_loop fuel iso sup lang (if iso then 0 else trim lang n)
      end
  end.

(** Called with a single language. *)
Definition VariableGetBestLanguage (SupportedLanguages : list Z) (Iso639Language : bool) (Language : list Z)
    : option (option (list Z)) :=
  let n := if Iso639Language then Nat.min 3 (length Language) else length (token Language) in
  best_loop (S n) Iso639Language SupportedLanguages Language n.

(** ** Lemmas *)

(** A list of codes in RFC format. *)
Fixpoint join (ts : list (list Z)) : list Z :=
  match ts with
  | [] => []
  | [t] => t
  | t :: ts => t ++ SEMI :: join ts
  end.

Definition code (t : list Z) : Prop := t ≠ [] ∧ Forall (λ c, c ≠ SEMI) t.

Lemma token_app t s : Forall (λ c, c ≠ SEMI) t → token (t ++ SEMI :: s) = t.
Proof.
  induction 1 as [|c t Hc _ IH]; simpl; [done|]. apply Z.eqb_neq in Hc. by rewrite Hc, IH.
Qed.

Lemma token_all t : Forall (λ c, c ≠ SEMI) t → token t = t.
Proof. induction 1 as [|c t Hc _ IH]; simpl; [done|]. apply Z.eqb_neq in Hc. by rewrite Hc, IH. Qed.

Lemma skip_code t s : code t → skip_semi (t ++ s) = t ++ s.
Proof.
  intros [Hne Hf]. destruct t as [|c t]; [done|]. inversion Hf; subst. simpl.
  apply Z.eqb_neq in H1. by rewrite H1.
Qed.

Lemma skip_join ts : Forall code ts → skip_semi (join ts) = join ts.
Proof.
  destruct 1 as [|t ts Ht _]; [done|]. destruct ts as [|u ts]; simpl join.
  - rewrite <- (app_nil_r t). by apply skip_code.
  - by apply skip_code.
Qed.

Lemma token_join t ts : code t → token (join (t :: ts)) = t.
Proof. intros [_ Ht]. destruct ts; simpl join; [by apply token_all|by apply token_app]. Qed.

Lemma drop_join t ts : drop (length t) (join (t :: ts)) = match ts with [] => [] | _ => SEMI :: join ts end.
Proof. destruct ts; simpl join; [apply drop_all|]. by rewrite drop_app_length. Qed.

Lemma join_length t ts : (length (join ts) < length (join (t :: ts)) ∨ (ts = [] ∧ join (t :: ts) = t))%nat.
Proof. destruct ts; [by right|left]. simpl join. rewrite length_app. simpl. lia. Qed.

Lemma AsciiStrnEq_token lang s n t :
  t = token s → n = length t → t `prefix_of` s →
  (n =? length lang)%nat && AsciiStrnEq lang s n = bool_decide (t = lang).
Proof.
  intros Ht Hn [k Hk]. unfold AsciiStrnEq. subst n.
  assert (take (length t) s = t) as -> by (rewrite Hk; by rewrite take_app_length).
  destruct (Nat.eqb_spec (length t) (length lang)) as [E|E]; simpl.
  - rewrite E, firstn_all. by apply bool_decide_ext.
  - symmetry. apply bool_decide_eq_false. by intros ->.
Qed.

Lemma join_prefix t ts : t `prefix_of` join (t :: ts).
Proof. destruct ts; simpl join; [done|]. by exists (SEMI :: join (l :: ts)). Qed.

Lemma code_nonempty t s : code t → t ++ s ≠ [].
Proof. intros [Ht _] E. by apply app_eq_nil in E as [-> _]. Qed.

(** What follows the first code of a list, as the loops see it. *)
Lemma skip_rest t ts : Forall code (t :: ts) →
  skip_semi (drop (length t) (join (t :: ts))) = join ts.
Proof.
  intros Hc. inversion Hc; subst. rewrite drop_join. destruct ts as [|u ts]; [done|].
  change (skip_semi (join (u :: ts)) = join (u :: ts)). by apply skip_join.
Qed.

Lemma skip_length s : (length (skip_semi s) ≤ length s)%nat.
Proof. induction s as [|c s IH]; simpl; [done|]. case_match; simpl; lia. Qed.

Lemma rest_length t ts s : Forall code (t :: ts) → skip_semi s = join (t :: ts) →
  (length (drop (length t) (join (t :: ts))) < length s)%nat.
Proof.
  intros Hc E. inversion Hc as [|? ? [Ht _] _]; subst. pose proof (skip_length s) as Hl. rewrite E in Hl.
  rewrite length_drop. destruct (join_prefix t ts) as [k Hk]. rewrite Hk, length_app in *.
  destruct t; [done|]. simpl in *. lia.
Qed.

Lemma rfc_index_ok ts fuel s lang k :
  Forall code ts → lang ∈ ts → skip_semi s = join ts → (length s < fuel)%nat →
  ∃ i, rfc_index fuel s lang k = k + Z.of_nat i ∧ ts !! i = Some lang.
Proof.
  revert fuel s k. induction ts as [|t ts IH]; intros fuel s k Hc Hin Hs Hf; [by apply not_elem_of_nil in Hin|].
  destruct fuel as [|fuel]; [lia|]. inversion Hc as [|? ? Ht Hts]; subst.
  destruct s as [|c s]; [simpl in Hs; symmetry in Hs; by destruct ts; simpl join in Hs; [destruct Ht|apply code_nonempty in Hs]|].
  cbn [rfc_index]. rewrite Hs, token_join by done.
  rewrite (AsciiStrnEq_token lang _ _ t) by (done || apply join_prefix || by rewrite token_join).
  case_bool_decide as Ht'.
  - exists 0%nat. subst t. split; [lia|done].
  - destruct (IH fuel (drop (length t) (join (t :: ts))) (k + 1)) as (i & Hi & Hl).
    + done.
    + apply elem_of_cons in Hin as [->|]; done.
    + by apply skip_rest.
    + pose proof (rest_length t ts (c :: s) Hc Hs). lia.
    + exists (S i). split; [lia|done].
Qed.

Lemma rfc_lang_ok ts fuel i sub t :
  Forall code ts → ts !! i = Some t → (length (join ts) < fuel)%nat →
  rfc_lang fuel (join ts) sub (sub + Z.of_nat i) = Some t.
Proof.
  revert fuel i sub. induction ts as [|u ts IH]; intros fuel i sub Hc Hi Hf; [done|].
  destruct fuel as [|fuel]; [lia|]. inversion Hc as [|? ? Hu Hts]; subst.
  cbn [rfc_lang]. rewrite token_join by done. destruct i as [|i].
  - injection Hi as ->. rewrite Z.add_0_r, Z.eqb_refl. by rewrite andb_false_r.
  - simpl in Hi. destruct ts as [|w ts]; [done|].
    assert ((sub =? sub + Z.of_nat (S i)) = false) as -> by (apply Z.eqb_neq; lia).
    rewrite bool_decide_eq_false_2 by (by rewrite drop_join). cbn [andb negb].
    rewrite skip_rest by done. replace (sub + Z.of_nat (S i)) with ((sub + 1) + Z.of_nat i) by lia.
    apply IH; [done|done|]. destruct (join_length u (w :: ts)) as [|[? _]]; [lia|done].
Qed.

Lemma best_scan_ok ts fuel s lang n :
  Forall code ts → skip_semi s = join ts → (length s < fuel)%nat → (0 < n)%nat → (n ≤ length lang)%nat →
  (∃ t, best_scan fuel false s lang n = Some (Some t) ∧ t ∈ ts ∧ take n lang `prefix_of` t) ∨
  (best_scan fuel false s lang n = Some None ∧ ∀ t, t ∈ ts → ¬ take n lang `prefix_of` t).
Proof.
  revert fuel s. induction ts as [|t ts IH]; intros fuel s Hc Hs Hf Hn Hnl.
  { right. split; [|by intros t ?%not_elem_of_nil]. revert s Hs Hf. induction fuel as [|fuel IH]; intros s Hs Hf; [lia|].
    destruct s as [|c s]; [done|]. cbn [best_scan]. rewrite Hs. simpl join. cbn [token length].
    assert ((0 <? n)%nat = true) as -> by (apply Nat.ltb_lt; lia). simpl drop. destruct fuel; done. }
  destruct fuel as [|fuel]; [lia|]. inversion Hc as [|? ? Ht Hts]; subst.
  destruct s as [|c s]; [simpl in Hs; symmetry in Hs; by destruct ts; simpl join in Hs; [destruct Ht|apply code_nonempty in Hs]|].
  cbn [best_scan]. rewrite Hs, token_join by done.
  pose proof (rest_length t ts (c :: s) Hc Hs) as Hlen.
  assert (¬ take n lang `prefix_of` t →
    (∃ t0, best_scan fuel false (drop (length t) (join (t :: ts))) lang n = Some (Some t0) ∧ t0 ∈ t :: ts ∧ take n lang `prefix_of` t0) ∨
    (best_scan fuel false (drop (length t) (join (t :: ts))) lang n = Some None ∧ ∀ t0, t0 ∈ t :: ts → ¬ take n lang `prefix_of` t0)) as Hnext.
  { intros Hnp. destruct (IH fuel (drop (length t) (join (t :: ts)))) as [(t0 & E & Hin & Hp)|[E Hno]]; try done.
    - by apply skip_rest.
    - lia.
    - left. exists t0. split; [done|]. split; [by apply list_elem_of_further|done].
    - right. split; [done|]. intros t0 [->|?]%elem_of_cons; [done|]. by apply Hno. }
  destruct (join_prefix t ts) as [k Hk].
  destruct (Nat.ltb_spec (length t) n) as [Hlt|Hge].
  - apply Hnext. intros Hp%prefix_length. rewrite length_take in Hp. lia.
  - unfold AsciiStrnEq. assert (take n (join (t :: ts)) = take n t) as ->.
    { rewrite Hk, take_app_le by lia. done. }
    case_bool_decide as He.
    + left. exists t. split; [done|]. split; [apply list_elem_of_here|]. rewrite <- He.
      exists (drop n t). by rewrite take_drop.
    + apply Hnext. intros [k' Hk']. apply He. rewrite Hk', take_app_le by (rewrite length_take; lia).
      rewrite take_take. f_equal. lia.
Qed.

(** ** Theorems *)

(** For an RFC 4646 list of non-empty codes, the index [GetIndexFromSupported-
    LangCodes] computes for one of the codes is the index of that code, and
    [GetLangFromSupportedLangCodes] maps the index back to the code. *)
Theorem lang_index_roundtrip (ts : list (list Z)) (t : list Z) :
  Forall code ts → t ∈ ts →
  ∃ i, GetIndexFromSupportedLangCodes (join ts) t false = Z.of_nat i ∧ ts !! i = Some t ∧
    GetLangFromSupportedLangCodes (join ts) (Z.of_nat i) false = Some (Some t).
Proof.
  intros Hc Hin. destruct (rfc_index_ok ts (S (length (join ts))) (join ts) t 0) as (i & Hi & Hl);
    [done|done|by apply skip_join|lia|].
  exists i. split; [done|]. split; [done|]. cbn [GetLangFromSupportedLangCodes]. f_equal.
  apply (rfc_lang_ok ts _ i 0 t); [done|done|lia].
Qed.

Lemma lang_index_roundtrip_witness :
  ∃ i, GetIndexFromSupportedLangCodes (join [str_bytes "en"; str_bytes "fr"; str_bytes "en-US"]) (str_bytes "en-US") false
         = Z.of_nat i ∧
    [str_bytes "en"; str_bytes "fr"; str_bytes "en-US"] !! i = Some (str_bytes "en-US") ∧
    GetLangFromSupportedLangCodes (join [str_bytes "en"; str_bytes "fr"; str_bytes "en-US"]) (Z.of_nat i) false
      = Some (Some (str_bytes "en-US")).
Proof.
  apply (lang_index_roundtrip [str_bytes "en"; str_bytes "fr"; str_bytes "en-US"] (str_bytes "en-US")).
  - repeat constructor; done.
  - apply list_elem_of_further, list_elem_of_further, list_elem_of_here.
Defined.

Lemma trim_lt lang n : (trim lang (S n) ≤ n)%nat.
Proof.
  induction n as [|n IH]; [done|].
  change (trim lang (S (S n))) with (if lang !!! S n =? DASH then S n else trim lang (S n)).
  case_match; lia.
Qed.

Lemma best_loop_ok ts fuel lang n :
  Forall code ts → (n < fuel)%nat → (n ≤ length lang)%nat →
  ∃ r, best_loop fuel false (join ts) lang n = Some r ∧
    match r with
    | Some t => t ∈ ts ∧ ∃ m, (0 < m ≤ n)%nat ∧ take m lang `prefix_of` t
    | None => (0 < n)%nat → ∀ t, t ∈ ts → ¬ take n lang `prefix_of` t
    end.
Proof.
  intros Hc. revert n. induction fuel as [|fuel IH]; intros n Hf Hn; [lia|]. cbn [best_loop].
  destruct (Nat.eqb_spec n 0) as [->|Hn0]; [exists None; split; [done|lia]|].
  destruct (best_scan_ok ts (S (length (join ts))) (join ts) lang n) as [(t & -> & Hin & Hp)|[-> Hno]];
    [done|by apply skip_join|lia|lia|done| |].
  - exists (Some t). split; [done|]. split; [done|]. exists n. split; [lia|done].
  - destruct n as [|n]; [done|]. pose proof (trim_lt lang n) as Ht.
    destruct (IH (trim lang (S n))) as (r & -> & Hr); [lia|lia|]. exists r. split; [done|].
    destruct r as [t|].
    + destruct Hr as (Hin & m & Hm & Hp). split; [done|]. exists m. split; [lia|done].
    + intros _. done.
Qed.

(** On an RFC 4646 list of non-empty codes [VariableGetBestLanguage] never reads
    outside the strings; a language it returns is one of the supported codes and
    shares a non-empty prefix with the requested language; when it returns NULL no
    supported code starts with the requested language. *)
Theorem best_language_supported (ts : list (list Z)) (Language : list Z) :
  Forall code ts → Forall (λ c, c ≠ SEMI) Language → Language ≠ [] →
  ∃ r, VariableGetBestLanguage (join ts) false Language = Some r ∧
    match r with
    | Some t => t ∈ ts ∧ ∃ m, (0 < m ≤ length Language)%nat ∧ take m Language `prefix_of` t
    | None => ∀ t, t ∈ ts → ¬ Language `prefix_of` t
    end.
Proof.
  intros Hc Hl Hne. unfold VariableGetBestLanguage. cbn zeta. rewrite token_all by done.
  destruct (best_loop_ok ts (S (length Language)) Language (length Language) Hc) as (r & E & Hr); [lia|lia|].
  exists r. split; [done|]. destruct r; [done|]. rewrite firstn_all in Hr. apply Hr.
  destruct Language; [done|]. simpl. lia.
Qed.

Lemma best_language_supported_witness :
  ∃ r, VariableGetBestLanguage (join [str_bytes "en-US"; str_bytes "fr"]) false (str_bytes "en-GB") = Some r ∧
    match r with
    | Some t => t ∈ [str_bytes "en-US"; str_bytes "fr"] ∧
        ∃ m, (0 < m ≤ length (str_bytes "en-GB"))%nat ∧ take m (str_bytes "en-GB") `prefix_of` t
    | None => ∀ t, t ∈ [str_bytes "en-US"; str_bytes "fr"] → ¬ str_bytes "en-GB" `prefix_of` t
    end.
Proof.
  apply (best_language_supported [str_bytes "en-US"; str_bytes "fr"] (str_bytes "en-GB")).
  - repeat constructor; done.
  - repeat constructor; done.
  - done.
Defined.
