(* ===== verification/EmuVariable.v ===== *)
(** * EmuVariable: the emulated UEFI variable services (EmuVariable.c, InitVariable.c)

    The two variable stores are byte arrays: the memory from the base of the store
    on, which is longer than the store itself, since the code may look at the bytes
    behind it.  Pointers into a store are offsets from its base (bases are
    multiples of 4, so that aligning an address is aligning the offset).  A read or
    write outside the array is undefined behaviour.  PCDs (build configuration) are
    a record; the lists of languages and the statistics find memory; the lock around the
    services has no effect on a sequential run. *)

From Stdlib Require Import ZArith Lia.
From stdpp Require Import base list list_numbers strings.
From S2P Require Import Prelude.
From S2P Require Import EmuLang.

Open Scope Z_scope.

(** ** Format of a variable store (VariableFormat.h) *)

Definition VARIABLE_DATA : Z := 0x55AA.
Definition VAR_IN_DELETED_TRANSITION : Z := 0xfe.
Definition VAR_DELETED : Z := 0xfd.
Definition VAR_ADDED : Z := 0x3f.
Definition VARIABLE_STORE_FORMATTED : Z := 0x5a.
Definition VARIABLE_STORE_HEALTHY : Z := 0xfe.
Definition sizeof_VARIABLE_HEADER : Z := 32.
Definition sizeof_VARIABLE_STORE_HEADER : Z := 28.

Definition EFI_VARIABLE_NON_VOLATILE : Z := 1.
Definition EFI_VARIABLE_BOOTSERVICE_ACCESS : Z := 2.
Definition EFI_VARIABLE_RUNTIME_ACCESS : Z := 4.
Definition EFI_VARIABLE_HARDWARE_ERROR_RECORD : Z := 8.
Definition EFI_VARIABLE_AUTHENTICATED_WRITE_ACCESS : Z := 0x10.

Definition HEADER_ALIGN (x : Z) : Z := Z.land (x + 3) (Z.lnot 3).

(** All the bits of [mask] are clear in [a]. *)
Definition no_bits (a mask : Z) : bool := Z.land a mask =? 0.

(** A GUID is its 16 bytes; a name is its CHAR16 units without the terminating 0. *)
Abbreviation EFI_GUID := (list Z).
Abbreviation CHAR16S := (list Z).

(** The bytes of a name, terminator included. *)
Definition name_bytes (n : CHAR16S) : list Z := flat_map (le_put 2) n ++ [0; 0].

Definition StrSize (n : CHAR16S) : Z := 2 * (Z.of_nat (length n) + 1).

Definition gEfiVariableGuid : EFI_GUID :=
  [0x16; 0x36; 0xcf; 0xdd; 0x75; 0x32; 0x64; 0x41; 0x98; 0xb6; 0xfe; 0x85; 0x70; 0x7f; 0xfe; 0x7d].
Definition gEfiGlobalVariableGuid : EFI_GUID :=
  [0x61; 0xdf; 0xe4; 0x8b; 0xca; 0x93; 0xd2; 0x11; 0xaa; 0x0d; 0x00; 0xe0; 0x98; 0x03; 0x2b; 0x8c].
Definition DellEventGuid : EFI_GUID :=
  [0xc7; 0x9f; 0x2e; 0xff; 0x6f; 0xd1; 0x4a; 0x43; 0xa2; 0x4e; 0xc9; 0x95; 0x19; 0xb7; 0xeb; 0x93].

(** ** Reading a store *)

Definition rdb (m : list Z) (len : nat) (off : Z) : option (list Z) :=
  if (0 <=? off) && (off + Z.of_nat len <=? Z.of_nat (length m))
  then Some (slice (Z.to_nat off) len m) else None.

Definition rd (m : list Z) (len : nat) (off : Z) : option Z := le_get <$> rdb m len off.

Definition StartId (m : list Z) (p : Z) : option Z := rd m 2 p.
Definition State (m : list Z) (p : Z) : option Z := rd m 1 (p + 2).
Definition Attributes (m : list Z) (p : Z) : option Z := rd m 4 (p + 4).
Definition NameSize (m : list Z) (p : Z) : option Z := rd m 4 (p + 8).
Definition DataSize (m : list Z) (p : Z) : option Z := rd m 4 (p + 12).
Definition VendorGuid (m : list Z) (p : Z) : option EFI_GUID := rdb m 16 (p + 16).

(** [Some None] is the NULL result. *)
Definition GetVariableDataPtr (m : list Z) (p : Z) : option (option Z) :=
  id ← StartId m p;
  if negb (id =? VARIABLE_DATA) then Some None else
  ns ← NameSize m p;
  Some (Some (p + sizeof_VARIABLE_HEADER + ns)).

Definition GetNextPotentialVariablePtr (m : list Z) (p : Z) : option (option Z) :=
  dp ← GetVariableDataPtr m p;
  match dp with
  | None => Some None
  | Some dp => ds ← DataSize m p; Some (Some (HEADER_ALIGN (dp + ds)))
  end.

Definition GetNextVariablePtr (m : list Z) (p : Z) : option (option Z) :=
  np ← GetNextPotentialVariablePtr m p;
  match np with
  | None => Some None
  | Some q => id ← StartId m q; Some (if id =? VARIABLE_DATA then Some q else None)
  end.

(** [VolHeader->Size] and the end of the store. *)
Definition StoreSize (m : list Z) : option Z := rd m 4 16.
Definition GetEndPointer (m : list Z) : option Z := HEADER_ALIGN <$> StoreSize m.

Definition first_variable : Z := HEADER_ALIGN sizeof_VARIABLE_STORE_HEADER.

(** The [while] loop of [InitializeLocationForLastVariableOffset]. *)
Fixpoint last_offset (fuel : nat) (m : list Z) (p : Z) : option Z :=
  match fuel with
  | O => None
  | S fuel =>
      id ← StartId m p;
      if id =? VARIABLE_DATA then
        np ← GetNextPotentialVariablePtr m p;
        match np with
        | Some q => last_offset fuel m q
        | None => Some p
        end
      else Some p
  end.

Definition InitializeLocationForLastVariableOffset (m : list Z) : option Z :=
  last_offset (length m) m sizeof_VARIABLE_STORE_HEADER.

(** ** Finding a variable *)

(** The test on the variable at [p] inside the loop of [FindVariable]. *)
Definition find_match (m : list Z) (at_runtime : bool) (name : CHAR16S) (guid : EFI_GUID) (p : Z) : option bool :=
  id ← StartId m p;
  if negb (id =? VARIABLE_DATA) then Some false else
  st ← State m p;
  if negb (st =? VAR_ADDED) then Some false else
  ok ← (if at_runtime then a ← Attributes m p; Some (negb (no_bits a EFI_VARIABLE_RUNTIME_ACCESS)) else Some true);
  if negb ok then Some false else
  if bool_decide (name = []) then Some true else
  g ← VendorGuid m p;
  if negb (bool_decide (guid = g)) then Some false else
  ns ← NameSize m p;
  n ← rdb m (Z.to_nat ns) (p + sizeof_VARIABLE_HEADER);
  Some (bool_decide (take (Z.to_nat ns) (name_bytes name) = n)).

Fixpoint find_walk (fuel : nat) (m : list Z) (at_runtime : bool) (name : CHAR16S) (guid : EFI_GUID) (p : Z)
    : option (option Z) :=
  match fuel with
  | O => None
  | S fuel =>
      endp ← GetEndPointer m;
      if p <? endp then
        hit ← find_match m at_runtime name guid p;
        if (hit : bool) then Some (Some p) else
        np ← GetNextVariablePtr m p;
        match np with
        | Some q => find_walk fuel m at_runtime name guid q
        | None => Some None
        end
      else Some None
  end.

(** ** Module state *)

Record VARIABLE_INFO_ENTRY := {
  ie_guid : EFI_GUID; ie_name : CHAR16S; ie_volatile : bool;
  ReadCount : Z; WriteCount : Z; DeleteCount : Z; CacheCount : Z
}.

Record Pcds := {
  PcdVariableStoreSize : Z;
  PcdMaxVariableSize : Z;
  PcdMaxHardwareErrorVariableSize : Z;
  PcdHwErrStorageSize : Z;
  PcdEmuVariableNvStoreReserved : Z;
  PcdVariableCollectStatistics : bool
}.

(** [ESAL_VARIABLE_GLOBAL], [gVariableInfo] ([[]] for NULL) and [mAtRuntime].  The
    language lists are byte buffers; of the buffer [PlatformLang] only the size
    matters, since it is written just before it is read. *)
Record Emu := mkEmu {
  NonVolatile : list Z;
  Volatile : list Z;
  VolatileLastVariableOffset : Z;
  NonVolatileLastVariableOffset : Z;
  CommonVariableTotalSize : Z;
  HwErrVariableTotalSize : Z;
  PlatformLangCodes : option (list Z);
  LangCodes : option (list Z);
  PlatformLang : option Z;
  gVariableInfo : list VARIABLE_INFO_ENTRY;
  mAtRuntime : bool
}.

Definition the_store (vol : bool) (s : Emu) : list Z := if vol then Volatile s else NonVolatile s.

Definition set_store (vol : bool) (m : list Z) (s : Emu) : Emu :=
  mkEmu (if vol then NonVolatile s else m) (if vol then m else Volatile s)
    (VolatileLastVariableOffset s) (NonVolatileLastVariableOffset s) (CommonVariableTotalSize s)
    (HwErrVariableTotalSize s) (PlatformLangCodes s) (LangCodes s) (PlatformLang s) (gVariableInfo s) (mAtRuntime s).

Definition set_offsets (vl nl ct ht : Z) (s : Emu) : Emu :=
  mkEmu (NonVolatile s) (Volatile s) vl nl ct ht (PlatformLangCodes s) (LangCodes s) (PlatformLang s)
    (gVariableInfo s) (mAtRuntime s).

Definition set_langs (pc lc : option (list Z)) (pl : option Z) (s : Emu) : Emu :=
  mkEmu (NonVolatile s) (Volatile s) (VolatileLastVariableOffset s) (NonVolatileLastVariableOffset s)
    (CommonVariableTotalSize s) (HwErrVariableTotalSize s) pc lc pl (gVariableInfo s) (mAtRuntime s).

Definition set_info (i : list VARIABLE_INFO_ENTRY) (s : Emu) : Emu :=
  mkEmu (NonVolatile s) (Volatile s) (VolatileLastVariableOffset s) (NonVolatileLastVariableOffset s)
    (CommonVariableTotalSize s) (HwErrVariableTotalSize s) (PlatformLangCodes s) (LangCodes s) (PlatformLang s)
    i (mAtRuntime s).

(** Run a computation that only reads. *)
Definition peek {A} (f : Emu → option A) : M Emu A := λ s, (λ a, (a, s)) <$> f s.

(** Store bytes into one of the two stores. *)
Definition wr (vol : bool) (off : Z) (bs : list Z) : M Emu unit := λ s,
  let m := the_store vol s in
  if (0 <=? off) && (off + Z.of_nat (length bs) <=? Z.of_nat (length m))
  then Some (tt, set_store vol (store (Z.to_nat off) bs m) s) else None.

(** [CurrPtr] and [Volatile] of a [VARIABLE_POINTER_TRACK]; [StartPtr] and [EndPtr]
    follow from [Volatile]. *)
Record VARIABLE_POINTER_TRACK := { CurrPtr : option Z; TVolatile : bool }.

(** ** Statistics *)

Definition count (b : bool) (n : Z) : Z := if b then wrap32 (n + 1) else n.

Definition info_entry (guid : EFI_GUID) (name : CHAR16S) (vol : bool) : VARIABLE_INFO_ENTRY := {|
  ie_guid := guid; ie_name := name; ie_volatile := vol;
  ReadCount := 0; WriteCount := 0; DeleteCount := 0; CacheCount := 0 |}.

(** The walk along the list; an entry that is missing is appended and then updated. *)
Fixpoint info_walk (name : CHAR16S) (guid : EFI_GUID) (vol rd wr del cache : bool)
    (l : list VARIABLE_INFO_ENTRY) : list VARIABLE_INFO_ENTRY :=
  let bump e := {| ie_guid := ie_guid e; ie_name := ie_name e; ie_volatile := ie_volatile e;
    ReadCount := count rd (ReadCount e); WriteCount := count wr (WriteCount e);
    DeleteCount := count del (DeleteCount e); CacheCount := count cache (CacheCount e) |} in
  match l with
  | [] => [bump (info_entry guid name vol)]
  | e :: l =>
      if bool_decide (guid = ie_guid e) && bool_decide (name = ie_name e) then bump e :: l
      else e :: info_walk name guid vol rd wr del cache l
  end.

Section Services.
Context (pcd : Pcds).
(** The value of the uninitialised stack variable [Variable.Volatile]. *)
Context (uninit : bool).

Definition UpdateVariableInfo (name : CHAR16S) (guid : EFI_GUID) (vol rd wr del cache : bool) : M Emu unit :=
  modify (λ s,
    if PcdVariableCollectStatistics pcd && negb (mAtRuntime s)
    then set_info (info_walk name guid vol rd wr del cache (gVariableInfo s)) s else s).

(** ** FindVariable *)

Definition FindVariable_ (s : Emu) (name : CHAR16S) (guid : option EFI_GUID)
    : option (EFI_STATUS * VARIABLE_POINTER_TRACK) :=
  let none := {| CurrPtr := None; TVolatile := uninit |} in
  match name, guid with
  | _ :: _, None => Some (EFI_INVALID_PARAMETER, none)
  | _, _ =>
      let g := default [] guid in
      let walk vol := find_walk (length (the_store vol s)) (the_store vol s) (mAtRuntime s) name g first_variable in
      r ← walk false;
      match r with
      | Some p => Some (EFI_SUCCESS, {| CurrPtr := Some p; TVolatile := false |})
      | None =>
          r ← walk true;
          match r with
          | Some p => Some (EFI_SUCCESS, {| CurrPtr := Some p; TVolatile := true |})
          | None => Some (EFI_NOT_FOUND, none)
          end
      end
  end.

Definition FindVariable (name : CHAR16S) (guid : option EFI_GUID) : M Emu (EFI_STATUS * VARIABLE_POINTER_TRACK) :=
  peek (λ s, FindVariable_ s name guid).

(** ** UpdateVariable *)

(** [CurrPtr->State &= mask]. *)
Definition and_state (vol : bool) (p mask : Z) : M Emu unit :=
  st ← peek (λ s, State (the_store vol s) p);
  wr vol (p + 2) [Z.land st mask].

Definition no_access (attrs : Z) : bool :=
  no_bits attrs (Z.lor EFI_VARIABLE_RUNTIME_ACCESS EFI_VARIABLE_BOOTSERVICE_ACCESS).

(** [CompareMem (Data, GetVariableDataPtr (CurrPtr), DataSize) == 0], for equal sizes. *)
Definition same_data (m : list Z) (p : Z) (data : list Z) : option bool :=
  ds ← DataSize m p;
  if negb (ds =? Z.of_nat (length data)) then Some false else
  dp ← GetVariableDataPtr m p;
  match dp with
  | None => None
  | Some q => d ← rdb m (length data) q; Some (bool_decide (data = d))
  end.

(** The part of [UpdateVariable] for an existing variable; [Some st] is an early
    [goto Done] with status [st]. *)
Definition update_existing (name : CHAR16S) (guid : EFI_GUID) (data : list Z) (attrs : Z) (vol : bool) (p : Z)
    : M Emu (option EFI_STATUS) :=
  rt ← gets mAtRuntime;
  va ← (if rt && negb vol then peek (λ s, Attributes (the_store vol s) p) else mret 0);
  if rt && vol then mret (Some EFI_WRITE_PROTECTED) else
  if rt && no_bits va EFI_VARIABLE_NON_VOLATILE then mret (Some EFI_INVALID_PARAMETER) else
  if (Z.of_nat (length data) =? 0) || no_access attrs then
    and_state vol p VAR_DELETED;;
    UpdateVariableInfo name guid vol false false true false;;
    mret (Some EFI_SUCCESS)
  else
  same ← peek (λ s, same_data (the_store vol s) p data);
  if (same : bool) then mret (Some EFI_SUCCESS) else
  st ← peek (λ s, State (the_store vol s) p);
  (if st =? VAR_ADDED then and_state vol p VAR_IN_DELETED_TRANSITION else mret tt);;
  mret None.

Definition update_new (data : list Z) (attrs : Z) : M Emu (option EFI_STATUS) :=
  rt ← gets mAtRuntime;
  if (Z.of_nat (length data) =? 0) || no_access attrs then mret (Some EFI_NOT_FOUND) else
  if rt && (no_bits attrs EFI_VARIABLE_RUNTIME_ACCESS || no_bits attrs EFI_VARIABLE_NON_VOLATILE)
  then mret (Some EFI_INVALID_PARAMETER) else mret None.

(** The bytes of a new variable: the header fields, the name and the data follow
    each other without padding. *)
Definition variable_bytes (name : CHAR16S) (guid : EFI_GUID) (data : list Z) (attrs : Z) : list Z :=
  le_put 2 VARIABLE_DATA ++ [VAR_ADDED; 0] ++ le_put 4 attrs ++
  le_put 4 (StrSize name) ++ le_put 4 (Z.of_nat (length data)) ++ guid ++ name_bytes name ++ data.

(** The space check and the new value of the offsets; [None] when the store is full. *)
Definition reserve (name : CHAR16S) (data : list Z) (attrs : Z) : M Emu (option (bool * Z)) :=
  let VarSize := sizeof_VARIABLE_HEADER + StrSize name + Z.of_nat (length data) in
  if negb (no_bits attrs EFI_VARIABLE_NON_VOLATILE) then
    size ← peek (λ s, StoreSize (NonVolatile s));
    s ← gets id;
    let hw := negb (no_bits attrs EFI_VARIABLE_HARDWARE_ERROR_RECORD) in
    if (hw && (PcdHwErrStorageSize pcd <? HEADER_ALIGN VarSize + HwErrVariableTotalSize s))
       || (negb hw && (wrap64 (size - sizeof_VARIABLE_STORE_HEADER - PcdHwErrStorageSize pcd)
                       <? HEADER_ALIGN VarSize + CommonVariableTotalSize s))
    then mret None else
    modify (set_offsets (VolatileLastVariableOffset s)
      (NonVolatileLastVariableOffset s + HEADER_ALIGN VarSize)
      (if hw then CommonVariableTotalSize s else CommonVariableTotalSize s + HEADER_ALIGN VarSize)
      (if hw then HwErrVariableTotalSize s + HEADER_ALIGN VarSize else HwErrVariableTotalSize s));;
    mret (Some (false, NonVolatileLastVariableOffset s))
  else
    size ← peek (λ s, StoreSize (Volatile s));
    s ← gets id;
    if size <? wrap32 (HEADER_ALIGN VarSize + VolatileLastVariableOffset s) then mret None else
    modify (set_offsets (VolatileLastVariableOffset s + HEADER_ALIGN VarSize)
      (NonVolatileLastVariableOffset s) (CommonVariableTotalSize s) (HwErrVariableTotalSize s));;
    mret (Some (true, VolatileLastVariableOffset s)).

Definition UpdateVariable (name : CHAR16S) (guid : EFI_GUID) (data : list Z) (attrs : Z)
    (Track : VARIABLE_POINTER_TRACK) : M Emu EFI_STATUS :=
  early ← match CurrPtr Track with
          | Some p => update_existing name guid data attrs (TVolatile Track) p
          | None => update_new data attrs
          end;
  match early with
  | Some st => mret st
  | None =>
      where_ ← reserve name data attrs;
      match where_ with
      | None => mret EFI_OUT_OF_RESOURCES
      | Some (vol, off) =>
          wr vol off (variable_bytes name guid data attrs);;
          match CurrPtr Track with
          | Some p => and_state (TVolatile Track) p VAR_DELETED
          | None => mret tt
          end;;
          UpdateVariableInfo name guid (TVolatile Track) false true false false;;
          mret EFI_SUCCESS
      end
  end.

(** ** AutoUpdateLangVariable *)

(** The string in a buffer; reading on past its end is undefined. *)
Fixpoint cstr (b : list Z) : option (list Z) :=
  match b with
  | [] => None
  | c :: b => if c =? 0 then Some [] else (λ r, c :: r) <$> cstr b
  end.

Definition L_PlatformLangCodes : CHAR16S := str_bytes "PlatformLangCodes".
Definition L_LangCodes : CHAR16S := str_bytes "LangCodes".
Definition L_PlatformLang : CHAR16S := str_bytes "PlatformLang".
Definition L_Lang : CHAR16S := str_bytes "Lang".

(** The data of the variable a successful search found. *)
Definition variable_data (m : list Z) (p : Z) : option (list Z) :=
  dp ← GetVariableDataPtr m p;
  ds ← DataSize m p;
  match dp with Some q => rdb m (Z.to_nat ds) q | None => None end.

(** NV|BS|RT. *)
Definition lang_attributes : Z := 7.

(** PlatformLang was set to [data]: set Lang. *)
Definition update_lang (data : list Z) : M Emu unit :=
  s ← gets id;
  match PlatformLangCodes s, LangCodes s with
  | Some pc, Some lc =>
      pcs ← peek (λ _, cstr pc);
      lang ← peek (λ _, cstr data);
      best ← peek (λ _, VariableGetBestLanguage pcs false lang);
      match best with
      | None => mret tt
      | Some t =>
          let Index := GetIndexFromSupportedLangCodes pcs t false in
          lcs ← peek (λ _, cstr lc);
          bl ← peek (λ _, GetLangFromSupportedLangCodes lcs Index true);
          r ← FindVariable L_Lang (Some gEfiGlobalVariableGuid);
          let b := take ISO_639_2_ENTRY_SIZE (default [] bl ++ [0; 0; 0]) ++ [0] in
          UpdateVariable L_Lang gEfiGlobalVariableGuid b lang_attributes r.2;;
          mret tt
      end
  | _, _ => mret tt
  end.

(** Lang was set to [data]: set PlatformLang.  A NULL language faults. *)
Definition update_platform_lang (data : list Z) : M Emu unit :=
  s ← gets id;
  match PlatformLangCodes s, LangCodes s with
  | Some pc, Some lc =>
      lcs ← peek (λ _, cstr lc);
      lang ← peek (λ _, cstr data);
      best ← peek (λ _, VariableGetBestLanguage lcs true lang);
      match best with
      | None => mret tt
      | Some t =>
          let Index := GetIndexFromSupportedLangCodes lcs t true in
          pcs ← peek (λ _, cstr pc);
          bp ← peek (λ _, GetLangFromSupportedLangCodes pcs Index false);
          match bp with
          | None => undef
          | Some b =>
              r ← FindVariable L_PlatformLang (Some gEfiGlobalVariableGuid);
              UpdateVariable L_PlatformLang gEfiGlobalVariableGuid (b ++ [0]) lang_attributes r.2;;
              mret tt
          end
      end
  | _, _ => mret tt
  end.

(** The language to propagate after new language codes: the variable name and its
    data; [None] when neither variable is set. *)
Definition lang_source : M Emu (option (CHAR16S * list Z)) :=
  r ← FindVariable L_PlatformLang (Some gEfiGlobalVariableGuid);
  match CurrPtr (r.2) with
  | Some p => d ← peek (λ s, variable_data (the_store (TVolatile r.2) s) p); mret (Some (L_PlatformLang, d))
  | None =>
      r ← FindVariable L_Lang (Some gEfiGlobalVariableGuid);
      match CurrPtr (r.2) with
      | Some p => d ← peek (λ s, variable_data (the_store (TVolatile r.2) s) p); mret (Some (L_Lang, d))
      | None => mret None
      end
  end.

Definition propagate_lang (name : CHAR16S) (data : list Z) : M Emu unit :=
  if bool_decide (name = L_PlatformLang) then update_lang data
  else if bool_decide (name = L_Lang) then update_platform_lang data
  else mret tt.

Definition AutoUpdateLangVariable (name : CHAR16S) (data : list Z) : M Emu unit :=
  if Z.of_nat (length data) =? 0 then mret tt else
  s ← gets id;
  let is_codes := bool_decide (name = L_PlatformLangCodes) || bool_decide (name = L_LangCodes) in
  if is_codes && mAtRuntime s then mret tt else
  (if bool_decide (name = L_PlatformLangCodes)
   then modify (set_langs (Some data) (LangCodes s) (Some (Z.of_nat (length data))))
   else if bool_decide (name = L_LangCodes)
   then modify (set_langs (PlatformLangCodes s) (Some data) (PlatformLang s))
   else mret tt);;
  s ← gets id;
  match PlatformLangCodes s, LangCodes s with
  | Some _, Some _ =>
      if is_codes then
        src ← lang_source;
        match src with
        | None => mret tt
        | Some (n, d) => propagate_lang n d
        end
      else propagate_lang name data
  | _, _ => propagate_lang name data
  end.

(** ** The services *)

(** The result of [EmuGetVariable]: status, [*DataSize] on return, and the
    attributes and data when the data was copied.  [has_buffer]: Data is not NULL. *)
Definition EmuGetVariable (name : option CHAR16S) (guid : option EFI_GUID) (size : option Z) (has_buffer : bool)
    : M Emu (EFI_STATUS * option Z * option (Z * list Z)) :=
  match name, guid, size with
  | Some n, Some g, Some sz =>
      if bool_decide (n = []) then mret (EFI_NOT_FOUND, size, None) else
      r ← FindVariable n (Some g);
      match CurrPtr (r.2) with
      | None => mret (r.1, size, None)
      | Some p =>
          let vol := TVolatile (r.2) in
          ds ← peek (λ s, DataSize (the_store vol s) p);
          if ds <=? sz then
            if negb has_buffer then mret (EFI_INVALID_PARAMETER, size, None) else
            d ← peek (λ s, variable_data (the_store vol s) p);
            a ← peek (λ s, Attributes (the_store vol s) p);
            UpdateVariableInfo n g vol true false false false;;
            mret (EFI_SUCCESS, Some ds, Some (a, d))
          else mret (EFI_BUFFER_TOO_SMALL, Some ds, None)
      end
  | _, _, _ => mret (EFI_INVALID_PARAMETER, size, None)
  end.

(** The variable at [p] is valid and accessible in this phase. *)
Definition visible (m : list Z) (at_runtime : bool) (p : Z) : option bool :=
  find_match m at_runtime [] [] p.

(** The [while (TRUE)] loop of [EmuGetNextVariableName]; [named]: the caller
    passed a non-empty name. *)
Fixpoint next_loop (fuel : nat) (s : Emu) (named vol : bool) (cur : Z) : option (option (bool * Z)) :=
  match fuel with
  | O => None
  | S fuel =>
      c ← (if named then GetNextVariablePtr (the_store vol s) cur else Some (Some cur));
      endp ← GetEndPointer (the_store vol s);
      if match c with Some q => endp <=? q | None => true end then
        if vol then Some None else
        id ← StartId (Volatile s) first_variable;
        if negb (id =? VARIABLE_DATA) then next_loop fuel s named true first_variable else
        ok ← visible (Volatile s) (mAtRuntime s) first_variable;
        if (ok : bool) then Some (Some (true, first_variable))
        else next_loop fuel s named true first_variable
      else
        let q := default 0 c in
        ok ← visible (the_store vol s) (mAtRuntime s) q;
        if (ok : bool) then Some (Some (vol, q)) else next_loop fuel s named vol q
  end.

(** Status, [*VariableNameSize] on return, and the bytes of the name and the GUID
    when they were copied. *)
Definition EmuGetNextVariableName (size : option Z) (name : option CHAR16S) (guid : option EFI_GUID)
    : M Emu (EFI_STATUS * option Z * option (list Z * EFI_GUID)) :=
  match size, name, guid with
  | Some sz, Some n, Some g =>
      r ← FindVariable n (Some g);
      match CurrPtr (r.2) with
      | None => mret (r.1, size, None)
      | Some p =>
          nx ← peek (λ s, next_loop (length (NonVolatile s) + length (Volatile s)) s
                            (negb (bool_decide (n = []))) (TVolatile r.2) p);
          match nx with
          | None => mret (EFI_NOT_FOUND, size, None)
          | Some (vol, q) =>
              ns ← peek (λ s, NameSize (the_store vol s) q);
              if ns <=? sz then
                nb ← peek (λ s, rdb (the_store vol s) (Z.to_nat ns) (q + sizeof_VARIABLE_HEADER));
                vg ← peek (λ s, VendorGuid (the_store vol s) q);
                mret (EFI_SUCCESS, Some ns, Some (nb, vg))
              else mret (EFI_BUFFER_TOO_SMALL, Some ns, None)
          end
      end
  | _, _, _ => mret (EFI_INVALID_PARAMETER, size, None)
  end.

(** [data] is [None] when Data is NULL; then [DataSize] is [null_size]. *)
Definition EmuSetVariable (name : option CHAR16S) (guid : option EFI_GUID) (attrs : Z)
    (null_size : Z) (data : option (list Z)) : M Emu EFI_STATUS :=
  let dsize := match data with Some d => Z.of_nat (length d) | None => null_size end in
  match name, guid with
  | Some ((_ :: _) as n), Some g =>
      if negb (dsize =? 0) && bool_decide (data = None) then mret EFI_INVALID_PARAMETER else
      if negb (no_bits attrs EFI_VARIABLE_AUTHENTICATED_WRITE_ACCESS) then mret EFI_INVALID_PARAMETER else
      if Z.land attrs (Z.lor EFI_VARIABLE_RUNTIME_ACCESS EFI_VARIABLE_BOOTSERVICE_ACCESS) =? EFI_VARIABLE_RUNTIME_ACCESS
      then mret EFI_INVALID_PARAMETER else
      if 2 ^ 64 - 1 - dsize <? StrSize n then mret EFI_INVALID_PARAMETER else
      let hw := negb (no_bits attrs EFI_VARIABLE_HARDWARE_ERROR_RECORD) in
      let max := if hw then PcdMaxHardwareErrorVariableSize pcd else PcdMaxVariableSize pcd in
      if wrap64 (max - sizeof_VARIABLE_HEADER) <? StrSize n + dsize then mret EFI_INVALID_PARAMETER else
      if hw && negb (bool_decide (take 8 n = str_bytes "HwErrRec")) then mret EFI_INVALID_PARAMETER else
      r ← FindVariable n (Some g);
      let d := default [] data in
      AutoUpdateLangVariable n d;;
      UpdateVariable n g d attrs r.2
  | _, _ => mret EFI_INVALID_PARAMETER
  end.

(** The walk of [EmuQueryVariableInfo]; the totals of the common and of the
    hardware error record variables. *)
Fixpoint query_walk (fuel : nat) (m : list Z) (p common hwerr : Z) : option (Z * Z) :=
  match fuel with
  | O => None
  | S fuel =>
      endp ← GetEndPointer m;
      if p <? endp then
        np ← GetNextVariablePtr m p;
        match np with
        | None => Some (common, hwerr)
        | Some q =>
            a ← Attributes m p;
            if negb (no_bits a EFI_VARIABLE_HARDWARE_ERROR_RECORD)
            then query_walk fuel m q common (wrap64 (hwerr + (q - p)))
            else query_walk fuel m q (wrap64 (common + (q - p))) hwerr
        end
      else Some (common, hwerr)
  end.

(** Status, and MaximumVariableStorageSize, RemainingVariableStorageSize and
    MaximumVariableSize; the result pointers are not NULL. *)
Definition EmuQueryVariableInfo (attrs : Z) : M Emu (EFI_STATUS * option (Z * Z * Z)) :=
  rt ← gets mAtRuntime;
  let NV := EFI_VARIABLE_NON_VOLATILE in
  let RT := EFI_VARIABLE_RUNTIME_ACCESS in
  let BS := EFI_VARIABLE_BOOTSERVICE_ACCESS in
  let HW := EFI_VARIABLE_HARDWARE_ERROR_RECORD in
  if attrs =? 0 then mret (EFI_INVALID_PARAMETER, None) else
  if no_bits attrs (Z.lor NV (Z.lor BS (Z.lor RT HW))) then mret (EFI_UNSUPPORTED, None) else
  if Z.land attrs (Z.lor RT BS) =? RT then mret (EFI_INVALID_PARAMETER, None) else
  if rt && no_bits attrs RT then mret (EFI_INVALID_PARAMETER, None) else
  if Z.land attrs (Z.lor NV HW) =? HW then mret (EFI_INVALID_PARAMETER, None) else
  if negb (no_bits attrs EFI_VARIABLE_AUTHENTICATED_WRITE_ACCESS) then mret (EFI_UNSUPPORTED, None) else
  let vol := no_bits attrs NV in
  let hw := negb (no_bits attrs HW) in
  size ← peek (λ s, StoreSize (the_store vol s));
  let max_store := if hw then PcdHwErrStorageSize pcd
                   else if negb vol then wrap64 (size - sizeof_VARIABLE_STORE_HEADER - PcdHwErrStorageSize pcd)
                   else wrap64 (size - sizeof_VARIABLE_STORE_HEADER) in
  let max_var := wrap64 ((if hw then PcdMaxHardwareErrorVariableSize pcd else PcdMaxVariableSize pcd)
                         - sizeof_VARIABLE_HEADER) in
  t ← peek (λ s, query_walk (length (the_store vol s)) (the_store vol s) first_variable 0 0);
  let remaining := wrap64 (max_store - (if hw then t.2 else t.1)) in
  let max_var := if remaining <? sizeof_VARIABLE_HEADER then 0
                 else if remaining - sizeof_VARIABLE_HEADER <? max_var then remaining - sizeof_VARIABLE_HEADER
                 else max_var in
  mret (EFI_SUCCESS, Some (max_store, remaining, max_var)).

(** ** Initialisation *)

(** The store header that [InitializeVariableStore] writes. *)
Definition store_header : list Z :=
  gEfiVariableGuid ++ le_put 4 (PcdVariableStoreSize pcd) ++
  [VARIABLE_STORE_FORMATTED; VARIABLE_STORE_HEALTHY] ++ le_put 2 0 ++ le_put 4 0.

Definition set_last (vol : bool) (off : Z) (s : Emu) : Emu :=
  set_offsets (if vol then off else VolatileLastVariableOffset s)
    (if vol then NonVolatileLastVariableOffset s else off)
    (CommonVariableTotalSize s) (HwErrVariableTotalSize s) s.

(** A reserved NV store that looks valid is kept. *)
Definition reserved_valid (m : list Z) : option bool :=
  sz ← StoreSize m; f ← rd m 1 20; st ← rd m 1 21;
  Some ((sz =? PcdVariableStoreSize pcd) && (f =? VARIABLE_STORE_FORMATTED) && (st =? VARIABLE_STORE_HEALTHY)).

(** The names in a HOB store are read as NUL-terminated strings. *)
Fixpoint name_at (fuel : nat) (m : list Z) (p : Z) : option CHAR16S :=
  match fuel with
  | O => None
  | S fuel => c ← rd m 2 p; if c =? 0 then Some [] else (λ r, c :: r) <$> name_at fuel m (p + 2)
  end.

(** The loop that copies the variables of the HOB store. *)
Fixpoint hob_loop (fuel : nat) (hob : list Z) (p : Z) (Status : EFI_STATUS) : M Emu EFI_STATUS :=
  match fuel with
  | O => undef
  | S fuel =>
      endp ← peek (λ _, GetEndPointer hob);
      if negb (p <? endp) then mret Status else
      st ← peek (λ _, State hob p);
      a ← peek (λ _, Attributes hob p);
      if negb (st =? VAR_ADDED) || no_bits a EFI_VARIABLE_NON_VOLATILE then mret EFI_OUT_OF_RESOURCES else
      n ← peek (λ _, name_at (length hob) hob (p + sizeof_VARIABLE_HEADER));
      g ← peek (λ _, VendorGuid hob p);
      d ← peek (λ _, variable_data hob p);
      Status ← EmuSetVariable (Some n) (Some g) a 0 (Some d);
      np ← peek (λ _, GetNextVariablePtr hob p);
      match np with
      | Some q => hob_loop fuel hob q Status
      | None => mret Status
      end
  end.

(** The store is allocated, not at the reserved address. *)
Definition allocated (VolatileStore : bool) : bool := VolatileStore || (PcdEmuVariableNvStoreReserved pcd =? 0).

(** [mem]: the memory from the start of the allocated (or reserved) store on, [None] if
    AllocateRuntimePool has failed; [hob]: the data of the HOB with the variable GUID, if
    there is one. *)
Definition InitializeVariableStore (VolatileStore : bool) (mem : option (list Z)) (hob : option (list Z)) : M Emu EFI_STATUS :=
  if PcdVariableStoreSize pcd <? PcdHwErrStorageSize pcd then mret EFI_OUT_OF_RESOURCES else
  match mem with
  | None => if allocated VolatileStore then mret EFI_OUT_OF_RESOURCES else undef
  | Some pool =>
  keep ← (if allocated VolatileStore then mret false else peek (λ _, reserved_valid pool));
  let n := Z.to_nat (PcdVariableStoreSize pcd) in
  if (length pool <? n)%nat then undef else
  let m := if (keep : bool) then pool else store 0 (replicate n 0xff) pool in
  off ← peek (λ _, InitializeLocationForLastVariableOffset m);
  modify (set_last VolatileStore off);;
  modify (set_store VolatileStore (store 0 store_header m));;
  match hob with
  | Some h =>
      if VolatileStore then mret EFI_SUCCESS else
      sg ← peek (λ _, rdb h 16 0);
      f ← peek (λ _, rd h 1 20);
      st ← peek (λ _, rd h 1 21);
      if bool_decide (sg = gEfiVariableGuid) && (f =? VARIABLE_STORE_FORMATTED) && (st =? VARIABLE_STORE_HEALTHY)
      then hob_loop (length h) h first_variable EFI_SUCCESS else mret EFI_SUCCESS
  | None => mret EFI_SUCCESS
  end
  end.

(** The zeroed module globals. *)
Definition emu_zero : Emu := mkEmu [] [] 0 0 0 0 None None None [] false.

(** [globals]: there is memory for the globals.  The result has the number of blocks of the
    pool that stay allocated: the globals, and the stores. *)
Definition VariableCommonInitialize (globals : bool) (vol_pool nv_pool hob : option (list Z)) : option (EFI_STATUS * Emu * Z) :=
  if negb globals then Some (EFI_OUT_OF_RESOURCES, emu_zero, 0) else
  match InitializeVariableStore true vol_pool None emu_zero with
  | None => None
  | Some (Status, s) =>
      if EFI_ERROR Status then Some (Status, s, 0) else
      '(Status, s) ← InitializeVariableStore false nv_pool hob s;
      Some (Status, s, if allocated false && bool_decide (nv_pool ≠ None) then 3 else 2)
  end.

(** ** InitVariable.c *)

Definition RuntimeServiceGetVariable := EmuGetVariable.
Definition RuntimeServiceGetNextVariableName := EmuGetNextVariableName.
Definition RuntimeServiceQueryVariableInfo := EmuQueryVariableInfo.

(** A NULL vendor GUID is dereferenced by [CompareGuid]. *)
Definition RuntimeServiceSetVariable (name : option CHAR16S) (guid : option EFI_GUID) (attrs : Z)
    (null_size : Z) (data : option (list Z)) : M Emu EFI_STATUS :=
  match guid with
  | None => undef
  | Some g => if bool_decide (g = DellEventGuid) then mret EFI_SUCCESS
              else EmuSetVariable name guid attrs null_size data
  end.

Definition VariableClassExitBootServicesEvent : M Emu unit :=
  modify (λ s, mkEmu (NonVolatile s) (Volatile s) (VolatileLastVariableOffset s) (NonVolatileLastVariableOffset s)
    (CommonVariableTotalSize s) (HwErrVariableTotalSize s) (PlatformLangCodes s) (LangCodes s) (PlatformLang s)
    (gVariableInfo s) true).
End Services.

(** ** Installing the emulation *)

(** The firmware's variable services that [CopyRTVariables] reads from. *)
Record SourceRT := {
  (** buffer size, last name and GUID; status, size, next name and GUID *)
  src_GetNextVariableName : Z → CHAR16S → EFI_GUID → EFI_STATUS * Z * CHAR16S * EFI_GUID;
  (** name, GUID and buffer size; status, attributes, size and data *)
  src_GetVariable : CHAR16S → EFI_GUID → Z → EFI_STATUS * Z * Z * list Z
}.

Section Install.
Context (pcd : Pcds) (uninit : bool) (src : SourceRT).

(** A call, repeated with a larger buffer after EFI_BUFFER_TOO_SMALL. *)
Definition next_name (NameSize : Z) (name : CHAR16S) (guid : EFI_GUID) : EFI_STATUS * Z * CHAR16S * EFI_GUID :=
  match src_GetNextVariableName src NameSize name guid with
  | (EFI_BUFFER_TOO_SMALL, sz, _, _) =>
      match src_GetNextVariableName src sz name guid with (st, _, n, g) => (st, sz, n, g) end
  | (st, _, n, g) => (st, NameSize, n, g)
  end.

Definition get_source (DataSize : Z) (name : CHAR16S) (guid : EFI_GUID) : EFI_STATUS * Z * Z * list Z :=
  match src_GetVariable src name guid DataSize with
  | (EFI_BUFFER_TOO_SMALL, _, sz, _) =>
      match src_GetVariable src name guid sz with (st, a, _, d) => (st, a, sz, d) end
  | (st, a, _, d) => (st, a, DataSize, d)
  end.

Fixpoint copy_loop (fuel : nat) (NameSize DataSize : Z) (name : CHAR16S) (guid : EFI_GUID) : M Emu unit :=
  match fuel with
  | O => undef
  | S fuel =>
      match next_name NameSize name guid with
      | (st, NameSize, n, g) =>
          if EFI_ERROR st then mret tt else
          match get_source DataSize n g with
          | (st, a, DataSize, d) =>
              if EFI_ERROR st then mret tt else
              RuntimeServiceSetVariable pcd uninit (Some n) (Some g) 0 0 None;;
              RuntimeServiceSetVariable pcd uninit (Some n) (Some g) a 0 (Some d);;
              copy_loop fuel NameSize DataSize n g
          end
      end
  end.

(** The first call is made with the empty name; [guid] is uninitialised. *)
Definition CopyRTVariables (fuel : nat) (guid : EFI_GUID) : M Emu unit := copy_loop fuel 512 512 [] guid.

Definition gEfiAppleBootGuid : EFI_GUID :=
  [0x10; 0x61; 0x43; 0x7c; 0x2a; 0xab; 0xbb; 0x4b; 0xa8; 0x80; 0xfe; 0x41; 0x99; 0x5c; 0x9f; 0x82].

(** [installed]: the runtime services table points to the emulation. *)
Definition EmuVariableControlProtocolInstallEmulation (fuel : nat) (guid : EFI_GUID) (installed : bool)
    : M Emu (EFI_STATUS * bool) :=
  if installed then mret (EFI_ALREADY_STARTED, true) else
  CopyRTVariables fuel guid;;
  st ← RuntimeServiceSetVariable pcd uninit (Some (str_bytes "EmuVariableUefiPresent")) (Some gEfiAppleBootGuid)
         (Z.lor EFI_VARIABLE_BOOTSERVICE_ACCESS EFI_VARIABLE_RUNTIME_ACCESS) 0 (Some (str_bytes "Yes"));
  mret (st, true).

Definition EmuVariableControlProtocolUninstallEmulation : EFI_STATUS * bool := (EFI_SUCCESS, false).
End Install.
