(* ===== verification/EmuStore.v ===== *)
(** * EmuVariable: a store as a list of variables

    A store in memory represents a list of variables: header, the encoded variables
    one after the other, unused bytes 0xff up to the size of the store, and the
    memory behind it.  The lemmas relate the pointer walks of the code to searches
    in the list, and the two kinds of writes (a state byte, a new variable at the
    end) to updates of the list. *)

From Stdlib Require Import ZArith Lia.
From stdpp Require Import base list list_numbers strings.
From S2P Require Import Prelude.
From S2P Require Import EmuLang.
From S2P Require Import EmuVariable.

Open Scope Z_scope.

(** ** Alignment *)

Lemma HEADER_ALIGN_eq x : HEADER_ALIGN x = 4 * ((x + 3) / 4).
Proof.
  unfold HEADER_ALIGN. rewrite <- Z.ldiff_land. change 3 with (Z.ones 2) at 2.
  rewrite Z.ldiff_ones_r by lia. rewrite Z.shiftl_mul_pow2, Z.shiftr_div_pow2 by lia. lia.
Qed.

Lemma HEADER_ALIGN_range x : x ≤ HEADER_ALIGN x < x + 4.
Proof. rewrite HEADER_ALIGN_eq. lia. Qed.

Lemma HEADER_ALIGN_mod x : HEADER_ALIGN x mod 4 = 0.
Proof. rewrite HEADER_ALIGN_eq. lia. Qed.

Lemma HEADER_ALIGN_id x : x mod 4 = 0 → HEADER_ALIGN x = x.
Proof. rewrite HEADER_ALIGN_eq. lia. Qed.

Lemma HEADER_ALIGN_add x y : x mod 4 = 0 → HEADER_ALIGN (x + y) = x + HEADER_ALIGN y.
Proof. rewrite !HEADER_ALIGN_eq. lia. Qed.

(** ** Names *)

Definition unit16 (u : Z) : Prop := 0 < u < 65536.

Lemma le_put2_inj u w : 0 ≤ u < 65536 → 0 ≤ w < 65536 → le_put 2 u = le_put 2 w → u = w.
Proof.
  intros Hu Hw E. rewrite <- (le_get_put 2 u), <- (le_get_put 2 w); [by rewrite E| |]; simpl; lia.
Qed.

Lemma length_name_bytes n : Z.of_nat (length (name_bytes n)) = StrSize n.
Proof.
  unfold name_bytes, StrSize. rewrite length_app. cbn [length].
  assert (length (flat_map (le_put 2) n) = 2 * length n)%nat as ->; [|lia].
  induction n as [|u n IH]; [done|]. cbn [flat_map]. rewrite length_app, length_le_put, IH. simpl. lia.
Qed.

Lemma name_bytes_prefix n1 n2 : Forall unit16 n1 → Forall unit16 n2 →
  name_bytes n1 `prefix_of` name_bytes n2 → n1 = n2.
Proof.
  intros H1. revert n2. induction H1 as [|u n1 Hu H1 IH]; intros n2 H2 [k Hk].
  - destruct H2 as [|w n2 Hw H2]; [done|]. exfalso. unfold name_bytes in Hk. simpl in Hk.
    injection Hk as E1 E2 _. unfold unit16 in Hw. lia.
  - destruct H2 as [|w n2 Hw H2]; unfold name_bytes in Hk; simpl in Hk.
    + exfalso. injection Hk as E1 E2 _. unfold unit16 in Hu. lia.
    + injection Hk as E1 E2 Hk. assert (u = w) as -> by (unfold unit16 in *; lia).
      f_equal. apply IH; [done|]. exists k. unfold name_bytes. done.
Qed.

Lemma name_bytes_compare n1 n2 : Forall unit16 n1 → Forall unit16 n2 →
  bool_decide (take (Z.to_nat (StrSize n2)) (name_bytes n1) = name_bytes n2) = bool_decide (n1 = n2).
Proof.
  intros H1 H2. apply bool_decide_ext. rewrite <- length_name_bytes, Nat2Z.id. split.
  - intros E. symmetry. apply name_bytes_prefix; [done|done|]. rewrite <- E. by apply prefix_take.
  - intros ->. apply firstn_all.
Qed.

(** ** Reading concatenated memory *)

Lemma rdb_app a b c m len off :
  m = a ++ b ++ c → off = Z.of_nat (length a) → len = length b → rdb m len off = Some b.
Proof.
  intros -> -> ->. unfold rdb, slice. rewrite !length_app.
  destruct ((0 <=? _) && _) eqn:E.
  - by rewrite Nat2Z.id, drop_app_length, take_app_length.
  - apply andb_false_iff in E as [E|E]; zbool; lia.
Qed.

Lemma rd_app a b c m len off x :
  m = a ++ b ++ c → off = Z.of_nat (length a) → len = length b → le_get b = x → rd m len off = Some x.
Proof. intros H1 H2 H3 <-. unfold rd. by rewrite (rdb_app a b c). Qed.

Lemma store_app (a b b' c : list Z) :
  length b' = length b → store (length a) b' (a ++ b ++ c) = a ++ b' ++ c.
Proof.
  intros Hl. unfold store. apply list_eq. intros i.
  destruct (decide (i < length a)%nat).
  { rewrite list_lookup_inserts_lt by lia. by rewrite !lookup_app_l by lia. }
  destruct (decide (i < length a + length b)%nat).
  { rewrite list_lookup_inserts by (rewrite ?length_app; lia).
    rewrite lookup_app_r, lookup_app_l by lia. done. }
  rewrite list_lookup_inserts_ge by lia. rewrite !(lookup_app_r a) by lia.
  rewrite !lookup_app_r by lia. f_equal. lia.
Qed.

(** ** Variables *)

Record Var := {
  v_state : Z; v_attrs : Z; v_name : CHAR16S; v_guid : EFI_GUID; v_data : list Z
}.

Record var_ok (v : Var) : Prop := {
  ok_state : 0 ≤ v_state v < 256;
  ok_attrs : 0 ≤ v_attrs v < 2 ^ 32;
  ok_name : Forall unit16 (v_name v);
  ok_guid : length (v_guid v) = 16%nat;
  ok_sizes : 32 + StrSize (v_name v) + Z.of_nat (length (v_data v)) < 2 ^ 30;
  ok_named : v_name v ≠ []
}.

(** The variable without padding. *)
Definition var_bytes (v : Var) : list Z :=
  le_put 2 VARIABLE_DATA ++ [v_state v; 0] ++ le_put 4 (v_attrs v) ++ le_put 4 (StrSize (v_name v)) ++
  le_put 4 (Z.of_nat (length (v_data v))) ++ v_guid v ++ name_bytes (v_name v) ++ v_data v.

Definition var_size (v : Var) : Z := 32 + StrSize (v_name v) + Z.of_nat (length (v_data v)).

Definition padding (v : Var) : list Z := replicate (Z.to_nat (HEADER_ALIGN (var_size v) - var_size v)) 0xff.

Definition encode (v : Var) : list Z := var_bytes v ++ padding v.

Definition encoded (vs : list Var) : list Z := flat_map encode vs.

Definition esize (v : Var) : Z := HEADER_ALIGN (var_size v).

Lemma StrSize_pos n : 2 ≤ StrSize n.
Proof. unfold StrSize. lia. Qed.

Lemma length_var_bytes v : var_ok v → Z.of_nat (length (var_bytes v)) = var_size v.
Proof.
  intros Hv. unfold var_bytes, var_size. rewrite !length_app, !length_le_put, (ok_guid v Hv).
  pose proof (length_name_bytes (v_name v)). simpl. lia.
Qed.

Lemma length_encode v : var_ok v → Z.of_nat (length (encode v)) = esize v.
Proof.
  intros Hv. unfold encode, padding, esize. rewrite length_app, length_replicate.
  pose proof (length_var_bytes v Hv). pose proof (HEADER_ALIGN_range (var_size v)). lia.
Qed.

Lemma esize_pos v : 34 ≤ esize v.
Proof.
  unfold esize. pose proof (HEADER_ALIGN_range (var_size v)). unfold var_size in *.
  pose proof (StrSize_pos (v_name v)). lia.
Qed.

Fixpoint esizes (vs : list Var) : Z :=
  match vs with [] => 0 | v :: vs => esize v + esizes vs end.

Lemma length_encoded vs : Forall var_ok vs → Z.of_nat (length (encoded vs)) = esizes vs.
Proof.
  induction 1 as [|v vs Hv Hvs IH]; [done|].
  change (encoded (v :: vs)) with (encode v ++ encoded vs). cbn [esizes].
  rewrite length_app, Nat2Z.inj_add, length_encode, IH by done. done.
Qed.

Lemma esizes_app vs1 vs2 : esizes (vs1 ++ vs2) = esizes vs1 + esizes vs2.
Proof. induction vs1 as [|v vs IH]; simpl; lia. Qed.

Lemma esizes_nonneg vs : 0 ≤ esizes vs.
Proof. induction vs as [|v vs IH]; simpl; [lia|]. pose proof (esize_pos v). lia. Qed.

Lemma esizes_mod vs : esizes vs mod 4 = 0.
Proof.
  induction vs as [|v vs IH]; simpl; [done|]. pose proof (HEADER_ALIGN_mod (var_size v)). unfold esize. lia.
Qed.

(** The fields of a variable in memory. *)
Section Fields.
Context (m pre post : list Z) (v : Var) (Hv : var_ok v) (Hm : m = pre ++ var_bytes v ++ post).
Abbreviation p := (Z.of_nat (length pre)).

Ltac field a b c :=
  apply (rd_app a b c); [rewrite Hm; unfold var_bytes; rewrite <- !app_assoc; reflexivity
    |rewrite ?length_app, ?length_le_put; simpl; lia|reflexivity|].

Lemma StartId_at : StartId m p = Some VARIABLE_DATA.
Proof.
  unfold StartId. field pre (le_put 2 VARIABLE_DATA)
    ([v_state v; 0] ++ le_put 4 (v_attrs v) ++ le_put 4 (StrSize (v_name v)) ++
     le_put 4 (Z.of_nat (length (v_data v))) ++ v_guid v ++ name_bytes (v_name v) ++ v_data v ++ post). done.
Qed.

Lemma State_at : State m p = Some (v_state v).
Proof.
  unfold State. field (pre ++ le_put 2 VARIABLE_DATA) [v_state v]
    ([0] ++ le_put 4 (v_attrs v) ++ le_put 4 (StrSize (v_name v)) ++
     le_put 4 (Z.of_nat (length (v_data v))) ++ v_guid v ++ name_bytes (v_name v) ++ v_data v ++ post).
  simpl. lia.
Qed.

Lemma Attributes_at : Attributes m p = Some (v_attrs v).
Proof.
  unfold Attributes. field (pre ++ le_put 2 VARIABLE_DATA ++ [v_state v; 0]) (le_put 4 (v_attrs v))
    (le_put 4 (StrSize (v_name v)) ++
     le_put 4 (Z.of_nat (length (v_data v))) ++ v_guid v ++ name_bytes (v_name v) ++ v_data v ++ post).
  apply le_get_put. pose proof (ok_attrs v Hv). simpl. lia.
Qed.

Lemma NameSize_at : NameSize m p = Some (StrSize (v_name v)).
Proof.
  unfold NameSize. field (pre ++ le_put 2 VARIABLE_DATA ++ [v_state v; 0] ++ le_put 4 (v_attrs v))
    (le_put 4 (StrSize (v_name v)))
    (le_put 4 (Z.of_nat (length (v_data v))) ++ v_guid v ++ name_bytes (v_name v) ++ v_data v ++ post).
  apply le_get_put. pose proof (ok_sizes v Hv). pose proof (StrSize_pos (v_name v)). simpl. lia.
Qed.

Lemma DataSize_at : DataSize m p = Some (Z.of_nat (length (v_data v))).
Proof.
  unfold DataSize. field (pre ++ le_put 2 VARIABLE_DATA ++ [v_state v; 0] ++ le_put 4 (v_attrs v) ++
      le_put 4 (StrSize (v_name v)))
    (le_put 4 (Z.of_nat (length (v_data v)))) (v_guid v ++ name_bytes (v_name v) ++ v_data v ++ post).
  apply le_get_put. pose proof (ok_sizes v Hv). pose proof (StrSize_pos (v_name v)). simpl. lia.
Qed.

Lemma VendorGuid_at : VendorGuid m p = Some (v_guid v).
Proof.
  unfold VendorGuid. apply (rdb_app (pre ++ le_put 2 VARIABLE_DATA ++ [v_state v; 0] ++ le_put 4 (v_attrs v) ++
      le_put 4 (StrSize (v_name v)) ++ le_put 4 (Z.of_nat (length (v_data v))))
    (v_guid v) (name_bytes (v_name v) ++ v_data v ++ post)).
  - rewrite Hm. unfold var_bytes. by rewrite <- !app_assoc.
  - rewrite !length_app, !length_le_put. simpl. lia.
  - by rewrite (ok_guid v Hv).
Qed.

Lemma name_read : rdb m (Z.to_nat (StrSize (v_name v))) (p + sizeof_VARIABLE_HEADER) = Some (name_bytes (v_name v)).
Proof.
  apply (rdb_app (pre ++ le_put 2 VARIABLE_DATA ++ [v_state v; 0] ++ le_put 4 (v_attrs v) ++
      le_put 4 (StrSize (v_name v)) ++ le_put 4 (Z.of_nat (length (v_data v))) ++ v_guid v)
    (name_bytes (v_name v)) (v_data v ++ post)).
  - rewrite Hm. unfold var_bytes. by rewrite <- !app_assoc.
  - rewrite !length_app, !length_le_put, (ok_guid v Hv). unfold sizeof_VARIABLE_HEADER. simpl. lia.
  - rewrite <- length_name_bytes. lia.
Qed.

Lemma data_read :
  rdb m (length (v_data v)) (p + sizeof_VARIABLE_HEADER + StrSize (v_name v)) = Some (v_data v).
Proof.
  apply (rdb_app (pre ++ le_put 2 VARIABLE_DATA ++ [v_state v; 0] ++ le_put 4 (v_attrs v) ++
      le_put 4 (StrSize (v_name v)) ++ le_put 4 (Z.of_nat (length (v_data v))) ++ v_guid v ++ name_bytes (v_name v))
    (v_data v) post).
  - rewrite Hm. unfold var_bytes. by rewrite <- !app_assoc.
  - rewrite !length_app, !length_le_put, (ok_guid v Hv). unfold sizeof_VARIABLE_HEADER.
    pose proof (length_name_bytes (v_name v)). simpl. lia.
  - done.
Qed.

Lemma DataPtr_at : GetVariableDataPtr m p = Some (Some (p + sizeof_VARIABLE_HEADER + StrSize (v_name v))).
Proof. unfold GetVariableDataPtr. rewrite StartId_at, NameSize_at. done. Qed.

Lemma variable_data_at : variable_data m p = Some (v_data v).
Proof.
  unfold variable_data. rewrite DataPtr_at, DataSize_at. simpl. rewrite Nat2Z.id. apply data_read.
Qed.

Lemma NextPotential_at : p mod 4 = 0 → GetNextPotentialVariablePtr m p = Some (Some (p + esize v)).
Proof.
  intros Hp. unfold GetNextPotentialVariablePtr. rewrite DataPtr_at, DataSize_at. simpl.
  rewrite <- !Z.add_assoc, HEADER_ALIGN_add by done. unfold esize, var_size, sizeof_VARIABLE_HEADER.
  rewrite <- Z.add_assoc. done.
Qed.
End Fields.

(** ** Walking through a store *)

(** The first two bytes of unused or of foreign memory. *)
Lemma StartId_free m pre free tail :
  m = pre ++ replicate free 0xff ++ tail → (2 ≤ free)%nat → StartId m (Z.of_nat (length pre)) = Some 0xffff.
Proof.
  intros -> Hf. unfold StartId. apply (rd_app pre (replicate 2 0xff) (replicate (free - 2) 0xff ++ tail)); try done.
  f_equal. rewrite (app_assoc (replicate 2 0xff)), <- replicate_add. do 2 f_equal. lia.
Qed.

Lemma StartId_some m q : 0 ≤ q → q + 2 ≤ Z.of_nat (length m) → ∃ x, StartId m q = Some x.
Proof.
  intros H1 H2. unfold StartId, rd, rdb.
  assert ((0 <=? q) && (q + Z.of_nat 2 <=? Z.of_nat (length m)) = true) as ->; [|by eexists].
  apply andb_true_iff. split; apply Z.leb_le; lia.
Qed.

Section Walk.
Context (m : list Z) (free : nat) (tail : list Z) (Htail : (2 ≤ length tail)%nat).

(** The variables [vs] are in memory from offset [length pre] on, up to the end of
    the store. *)
Definition at_ (pre : list Z) (vs : list Var) : Prop :=
  m = pre ++ encoded vs ++ replicate free 0xff ++ tail ∧ Z.of_nat (length pre) mod 4 = 0 ∧
  Forall var_ok vs ∧ GetEndPointer m = Some (Z.of_nat (length pre) + esizes vs + Z.of_nat free) ∧
  Z.of_nat free mod 4 = 0.

Lemma at_cons pre v vs : at_ pre (v :: vs) →
  m = pre ++ var_bytes v ++ (padding v ++ encoded vs ++ replicate free 0xff ++ tail) ∧
  at_ (pre ++ encode v) vs ∧ Z.of_nat (length (pre ++ encode v)) = Z.of_nat (length pre) + esize v.
Proof.
  intros (Hm & Hp & Hv & He & Hf). inversion Hv as [|? ? Hv1 Hvs]; subst x l.
  assert (Z.of_nat (length (pre ++ encode v)) = Z.of_nat (length pre) + esize v) as Hl.
  { rewrite length_app, Nat2Z.inj_add, length_encode by done. done. }
  split; [|split; [|done]].
  - rewrite Hm. change (encoded (v :: vs)) with (encode v ++ encoded vs). unfold encode.
    by rewrite <- !app_assoc.
  - split; [|split; [|split; [done|split; [|done]]]].
    + rewrite Hm. change (encoded (v :: vs)) with (encode v ++ encoded vs). by rewrite <- !app_assoc.
    + rewrite Hl. pose proof (HEADER_ALIGN_mod (var_size v)). unfold esize. lia.
    + rewrite He, Hl. simpl. f_equal. lia.
Qed.

Lemma at_nil_StartId pre : at_ pre [] → (0 < free)%nat → StartId m (Z.of_nat (length pre)) = Some 0xffff.
Proof. intros (Hm & _ & _ & _ & Hf) Hf0. apply (StartId_free m pre free tail); [done|lia]. Qed.

Lemma at_StartId pre vs : at_ pre vs → ∃ x, StartId m (Z.of_nat (length pre)) = Some x.
Proof.
  intros (Hm & _). apply StartId_some; [lia|]. rewrite Hm, !length_app. lia.
Qed.

(** The pointer to the variable after [v]: the next one, or a pointer at which
    every loop of the code stops. *)
Lemma next_at pre v vs : at_ pre (v :: vs) →
  ∃ r, GetNextVariablePtr m (Z.of_nat (length pre)) = Some r ∧
    match vs with
    | _ :: _ => r = Some (Z.of_nat (length pre) + esize v)
    | [] => r = None ∨ (r = Some (Z.of_nat (length pre) + esize v) ∧ free = 0%nat)
    end.
Proof.
  intros Hat. pose proof Hat as (_ & Hp & Hvs & _). inversion Hvs as [|? ? Hv _]; subst x l.
  destruct (at_cons _ _ _ Hat) as (Hm & Hat' & Hl).
  unfold GetNextVariablePtr. rewrite (NextPotential_at m pre _ v Hv Hm Hp). simpl. rewrite <- Hl.
  destruct vs as [|w vs].
  - destruct (at_StartId _ _ Hat') as (x & Hx). destruct (decide (free = 0%nat)) as [Hf|Hf].
    + rewrite Hx. simpl. eexists. split; [reflexivity|]. case_match; [by right|by left].
    + rewrite (at_nil_StartId _ Hat') by lia. simpl. eexists. split; [reflexivity|]. by left.
  - pose proof Hat' as (_ & _ & Hws & _). inversion Hws as [|? ? Hw _]; subst x l.
    destruct (at_cons _ _ _ Hat') as (Hm' & _ & _).
    rewrite (StartId_at m _ _ w Hm'). simpl. by eexists.
Qed.

(** ** Finding *)

(** What the loop of [FindVariable] looks for. *)
Definition matches (rt : bool) (name : CHAR16S) (guid : EFI_GUID) (v : Var) : bool :=
  (v_state v =? VAR_ADDED) && (negb rt || negb (no_bits (v_attrs v) EFI_VARIABLE_RUNTIME_ACCESS))
  && (bool_decide (name = []) || (bool_decide (guid = v_guid v) && bool_decide (name = v_name v))).

Lemma find_match_at pre v vs rt name guid : at_ pre (v :: vs) → Forall unit16 name →
  find_match m rt name guid (Z.of_nat (length pre)) = Some (matches rt name guid v).
Proof.
  intros Hat Hn. pose proof Hat as (_ & _ & Hvs & _). inversion Hvs as [|? ? Hv _]; subst x l.
  destruct (at_cons _ _ _ Hat) as (Hm & _ & _).
  unfold find_match, matches. rewrite (StartId_at _ _ _ _ Hm). simpl.
  rewrite (State_at _ _ _ _ Hm). simpl. destruct (v_state v =? VAR_ADDED); [|done]. simpl.
  assert ((if rt then a ← Attributes m (Z.of_nat (length pre)); Some (negb (no_bits a EFI_VARIABLE_RUNTIME_ACCESS)) else Some true)
    = Some (negb rt || negb (no_bits (v_attrs v) EFI_VARIABLE_RUNTIME_ACCESS))) as ->.
  { destruct rt; [|done]. rewrite (Attributes_at _ _ _ _ Hv Hm). done. }
  simpl. destruct (negb rt || _); [|done]. simpl. case_bool_decide as Hne; [done|].
  rewrite (VendorGuid_at _ _ _ _ Hv Hm). simpl. case_bool_decide as Hg; [|done]. simpl.
  rewrite (NameSize_at _ _ _ _ Hv Hm). simpl. rewrite (name_read _ _ _ _ Hv Hm). simpl.
  f_equal. apply name_bytes_compare; [done|apply (ok_name v Hv)].
Qed.

(** The offset of the first match, the list starting at offset [off]. *)
Fixpoint find_var (rt : bool) (name : CHAR16S) (guid : EFI_GUID) (vs : list Var) (off : Z) : option Z :=
  match vs with
  | [] => None
  | v :: vs => if matches rt name guid v then Some off else find_var rt name guid vs (off + esize v)
  end.

Lemma find_walk_ok rt name guid vs pre fuel :
  at_ pre vs → Forall unit16 name → (length vs < fuel)%nat →
  find_walk fuel m rt name guid (Z.of_nat (length pre)) = Some (find_var rt name guid vs (Z.of_nat (length pre))).
Proof.
  intros Hat Hn. revert pre fuel Hat. induction vs as [|v vs IH]; intros pre fuel Hat Hf;
    (destruct fuel as [|fuel]; [simpl in Hf; lia|]); cbn [find_walk find_var].
  - pose proof Hat as (_ & _ & _ & He & _). rewrite He. simpl.
    destruct (Z.ltb_spec (Z.of_nat (length pre)) (Z.of_nat (length pre) + 0 + Z.of_nat free)); [|done].
    unfold find_match, GetNextVariablePtr, GetNextPotentialVariablePtr, GetVariableDataPtr.
    rewrite (at_nil_StartId _ Hat) by lia. done.
  - pose proof Hat as (_ & _ & _ & He & _). rewrite He. simpl.
    pose proof (esize_pos v). pose proof (esizes_nonneg vs).
    destruct (Z.ltb_spec (Z.of_nat (length pre)) (Z.of_nat (length pre) + (esize v + esizes vs) + Z.of_nat free)); [|lia].
    rewrite (find_match_at _ _ _ _ _ _ Hat Hn). simpl.
    destruct (matches rt name guid v); [done|].
    destruct (next_at _ _ _ Hat) as (r & Hr & Hvs). rewrite Hr. simpl.
    destruct (at_cons _ _ _ Hat) as (_ & Hat' & Hl). rewrite <- Hl.
    destruct vs as [|w vs].
    + destruct Hvs as [->|[-> Hf0]]; [done|]. rewrite <- Hl. apply IH; [done|]. simpl in *. lia.
    + rewrite Hvs, <- Hl. apply IH; [done|]. simpl in *. lia.
Qed.
End Walk.

(** ** Representation of a store *)

Definition store_rep (size : Z) (m : list Z) (vs : list Var) : Prop :=
  ∃ hdr free tail, m = hdr ++ encoded vs ++ replicate free 0xff ++ tail ∧
    length hdr = 28%nat ∧ rd hdr 4 16 = Some size ∧ 28 + esizes vs + Z.of_nat free = size ∧
    (2 ≤ length tail)%nat ∧ Forall var_ok vs ∧ size mod 4 = 0 ∧ size < 2 ^ 31.

Lemma rd_app_l m1 m2 len off x : rd m1 len off = Some x → rd (m1 ++ m2) len off = Some x.
Proof.
  unfold rd, rdb. destruct ((0 <=? off) && (off + Z.of_nat len <=? Z.of_nat (length m1))) eqn:E; [|done].
  zbool. rewrite length_app.
  assert ((0 <=? off) && (off + Z.of_nat len <=? Z.of_nat (length m1 + length m2)) = true) as ->.
  { apply andb_true_iff. split; apply Z.leb_le; lia. }
  simpl. intros [= <-]. unfold slice. rewrite drop_app_le by lia. rewrite take_app_le; [done|].
  rewrite length_drop. lia.
Qed.

Lemma store_rep_size size m vs : store_rep size m vs → StoreSize m = Some size.
Proof. intros (hdr & free & tail & -> & _ & Hs & _). unfold StoreSize. by apply rd_app_l. Qed.

Lemma store_rep_at size m vs : store_rep size m vs →
  ∃ hdr free tail, at_ m free tail hdr vs ∧ (2 ≤ length tail)%nat ∧ length hdr = 28%nat ∧
    28 + esizes vs + Z.of_nat free = size ∧ Z.of_nat (length m) = size + Z.of_nat (length tail) ∧
    rd hdr 4 16 = Some size ∧ size < 2 ^ 31.
Proof.
  intros Hrep. pose proof (store_rep_size _ _ _ Hrep) as Hsz.
  destruct Hrep as (hdr & free & tail & Hm & Hh & Hs & Hsize & Ht & Hvs & Hmod & Hlt).
  pose proof (esizes_mod vs). exists hdr, free, tail. split; [|split; [done|split; [done|split; [done|]]]].
  - split; [done|]. rewrite Hh. split; [done|]. split; [done|]. split; [|lia].
    unfold GetEndPointer. rewrite Hsz. simpl. rewrite HEADER_ALIGN_id by done. f_equal. lia.
  - rewrite Hm, !length_app, length_replicate, Hh. pose proof (length_encoded vs Hvs). split; [lia|done].
Qed.

Lemma vars_count size m vs : store_rep size m vs → (length vs + 1 < length m)%nat.
Proof.
  intros Hrep. destruct (store_rep_at _ _ _ Hrep) as (hdr & free & tail & _ & Ht & _ & Hs & Hl & _).
  assert (34 * Z.of_nat (length vs) ≤ esizes vs); [|lia].
  clear. induction vs as [|v vs IH]; simpl; [lia|]. pose proof (esize_pos v). lia.
Qed.

Lemma vars_fit size m vs : store_rep size m vs → (length vs < length m)%nat.
Proof. intros H%vars_count. lia. Qed.

Lemma first_variable_eq : first_variable = 28.
Proof. done. Qed.

(** [FindVariable]'s walk through one store is a search in its list. *)
Lemma store_find size m vs rt name guid :
  store_rep size m vs → Forall unit16 name →
  find_walk (length m) m rt name guid first_variable = Some (find_var rt name guid vs 28).
Proof.
  intros Hrep Hn. destruct (store_rep_at _ _ _ Hrep) as (hdr & free & tail & Hat & Ht & Hh & _).
  rewrite first_variable_eq. change 28 with (Z.of_nat 28). rewrite <- Hh.
  apply (find_walk_ok m free tail Ht); [done|done|]. by eapply vars_fit.
Qed.

Lemma find_var_Some rt name guid vs off p : find_var rt name guid vs off = Some p →
  ∃ l1 v l2, vs = l1 ++ v :: l2 ∧ p = off + esizes l1 ∧ matches rt name guid v = true ∧
    (∀ u, u ∈ l1 → matches rt name guid u = false).
Proof.
  revert off. induction vs as [|v vs IH]; intros off; simpl; [done|].
  destruct (matches rt name guid v) eqn:E.
  - intros [= <-]. exists [], v, vs. split; [done|]. split; [simpl; lia|]. split; [done|].
    by intros u ?%not_elem_of_nil.
  - intros (l1 & w & l2 & -> & -> & Hw & Hl)%IH. exists (v :: l1), w, l2. split; [done|].
    split; [simpl; lia|]. split; [done|]. intros u [->|Hu]%elem_of_cons; [done|by apply Hl].
Qed.

Lemma find_var_None rt name guid vs off :
  find_var rt name guid vs off = None ↔ ∀ u, u ∈ vs → matches rt name guid u = false.
Proof.
  revert off. induction vs as [|v vs IH]; intros off; simpl.
  - split; [|done]. by intros _ u ?%not_elem_of_nil.
  - destruct (matches rt name guid v) eqn:E.
    + split; [done|]. intros H. specialize (H v (list_elem_of_here _ _)). congruence.
    + rewrite IH. split.
      * intros H u [->|Hu]%elem_of_cons; [done|by apply H].
      * intros H u Hu. by apply H, list_elem_of_further.
Qed.

(** ** Writing *)

Definition with_state (b : Z) (v : Var) : Var :=
  {| v_state := b; v_attrs := v_attrs v; v_name := v_name v; v_guid := v_guid v; v_data := v_data v |}.

Lemma encoded_app vs1 vs2 : encoded (vs1 ++ vs2) = encoded vs1 ++ encoded vs2.
Proof. apply flat_map_app. Qed.

Lemma with_state_ok b v : var_ok v → 0 ≤ b < 256 → var_ok (with_state b v).
Proof. intros [H1 H2 H3 H4 H5 H6] Hb. by split. Qed.

Lemma store_set_state size m l1 v l2 b :
  store_rep size m (l1 ++ v :: l2) → 0 ≤ b < 256 →
  let p := 28 + esizes l1 in
  0 ≤ p + 2 ∧ p + 2 + 1 ≤ Z.of_nat (length m) ∧
  store_rep size (store (Z.to_nat (p + 2)) [b] m) (l1 ++ with_state b v :: l2).
Proof.
  intros (hdr & free & tail & Hm & Hh & Hs & Hsz & Ht & Hvs & Hmod & Hlt) Hb p.
  apply Forall_app in Hvs as [Hl1 Hvl2]. inversion Hvl2 as [|? ? Hv Hl2]; subst x l.
  pose proof (length_encoded l1 Hl1) as He1. pose proof (esizes_nonneg l1).
  set (a := hdr ++ encoded l1 ++ le_put 2 VARIABLE_DATA).
  set (c := [0] ++ le_put 4 (v_attrs v) ++ le_put 4 (StrSize (v_name v)) ++
      le_put 4 (Z.of_nat (length (v_data v))) ++ v_guid v ++ name_bytes (v_name v) ++ v_data v ++
      padding v ++ encoded l2 ++ replicate free 0xff ++ tail).
  assert (m = a ++ [v_state v] ++ c) as Hm'.
  { rewrite Hm, encoded_app. change (encoded (v :: l2)) with (encode v ++ encoded l2).
    unfold encode, var_bytes, a, c. by rewrite <- !app_assoc. }
  assert (Z.to_nat (p + 2) = length a) as Hp.
  { unfold a, p. rewrite !length_app, length_le_put, Hh. lia. }
  split; [lia|]. split; [rewrite Hm', !length_app; simpl length at 2; lia|].
  rewrite Hp, Hm', store_app by done. exists hdr, free, tail.
  split; [|split; [done|split; [done|split; [|split; [done|split; [|done]]]]]].
  - unfold a, c. rewrite encoded_app. change (encoded (with_state b v :: l2)) with (encode (with_state b v) ++ encoded l2).
    unfold encode, var_bytes, padding, var_size, with_state. simpl v_state. by rewrite <- !app_assoc.
  - rewrite esizes_app in *. done.
  - apply Forall_app. split; [done|]. constructor; [by apply with_state_ok|done].
Qed.

Lemma store_append size m vs v :
  store_rep size m vs → var_ok v → 28 + esizes vs + esize v ≤ size →
  let off := 28 + esizes vs in
  0 ≤ off ∧ off + Z.of_nat (length (var_bytes v)) ≤ Z.of_nat (length m) ∧
  store_rep size (store (Z.to_nat off) (var_bytes v) m) (vs ++ [v]).
Proof.
  intros (hdr & free & tail & Hm & Hh & Hs & Hsz & Ht & Hvs & Hmod & Hlt) Hv Hfit off.
  pose proof (length_encoded vs Hvs) as He. pose proof (length_var_bytes v Hv) as Hlv.
  pose proof (HEADER_ALIGN_range (var_size v)) as Ha. fold (esize v) in Ha. pose proof (esizes_nonneg vs).
  set (n := length (var_bytes v)) in *.
  set (rest := (free - Z.to_nat (esize v))%nat).
  assert (replicate free 0xff = replicate n 0xff ++ padding v ++ replicate rest 0xff) as Hrep.
  { unfold padding. fold (esize v). rewrite <- !replicate_add. f_equal. unfold rest. lia. }
  assert (m = (hdr ++ encoded vs) ++ replicate n 0xff ++ (padding v ++ replicate rest 0xff ++ tail)) as Hm'.
  { rewrite Hm, Hrep. by rewrite <- !app_assoc. }
  assert (Z.to_nat off = length (hdr ++ encoded vs)) as Hoff.
  { unfold off. rewrite length_app, Hh. lia. }
  split; [lia|]. split; [rewrite Hm', length_app, <- Hoff, length_app, length_replicate; lia|].
  rewrite Hoff, Hm', store_app by by rewrite length_replicate.
  exists hdr, rest, tail. split; [|split; [done|split; [done|split; [|split; [done|split; [|done]]]]]].
  - rewrite encoded_app. change (encoded [v]) with (encode v ++ []). unfold encode. by rewrite app_nil_r, <- !app_assoc.
  - rewrite esizes_app. simpl. unfold rest. lia.
  - apply Forall_app. split; [done|]. by constructor.
Qed.
