(* ===== verification/EmuSpec.v ===== *)
(** * EmuVariable: the services refine an abstract variable list

    The abstract state is the pair of the two lists of variables, deleted ones
    included.  [spec_set] says what setting a variable does to it and [lookup] what
    reading one returns; the services implement them. *)

From Stdlib Require Import ZArith Lia.
From stdpp Require Import base list list_numbers strings.
From S2P Require Import Prelude.
From S2P Require Import EmuLang.
From S2P Require Import EmuVariable.
From S2P Require Import EmuStore.

Open Scope Z_scope.

(** ** Abstract state and operations *)

Definition pick (vol : bool) (st : list Var * list Var) : list Var := if vol then st.2 else st.1.

Definition put_vars (vol : bool) (l : list Var) (st : list Var * list Var) : list Var * list Var :=
  if vol then (st.1, l) else (l, st.2).

(** The variable a search finds: its store, its position and itself. *)
Definition locate (rt : bool) (name : CHAR16S) (guid : EFI_GUID) (st : list Var * list Var)
    : option (bool * nat * Var) :=
  match list_find (λ v, matches rt name guid v = true) st.1 with
  | Some (i, v) => Some (false, i, v)
  | None =>
      match list_find (λ v, matches rt name guid v = true) st.2 with
      | Some (i, v) => Some (true, i, v)
      | None => None
      end
  end.

Definition lookup (rt : bool) (name : CHAR16S) (guid : EFI_GUID) (st : list Var * list Var) : option Var :=
  (λ x, x.2) <$> locate rt name guid st.

(** Set the state byte of the variable at position [i]. *)
Definition mark (vol : bool) (i : nat) (v : Var) (b : Z) (st : list Var * list Var) : list Var * list Var :=
  put_vars vol (<[i := with_state b v]> (pick vol st)) st.

Definition is_hw (a : Z) : bool := negb (no_bits a EFI_VARIABLE_HARDWARE_ERROR_RECORD).

(** The space taken by the hardware error records, and by the others. *)
Definition hw_total (l : list Var) : Z := esizes (filter (λ v, is_hw (v_attrs v) = true) l).
Definition common_total (l : list Var) : Z := esizes (filter (λ v, is_hw (v_attrs v) = false) l).

Definition new_var (name : CHAR16S) (guid : EFI_GUID) (data : list Z) (attrs : Z) : Var :=
  {| v_state := VAR_ADDED; v_attrs := attrs; v_name := name; v_guid := guid; v_data := data |}.

Section Spec.
Context (pcd : Pcds).
Abbreviation size := (PcdVariableStoreSize pcd).

(** There is room for [v] in the store its attributes select. *)
Definition fits (st : list Var * list Var) (v : Var) : bool :=
  if no_bits (v_attrs v) EFI_VARIABLE_NON_VOLATILE then 28 + esizes st.2 + esize v <=? size
  else if is_hw (v_attrs v) then hw_total st.1 + esize v <=? PcdHwErrStorageSize pcd
  else common_total st.1 + esize v <=? size - 28 - PcdHwErrStorageSize pcd.

Definition append (v : Var) (st : list Var * list Var) : list Var * list Var :=
  let vol := no_bits (v_attrs v) EFI_VARIABLE_NON_VOLATILE in put_vars vol (pick vol st ++ [v]) st.

Definition deletes (data : list Z) (attrs : Z) : bool :=
  (Z.of_nat (length data) =? 0) || no_access attrs.

(** What [UpdateVariable] does once the variable has been searched. *)
Definition spec_update (rt : bool) (name : CHAR16S) (guid : EFI_GUID) (data : list Z) (attrs : Z)
    (st : list Var * list Var) : EFI_STATUS * (list Var * list Var) :=
  let v' := new_var name guid data attrs in
  match locate rt name guid st with
  | Some (vol, i, v) =>
      if rt && vol then (EFI_WRITE_PROTECTED, st)
      else if rt && no_bits (v_attrs v) EFI_VARIABLE_NON_VOLATILE then (EFI_INVALID_PARAMETER, st)
      else if deletes data attrs then (EFI_SUCCESS, mark vol i v (Z.land VAR_ADDED VAR_DELETED) st)
      else if bool_decide (data = v_data v) then (EFI_SUCCESS, st)
      else
        let b := Z.land VAR_ADDED VAR_IN_DELETED_TRANSITION in
        let st1 := mark vol i v b st in
        if fits st1 v' then (EFI_SUCCESS, mark vol i v (Z.land b VAR_DELETED) (append v' st1))
        else (EFI_OUT_OF_RESOURCES, st1)
  | None =>
      if deletes data attrs then (EFI_NOT_FOUND, st)
      else if rt && (no_bits attrs EFI_VARIABLE_RUNTIME_ACCESS || no_bits attrs EFI_VARIABLE_NON_VOLATILE)
      then (EFI_INVALID_PARAMETER, st)
      else if fits st v' then (EFI_SUCCESS, append v' st)
      else (EFI_OUT_OF_RESOURCES, st)
  end.

(** The parameter checks of [EmuSetVariable]. *)
Definition valid_args (name : CHAR16S) (data : list Z) (attrs : Z) : bool :=
  negb (bool_decide (name = [])) && no_bits attrs EFI_VARIABLE_AUTHENTICATED_WRITE_ACCESS
  && negb (Z.land attrs (Z.lor EFI_VARIABLE_RUNTIME_ACCESS EFI_VARIABLE_BOOTSERVICE_ACCESS) =? EFI_VARIABLE_RUNTIME_ACCESS)
  && (StrSize name + Z.of_nat (length data)
      <=? (if is_hw attrs then PcdMaxHardwareErrorVariableSize pcd else PcdMaxVariableSize pcd) - 32)
  && (negb (is_hw attrs) || bool_decide (take 8 name = str_bytes "HwErrRec")).

Definition spec_set (rt : bool) (name : CHAR16S) (guid : EFI_GUID) (data : list Z) (attrs : Z)
    (st : list Var * list Var) : EFI_STATUS * (list Var * list Var) :=
  if valid_args name data attrs then spec_update rt name guid data attrs st
  else (EFI_INVALID_PARAMETER, st).

(** ** Representation *)

Record pcd_ok : Prop := {
  pcd_hw : 0 ≤ PcdHwErrStorageSize pcd ≤ size - 28;
  pcd_max : 32 ≤ PcdMaxVariableSize pcd ≤ 2 ^ 29;
  pcd_maxhw : 32 ≤ PcdMaxHardwareErrorVariableSize pcd ≤ 2 ^ 29;
  pcd_size : 28 < size < 2 ^ 30
}.

Record emu_rep (s : Emu) (st : list Var * list Var) : Prop := {
  rep_store : ∀ vol, store_rep size (the_store vol s) (pick vol st);
  rep_nl : NonVolatileLastVariableOffset s = 28 + esizes st.1;
  rep_vl : VolatileLastVariableOffset s = 28 + esizes st.2;
  rep_common : CommonVariableTotalSize s = common_total st.1;
  rep_hw : HwErrVariableTotalSize s = hw_total st.1;
  rep_common_max : common_total st.1 ≤ size - 28 - PcdHwErrStorageSize pcd;
  rep_hw_max : hw_total st.1 ≤ PcdHwErrStorageSize pcd
}.
End Spec.

(** ** Lemmas on totals *)

Lemma totals_cons v l :
  common_total (v :: l) = (if is_hw (v_attrs v) then 0 else esize v) + common_total l ∧
  hw_total (v :: l) = (if is_hw (v_attrs v) then esize v else 0) + hw_total l.
Proof. unfold common_total, hw_total. rewrite !filter_cons. by destruct (is_hw (v_attrs v)). Qed.

Lemma totals l : common_total l + hw_total l = esizes l.
Proof.
  unfold common_total, hw_total. induction l as [|v l IH]; [done|]. rewrite !filter_cons.
  destruct (is_hw (v_attrs v)) eqn:E; simpl; lia.
Qed.

Lemma esizes_insert l i v b : l !! i = Some v → esizes (<[i := with_state b v]> l) = esizes l.
Proof.
  revert i. induction l as [|w l IH]; intros [|i] Hi; try done; simpl in *.
  - by injection Hi as ->.
  - by rewrite IH.
Qed.

Lemma filter_insert l i v b c : l !! i = Some v →
  esizes (filter (λ v, is_hw (v_attrs v) = c) (<[i := with_state b v]> l)) =
  esizes (filter (λ v, is_hw (v_attrs v) = c) l).
Proof.
  revert i. induction l as [|w l IH]; intros [|i] Hi; try done; simpl in *; rewrite !filter_cons.
  - injection Hi as ->. simpl. by case_decide.
  - case_decide; simpl; by rewrite IH.
Qed.

Lemma insert_middle {A} (l1 : list A) x y l2 : <[length l1 := y]> (l1 ++ x :: l2) = l1 ++ y :: l2.
Proof. rewrite insert_app_r_alt by done. by rewrite Nat.sub_diag. Qed.

Lemma lookup_middle {A} (l1 : list A) x l2 : (l1 ++ x :: l2) !! length l1 = Some x.
Proof. by apply list_lookup_middle. Qed.

(** ** Searching *)

Lemma find_var_list_find rt name guid l off :
  match list_find (λ v, matches rt name guid v = true) l with
  | Some (i, v) => ∃ l1 l2, l = l1 ++ v :: l2 ∧ length l1 = i ∧ find_var rt name guid l off = Some (off + esizes l1)
  | None => find_var rt name guid l off = None
  end.
Proof.
  revert off. induction l as [|v l IH]; intros off; simpl; [done|].
  destruct (decide (matches rt name guid v = true)) as [E|E].
  - rewrite E. exists [], l. split; [done|]. split; [done|]. f_equal. simpl. lia.
  - apply not_true_iff_false in E. rewrite E. specialize (IH (off + esize v)).
    destruct (list_find _ l) as [[i w]|]; simpl; [|done].
    destruct IH as (l1 & l2 & -> & <- & ->). exists (v :: l1), l2. split; [done|]. split; [done|].
    f_equal. simpl. lia.
Qed.

(** The pointer of a located variable. *)
Definition at_pos (vol : bool) (i : nat) (v : Var) (p : Z) (st : list Var * list Var) : Prop :=
  ∃ l1 l2, pick vol st = l1 ++ v :: l2 ∧ length l1 = i ∧ p = 28 + esizes l1.

Section Find.
Context (pcd : Pcds) (uninit : bool) {s : Emu} {st : list Var * list Var} (Hrep : emu_rep pcd s st).

Lemma FindVariable_ok name guid : Forall unit16 name →
  match locate (mAtRuntime s) name guid st with
  | Some (vol, i, v) => ∃ p, at_pos vol i v p st ∧
      FindVariable_ uninit s name (Some guid) = Some (EFI_SUCCESS, {| CurrPtr := Some p; TVolatile := vol |})
  | None => FindVariable_ uninit s name (Some guid) = Some (EFI_NOT_FOUND, {| CurrPtr := None; TVolatile := uninit |})
  end.
Proof.
  intros Hn. unfold locate.
  pose proof (store_find _ _ _ (mAtRuntime s) name guid (rep_store _ _ _ Hrep false) Hn) as Hnv.
  pose proof (store_find _ _ _ (mAtRuntime s) name guid (rep_store _ _ _ Hrep true) Hn) as Hvol.
  simpl pick in *. pose proof (find_var_list_find (mAtRuntime s) name guid st.1 28) as Hf.
  assert (FindVariable_ uninit s name (Some guid) =
    (r ← Some (find_var (mAtRuntime s) name guid st.1 28);
     match r with
     | Some p => Some (EFI_SUCCESS, {| CurrPtr := Some p; TVolatile := false |})
     | None => r ← Some (find_var (mAtRuntime s) name guid st.2 28);
         match r with
         | Some p => Some (EFI_SUCCESS, {| CurrPtr := Some p; TVolatile := true |})
         | None => Some (EFI_NOT_FOUND, {| CurrPtr := None; TVolatile := uninit |})
         end
     end)) as ->.
  { unfold FindVariable_. cbn [default]. rewrite <- Hnv, <- Hvol. by destruct name. }
  cbn [mbind option_bind].
  destruct (list_find _ st.1) as [[i v]|].
  { destruct Hf as (l1 & l2 & E & Hi & ->). exists (28 + esizes l1). split; [|done]. by exists l1, l2. }
  rewrite Hf. pose proof (find_var_list_find (mAtRuntime s) name guid st.2 28) as Hf2.
  destruct (list_find _ st.2) as [[i v]|].
  { destruct Hf2 as (l1 & l2 & E & Hi & ->). exists (28 + esizes l1). split; [|done]. by exists l1, l2. }
  by rewrite Hf2.
Qed.

Lemma locate_matches name guid vol i v :
  locate (mAtRuntime s) name guid st = Some (vol, i, v) →
  pick vol st !! i = Some v ∧ matches (mAtRuntime s) name guid v = true.
Proof.
  unfold locate. destruct (list_find _ st.1) as [[j w]|] eqn:E1.
  - intros [= <- <- <-]. apply list_find_Some in E1. naive_solver.
  - destruct (list_find _ st.2) as [[j w]|] eqn:E2; [|done].
    intros [= <- <- <-]. apply list_find_Some in E2. naive_solver.
Qed.

(** The bytes of a located variable. *)
Lemma at_pos_bytes vol i v p : at_pos vol i v p st →
  ∃ pre post, the_store vol s = pre ++ var_bytes v ++ post ∧ p = Z.of_nat (length pre) ∧ var_ok v.
Proof.
  intros (l1 & l2 & E & _ & ->). destruct (rep_store _ _ _ Hrep vol) as (hdr & free & tail & Hm & Hh & _ & _ & _ & Hvs & _).
  rewrite E in Hm, Hvs. apply Forall_app in Hvs as [Hl1 Hv]. inversion Hv as [|? ? Hv1 _]; subst x l.
  exists (hdr ++ encoded l1), (padding v ++ encoded l2 ++ replicate free 0xff ++ tail).
  split; [|split; [|done]].
  - rewrite Hm, encoded_app. change (encoded (v :: l2)) with (encode v ++ encoded l2). unfold encode.
    by rewrite <- !app_assoc.
  - rewrite length_app, Hh. pose proof (length_encoded l1 Hl1). lia.
Qed.
End Find.
