(* ===== verification/EmuRefine.v ===== *)
(** * EmuVariable: proof of the refinement *)

From Stdlib Require Import ZArith Lia.
From stdpp Require Import base list list_numbers strings.
From S2P Require Import Prelude.
From S2P Require Import EmuLang.
From S2P Require Import EmuVariable.
From S2P Require Import EmuStore.
From S2P Require Import EmuSpec.

Open Scope Z_scope.

Lemma bind_peek {A B} (f : Emu → option A) (k : A → M Emu B) s a :
  f s = Some a → (peek f ≫= k) s = k a s.
Proof. intros E. unfold mbind, M_bind, peek. by rewrite E. Qed.

(** The parts of the module state that the store operations leave alone. *)
Definition same_mode (s s' : Emu) : Prop :=
  mAtRuntime s' = mAtRuntime s ∧ PlatformLangCodes s' = PlatformLangCodes s ∧ LangCodes s' = LangCodes s.

Lemma same_mode_trans s1 s2 s3 : same_mode s1 s2 → same_mode s2 s3 → same_mode s1 s3.
Proof. unfold same_mode. intuition congruence. Qed.

Lemma esizes_filter l (P : Var → Prop) `{!∀ v, Decision (P v)} : 0 ≤ esizes (filter P l).
Proof. apply esizes_nonneg. Qed.

Section Refine.
Context (pcd : Pcds) (uninit : bool) (Hpcd : pcd_ok pcd).
Abbreviation size := (PcdVariableStoreSize pcd).
Implicit Types st : list Var * list Var.

(** Statistics do not concern the representation. *)
Lemma info_ok name guid vol a b c d s st :
  emu_rep pcd s st →
  ∃ s', UpdateVariableInfo pcd name guid vol a b c d s = Some (tt, s') ∧ emu_rep pcd s' st ∧ same_mode s s'.
Proof.
  intros Hr. eexists. split; [reflexivity|]. destruct (_ && _); [|by split].
  split; [|by repeat split]. destruct Hr as [H1 H2 H3 H4 H5 H6 H7]. by split.
Qed.

Lemma mark_totals vol i v b st : pick vol st !! i = Some v →
  esizes (mark vol i v b st).1 = esizes st.1 ∧ esizes (mark vol i v b st).2 = esizes st.2 ∧
  common_total (mark vol i v b st).1 = common_total st.1 ∧ hw_total (mark vol i v b st).1 = hw_total st.1.
Proof.
  intros Hi. unfold mark, put_vars, common_total, hw_total. destruct vol; simpl in *.
  - by rewrite esizes_insert.
  - by rewrite esizes_insert, !filter_insert.
Qed.

Lemma at_pos_lookup vol i v p st : at_pos vol i v p st → pick vol st !! i = Some v.
Proof. intros (l1 & l2 & -> & <- & _). apply lookup_middle. Qed.

(** [CurrPtr->State &= mask]. *)
Lemma and_state_ok vol i v p mask s st :
  emu_rep pcd s st → at_pos vol i v p st → 0 ≤ Z.land (v_state v) mask < 256 →
  ∃ s', and_state vol p mask s = Some (tt, s') ∧
    emu_rep pcd s' (mark vol i v (Z.land (v_state v) mask) st) ∧ same_mode s s'.
Proof.
  intros Hr Hat Hb. destruct (at_pos_bytes pcd Hr _ _ _ _ Hat) as (pre & post & Hm & Hp & Hv).
  unfold and_state. rewrite (bind_peek _ _ _ (v_state v)) by (rewrite Hp; by eapply State_at).
  pose proof (at_pos_lookup _ _ _ _ _ Hat) as Hl. pose proof Hat as (l1 & l2 & E & Hi & Hp').
  pose proof (rep_store _ _ _ Hr vol) as Hs. rewrite E in Hs.
  destruct (store_set_state _ _ _ _ _ (Z.land (v_state v) mask) Hs Hb) as (H1 & H2 & H3).
  unfold wr. rewrite Hp'.
  assert ((0 <=? 28 + esizes l1 + 2) && (28 + esizes l1 + 2 + Z.of_nat (length [Z.land (v_state v) mask])
      <=? Z.of_nat (length (the_store vol s))) = true) as ->.
  { apply andb_true_iff. split; apply Z.leb_le; simpl; lia. }
  eexists. split; [reflexivity|]. split; [|by repeat split].
  destruct (mark_totals vol i v (Z.land (v_state v) mask) st Hl) as (T1 & T2 & T3 & T4).
  destruct Hr as [R1 R2 R3 R4 R5 R6 R7]. split; rewrite ?T1, ?T2, ?T3, ?T4; try done.
  intros vol'. destruct (decide (vol' = vol)) as [->|Hne].
  - assert (pick vol (mark vol i v (Z.land (v_state v) mask) st) = l1 ++ with_state (Z.land (v_state v) mask) v :: l2) as ->.
    { unfold mark, put_vars. rewrite E, <- Hi, insert_middle. by destruct vol. }
    assert (the_store vol (set_store vol (store (Z.to_nat (28 + esizes l1 + 2)) [Z.land (v_state v) mask] (the_store vol s)) s)
      = store (Z.to_nat (28 + esizes l1 + 2)) [Z.land (v_state v) mask] (the_store vol s)) as -> by by destruct vol.
    done.
  - specialize (R1 vol'). by destruct vol, vol'.
Qed.

Lemma mark_at_pos vol i v p b st : at_pos vol i v p st → at_pos vol i (with_state b v) p (mark vol i v b st).
Proof.
  intros (l1 & l2 & E & Hi & ->). exists l1, l2. split; [|done].
  unfold mark, put_vars. rewrite E, <- Hi, insert_middle. by destruct vol.
Qed.

Lemma mark_mark vol i v b b' st : mark vol i (with_state b v) b' (mark vol i v b st) = mark vol i v b' st.
Proof.
  unfold mark, put_vars. destruct vol, st as [nv vl]; simpl; f_equal; apply list_insert_insert_eq.
Qed.

Lemma append_at_pos vol i v p w st : at_pos vol i v p st → at_pos vol i v p (append w st).
Proof.
  intros (l1 & l2 & E & Hi & ->). unfold append, put_vars.
  destruct (no_bits (v_attrs w) EFI_VARIABLE_NON_VOLATILE), vol; simpl in *.
  - exists l1, (l2 ++ [w]). rewrite E. by rewrite <- app_assoc.
  - by exists l1, l2.
  - by exists l1, l2.
  - exists l1, (l2 ++ [w]). rewrite E. by rewrite <- app_assoc.
Qed.

Lemma mark_append vol i v b w st : pick vol st !! i = Some v →
  mark vol i v b (append w st) = append w (mark vol i v b st).
Proof.
  intros Hl%lookup_lt_Some. unfold mark, append, put_vars.
  destruct (no_bits (v_attrs w) EFI_VARIABLE_NON_VOLATILE), vol, st as [nv vl]; simpl in *; try done;
    by rewrite insert_app_l.
Qed.

(** ** Appending a variable *)

Lemma append_totals w st :
  let nv := negb (no_bits (v_attrs w) EFI_VARIABLE_NON_VOLATILE) in
  esizes (append w st).1 = esizes st.1 + (if nv then esize w else 0) ∧
  esizes (append w st).2 = esizes st.2 + (if nv then 0 else esize w) ∧
  common_total (append w st).1 = common_total st.1 + (if nv && negb (is_hw (v_attrs w)) then esize w else 0) ∧
  hw_total (append w st).1 = hw_total st.1 + (if nv && is_hw (v_attrs w) then esize w else 0).
Proof.
  unfold append, put_vars, common_total, hw_total.
  destruct (no_bits (v_attrs w) EFI_VARIABLE_NON_VOLATILE); simpl.
  - rewrite esizes_app. simpl. lia.
  - rewrite esizes_app, !filter_app, !esizes_app, !(filter_cons _ w). simpl.
    destruct (is_hw (v_attrs w)) eqn:E; simpl; repeat case_decide; simpl in *; try done; lia.
Qed.

Lemma bounds s st : emu_rep pcd s st →
  0 ≤ esizes st.1 ∧ 0 ≤ esizes st.2 ∧ 28 + esizes st.1 ≤ size ∧ 28 + esizes st.2 ≤ size ∧
  0 ≤ common_total st.1 ∧ 0 ≤ hw_total st.1 ∧ common_total st.1 + hw_total st.1 = esizes st.1.
Proof.
  intros Hr. pose proof (totals st.1). pose proof (esizes_nonneg st.1). pose proof (esizes_nonneg st.2).
  destruct (rep_store _ _ _ Hr false) as (? & f1 & ? & _ & _ & _ & Hs1 & _).
  destruct (rep_store _ _ _ Hr true) as (? & f2 & ? & _ & _ & _ & Hs2 & _). simpl in *.
  assert (0 ≤ common_total st.1) by apply esizes_nonneg. assert (0 ≤ hw_total st.1) by apply esizes_nonneg. lia.
Qed.

Lemma StoreSize_ok vol s st : emu_rep pcd s st → StoreSize (the_store vol s) = Some size.
Proof. intros Hr. by eapply store_rep_size, (rep_store _ _ _ Hr). Qed.

(** The offsets after [w] has been appended. *)
Definition offsets_of (st : list Var * list Var) : Emu → Emu :=
  set_offsets (28 + esizes st.2) (28 + esizes st.1) (common_total st.1) (hw_total st.1).

Section Append.
Context (name : CHAR16S) (guid : EFI_GUID) (data : list Z) (attrs : Z) (s : Emu) (st : list Var * list Var).
Abbreviation w := (new_var name guid data attrs).
Abbreviation vol := (no_bits attrs EFI_VARIABLE_NON_VOLATILE).
Context (Hr : emu_rep pcd s st) (Hw : var_ok w).

Lemma reserve_ok :
  reserve pcd name data attrs s =
    if fits pcd st w then Some (Some (vol, 28 + esizes (pick vol st)), offsets_of (append w st) s)
    else Some (None, s).
Proof.
  destruct (bounds _ _ Hr) as (B1 & B2 & B3 & B4 & B5 & B6 & B7).
  assert (0 ≤ esize w < 2 ^ 31) as Ha.
  { pose proof (ok_sizes _ Hw) as Hsz. fold (var_size w) in Hsz. pose proof (esize_pos w).
    pose proof (HEADER_ALIGN_range (var_size w)). unfold esize in *. lia. }
  pose proof (pcd_hw _ Hpcd). pose proof (pcd_size _ Hpcd).
  destruct (append_totals w st) as (T1 & T2 & T3 & T4). unfold reserve, fits, offsets_of.
  change (sizeof_VARIABLE_HEADER + StrSize name + Z.of_nat (length data)) with (var_size w).
  change (HEADER_ALIGN (var_size w)) with (esize w). change (v_attrs w) with attrs in *.
  change (is_hw attrs) with (negb (no_bits attrs EFI_VARIABLE_HARDWARE_ERROR_RECORD)) in *.
  rewrite T1, T2, T3, T4. destruct vol eqn:Ev; cbn [negb andb pick].
  - rewrite (bind_peek _ _ _ _ (StoreSize_ok true _ _ Hr)), bind_gets. unfold id.
    rewrite (rep_vl _ _ _ Hr), wrap32_small by lia.
    destruct (Z.leb_spec (28 + esizes st.2 + esize w) size), (Z.ltb_spec size (esize w + (28 + esizes st.2))); try lia; [|done].
    rewrite bind_modify. rewrite (rep_nl _ _ _ Hr), (rep_common _ _ _ Hr), (rep_hw _ _ _ Hr), !Z.add_0_r, Z.add_assoc. done.
  - rewrite (bind_peek _ _ _ _ (StoreSize_ok false _ _ Hr)), bind_gets. unfold id, sizeof_VARIABLE_STORE_HEADER.
    rewrite (rep_vl _ _ _ Hr), (rep_nl _ _ _ Hr), (rep_common _ _ _ Hr), (rep_hw _ _ _ Hr), !Z.add_0_r, Z.add_assoc.
    rewrite wrap64_small by lia. destruct (no_bits attrs EFI_VARIABLE_HARDWARE_ERROR_RECORD); cbn [negb andb orb].
    + destruct (Z.leb_spec (common_total st.1 + esize w) (size - 28 - PcdHwErrStorageSize pcd)),
        (Z.ltb_spec (size - 28 - PcdHwErrStorageSize pcd) (esize w + common_total st.1)); try lia; [|done].
      rewrite bind_modify, Z.add_0_r. done.
    + rewrite orb_false_r. destruct (Z.leb_spec (hw_total st.1 + esize w) (PcdHwErrStorageSize pcd)),
        (Z.ltb_spec (PcdHwErrStorageSize pcd) (esize w + hw_total st.1)); try lia; [|done].
      rewrite bind_modify, Z.add_0_r. done.
Qed.

Lemma fits_room : fits pcd st w = true →
  28 + esizes (pick vol st) + esize w ≤ size ∧
  common_total (append w st).1 ≤ size - 28 - PcdHwErrStorageSize pcd ∧
  hw_total (append w st).1 ≤ PcdHwErrStorageSize pcd.
Proof.
  destruct (append_totals w st) as (_ & _ & T3 & T4). destruct (bounds _ _ Hr) as (_ & _ & _ & _ & _ & _ & B7).
  pose proof (rep_common_max _ _ _ Hr). pose proof (rep_hw_max _ _ _ Hr). rewrite T3, T4. unfold fits.
  change (v_attrs w) with attrs. destruct vol; cbn [negb andb pick]; [intros ?%Z.leb_le; lia|].
  destruct (is_hw attrs); cbn [negb andb]; intros ?%Z.leb_le; lia.
Qed.

(** Writing the new variable where the space was reserved. *)
Lemma write_ok : fits pcd st w = true →
  ∃ s', wr vol (28 + esizes (pick vol st)) (variable_bytes name guid data attrs) (offsets_of (append w st) s)
          = Some (tt, s') ∧ emu_rep pcd s' (append w st) ∧ same_mode s s'.
Proof.
  intros (F1 & F2 & F3)%fits_room.
  destruct (store_append _ _ _ w (rep_store _ _ _ Hr vol) Hw F1) as (H1 & H2 & H3).
  unfold wr. change (the_store vol (offsets_of (append w st) s)) with (the_store vol s).
  change (variable_bytes name guid data attrs) with (var_bytes w).
  assert ((0 <=? 28 + esizes (pick vol st)) && (28 + esizes (pick vol st) + Z.of_nat (length (var_bytes w))
    <=? Z.of_nat (length (the_store vol s))) = true) as -> by (apply andb_true_iff; split; apply Z.leb_le; lia).
  eexists. split; [reflexivity|]. split; [|by repeat split]. split; try done.
  intros vol'. pose proof (rep_store _ _ _ Hr vol') as Hs. unfold append, put_vars. change (v_attrs w) with attrs.
  by destruct vol, vol'.
Qed.
End Append.

(** ** UpdateVariable *)

(** The result of a search for the variable. *)
Definition tracks (rt : bool) (name : CHAR16S) (guid : EFI_GUID) (st : list Var * list Var)
    (t : VARIABLE_POINTER_TRACK) : Prop :=
  match locate rt name guid st with
  | Some (vol, i, v) => ∃ p, at_pos vol i v p st ∧ t = {| CurrPtr := Some p; TVolatile := vol |}
  | None => CurrPtr t = None
  end.

(** A service run from [s] ends with the result and the abstract state of [r]. *)
Definition implements {A} (m : M Emu A) (s : Emu) (r : A * (list Var * list Var)) : Prop :=
  ∃ s', m s = Some (r.1, s') ∧ emu_rep pcd s' r.2 ∧ same_mode s s'.

Lemma implements_bind {A B} (m : M Emu A) (k : A → M Emu B) s a st r :
  implements m s (a, st) → (∀ s', emu_rep pcd s' st → same_mode s s' → implements (k a) s' r) →
  implements (m ≫= k) s r.
Proof.
  intros (s1 & E1 & R1 & M1) Hk. destruct (Hk s1 R1 M1) as (s2 & E2 & R2 & M2).
  exists s2. rewrite (bind_eq _ _ _ _ _ E1). split; [done|]. split; [done|]. by eapply same_mode_trans.
Qed.

Lemma implements_ret {A} (a : A) s st : emu_rep pcd s st → implements (mret a) s (a, st).
Proof. intros Hr. exists s. by split. Qed.

Lemma implements_gets {A B} (f : Emu → A) (k : A → M Emu B) s r :
  implements (k (f s)) s r → implements (gets f ≫= k) s r.
Proof. done. Qed.

Lemma implements_peek {A B} (f : Emu → option A) (k : A → M Emu B) s a r :
  f s = Some a → implements (k a) s r → implements (peek f ≫= k) s r.
Proof. intros E. unfold implements. by rewrite (bind_peek _ _ _ _ E). Qed.

Lemma implements_step {A B} (m : M Emu A) (k : A → M Emu B) s a r :
  m s = Some (a, s) → implements (k a) s r → implements (m ≫= k) s r.
Proof. intros E. unfold implements. by rewrite (bind_eq _ _ _ _ _ E). Qed.

Lemma implements_info name guid vol a b c d s st :
  emu_rep pcd s st → implements (UpdateVariableInfo pcd name guid vol a b c d) s (tt, st).
Proof. apply info_ok. Qed.

Lemma implements_and_state vol i v p mask s st :
  emu_rep pcd s st → at_pos vol i v p st → 0 ≤ Z.land (v_state v) mask < 256 →
  implements (and_state vol p mask) s (tt, mark vol i v (Z.land (v_state v) mask) st).
Proof. apply and_state_ok. Qed.

Lemma same_data_ok vol i v p data s st :
  emu_rep pcd s st → at_pos vol i v p st →
  same_data (the_store vol s) p data = Some (bool_decide (data = v_data v)).
Proof.
  intros Hr Hat. destruct (at_pos_bytes pcd Hr _ _ _ _ Hat) as (pre & post & Hm & -> & Hv).
  unfold same_data. rewrite (DataSize_at _ _ _ _ Hv Hm). simpl.
  destruct (Z.eqb_spec (Z.of_nat (length (v_data v))) (Z.of_nat (length data))) as [E|E]; cbn [negb].
  - rewrite (DataPtr_at _ _ _ _ Hv Hm). simpl. apply Nat2Z.inj in E.
    rewrite <- E, (data_read _ _ _ _ Hv Hm). done.
  - rewrite bool_decide_eq_false_2; [done|]. intros ->. done.
Qed.

Section Update.
Context (name : CHAR16S) (guid : EFI_GUID) (data : list Z) (attrs : Z).
Abbreviation w := (new_var name guid data attrs).
Context (Hw : var_ok w).

(** The part of [UpdateVariable] after the checks. *)
Definition update_tail (Track : VARIABLE_POINTER_TRACK) : M Emu EFI_STATUS :=
  where_ ← reserve pcd name data attrs;
  match where_ with
  | None => mret EFI_OUT_OF_RESOURCES
  | Some (vol, off) =>
      wr vol off (variable_bytes name guid data attrs);;
      match CurrPtr Track with
      | Some p => and_state (TVolatile Track) p VAR_DELETED
      | None => mret tt
      end;;
      UpdateVariableInfo pcd name guid (TVolatile Track) false true false false;;
      mret EFI_SUCCESS
  end.

Lemma update_tail_ok t s st st' :
  emu_rep pcd s st →
  (fits pcd st w = true → ∀ s1, emu_rep pcd s1 (append w st) → implements
    match CurrPtr t with Some p => and_state (TVolatile t) p VAR_DELETED | None => mret tt end s1 (tt, st')) →
  implements (update_tail t) s (if fits pcd st w then (EFI_SUCCESS, st') else (EFI_OUT_OF_RESOURCES, st)).
Proof.
  intros Hr Ht. unfold update_tail. pose proof (reserve_ok name guid data attrs s st Hr Hw) as E.
  destruct (fits pcd st w) eqn:Ef.
  - destruct (write_ok name guid data attrs s st Hr Hw Ef) as (s1 & E1 & R1 & M1).
    assert (implements (match CurrPtr t with Some p => and_state (TVolatile t) p VAR_DELETED | None => mret tt end;;
      UpdateVariableInfo pcd name guid (TVolatile t) false true false false;; mret EFI_SUCCESS) s1 (EFI_SUCCESS, st'))
      as (s2 & E2 & R2 & M2).
    { eapply implements_bind; [by apply Ht|]. intros s2 R2 _.
      eapply implements_bind; [by apply implements_info|]. intros s3 R3 _. by apply implements_ret. }
    exists s2. rewrite (bind_eq _ _ _ _ _ E), (bind_eq _ _ _ _ _ E1), E2. split; [done|].
    split; [done|]. by eapply same_mode_trans.
  - exists s. by rewrite (bind_eq _ _ _ _ _ E).
Qed.

Lemma UpdateVariable_early t s e st' :
  implements (match CurrPtr t with
              | Some p => update_existing pcd name guid data attrs (TVolatile t) p
              | None => update_new data attrs
              end) s (Some e, st') →
  implements (UpdateVariable pcd name guid data attrs t) s (e, st').
Proof. intros H. eapply implements_bind; [exact H|]. intros s' R' _. by apply implements_ret. Qed.

Lemma UpdateVariable_tail t s st' r :
  implements (match CurrPtr t with
              | Some p => update_existing pcd name guid data attrs (TVolatile t) p
              | None => update_new data attrs
              end) s (None, st') →
  (∀ s', emu_rep pcd s' st' → implements (update_tail t) s' r) →
  implements (UpdateVariable pcd name guid data attrs t) s r.
Proof. intros H Ht. eapply implements_bind; [exact H|]. intros s' R' _. by apply Ht. Qed.

Lemma update_new_ok t s st :
  emu_rep pcd s st → CurrPtr t = None → locate (mAtRuntime s) name guid st = None →
  implements (UpdateVariable pcd name guid data attrs t) s (spec_update pcd (mAtRuntime s) name guid data attrs st).
Proof.
  intros Hr Ht Hl. unfold spec_update. rewrite Hl. fold (deletes data attrs).
  destruct (deletes data attrs) eqn:Ed.
  { apply UpdateVariable_early. rewrite Ht. apply implements_gets. fold (deletes data attrs). rewrite Ed.
    by apply implements_ret. }
  destruct (mAtRuntime s && (no_bits attrs EFI_VARIABLE_RUNTIME_ACCESS || no_bits attrs EFI_VARIABLE_NON_VOLATILE)) eqn:Er.
  { apply UpdateVariable_early. rewrite Ht. apply implements_gets. fold (deletes data attrs). rewrite Ed, Er.
    by apply implements_ret. }
  apply (UpdateVariable_tail _ _ st).
  { rewrite Ht. apply implements_gets. fold (deletes data attrs). rewrite Ed, Er. by apply implements_ret. }
  intros s' R'. eapply update_tail_ok; [done|]. rewrite Ht. intros _ s1 R1. by apply implements_ret.
Qed.

Section Existing.
Context (s : Emu) (st : list Var * list Var) (vol : bool) (i : nat) (v : Var) (p : Z).
Context (Hr : emu_rep pcd s st) (Hat : at_pos vol i v p st) (Hst : v_state v = VAR_ADDED).
Abbreviation t := {| CurrPtr := Some p; TVolatile := vol |}.

Lemma Attributes_pos : Attributes (the_store vol s) p = Some (v_attrs v).
Proof.
  destruct (at_pos_bytes pcd Hr _ _ _ _ Hat) as (pre & post & Hm & -> & Hv). by apply (Attributes_at _ _ post).
Qed.

Lemma State_pos : State (the_store vol s) p = Some VAR_ADDED.
Proof.
  destruct (at_pos_bytes pcd Hr _ _ _ _ Hat) as (pre & post & Hm & -> & Hv).
  rewrite <- Hst. by apply (State_at _ _ post).
Qed.

(** The refusals at runtime. *)
Lemma existing_checks (k1 k2 k3 : M Emu (option EFI_STATUS)) r :
  (if mAtRuntime s && vol then implements k1 s r
   else if mAtRuntime s && no_bits (v_attrs v) EFI_VARIABLE_NON_VOLATILE then implements k2 s r
   else implements k3 s r) →
  implements (
    rt ← gets mAtRuntime;
    va ← (if rt && negb vol then peek (λ s, Attributes (the_store vol s) p) else mret 0);
    if rt && vol then k1 else if rt && no_bits va EFI_VARIABLE_NON_VOLATILE then k2 else k3) s r.
Proof.
  intros H. apply implements_gets. pose proof Attributes_pos as Ha.
  destruct (mAtRuntime s); [|exact H]. destruct vol; [exact H|]. cbn [andb negb] in *.
  apply (implements_peek _ _ _ _ _ Ha). by destruct (no_bits (v_attrs v) EFI_VARIABLE_NON_VOLATILE).
Qed.

Lemma update_existing_ok :
  locate (mAtRuntime s) name guid st = Some (vol, i, v) →
  implements (UpdateVariable pcd name guid data attrs t) s (spec_update pcd (mAtRuntime s) name guid data attrs st).
Proof.
  intros Hl. unfold spec_update. rewrite Hl. pose proof existing_checks as Hchk.
  destruct (mAtRuntime s && vol).
  { apply UpdateVariable_early, Hchk. by apply implements_ret. }
  destruct (mAtRuntime s && no_bits (v_attrs v) EFI_VARIABLE_NON_VOLATILE).
  { apply UpdateVariable_early, Hchk. by apply implements_ret. }
  destruct (deletes data attrs) eqn:Ed; unfold deletes in Ed.
  { apply UpdateVariable_early, Hchk. rewrite Ed. rewrite <- Hst.
    eapply implements_bind; [by apply implements_and_state; rewrite ?Hst|]. intros s1 R1 _.
    eapply implements_bind; [by apply implements_info|]. intros s2 R2 _. by apply implements_ret. }
  pose proof (same_data_ok _ _ _ _ data _ _ Hr Hat) as Hsame.
  case_bool_decide as Hd.
  { apply UpdateVariable_early, Hchk. rewrite Ed. apply (implements_peek _ _ _ _ _ Hsame). by apply implements_ret. }
  set (st1 := mark vol i v (Z.land VAR_ADDED VAR_IN_DELETED_TRANSITION) st).
  apply (UpdateVariable_tail _ _ st1).
  { apply Hchk. rewrite Ed. apply (implements_peek _ _ _ _ _ Hsame), (implements_peek _ _ _ _ _ State_pos).
    change (VAR_ADDED =? VAR_ADDED) with true. unfold st1. rewrite <- Hst.
    eapply implements_bind; [by apply implements_and_state; rewrite ?Hst|]. intros s1 R1 _. by apply implements_ret. }
  intros s1 R1. eapply update_tail_ok; [done|]. intros _ s2 R2. cbn [CurrPtr TVolatile].
  pose proof (append_at_pos _ _ _ _ w _ (mark_at_pos _ _ _ _ (Z.land VAR_ADDED VAR_IN_DELETED_TRANSITION) _ Hat)) as Hat2.
  exact (implements_and_state _ _ _ _ VAR_DELETED _ _ R2 Hat2 ltac:(done)).
Qed.
End Existing.

(** [UpdateVariable] implements its specification. *)
Lemma UpdateVariable_ok t s st :
  emu_rep pcd s st → tracks (mAtRuntime s) name guid st t →
  implements (UpdateVariable pcd name guid data attrs t) s (spec_update pcd (mAtRuntime s) name guid data attrs st).
Proof.
  unfold tracks. intros Hr Ht. destruct (locate (mAtRuntime s) name guid st) as [[[vol i] v]|] eqn:E.
  - destruct Ht as (p & Hat & ->). apply locate_matches in E as E2. destruct E2 as [_ Hm]. unfold matches in Hm. zbool.
    by eapply update_existing_ok.
  - by apply update_new_ok.
Qed.
End Update.

(** ** SetVariable and GetVariable *)

(** Setting this variable does not touch the language variables. *)
Definition no_propagation (s : Emu) (name : CHAR16S) : bool :=
  negb (bool_decide (name = L_PlatformLangCodes)) && negb (bool_decide (name = L_LangCodes))
  && ((negb (bool_decide (name = L_PlatformLang)) && negb (bool_decide (name = L_Lang)))
      || bool_decide (PlatformLangCodes s = None) || bool_decide (LangCodes s = None)).

Lemma propagate_quiet s name data :
  no_propagation s name = true → propagate_lang pcd uninit name data s = Some (tt, s).
Proof.
  unfold no_propagation, propagate_lang, update_lang, update_platform_lang. intros H. zbool.
  apply orb_true_iff in H0 as [[H0|H0]%orb_true_iff|H0].
  - zbool. by rewrite H0, H2.
  - apply bool_decide_eq_true in H0. repeat case_bool_decide; try done; rewrite bind_gets; unfold id; by rewrite H0.
  - apply bool_decide_eq_true in H0.
    repeat case_bool_decide; try done; rewrite bind_gets; unfold id; rewrite H0; by case_match.
Qed.

Lemma AutoUpdate_quiet s name data :
  no_propagation s name = true → AutoUpdateLangVariable pcd uninit name data s = Some (tt, s).
Proof.
  intros Hq. pose proof (propagate_quiet s name data Hq) as Hp. unfold no_propagation in Hq. zbool.
  unfold AutoUpdateLangVariable. destruct (_ =? 0); [done|]. rewrite bind_gets. unfold id at 1.
  rewrite H, H1. cbn [orb andb]. rewrite bind_ret, bind_gets. unfold id.
  destruct (PlatformLangCodes s), (LangCodes s); done.
Qed.

Lemma find_tracks name guid s st : emu_rep pcd s st → Forall unit16 name →
  ∃ e t, FindVariable uninit name (Some guid) s = Some ((e, t), s) ∧
    tracks (mAtRuntime s) name guid st t ∧
    e = match locate (mAtRuntime s) name guid st with Some _ => EFI_SUCCESS | None => EFI_NOT_FOUND end.
Proof.
  intros Hr Hn. pose proof (FindVariable_ok pcd uninit Hr name guid Hn) as Hf. unfold FindVariable, peek, tracks.
  destruct (locate (mAtRuntime s) name guid st) as [[[vol i] v]|].
  - destruct Hf as (p & Hat & ->). do 2 eexists. split; [reflexivity|]. split; [by exists p|done].
  - rewrite Hf. do 2 eexists. split; [reflexivity|done].
Qed.

Lemma valid_new_var name guid data attrs :
  Forall unit16 name → length guid = 16%nat → 0 ≤ attrs < 2 ^ 32 → valid_args pcd name data attrs = true →
  var_ok (new_var name guid data attrs).
Proof.
  intros Hn Hg Ha Hv. unfold valid_args in Hv. zbool. split; simpl; try done; [|by eapply bool_decide_eq_false_1].
  pose proof (pcd_max _ Hpcd). pose proof (pcd_maxhw _ Hpcd). destruct (is_hw attrs); lia.
Qed.

Section SetVariable.
Context (s : Emu) (st : list Var * list Var) (name : CHAR16S) (guid : EFI_GUID) (attrs null_size : Z) (odata : option (list Z)).
Context (Hr : emu_rep pcd s st) (Hn : Forall unit16 name) (Hg : length guid = 16%nat) (Ha : 0 ≤ attrs < 2 ^ 32).
Context (Hq : no_propagation s name = true) (Hnull : odata = None → null_size = 0).
Abbreviation data := (default [] odata).

(** The parameter checks. *)
Lemma set_checks :
  EmuSetVariable pcd uninit (Some name) (Some guid) attrs null_size odata =
  if valid_args pcd name data attrs then
    r ← FindVariable uninit name (Some guid);
    AutoUpdateLangVariable pcd uninit name data;;
    UpdateVariable pcd name guid data attrs r.2
  else mret EFI_INVALID_PARAMETER.
Proof.
  assert (match odata with Some d => Z.of_nat (length d) | None => null_size end = Z.of_nat (length data)) as Hd.
  { destruct odata; [done|]. by rewrite Hnull. }
  assert (negb (Z.of_nat (length data) =? 0) && bool_decide (odata = None) = false) as Hnn.
  { destruct odata; [|done]. rewrite (bool_decide_eq_false_2 (Some _ = None)) by done. apply andb_false_r. }
  unfold EmuSetVariable, valid_args. rewrite Hd, Hnn. destruct name as [|c n] eqn:En; [done|].
  cbv beta iota zeta. rewrite <- En. rewrite (bool_decide_eq_false_2 (name = [])) by by rewrite En.
  fold (is_hw attrs).
  pose proof (StrSize_pos name). pose proof (pcd_max _ Hpcd). pose proof (pcd_maxhw _ Hpcd).
  set (max := if is_hw attrs then _ else _). rewrite wrap64_small by (unfold max, sizeof_VARIABLE_HEADER; destruct (is_hw attrs); lia).
  assert (max ≤ 2 ^ 29) by (unfold max; destruct (is_hw attrs); lia).
  destruct (no_bits attrs EFI_VARIABLE_AUTHENTICATED_WRITE_ACCESS); [|done].
  destruct (Z.land attrs _ =? _); [done|]. unfold sizeof_VARIABLE_HEADER. cbn [andb negb].
  destruct (Z.ltb_spec (2 ^ 64 - 1 - Z.of_nat (length data)) (StrSize name)),
    (Z.leb_spec (StrSize name + Z.of_nat (length data)) (max - 32)),
    (Z.ltb_spec (max - 32) (StrSize name + Z.of_nat (length data))); try lia; try done.
  by destruct (is_hw attrs), (bool_decide (take 8 name = str_bytes "HwErrRec")).
Qed.

Lemma EmuSetVariable_ok :
  implements (EmuSetVariable pcd uninit (Some name) (Some guid) attrs null_size odata) s
    (spec_set pcd (mAtRuntime s) name guid data attrs st).
Proof.
  rewrite set_checks. unfold spec_set. destruct (valid_args pcd name data attrs) eqn:Hv; [|by apply implements_ret].
  destruct (find_tracks name guid s st Hr Hn) as (e & t & Ef & Ht & _).
  apply (implements_step _ _ _ _ _ Ef), (implements_step _ _ _ _ _ (AutoUpdate_quiet s name data Hq)).
  apply UpdateVariable_ok; [by apply valid_new_var|done|done].
Qed.
End SetVariable.

Definition spec_get (rt : bool) (name : CHAR16S) (guid : EFI_GUID) (sz : Z) (st : list Var * list Var)
    : EFI_STATUS * option Z * option (Z * list Z) :=
  match lookup rt name guid st with
  | None => (EFI_NOT_FOUND, Some sz, None)
  | Some v =>
      let n := Z.of_nat (length (v_data v)) in
      if n <=? sz then (EFI_SUCCESS, Some n, Some (v_attrs v, v_data v)) else (EFI_BUFFER_TOO_SMALL, Some n, None)
  end.

Lemma EmuGetVariable_ok s st name guid sz : emu_rep pcd s st → Forall unit16 name → name ≠ [] →
  implements (EmuGetVariable pcd uninit (Some name) (Some guid) (Some sz) true) s
    (spec_get (mAtRuntime s) name guid sz st, st).
Proof.
  intros Hr Hn Hne. unfold EmuGetVariable. rewrite bool_decide_eq_false_2 by done.
  destruct (find_tracks name guid s st Hr Hn) as (e & t & Ef & Ht & He).
  apply (implements_step _ _ _ _ _ Ef). unfold spec_get, lookup. unfold tracks in Ht.
  destruct (locate (mAtRuntime s) name guid st) as [[[vol i] v]|]; simpl in *.
  - destruct Ht as (p & Hat & ->). cbn [CurrPtr TVolatile].
    destruct (at_pos_bytes pcd Hr _ _ _ _ Hat) as (pre & post & Hm & -> & Hv).
    apply (implements_peek _ _ _ _ _ (DataSize_at _ _ _ _ Hv Hm)).
    destruct (_ <=? sz); [|by apply implements_ret].
    apply (implements_peek _ _ _ _ _ (variable_data_at _ _ _ _ Hv Hm)).
    apply (implements_peek _ _ _ _ _ (Attributes_at _ _ _ _ Hv Hm)).
    eapply implements_bind; [by apply implements_info|]. intros s1 R1 _. by apply implements_ret.
  - rewrite Ht, He. by apply implements_ret.
Qed.
End Refine.
