(* ===== verification/EmuMap.v ===== *)
(** * EmuVariable: the variable list as a finite map

    The variables that a caller can see form a map from name and GUID to attributes
    and data, as long as no two of them share a key.  Setting a variable keeps keys
    unique and updates that map. *)

From Stdlib Require Import ZArith Lia.
From stdpp Require Import base list list_numbers strings gmap fin_maps.
From S2P Require Import Prelude.
From S2P Require Import EmuLang.
From S2P Require Import EmuVariable.
From S2P Require Import EmuStore.
From S2P Require Import EmuSpec.
From S2P Require Import EmuRefine.

Open Scope Z_scope.

Definition key (v : Var) : list Z * list Z := (v_name v, v_guid v).

(** Valid, and accessible in this phase. *)
Definition live (rt : bool) (v : Var) : bool :=
  (v_state v =? VAR_ADDED) && (negb rt || negb (no_bits (v_attrs v) EFI_VARIABLE_RUNTIME_ACCESS)).

(** The variables a caller can see, in the order of the stores. *)
Definition visibles (rt : bool) (st : list Var * list Var) : list Var :=
  filter (λ v, live rt v = true) (st.1 ++ st.2).

Definition unique (rt : bool) (st : list Var * list Var) : Prop := NoDup (key <$> visibles rt st).

Definition binding (v : Var) : (list Z * list Z) * (Z * list Z) := (key v, (v_attrs v, v_data v)).

Definition contents (rt : bool) (st : list Var * list Var) : gmap (list Z * list Z) (Z * list Z) :=
  list_to_map (binding <$> visibles rt st).

(** ** Searches *)

Lemma matches_live rt name guid v : name ≠ [] →
  matches rt name guid v = true ↔ live rt v = true ∧ key v = (name, guid).
Proof.
  intros Hn. unfold matches, live, key. rewrite (bool_decide_eq_false_2 (name = [])) by done. cbn [orb].
  rewrite !andb_true_iff, !bool_decide_eq_true. naive_solver.
Qed.

Lemma fst_binding l : (binding <$> l).*1 = key <$> l.
Proof. rewrite <- list_fmap_compose. done. Qed.

Lemma locate_visible rt name guid st vol i v : name ≠ [] →
  locate rt name guid st = Some (vol, i, v) → pick vol st !! i = Some v ∧ live rt v = true ∧ key v = (name, guid).
Proof.
  intros Hn. unfold locate. destruct (list_find _ st.1) as [[j w]|] eqn:E1.
  - intros [= <- <- <-]. apply list_find_Some in E1 as (? & ?%matches_live & _); [|done]. done.
  - destruct (list_find _ st.2) as [[j w]|] eqn:E2; [|done].
    intros [= <- <- <-]. apply list_find_Some in E2 as (? & ?%matches_live & _); [|done]. done.
Qed.

Lemma pick_visible rt st vol i v : pick vol st !! i = Some v → live rt v = true → v ∈ visibles rt st.
Proof.
  intros Hl Hv. apply list_elem_of_filter. split; [done|]. apply elem_of_app.
  apply list_elem_of_lookup_2 in Hl. destruct vol; auto.
Qed.

Lemma locate_None rt name guid st v : name ≠ [] →
  locate rt name guid st = None → v ∈ visibles rt st → key v ≠ (name, guid).
Proof.
  unfold locate. intros Hn Hl [Hv Hin]%list_elem_of_filter Hk.
  destruct (list_find _ st.1) as [[j w]|] eqn:E1; [done|].
  destruct (list_find _ st.2) as [[j w]|] eqn:E2; [done|].
  apply list_find_None in E1, E2. rewrite Forall_forall in E1, E2.
  apply elem_of_app in Hin as [Hin|Hin]; [apply (E1 v Hin)|apply (E2 v Hin)]; by apply matches_live.
Qed.

Lemma contents_lookup rt name guid st : unique rt st → name ≠ [] →
  contents rt st !! (name, guid) = (λ v, (v_attrs v, v_data v)) <$> lookup rt name guid st.
Proof.
  intros Hu Hn. unfold lookup, contents. destruct (locate rt name guid st) as [[[vol i] v]|] eqn:E; simpl.
  - destruct (locate_visible _ _ _ _ _ _ _ Hn E) as (Hl & Hv & <-).
    apply elem_of_list_to_map_1; [by rewrite fst_binding|].
    change (key v, (v_attrs v, v_data v)) with (binding v). apply list_elem_of_fmap_2. by eapply pick_visible.
  - apply not_elem_of_list_to_map_1. rewrite fst_binding. intros (v & Hk & Hv)%list_elem_of_fmap.
    by eapply locate_None.
Qed.

(** ** Updates *)

Lemma insert_perm (l : list Var) i v x : l !! i = Some v →
  ∃ r, l ≡ₚ v :: r ∧ <[i := x]> l ≡ₚ x :: r.
Proof.
  intros Hl. exists (delete i l). split; [by apply delete_Permutation|].
  rewrite insert_take_drop by (by eapply lookup_lt_Some). rewrite delete_take_drop.
  by rewrite Permutation_middle.
Qed.

Lemma mark_perm rt vol i v b st : pick vol st !! i = Some v → live rt v = true → b ≠ VAR_ADDED →
  visibles rt st ≡ₚ v :: visibles rt (mark vol i v b st).
Proof.
  intros Hl Hv Hb. destruct (insert_perm _ _ _ (with_state b v) Hl) as (r & H1 & H2).
  assert (live rt (with_state b v) = false) as Hd.
  { unfold live. simpl. by rewrite (proj2 (Z.eqb_neq _ _) Hb). }
  unfold visibles, mark, put_vars. destruct vol; simpl in *.
  - rewrite H2, H1. rewrite <- !Permutation_middle. rewrite filter_cons_True, filter_cons_False by congruence. done.
  - rewrite H2, H1. simpl. rewrite filter_cons_True, filter_cons_False by congruence. done.
Qed.

Lemma append_perm rt w st :
  visibles rt (append w st) ≡ₚ (if live rt w then [w] else []) ++ visibles rt st.
Proof.
  unfold visibles, append, put_vars. destruct (no_bits _ _); simpl.
  - rewrite app_assoc, filter_app. rewrite (filter_cons _ w), (comm (++)). by destruct (live rt w).
  - rewrite <- app_assoc. cbn [app]. rewrite <- Permutation_middle, filter_cons. by destruct (live rt w).
Qed.

Lemma contents_perm rt st l : unique rt st → visibles rt st ≡ₚ l →
  NoDup (key <$> l) ∧ contents rt st = list_to_map (binding <$> l).
Proof.
  intros Hu Hp. unfold unique in Hu. split; [by rewrite <- Hp|].
  unfold contents. apply list_to_map_proper; [by rewrite fst_binding|by rewrite Hp].
Qed.

Lemma contents_mark rt vol i v b st : unique rt st →
  pick vol st !! i = Some v → live rt v = true → b ≠ VAR_ADDED →
  unique rt (mark vol i v b st) ∧ contents rt (mark vol i v b st) = delete (key v) (contents rt st).
Proof.
  intros Hu Hl Hv Hb. pose proof (mark_perm _ _ _ _ _ _ Hl Hv Hb) as Hp.
  destruct (contents_perm _ _ _ Hu Hp) as [Hn Hc]. apply NoDup_cons in Hn as [Hn1 Hn2]. split; [done|].
  rewrite Hc. cbn [fmap list_fmap list_to_map foldr binding fst snd]. symmetry. apply delete_insert_id.
  apply not_elem_of_list_to_map_1. by rewrite fst_binding.
Qed.

Lemma contents_append rt w st : unique rt st → contents rt st !! key w = None →
  unique rt (append w st) ∧
  contents rt (append w st) = if live rt w then <[key w := (v_attrs w, v_data w)]> (contents rt st) else contents rt st.
Proof.
  intros Hu Hk. apply not_elem_of_list_to_map_2 in Hk. rewrite fst_binding in Hk.
  pose proof (append_perm rt w st) as Hp.
  assert (unique rt (append w st)) as Hu'.
  { unfold unique. rewrite Hp. destruct (live rt w); [|done]. by apply NoDup_cons. }
  split; [done|]. destruct (contents_perm _ _ _ Hu' Hp) as [_ ->]. by destruct (live rt w).
Qed.

(** ** Setting a variable *)

Definition has_data (m : gmap (list Z * list Z) (Z * list Z)) (k : list Z * list Z) (data : list Z) : bool :=
  match m !! k with Some (_, d) => bool_decide (data = d) | None => false end.

(** What a call that returns [status] does to the visible variables.  A failure for
    lack of space still loses the old value. *)
Definition map_set (rt : bool) (k : list Z * list Z) (data : list Z) (attrs : Z) (status : EFI_STATUS)
    (m : gmap (list Z * list Z) (Z * list Z)) : gmap (list Z * list Z) (Z * list Z) :=
  match status with
  | EFI_SUCCESS =>
      if deletes data attrs then delete k m
      else if has_data m k data then m
      else if negb rt || negb (no_bits attrs EFI_VARIABLE_RUNTIME_ACCESS) then <[k := (attrs, data)]> m
      else delete k m
  | EFI_OUT_OF_RESOURCES => delete k m
  | _ => m
  end.

Section SetMap.
Context (pcd : Pcds) (rt : bool) (name : CHAR16S) (guid : EFI_GUID) (data : list Z) (attrs : Z).
Context (Hne : name ≠ []).
Abbreviation w := (new_var name guid data attrs).
Abbreviation k := (name, guid).

Lemma append_new st : unique rt st → contents rt st !! k = None →
  unique rt (append w st) ∧
  contents rt (append w st) =
    if negb rt || negb (no_bits attrs EFI_VARIABLE_RUNTIME_ACCESS) then <[k := (attrs, data)]> (contents rt st)
    else contents rt st.
Proof. exact (contents_append rt w st). Qed.

Lemma existing_contents st vol i v : unique rt st → locate rt name guid st = Some (vol, i, v) →
  let r := spec_update pcd rt name guid data attrs st in
  unique rt r.2 ∧ contents rt r.2 = map_set rt k data attrs r.1 (contents rt st).
Proof.
  intros Hu Hl. destruct (locate_visible _ _ _ _ _ _ _ Hne Hl) as (Hp & Hv & Hk).
  pose proof (contents_lookup rt name guid st Hu Hne) as Hm. unfold lookup in Hm. rewrite Hl in Hm. simpl in Hm.
  assert (∀ b, b ≠ VAR_ADDED → unique rt (mark vol i v b st) ∧
    contents rt (mark vol i v b st) = delete k (contents rt st)) as Hmark.
  { intros b Hb. rewrite <- Hk. by apply contents_mark. }
  unfold spec_update. rewrite Hl. destruct (rt && vol); [done|].
  destruct (rt && no_bits (v_attrs v) EFI_VARIABLE_NON_VOLATILE); [done|].
  destruct (deletes data attrs) eqn:Ed; simpl.
  { rewrite Ed. by apply Hmark. }
  assert (has_data (contents rt st) k data = bool_decide (data = v_data v)) as Hd.
  { unfold has_data. by rewrite Hm. }
  destruct (bool_decide (data = v_data v)); simpl; [by rewrite Ed, Hd|].
  destruct (fits _ _ _); simpl; [|by apply Hmark]. rewrite Ed, Hd.
  set (b1 := Z.land VAR_ADDED VAR_IN_DELETED_TRANSITION). set (b2 := Z.land b1 VAR_DELETED).
  assert (mark vol i v b2 (append w (mark vol i v b1 st)) = append w (mark vol i v b2 st)) as ->.
  { rewrite <- (mark_mark vol i v b1 b2 st).
    apply (mark_append vol i (with_state b1 v) b2 w (mark vol i v b1 st)).
    unfold mark, put_vars. destruct vol; simpl in *; rewrite list_lookup_insert_eq; by eauto using lookup_lt_Some. }
  destruct (Hmark b2 ltac:(done)) as [Hu2 Hc2]. destruct (append_new _ Hu2) as [Hu3 ->].
  { rewrite Hc2. apply lookup_delete_eq. }
  split; [done|]. rewrite Hc2. destruct (negb rt || _); [|done]. by rewrite insert_delete_eq.
Qed.

Lemma new_contents st : unique rt st → locate rt name guid st = None →
  let r := spec_update pcd rt name guid data attrs st in
  unique rt r.2 ∧ contents rt r.2 = map_set rt k data attrs r.1 (contents rt st).
Proof.
  intros Hu Hl. pose proof (contents_lookup rt name guid st Hu Hne) as Hm. unfold lookup in Hm. rewrite Hl in Hm. simpl in Hm.
  unfold spec_update. rewrite Hl. destruct (deletes data attrs) eqn:Ed; [done|]. destruct (rt && _); [done|].
  destruct (fits _ _ _); simpl; [|by rewrite delete_id].
  assert (has_data (contents rt st) k data = false) as Hd by (unfold has_data; by rewrite Hm).
  rewrite Ed, Hd, (delete_id _ _ Hm). by apply append_new.
Qed.

Lemma update_contents st : unique rt st →
  let r := spec_update pcd rt name guid data attrs st in
  unique rt r.2 ∧ contents rt r.2 = map_set rt k data attrs r.1 (contents rt st).
Proof.
  intros Hu. destruct (locate rt name guid st) as [[[vol i] v]|] eqn:E.
  - by eapply existing_contents.
  - by apply new_contents.
Qed.
End SetMap.

Lemma set_contents pcd rt name guid data attrs st : unique rt st →
  let r := spec_set pcd rt name guid data attrs st in
  unique rt r.2 ∧ contents rt r.2 = map_set rt (name, guid) data attrs r.1 (contents rt st).
Proof.
  intros Hu. unfold spec_set. destruct (valid_args pcd name data attrs) eqn:Hv; [|done].
  apply update_contents; [|done]. intros ->. done.
Qed.

(** ** ExitBootServices *)

Lemma visibles_runtime st :
  visibles true st = filter (λ v, no_bits (v_attrs v) EFI_VARIABLE_RUNTIME_ACCESS = false) (visibles false st).
Proof.
  unfold visibles. rewrite list_filter_filter. apply list_filter_iff. intros v. unfold live.
  destruct (v_state v =? VAR_ADDED), (no_bits _ _); simpl; naive_solver.
Qed.

Lemma unique_runtime st : unique false st → unique true st.
Proof.
  unfold unique. rewrite visibles_runtime. intros Hu. eapply sublist_NoDup; [done|]. 
  apply fmap_sublist, sublist_filter.
Qed.

Lemma contents_Some rt st k x : unique rt st →
  contents rt st !! k = Some x ↔ ∃ v, v ∈ visibles rt st ∧ binding v = (k, x).
Proof.
  intros Hu. unfold contents. rewrite <- elem_of_list_to_map by by rewrite fst_binding.
  rewrite list_elem_of_fmap. split; intros (v & H1 & H2); exists v; by (split; first [done|symmetry]).
Qed.

(** At runtime the visible variables are those with runtime access. *)
Lemma contents_runtime st : unique false st →
  contents true st = filter (λ kv, no_bits kv.2.1 EFI_VARIABLE_RUNTIME_ACCESS = false) (contents false st).
Proof.
  intros Hu. apply map_eq. intros k. apply option_eq. intros x.
  rewrite map_lookup_filter_Some, (contents_Some true), (contents_Some false) by auto using unique_runtime.
  rewrite visibles_runtime. split.
  - intros (v & [Ha Hv]%list_elem_of_filter & [= <- <-]). split; [by exists v|done].
  - intros [(v & Hv & [= <- <-]) Ha]. exists v. split; [by apply list_elem_of_filter|done].
Qed.

(** The status of a call before ExitBootServices. *)
Definition boot_status (valid : bool) (k : list Z * list Z) (data : list Z) (attrs : Z)
    (m : gmap (list Z * list Z) (Z * list Z)) (status : EFI_STATUS) : Prop :=
  if negb valid then status = EFI_INVALID_PARAMETER
  else if deletes data attrs then status = match m !! k with Some _ => EFI_SUCCESS | None => EFI_NOT_FOUND end
  else if has_data m k data then status = EFI_SUCCESS
  else status = EFI_SUCCESS ∨ status = EFI_OUT_OF_RESOURCES.

Lemma set_status pcd name guid data attrs st : unique false st →
  boot_status (valid_args pcd name data attrs) (name, guid) data attrs (contents false st)
    (spec_set pcd false name guid data attrs st).1.
Proof.
  intros Hu. unfold boot_status, spec_set. destruct (valid_args pcd name data attrs) eqn:Hv; [|done]. cbn [negb].
  assert (name ≠ []) as Hne by by intros ->.
  pose proof (contents_lookup false name guid st Hu Hne) as Hm. unfold lookup in Hm.
  unfold spec_update, has_data. destruct (locate false name guid st) as [[[vol i] v]|]; simpl in *; rewrite Hm.
  - destruct (deletes data attrs); [done|]. destruct (bool_decide _); [done|]. destruct (fits _ _ _); auto.
  - destruct (deletes data attrs); [done|]. destruct (fits _ _ _); auto.
Qed.

Lemma map_set_lookup rt k data attrs m :
  deletes data attrs = false → (rt = true → no_bits attrs EFI_VARIABLE_RUNTIME_ACCESS = false) →
  ∃ a, map_set rt k data attrs EFI_SUCCESS m !! k = Some (a, data) ∧ (a = attrs ∨ m !! k = Some (a, data)).
Proof.
  intros Hd Hrt. simpl. rewrite Hd.
  assert (negb rt || negb (no_bits attrs EFI_VARIABLE_RUNTIME_ACCESS) = true) as ->.
  { destruct rt; [|done]. by rewrite Hrt. }
  unfold has_data. destruct (m !! k) as [[a d]|] eqn:E; [case_bool_decide as Hdd|].
  - exists a. rewrite E. subst d. auto.
  - exists attrs. rewrite lookup_insert_eq. auto.
  - exists attrs. rewrite lookup_insert_eq. auto.
Qed.
