(* ===== verification/EmuNext.v ===== *)
(** * EmuVariable: enumerating variables *)

From Stdlib Require Import ZArith Lia.
From stdpp Require Import base list list_numbers strings gmap.
From S2P Require Import Prelude.
From S2P Require Import EmuLang.
From S2P Require Import EmuVariable.
From S2P Require Import EmuStore.
From S2P Require Import EmuSpec.
From S2P Require Import EmuRefine.
From S2P Require Import EmuMap.

Open Scope Z_scope.

Lemma drop_middle {A} (l1 : list A) x l2 : drop (S (length l1)) (l1 ++ x :: l2) = l2.
Proof. by induction l1. Qed.

Lemma take_middle {A} (l1 : list A) l2 : take (length l1) (l1 ++ l2) = l1.
Proof. apply take_app_length. Qed.

(** In a list whose elements have different keys an element occurs once. *)
Lemma split_unique (l1 l2 l1' l2' : list Var) v :
  NoDup (key <$> (l1 ++ v :: l2)) → l1 ++ v :: l2 = l1' ++ v :: l2' → l1 = l1' ∧ l2 = l2'.
Proof.
  revert l1'. induction l1 as [|x l1 IH]; intros [|y l1'] Hn E; simpl in *.
  - by injection E as ->.
  - injection E as E1 E2. exfalso. subst y. apply NoDup_cons in Hn as [Hn _]. apply Hn. rewrite E2. apply list_elem_of_fmap_2.
    apply elem_of_app. right. apply list_elem_of_here.
  - injection E as E1 E2. exfalso. subst x. apply NoDup_cons in Hn as [Hn _]. apply Hn. apply list_elem_of_fmap_2.
    apply elem_of_app. right. apply list_elem_of_here.
  - injection E as E1 E2. subst y. apply NoDup_cons in Hn as [_ Hn]. destruct (IH _ Hn E2) as [-> ->]. done.
Qed.

Lemma list_find_filter {A} (P : A → Prop) `{!∀ x, Decision (P x)} (l : list A) :
  match list_find P l with
  | Some (i, v) => filter P l = v :: filter P (drop (S i) l)
  | None => filter P l = []
  end.
Proof.
  induction l as [|x l IH]; [done|]. cbn [list_find]. rewrite filter_cons.
  destruct (decide (P x)); [done|]. by destruct (list_find P l) as [[i v]|].
Qed.

Lemma matches_nil rt guid : ∀ v, matches rt [] guid v = true ↔ live rt v = true.
Proof. intros v. unfold matches, live. simpl. by rewrite andb_true_r. Qed.

(** A search with the empty name finds the first visible variable. *)
Lemma locate_first rt guid st :
  match locate rt [] guid st with
  | Some (vol, i, v) => ∃ l, visibles rt st = v :: l
  | None => visibles rt st = []
  end.
Proof.
  unfold locate, visibles. rewrite filter_app.
  rewrite <- !(list_filter_iff _ _ _ (matches_nil rt guid)).
  pose proof (list_find_filter (λ v, matches rt [] guid v = true) st.1) as H1.
  pose proof (list_find_filter (λ v, matches rt [] guid v = true) st.2) as H2.
  destruct (list_find _ st.1) as [[i v]|]; rewrite H1; [by eexists|].
  destruct (list_find _ st.2) as [[i v]|]; rewrite H2; [by eexists|done].
Qed.

Section Next.
Context (pcd : Pcds) (uninit : bool) (Hpcd : pcd_ok pcd) {s : Emu} {st : list Var * list Var} (Hr : emu_rep pcd s st).
Abbreviation rt := (mAtRuntime s).

(** The store from the variables after [l1] on. *)
Lemma at_suffix vol l1 l2 : pick vol st = l1 ++ l2 →
  ∃ pre free tail, at_ (the_store vol s) free tail pre l2 ∧ (2 ≤ length tail)%nat ∧
    Z.of_nat (length pre) = 28 + esizes l1 ∧ (28 + esizes (l1 ++ l2) + Z.of_nat free = PcdVariableStoreSize pcd).
Proof.
  intros E. destruct (store_rep_at _ _ _ (rep_store _ _ _ Hr vol)) as (hdr & free & tail & Hat & Ht & Hh & Hf & _).
  rewrite E in *. destruct Hat as (Hm & Hp & Hv & He & Hfm). apply Forall_app in Hv as [Hv1 Hv2].
  pose proof (length_encoded l1 Hv1). pose proof (esizes_mod l1).
  exists (hdr ++ encoded l1), free, tail. rewrite esizes_app in *.
  assert (Z.of_nat (length (hdr ++ encoded l1)) = 28 + esizes l1) as Hl by (rewrite length_app; lia).
  split; [|split; [done|split; [done|lia]]]. unfold at_. rewrite Hl.
  split; [by rewrite Hm, encoded_app, <- !app_assoc|]. split; [lia|]. split; [done|]. split; [|done].
  rewrite He. f_equal. lia.
Qed.

Lemma visible_at vol l1 v l2 : pick vol st = l1 ++ v :: l2 →
  visible (the_store vol s) rt (28 + esizes l1) = Some (live rt v).
Proof.
  intros E. destruct (at_suffix _ _ _ E) as (pre & free & tail & Hat & Ht & <- & _).
  unfold visible. rewrite (find_match_at _ _ _ Ht _ _ _ _ _ _ Hat) by done. unfold matches, live.
  by rewrite andb_true_r.
Qed.

(** The step from the end of the non-volatile to the volatile store. *)
Definition switch (fuel : nat) : option (option (bool * Z)) :=
  id ← StartId (Volatile s) first_variable;
  if negb (id =? VARIABLE_DATA) then next_loop fuel s true true first_variable else
  ok ← visible (Volatile s) rt first_variable;
  if (ok : bool) then Some (Some (true, first_variable)) else next_loop fuel s true true first_variable.

Lemma next_step fuel vol l1 v l2 : pick vol st = l1 ++ v :: l2 →
  next_loop (S fuel) s true vol (28 + esizes l1) =
  match l2 with
  | w :: _ => if live rt w then Some (Some (vol, 28 + esizes (l1 ++ [v])))
              else next_loop fuel s true vol (28 + esizes (l1 ++ [v]))
  | [] => if vol then Some None else switch fuel
  end.
Proof.
  intros E. destruct (at_suffix _ _ _ E) as (pre & free & tail & Hat & Ht & Hl & Hf).
  assert (esizes (l1 ++ [v]) = esizes l1 + esize v) as He by (rewrite esizes_app; simpl; lia).
  destruct (next_at _ _ _ Ht _ _ _ Hat) as (r & Hn & Hv). cbn [next_loop]. rewrite <- Hl, Hn. cbn [mbind option_bind].
  pose proof Hat as (_ & _ & _ & -> & _). cbn [mbind option_bind]. rewrite Hl in *.
  destruct l2 as [|w l2].
  - simpl esizes in *. destruct Hv as [->|[-> ->]]; [by destruct vol|].
    destruct (Z.leb_spec (28 + esizes l1 + (esize v + 0) + Z.of_nat 0) (28 + esizes l1 + esize v)); [|lia]. by destruct vol.
  - subst r. cbn [esizes]. pose proof (esize_pos w). pose proof (esizes_nonneg l2).
    destruct (Z.leb_spec (28 + esizes l1 + (esize v + (esize w + esizes l2)) + Z.of_nat free) (28 + esizes l1 + esize v)); [lia|].
    cbv zeta. cbn [from_option]. unfold id. replace (28 + esizes l1 + esize v) with (28 + esizes (l1 ++ [v])) by lia.
    rewrite (visible_at vol (l1 ++ [v]) w l2) by by rewrite E, <- app_assoc. done.
Qed.

(** The result of the loop: the first visible variable of [l]. *)
Definition next_res (r : option (option (bool * Z))) (l : list Var) : Prop :=
  match filter (λ v, live rt v = true) l with
  | [] => r = Some None
  | w :: _ => ∃ vol j q, r = Some (Some (vol, q)) ∧ at_pos vol j w q st
  end.

Lemma next_volatile l2 : ∀ fuel l1 v, (length l2 < fuel)%nat → st.2 = l1 ++ v :: l2 →
  next_res (next_loop fuel s true true (28 + esizes l1)) l2.
Proof.
  induction l2 as [|w l2 IH]; intros [|fuel] l1 v Hf E; try (simpl in Hf; lia); rewrite (next_step fuel true _ v _ E);
    unfold next_res; [done|]. rewrite filter_cons.
  destruct (decide (live rt w = true)) as [Hw|Hw].
  - rewrite Hw. do 3 eexists. split; [reflexivity|]. exists (l1 ++ [v]), l2. by rewrite <- app_assoc.
  - apply not_true_iff_false in Hw. rewrite Hw. apply (IH fuel (l1 ++ [v]) w); [simpl in *; lia|]. by rewrite <- app_assoc.
Qed.

Lemma switch_ok fuel : (length st.2 < fuel)%nat → next_res (switch fuel) st.2.
Proof.
  intros Hf. destruct (at_suffix true [] (st.2) eq_refl) as (pre & free & tail & Hat & Ht & Hl & Hsz). change (28 + esizes []) with 28 in Hl.
  unfold switch. rewrite first_variable_eq. change (Volatile s) with (the_store true s).
  destruct st.2 as [|v l] eqn:E.
  - pose proof (pcd_size _ Hpcd). simpl in Hsz.
    rewrite <- Hl, (at_nil_StartId _ _ _ Ht _ Hat) by lia. simpl. destruct fuel; [simpl in Hf; lia|].
    cbn [next_loop]. unfold GetNextVariablePtr, GetNextPotentialVariablePtr, GetVariableDataPtr.
    rewrite (at_nil_StartId _ _ _ Ht _ Hat) by lia. simpl.
    change (Volatile s) with (the_store true s). pose proof Hat as (_ & _ & _ & -> & _). done.
  - destruct (at_cons _ _ _ Ht _ _ _ Hat) as (Hm & _ & _). rewrite <- Hl at 1. rewrite (StartId_at _ _ _ _ Hm). simpl.
    change (visible (Volatile s) rt 28) with (visible (the_store true s) rt (28 + esizes [])).
    rewrite (visible_at true [] v l E). simpl. unfold next_res. rewrite filter_cons.
    destruct (decide (live rt v = true)) as [Hw|Hw].
    + rewrite Hw. do 3 eexists. split; [reflexivity|]. exists [], l. done.
    + apply not_true_iff_false in Hw. rewrite Hw. apply (next_volatile l fuel [] v); [simpl in *; lia|done].
Qed.

Lemma next_nonvolatile l2 : ∀ fuel l1 v, (length l2 + length st.2 + 1 < fuel)%nat → st.1 = l1 ++ v :: l2 →
  next_res (next_loop fuel s true false (28 + esizes l1)) (l2 ++ st.2).
Proof.
  induction l2 as [|w l2 IH]; intros [|fuel] l1 v Hf E; try (simpl in Hf; lia); rewrite (next_step fuel false _ v _ E).
  - apply switch_ok. simpl in Hf. lia.
  - unfold next_res. cbn [app]. rewrite filter_cons. destruct (decide (live rt w = true)) as [Hw|Hw].
    + rewrite Hw. do 3 eexists. split; [reflexivity|]. exists (l1 ++ [v]), l2. by rewrite <- app_assoc.
    + apply not_true_iff_false in Hw. rewrite Hw. apply (IH fuel (l1 ++ [v]) w); [simpl in *; lia|]. by rewrite <- app_assoc.
Qed.

(** ** EmuGetNextVariableName *)

(** The result when [l] are the visible variables still to be listed. *)
Definition spec_next (sz : Z) (l : list Var) : EFI_STATUS * option Z * option (list Z * EFI_GUID) :=
  match l with
  | [] => (EFI_NOT_FOUND, Some sz, None)
  | w :: _ =>
      if StrSize (v_name w) <=? sz then (EFI_SUCCESS, Some (StrSize (v_name w)), Some (name_bytes (v_name w), v_guid w))
      else (EFI_BUFFER_TOO_SMALL, Some (StrSize (v_name w)), None)
  end.

(** The end of the service: the name and the GUID of the variable found. *)
Definition give (sz : Z) (nx : option (bool * Z)) : M Emu (EFI_STATUS * option Z * option (list Z * EFI_GUID)) :=
  match nx with
  | None => mret (EFI_NOT_FOUND, Some sz, None)
  | Some (vol, q) =>
      ns ← peek (λ s, NameSize (the_store vol s) q);
      if ns <=? sz then
        nb ← peek (λ s, rdb (the_store vol s) (Z.to_nat ns) (q + sizeof_VARIABLE_HEADER));
        vg ← peek (λ s, VendorGuid (the_store vol s) q);
        mret (EFI_SUCCESS, Some ns, Some (nb, vg))
      else mret (EFI_BUFFER_TOO_SMALL, Some ns, None)
  end.

Lemma give_ok sz r l : next_res r l →
  ∃ nx, r = Some nx ∧ give sz nx s = Some (spec_next sz (filter (λ v, live rt v = true) l), s).
Proof.
  unfold next_res. destruct (filter _ l) as [|w l']; [intros ->; by eexists|].
  intros (vol & j & q & -> & Hat). eexists. split; [reflexivity|].
  destruct (at_pos_bytes pcd Hr _ _ _ _ Hat) as (pre & post & Hm & -> & Hv). unfold give, spec_next.
  rewrite (bind_peek _ _ _ _ (NameSize_at _ _ _ _ Hv Hm)). destruct (_ <=? sz); [|done].
  rewrite (bind_peek _ _ _ _ (name_read _ _ _ _ Hv Hm)), (bind_peek _ _ _ _ (VendorGuid_at _ _ _ _ Hv Hm)). done.
Qed.

Lemma vars_bound vol : (length (pick vol st) < length (the_store vol s))%nat.
Proof. eapply vars_fit, (rep_store _ _ _ Hr). Qed.

(** The variables after position [i] of a store. *)
Definition rest (vol : bool) (i : nat) : list Var :=
  drop (S i) (pick vol st) ++ (if vol then [] else st.2).

Lemma next_ok vol i v p : at_pos vol i v p st →
  next_res (next_loop (length (NonVolatile s) + length (Volatile s)) s true vol p) (rest vol i).
Proof.
  intros (l1 & l2 & E & <- & ->). pose proof (vars_bound true) as Ht. pose proof (vars_bound false) as Hf.
  unfold rest. rewrite E, drop_middle. simpl in Ht, Hf. destruct vol; simpl in E; rewrite E in *.
  - rewrite app_nil_r. apply (next_volatile _ _ _ v); [|done]. rewrite length_app in *. simpl in *. lia.
  - apply (next_nonvolatile _ _ _ v); [|done]. rewrite length_app in *. simpl in *. lia.
Qed.

Lemma next_unfold sz name guid e t nx : FindVariable uninit name (Some guid) s = Some ((e, t), s) →
  match CurrPtr t with
  | None => e = EFI_NOT_FOUND ∧ nx = None
  | Some p => next_loop (length (NonVolatile s) + length (Volatile s)) s (negb (bool_decide (name = []))) (TVolatile t) p = Some nx
  end →
  EmuGetNextVariableName uninit (Some sz) (Some name) (Some guid) s = give sz nx s.
Proof.
  intros Ef Ht. unfold EmuGetNextVariableName. rewrite (bind_eq _ _ _ _ _ Ef). cbn [fst snd].
  destruct (CurrPtr t) as [p|]; [by rewrite (bind_peek _ _ _ _ Ht)|]. by destruct Ht as [-> ->].
Qed.

Lemma around vol i v p : at_pos vol i v p st → ∃ l, st.1 ++ st.2 = l ++ v :: rest vol i.
Proof.
  intros (l1 & l2 & E & <- & _). unfold rest. rewrite E, drop_middle. destruct vol; simpl in E; rewrite E.
  - exists (st.1 ++ l1). by rewrite app_nil_r, <- app_assoc.
  - exists l1. by rewrite <- app_assoc.
Qed.

Lemma around_visible vol i v p : at_pos vol i v p st → live rt v = true →
  ∃ l, visibles rt st = l ++ v :: filter (λ v, live rt v = true) (rest vol i).
Proof.
  intros (l & E)%around Hv. unfold visibles. rewrite E, filter_app, filter_cons_True by done. by eexists.
Qed.

Lemma visible_ok v : v ∈ visibles rt st → var_ok v.
Proof.
  intros [_ [Hin|Hin]%elem_of_app]%list_elem_of_filter.
  - destruct (rep_store _ _ _ Hr false) as (? & ? & ? & _ & _ & _ & _ & _ & Hall & _).
    rewrite Forall_forall in Hall. by apply Hall.
  - destruct (rep_store _ _ _ Hr true) as (? & ? & ? & _ & _ & _ & _ & _ & Hall & _).
    rewrite Forall_forall in Hall. by apply Hall.
Qed.

(** The name of a visible variable: the visible variables after it. *)
Lemma next_named sz l1 v l2 : unique rt st → visibles rt st = l1 ++ v :: l2 →
  EmuGetNextVariableName uninit (Some sz) (Some (v_name v)) (Some (v_guid v)) s = Some (spec_next sz l2, s).
Proof.
  intros Hu Hv. assert (v ∈ visibles rt st) as Hin by (rewrite Hv; apply elem_of_app; right; apply list_elem_of_here).
  pose proof (visible_ok v Hin) as Hok. pose proof (ok_named v Hok) as Hne.
  destruct (find_tracks pcd uninit (v_name v) (v_guid v) s st Hr (ok_name v Hok)) as (e & t & Ef & Ht & He).
  unfold tracks in Ht. destruct (locate rt (v_name v) (v_guid v) st) as [[[vol i] w]|] eqn:El.
  - destruct Ht as (p & Hat & ->). destruct (locate_visible _ _ _ _ _ _ _ Hne El) as (Hl & Hw & Hk).
    destruct (around_visible _ _ _ _ Hat Hw) as (l & Ha).
    assert (w = v) as ->.
    { change (v_name v, v_guid v) with (key v) in Hk.
      apply list_elem_of_lookup in Hin as (a & Ha1).
      assert (w ∈ visibles rt st) as (b & Hb1)%list_elem_of_lookup by (by eapply pick_visible).
      assert (a = b) as ->; [|congruence]. eapply (NoDup_lookup _ _ _ (key v) Hu); rewrite list_lookup_fmap.
      - by rewrite Ha1.
      - rewrite Hb1. simpl. by rewrite Hk. }
    destruct (give_ok sz _ _ (next_ok _ _ _ _ Hat)) as (nx & Hnx & Hg).
    rewrite (next_unfold sz _ _ _ _ nx Ef); cbn [CurrPtr TVolatile]; [|by rewrite bool_decide_eq_false_2].
    rewrite Hg. unfold unique in Hu. rewrite Hv in Hu. rewrite Ha in Hv.
    symmetry in Hv. by destruct (split_unique _ _ _ _ _ Hu Hv) as [_ ->].
  - by destruct (locate_None rt _ _ st v Hne El Hin).
Qed.

(** Without a name the loop stops at the variable that was found. *)
Lemma next_here vol i v p : at_pos vol i v p st → live rt v = true →
  next_loop (length (NonVolatile s) + length (Volatile s)) s false vol p = Some (Some (vol, p)).
Proof.
  intros (l1 & l2 & E & _ & ->) Hv. pose proof (vars_bound true) as Hf. simpl in Hf.
  destruct (length (NonVolatile s) + length (Volatile s))%nat as [|fuel] eqn:Ef; [lia|]. cbn [next_loop mbind option_bind].
  destruct (at_suffix _ _ _ E) as (pre & free & tail & Hat & Ht & Hl & _).
  pose proof Hat as (_ & _ & _ & -> & _). cbn [mbind option_bind esizes]. rewrite Hl.
  pose proof (esize_pos v). pose proof (esizes_nonneg l2).
  destruct (Z.leb_spec (28 + esizes l1 + (esize v + esizes l2) + Z.of_nat free) (28 + esizes l1)); [lia|].
  cbv zeta. cbn [from_option]. unfold id. rewrite (visible_at vol l1 v l2 E). cbn [mbind option_bind]. by rewrite Hv.
Qed.

(** The empty name: all the visible variables. *)
Lemma next_first sz guid :
  EmuGetNextVariableName uninit (Some sz) (Some []) (Some guid) s = Some (spec_next sz (visibles rt st), s).
Proof.
  destruct (find_tracks pcd uninit [] guid s st Hr ltac:(done)) as (e & t & Ef & Ht & He).
  unfold tracks in Ht. destruct (locate rt [] guid st) as [[[vol i] v]|] eqn:El.
  - destruct Ht as (p & Hat & ->). pose proof (locate_first rt guid st) as Hv. rewrite El in Hv. destruct Hv as (l & Hv).
    assert (live rt v = true) as Hlive.
    { assert (v ∈ visibles rt st) as [? _]%list_elem_of_filter; [|done]. rewrite Hv. apply list_elem_of_here. }
    destruct (give_ok sz (Some (Some (vol, p))) (st.1 ++ st.2)) as (nx & [= <-] & Hg).
    { unfold next_res. fold (visibles rt st). rewrite Hv. by exists vol, i, p. }
    rewrite (next_unfold sz _ _ _ _ (Some (vol, p)) Ef); [done|]. cbn [CurrPtr TVolatile]. by apply next_here with i v.
  - rewrite (next_unfold sz _ _ _ _ None Ef); [|by rewrite Ht, He].
    pose proof (locate_first rt guid st) as Hv. rewrite El in Hv. by rewrite Hv.
Qed.
End Next.
