(* ===== verification/EmuTheorems.v ===== *)
(** * EmuVariable: theorems about the services

    Initialisation establishes the representation, every service preserves it, and
    the results are those of a finite map. *)

From Stdlib Require Import ZArith Lia.
From stdpp Require Import base list list_numbers strings gmap fin_maps.
From S2P Require Import Prelude.
From S2P Require Import EmuLang.
From S2P Require Import EmuVariable.
From S2P Require Import EmuStore.
From S2P Require Import EmuSpec.
From S2P Require Import EmuRefine.
From S2P Require Import EmuMap.
From S2P Require Import EmuNext.

Open Scope Z_scope.

(** The state of the services holds the variables [m]. *)
Definition holds (pcd : Pcds) (s : Emu) (m : gmap (list Z * list Z) (Z * list Z)) : Prop :=
  ∃ st, emu_rep pcd s st ∧ unique (mAtRuntime s) st ∧ contents (mAtRuntime s) st = m.

(** ** Initialisation *)

Lemma store_prefix bs pool : (length bs ≤ length pool)%nat → store 0 bs pool = bs ++ drop (length bs) pool.
Proof.
  intros Hl. rewrite <- (take_drop (length bs) pool) at 1.
  apply (store_app [] (take (length bs) pool) bs (drop (length bs) pool)). rewrite length_take. lia.
Qed.

Section Init.
Context (pcd : Pcds) (uninit : bool) (Hpcd : pcd_ok pcd).
Abbreviation size := (PcdVariableStoreSize pcd).
Context (Halign : size mod 4 = 0) (Hres : PcdEmuVariableNvStoreReserved pcd = 0).

Lemma length_store_header : length (store_header pcd) = 28%nat.
Proof. done. Qed.

(** The formatted store. *)
Lemma formatted pool : size + 2 ≤ Z.of_nat (length pool) →
  let m := store 0 (replicate (Z.to_nat size) 0xff) pool in
  InitializeLocationForLastVariableOffset m = Some 28 ∧ store_rep size (store 0 (store_header pcd) m) [].
Proof.
  intros Hl m. pose proof (pcd_size _ Hpcd) as Hs. pose proof (pcd_hw _ Hpcd).
  assert (m = replicate 28 0xff ++ replicate (Z.to_nat (size - 28)) 0xff ++ drop (Z.to_nat size) pool) as Em.
  { unfold m. rewrite store_prefix by (rewrite length_replicate; lia).
    rewrite length_replicate, app_assoc, <- replicate_add. do 2 f_equal. lia. }
  split.
  - unfold InitializeLocationForLastVariableOffset. destruct (length m) as [|n] eqn:E.
    { rewrite Em, !length_app, length_replicate in E. lia. }
    cbn [last_offset]. change sizeof_VARIABLE_STORE_HEADER with (Z.of_nat (length (replicate 28 0xff))).
    rewrite (StartId_free m (replicate 28 0xff) _ _ Em) by lia. done.
  - exists (store_header pcd), (Z.to_nat (size - 28)), (drop (Z.to_nat size) pool).
    split; [|split; [done|split; [|split; [|split; [|split; [constructor|split; [done|lia]]]]]]].
    + rewrite Em. exact (store_app [] (replicate 28 0xff) (store_header pcd) _ eq_refl).
    + unfold store_header. apply (rd_app gEfiVariableGuid (le_put 4 size)
        ([VARIABLE_STORE_FORMATTED; VARIABLE_STORE_HEALTHY] ++ le_put 2 0 ++ le_put 4 0)); try done.
      apply le_get_put. change (256 ^ Z.of_nat 4) with (2 ^ 32). lia.
    + simpl esizes. lia.
    + rewrite length_drop. lia.
Qed.

Lemma init_store VolatileStore pool s : size + 2 ≤ Z.of_nat (length pool) →
  ∃ m, InitializeVariableStore pcd uninit VolatileStore (Some pool) None s =
    Some (EFI_SUCCESS, set_store VolatileStore m (set_last VolatileStore 28 s)) ∧ store_rep size m [].
Proof.
  intros Hl. destruct (formatted pool Hl) as [H1 H2]. exists (store 0 (store_header pcd) (store 0 (replicate (Z.to_nat size) 0xff) pool)).
  split; [|done]. unfold InitializeVariableStore. pose proof (pcd_hw _ Hpcd). pose proof (pcd_size _ Hpcd).
  destruct (Z.ltb_spec size (PcdHwErrStorageSize pcd)); [lia|]. unfold allocated. rewrite Hres.
  change (0 =? 0) with true. rewrite orb_true_r, bind_ret.
  destruct (Nat.ltb_spec (length pool) (Z.to_nat size)); [lia|].
  by rewrite (bind_peek _ _ _ _ H1).
Qed.

Lemma emu_init_ok vol_pool nv_pool :
  size + 2 ≤ Z.of_nat (length vol_pool) → size + 2 ≤ Z.of_nat (length nv_pool) →
  ∃ s, VariableCommonInitialize pcd uninit true (Some vol_pool) (Some nv_pool) None = Some (EFI_SUCCESS, s, 3) ∧
    emu_rep pcd s ([], []) ∧ mAtRuntime s = false ∧ PlatformLangCodes s = None.
Proof.
  intros Hv Hn. destruct (init_store true vol_pool emu_zero Hv) as (mv & Ev & Rv).
  unfold VariableCommonInitialize. cbn [negb]. rewrite Ev. cbn [EFI_ERROR].
  destruct (init_store false nv_pool (set_store true mv (set_last true 28 emu_zero)) Hn) as (mn & En & Rn).
  rewrite En. eexists. split; [unfold allocated; rewrite Hres; reflexivity|]. split; [|done]. pose proof (pcd_hw _ Hpcd).
  split; try done; [by intros []|change (common_total ([], []).1) with 0; lia|change (hw_total ([], []).1) with 0; lia].
Qed.
End Init.

(** ** A concrete configuration *)

Definition pcd_example : Pcds := {|
  PcdVariableStoreSize := 512; PcdMaxVariableSize := 256; PcdMaxHardwareErrorVariableSize := 256;
  PcdHwErrStorageSize := 64; PcdEmuVariableNvStoreReserved := 0; PcdVariableCollectStatistics := true |}.

Definition emu_example : Emu :=
  match VariableCommonInitialize pcd_example false true (Some (replicate 516 7)) (Some (replicate 516 7)) None with
  | Some (_, s, _) => s
  | None => emu_zero
  end.

Definition guid_example : EFI_GUID := replicate 16 3.

Lemma pcd_example_ok : pcd_ok pcd_example.
Proof. split; simpl; lia. Qed.

Lemma emu_example_rep : emu_rep pcd_example emu_example ([], []).
Proof.
  destruct (emu_init_ok pcd_example false pcd_example_ok eq_refl eq_refl (replicate 516 7) (replicate 516 7)) as (s & E & R & _).
  - by rewrite length_replicate.
  - by rewrite length_replicate.
  - unfold emu_example. by rewrite E.
Qed.

Lemma emu_example_holds : holds pcd_example emu_example ∅.
Proof. exists ([], []). split; [apply emu_example_rep|]. split; [apply NoDup_nil_2|done]. Qed.

Lemma example_name c : 0 < c < 65536 → Forall unit16 [c].
Proof. intros. by constructor. Qed.

Definition is_some {A} (x : option A) : bool := match x with Some _ => true | None => false end.

(** C39. Initialisation without an image of variables, whatever the pool answers: with memory
    for the globals and both stores it returns EFI_SUCCESS and leaves two formatted stores
    that hold no variables; without it the status is EFI_OUT_OF_RESOURCES, and if only the
    non-volatile store found no memory, the globals and the volatile store stay allocated.
    This is for a configuration without reserved memory whose store size is a multiple of
    four below 2^30 with room for a header and the error records, and for stores behind
    which two more bytes can be read; the memory may hold anything. *)
Theorem emu_init pcd uninit globals vol_pool nv_pool :
  pcd_ok pcd → PcdVariableStoreSize pcd mod 4 = 0 → PcdEmuVariableNvStoreReserved pcd = 0 →
  (∀ m, vol_pool = Some m → PcdVariableStoreSize pcd + 2 ≤ Z.of_nat (length m)) →
  (∀ m, nv_pool = Some m → PcdVariableStoreSize pcd + 2 ≤ Z.of_nat (length m)) →
  ∃ st s n, VariableCommonInitialize pcd uninit globals vol_pool nv_pool None = Some (st, s, n) ∧
    if globals && is_some vol_pool && is_some nv_pool then st = EFI_SUCCESS ∧ n = 3 ∧ holds pcd s ∅
    else st = EFI_OUT_OF_RESOURCES ∧ n = (if globals && is_some vol_pool then 2 else 0).
Proof.
  intros Hp Hm Hr Hv Hn. destruct globals; [|by do 3 eexists].
  assert (PcdVariableStoreSize pcd <? PcdHwErrStorageSize pcd = false) as Hs by (apply Z.ltb_ge; pose proof (pcd_hw _ Hp); lia).
  destruct vol_pool as [vol_pool|]; [|exists EFI_OUT_OF_RESOURCES, emu_zero, 0; split; [|done]; unfold VariableCommonInitialize, InitializeVariableStore; rewrite Hs; reflexivity].
  destruct nv_pool as [nv_pool|]; cbn [andb is_some].
  - destruct (emu_init_ok pcd uninit Hp Hm Hr vol_pool nv_pool (Hv _ eq_refl) (Hn _ eq_refl)) as (s & E & R & _).
    exists EFI_SUCCESS, s, 3. do 3 (split; [done|]). exists ([], []). split; [done|]. split; [apply NoDup_nil_2|done].
  - destruct (init_store pcd uninit Hp Hm Hr true vol_pool emu_zero (Hv _ eq_refl)) as (mv & Ev & _).
    do 3 eexists. unfold VariableCommonInitialize. cbn [negb]. rewrite Ev. cbn [EFI_ERROR].
    unfold InitializeVariableStore, allocated. rewrite Hs, Hr. cbn. split; [reflexivity|done].
Qed.

Lemma emu_init_witness :
  (∃ st s n, VariableCommonInitialize pcd_example true true (Some (replicate 514 0)) (Some (replicate 600 1)) None = Some (st, s, n) ∧
    st = EFI_SUCCESS ∧ n = 3 ∧ holds pcd_example s ∅) ∧
  (∃ st s n, VariableCommonInitialize pcd_example true true (Some (replicate 514 0)) None None = Some (st, s, n) ∧
    st = EFI_OUT_OF_RESOURCES ∧ n = 2).
Proof.
  split.
  - apply (emu_init pcd_example true true (Some (replicate 514 0)) (Some (replicate 600 1)) pcd_example_ok eq_refl eq_refl);
      intros m [= <-]; vm_compute; done.
  - apply (emu_init pcd_example true true (Some (replicate 514 0)) None pcd_example_ok eq_refl eq_refl);
      [intros m [= <-]; vm_compute; done|done].
Defined.

(** C3. [EmuSetVariable] with any name, GUID and attributes, and with any data or with NULL of
    size zero, runs to its end and implements [spec_set]: the same status, and the two stores
    hold the encoding of the resulting lists of variables.  Excepted are the calls that pass a
    language on: those for PlatformLangCodes and LangCodes, and those for PlatformLang and Lang
    while both lists of codes are known.  The sizes are configured as in C39, variables having
    32 bytes to 2^29. *)
Theorem emu_set_refines pcd uninit s st name guid attrs null_size data :
  pcd_ok pcd → emu_rep pcd s st → Forall unit16 name → length guid = 16%nat → 0 ≤ attrs < 2 ^ 32 →
  no_propagation s name = true → (data = None → null_size = 0) →
  let r := spec_set pcd (mAtRuntime s) name guid (default [] data) attrs st in
  ∃ s', EmuSetVariable pcd uninit (Some name) (Some guid) attrs null_size data s = Some (r.1, s') ∧
    emu_rep pcd s' r.2 ∧ mAtRuntime s' = mAtRuntime s.
Proof.
  intros Hp Hr Hn Hg Ha Hq Hd r.
  destruct (EmuSetVariable_ok pcd uninit Hp s st name guid attrs null_size data Hr Hn Hg Ha Hq Hd) as (s' & E & R & M).
  exists s'. split; [done|]. split; [done|apply M].
Qed.

Lemma emu_set_refines_witness :
  let r := spec_set pcd_example false [65] guid_example [1; 2; 3] 7 ([], []) in
  ∃ s', EmuSetVariable pcd_example false (Some [65]) (Some guid_example) 7 0 (Some [1; 2; 3]) emu_example = Some (r.1, s') ∧
    emu_rep pcd_example s' r.2 ∧ mAtRuntime s' = mAtRuntime emu_example.
Proof.
  refine (emu_set_refines pcd_example false emu_example ([], []) [65] guid_example 7 0 (Some [1; 2; 3])
    pcd_example_ok emu_example_rep (example_name 65 _) eq_refl _ eq_refl _); done.
Defined.

Lemma set_map pcd uninit s m name guid attrs null_size data :
  pcd_ok pcd → holds pcd s m → Forall unit16 name → length guid = 16%nat → 0 ≤ attrs < 2 ^ 32 →
  no_propagation s name = true → (data = None → null_size = 0) →
  ∃ status s', EmuSetVariable pcd uninit (Some name) (Some guid) attrs null_size data s = Some (status, s') ∧
    holds pcd s' (map_set (mAtRuntime s) (name, guid) (default [] data) attrs status m) ∧
    (mAtRuntime s = false →
      boot_status (valid_args pcd name (default [] data) attrs) (name, guid) (default [] data) attrs m status) ∧
    same_mode s s'.
Proof.
  intros Hp (st & Hr & Hu & <-) Hn Hg Ha Hq Hd.
  destruct (EmuSetVariable_ok pcd uninit Hp s st name guid attrs null_size data Hr Hn Hg Ha Hq Hd) as (s' & E & R & M).
  do 2 eexists. split; [exact E|]. split; [|split; [|done]].
  - eexists. rewrite (proj1 M). split; [exact R|]. by apply set_contents.
  - intros Hb. rewrite Hb in *. by apply set_status.
Qed.

(** Seen through the services the stores are a finite map from name and GUID to
    attributes and data: setting a variable inserts, replaces or deletes exactly that
    key, and other keys are never affected.  Setting equal data leaves even the
    attributes; running out of space deletes the old value. *)
Theorem emu_set_map pcd uninit s m name guid attrs null_size data :
  pcd_ok pcd → holds pcd s m → Forall unit16 name → length guid = 16%nat → 0 ≤ attrs < 2 ^ 32 →
  no_propagation s name = true → (data = None → null_size = 0) →
  ∃ status s', EmuSetVariable pcd uninit (Some name) (Some guid) attrs null_size data s = Some (status, s') ∧
    holds pcd s' (map_set (mAtRuntime s) (name, guid) (default [] data) attrs status m) ∧
    (mAtRuntime s = false →
      boot_status (valid_args pcd name (default [] data) attrs) (name, guid) (default [] data) attrs m status).
Proof.
  intros Hp Hh Hn Hg Ha Hq Hd.
  destruct (set_map pcd uninit s m name guid attrs null_size data Hp Hh Hn Hg Ha Hq Hd) as (e & s' & E & H1 & H2 & _).
  by exists e, s'.
Qed.

Lemma emu_set_map_witness :
  ∃ status s', EmuSetVariable pcd_example false (Some [65]) (Some guid_example) 7 0 (Some [1; 2; 3]) emu_example
      = Some (status, s') ∧
    holds pcd_example s' (map_set false ([65], guid_example) [1; 2; 3] 7 status ∅) ∧
    (mAtRuntime emu_example = false →
      boot_status (valid_args pcd_example [65] [1; 2; 3] 7) ([65], guid_example) [1; 2; 3] 7 ∅ status).
Proof.
  refine (emu_set_map pcd_example false emu_example ∅ [65] guid_example 7 0 (Some [1; 2; 3])
    pcd_example_ok emu_example_holds (example_name 65 _) eq_refl _ eq_refl _); done.
Defined.

(** The state after one variable was set. *)
Definition emu_example1 : Emu :=
  match EmuSetVariable pcd_example false (Some [65]) (Some guid_example) 7 0 (Some [1; 2; 3]) emu_example with
  | Some (_, s) => s
  | None => emu_zero
  end.

Lemma emu_example1_holds : holds pcd_example emu_example1 {[([65], guid_example) := (7, [1; 2; 3])]}.
Proof.
  destruct (set_map pcd_example false emu_example ∅ [65] guid_example 7 0 (Some [1; 2; 3]) pcd_example_ok emu_example_holds
    (example_name 65 ltac:(done)) eq_refl ltac:(done) eq_refl ltac:(done)) as (e & s' & E & H & _).
  assert (e = EFI_SUCCESS) as ->.
  { assert (fst <$> EmuSetVariable pcd_example false (Some [65]) (Some guid_example) 7 0 (Some [1; 2; 3]) emu_example
      = Some EFI_SUCCESS) as Es by (vm_compute; reflexivity). rewrite E in Es. by injection Es. }
  unfold emu_example1. rewrite E. exact H.
Qed.

Definition get_result (sz : Z) (x : option (Z * list Z)) : EFI_STATUS * option Z * option (Z * list Z) :=
  match x with
  | None => (EFI_NOT_FOUND, Some sz, None)
  | Some (a, d) =>
      let n := Z.of_nat (length d) in
      if n <=? sz then (EFI_SUCCESS, Some n, Some (a, d)) else (EFI_BUFFER_TOO_SMALL, Some n, None)
  end.

Lemma get_map pcd uninit s m name guid sz :
  holds pcd s m → Forall unit16 name → name ≠ [] →
  ∃ s', EmuGetVariable pcd uninit (Some name) (Some guid) (Some sz) true s = Some (get_result sz (m !! (name, guid)), s') ∧
    holds pcd s' m ∧ same_mode s s'.
Proof.
  intros (st & Hr & Hu & <-) Hn Hne.
  destruct (EmuGetVariable_ok pcd uninit s st name guid sz Hr Hn Hne) as (s' & E & R & M).
  exists s'. split; [|split; [|done]].
  - rewrite E. unfold spec_get, get_result. cbn [fst]. rewrite contents_lookup by done. by destruct (lookup _ _ _ _).
  - exists st. destruct M as [M _]. by rewrite M.
Qed.

(** [EmuGetVariable] returns what the map holds: EFI_NOT_FOUND for an absent
    key, EFI_BUFFER_TOO_SMALL with the size that is needed, or the attributes and the
    whole data; the variables do not change. *)
Theorem emu_get_map pcd uninit s m name guid sz :
  holds pcd s m → Forall unit16 name → name ≠ [] →
  ∃ s', EmuGetVariable pcd uninit (Some name) (Some guid) (Some sz) true s = Some (get_result sz (m !! (name, guid)), s') ∧
    holds pcd s' m.
Proof. intros Hh Hn Hne. destruct (get_map pcd uninit s m name guid sz Hh Hn Hne) as (s' & E & H & _). by exists s'. Qed.

Lemma emu_get_map_witness :
  ∃ s', EmuGetVariable pcd_example false (Some [65]) (Some guid_example) (Some 2) true emu_example1 =
      Some ((EFI_BUFFER_TOO_SMALL, Some 3, None), s') ∧ holds pcd_example s' {[([65], guid_example) := (7, [1; 2; 3])]}.
Proof.
  refine (emu_get_map pcd_example false emu_example1 {[([65], guid_example) := (7, [1; 2; 3])]} [65] guid_example 2
    emu_example1_holds (example_name 65 _) _); done.
Defined.

(** Round trip: data that was set successfully is read back. *)
Theorem emu_set_get pcd uninit s m name guid attrs data s1 sz :
  pcd_ok pcd → holds pcd s m → Forall unit16 name → length guid = 16%nat → 0 ≤ attrs < 2 ^ 32 →
  no_propagation s name = true → deletes data attrs = false →
  (mAtRuntime s = true → no_bits attrs EFI_VARIABLE_RUNTIME_ACCESS = false) → Z.of_nat (length data) ≤ sz →
  EmuSetVariable pcd uninit (Some name) (Some guid) attrs 0 (Some data) s = Some (EFI_SUCCESS, s1) →
  ∃ a s2, EmuGetVariable pcd uninit (Some name) (Some guid) (Some sz) true s1 =
    Some ((EFI_SUCCESS, Some (Z.of_nat (length data)), Some (a, data)), s2) ∧
    (a = attrs ∨ m !! (name, guid) = Some (a, data)).
Proof.
  intros Hp Hh Hn Hg Ha Hq Hd Hrt Hsz E.
  destruct (set_map pcd uninit s m name guid attrs 0 (Some data) Hp Hh Hn Hg Ha Hq) as (e & s1' & E' & H1 & _); [done|].
  rewrite E in E'. injection E' as <- <-. assert (name ≠ []) as Hne by (intros ->; discriminate E).
  destruct (get_map pcd uninit s1 _ name guid sz H1 Hn Hne) as (s2 & E2 & _). rewrite E2.
  destruct (map_set_lookup (mAtRuntime s) (name, guid) data attrs m Hd Hrt) as (a & Hl & Hor).
  exists a, s2. split; [|done]. cbn [default from_option] in *. unfold id. rewrite Hl. unfold get_result.
  by rewrite (proj2 (Z.leb_le _ _) Hsz).
Qed.

Lemma emu_set_get_witness :
  ∃ a s2, EmuGetVariable pcd_example false (Some [65]) (Some guid_example) (Some 3) true emu_example1 =
    Some ((EFI_SUCCESS, Some 3, Some (a, [1; 2; 3])), s2) ∧
    (a = 7 ∨ (∅ : gmap (list Z * list Z) (Z * list Z)) !! ([65], guid_example) = Some (a, [1; 2; 3])).
Proof.
  refine (emu_set_get pcd_example false emu_example ∅ [65] guid_example 7 [1; 2; 3] emu_example1 3
    pcd_example_ok emu_example_holds (example_name 65 _) eq_refl _ eq_refl eq_refl _ _ _);
    [done|done|done|done|vm_compute; reflexivity].
Defined.

(** ** Enumeration *)

(** The name in a buffer, up to the terminator. *)
Fixpoint decode_name (bs : list Z) : CHAR16S :=
  match bs with
  | a :: b :: bs => if a + 256 * b =? 0 then [] else (a + 256 * b) :: decode_name bs
  | _ => []
  end.

Lemma decode_name_bytes n : Forall unit16 n → decode_name (name_bytes n) = n.
Proof.
  unfold name_bytes. induction 1 as [|u n Hu Hn IH]; [done|].
  cbn [flat_map le_put app decode_name]. unfold unit16 in Hu.
  replace (u mod 256 + 256 * (u / 256 mod 256)) with u by lia.
  destruct (Z.eqb_spec u 0); [lia|]. f_equal. exact IH.
Qed.

(** A caller that lists the variables: it starts with the empty name and passes the
    last name and GUID back, until the service reports an error. *)
Fixpoint list_names (uninit : bool) (fuel : nat) (name : CHAR16S) (guid : EFI_GUID) : M Emu (list (CHAR16S * EFI_GUID)) :=
  match fuel with
  | O => undef
  | S fuel =>
      r ← EmuGetNextVariableName uninit (Some (2 ^ 30)) (Some name) (Some guid);
      match r with
      | (EFI_SUCCESS, _, Some (nb, g)) =>
          l ← list_names uninit fuel (decode_name nb) g;
          mret ((decode_name nb, g) :: l)
      | _ => mret []
      end
  end.

Section Enumerate.
Context (pcd : Pcds) (uninit : bool) (Hpcd : pcd_ok pcd) (s : Emu) (st : list Var * list Var).
Context (Hr : emu_rep pcd s st) (Hu : unique (mAtRuntime s) st).
Abbreviation vs := (visibles (mAtRuntime s) st).

Lemma spec_next_cons w l : w ∈ vs →
  spec_next (2 ^ 30) (w :: l) = (EFI_SUCCESS, Some (StrSize (v_name w)), Some (name_bytes (v_name w), v_guid w)) ∧
  decode_name (name_bytes (v_name w)) = v_name w.
Proof.
  intros Hw. pose proof (visible_ok _ Hr w Hw) as Hok. pose proof (ok_sizes w Hok). split.
  - unfold spec_next. destruct (Z.leb_spec (StrSize (v_name w)) (2 ^ 30)); [done|lia].
  - apply decode_name_bytes, (ok_name w Hok).
Qed.

Lemma list_names_from l2 : ∀ l1 v fuel, vs = l1 ++ v :: l2 → (length l2 < fuel)%nat →
  list_names uninit fuel (v_name v) (v_guid v) s = Some (key <$> l2, s).
Proof.
  induction l2 as [|w l2 IH]; intros l1 v [|fuel] Hv Hf; try (simpl in Hf; lia); cbn [list_names];
    rewrite (bind_eq _ _ _ _ _ (next_named pcd uninit Hpcd Hr (2 ^ 30) _ _ _ Hu Hv)); [done|].
  assert (w ∈ vs) as Hw by (rewrite Hv; apply elem_of_app; right; apply list_elem_of_further, list_elem_of_here).
  destruct (spec_next_cons w l2 Hw) as [-> ->].
  rewrite (bind_eq _ _ _ _ _ (IH (l1 ++ [v]) w fuel ltac:(by rewrite Hv, <- app_assoc) ltac:(simpl in *; lia))). done.
Qed.

Lemma list_names_ok guid fuel : (length vs < fuel)%nat → list_names uninit fuel [] guid s = Some (key <$> vs, s).
Proof.
  intros Hf. destruct fuel as [|fuel]; [lia|]. cbn [list_names].
  rewrite (bind_eq _ _ _ _ _ (next_first pcd uninit Hr (2 ^ 30) guid)).
  destruct vs as [|v l] eqn:Hv; [done|].
  destruct (spec_next_cons v l) as [-> ->]; [rewrite Hv; apply list_elem_of_here|].
  rewrite (bind_eq _ _ _ _ _ (list_names_from l [] v fuel Hv ltac:(simpl in *; lia))). done.
Qed.
End Enumerate.

(** C18. Listing the variables with [EmuGetNextVariableName] ends and yields every
    variable of the map exactly once. *)
Theorem emu_enumerates pcd uninit s m guid fuel :
  pcd_ok pcd → holds pcd s m → (size m < fuel)%nat →
  ∃ l, list_names uninit fuel [] guid s = Some (l, s) ∧ NoDup l ∧ (∀ k, k ∈ l ↔ k ∈ dom m).
Proof.
  intros Hp (st & Hr & Hu & <-) Hf. exists (key <$> visibles (mAtRuntime s) st).
  assert (size (contents (mAtRuntime s) st) = length (visibles (mAtRuntime s) st)) as Hs.
  { unfold contents. rewrite map_size_list_to_map by by rewrite fst_binding. by rewrite length_fmap. }
  split; [apply (list_names_ok pcd); [done|done|done|lia]|]. split; [done|].
  intros k. unfold contents. by rewrite dom_list_to_map, elem_of_list_to_set, fst_binding.
Qed.

Lemma emu_enumerates_witness :
  ∃ l, list_names false 2 [] guid_example emu_example1 = Some (l, emu_example1) ∧ NoDup l ∧
    (∀ k, k ∈ l ↔ k ∈ dom ({[([65], guid_example) := (7, [1; 2; 3])]} : gmap (list Z * list Z) (Z * list Z))).
Proof.
  apply (emu_enumerates pcd_example false emu_example1 {[([65], guid_example) := (7, [1; 2; 3])]} guid_example 2
    pcd_example_ok emu_example1_holds). vm_compute. lia.
Defined.

(** After ExitBootServices exactly the variables with runtime access are left. *)
Theorem emu_exit_boot_services pcd s m :
  holds pcd s m → mAtRuntime s = false →
  ∃ s', VariableClassExitBootServicesEvent s = Some (tt, s') ∧ mAtRuntime s' = true ∧
    holds pcd s' (filter (λ kv, no_bits kv.2.1 EFI_VARIABLE_RUNTIME_ACCESS = false) m).
Proof.
  intros (st & Hr & Hu & <-) Hb. rewrite Hb in *. eexists. split; [reflexivity|]. split; [done|].
  exists st. split; [|split; [by apply unique_runtime|by apply contents_runtime]].
  destruct Hr as [H1 H2 H3 H4 H5 H6 H7]. by split.
Qed.

Lemma emu_exit_boot_services_witness :
  ∃ s', VariableClassExitBootServicesEvent emu_example1 = Some (tt, s') ∧ mAtRuntime s' = true ∧
    holds pcd_example s' (filter (λ kv, no_bits kv.2.1 EFI_VARIABLE_RUNTIME_ACCESS = false)
      {[([65], guid_example) := (7, [1; 2; 3])]}).
Proof. apply (emu_exit_boot_services pcd_example emu_example1 _ emu_example1_holds). vm_compute. reflexivity. Defined.

(** ** QueryVariableInfo *)

Section Query.
Context (m : list Z) (free : nat) (tail : list Z) (Htail : (2 ≤ length tail)%nat) (Hfree : (0 < free)%nat).

(** The walk counts every variable but the last one. *)
Lemma query_walk_ok vs : ∀ pre fuel c h, at_ m free tail pre vs → (length vs < fuel)%nat →
  0 ≤ c → 0 ≤ h → c + h + esizes vs < 2 ^ 64 →
  query_walk fuel m (Z.of_nat (length pre)) c h = Some (c + common_total (removelast vs), h + hw_total (removelast vs)).
Proof.
  induction vs as [|v vs IH]; intros pre [|fuel] c h Hat Hf Hc Hh Hb; try (simpl in Hf; lia); cbn [query_walk];
    pose proof Hat as (_ & _ & _ & He & _); rewrite He; cbn [mbind option_bind].
  - cbn [esizes]. destruct (Z.ltb_spec (Z.of_nat (length pre)) (Z.of_nat (length pre) + 0 + Z.of_nat free)); [|lia].
    unfold GetNextVariablePtr, GetNextPotentialVariablePtr, GetVariableDataPtr.
    rewrite (at_nil_StartId _ _ _ Htail _ Hat) by lia. cbn. f_equal. f_equal; unfold common_total, hw_total; simpl; lia.
  - cbn [esizes] in *. pose proof (esize_pos v). pose proof (esizes_nonneg vs).
    destruct (Z.ltb_spec (Z.of_nat (length pre)) (Z.of_nat (length pre) + (esize v + esizes vs) + Z.of_nat free)); [|lia].
    destruct (next_at _ _ _ Htail _ _ _ Hat) as (r & Hn & Hvs). rewrite Hn. cbn [mbind option_bind].
    destruct vs as [|w vs].
    { destruct Hvs as [->|[_ ?]]; [|lia]. cbn. f_equal. f_equal; unfold common_total, hw_total; simpl; lia. }
    subst r. destruct (at_cons _ _ _ Htail _ _ _ Hat) as (Hm & Hat' & Hl). pose proof Hat as (_ & _ & Hok & _).
    inversion Hok as [|? ? Hv _]; subst x l. rewrite (Attributes_at _ _ _ _ Hv Hm). cbn [mbind option_bind].
    rewrite <- Hl. replace (Z.of_nat (length (pre ++ encode v)) - Z.of_nat (length pre)) with (esize v) by lia.
    change (removelast (v :: w :: vs)) with (v :: removelast (w :: vs)).
    fold (is_hw (v_attrs v)). destruct (totals_cons v (removelast (w :: vs))) as [-> ->].
    destruct (is_hw (v_attrs v)); rewrite wrap64_small by lia; (rewrite IH; [|done|simpl in *; lia|lia|lia|lia]);
      f_equal; f_equal; lia.
Qed.
End Query.

Lemma common_removelast l : 0 ≤ common_total (removelast l) ≤ common_total l.
Proof.
  split; [apply esizes_nonneg|]. induction l as [|v [|w l] IH]; [done|apply esizes_nonneg|].
  change (removelast (v :: w :: l)) with (v :: removelast (w :: l)).
  rewrite (proj1 (totals_cons v (removelast (w :: l)))), (proj1 (totals_cons v (w :: l))). lia.
Qed.

(** [EmuQueryVariableInfo] for non-volatile variables: the remaining space is the
    space of the store less that of all the variables in it, deleted ones included,
    except for the last one, which is not counted. *)
Theorem emu_query pcd s st :
  pcd_ok pcd → emu_rep pcd s st → 28 + esizes st.1 < PcdVariableStoreSize pcd →
  let max_store := PcdVariableStoreSize pcd - 28 - PcdHwErrStorageSize pcd in
  let remaining := max_store - common_total (removelast st.1) in
  EmuQueryVariableInfo pcd 7 s =
    Some ((EFI_SUCCESS, Some (max_store, remaining,
      if remaining <? 32 then 0 else Z.min (remaining - 32) (PcdMaxVariableSize pcd - 32))), s).
Proof.
  intros Hp Hr Hroom max_store remaining. unfold EmuQueryVariableInfo. rewrite bind_gets.
  change (7 =? 0) with false. change (no_bits 7 EFI_VARIABLE_RUNTIME_ACCESS) with false. rewrite andb_false_r.
  cbv zeta. change (no_bits 7 (Z.lor EFI_VARIABLE_NON_VOLATILE (Z.lor EFI_VARIABLE_BOOTSERVICE_ACCESS
    (Z.lor EFI_VARIABLE_RUNTIME_ACCESS EFI_VARIABLE_HARDWARE_ERROR_RECORD)))) with false.
  change (no_bits 7 EFI_VARIABLE_NON_VOLATILE) with false. change (no_bits 7 EFI_VARIABLE_HARDWARE_ERROR_RECORD) with true.
  cbn [negb]. change (Z.land 7 (Z.lor EFI_VARIABLE_RUNTIME_ACCESS EFI_VARIABLE_BOOTSERVICE_ACCESS) =? EFI_VARIABLE_RUNTIME_ACCESS) with false.
  change (Z.land 7 (Z.lor EFI_VARIABLE_NON_VOLATILE EFI_VARIABLE_HARDWARE_ERROR_RECORD) =? EFI_VARIABLE_HARDWARE_ERROR_RECORD) with false.
  change (no_bits 7 EFI_VARIABLE_AUTHENTICATED_WRITE_ACCESS) with true. cbn [negb].
  rewrite (bind_peek _ _ _ _ (StoreSize_ok pcd false s st Hr)).
  destruct (store_rep_at _ _ _ (rep_store _ _ _ Hr false)) as (hdr & free & tail & Hat & Ht & Hh & Hf & _).
  simpl pick in *. pose proof (pcd_hw _ Hp). pose proof (pcd_max _ Hp). pose proof (pcd_size _ Hp).
  pose proof (esizes_nonneg st.1).
  assert (query_walk (length (the_store false s)) (the_store false s) first_variable 0 0 =
    Some (common_total (removelast st.1), hw_total (removelast st.1))) as Hq.
  { rewrite first_variable_eq. change 28 with (Z.of_nat 28). rewrite <- Hh.
    rewrite (query_walk_ok _ free tail Ht ltac:(lia) _ hdr _ 0 0 Hat); [done| |lia|lia|lia].
    eapply vars_fit, (rep_store _ _ _ Hr false). }
  rewrite (bind_peek _ _ _ _ Hq). cbn [fst snd]. unfold sizeof_VARIABLE_STORE_HEADER, sizeof_VARIABLE_HEADER.
  fold max_store. rewrite (wrap64_small max_store) by (unfold max_store; lia).
  assert (0 ≤ remaining < 2 ^ 30) as Hrem.
  { unfold remaining, max_store. pose proof (rep_common_max _ _ _ Hr). pose proof (common_removelast st.1). lia. }
  fold remaining. rewrite (wrap64_small remaining), (wrap64_small (PcdMaxVariableSize pcd - 32)) by lia.
  destruct (remaining <? 32); [done|].
  destruct (Z.ltb_spec (remaining - 32) (PcdMaxVariableSize pcd - 32)); [rewrite Z.min_l by lia|rewrite Z.min_r by lia]; done.
Qed.

Lemma emu_query_witness :
  EmuQueryVariableInfo pcd_example 7 emu_example = Some ((EFI_SUCCESS, Some (420, 420, 224)), emu_example).
Proof. exact (emu_query pcd_example emu_example ([], []) pcd_example_ok emu_example_rep eq_refl). Defined.

Lemma query_walk_total m free tail vs : (2 ≤ length tail)%nat → ∀ pre fuel c h, at_ m free tail pre vs → (length vs + 1 < fuel)%nat →
  ∃ r, query_walk fuel m (Z.of_nat (length pre)) c h = Some r.
Proof.
  intros Htail. induction vs as [|v vs IH]; intros pre [|fuel] c h Hat Hf; try (simpl in Hf; lia); cbn [query_walk];
    pose proof Hat as (_ & _ & _ & He & _); rewrite He; cbn [mbind option_bind].
  - cbn [esizes]. destruct (Z.ltb_spec (Z.of_nat (length pre)) (Z.of_nat (length pre) + 0 + Z.of_nat free)); [|by eexists].
    unfold GetNextVariablePtr, GetNextPotentialVariablePtr, GetVariableDataPtr.
    rewrite (at_nil_StartId _ _ _ Htail _ Hat) by lia. by eexists.
  - cbn [esizes] in *. pose proof (esize_pos v). pose proof (esizes_nonneg vs).
    destruct (Z.ltb_spec (Z.of_nat (length pre)) (Z.of_nat (length pre) + (esize v + esizes vs) + Z.of_nat free)); [|lia].
    destruct (next_at _ _ _ Htail _ _ _ Hat) as (r & Hn & Hvs). rewrite Hn. cbn [mbind option_bind].
    destruct r as [q|]; [|by eexists].
    destruct (at_cons _ _ _ Htail _ _ _ Hat) as (Hm & Hat' & Hl). pose proof Hat as (_ & _ & Hok & _).
    inversion Hok as [|? ? Hv _]; subst x l. rewrite (Attributes_at _ _ _ _ Hv Hm). cbn [mbind option_bind].
    assert (q = Z.of_nat (length (pre ++ encode v))) as ->.
    { destruct vs; [destruct Hvs as [?|[Hq _]]; [done|]|]; congruence. }
    destruct (negb _); (apply IH; [done|simpl in Hf; lia]).
Qed.

(** ** Sequences of calls *)

Inductive Call :=
  | CSet (name : CHAR16S) (guid : EFI_GUID) (attrs : Z) (data : list Z)
  | CGet (name : CHAR16S) (guid : EFI_GUID) (sz : Z)
  | CNext (sz : Z) (name : CHAR16S) (guid : EFI_GUID)
  | CQuery (attrs : Z)
  | CExitBootServices.

Definition run_call (pcd : Pcds) (uninit : bool) (c : Call) : M Emu EFI_STATUS :=
  match c with
  | CSet n g a d => EmuSetVariable pcd uninit (Some n) (Some g) a 0 (Some d)
  | CGet n g sz => r ← EmuGetVariable pcd uninit (Some n) (Some g) (Some sz) true; mret r.1.1
  | CNext sz n g => r ← EmuGetNextVariableName uninit (Some sz) (Some n) (Some g); mret r.1.1
  | CQuery a => r ← EmuQueryVariableInfo pcd a; mret r.1
  | CExitBootServices => VariableClassExitBootServicesEvent;; mret EFI_SUCCESS
  end.

Fixpoint run_calls (pcd : Pcds) (uninit : bool) (cs : list Call) : M Emu unit :=
  match cs with
  | [] => mret tt
  | c :: cs => run_call pcd uninit c;; run_calls pcd uninit cs
  end.

(** Arguments of the types the services take; the lists of language codes are not set. *)
Definition call_ok (c : Call) : Prop :=
  match c with
  | CSet n g a _ => Forall unit16 n ∧ length g = 16%nat ∧ 0 ≤ a < 2 ^ 32 ∧ n ≠ L_PlatformLangCodes ∧ n ≠ L_LangCodes
  | CGet n _ _ | CNext _ n _ => Forall unit16 n
  | CQuery _ | CExitBootServices => True
  end.

Definition emu_inv (pcd : Pcds) (s : Emu) : Prop :=
  PlatformLangCodes s = None ∧ ∃ st, emu_rep pcd s st ∧ unique (mAtRuntime s) st.

Section Calls.
Context (pcd : Pcds) (uninit : bool) (Hpcd : pcd_ok pcd).

Lemma inv_mode s s' st : same_mode s s' → PlatformLangCodes s = None → emu_rep pcd s' st → unique (mAtRuntime s) st →
  emu_inv pcd s'.
Proof. intros (M1 & M2 & _) Hl Hr Hu. split; [congruence|]. exists st. by rewrite M1. Qed.

Lemma next_safe s sz name guid : emu_inv pcd s → Forall unit16 name →
  ∃ r, EmuGetNextVariableName uninit (Some sz) (Some name) (Some guid) s = Some (r, s).
Proof.
  intros (_ & st & Hr & Hu) Hn. destruct (decide (name = [])) as [->|Hne].
  { eexists. by apply (next_first pcd uninit Hr). }
  destruct (find_tracks pcd uninit name guid s st Hr Hn) as (e & t & Ef & Ht & He). unfold tracks in Ht.
  destruct (locate _ _ _ _) as [[[vol i] v]|].
  - destruct Ht as (p & Hat & ->). destruct (give_ok pcd Hr sz _ _ (next_ok pcd Hpcd Hr _ _ _ _ Hat)) as (nx & Hnx & Hg).
    eexists. rewrite (next_unfold uninit sz _ _ _ _ nx Ef); [exact Hg|]. cbn [CurrPtr TVolatile].
    by rewrite bool_decide_eq_false_2.
  - eexists. by rewrite (next_unfold uninit sz _ _ _ _ None Ef); [|rewrite Ht].
Qed.

Lemma query_safe s st attrs : emu_rep pcd s st → ∃ r, EmuQueryVariableInfo pcd attrs s = Some (r, s).
Proof.
  intros Hr. unfold EmuQueryVariableInfo. rewrite bind_gets. cbv zeta. repeat (case_match; [by eexists|]).
  set (vol := no_bits attrs EFI_VARIABLE_NON_VOLATILE). rewrite (bind_peek _ _ _ _ (StoreSize_ok pcd vol s st Hr)).
  destruct (store_rep_at _ _ _ (rep_store _ _ _ Hr vol)) as (hdr & free & tail & Hat & Ht & Hh & Hf & Hl & _).
  destruct (query_walk_total _ free tail _ Ht hdr (length (the_store vol s)) 0 0 Hat) as (r & Er).
  { pose proof (vars_count _ _ _ (rep_store _ _ _ Hr vol)). lia. }
  rewrite first_variable_eq. change 28 with (Z.of_nat 28). rewrite <- Hh, (bind_peek _ _ _ _ Er). by eexists.
Qed.

Lemma call_step s c : emu_inv pcd s → call_ok c → ∃ e s', run_call pcd uninit c s = Some (e, s') ∧ emu_inv pcd s'.
Proof.
  intros Hi Hc. pose proof Hi as (Hl & st & Hr & Hu). destruct c as [n g a d|n g sz|sz n g|a|]; simpl in Hc; cbn [run_call].
  - destruct Hc as (Hn & Hg & Ha & N1 & N2).
    assert (no_propagation s n = true) as Hq.
    { unfold no_propagation. rewrite !bool_decide_eq_false_2 by done. cbn [negb andb].
      rewrite (bool_decide_eq_true_2 (PlatformLangCodes s = None)) by done. by rewrite orb_true_r. }
    destruct (EmuSetVariable_ok pcd uninit Hpcd s st n g a 0 (Some d) Hr Hn Hg Ha Hq ltac:(done)) as (s' & E & R & M).
    do 2 eexists. split; [exact E|]. eapply inv_mode; [done|done|done|]. by apply set_contents.
  - destruct (decide (n = [])) as [->|Hne]; [by do 2 eexists|].
    destruct (EmuGetVariable_ok pcd uninit s st n g sz Hr Hc Hne) as (s' & E & R & M).
    do 2 eexists. rewrite (bind_eq _ _ _ _ _ E). split; [reflexivity|]. by eapply inv_mode.
  - destruct (next_safe s sz n g Hi Hc) as (r & E). do 2 eexists. rewrite (bind_eq _ _ _ _ _ E). by split; [reflexivity|].
  - destruct (query_safe s st a Hr) as (r & E). do 2 eexists. rewrite (bind_eq _ _ _ _ _ E). by split; [reflexivity|].
  - do 2 eexists. split; [reflexivity|]. split; [done|]. exists st. split; [by destruct Hr; split|].
    simpl. destruct (mAtRuntime s); [done|]. by apply unique_runtime.
Qed.

Lemma calls_safe cs : ∀ s, emu_inv pcd s → Forall call_ok cs →
  ∃ s', run_calls pcd uninit cs s = Some (tt, s') ∧ emu_inv pcd s'.
Proof.
  induction cs as [|c cs IH]; intros s Hs Hc; [by exists s|]. inversion Hc as [|? ? Hc1 Hc2]; subst.
  destruct (call_step s c Hs Hc1) as (e & s1 & E & H1). destruct (IH s1 H1 Hc2) as (s2 & E2 & H2).
  exists s2. cbn [run_calls]. by rewrite (bind_eq _ _ _ _ _ E).
Qed.
End Calls.

(** C5. From initialisation on, any sequence of calls of SetVariable, GetVariable,
    GetNextVariableName, QueryVariableInfo and ExitBootServices runs to its end, before and
    after ExitBootServices, and keeps the stores well formed with at most one visible variable
    per name and GUID; no access is outside the two stores and the two bytes behind each of
    them, where a full store is searched for one more variable.  The lists of language codes
    are not set (C3 has the same exception); the configuration is that of C39. *)
Theorem emu_calls_safe pcd uninit vol_pool nv_pool cs :
  pcd_ok pcd → PcdVariableStoreSize pcd mod 4 = 0 → PcdEmuVariableNvStoreReserved pcd = 0 →
  Z.of_nat (length vol_pool) = PcdVariableStoreSize pcd + 2 → Z.of_nat (length nv_pool) = PcdVariableStoreSize pcd + 2 →
  Forall call_ok cs →
  ∃ s0 s, VariableCommonInitialize pcd uninit true (Some vol_pool) (Some nv_pool) None = Some (EFI_SUCCESS, s0, 3) ∧
    run_calls pcd uninit cs s0 = Some (tt, s) ∧ emu_inv pcd s.
Proof.
  intros Hp Hm Hr Hv Hn Hc. destruct (emu_init_ok pcd uninit Hp Hm Hr vol_pool nv_pool) as (s0 & E & R & B & L); [lia..|].
  destruct (calls_safe pcd uninit Hp cs s0) as (s & Es & Hs); [|done|by exists s0, s].
  split; [done|]. exists ([], []). split; [done|]. apply NoDup_nil_2.
Qed.

Lemma emu_calls_safe_witness :
  ∃ s0 s, VariableCommonInitialize pcd_example false true (Some (replicate 514 0)) (Some (replicate 514 0)) None = Some (EFI_SUCCESS, s0, 3) ∧
    run_calls pcd_example false [CSet [65] guid_example 7 [1]; CQuery 7; CExitBootServices; CGet [65] guid_example 4; CNext 4 [65] guid_example] s0
      = Some (tt, s) ∧ emu_inv pcd_example s.
Proof.
  apply (emu_calls_safe pcd_example false (replicate 514 0) (replicate 514 0) _ pcd_example_ok eq_refl eq_refl);
    [by rewrite length_replicate|by rewrite length_replicate|].
  assert (Forall unit16 [65]) as H by by apply example_name.
  repeat apply Forall_cons_2; done.
Defined.

(** Replacing a variable when the store is full returns EFI_OUT_OF_RESOURCES
    and loses the old value, although nothing was written. *)
Theorem emu_full_store_loses_variable :
  fst <$> (r1 ← EmuSetVariable pcd_example false (Some [65]) (Some guid_example) 7 0 (Some (replicate 200 1));
           r2 ← EmuSetVariable pcd_example false (Some [65]) (Some guid_example) 7 0 (Some (replicate 210 2));
           r3 ← EmuGetVariable pcd_example false (Some [65]) (Some guid_example) (Some 300) true;
           mret (r1, r2, r3.1.1)) emu_example
  = Some (EFI_SUCCESS, EFI_OUT_OF_RESOURCES, EFI_NOT_FOUND).
Proof. vm_compute. reflexivity. Qed.

(** At runtime a non-volatile variable can be replaced by a volatile one. *)
Example emu_runtime_moves_to_volatile :
  fst <$> (r1 ← EmuSetVariable pcd_example false (Some [65]) (Some guid_example) 7 0 (Some [1]);
           VariableClassExitBootServicesEvent;;
           r2 ← EmuSetVariable pcd_example false (Some [65]) (Some guid_example) 6 0 (Some [2]);
           s ← gets id;
           mret (r1, r2, VolatileLastVariableOffset s)) emu_example
  = Some (EFI_SUCCESS, EFI_SUCCESS, 68).
Proof. vm_compute. reflexivity. Qed.

(** Setting equal data with other attributes succeeds and changes nothing. *)
Example emu_attributes_ignored :
  fst <$> (r1 ← EmuSetVariable pcd_example false (Some [65]) (Some guid_example) 7 0 (Some [1]);
           r2 ← EmuSetVariable pcd_example false (Some [65]) (Some guid_example) 6 0 (Some [1]);
           r3 ← EmuGetVariable pcd_example false (Some [65]) (Some guid_example) (Some 300) true;
           mret (r1, r2, r3.2)) emu_example
  = Some (EFI_SUCCESS, EFI_SUCCESS, Some (7, [1])).
Proof. vm_compute. reflexivity. Qed.
