(* ===== verification/MemoryMap.v ===== *)
(** * AptioMemoryFix: the memory map (MemoryMap.c)

    A memory map in memory is an array of descriptors, each [DescriptorSize] bytes
    apart; pointers into it are indices.  [ShrinkMemMap] works in place; its result
    is related to a function on lists.  The firmware's services are parameters. *)

From Stdlib Require Import ZArith Lia.
From stdpp Require Import base list list_numbers gmap.
From S2P Require Import Prelude.

Open Scope Z_scope.

(** ** Descriptors *)

(** Memory types are 32-bit numbers: firmware may use more than those of the
    specification. *)
Definition LoaderCode : Z := 1.
Definition LoaderData : Z := 2.
Definition BootServicesCode : Z := 3.
Definition BootServicesData : Z := 4.
Definition ConventionalMemory : Z := 7.
Definition ACPIMemoryNVS : Z := 10.

Record EFI_MEMORY_DESCRIPTOR := {
  Type_ : Z; PhysicalStart : Z; VirtualStart : Z; NumberOfPages : Z; Attribute : Z
}.

Definition EFI_PAGES_TO_SIZE (n : Z) : Z := wrap64 (Z.shiftl n 12).
Definition EFI_SIZE_TO_PAGES (n : Z) : Z := Z.shiftr n 12 + (if Z.land n 0xfff =? 0 then 0 else 1).

(** ** ShrinkMemMap *)

(** Memory the kernel treats as conventional. *)
Definition joinable_type (t : Z) : bool :=
  (t =? BootServicesCode) || (t =? BootServicesData) || (t =? ConventionalMemory) || (t =? LoaderCode) || (t =? LoaderData).

Definition CanBeJoined (PrevDesc Desc : EFI_MEMORY_DESCRIPTOR) : bool :=
  (Attribute Desc =? Attribute PrevDesc)
  && (wrap64 (PhysicalStart PrevDesc + EFI_PAGES_TO_SIZE (NumberOfPages PrevDesc)) =? PhysicalStart Desc)
  && joinable_type (Type_ Desc) && joinable_type (Type_ PrevDesc).

Definition join (PrevDesc Desc : EFI_MEMORY_DESCRIPTOR) : EFI_MEMORY_DESCRIPTOR := {|
  Type_ := ConventionalMemory; PhysicalStart := PhysicalStart PrevDesc; VirtualStart := VirtualStart PrevDesc;
  NumberOfPages := wrap64 (NumberOfPages PrevDesc + NumberOfPages Desc); Attribute := Attribute PrevDesc |}.

(** The variables of the loop; [Prev] and [Desc] are indices. *)
Record Shrink := {
  Map : list EFI_MEMORY_DESCRIPTOR; MapSize : Z; Prev : nat; Desc : nat; SizeFromDescToEnd : Z; HasEntriesToRemove : bool
}.

(** [CopyMem (&map[to], &map[from], n descriptors)]. *)
Definition copy_descs (to from n : nat) (m : list EFI_MEMORY_DESCRIPTOR) : list EFI_MEMORY_DESCRIPTOR :=
  list_inserts to (take n (drop from m)) m.

(** One iteration; [None] is an access outside the array. *)
Definition shrink_step (DescriptorSize : Z) (v : Shrink) : option Shrink :=
  PrevDesc ← Map v !! Prev v;
  D ← Map v !! Desc v;
  if CanBeJoined PrevDesc D then
    Some {| Map := <[Prev v := join PrevDesc D]> (Map v); MapSize := MapSize v; Prev := Prev v; Desc := S (Desc v);
            SizeFromDescToEnd := wrap64 (SizeFromDescToEnd v - DescriptorSize); HasEntriesToRemove := true |}
  else if HasEntriesToRemove v then
    Some {| Map := copy_descs (S (Prev v)) (Desc v) (Z.to_nat (SizeFromDescToEnd v / DescriptorSize)) (Map v);
            MapSize := wrap64 (MapSize v + DescriptorSize); Prev := S (Prev v); Desc := S (S (Prev v));
            SizeFromDescToEnd := wrap64 (SizeFromDescToEnd v - DescriptorSize); HasEntriesToRemove := false |}
  else
    Some {| Map := Map v; MapSize := wrap64 (MapSize v + DescriptorSize); Prev := S (Prev v); Desc := S (Desc v);
            SizeFromDescToEnd := wrap64 (SizeFromDescToEnd v - DescriptorSize); HasEntriesToRemove := false |}.

Fixpoint shrink_loop (fuel : nat) (DescriptorSize : Z) (v : Shrink) : option Shrink :=
  match fuel with
  | O => None
  | S fuel =>
      if 0 <? SizeFromDescToEnd v then v ← shrink_step DescriptorSize v; shrink_loop fuel DescriptorSize v
      else Some v
  end.

(** The new array and the new [*MemoryMapSize]. *)
Definition ShrinkMemMap (MemoryMap : list EFI_MEMORY_DESCRIPTOR) (MemoryMapSize DescriptorSize : Z)
    : option (list EFI_MEMORY_DESCRIPTOR * Z) :=
  v ← shrink_loop (S (length MemoryMap)) DescriptorSize
        {| Map := MemoryMap; MapSize := DescriptorSize; Prev := 0; Desc := 1;
           SizeFromDescToEnd := wrap64 (MemoryMapSize - DescriptorSize); HasEntriesToRemove := false |};
  Some (Map v, MapSize v).

(** The descriptors of a map of [size] bytes. *)
Definition descriptors (MemoryMap : list EFI_MEMORY_DESCRIPTOR) (size DescriptorSize : Z) : list EFI_MEMORY_DESCRIPTOR :=
  take (Z.to_nat (size / DescriptorSize)) MemoryMap.

(** ** ProtectCsmRegion *)

Definition is_csm (D : EFI_MEMORY_DESCRIPTOR) : bool :=
  let PhysicalEnd := wrap64 (PhysicalStart D + EFI_PAGES_TO_SIZE (NumberOfPages D)) in
  (0x9E000 <=? PhysicalEnd) && (PhysicalEnd <? 0xA0000) && (Type_ D =? BootServicesData).

Definition set_type (t : Z) (D : EFI_MEMORY_DESCRIPTOR) : EFI_MEMORY_DESCRIPTOR := {|
  Type_ := t; PhysicalStart := PhysicalStart D; VirtualStart := VirtualStart D;
  NumberOfPages := NumberOfPages D; Attribute := Attribute D |}.

Fixpoint ProtectCsmRegion (MemoryMap : list EFI_MEMORY_DESCRIPTOR) : list EFI_MEMORY_DESCRIPTOR :=
  match MemoryMap with
  | [] => []
  | D :: l => if is_csm D then set_type ACPIMemoryNVS D :: l else D :: ProtectCsmRegion l
  end.

(** ** The result of shrinking, on lists *)

Fixpoint shrink_from (p : EFI_MEMORY_DESCRIPTOR) (l : list EFI_MEMORY_DESCRIPTOR) : list EFI_MEMORY_DESCRIPTOR :=
  match l with
  | [] => [p]
  | d :: l => if CanBeJoined p d then shrink_from (join p d) l else p :: shrink_from d l
  end.

Definition shrink (l : list EFI_MEMORY_DESCRIPTOR) : list EFI_MEMORY_DESCRIPTOR :=
  match l with [] => [] | p :: l => shrink_from p l end.

Lemma length_shrink_from p l : (1 ≤ length (shrink_from p l) ≤ S (length l))%nat.
Proof.
  revert p. induction l as [|d l IH]; intros p; simpl; [lia|].
  destruct (CanBeJoined p d); [pose proof (IH (join p d)); lia|]. simpl. pose proof (IH d). lia.
Qed.

Lemma length_copy_descs to from n m : length (copy_descs to from n m) = length m.
Proof. apply length_inserts. Qed.

Lemma inserts_split {A} (a b rest : list A) : (length b ≤ length rest)%nat →
  list_inserts (length a) b (a ++ rest) = a ++ b ++ drop (length b) rest.
Proof.
  intros Hl. rewrite <- (Nat.add_0_r (length a)), list_inserts_app_r. f_equal.
  rewrite <- (take_drop (length b) rest) at 1. apply list_inserts_0_r. rewrite length_take. lia.
Qed.

Section Shrink.
Context (ds : Z) (Hds : 0 < ds).

(** [done ++ [p]] is the result so far, [l] are the descriptors still to come. *)
Record shrink_inv (v : Shrink) (done : list EFI_MEMORY_DESCRIPTOR) (p : EFI_MEMORY_DESCRIPTOR)
    (l : list EFI_MEMORY_DESCRIPTOR) : Prop := {
  si_prev : take (S (Prev v)) (Map v) = done ++ [p];
  si_len : length done = Prev v;
  si_desc : take (length l) (drop (Desc v) (Map v)) = l;
  si_room : (Desc v + length l ≤ length (Map v))%nat;
  si_left : SizeFromDescToEnd v = Z.of_nat (length l) * ds;
  si_size : MapSize v = Z.of_nat (S (Prev v)) * ds;
  si_order : (S (Prev v) ≤ Desc v)%nat;
  si_gap : HasEntriesToRemove v = false → Desc v = S (Prev v);
  si_wrap : Z.of_nat (length (Map v)) * ds < 2 ^ 64
}.

Lemma step_ok v done p d l : shrink_inv v done p (d :: l) →
  ∃ v', shrink_step ds v = Some v' ∧ length (Map v') = length (Map v) ∧
    if CanBeJoined p d then shrink_inv v' done (join p d) l else shrink_inv v' (done ++ [p]) d l.
Proof.
  intros [Hp Hn Hd Hr Hl Hs Ho Hg Hw]. simpl in Hr, Hl, Hd.
  assert (Map v !! Prev v = Some p) as Ep.
  { rewrite <- (lookup_take_lt (Map v) (S (Prev v))) by lia. rewrite Hp, <- Hn. apply list_lookup_middle. done. }
  assert (Map v !! Desc v = Some d) as Ed.
  { assert (drop (Desc v) (Map v) !! 0%nat = Some d) as E0.
    { rewrite <- (lookup_take_lt _ (S (length l))) by lia. by rewrite Hd. }
    by rewrite lookup_drop, Nat.add_0_r in E0. }
  assert (take (length l) (drop (S (Desc v)) (Map v)) = l) as Hd'.
  { destruct (drop (Desc v) (Map v)) as [|x r] eqn:Er; [done|]. simpl in Hd. injection Hd as -> Hd.
    rewrite <- Nat.add_1_r, <- drop_drop, Er. done. }
  assert (wrap64 (SizeFromDescToEnd v - ds) = Z.of_nat (length l) * ds) as Hleft.
  { rewrite Hl. replace (Z.of_nat (S (length l)) * ds - ds) with (Z.of_nat (length l) * ds) by lia.
    apply wrap64_small. nia. }
  assert (wrap64 (MapSize v + ds) = Z.of_nat (S (S (Prev v))) * ds) as Hsize.
  { rewrite Hs. replace (Z.of_nat (S (Prev v)) * ds + ds) with (Z.of_nat (S (S (Prev v))) * ds) by lia.
    apply wrap64_small. nia. }
  unfold shrink_step. rewrite Ep, Ed. cbn [mbind option_bind]. rewrite Hleft, Hsize.
  destruct (CanBeJoined p d).
  { eexists. split; [reflexivity|]. split; [apply length_insert|]. split; cbn [Map MapSize Prev Desc SizeFromDescToEnd HasEntriesToRemove]; try done; try lia.
    - rewrite take_insert_lt, Hp, <- Hn by lia. rewrite insert_app_r_alt, Nat.sub_diag by done. done.
    - by rewrite drop_insert_lt by lia.
    - rewrite length_insert. lia.
    - rewrite length_insert. lia. }
  destruct (HasEntriesToRemove v) eqn:Eh.
  - assert (Z.to_nat (SizeFromDescToEnd v / ds) = S (length l)) as ->.
    { rewrite Hl, Z.div_mul by lia. lia. }
    assert (copy_descs (S (Prev v)) (Desc v) (S (length l)) (Map v) =
      (done ++ [p]) ++ (d :: l) ++ drop (S (length l)) (drop (S (Prev v)) (Map v))) as Ec.
    { unfold copy_descs. rewrite Hd. rewrite <- (take_drop (S (Prev v)) (Map v)) at 1. rewrite Hp.
      replace (S (Prev v)) with (length (done ++ [p])) at 1 by (rewrite length_app; simpl; lia).
      apply (inserts_split (done ++ [p]) (d :: l)). rewrite length_drop. simpl. lia. }
    eexists. split; [reflexivity|]. split; [apply length_copy_descs|].
    assert (S (Prev v) = length (done ++ [p])) as Hlen by (rewrite length_app; simpl; lia).
    split; cbn [Map MapSize Prev Desc SizeFromDescToEnd HasEntriesToRemove]; rewrite ?length_copy_descs; try done; try lia.
    + rewrite Ec, Hlen. cbn [app]. rewrite (cons_middle d), (app_assoc (done ++ [p]) [d]).
      replace (S (length (done ++ [p]))) with (length ((done ++ [p]) ++ [d])) by (rewrite (length_app (done ++ [p])); simpl; lia).
      apply take_app_length.
    + rewrite Ec, Hlen. cbn [app]. rewrite (cons_middle d), (app_assoc (done ++ [p]) [d]).
      replace (S (length (done ++ [p]))) with (length ((done ++ [p]) ++ [d])) by (rewrite (length_app (done ++ [p])); simpl; lia).
      rewrite drop_app_length. apply take_app_length.
  - specialize (Hg eq_refl). eexists. split; [reflexivity|]. split; [done|]. split; cbn [Map MapSize Prev Desc SizeFromDescToEnd HasEntriesToRemove]; try done; try lia.
    + rewrite (take_S_r _ _ d) by (by rewrite <- Hg). by rewrite Hp.
    + rewrite length_app. simpl. lia.
Qed.

Lemma loop_ok l : ∀ fuel v done p, shrink_inv v done p l → (length l < fuel)%nat →
  ∃ v', shrink_loop fuel ds v = Some v' ∧ length (Map v') = length (Map v) ∧
    MapSize v' = Z.of_nat (length (done ++ shrink_from p l)) * ds ∧
    take (length (done ++ shrink_from p l)) (Map v') = done ++ shrink_from p l.
Proof.
  induction l as [|d l IH]; intros [|fuel] v done p Hv Hf; try (simpl in Hf; lia); cbn [shrink_loop].
  - pose proof (si_left _ _ _ _ Hv) as Hl. simpl in Hl. rewrite Hl. exists v. cbn [shrink_from].
    pose proof (si_len _ _ _ _ Hv) as Hn. assert (length (done ++ [p]) = S (Prev v)) as -> by (rewrite length_app; simpl; lia).
    split; [done|]. split; [done|]. split; [apply Hv|apply Hv].
  - pose proof (si_left _ _ _ _ Hv) as Hl. simpl in Hl. destruct (Z.ltb_spec 0 (SizeFromDescToEnd v)); [|nia].
    destruct (step_ok _ _ _ _ _ Hv) as (v1 & E1 & L1 & H1). rewrite E1. cbn [mbind option_bind shrink_from].
    destruct (CanBeJoined p d).
    + destruct (IH fuel v1 done (join p d) H1 ltac:(simpl in Hf; lia)) as (v2 & E2 & L2 & H2). exists v2. by rewrite E2, L2, L1.
    + destruct (IH fuel v1 (done ++ [p]) d H1 ltac:(simpl in Hf; lia)) as (v2 & E2 & L2 & H2 & H3).
      exists v2. rewrite E2, L2, L1. rewrite <- app_assoc in H2, H3. done.
Qed.
End Shrink.

(** The in-place loop computes [shrink]. *)
Lemma ShrinkMemMap_ok MemoryMap ds : 0 < ds → MemoryMap ≠ [] → Z.of_nat (length MemoryMap) * ds < 2 ^ 64 →
  ∃ MemoryMap', ShrinkMemMap MemoryMap (Z.of_nat (length MemoryMap) * ds) ds =
      Some (MemoryMap', Z.of_nat (length (shrink MemoryMap)) * ds) ∧
    length MemoryMap' = length MemoryMap ∧ take (length (shrink MemoryMap)) MemoryMap' = shrink MemoryMap.
Proof.
  intros Hds Hne Hw. destruct MemoryMap as [|p l]; [done|]. unfold ShrinkMemMap.
  set (v0 := {| Map := p :: l; MapSize := ds; Prev := 0; Desc := 1;
    SizeFromDescToEnd := wrap64 (Z.of_nat (length (p :: l)) * ds - ds); HasEntriesToRemove := false |}).
  assert (shrink_inv ds v0 [] p l) as H0.
  { split; cbn [Map MapSize Prev Desc SizeFromDescToEnd HasEntriesToRemove v0]; try done; try lia.
    - simpl. apply firstn_all.
    - replace (Z.of_nat (length (p :: l)) * ds - ds) with (Z.of_nat (length l) * ds) by (simpl; lia).
      apply wrap64_small. simpl in Hw. nia. }
  destruct (loop_ok ds Hds l (S (length (p :: l))) v0 [] p H0 ltac:(simpl; lia)) as (v & E & L & H1 & H2).
  rewrite E. exists (Map v). cbn [mbind option_bind]. rewrite H1. done.
Qed.

(** ** What shrinking preserves *)

(** A descriptor of memory below 2^64. *)
Record desc_ok (D : EFI_MEMORY_DESCRIPTOR) : Prop := {
  dok_start : 0 ≤ PhysicalStart D; dok_pages : 0 ≤ NumberOfPages D;
  dok_end : PhysicalStart D + NumberOfPages D * 4096 < 2 ^ 64
}.

Definition end_of (D : EFI_MEMORY_DESCRIPTOR) : Z := PhysicalStart D + NumberOfPages D * 4096.

(** Address [a] is in [D]. *)
Definition contains (a : Z) (D : EFI_MEMORY_DESCRIPTOR) : bool := (PhysicalStart D <=? a) && (a <? end_of D).

(** What the kernel sees of a descriptor: its type, the joined ones being
    conventional memory, and its attributes. *)
Definition kernel_view (D : EFI_MEMORY_DESCRIPTOR) : Z * Z :=
  (if joinable_type (Type_ D) then ConventionalMemory else Type_ D, Attribute D).

(** The descriptors of address [a], as the kernel sees them. *)
Definition memory_at (a : Z) (l : list EFI_MEMORY_DESCRIPTOR) : list (Z * Z) :=
  kernel_view <$> filter (λ D, contains a D = true) l.

(** The descriptors that the kernel keeps as they are. *)
Definition kept (l : list EFI_MEMORY_DESCRIPTOR) : list EFI_MEMORY_DESCRIPTOR :=
  filter (λ D, joinable_type (Type_ D) = false) l.

Lemma pages_to_size D : desc_ok D → EFI_PAGES_TO_SIZE (NumberOfPages D) = NumberOfPages D * 4096.
Proof.
  intros [H1 H2 H3]. unfold EFI_PAGES_TO_SIZE. rewrite Z.shiftl_mul_pow2 by lia. change (2 ^ 12) with 4096.
  apply wrap64_small. lia.
Qed.

Lemma join_spec p d : desc_ok p → desc_ok d → CanBeJoined p d = true →
  desc_ok (join p d) ∧ end_of p = PhysicalStart d ∧ end_of (join p d) = end_of d ∧ PhysicalStart (join p d) = PhysicalStart p ∧
  kernel_view p = kernel_view (join p d) ∧ kernel_view d = kernel_view (join p d) ∧
  joinable_type (Type_ p) = true ∧ joinable_type (Type_ d) = true ∧
  NumberOfPages (join p d) = NumberOfPages p + NumberOfPages d.
Proof.
  intros Hp Hd Hj. unfold CanBeJoined in Hj. zbool. pose proof Hp as [P1 P2 P3]. pose proof Hd as [D1 D2 D3].
  rewrite pages_to_size in * by done. rewrite wrap64_small in * by lia.
  assert (NumberOfPages (join p d) = NumberOfPages p + NumberOfPages d) as Hn.
  { simpl. apply wrap64_small. lia. }
  assert (PhysicalStart (join p d) = PhysicalStart p) as Hs by done.
  split; [split; rewrite ?Hs, ?Hn; lia|]. unfold end_of. rewrite Hs, Hn. split; [lia|]. split; [lia|]. split; [done|].
  unfold kernel_view. rewrite H0, H1. change (joinable_type (Type_ (join p d))) with true.
  split; [done|]. split; [|done]. simpl Attribute. congruence.
Qed.

Lemma shrink_from_ok p l : desc_ok p → Forall desc_ok l → Forall desc_ok (shrink_from p l).
Proof.
  intros Hp Hl. revert p Hp. induction Hl as [|d l Hd Hl IH]; intros p Hp; simpl; [by constructor|].
  destruct (CanBeJoined p d) eqn:E; [|by constructor; auto]. apply IH. by apply join_spec.
Qed.

Lemma memory_at_join a p d l : desc_ok p → desc_ok d → CanBeJoined p d = true →
  memory_at a (p :: d :: l) = memory_at a (join p d :: l).
Proof.
  intros Hp Hd Hj. destruct (join_spec p d Hp Hd Hj) as (_ & E1 & E2 & E3 & V1 & V2 & _).
  pose proof Hp as [P1 P2 P3]. pose proof Hd as [D1 D2 D3]. 
  assert (contains a (join p d) = contains a p || contains a d ∧ (contains a p && contains a d = false)) as [Ej Ed].
  { unfold contains. rewrite E2, E3. unfold end_of in *.
    destruct (Z.leb_spec (PhysicalStart p) a), (Z.ltb_spec a (PhysicalStart p + NumberOfPages p * 4096)),
      (Z.leb_spec (PhysicalStart d) a), (Z.ltb_spec a (PhysicalStart d + NumberOfPages d * 4096)); simpl; done || lia. }
  unfold memory_at. rewrite !filter_cons, Ej.
  destruct (contains a p), (contains a d); try done; simpl; rewrite ?fmap_cons; congruence.
Qed.

Lemma shrink_memory_at a p l : desc_ok p → Forall desc_ok l → memory_at a (shrink_from p l) = memory_at a (p :: l).
Proof.
  intros Hp Hl. revert p Hp. induction Hl as [|d l Hd Hl IH]; intros p Hp; cbn [shrink_from]; [done|].
  destruct (CanBeJoined p d) eqn:E.
  - rewrite memory_at_join by done. apply IH. by apply join_spec.
  - unfold memory_at in *. rewrite (filter_cons _ p), (filter_cons _ p). case_match; [|by apply IH].
    rewrite !fmap_cons. f_equal. by apply IH.
Qed.

Lemma shrink_kept p l : desc_ok p → Forall desc_ok l → kept (shrink_from p l) = kept (p :: l).
Proof.
  intros Hp Hl. revert p Hp. induction Hl as [|d l Hd Hl IH]; intros p Hp; cbn [shrink_from]; [done|].
  destruct (CanBeJoined p d) eqn:E.
  - destruct (join_spec p d Hp Hd E) as (Hj & _ & _ & _ & _ & _ & T1 & T2 & _). rewrite IH by done.
    unfold kept. rewrite !filter_cons. rewrite T1, T2. done.
  - unfold kept in *. rewrite (filter_cons _ p), (filter_cons _ p). case_match; [|by apply IH]. f_equal. by apply IH.
Qed.

(** ** The result cannot be shrunk further *)

Lemma shrink_head d l : ∃ h r, shrink_from d l = h :: r ∧ ∀ p, CanBeJoined p h = CanBeJoined p d.
Proof.
  revert d. induction l as [|x l IH]; intros d; simpl; [by exists d, []|].
  destruct (CanBeJoined d x) eqn:E; [|by eexists _, _].
  destruct (IH (join d x)) as (h & r & -> & Hh). exists h, r. split; [done|]. intros p. rewrite Hh.
  unfold CanBeJoined in *. zbool. simpl Attribute. simpl PhysicalStart. simpl Type_.
  change (joinable_type ConventionalMemory) with true. by rewrite H0.
Qed.

Lemma shrink_shrink p l : shrink (shrink_from p l) = shrink_from p l.
Proof.
  revert p. induction l as [|d l IH]; intros p; simpl; [done|].
  destruct (CanBeJoined p d) eqn:E; [done|]. simpl. specialize (IH d).
  destruct (shrink_head d l) as (h & r & Eh & Hh). rewrite Eh in *. simpl. by rewrite Hh, E, <- IH.
Qed.

(** ** AllocatePagesFromTop *)

(** The address the loop computes for a descriptor that has room. *)
Definition top_candidate (Pages Memory : Z) (D : EFI_MEMORY_DESCRIPTOR) : option Z :=
  if (Type_ D =? ConventionalMemory) && (Pages <=? NumberOfPages D)
     && (wrap64 (PhysicalStart D + EFI_PAGES_TO_SIZE Pages) <=? Memory) then
    Some (if wrap64 (PhysicalStart D + EFI_PAGES_TO_SIZE (NumberOfPages D)) <=? Memory
          then wrap64 (PhysicalStart D + EFI_PAGES_TO_SIZE (wrap64 (NumberOfPages D - Pages)))
          else wrap64 (Memory - EFI_PAGES_TO_SIZE Pages))
  else None.

Section Top.
(** [OverlapsWithSlide]: address and size. *)
Context (OverlapsWithSlide : Z → Z → bool) (CheckRange : bool) (Pages : Z).

(** The loop, on the descriptors from the last one down.  [*Memory] is overwritten
    by a candidate even if the candidate is refused. *)
Fixpoint top_search (Memory : Z) (rev_map : list EFI_MEMORY_DESCRIPTOR) : option Z * Z :=
  match rev_map with
  | [] => (None, Memory)
  | D :: rest =>
      match top_candidate Pages Memory D with
      | None => top_search Memory rest
      | Some a =>
          if CheckRange && OverlapsWithSlide a (EFI_PAGES_TO_SIZE Pages) then top_search a rest
          else (Some a, a)
      end
  end.
End Top.

Lemma top_search_same overlaps check Pages Memory l a M :
  top_search overlaps check Pages Memory l = (Some a, M) → M = a.
Proof.
  revert Memory. induction l as [|D l IH]; intros Memory; cbn [top_search]; [done|].
  destruct (top_candidate Pages Memory D); [|apply IH]. destruct (_ && _); [apply IH|]. by intros [= -> ->].
Qed.

Section TopOk.
Context (Pages : Z) (HPages : 0 ≤ Pages < 2 ^ 51).

Lemma pages_size : EFI_PAGES_TO_SIZE Pages = Pages * 4096.
Proof.
  unfold EFI_PAGES_TO_SIZE. rewrite Z.shiftl_mul_pow2 by lia. change (2 ^ 12) with 4096.
  apply wrap64_small. lia.
Qed.

(** A candidate lies in its descriptor and below the limit; it exists when there is
    room below the limit. *)
Lemma top_candidate_ok Memory D : desc_ok D → 0 ≤ Memory < 2 ^ 64 →
  match top_candidate Pages Memory D with
  | Some a => Type_ D = ConventionalMemory ∧ PhysicalStart D ≤ a ∧ a + Pages * 4096 ≤ end_of D ∧ a + Pages * 4096 ≤ Memory
  | None => Type_ D ≠ ConventionalMemory ∨ NumberOfPages D < Pages ∨ Memory < PhysicalStart D + Pages * 4096
  end.
Proof.
  intros HD HM. pose proof HD as [D1 D2 D3]. unfold top_candidate, end_of. rewrite (pages_to_size D HD), pages_size.
  destruct (Z.eqb_spec (Type_ D) ConventionalMemory) as [Ht|]; [|by left]. cbn [andb].
  destruct (Z.leb_spec Pages (NumberOfPages D)) as [Hp|]; [|by right; left]. cbn [andb].
  rewrite wrap64_small by lia.
  destruct (Z.leb_spec (PhysicalStart D + Pages * 4096) Memory); [|right; right; lia].
  split; [done|]. rewrite (wrap64_small (PhysicalStart D + NumberOfPages D * 4096)) by lia.
  destruct (Z.leb_spec (PhysicalStart D + NumberOfPages D * 4096) Memory).
  - assert (EFI_PAGES_TO_SIZE (wrap64 (NumberOfPages D - Pages)) = (NumberOfPages D - Pages) * 4096) as ->.
    { rewrite wrap64_small by lia. unfold EFI_PAGES_TO_SIZE. rewrite Z.shiftl_mul_pow2 by lia. change (2 ^ 12) with 4096.
      apply wrap64_small. lia. }
    rewrite wrap64_small by lia. lia.
  - rewrite wrap64_small by lia. lia.
Qed.

Lemma top_search_sound overlaps check Memory l a M' : Forall desc_ok l → 0 ≤ Memory < 2 ^ 64 →
  top_search overlaps check Pages Memory l = (Some a, M') →
  M' = a ∧ (check && overlaps a (Pages * 4096) = false) ∧ a + Pages * 4096 ≤ Memory ∧
  ∃ D, D ∈ l ∧ Type_ D = ConventionalMemory ∧ PhysicalStart D ≤ a ∧ a + Pages * 4096 ≤ end_of D.
Proof.
  intros Hl. revert Memory. induction Hl as [|D l HD Hl IH]; intros Memory HM; cbn [top_search]; [done|].
  pose proof (top_candidate_ok Memory D HD HM) as Hc. rewrite pages_size.
  destruct (top_candidate Pages Memory D) as [c|].
  - destruct Hc as (Ht & H1 & H2 & H3). pose proof (dok_start D HD).
    destruct (check && overlaps c (Pages * 4096)) eqn:E.
    + intros (-> & H4 & H5 & D' & H6 & H7)%IH; [|lia]. split; [done|]. split; [done|]. split; [lia|].
      exists D'. split; [by apply list_elem_of_further|done].
    + intros [= -> <-]. split; [done|]. split; [done|]. split; [done|]. exists D.
      split; [apply list_elem_of_here|done].
  - intros (-> & H4 & H5 & D' & H6 & H7)%IH; [|done]. split; [done|]. split; [done|]. split; [done|].
    exists D'. split; [by apply list_elem_of_further|done].
Qed.

(** Without the range check the search finds room if there is any. *)
Lemma top_search_complete overlaps Memory l : Forall desc_ok l → 0 ≤ Memory < 2 ^ 64 →
  (∃ D, D ∈ l ∧ Type_ D = ConventionalMemory ∧ Pages ≤ NumberOfPages D ∧ PhysicalStart D + Pages * 4096 ≤ Memory) →
  ∃ a, top_search overlaps false Pages Memory l = (Some a, a).
Proof.
  intros Hl HM (D & HD & Ht & Hp & Hr). induction Hl as [|E l HE Hl IH]; [by apply not_elem_of_nil in HD|].
  cbn [top_search]. pose proof (top_candidate_ok Memory E HE HM) as Hc.
  destruct (top_candidate Pages Memory E) as [c|]; [by eexists|].
  apply elem_of_cons in HD as [->|HD]; [lia|]. by apply IH.
Qed.
End TopOk.

