(* ===== verification/MemoryAlloc.v ===== *)
(** * AptioMemoryFix: memory from the firmware (MemoryMap.c, ServiceOverrides.c)

    The boot services that the code calls are operations on a firmware state; what
    the UEFI specification says about them is a second class.  Modelled here are the
    two routines that get the memory map and allocate pages below an address, and
    the helper that retries ExitBootServices. *)

From Stdlib Require Import ZArith Lia.
From stdpp Require Import base list list_numbers gmap.
From S2P Require Import Prelude MemoryMap.

Open Scope Z_scope.

(** ** The firmware *)

(** Allocating pages at an address and freeing them is one pair, allocating and
    freeing pool memory the other. *)
Class Firmware (F : Type) := {
  (** the size of the buffer; the status, the size needed or used, the map's key
      and the map *)
  OrgGetMemoryMap : Z → F → EFI_STATUS * Z * Z * list EFI_MEMORY_DESCRIPTOR;
  AllocatePool : Z → F → option Z * F;
  FreePool : Z → F → F;
  AllocateAddress : Z → Z → F → EFI_STATUS * F;
  FreePages : Z → Z → F → F;
  (** the key of the map *)
  ExitBootServices : Z → F → EFI_STATUS * F;
  (** the variable aptiomemfix-exitbs *)
  ReportExitFailure : F → F
}.

(** What the specification of the services says: [pool] are the addresses of the
    pool buffers, [pages] the page ranges in use, [map_of] is the memory map and
    [map_key] its key. *)
Class FirmwareLaws (F : Type) `{Firmware F} := {
  pool : F → gset Z;
  pages : F → gset (Z * Z);
  map_of : F → list EFI_MEMORY_DESCRIPTOR;
  map_key : F → Z;
  DescriptorSize : Z;
  DescriptorSize_ok : 40 ≤ DescriptorSize;
  map_of_ok f : map_of f ≠ [] ∧ Forall desc_ok (map_of f) ∧ Z.of_nat (length (map_of f)) * DescriptorSize < 2 ^ 48;
  OrgGetMemoryMap_small n f : n < Z.of_nat (length (map_of f)) * DescriptorSize →
    ∃ k l, OrgGetMemoryMap n f = (EFI_BUFFER_TOO_SMALL, Z.of_nat (length (map_of f)) * DescriptorSize, k, l);
  OrgGetMemoryMap_fits n f : Z.of_nat (length (map_of f)) * DescriptorSize ≤ n →
    OrgGetMemoryMap n f = (EFI_SUCCESS, Z.of_nat (length (map_of f)) * DescriptorSize, map_key f, map_of f);
  AllocatePool_some n f p f' : AllocatePool n f = (Some p, f') →
    p ∉ pool f ∧ pool f' = {[p]} ∪ pool f ∧ pages f' = pages f;
  AllocatePool_none n f f' : AllocatePool n f = (None, f') → pool f' = pool f ∧ pages f' = pages f;
  FreePool_spec p f : pool (FreePool p f) = pool f ∖ {[p]} ∧ pages (FreePool p f) = pages f;
  AllocateAddress_spec a n f e f' : AllocateAddress a n f = (e, f') →
    pool f' = pool f ∧
    (if EFI_ERROR e then pages f' = pages f else (a, n) ∉ pages f ∧ pages f' = {[(a, n)]} ∪ pages f);
  FreePages_spec a n f : pool (FreePages a n f) = pool f ∧ pages (FreePages a n f) = pages f ∖ {[(a, n)]}
}.

Definition map_bytes {F} `{FirmwareLaws F} (f : F) : Z := Z.of_nat (length (map_of f)) * DescriptorSize.

Definition BASE_4GB : Z := 0x100000000.

(** The result of [GetMemoryMapAlloc]: the status, the size of the buffer and of the
    map in it, the buffer ([None] for NULL), the key and the descriptors. *)
Record MapResult := {
  mr_status : EFI_STATUS; mr_asked : Z; mr_size : Z; mr_buffer : option Z; mr_key : Z; mr_map : list EFI_MEMORY_DESCRIPTOR
}.

(** No map; [key] is what the out parameter holds. *)
Definition no_map (e : EFI_STATUS) (size key : Z) : MapResult :=
  {| mr_status := e; mr_asked := size; mr_size := size; mr_buffer := None; mr_key := key; mr_map := [] |}.
Section Services.
Context {F : Type} `{Firmware F}.

Section Alloc.
(** Getting the buffer, a status on failure, and giving it back. *)
Context (get : Z → F → option ((EFI_STATUS + Z) * F)) (put : Z → Z → F → F).

(** The [do] loop; [key] is what the out parameter for the key holds. *)
Fixpoint map_loop (fuel : nat) (size key : Z) (f : F) : option (MapResult * F) :=
  match fuel with
  | O => None
  | S fuel =>
      let size := wrap64 (size + 512) in
      r ← get size f;
      match r with
      | (inl e, f) => Some (no_map e size key, f)
      | (inr p, f) =>
          let '(e, size', key, m) := OrgGetMemoryMap size f in
          if EFI_ERROR e then
            if bool_decide (e = EFI_BUFFER_TOO_SMALL) then map_loop fuel size' key (put p size f)
            else Some (no_map e size' key, put p size f)
          else Some ({| mr_status := e; mr_asked := size; mr_size := size'; mr_buffer := Some p; mr_key := key; mr_map := m |}, f)
      end
  end.

Definition GetMemoryMapAlloc (fuel : nat) (f : F) : option (MapResult * F) :=
  let '(e, size, key, _) := OrgGetMemoryMap 0 f in
  if bool_decide (e = EFI_BUFFER_TOO_SMALL) then map_loop fuel size key f
  else Some (no_map e size key, f).
End Alloc.

(** With [AllocatedTopPages == NULL] the buffer is pool memory. *)
Definition get_pool (size : Z) (f : F) : option ((EFI_STATUS + Z) * F) :=
  match AllocatePool size f with
  | (Some p, f) => Some (inr p, f)
  | (None, f) => Some (inl EFI_OUT_OF_RESOURCES, f)
  end.

Definition put_pool (p size : Z) (f : F) : F := FreePool p f.

(** The status and [*Memory].  A successful result without a buffer would be
    dereferenced. *)
Definition AllocatePagesFromTop (overlaps : Z → Z → bool) (CheckRange : bool) (fuel : nat) (Pages Memory : Z) (f : F)
    : option (EFI_STATUS * Z * F) :=
  r ← GetMemoryMapAlloc get_pool put_pool fuel f;
  let '(r, f) := r in
  if EFI_ERROR (mr_status r) then Some (mr_status r, Memory, f) else
  b ← mr_buffer r;
  match top_search overlaps CheckRange Pages Memory (reverse (mr_map r)) with
  | (None, Memory) => Some (EFI_NOT_FOUND, Memory, FreePool b f)
  | (Some a, Memory) => let '(e, f) := AllocateAddress a Pages f in Some (e, Memory, FreePool b f)
  end.

(** With [AllocatedTopPages] the buffer is made of pages below 4 GB. *)
Definition get_top (fuel : nat) (size : Z) (f : F) : option ((EFI_STATUS + Z) * F) :=
  r ← AllocatePagesFromTop (λ _ _, false) false fuel (EFI_SIZE_TO_PAGES size) BASE_4GB f;
  let '(e, Memory, f) := r in
  Some (if EFI_ERROR e then (inl e, f) else (inr Memory, f)).

Definition put_top (p size : Z) (f : F) : F := FreePages p (EFI_SIZE_TO_PAGES size) f.

(** The first attempt uses the caller's key; a failure is reported in a variable,
    and the second attempt uses the key of a new map.  The map is not freed. *)
Definition ForceExitBootServices (fuel : nat) (MapKey : Z) (f : F) : option (EFI_STATUS * F) :=
  let '(Status, f) := ExitBootServices MapKey f in
  if EFI_ERROR Status then
    r ← GetMemoryMapAlloc get_pool put_pool fuel (ReportExitFailure f);
    let '(r, f) := r in
    Some (if bool_decide (mr_status r = EFI_SUCCESS) then ExitBootServices (mr_key r) f
          else (EFI_INVALID_PARAMETER, f))
  else Some (Status, f).

(** ** No allocation is lost *)

Context `{!FirmwareLaws F}.

(** The map is returned in a new pool buffer, or nothing is left allocated. *)
Definition pool_result (f : F) (r : MapResult) (f' : F) : Prop :=
  pages f' = pages f ∧
  match mr_buffer r with
  | Some p => EFI_ERROR (mr_status r) = false ∧ p ∉ pool f ∧ pool f' = {[p]} ∪ pool f
  | None => pool f' = pool f
  end.

Lemma pool_loop fuel : ∀ size key f r f', map_loop get_pool put_pool fuel size key f = Some (r, f') → pool_result f r f'.
Proof.
  induction fuel as [|fuel IH]; intros size key f r f'; simpl; [done|]. unfold get_pool.
  destruct (AllocatePool (wrap64 (size + 512)) f) as [[p|] f1] eqn:Ea; simpl.
  - destruct (AllocatePool_some _ _ _ _ Ea) as (Hp & H1 & H2).
    destruct (FreePool_spec p f1) as [H3 H4].
    assert (pool (FreePool p f1) = pool f) as Hback by (rewrite H3, H1; set_solver).
    destruct (OrgGetMemoryMap _ f1) as [[[e size'] key'] m]. destruct (EFI_ERROR e) eqn:Ee.
    + case_bool_decide.
      * intros (Hg & Hr)%IH. unfold put_pool in *. split; [congruence|]. destruct (mr_buffer r); rewrite Hback in Hr; done.
      * intros [= <- <-]. unfold put_pool. split; [congruence|]. done.
    + intros [= <- <-]. split; [done|]. done.
  - destruct (AllocatePool_none _ _ _ Ea) as [H1 H2]. by intros [= <- <-].
Qed.

Lemma pool_alloc fuel f r f' : GetMemoryMapAlloc get_pool put_pool fuel f = Some (r, f') → pool_result f r f'.
Proof.
  unfold GetMemoryMapAlloc. destruct (OrgGetMemoryMap 0 f) as [[[e size] key] m].
  case_bool_decide; [apply pool_loop|by intros [= <- <-]].
Qed.

Lemma pool_success_buffer fuel f r f' : GetMemoryMapAlloc get_pool put_pool fuel f = Some (r, f') →
  mr_status r = EFI_SUCCESS → mr_buffer r ≠ None.
Proof.
  assert (∀ fuel size key f, map_loop get_pool put_pool fuel size key f = Some (r, f') →
    mr_status r = EFI_SUCCESS → mr_buffer r ≠ None) as Hl.
  { clear fuel f. induction fuel as [|fuel IH]; intros size key f; cbn [map_loop]; [done|]. unfold get_pool.
    destruct (AllocatePool _ f) as [[p|] f1]; cbn [mbind option_bind].
    - destruct (OrgGetMemoryMap _ f1) as [[[e size'] key'] m]. destruct (EFI_ERROR e) eqn:Ee; [|by intros [= <- <-]].
      case_bool_decide; [apply IH|]. intros [= <- <-] Hs. simpl in Hs. by subst e.
    - by intros [= <- <-]. }
  unfold GetMemoryMapAlloc. pose proof (map_of_ok f) as (Hne & _). pose proof DescriptorSize_ok.
  destruct (OrgGetMemoryMap_small 0 f) as (k & l & ->); [destruct (map_of f); [done|simpl length; lia]|].
  rewrite bool_decide_true by done. apply Hl.
Qed.

(** The search, seen from outside. *)
Lemma from_top overlaps check fuel Pages Memory f e M f' :
  AllocatePagesFromTop overlaps check fuel Pages Memory f = Some (e, M, f') →
  pool f' = pool f ∧
  (if EFI_ERROR e then pages f' = pages f else
     ∃ r f1, GetMemoryMapAlloc get_pool put_pool fuel f = Some (r, f1) ∧
       top_search overlaps check Pages Memory (reverse (mr_map r)) = (Some M, M) ∧
       (M, Pages) ∉ pages f ∧ pages f' = {[(M, Pages)]} ∪ pages f).
Proof.
  unfold AllocatePagesFromTop. destruct (GetMemoryMapAlloc _ _ _ _) as [[r f1]|] eqn:Eg; [|done]. simpl.
  destruct (pool_alloc _ _ _ _ Eg) as [Hg Hp]. destruct (EFI_ERROR (mr_status r)) eqn:Er.
  { intros [= <- <- <-]. rewrite Er. destruct (mr_buffer r); [destruct Hp; congruence|]. done. }
  destruct (mr_buffer r) as [b|]; [|done]. simpl. destruct Hp as (_ & Hb & Hp).
  assert (∀ g, pool g = pool f1 → pool (FreePool b g) = pool f) as Hfree.
  { intros g Hgp. rewrite (proj1 (FreePool_spec b g)), Hgp, Hp. set_solver. }
  destruct (top_search _ _ _ _ _) as [[a|] M'] eqn:Es.
  - destruct (AllocateAddress a Pages f1) as [e' f2] eqn:Ea. intros [= <- <- <-].
    destruct (AllocateAddress_spec _ _ _ _ _ Ea) as [H1 H2]. split; [by apply Hfree|].
    rewrite (proj2 (FreePool_spec b f2)). destruct (EFI_ERROR e').
    + congruence.
    + exists r, f1. assert (M' = a) as -> by (by eapply top_search_same).
      split; [done|]. split; [done|]. rewrite <- Hg. done.
  - intros [= <- <- <-]. simpl. split; [by apply Hfree|]. by rewrite (proj2 (FreePool_spec b f1)).
Qed.

(** ** The map that is returned *)

(** The firmware says how large the map is, or returns it. *)
Lemma map_cases n f :
  (n < map_bytes f ∧ ∃ k l, OrgGetMemoryMap n f = (EFI_BUFFER_TOO_SMALL, map_bytes f, k, l)) ∨
  (map_bytes f ≤ n ∧ OrgGetMemoryMap n f = (EFI_SUCCESS, map_bytes f, map_key f, map_of f)).
Proof.
  destruct (Z.lt_ge_cases n (map_bytes f)); [left|right]; (split; [done|]).
  - by apply OrgGetMemoryMap_small.
  - by apply OrgGetMemoryMap_fits.
Qed.

Lemma map_bytes_range f : 40 ≤ map_bytes f < 2 ^ 48.
Proof.
  destruct (map_of_ok f) as (Hne & _ & Hb). pose proof DescriptorSize_ok. unfold map_bytes in *.
  destruct (map_of f); [done|]. simpl length in *. lia.
Qed.

(** The map in the buffer is the current one, with its key. *)
Definition current (r : MapResult) (f : F) : Prop :=
  mr_status r = EFI_SUCCESS ∧ mr_size r = map_bytes f ∧ mr_key r = map_key f ∧ mr_map r = map_of f.

(** Only pool buffers are allocated and freed. *)
Definition pool_steps : relation F := rtc (λ f g, (∃ n, g = (AllocatePool n f).2) ∨ ∃ p, g = FreePool p f).

(** The last of these steps was an allocation that failed. *)
Definition no_memory (f g : F) : Prop := ∃ n h, pool_steps f h ∧ AllocatePool n h = (None, g).

Lemma steps_alloc n f a g : AllocatePool n f = (a, g) → pool_steps f g.
Proof. intros E. apply rtc_once. left. exists n. by rewrite E. Qed.

Lemma steps_free p f : pool_steps f (FreePool p f).
Proof. apply rtc_once. right. by exists p. Qed.

(** What reading the map ends with. *)
Definition map_read (f : F) (r : MapResult) (f' : F) : Prop :=
  (current r f' ∧ pool_steps f f') ∨ (no_memory f f' ∧ mr_status r = EFI_OUT_OF_RESOURCES).

Lemma map_read_after f g r f' : pool_steps f g → map_read g r f' → map_read f r f'.
Proof.
  intros Hg [[Hc Hs]|[(n & h & Hh & E) Hr]]; [left; split; [done|by etrans]|].
  right. split; [|done]. exists n, h. split; [by etrans|done].
Qed.

(** Every retry asks for at least 513 bytes more, and the map is never larger than
    [512 * fuel] bytes: the loop ends. *)
Section Enough.
Context (fuel : nat) (enough : ∀ f : F, map_bytes f < 512 * Z.of_nat fuel).

Lemma pool_loop_returns n : ∀ size key f, (0 < n)%nat → 0 ≤ size < 2 ^ 48 → 512 * Z.of_nat fuel ≤ size + 512 * Z.of_nat n →
  ∃ r f', map_loop get_pool put_pool n size key f = Some (r, f') ∧ map_read f r f'.
Proof.
  induction n as [|n IH]; intros size key f Hn Hs Hf; [lia|]. cbn [map_loop]. rewrite wrap64_small by lia. unfold get_pool.
  destruct (AllocatePool (size + 512) f) as [[p|] f1] eqn:Ea; cbn [mbind option_bind].
  - pose proof (map_bytes_range f1). pose proof (enough f1). destruct (map_cases (size + 512) f1) as [[Hl (k & l & ->)]|[_ ->]]; cbn [EFI_ERROR].
    + rewrite bool_decide_true by done. destruct (IH (map_bytes f1) k (put_pool p (size + 512) f1)) as (r & f' & E & Hr); [lia..|].
      exists r, f'. split; [exact E|]. eapply map_read_after; [|exact Hr]. transitivity f1; [by eapply steps_alloc|apply steps_free].
    + eexists _, _. split; [reflexivity|]. left. split; [done|]. by eapply steps_alloc.
  - eexists _, _. split; [reflexivity|]. right. split; [|done]. by exists (size + 512), f.
Qed.

Lemma pool_alloc_returns f :
  ∃ r f', GetMemoryMapAlloc get_pool put_pool fuel f = Some (r, f') ∧ map_read f r f'.
Proof.
  unfold GetMemoryMapAlloc. pose proof (map_bytes_range f) as Hb. pose proof (enough f).
  destruct (map_cases 0 f) as [[_ (k & l & ->)]|[? _]]; [|lia].
  rewrite bool_decide_true by done. apply pool_loop_returns; lia.
Qed.

(** The three ways of [AllocatePagesFromTop]. *)
Lemma top_cases overlaps check Pages Memory f :
  ∃ r f1, GetMemoryMapAlloc get_pool put_pool fuel f = Some (r, f1) ∧
    ((mr_status r = EFI_OUT_OF_RESOURCES ∧
      AllocatePagesFromTop overlaps check fuel Pages Memory f = Some (EFI_OUT_OF_RESOURCES, Memory, f1)) ∨
     (mr_map r = map_of f1 ∧ ∃ b, AllocatePagesFromTop overlaps check fuel Pages Memory f =
        match top_search overlaps check Pages Memory (reverse (map_of f1)) with
        | (None, M) => Some (EFI_NOT_FOUND, M, FreePool b f1)
        | (Some a, M) => let '(e, f2) := AllocateAddress a Pages f1 in Some (e, M, FreePool b f2)
        end)).
Proof.
  destruct (pool_alloc_returns f) as (r & f1 & E & Hr). exists r, f1. split; [done|].
  unfold AllocatePagesFromTop. rewrite E. cbn [mbind option_bind].
  destruct Hr as [((Es & _ & _ & Hm) & _)|[_ Es]]; rewrite Es; cbn [EFI_ERROR]; [right|by left]. split; [done|].
  destruct (mr_buffer r) as [b|] eqn:Eb; [|by destruct (pool_success_buffer _ _ _ _ E Es)].
  exists b. cbn [mbind option_bind]. by rewrite Hm.
Qed.
End Enough.
End Services.
