(* ===== verification/MemoryServices.v ===== *)
(** * AptioMemoryFix: the overridden memory services (ServiceOverrides.c)

    [MOGetMemoryMap] returns the protected and shrunk map to boot.efi;
    [MOAllocatePages] watches where boot.efi puts the kernel.  The theorems about
    the memory map, the allocation of pages and ExitBootServices are here too. *)

From Stdlib Require Import ZArith Lia.
From stdpp Require Import base list list_numbers gmap.
From S2P Require Import Prelude MemoryMap MemoryAlloc.

Open Scope Z_scope.

(** ** Operations *)

(** The stored service has returned [Status] and a map of [MemoryMapSize] bytes in
    the buffer; [last] is gMemoryMapDescriptorSize.  The result is the buffer, its
    new size and gMemoryMapDescriptorSize. *)
Definition MOGetMemoryMap (gMacOSBootNestedCount : Z) (Status : EFI_STATUS) (MemoryMap : list EFI_MEMORY_DESCRIPTOR)
    (MemoryMapSize ds last : Z) : option (list EFI_MEMORY_DESCRIPTOR * Z * Z) :=
  if (0 <? gMacOSBootNestedCount) && bool_decide (Status = EFI_SUCCESS) then
    let n := Z.to_nat (MemoryMapSize / ds) in
    r ← ShrinkMemMap (ProtectCsmRegion (take n MemoryMap) ++ drop n MemoryMap) MemoryMapSize ds;
    Some (r, ds)
  else Some (MemoryMap, MemoryMapSize, last).

Inductive EFI_ALLOCATE_TYPE := AllocateAnyPages | AllocateMaxAddress | AllocateAtAddress.

#[global] Instance EFI_ALLOCATE_TYPE_eq_dec : EqDecision EFI_ALLOCATE_TYPE.
Proof. solve_decision. Defined.

Record Monitor := { mMinAllocatedAddr : Z; mMaxAllocatedAddr : Z; mHibernateImageAddress : Z }.

Section Pages.
Context {F : Type}.
(** The stored service: the status and [*Memory]. *)
Context (mStoredAllocatePages : EFI_ALLOCATE_TYPE → Z → Z → Z → F → EFI_STATUS * Z * F).
Context (gMacOSBootNestedCount : Z) (gHibernateWake : bool).

Definition MOAllocatePages (Type_ : EFI_ALLOCATE_TYPE) (MemoryType NumberOfPages Memory : Z) (m : Monitor) (f : F)
    : EFI_STATUS * Z * Monitor * F :=
  if (0 <? gMacOSBootNestedCount) && bool_decide (Type_ = AllocateAtAddress) && (MemoryType =? LoaderData) then
    let UpperAddr := wrap64 (Memory + EFI_PAGES_TO_SIZE NumberOfPages) in
    let m := {|
      mMinAllocatedAddr :=
        if (mMinAllocatedAddr m =? 0) || (Memory <? mMinAllocatedAddr m) then Memory else mMinAllocatedAddr m;
      mMaxAllocatedAddr := if mMaxAllocatedAddr m <? UpperAddr then UpperAddr else mMaxAllocatedAddr m;
      mHibernateImageAddress := mHibernateImageAddress m |} in
    let '(Status, Memory, f) := mStoredAllocatePages Type_ MemoryType NumberOfPages Memory f in
    (Status, Memory, m, f)
  else if (0 <? gMacOSBootNestedCount) && gHibernateWake && bool_decide (Type_ = AllocateAnyPages)
          && (MemoryType =? LoaderData) then
    let '(Status, Memory, f) := mStoredAllocatePages Type_ MemoryType NumberOfPages Memory f in
    let m := if (mHibernateImageAddress m =? 0) && bool_decide (Status = EFI_SUCCESS)
             then {| mMinAllocatedAddr := mMinAllocatedAddr m; mMaxAllocatedAddr := mMaxAllocatedAddr m;
                     mHibernateImageAddress := Memory |}
             else m in
    (Status, Memory, m, f)
  else
    let '(Status, Memory, f) := mStoredAllocatePages Type_ MemoryType NumberOfPages Memory f in
    (Status, Memory, m, f).

(** A request: type, memory type, pages and address. *)
Definition Request : Type := EFI_ALLOCATE_TYPE * Z * Z * Z.

(** The requests of boot.efi, one after the other. *)
Fixpoint requests (l : list Request) (m : Monitor) (f : F) : Monitor * F :=
  match l with
  | [] => (m, f)
  | (t, mt, n, a) :: l => let '(_, _, m, f) := MOAllocatePages t mt n a m f in requests l m f
  end.

(** Those that place parts of the kernel. *)
Definition placed (r : Request) : bool :=
  let '(t, mt, _, _) := r in bool_decide (t = AllocateAtAddress) && (mt =? LoaderData).

Definition request_ok (r : Request) : Prop := let '(_, _, n, a) := r in 0 < a ∧ 0 ≤ n ∧ a + n * 4096 < 2 ^ 64.

Definition low (r : Request) : Z := r.2.
Definition high (r : Request) : Z := r.2 + r.1.2 * 4096.

(** [m] covers the requests [l]: every one lies between the two addresses, and the
    two addresses are those of requests. *)
Definition covers (l : list Request) (m : Monitor) : Prop :=
  match filter (λ r, placed r = true) l with
  | [] => mMinAllocatedAddr m = 0 ∧ mMaxAllocatedAddr m = 0
  | rs => (∀ r, r ∈ rs → mMinAllocatedAddr m ≤ low r ∧ high r ≤ mMaxAllocatedAddr m) ∧
      (∃ r, r ∈ rs ∧ low r = mMinAllocatedAddr m) ∧ (∃ r, r ∈ rs ∧ high r = mMaxAllocatedAddr m)
  end.

Lemma request_step (Hn : 0 < gMacOSBootNestedCount) l m f t mt n a :
  Forall request_ok l → covers l m → request_ok (t, mt, n, a) →
  let '(_, _, m', _) := MOAllocatePages t mt n a m f in covers (l ++ [(t, mt, n, a)]) m'.
Proof.
  intros Hl Hc (Ha & Hn0 & Hw). unfold MOAllocatePages, covers in *. rewrite filter_app, filter_cons, filter_nil.
  assert ((0 <? gMacOSBootNestedCount) = true) as -> by by apply Z.ltb_lt. cbn [andb].
  change (placed (t, mt, n, a)) with (bool_decide (t = AllocateAtAddress) && (mt =? LoaderData)).
  destruct (bool_decide (t = AllocateAtAddress) && (mt =? LoaderData)) eqn:E.
  - destruct (mStoredAllocatePages _ _ _ _ _) as [[e M'] f']. rewrite decide_True by done.
    assert (wrap64 (a + EFI_PAGES_TO_SIZE n) = a + n * 4096) as ->.
    { unfold EFI_PAGES_TO_SIZE. rewrite Z.shiftl_mul_pow2 by lia. change (2 ^ 12) with 4096.
      rewrite (wrap64_small (n * 4096)) by lia. apply wrap64_small. lia. }
    cbn [mMinAllocatedAddr mMaxAllocatedAddr]. remember (t, mt, n, a) as q eqn:Eq.
    assert (low q = a ∧ high q = a + n * 4096) as [Hlo Hhi] by (by subst q).
    destruct (filter _ l) as [|r0 rs] eqn:Ef; cbn [app].
    + destruct Hc as [-> ->]. change (0 =? 0) with true. cbn [orb].
      destruct (Z.ltb_spec 0 (a + n * 4096)); [|lia].
      split; [intros r ->%list_elem_of_singleton; lia|].
      split; exists q; (split; [apply list_elem_of_here|lia]).
    + destruct Hc as (Hb & (r1 & H1 & E1) & (r2 & H2 & E2)).
      assert (0 < mMinAllocatedAddr m) as Hpos.
      { rewrite <- E1. assert (r1 ∈ l) as H1' by (apply (list_elem_of_filter (λ r, placed r = true)); by rewrite Ef).
        rewrite Forall_forall in Hl. specialize (Hl r1 H1'). destruct r1 as [[[? ?] ?] ?]. apply Hl. }
      destruct (Z.eqb_spec (mMinAllocatedAddr m) 0); [lia|]. cbn [orb].
      change (r0 :: rs ++ [q]) with ((r0 :: rs) ++ [q]). split; [|split].
      * intros r [Hr| ->%list_elem_of_singleton]%elem_of_app.
        -- specialize (Hb r Hr). destruct (Z.ltb_spec a (mMinAllocatedAddr m)), (Z.ltb_spec (mMaxAllocatedAddr m) (a + n * 4096)); lia.
        -- destruct (Z.ltb_spec a (mMinAllocatedAddr m)), (Z.ltb_spec (mMaxAllocatedAddr m) (a + n * 4096)); lia.
      * destruct (Z.ltb_spec a (mMinAllocatedAddr m)); [exists q|exists r1]; (split; [set_solver|done]).
      * destruct (Z.ltb_spec (mMaxAllocatedAddr m) (a + n * 4096)); [exists q|exists r2]; (split; [set_solver|done]).
  - rewrite decide_False by done. rewrite app_nil_r.
    destruct (gHibernateWake && _ && _); destruct (mStoredAllocatePages _ _ _ _ _) as [[e M'] f']; [|done].
    by destruct ((mHibernateImageAddress m =? 0) && bool_decide (e = EFI_SUCCESS)).
Qed.

Lemma requests_cover (Hn : 0 < gMacOSBootNestedCount) l : ∀ done m f,
  Forall request_ok done → Forall request_ok l → covers done m → covers (done ++ l) (requests l m f).1.
Proof.
  induction l as [|[[[t mt] n] a] l IH]; intros done m f Hd Hl Hc; [by rewrite app_nil_r|].
  apply Forall_cons in Hl as [Hr Hl]. pose proof (request_step Hn done m f t mt n a Hd Hc Hr) as Hs.
  cbn [requests]. destruct (MOAllocatePages t mt n a m f) as [[[e M'] m'] f'].
  rewrite cons_middle, app_assoc. apply IH; [|done|done]. apply Forall_app. split; [done|]. by apply Forall_singleton.
Qed.
End Pages.

(** ** The map returned to boot.efi *)

Lemma protect_spec l :
  (Forall (λ D, is_csm D = false) l ∧ ProtectCsmRegion l = l) ∨
  (∃ l1 D l2, l = l1 ++ D :: l2 ∧ Forall (λ D, is_csm D = false) l1 ∧ is_csm D = true ∧
     ProtectCsmRegion l = l1 ++ set_type ACPIMemoryNVS D :: l2).
Proof.
  induction l as [|D l IH]; cbn [ProtectCsmRegion]; [by left|]. destruct (is_csm D) eqn:E.
  - right. by exists [], D, l.
  - destruct IH as [[Hf ->]|(l1 & D' & l2 & -> & Hf & Hc & ->)]; [left|right].
    + split; [by constructor|done].
    + exists (D :: l1), D', l2. split; [done|]. split; [by constructor|done].
Qed.

Lemma length_protect l : length (ProtectCsmRegion l) = length l.
Proof. induction l as [|D l IH]; simpl; [done|]. destruct (is_csm D); simpl; congruence. Qed.

Lemma protect_ok l : Forall desc_ok l → Forall desc_ok (ProtectCsmRegion l).
Proof.
  induction 1 as [|D l [H1 H2 H3] Hl IH]; simpl; [done|].
  destruct (is_csm D); constructor; try done; by split.
Qed.

Lemma protect_memory_at a l : (∀ D, D ∈ l → is_csm D = true → contains a D = false) →
  memory_at a (ProtectCsmRegion l) = memory_at a l.
Proof.
  intros Ha. destruct (protect_spec l) as [[_ ->]|(l1 & D & l2 & El & _ & Hc & ->)]; [done|]. subst l.
  unfold memory_at. rewrite !filter_app, !filter_cons.
  assert (contains a D = false) as Hd by (apply Ha; [set_solver|done]).
  change (contains a (set_type ACPIMemoryNVS D)) with (contains a D). by rewrite Hd.
Qed.

Lemma mo_map_ok nested map ds last : 0 < nested → 0 < ds → map ≠ [] → Z.of_nat (length map) * ds < 2 ^ 64 →
  ∃ map', MOGetMemoryMap nested EFI_SUCCESS map (Z.of_nat (length map) * ds) ds last
      = Some (map', Z.of_nat (length (shrink (ProtectCsmRegion map))) * ds, ds) ∧
    descriptors map' (Z.of_nat (length (shrink (ProtectCsmRegion map))) * ds) ds = shrink (ProtectCsmRegion map).
Proof.
  intros Hn Hds Hne Hw. unfold MOGetMemoryMap. rewrite Z.div_mul, Nat2Z.id by lia.
  rewrite firstn_all, drop_all, app_nil_r.
  assert ((0 <? nested) = true) as -> by by apply Z.ltb_lt. rewrite bool_decide_true by done. cbn [andb].
  destruct (ShrinkMemMap_ok (ProtectCsmRegion map) ds Hds) as (m & E & _ & Ht).
  - intros E%(f_equal length). rewrite length_protect in E. by destruct map.
  - by rewrite length_protect.
  - rewrite length_protect in E. rewrite E. exists m. cbn [mbind option_bind]. split; [done|].
    unfold descriptors. rewrite Z.div_mul, Nat2Z.id by lia. done.
Qed.

(** C7. [MOGetMemoryMap] called by boot.efi leaves in the caller's buffer the list
    [shrink] of the firmware's map with the CSM region protected, without touching
    memory outside the buffer; the in-place loop ends, and shrinking the result
    again would change nothing. *)
Theorem mo_map_shrunk nested map ds last : 0 < nested → 40 ≤ ds → map ≠ [] → Z.of_nat (length map) * ds < 2 ^ 64 →
  ∃ map' size, MOGetMemoryMap nested EFI_SUCCESS map (Z.of_nat (length map) * ds) ds last = Some (map', size, ds) ∧
    descriptors map' size ds = shrink (ProtectCsmRegion map) ∧
    shrink (descriptors map' size ds) = descriptors map' size ds.
Proof.
  intros Hn Hds Hne Hw. destruct (mo_map_ok nested map ds last Hn ltac:(lia) Hne Hw) as (m & E & D).
  eexists m, _. split; [exact E|]. rewrite D. split; [done|].
  unfold shrink at 2. destruct (ProtectCsmRegion map); [done|]. apply shrink_shrink.
Qed.

(** A map with two regions that can be joined and a CSM region. *)
Definition demo_map : list EFI_MEMORY_DESCRIPTOR := [
  {| Type_ := 3; PhysicalStart := 0; VirtualStart := 0; NumberOfPages := 0x90; Attribute := 0xf |};
  {| Type_ := 4; PhysicalStart := 0x90000; VirtualStart := 0; NumberOfPages := 0xe; Attribute := 0xf |};
  {| Type_ := 7; PhysicalStart := 0x100000; VirtualStart := 0; NumberOfPages := 0x10000; Attribute := 0xf |};
  {| Type_ := 2; PhysicalStart := 0x10100000; VirtualStart := 0; NumberOfPages := 0x10; Attribute := 0xf |};
  {| Type_ := 6; PhysicalStart := 0x10110000; VirtualStart := 0; NumberOfPages := 0x10; Attribute := 0x800000000000000f |} ].

Lemma demo_map_ok : Forall desc_ok demo_map.
Proof. repeat constructor; simpl; lia. Qed.

Lemma mo_map_shrunk_witness :
  ∃ map' size, MOGetMemoryMap 1 EFI_SUCCESS demo_map 240 48 40 = Some (map', size, 48) ∧
    descriptors map' size 48 = shrink (ProtectCsmRegion demo_map) ∧
    shrink (descriptors map' size 48) = descriptors map' size 48.
Proof. apply (mo_map_shrunk 1 demo_map 48 40); done. Defined.

(** The region of the CSM module, with its end below the legacy video memory. *)
Definition csm_region (D : EFI_MEMORY_DESCRIPTOR) : Prop :=
  Type_ D = BootServicesData ∧ 0x9E000 ≤ end_of D < 0xA0000.

Lemma is_csm_region D : desc_ok D → is_csm D = true ↔ csm_region D.
Proof.
  intros HD. unfold is_csm, csm_region. rewrite pages_to_size by done. pose proof HD as [H1 H2 H3]. unfold end_of.
  rewrite wrap64_small by lia. rewrite !andb_true_iff, Z.leb_le, Z.ltb_lt, Z.eqb_eq. naive_solver.
Qed.

Lemma not_csm_region D : desc_ok D → is_csm D = false ↔ ¬ csm_region D.
Proof. intros HD. rewrite <- is_csm_region by done. by destruct (is_csm D). Qed.

Lemma not_csm_regions l : Forall desc_ok l → Forall (λ D, is_csm D = false) l → Forall (λ D, ¬ csm_region D) l.
Proof. rewrite !Forall_forall. intros Hok H D HD. apply not_csm_region; auto. Qed.

(** C33. What boot.efi and the kernel see of memory is what the firmware reported (well-formed
    descriptors of memory below 2^64, a map of less than 2^64 bytes): every address outside
    the CSM regions has the same types (as the kernel distinguishes them) and attributes, the
    descriptors that are not usable memory are returned unchanged and in order, and the first
    region of boot services data that ends in 9E000..9FFFF, if there is one, is returned
    as ACPI NVS, so that it is not used as free memory. *)
Theorem mo_map_faithful nested map ds last :
  0 < nested → 40 ≤ ds → map ≠ [] → Z.of_nat (length map) * ds < 2 ^ 64 → Forall desc_ok map →
  ∃ map' size, MOGetMemoryMap nested EFI_SUCCESS map (Z.of_nat (length map) * ds) ds last = Some (map', size, ds) ∧
  let out := descriptors map' size ds in
  (∀ a, (∀ D, D ∈ map → csm_region D → contains a D = false) → memory_at a out = memory_at a map) ∧
  ((Forall (λ D, ¬ csm_region D) map ∧ kept out = kept map) ∨
   ∃ l1 D l2, map = l1 ++ D :: l2 ∧ Forall (λ D, ¬ csm_region D) l1 ∧ csm_region D ∧
     kept out = kept l1 ++ set_type ACPIMemoryNVS D :: kept l2).
Proof.
  intros Hn Hds Hne Hw Hok. destruct (mo_map_ok nested map ds last Hn ltac:(lia) Hne Hw) as (m & E & HD).
  eexists m, _. split; [exact E|]. cbv zeta. rewrite HD. clear E HD.
  pose proof (protect_ok map Hok) as Hp. unfold shrink.
  destruct (ProtectCsmRegion map) as [|p l] eqn:Ep; [by apply (f_equal length) in Ep; rewrite length_protect in Ep; destruct map|].
  apply Forall_cons in Hp as [Hp Hl]. split.
  - intros a Ha. rewrite shrink_memory_at by done. rewrite <- Ep. apply protect_memory_at. intros D HD Hc. apply Ha; [done|].
    rewrite Forall_forall in Hok. apply is_csm_region; auto.
  - rewrite shrink_kept by done. rewrite <- Ep.
    destruct (protect_spec map) as [[Hf ->]|(l1 & D & l2 & -> & Hf & Hc & ->)]; [left; split; [by apply not_csm_regions|done]|right].
    apply Forall_app in Hok as [Hok1 Hok2]. apply Forall_cons in Hok2 as [HokD _].
    exists l1, D, l2. split; [done|]. split; [by apply not_csm_regions|]. split; [by apply is_csm_region|]. unfold kept. by rewrite filter_app, filter_cons.
Qed.

Lemma mo_map_faithful_witness :
  ∃ map' size, MOGetMemoryMap 1 EFI_SUCCESS demo_map 240 48 40 = Some (map', size, 48) ∧
  let out := descriptors map' size 48 in
  (∀ a, (∀ D, D ∈ demo_map → csm_region D → contains a D = false) → memory_at a out = memory_at a demo_map) ∧
  ((Forall (λ D, ¬ csm_region D) demo_map ∧ kept out = kept demo_map) ∨
   ∃ l1 D l2, demo_map = l1 ++ D :: l2 ∧ Forall (λ D, ¬ csm_region D) l1 ∧ csm_region D ∧
     kept out = kept l1 ++ set_type ACPIMemoryNVS D :: kept l2).
Proof. refine (mo_map_faithful 1 demo_map 48 40 _ _ _ _ demo_map_ok); done. Defined.

(** ** Pages from the top *)

(** C34. [AllocatePagesFromTop] returns, and leaks nothing, however often it must ask for a
    larger buffer because the map has grown, and whether or not the firmware has memory for
    it: the pool is as before, and either it fails and no pages are allocated, or it has
    allocated exactly the requested pages, in one conventional region of the map it read,
    below the given address, and outside the kernel's slides if that was asked for.  Without
    that request EFI_NOT_FOUND means that no region of the map has room, or is the
    firmware's own answer.  For fewer than 2^51 pages; the fuel is enough when the memory map
    never exceeds 512 bytes for each unit, since every retry asks for more than 512 bytes
    more (maps of less than 2^48 bytes are assumed, so there always is such a fuel). *)
Theorem top_allocation {F} `{FirmwareLaws F} (overlaps : Z → Z → bool) check fuel Pages Memory (f : F) :
  (∀ g : F, map_bytes g < 512 * Z.of_nat fuel) →
  0 ≤ Pages < 2 ^ 51 → 0 ≤ Memory < 2 ^ 64 →
  ∃ r f1 e M f', GetMemoryMapAlloc get_pool put_pool fuel f = Some (r, f1) ∧
    AllocatePagesFromTop overlaps check fuel Pages Memory f = Some (e, M, f') ∧ pool f' = pool f ∧
    if EFI_ERROR e then
      pages f' = pages f ∧
      (e = EFI_NOT_FOUND → check = false → (AllocateAddress M Pages f1).1 = EFI_NOT_FOUND ∨
         ∀ D, D ∈ map_of f1 → Type_ D = ConventionalMemory → Pages ≤ NumberOfPages D →
           Memory < PhysicalStart D + Pages * 4096)
    else
      pages f' = {[(M, Pages)]} ∪ pages f ∧ M + Pages * 4096 ≤ Memory ∧
      (check = true → overlaps M (Pages * 4096) = false) ∧
      ∃ D, D ∈ map_of f1 ∧ Type_ D = ConventionalMemory ∧ PhysicalStart D ≤ M ∧ M + Pages * 4096 ≤ end_of D.
Proof.
  intros Hg HP HM. destruct (top_cases fuel Hg overlaps check Pages Memory f) as (r & f1 & E & Hc).
  exists r, f1. destruct (map_of_ok f1) as (_ & Hok & _). apply Forall_reverse in Hok.
  assert (∀ e M f', AllocatePagesFromTop overlaps check fuel Pages Memory f = Some (e, M, f') →
    pool f' = pool f ∧ (if EFI_ERROR e then pages f' = pages f else pages f' = {[(M, Pages)]} ∪ pages f)) as Hframe.
  { intros e M f' [Hp Hq]%from_top. split; [done|]. destruct (EFI_ERROR e); [done|]. by destruct Hq as (? & ? & _ & _ & _ & ?). }
  destruct Hc as [[_ E']|[_ [b E']]].
  { eexists _, _, _. split; [done|]. split; [done|]. by destruct (Hframe _ _ _ E') as [-> ->]. }
  destruct (top_search overlaps check Pages Memory (reverse (map_of f1))) as [[a|] M] eqn:Et.
  - destruct (top_search_sound Pages HP _ _ _ _ _ _ Hok HM Et) as (-> & Ho & Hle & D & HD & HD').
    destruct (AllocateAddress a Pages f1) as [e f2] eqn:Ea. exists e, a, (FreePool b f2).
    split; [done|]. split; [done|]. destruct (Hframe _ _ _ E') as [-> Hp]. split; [done|].
    destruct (EFI_ERROR e); (split; [done|]).
    { intros He _. left. by rewrite Ea. }
    split; [done|]. split; [by intros ->|]. exists D. split; [by apply elem_of_reverse|done].
  - exists EFI_NOT_FOUND, M, (FreePool b f1). split; [done|]. split; [done|]. destruct (Hframe _ _ _ E') as [-> Hp].
    split; [done|]. split; [done|]. intros _ ->. right. intros D HD Ht Hn.
    destruct (Z.lt_ge_cases Memory (PhysicalStart D + Pages * 4096)); [done|exfalso].
    destruct (top_search_complete Pages HP overlaps Memory _ Hok HM) as [a Ha]; [|congruence].
    exists D. split; [by apply elem_of_reverse|done].
Qed.

(** A firmware with a fixed map, whose key changes with every allocation: the pool hands
    out fresh addresses, and pages are given to the first who asks.  The first [fx_grow]
    requests for the map after an allocation find a map that is 48 kB larger. *)
Record Fixed := { fx_pool : gset Z; fx_pages : gset (Z * Z); fx_grow : nat }.

Definition fx_map (f : Fixed) : list EFI_MEMORY_DESCRIPTOR :=
  demo_map ++ (if decide (fx_pool f ≠ ∅ ∧ fx_grow f ≠ 0%nat)
               then replicate 1000 {| Type_ := 0; PhysicalStart := 0; VirtualStart := 0; NumberOfPages := 0; Attribute := 0 |} else []).

Definition fx_bytes (f : Fixed) : Z := Z.of_nat (length (fx_map f)) * 48.

#[global] Instance Fixed_firmware : Firmware Fixed := {
  OrgGetMemoryMap n f :=
    if n <? fx_bytes f then (EFI_BUFFER_TOO_SMALL, fx_bytes f, 0, []) else (EFI_SUCCESS, fx_bytes f, 42, fx_map f);
  AllocatePool n f :=
    let p := fresh (fx_pool f) in (Some p, {| fx_pool := {[p]} ∪ fx_pool f; fx_pages := fx_pages f; fx_grow := fx_grow f |});
  FreePool p f := {| fx_pool := fx_pool f ∖ {[p]}; fx_pages := fx_pages f; fx_grow := pred (fx_grow f) |};
  AllocateAddress a n f :=
    if decide ((a, n) ∈ fx_pages f) then (EFI_NOT_FOUND, f)
    else (EFI_SUCCESS, {| fx_pool := fx_pool f; fx_pages := {[(a, n)]} ∪ fx_pages f; fx_grow := fx_grow f |});
  FreePages a n f := {| fx_pool := fx_pool f; fx_pages := fx_pages f ∖ {[(a, n)]}; fx_grow := fx_grow f |};
  ExitBootServices k f := (if k =? 42 then EFI_SUCCESS else EFI_INVALID_PARAMETER, f);
  ReportExitFailure f := f
}.

Lemma fx_map_length f : (5 ≤ length (fx_map f) ≤ 1005)%nat.
Proof. unfold fx_map. rewrite length_app. case_decide; rewrite ?length_replicate; simpl; lia. Qed.

#[global, program] Instance Fixed_laws : FirmwareLaws Fixed := {
  pool := fx_pool; pages := fx_pages; map_of := fx_map; map_key f := 42; DescriptorSize := 48
}.
Next Obligation. done. Qed.
Next Obligation.
  intros f. pose proof (fx_map_length f). split; [by destruct (fx_map f); simpl in *; [lia|]|]. split; [|lia].
  unfold fx_map. apply Forall_app. split; [apply demo_map_ok|]. case_decide; [|done]. apply Forall_replicate. by split.
Qed.
Next Obligation. intros n f Hn. exists 0, []. cbn [OrgGetMemoryMap Fixed_firmware]. unfold fx_bytes. destruct (Z.ltb_spec n (Z.of_nat (length (fx_map f)) * 48)); [done|lia]. Qed.
Next Obligation. intros n f Hn. cbn [OrgGetMemoryMap Fixed_firmware]. unfold fx_bytes. destruct (Z.ltb_spec n (Z.of_nat (length (fx_map f)) * 48)); [lia|done]. Qed.
Next Obligation. intros n f p f' [= <- <-]. split; [apply is_fresh|done]. Qed.
Next Obligation. intros n f f' [=]. Qed.
Next Obligation. done. Qed.
Next Obligation.
  intros a n f e f'. simpl. destruct (decide ((a, n) ∈ fx_pages f)); intros [= <- <-]; done.
Qed.
Next Obligation. done. Qed.

Lemma fixed_enough (g : Fixed) : map_bytes g < 512 * Z.of_nat 100.
Proof. pose proof (fx_map_length g). change (map_bytes g) with (Z.of_nat (length (fx_map g)) * 48). lia. Qed.

Definition fixed0 : Fixed := {| fx_pool := ∅; fx_pages := ∅; fx_grow := 0 |}.

(** The map has grown when it is read for the first time. *)
Definition fixed1 : Fixed := {| fx_pool := ∅; fx_pages := ∅; fx_grow := 1 |}.

Lemma top_allocation_witness :
  ∃ r f1 e M f', GetMemoryMapAlloc get_pool put_pool 100 fixed1 = Some (r, f1) ∧
    AllocatePagesFromTop (λ _ _, false) false 100 0x200 BASE_4GB fixed1 = Some (e, M, f') ∧ pool f' = pool fixed1 ∧
    if EFI_ERROR e then
      pages f' = pages fixed1 ∧
      (e = EFI_NOT_FOUND → false = false → (AllocateAddress M 0x200 f1).1 = EFI_NOT_FOUND ∨
         ∀ D, D ∈ map_of f1 → Type_ D = ConventionalMemory → 0x200 ≤ NumberOfPages D →
           BASE_4GB < PhysicalStart D + 0x200 * 4096)
    else
      pages f' = {[(M, 0x200)]} ∪ pages fixed1 ∧ M + 0x200 * 4096 ≤ BASE_4GB ∧
      (false = true → false = false) ∧
      ∃ D, D ∈ map_of f1 ∧ Type_ D = ConventionalMemory ∧ PhysicalStart D ≤ M ∧ M + 0x200 * 4096 ≤ end_of D.
Proof. exact (top_allocation (λ _ _, false) false 100 0x200 BASE_4GB fixed1 fixed_enough ltac:(done) ltac:(done)). Defined.

(** On this firmware the call succeeds, at the top of the conventional region. *)
Example top_allocation_runs :
  (λ r, r.1) <$> AllocatePagesFromTop (λ _ _, false) false 1 0x200 BASE_4GB fixed0 = Some (EFI_SUCCESS, 0xff00000).
Proof. vm_compute. reflexivity. Qed.

(** With the map that grows one attempt is not enough, two are. *)
Example top_allocation_retries :
  AllocatePagesFromTop (λ _ _, false) false 1 0x200 BASE_4GB fixed1 = None ∧
  (λ r, (r.1, bool_decide (pool r.2 = ∅))) <$> AllocatePagesFromTop (λ _ _, false) false 2 0x200 BASE_4GB fixed1 = Some (EFI_SUCCESS, 0xff00000, true).
Proof. vm_compute. done. Qed.

(** ** ExitBootServices *)

(** C38. [ForceExitBootServices] returns whatever key it is given.  If the first attempt
    fails, the driver only allocates and frees pool buffers until either there is no memory
    for the map and the status is EFI_INVALID_PARAMETER, or it tries a second time, with the key of the
    map at the time of the attempt, the allocation of the map's own buffer included, and
    returns the status of that attempt; if the first attempt succeeds, that is all.  So boot
    services end if the firmware accepts the key of the current map, as the UEFI
    specification says, and still allocates pool memory, which the specification no longer
    promises after the first attempt; the source allows for a second failure.  The fuel is
    enough as in C34. *)
Theorem force_exit_succeeds {F} `{FirmwareLaws F} fuel MapKey (f : F) :
  (∀ g : F, map_bytes g < 512 * Z.of_nat fuel) →
  ∃ e f', ForceExitBootServices fuel MapKey f = Some (e, f') ∧
    (let first := ExitBootServices MapKey f in let g := ReportExitFailure first.2 in
     if EFI_ERROR first.1 then
       (e = EFI_INVALID_PARAMETER ∧ no_memory g f') ∨
       (∃ p f2, pool_steps g f2 ∧ p ∉ pool g ∧ pool f2 = {[p]} ∪ pool g ∧ ExitBootServices (map_key f2) f2 = (e, f'))
     else first = (e, f')) ∧
    ((∀ g, (ExitBootServices (map_key g) g).1 = EFI_SUCCESS) → (∀ n g, (AllocatePool n g).1 ≠ None) → e = EFI_SUCCESS).
Proof.
  intros Hg. unfold ForceExitBootServices. destruct (ExitBootServices MapKey f) as [e f1] eqn:E1.
  cbn zeta. cbn [fst snd].
  destruct (EFI_ERROR e) eqn:Ee; [|exists e, f1; split; [done|]; split; [done|]; by destruct e].
  destruct (pool_alloc_returns fuel Hg (ReportExitFailure f1)) as (r & f2 & E & Hr). rewrite E. cbn [mbind option_bind].
  destruct Hr as [((Es & _ & Hk & _) & Hst)|[Hn Es]]; rewrite Es.
  - rewrite bool_decide_true, Hk by done. destruct (ExitBootServices (map_key f2) f2) as [e' f3] eqn:E3. exists e', f3. split; [done|].
    split; [|intros Hx _; specialize (Hx f2); by rewrite E3 in Hx]. right.
    pose proof (pool_success_buffer _ _ _ _ E Es) as Hb. destruct (pool_alloc _ _ _ _ E) as [_ Hp].
    destruct (mr_buffer r) as [p|]; [|done]. exists p, f2. by destruct Hp as (_ & ? & ?).
  - rewrite bool_decide_false by done. eexists _, f2. split; [done|]. split; [by left|].
    intros _ Ha. destruct Hn as (n & g & _ & Hn). destruct (Ha n g). by rewrite Hn.
Qed.

Lemma force_exit_succeeds_witness : ∃ e f', ForceExitBootServices 100 7 fixed1 = Some (e, f') ∧ e = EFI_SUCCESS.
Proof.
  destruct (force_exit_succeeds 100 7 fixed1 fixed_enough) as (e & f' & E & _ & He). exists e, f'. split; [done|]. by apply He.
Defined.

(** ** The kernel's memory *)

(** However boot.efi allocates, the two addresses the monitor keeps are the
    lowest and the highest of the regions requested at an address for loader data,
    and both are 0 when there was no such request. *)
Theorem mo_pages_cover {F} (stored : EFI_ALLOCATE_TYPE → Z → Z → Z → F → EFI_STATUS * Z * F) nested wake l h f :
  0 < nested → Forall request_ok l →
  covers l (requests stored nested wake l {| mMinAllocatedAddr := 0; mMaxAllocatedAddr := 0; mHibernateImageAddress := h |} f).1.
Proof. intros Hn Hl. by apply (requests_cover stored nested wake Hn l []). Qed.

Lemma mo_pages_cover_witness :
  let l := [(AllocateAtAddress, 2, 16, 0x200000); (AllocateAnyPages, 2, 1, 5); (AllocateAtAddress, 2, 1, 0x100000)] in
  covers l (requests (λ _ _ _ a f, (EFI_SUCCESS, a, f)) 1 false l
    {| mMinAllocatedAddr := 0; mMaxAllocatedAddr := 0; mHibernateImageAddress := 0 |} tt).1.
Proof. apply mo_pages_cover; [done|]. repeat apply Forall_cons_2; done. Defined.
