(* ===== verification/RtShims.v ===== *)
(** * AptioMemoryFix: runtime memory and the runtime services shims (RtShims.c)

    Runtime memory is hidden from boot.efi as memory-mapped I/O and gets its types
    back before the kernel starts; the shims of the runtime services convert the
    pointers to the firmware's services when the kernel sets virtual addresses. *)

From Stdlib Require Import ZArith Lia.
From stdpp Require Import base list list_numbers.
From S2P Require Import Prelude MemoryMap.

Open Scope Z_scope.

(** ** Protecting runtime memory from relocation *)

Definition RuntimeServicesCode : Z := 5.
Definition RuntimeServicesData : Z := 6.
Definition MemoryMappedIO : Z := 11.
Definition EFI_MEMORY_RUNTIME : Z := 0x8000000000000000.
Definition APTIFIX_MAX_RT_RELOC_NUM : nat := 64.

Record RT_RELOC_PROTECT_INFO := { ri_PhysicalStart : Z; ri_Type : Z }.

(** The descriptors that are protected: runtime code and data, except the page of the
    system table. *)
Definition is_protected (SysTableArea : Z) (D : EFI_MEMORY_DESCRIPTOR) : bool :=
  negb (Z.land (Attribute D) EFI_MEMORY_RUNTIME =? 0) &&
  ((Type_ D =? RuntimeServicesCode) || ((Type_ D =? RuntimeServicesData) && negb (PhysicalStart D =? SysTableArea))).

(** mRelocInfoData is the list of its used entries. *)
Fixpoint protect_loop (SysTableArea : Z) (RelocInfo : list RT_RELOC_PROTECT_INFO) (MemoryMap : list EFI_MEMORY_DESCRIPTOR)
    : list EFI_MEMORY_DESCRIPTOR * list RT_RELOC_PROTECT_INFO :=
  match MemoryMap with
  | [] => ([], RelocInfo)
  | D :: l =>
      if is_protected SysTableArea D then
        let RelocInfo :=
          if (length RelocInfo <? APTIFIX_MAX_RT_RELOC_NUM)%nat
          then RelocInfo ++ [{| ri_PhysicalStart := PhysicalStart D; ri_Type := Type_ D |}] else RelocInfo in
        let '(l, RelocInfo) := protect_loop SysTableArea RelocInfo l in
        (set_type MemoryMappedIO D :: l, RelocInfo)
      else
        let '(l, RelocInfo) := protect_loop SysTableArea RelocInfo l in (D :: l, RelocInfo)
  end.

Definition ProtectRtMemoryFromRelocation (MemoryMap : list EFI_MEMORY_DESCRIPTOR) (SysTableArea : Z)
    : list EFI_MEMORY_DESCRIPTOR * list RT_RELOC_PROTECT_INFO :=
  protect_loop SysTableArea [] MemoryMap.

(** The inner loop: NumEntriesLeft and the descriptor. *)
Fixpoint restore_desc (RelocInfo : list RT_RELOC_PROTECT_INFO) (n_left : Z) (D : EFI_MEMORY_DESCRIPTOR)
    : Z * EFI_MEMORY_DESCRIPTOR :=
  match RelocInfo with
  | [] => (n_left, D)
  | i :: RelocInfo =>
      if PhysicalStart D =? ri_PhysicalStart i
      then restore_desc RelocInfo (wrap64 (n_left - 1)) (set_type (ri_Type i) D)
      else restore_desc RelocInfo n_left D
  end.

Fixpoint restore_loop (RelocInfo : list RT_RELOC_PROTECT_INFO) (n_left : Z) (MemoryMap : list EFI_MEMORY_DESCRIPTOR)
    : list EFI_MEMORY_DESCRIPTOR :=
  match MemoryMap with
  | [] => []
  | D :: l =>
      let '(n_left, D) := if 0 <? n_left then restore_desc RelocInfo n_left D else (n_left, D) in
      D :: restore_loop RelocInfo n_left l
  end.

Definition RestoreProtectedRtMemoryTypes (RelocInfo : list RT_RELOC_PROTECT_INFO) (MemoryMap : list EFI_MEMORY_DESCRIPTOR)
    : list EFI_MEMORY_DESCRIPTOR :=
  if 0 <? Z.of_nat (length RelocInfo) then restore_loop RelocInfo (Z.of_nat (length RelocInfo)) MemoryMap
  else MemoryMap.

(** ** The round trip *)

Section RoundTrip.
Context (SysTableArea : Z).

Definition protect1 (D : EFI_MEMORY_DESCRIPTOR) : EFI_MEMORY_DESCRIPTOR :=
  if is_protected SysTableArea D then set_type MemoryMappedIO D else D.

Definition info_of (D : EFI_MEMORY_DESCRIPTOR) : RT_RELOC_PROTECT_INFO :=
  {| ri_PhysicalStart := PhysicalStart D; ri_Type := Type_ D |}.

Definition protected (l : list EFI_MEMORY_DESCRIPTOR) : list EFI_MEMORY_DESCRIPTOR :=
  filter (λ D, is_protected SysTableArea D = true) l.

Lemma protect_loop_ok l : ∀ info, (length info + length (protected l) ≤ APTIFIX_MAX_RT_RELOC_NUM)%nat →
  protect_loop SysTableArea info l = (protect1 <$> l, info ++ (info_of <$> protected l)).
Proof.
  induction l as [|D l IH]; intros info Hl; cbn [protect_loop]; [by rewrite app_nil_r|].
  unfold protected in *. rewrite filter_cons in *. rewrite fmap_cons. unfold protect1 at 1.
  destruct (is_protected SysTableArea D); [|by rewrite IH by done].
  rewrite decide_True in * by done. simpl length in Hl.
  destruct (Nat.ltb_spec (length info) APTIFIX_MAX_RT_RELOC_NUM); [|lia].
  rewrite IH by (rewrite length_app; simpl; lia). by rewrite <- app_assoc.
Qed.

Lemma protect1_start D : PhysicalStart (protect1 D) = PhysicalStart D.
Proof. unfold protect1. by destruct (is_protected SysTableArea D). Qed.

Lemma set_type_back D : set_type (Type_ D) (protect1 D) = D.
Proof. unfold protect1. destruct (is_protected SysTableArea D); by destruct D. Qed.

(** Entries for other addresses are passed over. *)
Lemma restore_desc_other info n_left D : PhysicalStart D ∉ (ri_PhysicalStart <$> info) →
  restore_desc info n_left D = (n_left, D).
Proof.
  induction info as [|i info IH]; intros Hn; cbn [restore_desc]; [done|]. rewrite fmap_cons, not_elem_of_cons in Hn.
  destruct Hn as [Hi Hn]. destruct (Z.eqb_spec (PhysicalStart D) (ri_PhysicalStart i)); [done|by apply IH].
Qed.

Lemma restore_desc_hit info n_left D i : i ∈ info → PhysicalStart D = ri_PhysicalStart i →
  NoDup (ri_PhysicalStart <$> info) →
  restore_desc info n_left D = (wrap64 (n_left - 1), set_type (ri_Type i) D).
Proof.
  induction info as [|j info IH]; intros Hi Hs Hd; [by apply not_elem_of_nil in Hi|]. cbn [restore_desc].
  rewrite fmap_cons, NoDup_cons in Hd. destruct Hd as [Hj Hd]. apply elem_of_cons in Hi as [->|Hi].
  - rewrite Hs, Z.eqb_refl. by apply restore_desc_other; simpl; rewrite Hs.
  - destruct (Z.eqb_spec (PhysicalStart D) (ri_PhysicalStart j)) as [E|]; [|by apply IH].
    destruct Hj. rewrite <- E, Hs. by apply list_elem_of_fmap_2.
Qed.

Context (map : list EFI_MEMORY_DESCRIPTOR).
Context (Hdistinct : NoDup (PhysicalStart <$> map)).

Lemma same_start D D' : D ∈ map → D' ∈ map → PhysicalStart D = PhysicalStart D' → D = D'.
Proof.
  intros [i Hi]%list_elem_of_lookup [j Hj]%list_elem_of_lookup E.
  assert (i = j) as ->; [|congruence]. apply (NoDup_lookup _ i j (PhysicalStart D) Hdistinct);
  rewrite list_lookup_fmap, ?Hi, ?Hj; [done|simpl; congruence].
Qed.

Lemma info_starts (l : list EFI_MEMORY_DESCRIPTOR) : ri_PhysicalStart <$> (info_of <$> l) = PhysicalStart <$> l.
Proof. rewrite <- list_fmap_compose. by apply list_fmap_ext. Qed.

Lemma protected_distinct : NoDup (ri_PhysicalStart <$> (info_of <$> protected map)).
Proof. rewrite info_starts. eapply sublist_NoDup; [exact Hdistinct|]. apply fmap_sublist, sublist_filter. Qed.

(** The loop on any part of the map, while enough entries are left. *)
Lemma restore_loop_ok l : ∀ n_left, l ⊆ map → Z.of_nat (length (protected l)) ≤ n_left < 2 ^ 64 →
  restore_loop (info_of <$> protected map) n_left (protect1 <$> l) = l.
Proof.
  induction l as [|D l IH]; intros n_left Hl Hn; [done|]. rewrite fmap_cons. cbn [restore_loop].
  assert (D ∈ map) as HD by (apply Hl, list_elem_of_here).
  assert (l ⊆ map) as Hl' by (intros x Hx; by apply Hl, list_elem_of_further).
  unfold protected in Hn. rewrite filter_cons in Hn. destruct (is_protected SysTableArea D) eqn:E.
  - rewrite decide_True in Hn by done. simpl length in Hn. destruct (Z.ltb_spec 0 n_left); [|lia].
    rewrite (restore_desc_hit _ _ _ (info_of D));
      [|apply list_elem_of_fmap_2, list_elem_of_filter; done|by rewrite protect1_start|apply protected_distinct].
    simpl ri_Type. rewrite set_type_back, wrap64_small by lia. f_equal. apply IH; [done|]. unfold protected. lia.
  - rewrite decide_False in Hn by done. assert (protect1 D = D) as -> by (unfold protect1; by rewrite E).
    assert (restore_desc (info_of <$> protected map) n_left D = (n_left, D)) as Ho.
    { apply restore_desc_other. rewrite info_starts. intros (D' & Es & [H1 H2]%list_elem_of_filter)%list_elem_of_fmap.
      assert (D = D') as <- by by apply same_start. congruence. }
    rewrite Ho. assert ((if 0 <? n_left then (n_left, D) else (n_left, D)) = (n_left, D)) as -> by by destruct (0 <? n_left).
    f_equal. by apply IH.
Qed.
End RoundTrip.

Lemma protect_restores (map kept : list EFI_MEMORY_DESCRIPTOR) (SysTableArea : Z) :
  NoDup (PhysicalStart <$> map) → (length (protected SysTableArea map) ≤ APTIFIX_MAX_RT_RELOC_NUM)%nat → kept ⊆+ map →
  let '(map', info) := ProtectRtMemoryFromRelocation map SysTableArea in
  map' = protect1 SysTableArea <$> map ∧ protected SysTableArea map' = [] ∧
  RestoreProtectedRtMemoryTypes info (protect1 SysTableArea <$> kept) = kept.
Proof.
  intros Hd Hl Hs. unfold ProtectRtMemoryFromRelocation. rewrite protect_loop_ok by done. cbn [app]. split; [done|]. split.
  { apply list_filter_none. intros D (D0 & -> & _)%list_elem_of_fmap. unfold protect1.
    destruct (is_protected SysTableArea D0) eqn:E; [|congruence]. unfold is_protected. simpl. by rewrite andb_false_r. }
  unfold RestoreProtectedRtMemoryTypes. rewrite length_fmap.
  assert (length (protected SysTableArea kept) ≤ length (protected SysTableArea map))%nat as Hk.
  { destruct (submseteq_Permutation _ _ Hs) as [rest Hp]. unfold protected. rewrite Hp, filter_app, length_app. lia. }
  destruct (Z.ltb_spec 0 (Z.of_nat (length (protected SysTableArea map)))).
  - apply restore_loop_ok; [done|intros x Hx; by eapply elem_of_submseteq|]. unfold APTIFIX_MAX_RT_RELOC_NUM in Hl. lia.
  - rewrite <- (list_fmap_id kept) at 2. apply list_fmap_ext. intros i D HD%list_elem_of_lookup_2. unfold protect1.
    destruct (is_protected SysTableArea D) eqn:E; [|done].
    assert (D ∈ protected SysTableArea kept) as HD' by (by apply list_elem_of_filter).
    destruct (protected SysTableArea kept); [by apply not_elem_of_nil in HD'|]. simpl in Hk. lia.
Qed.

(** C19. Round trip of runtime memory: with at most 64 protected descriptors, at
    distinct addresses, every runtime code and data descriptor but that of the system
    table is shown as memory-mapped I/O, and whatever part of the map boot.efi keeps,
    in any order, the restored descriptors are the original ones. *)
Theorem rt_memory_restored (map kept : list EFI_MEMORY_DESCRIPTOR) (SysTableArea : Z) :
  NoDup (PhysicalStart <$> map) → (length (protected SysTableArea map) ≤ APTIFIX_MAX_RT_RELOC_NUM)%nat → kept ⊆+ map →
  let '(map', info) := ProtectRtMemoryFromRelocation map SysTableArea in
  map' = protect1 SysTableArea <$> map ∧ protected SysTableArea map' = [] ∧
  RestoreProtectedRtMemoryTypes info (protect1 SysTableArea <$> kept) = kept.
Proof. apply protect_restores. Qed.

Definition rt_desc (t start attr : Z) : EFI_MEMORY_DESCRIPTOR :=
  {| Type_ := t; PhysicalStart := start; VirtualStart := 0; NumberOfPages := 1; Attribute := attr |}.

(** Code, data, the system table and conventional memory. *)
Definition rt_map : list EFI_MEMORY_DESCRIPTOR :=
  [rt_desc 5 0x1000 EFI_MEMORY_RUNTIME; rt_desc 6 0x2000 EFI_MEMORY_RUNTIME; rt_desc 6 0x3000 EFI_MEMORY_RUNTIME; rt_desc 7 0x4000 0xf].

Lemma rt_memory_restored_witness :
  let '(map', info) := ProtectRtMemoryFromRelocation rt_map 0x3000 in
  map' = protect1 0x3000 <$> rt_map ∧ protected 0x3000 map' = [] ∧
  RestoreProtectedRtMemoryTypes info (protect1 0x3000 <$> drop 1 rt_map) = drop 1 rt_map.
Proof.
  refine (rt_memory_restored rt_map (drop 1 rt_map) 0x3000 _ _ _).
  - apply (bool_decide_unpack _). vm_compute. exact I.
  - vm_compute. lia.
  - apply (submseteq_cons _ (drop 1 rt_map) (drop 1 rt_map)). reflexivity.
Defined.

(** With 65 protected descriptors the last one stays memory-mapped I/O. *)
Theorem rt_type_lost :
  let map := (λ i, rt_desc 5 (0x1000 * i) EFI_MEMORY_RUNTIME) <$> seqZ 1 65 in
  let '(map', info) := ProtectRtMemoryFromRelocation map 0 in
  take 64 (RestoreProtectedRtMemoryTypes info map') = take 64 map ∧
  Type_ <$> last (RestoreProtectedRtMemoryTypes info map') = Some MemoryMappedIO.
Proof. vm_compute. done. Qed.

(** ** Virtual addresses of the shims *)

(** A pointer to a service: its value in the driver and in the copy of the shims
    that the kernel calls, and whether the latter is converted. *)
Record RT_SHIM_PTRS := { gFunc : Z; Func : Z; Fixed : bool }.

(** [sh_area] is gRtShims, [sh_override] the copy of gGetVariableOverride. *)
Record Shims := {
  sh_area : option Z; sh_override : Z; sh_ptrs : list RT_SHIM_PTRS; mRtShimsAddrUpdated : bool
}.

Definition shim_in (p : RT_SHIM_PTRS) (D : EFI_MEMORY_DESCRIPTOR) : bool :=
  (PhysicalStart D <=? gFunc p) && (gFunc p <? wrap64 (PhysicalStart D + EFI_PAGES_TO_SIZE (NumberOfPages D))).

(** The inner loop on one pointer. *)
Definition fix_ptr (D : EFI_MEMORY_DESCRIPTOR) (p : RT_SHIM_PTRS) : RT_SHIM_PTRS :=
  if negb (Fixed p) && shim_in p D
  then {| gFunc := gFunc p; Func := wrap64 (Func p + wrap64 (VirtualStart D - PhysicalStart D)); Fixed := true |}
  else p.

(** How many pointers the inner loop converts. *)
Definition n_fixed (D : EFI_MEMORY_DESCRIPTOR) (ps : list RT_SHIM_PTRS) : nat :=
  length (filter (λ p, negb (Fixed p) && shim_in p D = true) ps).

Fixpoint virtualize_loop (FixedCount : nat) (ps : list RT_SHIM_PTRS) (MemoryMap : list EFI_MEMORY_DESCRIPTOR)
    : list RT_SHIM_PTRS :=
  match MemoryMap with
  | [] => ps
  | D :: l =>
      let FixedCount := (FixedCount + n_fixed D ps)%nat in
      let ps := fix_ptr D <$> ps in
      if (FixedCount =? length ps)%nat then ps else virtualize_loop FixedCount ps l
  end.

(** Without the shims' memory the code writes near address 0. *)
Definition VirtualizeRtShims (MemoryMap : list EFI_MEMORY_DESCRIPTOR) (s : Shims) : option Shims :=
  if mRtShimsAddrUpdated s then Some s else
  area ← sh_area s;
  Some {| sh_area := Some area; sh_override := 0; sh_ptrs := virtualize_loop 0 (sh_ptrs s) MemoryMap;
          mRtShimsAddrUpdated := true |}.

(** The conversion of one pointer: the first descriptor that contains it counts. *)
Definition convert (MemoryMap : list EFI_MEMORY_DESCRIPTOR) (p : RT_SHIM_PTRS) : RT_SHIM_PTRS :=
  match list_find (λ D, shim_in p D = true) MemoryMap with
  | Some (_, D) =>
      {| gFunc := gFunc p; Func := wrap64 (Func p + wrap64 (VirtualStart D - PhysicalStart D)); Fixed := true |}
  | None => p
  end.

Lemma fix_ptr_fixed D p : Fixed p = true → fix_ptr D p = p.
Proof. intros E. unfold fix_ptr. by rewrite E. Qed.

(** The loop without counting: converted pointers are left alone. *)
Definition convert_unless (l : list EFI_MEMORY_DESCRIPTOR) (p : RT_SHIM_PTRS) : RT_SHIM_PTRS :=
  if Fixed p then p else convert l p.

Lemma convert_unless_cons D l p : convert_unless l (fix_ptr D p) = convert_unless (D :: l) p.
Proof.
  unfold convert_unless, convert, fix_ptr. destruct (Fixed p) eqn:Ef; cbn [negb andb]; [by rewrite Ef|].
  cbn [list_find]. destruct (shim_in p D) eqn:E; [by rewrite decide_True|].
  rewrite Ef, decide_False by done. by destruct (list_find _ l) as [[i D']|].
Qed.

Definition count_fixed (ps : list RT_SHIM_PTRS) : nat := length (filter (λ p, Fixed p = true) ps).

Lemma count_step D ps : count_fixed (fix_ptr D <$> ps) = (count_fixed ps + n_fixed D ps)%nat.
Proof.
  unfold count_fixed, n_fixed. induction ps as [|p ps IH]; [done|].
  assert (Fixed (fix_ptr D p) = Fixed p || shim_in p D) as Hp.
  { unfold fix_ptr. destruct (Fixed p) eqn:Ef, (shim_in p D); simpl; done. }
  rewrite fmap_cons, !filter_cons. repeat case_decide; simpl; try lia; exfalso; rewrite Hp in *;
    destruct (Fixed p), (shim_in p D); simpl in *; congruence.
Qed.

Lemma all_fixed ps : count_fixed ps = length ps → Forall (λ p, Fixed p = true) ps.
Proof.
  unfold count_fixed. induction ps as [|p ps IH]; [by constructor|]. rewrite filter_cons. simpl length.
  destruct (Fixed p) eqn:E; simpl; intros Hl.
  - constructor; [done|]. apply IH. lia.
  - pose proof (length_filter (λ p, Fixed p = true) ps). lia.
Qed.

Lemma virtualize_loop_ok l : ∀ ps, virtualize_loop (count_fixed ps) ps l = convert_unless l <$> ps.
Proof.
  induction l as [|D l IH]; intros ps; cbn [virtualize_loop].
  - rewrite <- (list_fmap_id ps) at 1. apply list_fmap_ext. intros i p _. unfold convert_unless. by destruct (Fixed p).
  - rewrite <- count_step. rewrite (IH (fix_ptr D <$> ps)).
    assert (convert_unless l <$> (fix_ptr D <$> ps) = convert_unless (D :: l) <$> ps) as Hc.
    { rewrite <- list_fmap_compose. apply list_fmap_ext. intros i p _. apply convert_unless_cons. }
    rewrite Hc. destruct (Nat.eqb_spec (count_fixed (fix_ptr D <$> ps)) (length (fix_ptr D <$> ps))) as [E|]; [|done].
    rewrite <- Hc. apply all_fixed in E. rewrite <- (list_fmap_id (fix_ptr D <$> ps)) at 1. apply list_fmap_ext.
    intros i p Hp. unfold convert_unless. by rewrite (Forall_lookup_1 _ _ _ _ E Hp).
Qed.

Lemma virtualize_ok (map : list EFI_MEMORY_DESCRIPTOR) (s : Shims) :
  sh_area s ≠ None → mRtShimsAddrUpdated s = false → Forall (λ p, Fixed p = false) (sh_ptrs s) →
  VirtualizeRtShims map s =
    Some {| sh_area := sh_area s; sh_override := 0; sh_ptrs := convert map <$> sh_ptrs s; mRtShimsAddrUpdated := true |}.
Proof.
  intros Ha Hu Hf. unfold VirtualizeRtShims. rewrite Hu. destruct (sh_area s) as [a|]; [|done].
  cbn [mbind option_bind]. do 2 f_equal.
  assert (count_fixed (sh_ptrs s) = 0%nat) as <-.
  { unfold count_fixed. rewrite list_filter_none; [done|]. intros p Hp. rewrite Forall_forall in Hf.
    rewrite (Hf p Hp). discriminate. }
  rewrite virtualize_loop_ok. apply list_fmap_ext. intros i p Hp. unfold convert_unless.
  by rewrite (Forall_lookup_1 _ _ _ _ Hf Hp).
Qed.

(** Setting virtual addresses converts each of the pointers in the shims exactly
    once, by the offset of the first region of the map that contains the service,
    leaves a pointer that no region contains, and disables the GetVariable override;
    a second call changes nothing. *)
Theorem shims_virtualized (map map2 : list EFI_MEMORY_DESCRIPTOR) (s : Shims) :
  sh_area s ≠ None → mRtShimsAddrUpdated s = false → Forall (λ p, Fixed p = false) (sh_ptrs s) →
  ∃ s', VirtualizeRtShims map s = Some s' ∧ sh_override s' = 0 ∧ sh_ptrs s' = convert map <$> sh_ptrs s ∧
    VirtualizeRtShims map2 s' = Some s'.
Proof. intros Ha Hu Hf. rewrite virtualize_ok by done. by eexists. Qed.

Definition shim_demo : Shims := {|
  sh_area := Some 0x7000; sh_override := 5;
  sh_ptrs := [{| gFunc := 0x1010; Func := 0x1010; Fixed := false |}; {| gFunc := 0x9000; Func := 0x9000; Fixed := false |}];
  mRtShimsAddrUpdated := false |}.

Definition shim_map : list EFI_MEMORY_DESCRIPTOR :=
  [{| Type_ := 5; PhysicalStart := 0x1000; VirtualStart := 0xffffff8000001000; NumberOfPages := 1; Attribute := EFI_MEMORY_RUNTIME |}].

Lemma shims_virtualized_witness :
  ∃ s', VirtualizeRtShims shim_map shim_demo = Some s' ∧ sh_override s' = 0 ∧
    sh_ptrs s' = [{| gFunc := 0x1010; Func := 0xffffff8000001010; Fixed := true |}; {| gFunc := 0x9000; Func := 0x9000; Fixed := false |}] ∧
    VirtualizeRtShims [] s' = Some s'.
Proof.
  refine (shims_virtualized shim_map [] shim_demo _ _ _); [done|done|by repeat constructor].
Defined.
