(* ===== verification/BootArgs.v ===== *)
(** * AptioMemoryFix: the kernel's command line (BootArgs.c)

    A command line is a buffer of bytes that holds a string with its terminator; most
    functions only look at the string.  The words of a command line are its maximal
    parts without spaces. *)

From Stdlib Require Import ZArith Lia.
From stdpp Require Import base list list_numbers strings.
From S2P Require Import Prelude.

Open Scope Z_scope.

Definition BOOT_LINE_LENGTH : nat := 1024.
Definition SPACE : Z := 32.
Definition EQUALS : Z := 61.

(** The string in a buffer; [None] without a terminator. *)
Fixpoint string_of (buf : list Z) : option (list Z) :=
  match buf with
  | [] => None
  | c :: buf => if c =? 0 then Some [] else cons c <$> string_of buf
  end.

(** The character at an index of a string, the terminator included. *)
Definition char_at (s : list Z) (i : nat) : Z := default 0 (s !! i).

(** ** Operations *)

(** The index of the match.  A partial match that reaches the end of the string ends
    the search. *)
Fixpoint AsciiStrStr (s search : list Z) : option nat :=
  match search, s with
  | [], _ => Some 0%nat
  | _, [] => None
  | _, _ :: s' =>
      if bool_decide (search `prefix_of` s) then Some 0%nat
      else if bool_decide (s `prefix_of` search) then None
      else S <$> AsciiStrStr s' search
  end.

Definition GetArgumentFromCommandLine (CommandLine Argument : list Z) (ArgumentLength : nat) : option nat :=
  match AsciiStrStr CommandLine Argument with
  | None => None
  | Some i =>
      if (negb (i =? 0)%nat && negb (char_at CommandLine (i - 1) =? SPACE))
         || (negb (char_at CommandLine (i + ArgumentLength) =? SPACE) && negb (char_at CommandLine (i + ArgumentLength) =? 0)
             && negb (char_at CommandLine (i + ArgumentLength - 1) =? EQUALS))
      then None else Some i
  end.

(** Overwrite the word at the head of the string. *)
Fixpoint blank_word (s : list Z) : list Z :=
  match s with
  | [] => []
  | c :: s => if c =? SPACE then c :: s else SPACE :: blank_word s
  end.

(** The [do] loop; [None] when the fuel runs out. *)
Fixpoint blank_matches (fuel : nat) (CommandLine Argument : list Z) : option (list Z) :=
  match fuel with
  | O => None
  | S fuel =>
      match AsciiStrStr CommandLine Argument with
      | None => Some CommandLine
      | Some i =>
          if (i =? 0)%nat || (char_at CommandLine (i - 1) =? SPACE)
          then blank_matches fuel (take i CommandLine ++ blank_word (drop i CommandLine)) Argument
          else blank_matches fuel CommandLine Argument
      end
  end.

Fixpoint skip_spaces (s : list Z) : list Z :=
  match s with
  | c :: s' => if c =? SPACE then skip_spaces s' else s
  | [] => []
  end.

(** The second loop: only the last of several spaces is copied. *)
Fixpoint squeeze (s : list Z) : list Z :=
  match s with
  | [] => []
  | c :: s' => if (c =? SPACE) && (char_at s' 0 =? SPACE) then squeeze s' else c :: squeeze s'
  end.

(** The new buffer: the string moves to the front, and what it leaves behind is
    zero. *)
Definition RemoveArgumentFromCommandLine (fuel : nat) (buf Argument : list Z) : option (list Z) :=
  s ← string_of buf;
  s' ← blank_matches fuel s Argument;
  let u := squeeze (skip_spaces s') in
  Some (u ++ replicate (length s - length u) 0 ++ drop (length s) buf).

(** [None] is a write outside the buffer. *)
Definition AppendArgumentToCommandLine (buf Argument : list Z) (ArgumentLength : nat) : option (bool * list Z) :=
  s ← string_of buf;
  let Len := length s in
  if (BOOT_LINE_LENGTH <=? Len + (if (0 <? Len)%nat then 1 else 0) + ArgumentLength)%nat then Some (false, buf)
  else
    let prefix := if (0 <? Len)%nat then s ++ [SPACE] else [] in
    let line := prefix ++ take ArgumentLength Argument ++ [0] in
    if (length line <=? length buf)%nat then Some (true, line ++ drop (length line) buf) else None.

(** ** Words *)

Definition no_space (s : list Z) : Prop := Forall (λ c, c ≠ SPACE) s.

Definition flush (w : list Z) : list (list Z) := match w with [] => [] | _ => [w] end.

Fixpoint words_from (w s : list Z) : list (list Z) :=
  match s with
  | [] => flush w
  | c :: s => if c =? SPACE then flush w ++ words_from [] s else words_from (w ++ [c]) s
  end.

Definition words (s : list Z) : list (list Z) := words_from [] s.

Lemma words_from_word w v s : no_space v → words_from w (v ++ s) = words_from (w ++ v) s.
Proof.
  intros Hv. revert w. induction Hv as [|c v Hc Hv IH]; intros w; simpl; [by rewrite app_nil_r|].
  destruct (Z.eqb_spec c SPACE); [done|]. by rewrite IH, <- app_assoc.
Qed.

Lemma words_from_space w s t : words_from w (s ++ SPACE :: t) = words_from w s ++ words t.
Proof.
  revert w. induction s as [|c s IH]; intros w; simpl; [done|].
  destruct (c =? SPACE); [|apply IH]. by rewrite IH, <- app_assoc.
Qed.

Lemma words_spaces n s : words (replicate n SPACE ++ s) = words s.
Proof. induction n as [|n IH]; [done|]. simpl. done. Qed.

(** A word of the string occurs in it. *)
Lemma words_from_occurs w s v : v ∈ words_from w s → ∃ p q, w ++ s = p ++ v ++ q.
Proof.
  revert w. induction s as [|c s IH]; intros w; simpl.
  - destruct w; simpl; [by intros ?%not_elem_of_nil|]. intros ->%list_elem_of_singleton. by exists [], [].
  - destruct (Z.eqb_spec c SPACE) as [->|].
    + intros [Hv|Hv]%elem_of_app.
      * destruct w; simpl in Hv; [by apply not_elem_of_nil in Hv|]. apply list_elem_of_singleton in Hv as ->.
        by exists [], (SPACE :: s).
      * destruct (IH [] Hv) as (p & q & E). exists (w ++ SPACE :: p), q. simpl in E. rewrite E. by rewrite <- app_assoc.
    + intros (p & q & E)%IH. exists p, q. by rewrite <- E, <- app_assoc.
Qed.

Lemma words_occurs s v : v ∈ words s → ∃ p q, s = p ++ v ++ q.
Proof. apply words_from_occurs. Qed.

(** ** Strings in buffers *)

Lemma string_of_app u r : Forall (λ c, c ≠ 0) u → string_of (u ++ 0 :: r) = Some u.
Proof.
  induction 1 as [|c u Hc Hu IH]; [done|]. simpl. destruct (Z.eqb_spec c 0); [done|]. by rewrite IH.
Qed.

Lemma string_of_Some buf s : string_of buf = Some s → Forall (λ c, c ≠ 0) s ∧ ∃ r, buf = s ++ 0 :: r.
Proof.
  revert s. induction buf as [|c buf IH]; intros s; simpl; [done|].
  destruct (Z.eqb_spec c 0) as [->|]; [intros [= <-]; split; [done|by exists buf]|].
  destruct (string_of buf) as [t|]; [|done]. intros [= <-].
  destruct (IH t eq_refl) as [Ht [r ->]]. split; [by constructor|by exists r].
Qed.

Lemma char_at_app_r (u r : list Z) i : char_at (u ++ r) (length u + i) = char_at r i.
Proof. unfold char_at. rewrite lookup_app_r by lia. by replace (length u + i - length u)%nat with i by lia. Qed.

(** ** Occurrences *)

Section Remove.
Context (Argument : list Z) (Hne : Argument ≠ []).

Definition occurs (s : list Z) (j : nat) : Prop := Argument `prefix_of` drop j s.

Lemma arg_pos : (0 < length Argument)%nat.
Proof. destruct Argument; [done|]. simpl. lia. Qed.

Lemma occurs_length s j : occurs s j → (j + length Argument ≤ length s)%nat.
Proof.
  intros Hp%prefix_length. rewrite length_drop in Hp. pose proof arg_pos. lia.
Qed.

Lemma strstr_spec s :
  match AsciiStrStr s Argument with
  | Some i => occurs s i ∧ ∀ j, (j < i)%nat → ¬ occurs s j
  | None => ∀ j, ¬ occurs s j
  end.
Proof.
  induction s as [|c s IH].
  - assert (AsciiStrStr [] Argument = None) as -> by (by destruct Argument).
    intros j Ho%occurs_length. pose proof arg_pos. simpl in Ho. lia.
  - assert (AsciiStrStr (c :: s) Argument = if bool_decide (Argument `prefix_of` c :: s) then Some 0%nat
      else if bool_decide (c :: s `prefix_of` Argument) then None else S <$> AsciiStrStr s Argument) as ->
      by (by destruct Argument).
    case_bool_decide as H0; [split; [done|lia]|]. case_bool_decide as H1.
    + intros j Ho. apply H0. pose proof (occurs_length _ _ Ho). pose proof (prefix_length _ _ H1) as Hl. simpl length in *.
      destruct j; [done|lia].
    + destruct (AsciiStrStr s Argument) as [i|]; cbn [fmap option_fmap option_map].
      * destruct IH as [Ho Hf]. split; [done|]. intros [|j] Hj; [done|]. apply (Hf j). lia.
      * intros [|j]; [done|]. apply IH.
Qed.

Lemma prefix_lookups (a t : list Z) : (∀ k c, a !! k = Some c → t !! k = Some c) → a `prefix_of` t.
Proof.
  revert t. induction a as [|x a IH]; intros t H; [by apply prefix_nil|].
  pose proof (H 0%nat x eq_refl) as H0. destruct t as [|y t]; [done|]. injection H0 as ->.
  apply prefix_cons, IH. intros k c Hk. by apply (H (S k)).
Qed.

Lemma occurs_lookups s j : occurs s j ↔ ∀ k c, Argument !! k = Some c → s !! (j + k)%nat = Some c.
Proof.
  split.
  - intros Hp k c Hk. rewrite <- lookup_drop. by eapply prefix_lookup_Some.
  - intros H. apply prefix_lookups. intros k c Hk. rewrite lookup_drop. by apply H.
Qed.

Context (Hns : no_space Argument).

(** [t] is [s] with some characters overwritten by spaces. *)
Definition blanked (s t : list Z) : Prop := Forall2 (λ a b, b = a ∨ b = SPACE) s t.

Lemma blanked_refl s : blanked s s.
Proof. induction s; constructor; auto. Qed.

Lemma blanked_trans s t u : blanked s t → blanked t u → blanked s u.
Proof.
  intros H. revert u. induction H as [|a b s t Hab H IH]; intros u Hu; inversion_clear Hu as [|? c ? v Hbc Hv]; constructor.
  - destruct Hab as [->| ->], Hbc as [->| ->]; auto.
  - by apply IH.
Qed.

Lemma blank_word_blanked s : blanked s (blank_word s).
Proof.
  induction s as [|c s IH]; simpl; [constructor|]. destruct (c =? SPACE); [apply blanked_refl|]. constructor; [auto|apply IH].
Qed.

Lemma blanked_occurs s t j : blanked s t → occurs t j → occurs s j.
Proof.
  intros Hb. rewrite !occurs_lookups. intros Ho k c Hk. specialize (Ho k c Hk).
  destruct (Forall2_lookup_r _ _ _ _ _ Hb Ho) as (a & Ha & [->|E]); [done|].
  destruct (Forall_lookup_1 _ _ _ _ Hns Hk). done.
Qed.

(** Every occurrence starts a word. *)
Definition at_words (s : list Z) : Prop := ∀ j, occurs s j → j = 0%nat ∨ char_at s (j - 1) = SPACE.

Lemma blanked_at_words s t : blanked s t → at_words s → at_words t.
Proof.
  intros Hb Hs j Ho. pose proof (blanked_occurs _ _ _ Hb Ho) as Ho'. destruct (Hs j Ho') as [->|Hc]; [by left|right].
  unfold char_at in *. destruct (s !! (j - 1)%nat) as [c|] eqn:E; [|done]. simpl in Hc. subst c.
  destruct (Forall2_lookup_l _ _ _ _ _ Hb E) as (b & -> & [->| ->]); done.
Qed.

(** The word at the head of a string. *)
Lemma word_split s : ∃ w q, s = w ++ q ∧ no_space w ∧ (q = [] ∨ ∃ q', q = SPACE :: q') ∧
  blank_word s = replicate (length w) SPACE ++ q.
Proof.
  induction s as [|c s (w & q & -> & Hw & Hq & E)]; [exists [], []; split; [done|]; split; [constructor|]; split; [by left|done]|]. cbn [blank_word].
  destruct (Z.eqb_spec c SPACE) as [->|].
  - exists [], (SPACE :: w ++ q). split; [done|]. split; [constructor|]. split; [right; by eexists|done].
  - exists (c :: w), q. split; [done|]. split; [by constructor|]. split; [done|]. by rewrite E.
Qed.

Definition others (ws : list (list Z)) : list (list Z) := filter (λ w, ¬ Argument `prefix_of` w) ws.

Definition letters (s : list Z) : nat := length (filter (λ c, c ≠ SPACE) s).

Lemma letters_spaces n : letters (replicate n SPACE) = 0%nat.
Proof.
  unfold letters. rewrite list_filter_none; [done|]. intros c [-> _]%elem_of_replicate Hc. by apply Hc.
Qed.

(** A word that ends before a space or at the end. *)
Lemma words_from_end w q : (q = [] ∨ ∃ q', q = SPACE :: q') → words_from w q = flush w ++ words q.
Proof. intros [->|[q' ->]]; simpl; [by rewrite app_nil_r|done]. Qed.

Lemma prefix_word a w q : no_space a → (q = [] ∨ ∃ q', q = SPACE :: q') → a `prefix_of` w ++ q → a `prefix_of` w.
Proof.
  intros Ha Hq. revert w. induction Ha as [|x a Hx Ha IH]; intros w Hp; [apply prefix_nil|].
  destruct w as [|y w]; simpl in Hp.
  - destruct Hq as [->|[q' ->]]; [by apply prefix_nil_inv in Hp|]. by apply prefix_cons_inv_1 in Hp.
  - pose proof (prefix_cons_inv_1 _ _ _ _ Hp) as ->. apply prefix_cons, IH. by eapply prefix_cons_inv_2.
Qed.

(** Overwriting one match: a word that starts with the argument disappears. *)
Lemma blank_step s i : occurs s i → i = 0%nat ∨ char_at s (i - 1) = SPACE →
  let t := take i s ++ blank_word (drop i s) in
  blanked s t ∧ others (words t) = others (words s) ∧ (letters t < letters s)%nat.
Proof.
  intros Ho Hb. destruct (word_split (drop i s)) as (w & q & Es & Hw & Hq & ->).
  assert (Argument `prefix_of` w) as Hp.
  { unfold occurs in Ho. rewrite Es in Ho. by apply (prefix_word _ w q). }
  assert (w ≠ []) as Hwne. { intros ->. by apply prefix_nil_inv in Hp. }
  assert (Hflush : flush w = [w]) by (by destruct w).
  split; [|split].
  - rewrite <- (take_drop i s) at 1. apply Forall2_app; [apply blanked_refl|]. rewrite Es.
    apply Forall2_app; [|apply blanked_refl]. clear. induction w; constructor; auto.
  - assert (∀ r, words (take i s ++ r) = words (take i s) ++ words r) as Hsplit.
    { intros r. destruct Hb as [->|Hc]; [done|]. destruct i as [|i]; [done|]. simpl in Hc. rewrite Nat.sub_0_r in Hc.
      unfold char_at in Hc. destruct (s !! i) as [c|] eqn:Ei; [|done]. simpl in Hc. subst c.
      rewrite (take_S_r _ _ _ Ei), <- app_assoc. unfold words at 1 2. cbn [app]. rewrite !words_from_space. by rewrite app_nil_r. }
    rewrite Hsplit, words_spaces. rewrite <- (take_drop i s) at 2. rewrite Hsplit, Es.
    unfold words at 4. rewrite words_from_word by done. cbn [app]. rewrite words_from_end, Hflush by done.
    unfold others. rewrite !filter_app, filter_cons_False by naive_solver. done.
  - rewrite <- (take_drop i s) at 2. rewrite Es. unfold letters. rewrite !filter_app, !length_app.
    fold (letters (replicate (length w) SPACE)). rewrite letters_spaces. rewrite (list_filter_all _ w).
    + destruct w; [done|]. simpl. lia.
    + intros c Hc. by eapply Forall_forall in Hw.
Qed.

Lemma blank_matches_ok fuel : ∀ s, at_words s → (letters s < fuel)%nat →
  ∃ t, blank_matches fuel s Argument = Some t ∧ blanked s t ∧ (∀ j, ¬ occurs t j) ∧ others (words t) = others (words s).
Proof.
  induction fuel as [|fuel IH]; intros s Hs Hf; [lia|]. cbn [blank_matches].
  pose proof (strstr_spec s) as Hspec. destruct (AsciiStrStr s Argument) as [i|].
  - destruct Hspec as [Ho _]. pose proof (Hs i Ho) as Hb. destruct (blank_step s i Ho Hb) as (H1 & H2 & H3).
    assert ((i =? 0)%nat || (char_at s (i - 1) =? SPACE) = true) as ->.
    { destruct Hb as [->| ->]; [done|]. by rewrite orb_true_r. }
    destruct (IH (take i s ++ blank_word (drop i s))) as (t & E & Hb' & Hn & Ht);
      [by eapply blanked_at_words|lia|].
    exists t. split; [done|]. split; [|split; [done|congruence]].
    by eapply blanked_trans.
  - exists s. split; [done|]. split; [apply blanked_refl|done].
Qed.

(** When nothing matches, the other words are all the words. *)
Lemma others_all s : (∀ j, ¬ occurs s j) → others (words s) = words s.
Proof.
  intros Hn. apply list_filter_all. intros w (p & q & ->)%words_occurs [r ->]. apply (Hn (length p)).
  unfold occurs. rewrite drop_app_length, <- app_assoc. by eexists.
Qed.
End Remove.

(** ** Squeezing *)

Lemma skip_spaces_words s : words (skip_spaces s) = words s.
Proof. induction s as [|c s IH]; [done|]. simpl. destruct (Z.eqb_spec c SPACE) as [->|]; done. Qed.

Lemma squeeze_words s : ∀ w, words_from w (squeeze s) = words_from w s.
Proof.
  induction s as [|c s IH]; intros w; [done|]. cbn [squeeze].
  destruct (Z.eqb_spec c SPACE) as [->|]; cbn [andb]; [|cbn [words_from]; destruct (c =? SPACE); by rewrite IH].
  destruct (Z.eqb_spec (char_at s 0) SPACE) as [E|]; [|simpl; by rewrite IH].
  destruct s as [|d s]; [done|]. unfold char_at in E. simpl in E. subst d. rewrite IH. simpl. done.
Qed.

Lemma skip_spaces_sublist s : skip_spaces s `sublist_of` s.
Proof. induction s as [|c s IH]; simpl; [done|]. destruct (c =? SPACE); [by apply sublist_cons|done]. Qed.

Lemma squeeze_sublist s : squeeze s `sublist_of` s.
Proof.
  induction s as [|c s IH]; cbn [squeeze]; [done|]. destruct (_ && _); [by apply sublist_cons|by apply sublist_skip].
Qed.

Lemma length_letters s : (letters s ≤ length s)%nat.
Proof. apply length_filter. Qed.

(** Removal on the string and on the buffer. *)
Lemma remove_ok Argument fuel buf s :
  string_of buf = Some s → Argument ≠ [] → no_space Argument → at_words Argument s → (length s < fuel)%nat →
  ∃ buf' s', RemoveArgumentFromCommandLine fuel buf Argument = Some buf' ∧ length buf' = length buf ∧
    string_of buf' = Some s' ∧ words s' = others Argument (words s) ∧ (length s' ≤ length s)%nat.
Proof.
  intros Hs Hne Hns Hw Hf. destruct (string_of_Some _ _ Hs) as [Hnz [r Hr]].
  destruct (blank_matches_ok Argument Hne Hns fuel s Hw) as (t & E & Hb & Hn & Ht); [pose proof (length_letters s); lia|].
  unfold RemoveArgumentFromCommandLine. rewrite Hs. cbn [mbind option_bind]. rewrite E. cbn [mbind option_bind].
  set (u := squeeze (skip_spaces t)).
  assert (u `sublist_of` t) as Hu by (etransitivity; [apply squeeze_sublist|apply skip_spaces_sublist]).
  assert (Forall (λ c, c ≠ 0) u) as Hnz'.
  { apply Forall_forall. intros c Hc. pose proof (elem_of_sublist _ _ _ Hc Hu) as [i Hi]%list_elem_of_lookup.
    destruct (Forall2_lookup_r _ _ _ _ _ Hb Hi) as (a & Ha & [->| ->]); [|done].
    apply (Forall_lookup_1 _ _ _ _ Hnz Ha). }
  pose proof (sublist_length _ _ Hu) as Hlu. rewrite <- (Forall2_length _ _ _ Hb) in Hlu.
  assert (∃ r', u ++ replicate (length s - length u) 0 ++ drop (length s) buf = u ++ 0 :: r') as [r' Er].
  { rewrite Hr, drop_app_length. destruct (length s - length u)%nat; by eexists. }
  eexists _, u. split; [reflexivity|]. split; [|split; [rewrite Er; by apply string_of_app|split; [|done]]].
  - rewrite !length_app, length_replicate, length_drop, Hr, length_app. simpl. lia.
  - transitivity (words (skip_spaces t)); [apply squeeze_words|]. rewrite skip_spaces_words, <- Ht.
    by rewrite others_all.
Qed.

Lemma append_ok buf s Argument : string_of buf = Some s → length buf = BOOT_LINE_LENGTH → Forall (λ c, c ≠ 0) Argument →
  let line := (if (0 <? length s)%nat then s ++ [SPACE] else []) ++ Argument in
  ∃ b buf', AppendArgumentToCommandLine buf Argument (length Argument) = Some (b, buf') ∧ length buf' = BOOT_LINE_LENGTH ∧
    if b then string_of buf' = Some line else buf' = buf ∧ (BOOT_LINE_LENGTH ≤ length line)%nat.
Proof.
  intros Hs Hl Ha line. destruct (string_of_Some _ _ Hs) as [Hnz [r Hr]]. unfold AppendArgumentToCommandLine.
  rewrite Hs. cbn [mbind option_bind]. rewrite firstn_all.
  assert (length line = length s + (if (0 <? length s)%nat then 1 else 0) + length Argument)%nat as Hline.
  { unfold line. destruct s; [done|]. simpl. rewrite !length_app. simpl. lia. }
  rewrite <- Hline. destruct (Nat.leb_spec BOOT_LINE_LENGTH (length line)); [by eexists false, buf|].
  rewrite app_assoc. fold line. rewrite (length_app line). simpl length.
  destruct (Nat.leb_spec (length line + 1) (length buf)); [|lia].
  eexists true, _. split; [reflexivity|]. split.
  - rewrite !length_app, length_drop. simpl. lia.
  - rewrite <- app_assoc. apply string_of_app. unfold line. apply Forall_app. split; [|done].
    destruct (0 <? length s)%nat; [|constructor]. apply Forall_app. split; [done|]. by repeat constructor.
Qed.

(** Occurrences do not span a space. *)
Lemma at_words_app Argument s t : Argument ≠ [] → no_space Argument → at_words Argument s → at_words Argument t →
  at_words Argument (s ++ SPACE :: t).
Proof.
  intros Hne Hns Hs Ht j Ho. destruct (decide (j < length s)%nat) as [Hj|Hj].
  - assert (occurs Argument s j) as Ho'.
    { unfold occurs in *. rewrite drop_app_le in Ho by lia. eapply prefix_word; [done| |exact Ho]. right. by eexists. }
    destruct (Hs j Ho') as [->|Hc]; [by left|right]. unfold char_at in *. by rewrite lookup_app_l by lia.
  - right. unfold occurs in Ho. rewrite drop_app_ge in Ho by lia.
    destruct (j - length s)%nat as [|k] eqn:Ek.
    { exfalso. simpl in Ho. destruct Argument as [|x a]; [done|]. apply prefix_cons_inv_1 in Ho as ->.
      apply Forall_cons in Hns as [? _]. done. }
    destruct (Ht k Ho) as [->|Hc].
    + replace (j - 1)%nat with (length s + 0)%nat by lia. by rewrite char_at_app_r.
    + destruct k as [|k].
      * replace (j - 1)%nat with (length s + 0)%nat by lia. by rewrite char_at_app_r.
      * replace (j - 1)%nat with (length s + S k)%nat by lia. rewrite char_at_app_r.
        simpl in Hc. by rewrite Nat.sub_0_r in Hc.
Qed.

(** ** Theorems *)

(** C35. [RemoveArgumentFromCommandLine] ends and removes from the command line
    exactly the words that start with the argument, in place and keeping the order of
    the others, when the argument occurs only at the start of words. *)
Theorem remove_argument_words Argument buf s :
  string_of buf = Some s → Argument ≠ [] → no_space Argument → at_words Argument s →
  ∃ buf' s', RemoveArgumentFromCommandLine (S (length s)) buf Argument = Some buf' ∧ length buf' = length buf ∧
    string_of buf' = Some s' ∧ words s' = others Argument (words s).
Proof.
  intros Hs Hne Hns Hw. destruct (remove_ok Argument (S (length s)) buf s Hs Hne Hns Hw) as (b & s' & ? & ? & ? & ? & _); [lia|].
  by exists b, s'.
Qed.

(** When the first occurrence of the argument is inside a word,
    [RemoveArgumentFromCommandLine] does not end. *)
Theorem remove_argument_hangs Argument buf s i :
  string_of buf = Some s → AsciiStrStr s Argument = Some i → i ≠ 0%nat → char_at s (i - 1) ≠ SPACE →
  ∀ fuel, RemoveArgumentFromCommandLine fuel buf Argument = None.
Proof.
  intros Hs Hi Hi0 Hc fuel. unfold RemoveArgumentFromCommandLine. rewrite Hs. cbn [mbind option_bind].
  assert (blank_matches fuel s Argument = None) as ->; [|done].
  induction fuel as [|fuel IH]; [done|]. cbn [blank_matches]. rewrite Hi.
  destruct (Nat.eqb_spec i 0); [done|]. destruct (Z.eqb_spec (char_at s (i - 1)) SPACE); [done|]. exact IH.
Qed.

(** Hiding the slide restores the command line: appending an argument whose words
    all start with a key and removing that key leaves the words that were there
    before, if none of them contains the key.  Appending fails without a change
    exactly when the line would not fit the 1024 bytes. *)
Theorem append_then_remove key Argument buf s :
  string_of buf = Some s → length buf = BOOT_LINE_LENGTH → key ≠ [] → no_space key → Forall (λ c, c ≠ 0) Argument →
  (∀ j, ¬ occurs key s j) → at_words key Argument → others key (words Argument) = [] →
  ∃ b buf', AppendArgumentToCommandLine buf Argument (length Argument) = Some (b, buf') ∧
    if b then ∃ buf'' s', RemoveArgumentFromCommandLine BOOT_LINE_LENGTH buf' key = Some buf'' ∧
      length buf'' = BOOT_LINE_LENGTH ∧ string_of buf'' = Some s' ∧ words s' = words s
    else buf' = buf ∧ (BOOT_LINE_LENGTH ≤ length s + 1 + length Argument)%nat.
Proof.
  intros Hs Hl Hne Hns Hnz Hn Ha Ho. destruct (append_ok buf s Argument Hs Hl Hnz) as (b & buf' & E & Hl' & Hb).
  exists b, buf'. split; [done|]. destruct b.
  2: { destruct Hb as [-> Hb]. split; [done|]. rewrite length_app in Hb. destruct s; simpl in *; rewrite ?length_app in Hb; simpl in Hb; lia. }
  set (line := (if (0 <? length s)%nat then s ++ [SPACE] else []) ++ Argument) in *.
  assert (at_words key line ∧ others key (words line) = words s) as [Hw Hws].
  { unfold line. destruct s as [|c s']; [by split|]. cbn [length Nat.ltb Nat.leb]. rewrite <- app_assoc. split.
    - apply at_words_app; [done|done| |done]. intros j Hj. by destruct (Hn j).
    - transitivity (others key (words (c :: s') ++ words Argument)); [exact (f_equal (others key) (words_from_space [] (c :: s') Argument))|].
      unfold others in *. rewrite filter_app, Ho, app_nil_r. by apply others_all. }
  destruct (string_of_Some _ _ Hb) as [_ [r Hr]]. pose proof (f_equal length Hr) as Hlen. rewrite length_app in Hlen. simpl in Hlen.
  destruct (remove_ok key BOOT_LINE_LENGTH buf' line Hb Hne Hns Hw) as (b2 & s2 & E2 & L2 & S2 & W2 & _); [lia|].
  exists b2, s2. split; [done|]. split; [congruence|]. split; [done|]. congruence.
Qed.

(** The command line of the examples. *)
Definition line_buf (s : string) : list Z :=
  str_bytes s ++ replicate (BOOT_LINE_LENGTH - String.length s) 0.

(** Every occurrence in a given line can be checked. *)
Lemma at_words_check Argument s : Argument ≠ [] →
  forallb (λ j, negb (bool_decide (Argument `prefix_of` drop j s)) || (j =? 0)%nat || (char_at s (j - 1) =? SPACE))
    (seq 0 (length s)) = true → at_words Argument s.
Proof.
  intros Hne Hf j Ho. rewrite forallb_forall in Hf.
  pose proof (occurs_length Argument Hne s j Ho) as Hl. pose proof (arg_pos Argument Hne).
  specialize (Hf j ltac:(apply in_seq; lia)). unfold occurs in Ho.
  rewrite (bool_decide_true _ Ho) in Hf. simpl in Hf.
  destruct (Nat.eqb_spec j 0); [by left|right]. by apply Z.eqb_eq.
Qed.

Lemma remove_argument_words_witness :
  ∃ buf' s', RemoveArgumentFromCommandLine 18 (line_buf "-v slide=12 dart=0") (str_bytes "slide=") = Some buf' ∧
    length buf' = BOOT_LINE_LENGTH ∧ string_of buf' = Some s' ∧ words s' = [str_bytes "-v"; str_bytes "dart=0"].
Proof.
  destruct (remove_argument_words (str_bytes "slide=") (line_buf "-v slide=12 dart=0") (str_bytes "-v slide=12 dart=0"))
    as (b & s & H1 & H2 & H3 & H4).
  - vm_compute. reflexivity.
  - done.
  - repeat constructor; done.
  - apply at_words_check; vm_compute; done.
  - exists b, s. split; [|split; [|split; [|]]].
    + vm_compute in H1 |- *. exact H1.
    + rewrite H2. vm_compute. reflexivity.
    + exact H3.
    + rewrite H4. vm_compute. reflexivity.
Defined.

Lemma remove_argument_hangs_witness :
  RemoveArgumentFromCommandLine 100000 (line_buf "-v kext-slide=12") (str_bytes "slide=") = None.
Proof.
  refine (remove_argument_hangs (str_bytes "slide=") (line_buf "-v kext-slide=12") (str_bytes "-v kext-slide=12") 8 _ _ _ _ 100000);
    vm_compute; done.
Defined.

Lemma append_then_remove_witness :
  ∃ b buf', AppendArgumentToCommandLine (line_buf "-v dart=0") (str_bytes "slide=7  ") 9 = Some (b, buf') ∧
    if b then ∃ buf'' s', RemoveArgumentFromCommandLine BOOT_LINE_LENGTH buf' (str_bytes "slide=") = Some buf'' ∧
      length buf'' = BOOT_LINE_LENGTH ∧ string_of buf'' = Some s' ∧ words s' = words (str_bytes "-v dart=0")
    else buf' = line_buf "-v dart=0" ∧ (BOOT_LINE_LENGTH ≤ 9 + 1 + 9)%nat.
Proof.
  refine (append_then_remove (str_bytes "slide=") (str_bytes "slide=7  ") (line_buf "-v dart=0") (str_bytes "-v dart=0") _ _ _ _ _ _ _ _).
  - vm_compute. reflexivity.
  - vm_compute. reflexivity.
  - done.
  - repeat constructor; done.
  - repeat constructor; done.
  - pose proof (strstr_spec (str_bytes "slide=") ltac:(done) (str_bytes "-v dart=0")) as H. exact H.
  - apply at_words_check; vm_compute; done.
  - vm_compute. reflexivity.
Defined.
