(* ===== verification/CustomSlide.v ===== *)
(** * AptioMemoryFix: choosing the kernel's slide (CustomSlide.c)

    The statics of the file are a state record; the operations that use them are
    computations on it.  The variable service of the firmware, the processor's
    signature and the sources of random numbers are parameters. *)

From Stdlib Require Import ZArith Lia.
From stdpp Require Import base list list_numbers gmap strings.
From S2P Require Import Prelude MemoryMap MemoryAlloc BootArgs.

Open Scope Z_scope.

Definition BASE_KERNEL_ADDR : Z := 0x100000.
Definition SLIDE_GRANULARITY : Z := 0x200000.
Definition TOTAL_SLIDE_NUM : nat := 256.
Definition APTIOFIX_SPECULATED_KERNEL_SIZE : Z := 0x18000000.
Definition CSR_ALLOW_UNRESTRICTED_NVRAM : Z := Z.shiftl 1 6.

(** ** State *)

Record Slides := {
  mStoredBootArgsVarSet : bool; mStoredBootArgsVarSize : Z; mStoredBootArgsVar : list Z;
  mAnalyzeMemoryMapDone : bool;
  mCsrActiveConfigSet : bool; mCsrActiveConfig : Z;
  mValidSlides : list Z; mValidSlidesNum : nat;
  mSandyOrIvy : bool; mSandyOrIvySet : bool
}.

Definition slides_init : Slides := {|
  mStoredBootArgsVarSet := false; mStoredBootArgsVarSize := 0; mStoredBootArgsVar := replicate BOOT_LINE_LENGTH 0;
  mAnalyzeMemoryMapDone := false; mCsrActiveConfigSet := false; mCsrActiveConfig := 0;
  mValidSlides := replicate TOTAL_SLIDE_NUM 0; mValidSlidesNum := TOTAL_SLIDE_NUM;
  mSandyOrIvy := false; mSandyOrIvySet := false |}.

Definition set_args (stored : bool) (size : Z) (args : list Z) (s : Slides) : Slides := {|
  mStoredBootArgsVarSet := stored; mStoredBootArgsVarSize := size; mStoredBootArgsVar := args;
  mAnalyzeMemoryMapDone := mAnalyzeMemoryMapDone s; mCsrActiveConfigSet := mCsrActiveConfigSet s;
  mCsrActiveConfig := mCsrActiveConfig s; mValidSlides := mValidSlides s; mValidSlidesNum := mValidSlidesNum s;
  mSandyOrIvy := mSandyOrIvy s; mSandyOrIvySet := mSandyOrIvySet s |}.

Definition set_done (s : Slides) : Slides := {|
  mStoredBootArgsVarSet := mStoredBootArgsVarSet s; mStoredBootArgsVarSize := mStoredBootArgsVarSize s;
  mStoredBootArgsVar := mStoredBootArgsVar s; mAnalyzeMemoryMapDone := true;
  mCsrActiveConfigSet := mCsrActiveConfigSet s; mCsrActiveConfig := mCsrActiveConfig s;
  mValidSlides := mValidSlides s; mValidSlidesNum := mValidSlidesNum s;
  mSandyOrIvy := mSandyOrIvy s; mSandyOrIvySet := mSandyOrIvySet s |}.

Definition set_csr (c : Z) (s : Slides) : Slides := {|
  mStoredBootArgsVarSet := mStoredBootArgsVarSet s; mStoredBootArgsVarSize := mStoredBootArgsVarSize s;
  mStoredBootArgsVar := mStoredBootArgsVar s; mAnalyzeMemoryMapDone := mAnalyzeMemoryMapDone s;
  mCsrActiveConfigSet := true; mCsrActiveConfig := c;
  mValidSlides := mValidSlides s; mValidSlidesNum := mValidSlidesNum s;
  mSandyOrIvy := mSandyOrIvy s; mSandyOrIvySet := mSandyOrIvySet s |}.

Definition set_valid (l : list Z) (n : nat) (s : Slides) : Slides := {|
  mStoredBootArgsVarSet := mStoredBootArgsVarSet s; mStoredBootArgsVarSize := mStoredBootArgsVarSize s;
  mStoredBootArgsVar := mStoredBootArgsVar s; mAnalyzeMemoryMapDone := mAnalyzeMemoryMapDone s;
  mCsrActiveConfigSet := mCsrActiveConfigSet s; mCsrActiveConfig := mCsrActiveConfig s;
  mValidSlides := l; mValidSlidesNum := n;
  mSandyOrIvy := mSandyOrIvy s; mSandyOrIvySet := mSandyOrIvySet s |}.

Definition set_sandy (b : bool) (s : Slides) : Slides := {|
  mStoredBootArgsVarSet := mStoredBootArgsVarSet s; mStoredBootArgsVarSize := mStoredBootArgsVarSize s;
  mStoredBootArgsVar := mStoredBootArgsVar s; mAnalyzeMemoryMapDone := mAnalyzeMemoryMapDone s;
  mCsrActiveConfigSet := mCsrActiveConfigSet s; mCsrActiveConfig := mCsrActiveConfig s;
  mValidSlides := mValidSlides s; mValidSlidesNum := mValidSlidesNum s;
  mSandyOrIvy := b; mSandyOrIvySet := true |}.

(** [mValidSlides[mValidSlidesNum++] = v]; [None] past the end of the array. *)
Definition push_slide (v : Z) : M Slides unit := λ s,
  if (mValidSlidesNum s <? length (mValidSlides s))%nat
  then Some (tt, set_valid (<[mValidSlidesNum s := v]> (mValidSlides s)) (S (mValidSlidesNum s)) s)
  else None.

(** ** The processor *)

(** Family and model of a processor signature. *)
Definition cpu_family (eax : Z) : Z :=
  let CpuFamily := bits eax 8 4 in if CpuFamily =? 15 then CpuFamily + bits eax 20 8 else CpuFamily.
Definition cpu_model (eax : Z) : Z :=
  let CpuModel := bits eax 4 4 in
  if (cpu_family eax =? 15) || (cpu_family eax =? 6) then Z.lor CpuModel (Z.shiftl (bits eax 16 4) 4) else CpuModel.

Definition sandy_or_ivy (eax : Z) : bool :=
  (cpu_family eax =? 6) && ((cpu_model eax =? 0x2A) || (cpu_model eax =? 0x3A)).

Section Slide.
(** EAX of [CPUID (1)]. *)
Context (eax : Z).

Definition IsSandyOrIvy : M Slides bool :=
  is_set ← gets mSandyOrIvySet;
  (if is_set : bool then mret tt else modify (set_sandy (sandy_or_ivy eax)));;
  gets mSandyOrIvy.

(** The kernel's region for a slide. *)
Definition GetSlideRangeForValue (Slide : Z) : M Slides (Z * Z) :=
  let StartAddr := wrap64 (Slide * SLIDE_GRANULARITY + BASE_KERNEL_ADDR) in
  sandy ← (if 0x80 <=? Slide then IsSandyOrIvy else mret false);
  let StartAddr := if sandy : bool then wrap64 (StartAddr + 0x10200000) else StartAddr in
  mret (StartAddr, wrap64 (StartAddr + APTIOFIX_SPECULATED_KERNEL_SIZE)).

Definition OverlapsWithSlide (Address Size : Z) : M Slides bool :=
  SandyOrIvy ← IsSandyOrIvy;
  let Slide := if SandyOrIvy : bool then 0x7F else 0xFF in
  let Start := BASE_KERNEL_ADDR in
  let End := wrap64 (Start + Slide * SLIDE_GRANULARITY + APTIOFIX_SPECULATED_KERNEL_SIZE) in
  if (Address <=? End) && (Start <=? wrap64 (Address + Size)) then mret true
  else if SandyOrIvy : bool then
    let Start := 0x80 * SLIDE_GRANULARITY + BASE_KERNEL_ADDR + 0x10200000 in
    let End := wrap64 (Start + Slide * SLIDE_GRANULARITY + APTIOFIX_SPECULATED_KERNEL_SIZE) in
    mret ((Address <=? End) && (Start <=? wrap64 (Address + Size)))
  else mret false.

(** ** The slides that can be used *)

(** The inner loop: Supported and AvailableSize. *)
Fixpoint slide_available (StartAddr EndAddr AvailableSize : Z) (l : list EFI_MEMORY_DESCRIPTOR) : bool * Z :=
  match l with
  | [] => (true, AvailableSize)
  | Desc :: l =>
      let Bytes := EFI_PAGES_TO_SIZE (NumberOfPages Desc) in
      let DescEndAddr := wrap64 (PhysicalStart Desc + Bytes) in
      if (PhysicalStart Desc <? EndAddr) && (StartAddr <? DescEndAddr) then
        if negb (Type_ Desc =? ConventionalMemory) then (false, AvailableSize)
        else
          let a := wrap64 (AvailableSize + Bytes) in
          let a := if PhysicalStart Desc <? StartAddr then wrap64 (a - (StartAddr - PhysicalStart Desc)) else a in
          let a := if EndAddr <? DescEndAddr then wrap64 (a - (DescEndAddr - EndAddr)) else a in
          slide_available StartAddr EndAddr a l
      else slide_available StartAddr EndAddr AvailableSize l
  end.

(** The outer loop: MaxAvailableSize and FallbackSlide. *)
Fixpoint slides_loop (map : list EFI_MEMORY_DESCRIPTOR) (slides : list Z) (best : Z * Z) : M Slides (Z * Z) :=
  match slides with
  | [] => mret best
  | Slide :: slides =>
      range ← GetSlideRangeForValue Slide;
      let '(StartAddr, EndAddr) := range in
      let '(Supported, AvailableSize) := slide_available StartAddr EndAddr 0 map in
      let best := if best.1 <? AvailableSize then (AvailableSize, Slide) else best in
      let Supported := if negb (wrap64 (StartAddr + AvailableSize) =? EndAddr) then false else Supported in
      (if Supported : bool then push_slide Slide else mret tt);;
      slides_loop map slides best
  end.

(** The analysis of a memory map. *)
Definition analyze_slides (map : list EFI_MEMORY_DESCRIPTOR) : M Slides unit :=
  modify (λ s, set_valid (mValidSlides s) 0 s);;
  best ← slides_loop map (seqZ 0 256) (0, 0);
  n ← gets mValidSlidesNum;
  if (n =? TOTAL_SLIDE_NUM)%nat then mret tt
  else if (n =? 0)%nat then push_slide best.2
  else mret tt.

(** With the firmware: the map is read into pages from the top and freed. *)
Definition DecideOnCustomSlideImplementation {F} `{Firmware F} (fuel : nat) (sf : Slides * F) : option (Slides * F) :=
  let '(s, f) := sf in
  r ← GetMemoryMapAlloc (get_top fuel) put_top fuel f;
  let '(r, f) := r in
  if bool_decide (mr_status r = EFI_SUCCESS) then
    b ← mr_buffer r;
    r' ← analyze_slides (mr_map r) s;
    Some (r'.2, FreePages b (EFI_SIZE_TO_PAGES (mr_asked r)) f)
  else Some (s, f).

(** ** A random slide *)

(** One attempt: the random number, if the instruction is there and succeeds, and the
    time stamp counter. *)
Definition slide_attempt (a : option Z * Z) : Z :=
  let '(rdrand, tsc) := a in
  let Clock := wrap32 tsc in
  let mixed := Z.lxor (Z.land Clock 0xFF) (Z.land (Z.shiftr Clock 8) 0xFF) in
  match rdrand with
  | Some Value => if wrap8 Value =? 0 then mixed else wrap8 Value
  | None => mixed
  end.

(** The attempts are given; [None] when they do not suffice. *)
Fixpoint first_nonzero (attempts : list (option Z * Z)) : option Z :=
  match attempts with
  | [] => None
  | a :: attempts => if slide_attempt a =? 0 then first_nonzero attempts else Some (slide_attempt a)
  end.

(** [None] also for a division by zero. *)
Definition GenerateRandomSlideValue (attempts : list (option Z * Z)) : M Slides Z := λ s,
  Slide ← first_nonzero attempts;
  if (mValidSlidesNum s =? 0)%nat then None
  else v ← mValidSlides s !! Z.to_nat (Slide mod Z.of_nat (mValidSlidesNum s)); Some (v, s).

(** ** The variables that boot.efi reads *)

(** The result of reading a variable: the status, the attributes if they were
    written, the size, and the caller's buffer. *)
Record VarResult := { vr_status : EFI_STATUS; vr_attrs : option Z; vr_size : Z; vr_data : list Z }.

(** The service of the firmware: the name, the GUID, the size and the contents of the
    buffer. *)
Context (OrgGetVariable : list Z → list Z → Z → list Z → VarResult).
Context (gEfiAppleBootGuid : list Z).

Definition L_csr_active_config : list Z := str_bytes "csr-active-config".
Definition L_boot_args : list Z := str_bytes "boot-args".

(** BOOTSERVICE_ACCESS, RUNTIME_ACCESS and NON_VOLATILE. *)
Definition boot_attributes : Z := 7.

(** A buffer of [None] is NULL. *)
Definition GetVariableCsrActiveConfig (DataSize : Z) (Data : option (list Z)) : M Slides VarResult :=
  match Data with
  | None => mret {| vr_status := EFI_BUFFER_TOO_SMALL; vr_attrs := None; vr_size := 4; vr_data := [] |}
  | Some buf =>
      if DataSize <? 4 then mret {| vr_status := EFI_BUFFER_TOO_SMALL; vr_attrs := None; vr_size := 4; vr_data := buf |}
      else
        let r := OrgGetVariable L_csr_active_config gEfiAppleBootGuid DataSize buf in
        let r := if EFI_ERROR (vr_status r)
                 then {| vr_status := EFI_SUCCESS; vr_attrs := Some boot_attributes; vr_size := vr_size r;
                         vr_data := store 0 (le_put 4 0) (vr_data r) |}
                 else r in
        let Config := load 4 0 (vr_data r) in
        modify (set_csr Config);;
        mret {| vr_status := vr_status r; vr_attrs := vr_attrs r; vr_size := vr_size r;
                vr_data := store 0 (le_put 4 (Z.lor Config CSR_ALLOW_UNRESTRICTED_NVRAM)) (vr_data r) |}
  end.

(** The decimal digits of a byte, and [slide=%-03d]. *)
Definition digits (v : Z) : list Z :=
  if v <? 10 then [48 + v]
  else if v <? 100 then [48 + v / 10; 48 + v mod 10]
  else [48 + v / 100; 48 + v / 10 mod 10; 48 + v mod 10].

Definition slide_argument (Slide : Z) : list Z :=
  str_bytes "slide=" ++ digits Slide ++ replicate (3 - length (digits Slide)) SPACE.

(** The stored boot-args with the slide, made on the first call. *)
Definition make_boot_args (attempts : list (option Z * Z)) : M Slides unit :=
  Slide ← GenerateRandomSlideValue attempts;
  args ← gets mStoredBootArgsVar;
  let r := OrgGetVariable L_boot_args gEfiAppleBootGuid (Z.of_nat BOOT_LINE_LENGTH) args in
  let args := if EFI_ERROR (vr_status r) then <[0%nat := 0]> (vr_data r) else vr_data r in
  match AppendArgumentToCommandLine args (slide_argument Slide) 9 with
  | None => undef
  | Some (ok, args') =>
      let args' := if ok : bool then args' else slide_argument Slide ++ 0 :: drop 10 args' in
      match string_of args' with
      | None => undef
      | Some line => modify (set_args true (Z.of_nat (length line) + 1) args')
      end
  end.

Definition GetVariableBootArgs (attempts : list (option Z * Z)) (DataSize : Z) (Data : option (list Z)) : M Slides VarResult :=
  is_set ← gets mStoredBootArgsVarSet;
  (if is_set : bool then mret tt else make_boot_args attempts);;
  size ← gets mStoredBootArgsVarSize;
  args ← gets mStoredBootArgsVar;
  mret match Data with
  | Some buf =>
      if size <=? DataSize
      then {| vr_status := EFI_SUCCESS; vr_attrs := Some boot_attributes; vr_size := size;
              vr_data := store 0 (take (Z.to_nat size) args) buf |}
      else {| vr_status := EFI_BUFFER_TOO_SMALL; vr_attrs := Some boot_attributes; vr_size := size; vr_data := buf |}
  | None => {| vr_status := EFI_BUFFER_TOO_SMALL; vr_attrs := Some boot_attributes; vr_size := size; vr_data := [] |}
  end.

(** The override; names, GUID and size are not NULL. *)
Definition GetVariableCustomSlide {F} `{Firmware F} (fuel : nat) (gMacOSBootNestedCount : Z) (gSlideArgPresent : bool)
    (attempts : list (option Z * Z)) (VariableName VendorGuid : list Z) (DataSize : Z) (Data : option (list Z))
    (sf : Slides * F) : option (VarResult * (Slides * F)) :=
  let org := OrgGetVariable VariableName VendorGuid DataSize (default [] Data) in
  if (0 <? gMacOSBootNestedCount) && bool_decide (VendorGuid = gEfiAppleBootGuid) then
    if bool_decide (VariableName = L_csr_active_config) then
      r ← GetVariableCsrActiveConfig DataSize Data sf.1;
      Some (r.1, (r.2, sf.2))
    else if bool_decide (VariableName = L_boot_args) then
      sf ← (if negb gSlideArgPresent && negb (mAnalyzeMemoryMapDone sf.1)
            then sf ← DecideOnCustomSlideImplementation fuel sf; Some (set_done sf.1, sf.2)
            else Some sf);
      if negb (mValidSlidesNum sf.1 =? TOTAL_SLIDE_NUM)%nat && (0 <? mValidSlidesNum sf.1)%nat then
        r ← GetVariableBootArgs attempts DataSize Data sf.1;
        Some (r.1, (r.2, sf.2))
      else Some (org, sf)
    else Some (org, sf)
  else Some (org, sf).

(** ** Before the kernel starts *)

(** The command line, and boot-args in the device tree if they are there; the
    remembered slides are forgotten. *)
Definition HideSlideFromOS (fuel : nat) (CommandLine : list Z) (chosen : option (list Z)) (s : Slides)
    : option (list Z * option (list Z) * Slides) :=
  CommandLine ← RemoveArgumentFromCommandLine fuel CommandLine (str_bytes "slide=");
  chosen ← (match chosen with
            | None => Some None
            | Some args => Some <$> RemoveArgumentFromCommandLine fuel args (str_bytes "slide=")
            end);
  Some (CommandLine, chosen,
        set_valid (replicate (length (mValidSlides s)) 0) 0
          (set_args (mStoredBootArgsVarSet s) 0 (replicate (length (mStoredBootArgsVar s)) 0) s)).

(** [*BA->csrActiveConfig] if the kernel's arguments have it. *)
Definition RestoreCustomSlideOverrides (fuel : nat) (csrActiveConfig : option Z) (CommandLine : list Z)
    (chosen : option (list Z)) (s : Slides) : option (option Z * (list Z * option (list Z) * Slides)) :=
  let csr := match csrActiveConfig with
             | Some c => Some (if mCsrActiveConfigSet s then mCsrActiveConfig s else c)
             | None => None
             end in
  r ← HideSlideFromOS fuel CommandLine chosen s;
  Some (csr, r).
End Slide.

(** ** Safe mode *)

Definition SearchSeqNew : list Z := [0xF6; 0xC4; 0x40; 0x75].
Definition SearchSeq : list Z := [0x01; 0x40; 0; 0].
Definition MaxDist : nat := 16.

(** [StartOff + off <= EndOff]. *)
Definition before_end (image : list Z) (off : nat) : bool := (off + 4 + MaxDist <=? length image)%nat.

Definition seq_at (image s : list Z) (off : nat) : bool := bool_decide (slice off 4 image = s).

(** The first loop: NewWay and FirstOff. *)
Fixpoint find_first (fuel : nat) (image : list Z) (FirstOff : nat) : bool * nat :=
  match fuel with
  | O => (false, FirstOff)
  | S fuel =>
      if before_end image FirstOff then
        if seq_at image SearchSeqNew FirstOff then (true, FirstOff)
        else if seq_at image SearchSeq FirstOff then (false, FirstOff)
        else find_first fuel image (S FirstOff)
      else (false, FirstOff)
  end.

(** The second loop: SecondOff. *)
Fixpoint find_second (fuel : nat) (image : list Z) (FirstOff SecondOff : nat) : nat :=
  match fuel with
  | O => SecondOff
  | S fuel =>
      if before_end image SecondOff && (SecondOff <=? FirstOff + MaxDist)%nat && negb (seq_at image SearchSeq SecondOff)
      then find_second fuel image FirstOff (S SecondOff)
      else SecondOff
  end.

(** The loop around both; [None] when the fuel runs out. *)
Fixpoint unlock_loop (fuel : nat) (image : list Z) (FirstOff : nat) : option (list Z) :=
  match fuel with
  | O => None
  | S fuel =>
      let '(NewWay, FirstOff) := find_first (S (length image)) image FirstOff in
      if negb (before_end image FirstOff) then Some image
      else if NewWay : bool then Some (store FirstOff (replicate 5 0x90) image)
      else
        let SecondOff := find_second (S MaxDist) image FirstOff (FirstOff + 4) in
        if (FirstOff + MaxDist <? SecondOff)%nat then unlock_loop fuel image (FirstOff + 4)
        else Some (store SecondOff (replicate 4 0xFF) (store FirstOff (replicate 4 0xFF) image))
  end.

Definition UnlockSlideSupportForSafeMode (image : list Z) : option (list Z) :=
  unlock_loop (S (length image)) image 0.
