(* ===== verification/SlideProofs.v ===== *)
(** * The analysis of slides: lemmas

    A slide is usable exactly if conventional memory covers the kernel's region: the
    sizes of the parts that disjoint regions have in an interval add up to its length
    exactly if they cover it. *)

From Stdlib Require Import ZArith Lia.
From stdpp Require Import base list list_numbers gmap strings.
From S2P Require Import Prelude MemoryMap MemoryAlloc BootArgs CustomSlide.

Open Scope Z_scope.

(** ** Covering an interval *)

(** No address is in two regions. *)
Fixpoint disjoint_map (l : list EFI_MEMORY_DESCRIPTOR) : Prop :=
  match l with
  | [] => True
  | D :: l => Forall (λ D', end_of D ≤ PhysicalStart D' ∨ end_of D' ≤ PhysicalStart D) l ∧ disjoint_map l
  end.

Definition overlap (S E : Z) (D : EFI_MEMORY_DESCRIPTOR) : Z := Z.max 0 (Z.min E (end_of D) - Z.max S (PhysicalStart D)).

Fixpoint cover_len (S E : Z) (l : list EFI_MEMORY_DESCRIPTOR) : Z :=
  match l with [] => 0 | D :: l => overlap S E D + cover_len S E l end.

Definition covered (S E : Z) (l : list EFI_MEMORY_DESCRIPTOR) : Prop :=
  ∀ a, S ≤ a < E → ∃ D, D ∈ l ∧ contains a D = true.

Lemma contains_spec a D : contains a D = true ↔ PhysicalStart D ≤ a < end_of D.
Proof. unfold contains. rewrite andb_true_iff, Z.leb_le, Z.ltb_lt. done. Qed.

(** Cutting out a piece that no region of the list meets. *)
Lemma cover_len_split S s e E l : S ≤ s ≤ e → e ≤ E → s < e →
  Forall (λ D, end_of D ≤ s ∨ e ≤ PhysicalStart D) l → cover_len S E l = cover_len S s l + cover_len e E l.
Proof.
  intros H1 H2 H3. induction 1 as [|D l HD Hl IH]; [done|]. cbn [cover_len]. rewrite IH. unfold overlap. lia.
Qed.

Lemma covered_split S s e E D l : S ≤ s → e ≤ E → s < e → Z.max S (PhysicalStart D) = s → Z.min E (end_of D) = e →
  covered S E (D :: l) ↔ covered S s l ∧ covered e E l.
Proof.
  intros H1 H2 H3 H4 H5. split.
  - intros H. split; intros a Ha; (destruct (H a) as (D' & HD' & Hc); [lia|]);
      (apply elem_of_cons in HD' as [->|HD']; [apply contains_spec in Hc; lia|by exists D']).
  - intros [HL HR] a Ha. destruct (decide (a < s)) as [?|?].
    + destruct (HL a) as (D' & ? & ?); [lia|]. exists D'. split; [by apply list_elem_of_further|done].
    + destruct (decide (e ≤ a)) as [?|?].
      * destruct (HR a) as (D' & ? & ?); [lia|]. exists D'. split; [by apply list_elem_of_further|done].
      * exists D. split; [apply list_elem_of_here|]. apply contains_spec. lia.
Qed.

Lemma covered_skip S E D l : overlap S E D = 0 → covered S E (D :: l) ↔ covered S E l.
Proof.
  unfold overlap. intros H0. split; intros H a Ha; destruct (H a Ha) as (D' & HD' & Hc).
  - apply elem_of_cons in HD' as [->|HD']; [apply contains_spec in Hc; lia|by exists D'].
  - exists D'. split; [by apply list_elem_of_further|done].
Qed.

Lemma cover_len_spec l : disjoint_map l → ∀ S E, S ≤ E →
  0 ≤ cover_len S E l ≤ E - S ∧ (cover_len S E l = E - S ↔ covered S E l).
Proof.
  induction l as [|D l IH]; intros Hd S E HSE; cbn [cover_len].
  - split; [lia|]. split.
    + intros ? a ?. lia.
    + intros H. destruct (decide (S = E)) as [->|]; [lia|]. destruct (H S) as (D & ?%not_elem_of_nil & _); [lia|done].
  - destruct Hd as [HD Hd]. destruct (decide (overlap S E D = 0)) as [H0|H0].
    + rewrite H0, covered_skip by done. apply (IH Hd S E HSE).
    + unfold overlap in *. remember (Z.max S (PhysicalStart D)) as s eqn:Hs. remember (Z.min E (end_of D)) as e eqn:He.
      rewrite (cover_len_split S s e E l); [|lia|lia|lia|eapply Forall_impl; [exact HD|]; simpl; intros D'; lia].
      destruct (IH Hd S s ltac:(lia)) as [B1 C1]. destruct (IH Hd e E ltac:(lia)) as [B2 C2].
      rewrite (covered_split S s e E D l) by lia. split; [lia|]. rewrite <- C1, <- C2. lia.
Qed.

(** An address is in one region only. *)
Lemma disjoint_same l D D' x : disjoint_map l → D ∈ l → D' ∈ l →
  PhysicalStart D ≤ x < end_of D → PhysicalStart D' ≤ x < end_of D' → D = D'.
Proof.
  induction l as [|E l IH]; intros Hd HD HD' H1 H2; [by apply not_elem_of_nil in HD|]. destruct Hd as [Hf Hd].
  rewrite Forall_forall in Hf. apply elem_of_cons in HD as [->|HD]; apply elem_of_cons in HD' as [->|HD']; try done.
  - specialize (Hf D' HD'). lia.
  - specialize (Hf D HD). lia.
  - by apply IH.
Qed.

(** ** One slide *)

Definition meets (S E : Z) (D : EFI_MEMORY_DESCRIPTOR) : bool := (PhysicalStart D <? E) && (S <? end_of D).

Lemma desc_end D : desc_ok D → wrap64 (PhysicalStart D + EFI_PAGES_TO_SIZE (NumberOfPages D)) = end_of D.
Proof. intros HD. rewrite pages_to_size by done. destruct HD. unfold end_of. apply wrap64_small. lia. Qed.

Lemma wrap64_sub x y : wrap64 (wrap64 x - y) = wrap64 (x - y).
Proof. unfold wrap64. by rewrite Zminus_mod_idemp_l. Qed.

Lemma wrap64_add x y : wrap64 (wrap64 x + y) = wrap64 (x + y).
Proof. unfold wrap64. by rewrite Zplus_mod_idemp_l. Qed.

(** Regions that are not conventional memory end the loop; otherwise the parts are
    added up. *)
Lemma slide_available_ok S E l : S < E → Forall desc_ok l → ∀ a,
  (Forall (λ D, meets S E D = true → Type_ D = ConventionalMemory) l ∧
   slide_available S E (wrap64 a) l = (true, wrap64 (a + cover_len S E l))) ∨
  ((∃ D, D ∈ l ∧ meets S E D = true ∧ Type_ D ≠ ConventionalMemory) ∧ (slide_available S E (wrap64 a) l).1 = false).
Proof.
  intros HSE. induction 1 as [|D l HD Hl IH]; intros a; cbn [slide_available cover_len].
  - left. split; [constructor|]. by rewrite Z.add_0_r.
  - rewrite desc_end, pages_to_size by done. fold (meets S E D). pose proof HD as [D1 D2 D3].
    destruct (meets S E D) eqn:Em.
    + destruct (Z.eqb_spec (Type_ D) ConventionalMemory) as [Ht|Ht]; cbn [negb];
        [|right; split; [exists D; split; [apply list_elem_of_here|done]|done]].
      assert (overlap S E D = NumberOfPages D * 4096 - Z.max 0 (S - PhysicalStart D) - Z.max 0 (end_of D - E)) as Ho.
      { unfold meets in Em. zbool. unfold overlap, end_of in *. lia. }
      match goal with |- context [slide_available S E ?x l] => replace x with (wrap64 (a + overlap S E D)) end.
      2: { rewrite Ho, !wrap64_add. destruct (Z.ltb_spec (PhysicalStart D) S), (Z.ltb_spec E (end_of D));
          rewrite ?wrap64_sub, <- ?Z.sub_add_distr, ?wrap64_sub; f_equal; lia. }
      destruct (IH (a + overlap S E D)) as [[Hf ->]|[(D' & ? & ?) Hf]]; [left|right].
      * split; [by constructor|]. f_equal. f_equal. lia.
      * split; [|done]. exists D'. split; [by apply list_elem_of_further|done].
    + assert (overlap S E D = 0) as -> by (unfold meets in Em; unfold overlap; lia). rewrite Z.add_0_l.
      destruct (IH a) as [[Hf ->]|[(D' & ? & ?) Hf]]; [left|right].
      * split; [|done]. constructor; [|done]. by rewrite Em.
      * split; [|done]. exists D'. split; [by apply list_elem_of_further|done].
Qed.

(** ** All slides *)

(** Equality of results, component by component. *)
Ltac pair_eq := repeat match goal with |- Some _ = Some _ => f_equal | |- (_, _) = (_, _) => f_equal end; try done.

Section All.
Context (eax : Z).

Definition slide_start (Slide : Z) : Z :=
  Slide * SLIDE_GRANULARITY + BASE_KERNEL_ADDR + (if (0x80 <=? Slide) && sandy_or_ivy eax then 0x10200000 else 0).

Definition slide_end (Slide : Z) : Z := slide_start Slide + APTIOFIX_SPECULATED_KERNEL_SIZE.

(** What is remembered about the processor is right. *)
Definition sandy_ok (s : Slides) : Prop := mSandyOrIvySet s = true → mSandyOrIvy s = sandy_or_ivy eax.

(** Only what is remembered about the processor differs. *)
Definition sandy_step (s s' : Slides) : Prop := sandy_ok s' ∧ (s' = s ∨ s' = set_sandy (sandy_or_ivy eax) s).

Lemma IsSandyOrIvy_ok s : sandy_ok s → ∃ s', IsSandyOrIvy eax s = Some (sandy_or_ivy eax, s') ∧ sandy_step s s'.
Proof.
  intros Hs. unfold IsSandyOrIvy. rewrite bind_gets. destruct (mSandyOrIvySet s) eqn:E.
  - rewrite bind_ret. unfold gets. rewrite Hs by done. exists s. split; [done|]. split; [done|by left].
  - rewrite bind_modify. eexists. split; [reflexivity|]. split; [done|by right].
Qed.

Lemma range_ok Slide s : sandy_ok s → 0 ≤ Slide < 256 →
  ∃ s', GetSlideRangeForValue eax Slide s = Some ((slide_start Slide, slide_end Slide), s') ∧ sandy_step s s'.
Proof.
  intros Hs HS. unfold GetSlideRangeForValue, slide_end, slide_start. cbv zeta.
  assert (∀ x, 0 ≤ x < 2 ^ 63 → wrap64 x = x) as Hw by (intros x Hx; apply wrap64_small; lia).
  unfold SLIDE_GRANULARITY, BASE_KERNEL_ADDR, APTIOFIX_SPECULATED_KERNEL_SIZE in *.
  destruct (0x80 <=? Slide); cbn [andb].
  - destruct (IsSandyOrIvy_ok s Hs) as (s' & E & H'). rewrite (bind_eq _ _ _ _ _ E). exists s'. split; [|done].
    destruct (sandy_or_ivy eax); unfold mret, M_ret; rewrite !Hw by (rewrite ?Hw; lia); pair_eq; lia.
  - rewrite bind_ret. exists s. split; [|split; [done|by left]]. unfold mret, M_ret. rewrite !Hw by (rewrite ?Hw; lia). pair_eq; lia.
Qed.

(** The array holds the slides [l]. *)
Record valid_are (s : Slides) (l : list Z) : Prop := {
  va_len : length (mValidSlides s) = TOTAL_SLIDE_NUM; va_num : mValidSlidesNum s = length l;
  va_take : take (length l) (mValidSlides s) = l
}.

Lemma valid_sandy s s' l : sandy_step s s' → valid_are s l → valid_are s' l.
Proof. intros [_ [->| ->]] [H1 H2 H3]; by split. Qed.

Lemma push_slide_ok v s l : sandy_ok s → valid_are s l → (length l < TOTAL_SLIDE_NUM)%nat →
  ∃ s', push_slide v s = Some (tt, s') ∧ sandy_ok s' ∧ valid_are s' (l ++ [v]).
Proof.
  intros Hs [H1 H2 H3] Hl. unfold push_slide. rewrite H1, H2. destruct (Nat.ltb_spec (length l) TOTAL_SLIDE_NUM); [|lia].
  eexists. split; [reflexivity|]. split; [done|]. split; cbn [mValidSlides mValidSlidesNum set_valid].
  - by rewrite length_insert.
  - rewrite length_app. simpl. lia.
  - rewrite length_app. simpl length. rewrite Nat.add_1_r. rewrite (take_S_r _ _ v).
    + rewrite take_insert_ge by lia. by rewrite H3.
    + apply list_lookup_insert_eq. lia.
Qed.

Definition slide_usable (map : list EFI_MEMORY_DESCRIPTOR) (Slide : Z) : bool :=
  let '(Supported, a) := slide_available (slide_start Slide) (slide_end Slide) 0 map in
  Supported && (wrap64 (slide_start Slide + a) =? slide_end Slide).

(** The loop collects the usable slides; the fallback is one of the slides. *)
Lemma slides_loop_ok map slides : ∀ best s l, sandy_ok s → valid_are s l →
  (length l + length slides ≤ TOTAL_SLIDE_NUM)%nat → Forall (λ v, 0 ≤ v < 256) slides → 0 ≤ best.2 < 256 →
  ∃ best' s', slides_loop eax map slides best s = Some (best', s') ∧ sandy_ok s' ∧ 0 ≤ best'.2 < 256 ∧
    valid_are s' (l ++ filter (λ v, slide_usable map v = true) slides).
Proof.
  induction slides as [|v slides IH]; intros best s l Hs Hv Hl Hr Hb; cbn [slides_loop].
  - exists best, s. by rewrite filter_nil, app_nil_r.
  - apply Forall_cons in Hr as [Hv0 Hr]. simpl length in Hl.
    destruct (range_ok v s Hs Hv0) as (s1 & E1 & Hs1). rewrite (bind_eq _ _ _ _ _ E1).
    assert (valid_are s1 l) as Hv1 by by eapply valid_sandy. destruct Hs1 as [Hs1 _].
    pose proof (eq_refl (slide_usable map v)) as Hu. unfold slide_usable at 2 in Hu.
    destruct (slide_available (slide_start v) (slide_end v) 0 map) as [sup a].
    set (best1 := if best.1 <? a then (a, v) else best).
    assert (0 ≤ best1.2 < 256) as Hb1 by (unfold best1; by destruct (best.1 <? a)).
    assert ((if negb (wrap64 (slide_start v + a) =? slide_end v) then false else sup) = slide_usable map v) as ->.
    { rewrite Hu. by destruct sup, (wrap64 (slide_start v + a) =? slide_end v). }
    clear Hu. destruct (slide_usable map v) eqn:Eu.
    + destruct (push_slide_ok v s1 l Hs1 Hv1) as (s2 & E2 & Hs2 & Hv2); [lia|].
      rewrite (bind_eq _ _ _ _ _ E2), filter_cons_True, cons_middle, app_assoc by done.
      apply IH; [done|done| |done|done]. rewrite length_app. simpl. lia.
    + rewrite bind_ret, filter_cons_False by congruence. apply IH; [done|done|lia|done|done].
Qed.

Lemma analyze_slides_ok map s : sandy_ok s → length (mValidSlides s) = TOTAL_SLIDE_NUM →
  ∃ fallback s', analyze_slides eax map s = Some (tt, s') ∧ sandy_ok s' ∧ 0 ≤ fallback < 256 ∧
    valid_are s' (match filter (λ v, slide_usable map v = true) (seqZ 0 256) with [] => [fallback] | l => l end).
Proof.
  intros Hs Hl. unfold analyze_slides. rewrite bind_modify.
  destruct (slides_loop_ok map (seqZ 0 256) (0, 0) (set_valid (mValidSlides s) 0 s) []) as ([m v] & s1 & E1 & Hs1 & Hv & H1);
    [done|by split|by rewrite length_seqZ|apply Forall_forall; intros x ?%elem_of_seqZ; lia|done|].
  rewrite (bind_eq _ _ _ _ _ E1), bind_gets. cbn [app] in H1. set (l := filter _ _) in *. exists v.
  rewrite (va_num _ _ H1). destruct (Nat.eqb_spec (length l) TOTAL_SLIDE_NUM) as [E|].
  { exists s1. split; [done|]. split; [done|]. split; [done|]. by destruct l. }
  destruct l as [|x l]; cbn [length Nat.eqb].
  - destruct (push_slide_ok v s1 [] Hs1 H1) as (s2 & E2 & Hs2 & Hv2); [unfold TOTAL_SLIDE_NUM; simpl; lia|]. by exists s2.
  - by exists s1.
Qed.

(** Usable means covered by conventional memory. *)
Lemma slide_usable_spec map Slide : 0 ≤ Slide < 256 → Forall desc_ok map → Forall (λ D, 0 < NumberOfPages D) map →
  disjoint_map map →
  slide_usable map Slide = true ↔
  ∀ a, slide_start Slide ≤ a < slide_end Slide → ∃ D, D ∈ map ∧ Type_ D = ConventionalMemory ∧ contains a D = true.
Proof.
  intros HS Hok Hpos Hd. unfold slide_usable.
  assert (0 ≤ slide_start Slide < 2 ^ 32) as Hst.
  { unfold slide_start, SLIDE_GRANULARITY, BASE_KERNEL_ADDR. destruct (_ && _); lia. }
  assert (slide_start Slide < slide_end Slide < 2 ^ 33) as Hen by (unfold slide_end, APTIOFIX_SPECULATED_KERNEL_SIZE; lia).
  destruct (cover_len_spec map Hd (slide_start Slide) (slide_end Slide) ltac:(lia)) as [Hb Hc].
  assert (∀ D a, contains a D = true → slide_start Slide ≤ a < slide_end Slide → meets (slide_start Slide) (slide_end Slide) D = true) as Hm.
  { intros D a ?%contains_spec ?. unfold meets. apply andb_true_iff. rewrite !Z.ltb_lt. lia. }
  destruct (slide_available_ok (slide_start Slide) (slide_end Slide) map ltac:(lia) Hok 0) as [[Hf E]|[(D & HD & Em & Ht) E]].
  - change (wrap64 0) with 0 in E. rewrite E. cbn [andb]. rewrite Z.add_0_l, (wrap64_small (cover_len _ _ _)) by lia.
    rewrite wrap64_small by lia. rewrite Z.eqb_eq.
    assert (slide_start Slide + cover_len (slide_start Slide) (slide_end Slide) map = slide_end Slide ↔
      covered (slide_start Slide) (slide_end Slide) map) as -> by (rewrite <- Hc; lia).
    split; intros H a Ha; destruct (H a Ha) as (D & HD & HD'); exists D.
    + split; [done|]. split; [|done]. rewrite Forall_forall in Hf. by apply Hf; [|apply (Hm D a)].
    + by destruct HD'.
  - change (wrap64 0) with 0 in E. destruct (slide_available _ _ 0 map) as [sup a]. simpl in E. subst sup. cbn [andb].
    split; [done|]. intros H. exfalso. unfold meets in Em. zbool. rewrite Forall_forall in Hok, Hpos.
    pose proof (Hpos D HD) as Hp. set (x := Z.max (slide_start Slide) (PhysicalStart D)).
    assert (PhysicalStart D ≤ x < end_of D) as Hx by (unfold x, end_of in *; lia).
    destruct (H x) as (D' & HD' & Ht' & Hc'); [unfold x; lia|]. apply contains_spec in Hc'.
    apply Ht. rewrite <- Ht'. f_equal. by eapply (disjoint_same map D D' x).
Qed.
End All.
