(* ===== verification/SlideTheorems.v ===== *)
(** * The custom slide: theorems (CustomSlide.c) *)

From Stdlib Require Import ZArith Lia.
From stdpp Require Import base list list_numbers gmap strings.
From S2P Require Import Prelude MemoryMap MemoryAlloc MemoryServices BootArgs CustomSlide SlideProofs.

Open Scope Z_scope.

(** The kernel's region of a slide is conventional memory. *)
Definition region_free (eax : Z) (map : list EFI_MEMORY_DESCRIPTOR) (Slide : Z) : Prop :=
  0 ≤ Slide < 256 ∧
  ∀ a, slide_start eax Slide ≤ a < slide_end eax Slide → ∃ D, D ∈ map ∧ Type_ D = ConventionalMemory ∧ contains a D = true.

(** C8. The analysis of a memory map ends with a non-empty list of slides, and finds
    exactly the slides for which the whole region of the kernel is conventional
    memory, if there is any. *)
Theorem slides_exact eax map s :
  Forall desc_ok map → Forall (λ D, 0 < NumberOfPages D) map → disjoint_map map →
  sandy_ok eax s → length (mValidSlides s) = TOTAL_SLIDE_NUM →
  ∃ l s', analyze_slides eax map s = Some (tt, s') ∧ valid_are s' l ∧ l ≠ [] ∧
    (∀ v, region_free eax map v → v ∈ l) ∧
    ((∃ w, region_free eax map w) → ∀ v, v ∈ l → region_free eax map v).
Proof.
  intros Hok Hpos Hd Hs Hl. destruct (analyze_slides_ok eax map s Hs Hl) as (fb & s' & E & _ & Hfb & Hv).
  assert (∀ v, v ∈ filter (λ v, slide_usable eax map v = true) (seqZ 0 256) ↔ region_free eax map v) as Hu.
  { intros v. rewrite list_elem_of_filter, elem_of_seqZ. unfold region_free. split.
    - intros [Hu Hr]. split; [lia|]. by apply (slide_usable_spec eax map v ltac:(lia) Hok Hpos Hd).
    - intros [Hr Hc]. split; [|lia]. by apply (slide_usable_spec eax map v Hr Hok Hpos Hd). }
  eexists _, s'. split; [done|]. split; [exact Hv|]. destruct (filter _ _) as [|x l] eqn:Ef.
  - split; [done|]. split; [by intros v ?%Hu%not_elem_of_nil|]. by intros [w ?%Hu%not_elem_of_nil].
  - split; [done|]. split; [intros v; by apply Hu|intros _ v; by apply Hu].
Qed.

(** 2 GB of memory with a reserved page at 512 MB, and a Haswell processor. *)
Definition slide_map : list EFI_MEMORY_DESCRIPTOR := [
  {| Type_ := 7; PhysicalStart := 0x100000; VirtualStart := 0; NumberOfPages := 0x1ff00; Attribute := 0xf |};
  {| Type_ := 0; PhysicalStart := 0x20000000; VirtualStart := 0; NumberOfPages := 1; Attribute := 0 |};
  {| Type_ := 7; PhysicalStart := 0x20001000; VirtualStart := 0; NumberOfPages := 0x5ffff; Attribute := 0xf |} ].
Definition haswell : Z := 0x306C3.

Lemma slide_map_ok : Forall desc_ok slide_map ∧ Forall (λ D, 0 < NumberOfPages D) slide_map ∧ disjoint_map slide_map.
Proof.
  split; [repeat constructor; simpl; lia|]. split; [repeat constructor|]. cbn [disjoint_map slide_map]. unfold end_of.
  repeat (split || apply Forall_cons_2 || apply Forall_nil_2); simpl; lia.
Qed.

Lemma slides_exact_witness :
  ∃ l s', analyze_slides haswell slide_map slides_init = Some (tt, s') ∧ valid_are s' l ∧ l ≠ [] ∧
    (∀ v, region_free haswell slide_map v → v ∈ l) ∧
    ((∃ w, region_free haswell slide_map w) → ∀ v, v ∈ l → region_free haswell slide_map v).
Proof.
  destruct slide_map_ok as (H1 & H2 & H3). by apply (slides_exact haswell slide_map slides_init H1 H2 H3).
Defined.

(** ** Memory outside the slides *)

(** [OverlapsWithSlide] never clears memory that the kernel could be loaded to:
    when it returns FALSE, the range is disjoint from the region of every slide. *)
Theorem overlaps_sound eax Address Size s s' :
  sandy_ok eax s → 0 ≤ Address → 0 ≤ Size → Address + Size < 2 ^ 64 →
  OverlapsWithSlide eax Address Size s = Some (false, s') →
  ∀ Slide, 0 ≤ Slide < 256 → Address + Size < slide_start eax Slide ∨ slide_end eax Slide < Address.
Proof.
  intros Hs HA HS Hw E Slide Hsl. unfold OverlapsWithSlide in E. destruct (IsSandyOrIvy_ok eax s Hs) as (s1 & E1 & _).
  rewrite (bind_eq _ _ _ _ _ E1) in E. rewrite (wrap64_small (Address + Size)) in E by lia.
  unfold slide_end, slide_start. destruct (sandy_or_ivy eax); cbn [andb].
  all: match type of E with context [wrap64 ?x] => rewrite (wrap64_small x) in E by (unfold BASE_KERNEL_ADDR, SLIDE_GRANULARITY, APTIOFIX_SPECULATED_KERNEL_SIZE; lia) end.
  all: destruct (_ && _) eqn:E2 in E; [discriminate E|].
  - match type of E with context [wrap64 ?x] => rewrite (wrap64_small x) in E by (unfold BASE_KERNEL_ADDR, SLIDE_GRANULARITY, APTIOFIX_SPECULATED_KERNEL_SIZE; lia) end.
    injection E as E3 _. unfold BASE_KERNEL_ADDR, SLIDE_GRANULARITY, APTIOFIX_SPECULATED_KERNEL_SIZE in *.
    rewrite andb_true_r. destruct (Z.leb_spec 0x80 Slide); lia.
  - unfold BASE_KERNEL_ADDR, SLIDE_GRANULARITY, APTIOFIX_SPECULATED_KERNEL_SIZE in *. rewrite andb_false_r. lia.
Qed.

Lemma overlaps_sound_witness :
  0x80000000 + 0x1000 < slide_start haswell 200 ∨ slide_end haswell 200 < 0x80000000.
Proof.
  apply (overlaps_sound haswell 0x80000000 0x1000 slides_init (set_sandy false slides_init)); done.
Defined.

(** Below the reserved page there is room for 64 slides. *)
Example slides_of_map :
  (λ r, take (mValidSlidesNum r.2) (mValidSlides r.2)) <$> analyze_slides haswell slide_map slides_init = Some (seqZ 0 64).
Proof. vm_compute. reflexivity. Qed.

(** ** boot-args *)

Lemma digits_ok v : 0 ≤ v < 256 → Forall (λ c, 48 ≤ c < 58) (digits v) ∧ (1 ≤ length (digits v) ≤ 3)%nat.
Proof.
  intros Hv. unfold digits. destruct (Z.ltb_spec v 10), (Z.ltb_spec v 100); split; try (simpl; lia);
    repeat (apply Forall_cons_2 || apply Forall_nil_2); lia.
Qed.

Definition slide_word (v : Z) : list Z := str_bytes "slide=" ++ digits v.

Lemma slide_key_ok : no_space (str_bytes "slide=") ∧ Forall (λ c, c ≠ 0) (str_bytes "slide=").
Proof. split; repeat (apply Forall_cons_2 || apply Forall_nil_2); done. Qed.

Lemma slide_argument_ok v : 0 ≤ v < 256 →
  length (slide_argument v) = 9%nat ∧ Forall (λ c, c ≠ 0) (slide_argument v) ∧ words (slide_argument v) = [slide_word v].
Proof.
  intros Hv. destruct (digits_ok v Hv) as [Hd Hl]. destruct slide_key_ok as [Hk1 Hk2].
  assert (no_space (slide_word v)) as Hns.
  { apply Forall_app. split; [done|]. eapply Forall_impl; [exact Hd|]. simpl. unfold SPACE. lia. }
  unfold slide_argument. split; [|split].
  - rewrite !length_app, length_replicate. simpl length. lia.
  - apply Forall_app. split; [done|]. apply Forall_app. split.
    + eapply Forall_impl; [exact Hd|]. simpl. lia.
    + apply Forall_replicate. done.
  - unfold words. rewrite app_assoc. fold (slide_word v). rewrite words_from_word by done. cbn [app].
    rewrite words_from_end by (destruct (3 - length (digits v))%nat; [by left|right; by eexists]).
    rewrite <- (app_nil_r (replicate _ SPACE)), words_spaces. done.
Qed.

(** A random slide is one of the slides. *)
Lemma random_slide_ok attempts k s l : first_nonzero attempts = Some k → 0 ≤ k → valid_are s l → l ≠ [] →
  ∃ v, GenerateRandomSlideValue attempts s = Some (v, s) ∧ v ∈ l.
Proof.
  intros Hk Hk0 [H1 H2 H3] Hl. unfold GenerateRandomSlideValue. rewrite Hk, H2. cbn [mbind option_bind].
  destruct l as [|x l0] eqn:El; [done|]. rewrite <- El in *. assert (0 < Z.of_nat (length l)) by (subst l; simpl; lia).
  destruct (Nat.eqb_spec (length l) 0); [lia|].
  pose proof (Z.mod_pos_bound k (Z.of_nat (length l)) ltac:(lia)).
  destruct (lookup_lt_is_Some_2 l (Z.to_nat (k mod Z.of_nat (length l)))) as [v Hv]; [lia|].
  exists v. split; [|by eapply list_elem_of_lookup_2].
  rewrite <- (lookup_take_lt (mValidSlides s) (length l)), H3, Hv by lia. done.
Qed.

(** The line that is stored on the first call. *)
Lemma make_boot_args_ok OrgGetVariable guid attempts v s args :
  GenerateRandomSlideValue attempts s = Some (v, s) → 0 ≤ v < 256 →
  (let r := OrgGetVariable L_boot_args guid 1024 (mStoredBootArgsVar s) in
   vr_status r = EFI_SUCCESS ∧ length (vr_data r) = BOOT_LINE_LENGTH ∧ string_of (vr_data r) = Some args) →
  ∃ args' line, make_boot_args OrgGetVariable guid attempts s = Some (tt, set_args true (Z.of_nat (length line) + 1) args' s) ∧
    string_of args' = Some line ∧ (length line < 1024)%nat ∧
    (words line = words args ++ [slide_word v] ∨ words line = [slide_word v] ∧ (1014 ≤ length args)%nat).
Proof.
  intros Ev Hv0 (Es & Hlen & Hargs). destruct (slide_argument_ok v Hv0) as (La & Na & Wa).
  unfold make_boot_args. rewrite (bind_eq _ _ _ _ _ Ev), bind_gets. cbv zeta.
  change (Z.of_nat BOOT_LINE_LENGTH) with 1024. rewrite Es. cbn [EFI_ERROR].
  destruct (append_ok _ _ (slide_argument v) Hargs Hlen Na) as (b & a' & Ea & La' & Hb). rewrite La in Ea. rewrite Ea.
  destruct b.
  - rewrite Hb. eexists _, _. split; [reflexivity|]. split; [exact Hb|]. split.
    + destruct (string_of_Some _ _ Hb) as [_ [r Hr']]. apply (f_equal length) in Hr'. rewrite length_app in Hr'.
      unfold BOOT_LINE_LENGTH in La'. simpl in Hr'. lia.
    + left. destruct args as [|c args0]; [exact Wa|]. cbn [length Nat.ltb Nat.leb]. rewrite <- app_assoc.
      etransitivity; [exact (words_from_space [] (c :: args0) (slide_argument v))|]. by rewrite Wa.
  - destruct Hb as [-> Hb]. rewrite (string_of_app (slide_argument v)) by done. eexists _, _. split; [reflexivity|].
    split; [by apply string_of_app|]. rewrite La. split; [lia|]. right. split; [done|].
    rewrite length_app, La in Hb. unfold BOOT_LINE_LENGTH in Hb. destruct args; simpl in *; rewrite ?length_app in Hb; simpl in Hb; lia.
Qed.

(** boot.efi is told to use one of the analysed slides: the first read of
    boot-args returns the words of the stored variable and one more word, slide= with
    the number of one of the slides (only that word if the line would be too long),
    and later reads return the same line. *)
Theorem boot_args_slide OrgGetVariable guid attempts k s l args DataSize buf :
  valid_are s l → l ≠ [] → Forall (λ v, 0 ≤ v < 256) l → mStoredBootArgsVarSet s = false →
  first_nonzero attempts = Some k → 0 ≤ k →
  (let r := OrgGetVariable L_boot_args guid 1024 (mStoredBootArgsVar s) in
   vr_status r = EFI_SUCCESS ∧ length (vr_data r) = BOOT_LINE_LENGTH ∧ string_of (vr_data r) = Some args) →
  Z.of_nat (length buf) = DataSize → 1024 ≤ DataSize →
  ∃ v line r s', GetVariableBootArgs OrgGetVariable guid attempts DataSize (Some buf) s = Some (r, s') ∧ v ∈ l ∧
    vr_status r = EFI_SUCCESS ∧ vr_size r = Z.of_nat (length line) + 1 ∧ string_of (vr_data r) = Some line ∧
    (words line = words args ++ [slide_word v] ∨ words line = [slide_word v] ∧ (1014 ≤ length args)%nat) ∧
    GetVariableBootArgs OrgGetVariable guid [] DataSize (Some buf) s' = Some (r, s').
Proof.
  intros Hv Hl Hr Hset Hk Hk0 (Es & Hlen & Hargs) Hbuf Hds.
  destruct (random_slide_ok attempts k s l Hk Hk0 Hv Hl) as (v & Ev & Hin).
  assert (0 ≤ v < 256) as Hv0 by (rewrite Forall_forall in Hr; by apply Hr).
  destruct (make_boot_args_ok OrgGetVariable guid attempts v s args Ev Hv0 (conj Es (conj Hlen Hargs))) as (args' & line & Em & Hline & Hll & Hw).
  destruct (string_of_Some _ _ Hline) as [Hnz [rest Hrest]].
  exists v, line, {| vr_status := EFI_SUCCESS; vr_attrs := Some boot_attributes; vr_size := Z.of_nat (length line) + 1;
    vr_data := store 0 (line ++ [0]) buf |}, (set_args true (Z.of_nat (length line) + 1) args' s).
  assert (take (Z.to_nat (Z.of_nat (length line) + 1)) args' = line ++ [0]) as Ht.
  { rewrite Hrest. replace (Z.to_nat (Z.of_nat (length line) + 1)) with (length (line ++ [0])) by (rewrite length_app; simpl; lia).
    rewrite (cons_middle 0 line rest), app_assoc. apply take_app_length. }
  assert ((Z.of_nat (length line) + 1 <=? DataSize) = true) as Hle by (apply Z.leb_le; lia).
  unfold GetVariableBootArgs. rewrite !bind_gets, Hset. rewrite (bind_eq _ _ _ _ _ Em), !bind_gets.
  cbn [mStoredBootArgsVarSet mStoredBootArgsVarSize mStoredBootArgsVar set_args]. rewrite bind_ret, !bind_gets.
  cbn [mStoredBootArgsVarSet mStoredBootArgsVarSize mStoredBootArgsVar set_args]. rewrite Hle, Ht.
  split; [done|]. split; [done|]. split; [done|]. split; [done|]. split; [|done].
  cbn [vr_data]. unfold store.
  pose proof (inserts_split [] (line ++ [0]) buf) as Hst. cbn [length app] in Hst. rewrite Hst by (rewrite length_app; simpl; lia).
  rewrite <- app_assoc. by apply string_of_app.
Qed.

(** The state after the analysis of the example, and a firmware that stores one line
    of boot-args. *)
Definition slides_done : Slides := set_valid (seqZ 0 64 ++ replicate 192 0) 64 slides_init.

Definition org_demo (name guid : list Z) (size : Z) (buf : list Z) : VarResult :=
  {| vr_status := EFI_SUCCESS; vr_attrs := Some 7; vr_size := 3; vr_data := store 0 (str_bytes "-v" ++ [0]) buf |}.

Lemma boot_args_slide_witness :
  ∃ v line r s', GetVariableBootArgs org_demo [] [(None, 0); (Some 0x1205, 9)] 2000 (Some (replicate 2000 1)) slides_done = Some (r, s') ∧
    v ∈ seqZ 0 64 ∧ vr_status r = EFI_SUCCESS ∧ vr_size r = Z.of_nat (length line) + 1 ∧ string_of (vr_data r) = Some line ∧
    (words line = words (str_bytes "-v") ++ [slide_word v] ∨ words line = [slide_word v] ∧ (1014 ≤ 2)%nat) ∧
    GetVariableBootArgs org_demo [] [] 2000 (Some (replicate 2000 1)) s' = Some (r, s').
Proof.
  refine (boot_args_slide org_demo [] [(None, 0); (Some 0x1205, 9)] 5 slides_done (seqZ 0 64) (str_bytes "-v") 2000 (replicate 2000 1)
    _ _ _ _ _ _ _ _ _); try done.
  apply Forall_forall. intros x ?%elem_of_seqZ. lia.
Defined.

(** ** The handoff to the kernel *)

(** What was changed for boot.efi is undone before the kernel starts: boot.efi
    gets csr-active-config with the bit that allows slide=, the kernel gets back the
    value that is stored (0 if the variable could not be read), and the words that
    start with slide= are gone from the command line and from the device tree. *)
Theorem handoff_restores OrgGetVariable guid buf s c cmd chosen cmd_s chosen_s DataSize :
  let key := str_bytes "slide=" in
  Z.of_nat (length buf) = DataSize → 4 ≤ DataSize →
  (let r := OrgGetVariable L_csr_active_config guid DataSize buf in
   length (vr_data r) = length buf ∧ Forall is_byte (vr_data r) ∧
   if EFI_ERROR (vr_status r) then c = 0 else load 4 0 (vr_data r) = c) →
  string_of cmd = Some cmd_s → at_words key cmd_s → string_of chosen = Some chosen_s → at_words key chosen_s →
  ∃ r s' cmd' chosen' s'' out out2,
    GetVariableCsrActiveConfig OrgGetVariable guid DataSize (Some buf) s = Some (r, s') ∧
    vr_status r = EFI_SUCCESS ∧ load 4 0 (vr_data r) = Z.lor c CSR_ALLOW_UNRESTRICTED_NVRAM ∧
    RestoreCustomSlideOverrides (S (length cmd_s + length chosen_s)) (Some (load 4 0 (vr_data r))) cmd (Some chosen) s'
      = Some (Some c, (cmd', Some chosen', s'')) ∧
    string_of cmd' = Some out ∧ words out = others key (words cmd_s) ∧
    string_of chosen' = Some out2 ∧ words out2 = others key (words chosen_s) ∧ mValidSlidesNum s'' = 0%nat.
Proof.
  intros key Hbuf Hds (Hlen & Hby & Hc) Hcmd Hw1 Hch Hw2. destruct slide_key_ok as [Hk _].
  destruct (remove_ok key (S (length cmd_s + length chosen_s)) cmd cmd_s Hcmd ltac:(done) Hk Hw1) as (cmd' & out & E1 & _ & S1 & W1 & _); [lia|].
  destruct (remove_ok key (S (length cmd_s + length chosen_s)) chosen chosen_s Hch ltac:(done) Hk Hw2) as (ch' & out2 & E2 & _ & S2 & W2 & _); [lia|].
  unfold GetVariableCsrActiveConfig. destruct (Z.ltb_spec DataSize 4); [lia|]. cbv zeta in Hc |- *.
  set (r0 := OrgGetVariable L_csr_active_config guid DataSize buf) in *.
  set (r1 := if EFI_ERROR (vr_status r0) then _ else r0).
  assert (vr_status r1 = EFI_SUCCESS ∧ length (vr_data r1) = length buf ∧ load 4 0 (vr_data r1) = c ∧ 0 ≤ c < 2 ^ 32) as (H1 & H2 & H3 & H4).
  { unfold r1. destruct (EFI_ERROR (vr_status r0)) eqn:Ee; cbn [vr_status vr_data].
    - rewrite length_store, load_store_same by lia. subst c. done.
    - split; [by destruct (vr_status r0)|]. split; [done|]. split; [done|]. subst c.
      apply (load_range 4 0 _ Hby). lia. }
  rewrite bind_modify, H3. eexists _, _, cmd', ch', _, out, out2. split; [reflexivity|]. split; [done|]. cbn [vr_data].
  assert (0 ≤ Z.lor c CSR_ALLOW_UNRESTRICTED_NVRAM < 2 ^ 32) as H5.
  { split; [apply Z.lor_nonneg; split; [lia|done]|]. apply Z.log2_lt_cancel. rewrite Z.log2_lor, Z.log2_pow2 by (lia || done).
    apply Z.max_lub_lt; [|done]. destruct (decide (c = 0)) as [->|]; [done|]. apply Z.log2_lt_pow2; lia. }
  split; [by rewrite load_store_same by lia|].
  unfold RestoreCustomSlideOverrides, HideSlideFromOS. fold key. rewrite E1. cbn [mbind option_bind]. rewrite E2.
  cbn [mbind option_bind fmap option_fmap option_map set_csr mCsrActiveConfigSet mCsrActiveConfig].
  split; [reflexivity|]. done.
Qed.

Lemma handoff_restores_witness :
  ∃ r s' cmd' chosen' s'' out out2,
    GetVariableCsrActiveConfig (λ _ _ _ b, {| vr_status := EFI_SUCCESS; vr_attrs := Some 7; vr_size := 4; vr_data := store 0 [3; 0; 0; 0] b |})
      [] 4 (Some [0; 0; 0; 0]) slides_init = Some (r, s') ∧
    vr_status r = EFI_SUCCESS ∧ load 4 0 (vr_data r) = Z.lor 3 CSR_ALLOW_UNRESTRICTED_NVRAM ∧
    RestoreCustomSlideOverrides 20 (Some (load 4 0 (vr_data r))) (line_buf "-v slide=7") (Some (line_buf "slide=7 x")) s'
      = Some (Some 3, (cmd', Some chosen', s'')) ∧
    string_of cmd' = Some out ∧ words out = others (str_bytes "slide=") (words (str_bytes "-v slide=7")) ∧
    string_of chosen' = Some out2 ∧ words out2 = others (str_bytes "slide=") (words (str_bytes "slide=7 x")) ∧ mValidSlidesNum s'' = 0%nat.
Proof.
  refine (handoff_restores (λ _ _ _ b, {| vr_status := EFI_SUCCESS; vr_attrs := Some 7; vr_size := 4; vr_data := store 0 [3; 0; 0; 0] b |})
    [] [0; 0; 0; 0] slides_init 3 (line_buf "-v slide=7") (line_buf "slide=7 x") (str_bytes "-v slide=7") (str_bytes "slide=7 x") 4
    _ _ _ _ _ _ _).
  1, 2: done.
  - split; [done|]. split; [repeat (apply Forall_cons_2 || apply Forall_nil_2); done|done].
  - vm_compute. reflexivity.
  - apply at_words_check; vm_compute; done.
  - vm_compute. reflexivity.
  - apply at_words_check; vm_compute; done.
Defined.

(** ** Safe mode *)

Lemma find_first_ok image fuel : ∀ o, (length image < fuel + o)%nat →
  let '(NewWay, o') := find_first fuel image o in
  (o ≤ o')%nat ∧ (before_end image o' = true → seq_at image (if NewWay : bool then SearchSeqNew else SearchSeq) o' = true).
Proof.
  induction fuel as [|fuel IH]; intros o Ho; cbn [find_first].
  - split; [done|]. unfold before_end. intros ?. zbool. lia.
  - destruct (before_end image o) eqn:Eb; [|split; [done|congruence]].
    destruct (seq_at image SearchSeqNew o) eqn:En; [done|]. destruct (seq_at image SearchSeq o) eqn:Es; [done|].
    specialize (IH (S o) ltac:(lia)). destruct (find_first fuel image (S o)) as [b o']. split; [lia|apply IH].
Qed.

Lemma find_second_ok image o1 fuel : ∀ o2, (o1 + MaxDist < fuel + o2)%nat →
  let r := find_second fuel image o1 o2 in
  (o2 ≤ r)%nat ∧ ((r ≤ o1 + MaxDist)%nat → seq_at image SearchSeq r = true ∨ before_end image r = false).
Proof.
  induction fuel as [|fuel IH]; intros o2 Ho; cbn [find_second].
  - split; [done|]. lia.
  - destruct (before_end image o2) eqn:Eb; cbn [andb]; [|split; [done|by right]].
    destruct (Nat.leb_spec o2 (o1 + MaxDist)); cbn [andb]; [|split; [done|lia]].
    destruct (seq_at image SearchSeq o2) eqn:Es; cbn [negb]; [by split; [|left]|].
    destruct (IH (S o2) ltac:(lia)). split; [lia|done].
Qed.

(** What the patch did. *)
Inductive patched (image : list Z) : list Z → Prop :=
  | patched_none : patched image image
  | patched_new o : (o + 20 ≤ length image)%nat → slice o 4 image = SearchSeqNew →
      patched image (store o (replicate 5 0x90) image)
  | patched_old o o2 : (o + 20 ≤ length image)%nat → slice o 4 image = SearchSeq → (o + 4 ≤ o2 ≤ o + 16)%nat →
      slice o2 4 image = SearchSeq ∨ (length image < o2 + 20)%nat →
      patched image (store o2 (replicate 4 0xFF) (store o (replicate 4 0xFF) image)).

Lemma unlock_loop_ok image fuel : ∀ o, (length image < fuel + o)%nat → (0 < fuel)%nat →
  ∃ image', unlock_loop fuel image o = Some image' ∧ patched image image'.
Proof.
  induction fuel as [|fuel IH]; intros o Ho Hf; [lia|]. cbn [unlock_loop].
  pose proof (find_first_ok image (S (length image)) o ltac:(lia)) as H1.
  destruct (find_first (S (length image)) image o) as [n o1]. destruct H1 as [Hle H1].
  destruct (before_end image o1) eqn:Eb; cbn [negb]; [|exists image; split; [done|constructor]]. specialize (H1 eq_refl).
  apply bool_decide_eq_true in H1. unfold before_end, MaxDist in Eb. zbool.
  destruct n; [eexists; split; [reflexivity|]; constructor; [lia|done]|].
  destruct (find_second_ok image o1 (S MaxDist) (o1 + 4) ltac:(lia)) as [H2 H3].
  revert H2 H3. generalize (find_second (S MaxDist) image o1 (o1 + 4)). intros r H2 H3.
  destruct (Nat.ltb_spec (o1 + MaxDist) r).
  - destruct fuel; [lia|]. apply IH; lia.
  - eexists. split; [reflexivity|]. constructor; [lia|done|unfold MaxDist in *; lia|].
    destruct (H3 ltac:(lia)) as [H4|H4]; [left; by apply bool_decide_eq_true in H4|right].
    unfold before_end, MaxDist in H4. zbool. lia.
Qed.

(** The patch of boot.efi for safe mode ends, stays inside the image, and only
    overwrites the test it looks for: five bytes at the new sequence, or the old
    constant in two places at most 16 bytes apart, the second of which may be the
    place behind which the search ends. *)
Theorem unlock_patches image :
  ∃ image', UnlockSlideSupportForSafeMode image = Some image' ∧ length image' = length image ∧ patched image image'.
Proof.
  destruct (unlock_loop_ok image (S (length image)) 0) as (image' & E & Hp); [lia|lia|]. exists image'. split; [done|].
  split; [|done]. destruct Hp; by rewrite ?length_store.
Qed.

(** Near the end of the image the second place need not hold the constant: bytes
    that were never compared are overwritten. *)
Theorem unlock_overwrites_unmatched :
  let image := SearchSeq ++ replicate 20 0x90 in
  UnlockSlideSupportForSafeMode image = Some (replicate 4 0xFF ++ [0x90] ++ replicate 4 0xFF ++ replicate 15 0x90).
Proof. vm_compute. reflexivity. Qed.
