(* ===== verification/VMem.v ===== *)
(** * AptioMemoryFix: page tables (VMem.c)

    Memory is a map from addresses to 64-bit words; an access outside it is a fault.
    [VmMapVirtualPage] maps one page of 4 KB, making tables from a pool of pages and
    splitting larger pages where needed; [GetPhysicalAddr] walks the tables. *)

From Stdlib Require Import ZArith Lia.
From stdpp Require Import base list list_numbers gmap.
From S2P Require Import Prelude MemoryMap MemoryAlloc.

Open Scope Z_scope.

(** ** Entries and addresses *)

Definition PT_ADDR_MASK_4K : Z := 0x000FFFFFFFFFF000.
Definition PT_ADDR_MASK_2M : Z := 0x000FFFFFFFE00000.
Definition PT_ADDR_MASK_1G : Z := 0x000FFFFFC0000000.

Definition CR3_ADDR_MASK : Z := 0x000FFFFFFFFFF000.

(** Bits of an entry; the lower of the two bits MustBeZero marks a large page. *)
Definition Present (e : Z) : bool := Z.testbit e 0.
Definition Large (e : Z) : bool := Z.testbit e 7.
Definition PageTableBaseAddress (e : Z) : Z := bits e 12 40.

(** [Bits.ReadWrite = 1; Bits.Present = 1], and [Bits.MustBe1 = 1] for large pages. *)
Definition table_entry (a : Z) : Z := Z.lor (Z.land a PT_ADDR_MASK_4K) 0x3.
Definition entry_2M (a : Z) : Z := Z.lor (Z.land a PT_ADDR_MASK_2M) 0x83.
Definition entry_1G (a : Z) : Z := Z.lor (Z.land a PT_ADDR_MASK_1G) 0x83.

(** The fields of a virtual address. *)
Definition PTOffset (va : Z) : Z := bits va 12 9.
Definition PDOffset (va : Z) : Z := bits va 21 9.
Definition PDPOffset (va : Z) : Z := bits va 30 9.
Definition PML4Offset (va : Z) : Z := bits va 39 9.

(** ** State *)

Record VM := { vm_mem : gmap Z Z; VmMemoryPool : Z; VmMemoryPoolFreePages : Z }.

Definition set_mem (m : gmap Z Z) (s : VM) : VM :=
  {| vm_mem := m; VmMemoryPool := VmMemoryPool s; VmMemoryPoolFreePages := VmMemoryPoolFreePages s |}.

(** Entry [i] of the table at [t]. *)
Definition slot (t i : Z) : Z := t + 8 * i.

Definition rd (a : Z) : M VM Z := λ s, v ← vm_mem s !! a; Some (v, s).

Definition wr (a v : Z) : M VM unit := λ s,
  match vm_mem s !! a with Some _ => Some (tt, set_mem (<[a := v]> (vm_mem s)) s) | None => None end.

(** Write the 512 entries of a page. *)
Fixpoint wr_entries (p : Z) (f : Z → Z) (l : list Z) : M VM unit :=
  match l with
  | [] => mret tt
  | i :: l => wr (slot p i) (f i);; wr_entries p f l
  end.

Definition wr_page (p : Z) (f : Z → Z) : M VM unit := wr_entries p f (seqZ 0 512).

(** ** Operations *)

(** The page table of a value of CR3. *)
Definition GetCurrentPageTable (CR3 : Z) : Z := Z.land CR3 CR3_ADDR_MASK.

(** The status and the physical address. *)
Definition GetPhysicalAddr (PageTable VirtualAddr : Z) : M VM (EFI_STATUS * Z) :=
  PML4 ← rd (slot PageTable (PML4Offset VirtualAddr));
  if negb (Present PML4) then mret (EFI_NO_MAPPING, 0) else
  PDPE ← rd (slot (Z.land PML4 PT_ADDR_MASK_4K) (PDPOffset VirtualAddr));
  if negb (Present PDPE) then mret (EFI_NO_MAPPING, 0) else
  if Large PDPE then mret (EFI_SUCCESS, Z.land PDPE PT_ADDR_MASK_1G + bits VirtualAddr 0 30) else
  PDE ← rd (slot (Z.land PDPE PT_ADDR_MASK_4K) (PDOffset VirtualAddr));
  if negb (Present PDE) then mret (EFI_NO_MAPPING, 0) else
  if Large PDE then mret (EFI_SUCCESS, Z.land PDE PT_ADDR_MASK_2M + bits VirtualAddr 0 21) else
  PTE4K ← rd (slot (Z.land PDE PT_ADDR_MASK_4K) (PTOffset VirtualAddr));
  if negb (Present PTE4K) then mret (EFI_NO_MAPPING, 0) else
  mret (EFI_SUCCESS, Z.land PTE4K PT_ADDR_MASK_4K + bits VirtualAddr 0 12).

(** Without enough pages the processor stops ([CpuDeadLoop]). *)
Definition VmAllocatePages (NumPages : Z) : M VM Z := λ s,
  if NumPages <=? VmMemoryPoolFreePages s
  then Some (VmMemoryPool s,
             {| vm_mem := vm_mem s; VmMemoryPool := wrap64 (VmMemoryPool s + EFI_PAGES_TO_SIZE NumPages);
                VmMemoryPoolFreePages := VmMemoryPoolFreePages s - NumPages |})
  else None.

(** The PML4 entry of the address is dropped if it shares its table with the first. *)
Definition release_shared (PageTable VirtualAddr : Z) : M VM unit :=
  let a := slot PageTable (PML4Offset VirtualAddr) in
  if a =? PageTable then mret tt else
  PML4 ← rd a;
  if negb (Present PML4) then mret tt else
  first ← rd PageTable;
  if PageTableBaseAddress first =? PageTableBaseAddress PML4 then wr a 0 else mret tt.

(** A new table in the entry at [a], with the given entries if there are any; false
    when the pool returns NULL. *)
Definition new_table (a : Z) (entries : option (Z → Z)) : M VM bool :=
  p ← VmAllocatePages 1;
  if p =? 0 then mret false else
  wr_page p (λ _, 0);;
  (match entries with Some f => wr_page p f | None => mret tt end);;
  wr a (table_entry p);;
  mret true.

(** A PML4 entry that is not present gets a table that maps the first 512 GB. *)
Definition ensure_pdp (a : Z) : M VM bool :=
  PML4 ← rd a;
  if negb (Present PML4) then new_table a (Some (λ i, entry_1G (i * 0x40000000))) else mret true.

(** A 1 GB page becomes a table of 2 MB pages. *)
Definition ensure_pd (a : Z) : M VM bool :=
  PDPE ← rd a;
  if negb (Present PDPE) || Large PDPE then
    new_table a (if Large PDPE then Some (λ i, entry_2M (Z.land PDPE PT_ADDR_MASK_1G + i * 0x200000)) else None)
  else mret true.

(** A 2 MB page becomes a table of 4 KB pages. *)
Definition ensure_pt (a : Z) : M VM bool :=
  PDE ← rd a;
  if negb (Present PDE) || Large PDE then
    new_table a (if Large PDE then Some (λ i, table_entry (Z.land PDE PT_ADDR_MASK_2M + i * 0x1000)) else None)
  else mret true.

Definition VmMapVirtualPage (PageTable VirtualAddr PhysicalAddr : Z) : M VM EFI_STATUS :=
  release_shared PageTable VirtualAddr;;
  let a := slot PageTable (PML4Offset VirtualAddr) in
  ok ← ensure_pdp a;
  if negb ok then mret EFI_NO_MAPPING else
  PML4 ← rd a;
  let a := slot (Z.land PML4 PT_ADDR_MASK_4K) (PDPOffset VirtualAddr) in
  ok ← ensure_pd a;
  if negb ok then mret EFI_NO_MAPPING else
  PDPE ← rd a;
  let a := slot (Z.land PDPE PT_ADDR_MASK_4K) (PDOffset VirtualAddr) in
  ok ← ensure_pt a;
  if negb ok then mret EFI_NO_MAPPING else
  PDE ← rd a;
  wr (slot (Z.land PDE PT_ADDR_MASK_4K) (PTOffset VirtualAddr)) (table_entry PhysicalAddr);;
  mret EFI_SUCCESS.

Fixpoint VmMapVirtualPages (PageTable VirtualAddr : Z) (NumPages : nat) (PhysicalAddr : Z) : M VM EFI_STATUS :=
  match NumPages with
  | O => mret EFI_SUCCESS
  | S NumPages =>
      Status ← VmMapVirtualPage PageTable VirtualAddr PhysicalAddr;
      if bool_decide (Status = EFI_SUCCESS)
      then VmMapVirtualPages PageTable (wrap64 (VirtualAddr + 0x1000)) NumPages (wrap64 (PhysicalAddr + 0x1000))
      else mret Status
  end.

(** The pool is made of 512 pages below 4 GB. *)
Definition VmAllocateMemoryPool {F} `{Firmware F} (fuel : nat) (s : VM) (f : F) : option (EFI_STATUS * VM * F) :=
  if negb (VmMemoryPool s =? 0) then Some (EFI_SUCCESS, s, f) else
  r ← AllocatePagesFromTop (λ _ _, false) false fuel 0x200 BASE_4GB f;
  let '(Status, Addr, f) := r in
  Some (Status, {| vm_mem := vm_mem s; VmMemoryPool := if EFI_ERROR Status then VmMemoryPool s else Addr;
                   VmMemoryPoolFreePages := 0x200 |}, f).
