(* ===== verification/VMemProofs.v ===== *)
(** * Page tables: the invariant and the steps of mapping

    A table is named by the path of indices that leads to it.  The tables are well
    formed if no two paths lead to the same table and the pool is apart from them.
    Each step of [VmMapVirtualPage] keeps that, and keeps all translations. *)

From Stdlib Require Import ZArith Lia.
From stdpp Require Import base list list_numbers gmap.
From S2P Require Import Prelude MemoryMap MemoryAlloc VMem.

Open Scope Z_scope.

(** ** Levels *)

(** The lowest bit of the index at a level: 12, 21, 30 and 39. *)
Definition sh (l : nat) : Z := 3 + 9 * Z.of_nat l.
Definition idx (l : nat) (va : Z) : Z := bits va (sh l) 9.
Definition pg (l : nat) (e : Z) : Z := bits e (sh l) (52 - sh l) * 2 ^ sh l.
Definition tab (e : Z) : Z := pg 1 e.

(** An entry maps a page: at level 1, and large pages at levels 2 and 3. *)
Definition leaf (l : nat) (e : Z) : bool := match l with 1%nat => true | 2%nat | 3%nat => Large e | _ => false end.
Definition pointer (l : nat) (e : Z) : bool := Present e && negb (leaf l e).

(** The walk from a table of level [l]: a fault, no mapping, or an address. *)
Fixpoint translate (l : nat) (m : gmap Z Z) (t va : Z) : option (option Z) :=
  match l with
  | O => None
  | S l' =>
      e ← m !! slot t (idx l va);
      if negb (Present e) then Some None
      else if leaf l e then Some (Some (pg l e + bits va 0 (sh l)))
      else translate l' m (tab e) va
  end.

Lemma mask_4K e : Z.land e PT_ADDR_MASK_4K = pg 1 e.
Proof. exact (land_field e 12 40 ltac:(lia) ltac:(lia)). Qed.
Lemma mask_2M e : Z.land e PT_ADDR_MASK_2M = pg 2 e.
Proof. exact (land_field e 21 31 ltac:(lia) ltac:(lia)). Qed.
Lemma mask_1G e : Z.land e PT_ADDR_MASK_1G = pg 3 e.
Proof. exact (land_field e 30 22 ltac:(lia) ltac:(lia)). Qed.

Definition phys (r : option Z) : EFI_STATUS * Z :=
  match r with Some a => (EFI_SUCCESS, a) | None => (EFI_NO_MAPPING, 0) end.

(** The code walks the four levels. *)
Lemma GetPhysicalAddr_translate pt va s :
  GetPhysicalAddr pt va s = (λ r, (phys r, s)) <$> translate 4 (vm_mem s) pt va.
Proof.
  unfold GetPhysicalAddr, mbind, M_bind, rd. cbn [translate leaf].
  change (PML4Offset va) with (idx 4 va). change (PDPOffset va) with (idx 3 va).
  change (PDOffset va) with (idx 2 va). change (PTOffset va) with (idx 1 va).
  destruct (vm_mem s !! slot pt (idx 4 va)) as [e4|]; [|done]. cbn [mbind option_bind].
  destruct (Present e4); cbn [negb]; [|done]. rewrite mask_4K. fold (tab e4).
  destruct (vm_mem s !! slot (tab e4) (idx 3 va)) as [e3|]; [|done]. cbn [mbind option_bind].
  destruct (Present e3); cbn [negb]; [|done]. destruct (Large e3); [by rewrite mask_1G|]. rewrite mask_4K. fold (tab e3).
  destruct (vm_mem s !! slot (tab e3) (idx 2 va)) as [e2|]; [|done]. cbn [mbind option_bind].
  destruct (Present e2); cbn [negb]; [|done]. destruct (Large e2); [by rewrite mask_2M|]. rewrite mask_4K. fold (tab e2).
  destruct (vm_mem s !! slot (tab e2) (idx 1 va)) as [e1|]; [|done]. cbn [mbind option_bind].
  destruct (Present e1); cbn [negb]; [|done]. by rewrite mask_4K.
Qed.

(** ** Paths *)

Definition ok_idx (i : Z) : Prop := 0 ≤ i < 512.

Lemma idx_ok l va : ok_idx (idx l va).
Proof. apply (bits_range va (sh l) 9). lia. Qed.

Fixpoint tbl (m : gmap Z Z) (l : nat) (t : Z) (p : list Z) : option Z :=
  match p with
  | [] => Some t
  | i :: p => e ← m !! slot t i; if pointer l e then tbl m (pred l) (tab e) p else None
  end.

(** The indices of an address from level [l] down. *)
Fixpoint path (l : nat) (va : Z) : list Z := match l with O => [] | S l' => idx l va :: path l' va end.

Lemma path_ok l va : Forall ok_idx (path l va).
Proof. induction l; simpl; constructor; [apply idx_ok|done]. Qed.

Lemma tbl_app m p r : ∀ l t, tbl m l t (p ++ r) = t' ← tbl m l t p; tbl m (l - length p) t' r.
Proof.
  induction p as [|j p IH]; intros l t; cbn [app tbl length mbind option_bind]; [by rewrite Nat.sub_0_r|].
  destruct (m !! slot t j) as [e|]; [|done]. cbn [mbind option_bind]. destruct (pointer l e); [|done].
  rewrite IH. by replace (pred l - length p)%nat with (l - S (length p))%nat by lia.
Qed.

Lemma tbl_snoc m p i l t : tbl m l t (p ++ [i]) =
  t' ← tbl m l t p; e ← m !! slot t' i; if pointer (l - length p) e then Some (tab e) else None.
Proof. apply tbl_app. Qed.

Lemma slot_inj t t' i i' : t mod 4096 = 0 → t' mod 4096 = 0 → ok_idx i → ok_idx i' → slot t i = slot t' i' → t = t' ∧ i = i'.
Proof. unfold slot, ok_idx. intros. lia. Qed.

(** Walking to the table of a prefix of the address. *)
Lemma translate_at m p : ∀ l t t' va, tbl m l t p = Some t' → p `prefix_of` path l va →
  translate l m t va = translate (l - length p) m t' va.
Proof.
  induction p as [|i p IH]; intros l t t' va; cbn [tbl].
  - intros [= ->] _. by rewrite Nat.sub_0_r.
  - intros Ht Hp. destruct l as [|l]; [by apply prefix_nil_not in Hp|]. cbn [path] in Hp.
    pose proof (prefix_cons_inv_1 _ _ _ _ Hp) as ->. apply prefix_cons_inv_2 in Hp. cbn [translate length Nat.sub].
    destruct (m !! slot t (idx (S l) va)) as [e|]; [|done]. cbn [mbind option_bind] in *.
    unfold pointer in Ht. destruct (Present e); [|done]. cbn [negb andb] in *. destruct (leaf (S l) e); [done|]. by apply IH.
Qed.

(** ** Memory that differs in one entry and outside the tables *)

Section Frame.
Context (m m' : gmap Z Z) (pt : Z) (q : list Z) (i0 : Z).
Context (Hframe : ∀ p t i, Forall ok_idx p → ok_idx i → tbl m 4 pt p = Some t → (p, i) ≠ (q, i0) →
  m' !! slot t i = m !! slot t i).

Lemma tbl_frame p : Forall ok_idx p → ¬ (q ++ [i0]) `prefix_of` p → tbl m' 4 pt p = tbl m 4 pt p.
Proof.
  induction p as [|i p IH] using rev_ind; intros Hok Hn; [done|]. apply Forall_app in Hok as [Hp Hi]. apply Forall_inv in Hi.
  rewrite !tbl_snoc, IH; [|done|intros H; by apply Hn, prefix_app_r].
  destruct (tbl m 4 pt p) as [t|] eqn:Et; [|done]. cbn [mbind option_bind].
  rewrite (Hframe p t i Hp Hi Et); [done|]. intros [= -> ->]. by apply Hn.
Qed.

Lemma translate_frame va : ¬ (q ++ [i0]) `prefix_of` path 4 va → translate 4 m' pt va = translate 4 m pt va.
Proof.
  intros Hn. assert (∀ l p t, path 4 va = p ++ path l va → tbl m 4 pt p = Some t →
    translate l m' t va = translate l m t va) as H; [|by apply (H 4%nat [])].
  induction l as [|l IH]; intros p t Hp Ht; [done|].
  assert (Forall ok_idx p) as Hok by (pose proof (path_ok 4 va) as H; rewrite Hp in H; by apply Forall_app in H as [? _]).
  assert (m' !! slot t (idx (S l) va) = m !! slot t (idx (S l) va)) as E.
  { apply (Hframe p); [done|apply idx_ok|done|]. intros [= -> <-]. apply Hn. rewrite Hp. cbn [path].
    exists (path l va). by rewrite <- app_assoc. }
  cbn [translate]. rewrite E. destruct (m !! slot t (idx (S l) va)) as [e|] eqn:Ee; [|done]. cbn [mbind option_bind].
  destruct (Present e) eqn:Ep; cbn [negb]; [|done]. destruct (leaf (S l) e) eqn:El; [done|].
  apply (IH (p ++ [idx (S l) va])); [by rewrite Hp, <- app_assoc|]. rewrite tbl_snoc, Ht. cbn [mbind option_bind].
  rewrite Ee. cbn [mbind option_bind]. assert (4 - length p = S l)%nat as ->.
  { apply (f_equal length) in Hp. rewrite length_app in Hp. assert (∀ k, length (path k va) = k) as Hl
      by (induction k; simpl; congruence). rewrite !Hl in Hp. lia. }
  unfold pointer. by rewrite Ep, El.
Qed.
End Frame.

(** ** The invariant *)

Record page_ok (s : VM) (t : Z) : Prop := {
  pg_aligned : t mod 4096 = 0; pg_range : 0 ≤ t < 2 ^ 52;
  pg_mapped : ∀ i, ok_idx i → is_Some (vm_mem s !! slot t i)
}.

Definition in_pool (s : VM) (t : Z) : Prop := VmMemoryPool s ≤ t < VmMemoryPool s + 4096 * VmMemoryPoolFreePages s.

Record pt_ok (s : VM) (pt : Z) : Prop := {
  pk_table : ∀ p t, Forall ok_idx p → tbl (vm_mem s) 4 pt p = Some t → page_ok s t ∧ ¬ in_pool s t;
  pk_inj : ∀ p p' t, Forall ok_idx p → Forall ok_idx p' → tbl (vm_mem s) 4 pt p = Some t → tbl (vm_mem s) 4 pt p' = Some t → p = p';
  pk_first : ∃ e, vm_mem s !! slot pt 0 = Some e ∧ Present e = true;
  pk_free : 0 ≤ VmMemoryPoolFreePages s;
  pk_pool : 0 < VmMemoryPool s ∧ VmMemoryPool s mod 4096 = 0 ∧ VmMemoryPool s + 4096 * VmMemoryPoolFreePages s < 2 ^ 52;
  pk_pages : ∀ t, in_pool s t → t mod 4096 = 0 → page_ok s t
}.

(** Every translation of [m] is one of [m']. *)
Definition preserves (pt : Z) (m m' : gmap Z Z) : Prop :=
  ∀ va a, translate 4 m pt va = Some (Some a) → translate 4 m' pt va = Some (Some a).

(** The tables of [m'] are those of [m] and one at the path [q]. *)
Definition adds (pt : Z) (q : list Z) (m m' : gmap Z Z) : Prop :=
  ∀ p, Forall ok_idx p → is_Some (tbl m' 4 pt p) ↔ p = q ∨ is_Some (tbl m 4 pt p).

(** ** Writing a page *)

Lemma wr_ok a v s : is_Some (vm_mem s !! a) → wr a v s = Some (tt, set_mem (<[a := v]> (vm_mem s)) s).
Proof. intros [x E]. unfold wr. by rewrite E. Qed.

Lemma wr_entries_ok p f l : ∀ s, Forall ok_idx l → NoDup l → p mod 4096 = 0 → (∀ i, ok_idx i → is_Some (vm_mem s !! slot p i)) →
  ∃ m', wr_entries p f l s = Some (tt, set_mem m' s) ∧ (∀ i, i ∈ l → m' !! slot p i = Some (f i)) ∧
    (∀ a, (∀ i, i ∈ l → a ≠ slot p i) → m' !! a = vm_mem s !! a).
Proof.
  induction l as [|j l IH]; intros s Hl Hnd Hp Hm; cbn [wr_entries].
  - exists (vm_mem s). split; [by destruct s|]. split; [by intros i ?%not_elem_of_nil|done].
  - apply Forall_cons in Hl as [Hj Hl]. apply NoDup_cons in Hnd as [Hjl Hnd].
    rewrite (bind_eq _ _ _ _ _ (wr_ok _ (f j) s (Hm j Hj))). set (s1 := set_mem _ s).
    destruct (IH s1 Hl Hnd Hp) as (m' & E & H1 & H2).
    { intros i Hi. unfold s1. cbn [vm_mem set_mem]. apply lookup_insert_is_Some'. right. by apply Hm. }
    exists m'. split; [done|]. split.
    + intros i [->|Hi]%elem_of_cons; [|by apply H1]. rewrite H2; [apply lookup_insert_eq|].
      intros k Hk E2. rewrite Forall_forall in Hl. apply slot_inj in E2 as [_ ->]; auto.
    + intros a Ha. rewrite H2 by (intros k Hk; apply Ha; by apply list_elem_of_further). unfold s1. cbn [vm_mem set_mem].
      apply lookup_insert_ne. intros <-. by apply (Ha j); [apply list_elem_of_here|].
Qed.

Lemma wr_page_ok p f s : page_ok s p →
  ∃ m', wr_page p f s = Some (tt, set_mem m' s) ∧ (∀ i, ok_idx i → m' !! slot p i = Some (f i)) ∧
    (∀ a, (∀ i, ok_idx i → a ≠ slot p i) → m' !! a = vm_mem s !! a).
Proof.
  intros [H1 H2 H3]. assert (∀ i, i ∈ seqZ 0 512 ↔ ok_idx i) as Hi by (intros i; rewrite elem_of_seqZ; unfold ok_idx; lia).
  destruct (wr_entries_ok p f (seqZ 0 512) s) as (m' & E & HA & HB);
    [apply Forall_forall; intros i; apply Hi|apply NoDup_seqZ|done|done|].
  exists m'. split; [done|]. split; [intros i ?; by apply HA, Hi|]. intros a Ha. apply HB. intros i ?. by apply Ha, Hi.
Qed.

(** ** A new table *)

Definition blank : Z → Z := λ _, 0.

(** Memory after a new table: the page and the entry, nothing else. *)
Lemma new_table_runs s pt a f : pt_ok s pt → 1 ≤ VmMemoryPoolFreePages s → is_Some (vm_mem s !! a) →
  (∀ i, ok_idx i → a ≠ slot (VmMemoryPool s) i) →
  let p := VmMemoryPool s in
  ∃ m', new_table a f s = Some (true, {| vm_mem := m'; VmMemoryPool := p + 4096; VmMemoryPoolFreePages := VmMemoryPoolFreePages s - 1 |}) ∧
    m' !! a = Some (table_entry p) ∧ (∀ i, ok_idx i → m' !! slot p i = Some (default blank f i)) ∧
    (∀ b, b ≠ a → (∀ i, ok_idx i → b ≠ slot p i) → m' !! b = vm_mem s !! b).
Proof.
  intros Hs Hf Ha Hap p. destruct (pk_pool s pt Hs) as (Hp0 & Hpa & Hpe).
  assert (page_ok s p) as Hpage by (apply (pk_pages s pt Hs); [unfold in_pool, p; lia|done]).
  unfold new_table, VmAllocatePages. unfold mbind at 1, M_bind at 1. destruct (Z.leb_spec 1 (VmMemoryPoolFreePages s)); [|lia].
  change (EFI_PAGES_TO_SIZE 1) with 4096. fold p. rewrite wrap64_small by (unfold p; lia).
  destruct (Z.eqb_spec p 0); [unfold p in *; lia|]. set (s0 := {| vm_mem := vm_mem s; VmMemoryPool := _; VmMemoryPoolFreePages := _ |}).
  destruct (wr_page_ok p (λ _, 0) s0) as (m1 & E1 & A1 & B1); [destruct Hpage; by split|]. rewrite (bind_eq _ _ _ _ _ E1).
  assert (∃ m2, (match f with Some f => wr_page p f | None => mret tt end) (set_mem m1 s0) = Some (tt, set_mem m2 s0) ∧
    (∀ i, ok_idx i → m2 !! slot p i = Some (default blank f i)) ∧
    (∀ b, (∀ i, ok_idx i → b ≠ slot p i) → m2 !! b = vm_mem s !! b)) as (m2 & E2 & A2 & B2).
  { destruct f as [f|]; [|by exists m1].
    destruct (wr_page_ok p f (set_mem m1 s0)) as (m2 & E2 & A2 & B2).
    { destruct Hpage. split; [done|done|]. intros i Hi. cbn [vm_mem set_mem]. rewrite A1 by done. by eexists. }
    exists m2. split; [done|]. split; [done|]. intros b Hb. rewrite B2 by done. cbn [vm_mem set_mem]. by apply B1. }
  rewrite (bind_eq _ _ _ _ _ E2). rewrite (bind_eq _ _ _ _ _ (wr_ok a (table_entry p) (set_mem m2 s0) ltac:(cbn [vm_mem set_mem]; by rewrite B2))).
  eexists. split; [reflexivity|]. cbn [vm_mem set_mem]. split; [apply lookup_insert_eq|]. split.
  - intros i Hi. rewrite lookup_insert_ne by (by apply Hap). by apply A2.
  - intros b Hb Hbp. rewrite lookup_insert_ne by done. by apply B2.
Qed.

Lemma table_entry_ok a : Present (table_entry a) = true ∧ Large (table_entry a) = false ∧ tab (table_entry a) = pg 1 a.
Proof.
  unfold Present, Large, table_entry. rewrite !Z.lor_spec, !Z.land_spec. split; [by rewrite orb_true_r|].
  split; [change (Z.testbit PT_ADDR_MASK_4K 7) with false; by rewrite andb_false_r|]. unfold tab. rewrite <- !mask_4K.
  rewrite Z.land_lor_distr_l, <- Z.land_assoc, Z.land_diag. change (Z.land 3 PT_ADDR_MASK_4K) with 0. apply Z.lor_0_r.
Qed.

Lemma pg_page l t : (1 ≤ l ≤ 3)%nat → t mod 2 ^ sh l = 0 → 0 ≤ t < 2 ^ 52 → pg l t = t.
Proof.
  intros Hl Ha Hr. unfold pg. assert (3 ≤ sh l ≤ 30) by (unfold sh; lia). rewrite bits_spec by lia.
  pose proof (Z.div_mod t (2 ^ sh l) ltac:(apply Z.pow_nonzero; lia)) as Hd. rewrite Ha in Hd.
  rewrite Z.mod_small; [lia|]. split; [apply Z.div_pos; lia|]. apply Z.div_lt_upper_bound; [lia|].
  rewrite <- Z.pow_add_r by lia. replace (sh l + (52 - sh l)) with 52 by lia. lia.
Qed.

(** ** Putting a new table in an entry *)

Section NewTable.
Context (s : VM) (pt : Z) (q : list Z) (t i : Z) (f : option (Z → Z)).
Context (Hs : pt_ok s pt) (Hfree : 1 ≤ VmMemoryPoolFreePages s).
Context (Hq : Forall ok_idx q) (Hlq : (length q ≤ 2)%nat) (Ht : tbl (vm_mem s) 4 pt q = Some t) (Hi : ok_idx i).
(** The new entries do not point to tables. *)
Context (Hf : ∀ j, ok_idx j → pointer (3 - length q) (default blank f j) = false).

Let p := VmMemoryPool s.

Lemma slot_not_pool p' t' i' j : Forall ok_idx p' → ok_idx i' → ok_idx j → tbl (vm_mem s) 4 pt p' = Some t' → slot t' i' ≠ slot p j.
Proof.
  intros Hp' Hi' Hj Et E. destruct (pk_table s pt Hs _ _ Hp' Et) as [[Ha _ _] Hn]. destruct (pk_pool s pt Hs) as (_ & Hpa & _).
  apply slot_inj in E as [-> _]; try done. apply Hn. unfold in_pool, p. lia.
Qed.

(** Memory with the new table. *)
Context (m' : gmap Z Z) (Ha : m' !! slot t i = Some (table_entry p)).
Context (Hp : ∀ j, ok_idx j → m' !! slot p j = Some (default blank f j)).
Context (Hrest : ∀ b, b ≠ slot t i → (∀ j, ok_idx j → b ≠ slot p j) → m' !! b = vm_mem s !! b).

Lemma nt_frame p1 t1 i1 : Forall ok_idx p1 → ok_idx i1 → tbl (vm_mem s) 4 pt p1 = Some t1 → (p1, i1) ≠ (q, i) →
  m' !! slot t1 i1 = vm_mem s !! slot t1 i1.
Proof.
  intros Hp1 Hi1 Et Hne. apply Hrest; [|intros j Hj; by apply (slot_not_pool p1)]. intros Es.
  destruct (pk_table s pt Hs _ _ Hp1 Et) as [[A1 _ _] _]. destruct (pk_table s pt Hs _ _ Hq Ht) as [[A2 _ _] _].
  apply slot_inj in Es as [-> ->]; try done. apply Hne. f_equal. by eapply (pk_inj s pt Hs).
Qed.

Lemma nt_parent : tbl m' 4 pt q = Some t.
Proof.
  rewrite (tbl_frame (vm_mem s) m' pt q i nt_frame); [done|done|]. intros Hx%prefix_length. rewrite length_app in Hx. simpl in Hx. lia.
Qed.

Lemma nt_new : tbl m' 4 pt (q ++ [i]) = Some p.
Proof.
  destruct (pk_pool s pt Hs) as (Hp0 & Hpa & Hpe). destruct (table_entry_ok p) as (T1 & T2 & T3).
  rewrite tbl_snoc, nt_parent. cbn [mbind option_bind]. rewrite Ha. cbn [mbind option_bind]. unfold pointer. rewrite T1, T3.
  rewrite (pg_page 1 p) by (done || unfold p; lia).
  destruct (4 - length q)%nat as [|[|[|[|]]]] eqn:El; cbn [leaf]; rewrite ?T2; try done; lia.
Qed.

(** The tables are the old ones and the new one. *)
Lemma nt_tables p1 t1 : Forall ok_idx p1 → tbl m' 4 pt p1 = Some t1 →
  (p1 = q ++ [i] ∧ t1 = p) ∨ tbl (vm_mem s) 4 pt p1 = Some t1.
Proof.
  intros Hp1 Et. destruct (decide ((q ++ [i]) `prefix_of` p1)) as [[r ->]|Hn].
  - pose proof nt_new as Hnew. destruct r as [|j r]; [rewrite app_nil_r in *; left; split; [done|congruence]|]. exfalso.
    apply Forall_app in Hp1 as [_ [Hj _]%Forall_cons].
    rewrite tbl_app, Hnew in Et. cbn [mbind option_bind tbl] in Et. rewrite (Hp j Hj) in Et. cbn [mbind option_bind] in Et.
    rewrite length_app in Et. replace (4 - (length q + length [i]))%nat with (3 - length q)%nat in Et by (simpl; lia).
    by rewrite (Hf j Hj) in Et.
  - right. rewrite <- Et. symmetry. by apply (tbl_frame (vm_mem s) m' pt q i nt_frame).
Qed.

Lemma nt_mapped b : is_Some (vm_mem s !! b) → is_Some (m' !! b).
Proof.
  intros Hb. destruct (decide (b = slot t i)) as [->|Hne]; [rewrite Ha; by eexists|].
  destruct (decide (Exists (λ j, b = slot p j) (seqZ 0 512))) as [Hx|Hx].
  - apply Exists_exists in Hx as (j & Hj%elem_of_seqZ & ->). rewrite Hp by (unfold ok_idx; lia). by eexists.
  - rewrite Hrest; [done|done|]. intros j Hj ->. apply Hx, Exists_exists. exists j.
    split; [apply elem_of_seqZ; unfold ok_idx in Hj; lia|done].
Qed.

Lemma nt_ok : pt_ok {| vm_mem := m'; VmMemoryPool := p + 4096; VmMemoryPoolFreePages := VmMemoryPoolFreePages s - 1 |} pt.
Proof.
  set (s' := Build_VM _ _ _). destruct (pk_pool s pt Hs) as (Hp0 & Hpa & Hpe). fold p in Hp0, Hpa, Hpe.
  assert (∀ t1, page_ok s t1 → page_ok s' t1) as Hpk
    by (intros t1 [H1 H2 H3]; split; [done|done|]; intros j Hj; by apply nt_mapped, H3).
  assert (in_pool s p) as Hpin by (unfold in_pool; fold p; lia).
  assert (∀ t1, in_pool s' t1 → in_pool s t1 ∧ t1 ≠ p) as Hsub by (unfold in_pool, s'; simpl; fold p; lia).
  split.
  - intros p1 t1 Hp1 Et. destruct (nt_tables _ _ Hp1 Et) as [[_ ->]|Et'].
    + split; [by apply Hpk, (pk_pages s pt Hs)|]. by intros [_ ?]%Hsub.
    + destruct (pk_table s pt Hs _ _ Hp1 Et') as [H1 H2]. split; [by apply Hpk|]. by intros [? _]%Hsub.
  - intros p1 p2 t1 Hp1 Hp2 [[-> ->]|E1]%nt_tables [[-> E2]|E2]%nt_tables; try done.
    + by destruct (pk_table s pt Hs _ _ Hp2 E2) as [_ H2].
    + subst t1. by destruct (pk_table s pt Hs _ _ Hp1 E1) as [_ H2].
    + by eapply (pk_inj s pt Hs).
  - destruct (decide (([], 0) = (q, i))) as [Heq|Hne].
    + assert (slot pt 0 = slot t i) as -> by (injection Heq as <- <-; simpl in Ht; congruence). exists (table_entry p).
      split; [exact Ha|apply table_entry_ok].
    + destruct (pk_first s pt Hs) as (e0 & E0 & P0). exists e0. split; [|done]. rewrite <- E0. by apply (nt_frame [] pt 0).
  - simpl. lia.
  - simpl. split; [lia|]. split; [|lia]. rewrite <- Z.add_mod_idemp_l, Hpa by lia. done.
  - intros t1 Ht1 Ha1. apply Hpk, (pk_pages s pt Hs); [by apply Hsub|done].
Qed.
End NewTable.

(** The step as the code takes it. *)
Lemma new_table_ok s pt q t i e f : pt_ok s pt → 1 ≤ VmMemoryPoolFreePages s →
  Forall ok_idx q → (length q ≤ 2)%nat → tbl (vm_mem s) 4 pt q = Some t → ok_idx i → vm_mem s !! slot t i = Some e →
  (∀ j, ok_idx j → pointer (3 - length q) (default blank f j) = false) →
  ∃ s', new_table (slot t i) f s = Some (true, s') ∧ pt_ok s' pt ∧
    VmMemoryPoolFreePages s' = VmMemoryPoolFreePages s - 1 ∧
    tbl (vm_mem s') 4 pt q = Some t ∧ tbl (vm_mem s') 4 pt (q ++ [i]) = Some (VmMemoryPool s) ∧
    (∀ j, ok_idx j → vm_mem s' !! slot (VmMemoryPool s) j = Some (default blank f j)) ∧
    (∀ va, ¬ (q ++ [i]) `prefix_of` path 4 va → translate 4 (vm_mem s') pt va = translate 4 (vm_mem s) pt va) ∧
    (∀ p1, Forall ok_idx p1 → ¬ (q ++ [i]) `prefix_of` p1 → tbl (vm_mem s') 4 pt p1 = tbl (vm_mem s) 4 pt p1) ∧
    (∀ p1, Forall ok_idx p1 → is_Some (tbl (vm_mem s') 4 pt p1) → p1 = q ++ [i] ∨ is_Some (tbl (vm_mem s) 4 pt p1)).
Proof.
  intros Hs Hfree Hq Hlq Ht Hi He Hf.
  destruct (new_table_runs s pt (slot t i) f Hs Hfree) as (m' & E & Ha & Hp & Hrest).
  { by eexists. }
  { intros j Hj. by eapply slot_not_pool. }
  eexists. split; [exact E|]. split; [by eapply nt_ok|]. split; [done|]. split; [by eapply nt_parent|].
  split; [by eapply nt_new|].
  split; [done|]. split; [|split].
  - intros va Hn. cbn [vm_mem]. apply (translate_frame (vm_mem s) m' pt q i); [|done]. by eapply nt_frame.
  - intros p1 Hp1 Hn. cbn [vm_mem]. apply (tbl_frame (vm_mem s) m' pt q i); [|done|done]. by eapply nt_frame.
  - intros p1 Hp1 [t1 E1]. assert ((p1 = q ++ [i] ∧ t1 = VmMemoryPool s) ∨ tbl (vm_mem s) 4 pt p1 = Some t1) as [[-> _]|E2].
    + by eapply nt_tables.
    + by left.
    + right. by exists t1.
Qed.

(** ** Splitting a page keeps its translations *)

Lemma path_split q : ∀ l va, q `prefix_of` path l va → path l va = q ++ path (l - length q) va.
Proof.
  induction q as [|i q IH]; intros l va Hp; [by rewrite Nat.sub_0_r|]. destruct l as [|l]; [by apply prefix_nil_not in Hp|].
  cbn [path length Nat.sub app] in *. pose proof (prefix_cons_inv_1 _ _ _ _ Hp) as ->. apply prefix_cons_inv_2 in Hp.
  by rewrite <- IH.
Qed.

(** The offset in a page is an index and the offset in the smaller page. *)
Lemma offset_split l va : bits va 0 (sh (S l)) = idx l va * 2 ^ sh l + bits va 0 (sh l).
Proof.
  unfold idx. assert (0 ≤ sh l) by (unfold sh; lia). replace (sh (S l)) with (sh l + 9) by (unfold sh; lia).
  rewrite !bits_spec by lia. rewrite Z.pow_0_r, Z.div_1_r, Z.pow_add_r by lia.
  rewrite Z.rem_mul_r by (try apply Z.pow_nonzero; lia). lia.
Qed.

Lemma pg_bound l e : (1 ≤ l ≤ 3)%nat → 0 ≤ pg l e ≤ 2 ^ 52 - 2 ^ sh l ∧ pg l e mod 2 ^ sh l = 0.
Proof.
  intros Hl. unfold pg. assert (3 ≤ sh l ≤ 30) by (unfold sh; lia). pose proof (bits_range e (sh l) (52 - sh l) ltac:(lia)) as Hb.
  assert (0 < 2 ^ sh l) by lia. split; [|by apply Z.mod_mul; lia]. split; [nia|].
  assert (2 ^ 52 = 2 ^ (52 - sh l) * 2 ^ sh l) as -> by (rewrite <- Z.pow_add_r by lia; f_equal; lia). nia.
Qed.

(** Address of part [j] of a large page. *)
Lemma part_page l e j : (1 ≤ l ≤ 2)%nat → ok_idx j → pg l (pg (S l) e + j * 2 ^ sh l) = pg (S l) e + j * 2 ^ sh l.
Proof.
  intros Hl Hj. destruct (pg_bound (S l) e ltac:(lia)) as [Hr Hm]. unfold ok_idx in Hj. assert (0 < 2 ^ sh l) by (unfold sh; lia).
  assert (2 ^ sh (S l) = 512 * 2 ^ sh l) as E.
  { replace (sh (S l)) with (9 + sh l) by (unfold sh; lia). rewrite Z.pow_add_r by (unfold sh; lia). done. }
  apply pg_page; [lia| |nia]. rewrite Z.mod_add by lia. apply Z.mod_divide in Hm; [|lia]. destruct Hm as [k ->]. rewrite E.
  replace (k * (512 * 2 ^ sh l)) with (k * 512 * 2 ^ sh l) by lia. apply Z.mod_mul. lia.
Qed.

Lemma entry_2M_ok a : Present (entry_2M a) = true ∧ Large (entry_2M a) = true ∧ pg 2 (entry_2M a) = pg 2 a.
Proof.
  unfold Present, Large, entry_2M. rewrite !Z.lor_spec, !Z.land_spec. split; [by rewrite orb_true_r|].
  split; [by rewrite orb_true_r|]. rewrite <- !mask_2M.
  rewrite Z.land_lor_distr_l, <- Z.land_assoc, Z.land_diag. change (Z.land 0x83 PT_ADDR_MASK_2M) with 0. apply Z.lor_0_r.
Qed.

(** The translation of an address by one entry of level [l]. *)
Definition by_entry (l : nat) (e va : Z) : option Z := if Present e && leaf l e then Some (pg l e + bits va 0 (sh l)) else None.

Lemma split_ok s pt q t i e f : pt_ok s pt → 1 ≤ VmMemoryPoolFreePages s →
  Forall ok_idx q → (length q ≤ 2)%nat → tbl (vm_mem s) 4 pt q = Some t → ok_idx i → vm_mem s !! slot t i = Some e →
  (∀ j, ok_idx j → pointer (3 - length q) (default blank f j) = false) → pointer (4 - length q) e = false →
  (∀ va a, by_entry (4 - length q) e va = Some a →
     by_entry (3 - length q) (default blank f (idx (3 - length q) va)) va = Some a) →
  ∃ s', new_table (slot t i) f s = Some (true, s') ∧ pt_ok s' pt ∧
    VmMemoryPoolFreePages s' = VmMemoryPoolFreePages s - 1 ∧ tbl (vm_mem s') 4 pt q = Some t ∧
    adds pt (q ++ [i]) (vm_mem s) (vm_mem s') ∧ preserves pt (vm_mem s) (vm_mem s').
Proof.
  intros Hs Hfree Hq Hlq Ht Hi He Hf Hpe Hby.
  destruct (new_table_ok s pt q t i e f Hs Hfree Hq Hlq Ht Hi He Hf) as (s' & E & Hs' & Hfr & Hq' & Hnew & Hent & Hother & Hold & Hback).
  exists s'. split; [done|]. split; [done|]. split; [done|]. split; [done|]. split.
  { intros p1 Hp1. split; [by apply Hback|]. intros [->|H1]; [by eexists|].
    destruct (decide ((q ++ [i]) `prefix_of` p1)) as [[r ->]|Hn]; [|by rewrite Hold].
    rewrite <- app_assoc, tbl_app, Ht in H1. cbn [mbind option_bind app tbl] in H1. rewrite He in H1.
    cbn [mbind option_bind] in H1. rewrite Hpe in H1. by destruct H1. }
  intros va a Hva. destruct (decide ((q ++ [i]) `prefix_of` path 4 va)) as [Hp|Hp]; [|by rewrite Hother].
  assert (q `prefix_of` path 4 va) as Hpq by by eapply prefix_app_l.
  pose proof (path_split q 4 va Hpq) as Hsp. destruct (4 - length q)%nat as [|l] eqn:El; [lia|].
  assert (3 - length q = l)%nat as E3 by lia. rewrite E3 in *.
  assert (i = idx (S l) va) as Ei.
  { rewrite Hsp in Hp. apply prefix_app_inv in Hp. cbn [path] in Hp. by apply prefix_cons_inv_1 in Hp. }
  rewrite (translate_at _ _ _ _ _ _ Ht Hpq), El in Hva. cbn [translate] in Hva. rewrite <- Ei, He in Hva. cbn [mbind option_bind] in Hva.
  assert (by_entry (S l) e va = Some a) as Hb.
  { unfold by_entry, pointer in *. destruct (Present e); [|done]. cbn [negb andb] in *. destruct (leaf (S l) e); [congruence|done]. }
  apply Hby in Hb. rewrite (translate_at _ _ _ _ _ _ Hnew Hp). rewrite length_app. cbn [length].
  replace (4 - (length q + 1))%nat with l by lia. destruct l as [|l]; [lia|]. cbn [translate].
  rewrite Hent by apply idx_ok. cbn [mbind option_bind]. unfold by_entry in Hb.
  destruct (Present (default blank f (idx (S l) va))); [|done]. cbn [negb andb] in *.
  destruct (leaf (S l) (default blank f (idx (S l) va))); [congruence|done].
Qed.
