(* ===== verification/VMemTheorems.v ===== *)
(** * Page tables: mapping a page (VMem.c) *)

From Stdlib Require Import ZArith Lia.
From stdpp Require Import base list list_numbers gmap.
From S2P Require Import Prelude MemoryMap MemoryAlloc VMem VMemProofs.

Open Scope Z_scope.

(** ** The steps *)

(** The page that a missing table costs. *)
Definition lacks (pt : Z) (p : list Z) (s : VM) : Z := match tbl (vm_mem s) 4 pt p with Some _ => 0 | None => 1 end.

Lemma lacks_0 pt p s : is_Some (tbl (vm_mem s) 4 pt p) → lacks pt p s = 0.
Proof. unfold lacks. by intros [t ->]. Qed.

Lemma lacks_range pt p s : 0 ≤ lacks pt p s ≤ 1.
Proof. unfold lacks. destruct (tbl _ _ _ _); lia. Qed.

Lemma lacks_ext pt p s s' : (is_Some (tbl (vm_mem s) 4 pt p) ↔ is_Some (tbl (vm_mem s') 4 pt p)) → lacks pt p s = lacks pt p s'.
Proof.
  unfold lacks. destruct (tbl (vm_mem s) 4 pt p), (tbl (vm_mem s') 4 pt p); try done; intros [H1 H2].
  - by destruct H1.
  - by destruct H2.
Qed.

(** A step at the entry [i] of the table at path [q]: there is a table behind it, and
    no translation is lost. *)
Definition ensured (pt : Z) (q : list Z) (t i : Z) (s s' : VM) : Prop :=
  pt_ok s' pt ∧ VmMemoryPoolFreePages s' = VmMemoryPoolFreePages s - lacks pt (q ++ [i]) s ∧ tbl (vm_mem s') 4 pt q = Some t ∧
  adds pt (q ++ [i]) (vm_mem s) (vm_mem s') ∧ preserves pt (vm_mem s) (vm_mem s').

Lemma rd_bind {B} a v (k : Z → M VM B) s : vm_mem s !! a = Some v → (rd a ≫= k) s = k v s.
Proof. intros E. unfold mbind, M_bind, rd. by rewrite E. Qed.

Section Step.
Context (s : VM) (pt : Z) (q : list Z) (t i : Z).
Context (Hs : pt_ok s pt) (Hfree : lacks pt (q ++ [i]) s ≤ VmMemoryPoolFreePages s).
Context (Hq : Forall ok_idx q) (Ht : tbl (vm_mem s) 4 pt q = Some t) (Hi : ok_idx i).

Lemma entry_there : ∃ e, vm_mem s !! slot t i = Some e.
Proof. destruct (pk_table s pt Hs q t Hq Ht) as [[_ _ Hm] _]. by destruct (Hm i Hi) as [e He]; exists e. Qed.

(** The entry is already a table. *)
Lemma ensured_refl e : vm_mem s !! slot t i = Some e → pointer (4 - length q) e = true → ensured pt q t i s s.
Proof.
  intros He Hp. assert (is_Some (tbl (vm_mem s) 4 pt (q ++ [i]))) as Hn.
  { rewrite tbl_snoc, Ht. cbn [mbind option_bind]. rewrite He. cbn [mbind option_bind]. rewrite Hp. by eexists. }
  split; [done|]. split; [rewrite lacks_0 by done; lia|]. split; [done|]. split; [|by intros va a].
  intros p _. split; [by right|]. by intros [->|?].
Qed.

Lemma lacks_entry e : vm_mem s !! slot t i = Some e → pointer (4 - length q) e = false → lacks pt (q ++ [i]) s = 1.
Proof.
  intros He Hp. unfold lacks. rewrite tbl_snoc, Ht. cbn [mbind option_bind]. rewrite He. cbn [mbind option_bind]. by rewrite Hp.
Qed.

Lemma ensure_new e f : (length q ≤ 2)%nat → vm_mem s !! slot t i = Some e →
  (∀ j, ok_idx j → pointer (3 - length q) (default blank f j) = false) → pointer (4 - length q) e = false →
  (∀ va a, by_entry (4 - length q) e va = Some a → by_entry (3 - length q) (default blank f (idx (3 - length q) va)) va = Some a) →
  ∃ s', new_table (slot t i) f s = Some (true, s') ∧ ensured pt q t i s s'.
Proof.
  intros Hl He Hf Hp Hb. pose proof (lacks_entry e He Hp) as Hlk. rewrite Hlk in Hfree.
  destruct (split_ok s pt q t i e f Hs Hfree Hq Hl Ht Hi He Hf Hp Hb) as (s' & E & H1 & H2 & H3 & H4 & H5).
  exists s'. split; [done|]. split; [done|]. split; [by rewrite Hlk|]. done.
Qed.

Lemma pointer_leaf l e : Present e = false ∨ leaf l e = true → pointer l e = false.
Proof. unfold pointer. intros [-> | ->]; [done|]. by rewrite andb_false_r. Qed.

Lemma entry_1G_leaf a : leaf 3 (entry_1G a) = true.
Proof. simpl. unfold Large, entry_1G. rewrite Z.lor_spec. by rewrite orb_true_r. Qed.

Lemma ensure_pdp_ok : length q = 0%nat → ∃ s', ensure_pdp (slot t i) s = Some (true, s') ∧ ensured pt q t i s s'.
Proof.
  intros Hl. destruct entry_there as [e He]. unfold ensure_pdp. rewrite (rd_bind _ _ _ _ He).
  pose proof (ensured_refl e He) as Hr. pose proof (ensure_new e) as Hn. rewrite Hl in *. simpl in Hr, Hn.
  destruct (Present e) eqn:Ep; cbn [negb]; [exists s; split; [done|]; apply Hr; unfold pointer; by rewrite Ep|].
  apply Hn; [lia|done| |apply pointer_leaf; by left|].
  - intros j _. apply pointer_leaf. right. apply entry_1G_leaf.
  - intros va a. unfold by_entry. by rewrite Ep.
Qed.

Lemma ensure_pd_ok : length q = 1%nat → ∃ s', ensure_pd (slot t i) s = Some (true, s') ∧ ensured pt q t i s s'.
Proof.
  intros Hl. destruct entry_there as [e He]. unfold ensure_pd. rewrite (rd_bind _ _ _ _ He).
  pose proof (ensured_refl e He) as Hr. pose proof (ensure_new e) as Hn. rewrite Hl in *. simpl in Hr, Hn.
  destruct (Large e) eqn:El.
  - rewrite orb_true_r. apply Hn; [lia|done| |apply pointer_leaf; by right|].
    + intros j _. apply pointer_leaf. right. apply entry_2M_ok.
    + intros va a. unfold by_entry. cbn [leaf default from_option]. unfold id. cbv beta. rewrite El, andb_true_r, mask_1G. destruct (Present e); [|done].
      intros [= <-]. set (x := pg 3 e + idx 2 va * 0x200000). destruct (entry_2M_ok x) as (-> & -> & ->). cbn [andb]. unfold x. f_equal.
      change 0x200000 with (2 ^ sh 2). rewrite part_page by (lia || apply idx_ok). rewrite (offset_split 2 va). lia.
  - rewrite orb_false_r. destruct (Present e) eqn:Ep; cbn [negb].
    + exists s. split; [done|]. apply Hr. unfold pointer. cbn [leaf]. by rewrite Ep, El.
    + apply Hn; [lia|done|done|apply pointer_leaf; by left|]. intros va a. unfold by_entry. by rewrite Ep.
Qed.

Lemma ensure_pt_ok : length q = 2%nat → ∃ s', ensure_pt (slot t i) s = Some (true, s') ∧ ensured pt q t i s s'.
Proof.
  intros Hl. destruct entry_there as [e He]. unfold ensure_pt. rewrite (rd_bind _ _ _ _ He).
  pose proof (ensured_refl e He) as Hr. pose proof (ensure_new e) as Hn. rewrite Hl in *. simpl in Hr, Hn.
  destruct (Large e) eqn:El.
  - rewrite orb_true_r. apply Hn; [lia|done| |apply pointer_leaf; by right|].
    + intros j _. apply pointer_leaf. by right.
    + intros va a. unfold by_entry. cbn [leaf default from_option]. unfold id. cbv beta. rewrite El, !andb_true_r, mask_2M. destruct (Present e); [|done].
      intros [= <-]. set (x := pg 2 e + idx 1 va * 0x1000). destruct (table_entry_ok x) as (-> & _ & Ht1). unfold tab in Ht1. rewrite Ht1. unfold x. f_equal.
      change 0x1000 with (2 ^ sh 1). rewrite part_page by (lia || apply idx_ok). rewrite (offset_split 1 va). lia.
  - rewrite orb_false_r. destruct (Present e) eqn:Ep; cbn [negb].
    + exists s. split; [done|]. apply Hr. unfold pointer. cbn [leaf]. by rewrite Ep, El.
    + apply Hn; [lia|done|done|apply pointer_leaf; by left|]. intros va a. unfold by_entry. by rewrite Ep.
Qed.
End Step.

(** Well-formed tables do not share the table of the first entry. *)
Lemma release_ok s pt va : pt_ok s pt → release_shared pt va s = Some (tt, s).
Proof.
  intros Hs. unfold release_shared. change (PML4Offset va) with (idx 4 va).
  destruct (Z.eqb_spec (slot pt (idx 4 va)) pt) as [|Hne]; [done|].
  destruct (entry_there s pt [] pt (idx 4 va) Hs ltac:(constructor) eq_refl (idx_ok 4 va)) as [e He]. rewrite (rd_bind _ _ _ _ He).
  destruct (Present e) eqn:Ep; cbn [negb]; [|done].
  destruct (pk_first s pt Hs) as (e0 & E0 & P0). unfold slot in E0 at 1. rewrite Z.mul_0_r, Z.add_0_r in E0. rewrite (rd_bind _ _ _ _ E0).
  destruct (Z.eqb_spec (PageTableBaseAddress e0) (PageTableBaseAddress e)) as [Eb|]; [|done]. exfalso. apply Hne.
  assert ([0] = [idx 4 va]) as [= <-].
  { apply (pk_inj s pt Hs _ _ (tab e)); [by repeat constructor|constructor; [apply idx_ok|done]| |].
    - cbn [tbl]. unfold slot. rewrite Z.mul_0_r, Z.add_0_r, E0. cbn [mbind option_bind]. unfold pointer. rewrite P0. cbn.
      f_equal. unfold tab, pg. change (bits e0 (sh 1) (52 - sh 1)) with (PageTableBaseAddress e0). by rewrite Eb.
    - cbn [tbl]. rewrite He. cbn [mbind option_bind]. unfold pointer. by rewrite Ep. }
  unfold slot. lia.
Qed.

(** ** Writing the entry of the page *)

(** The number of the page of an address, in the 48 bits that are translated. *)
Definition page_of (va : Z) : Z := bits va 12 36.

Lemma bits_cons x lo n : 0 ≤ lo → 0 ≤ n → bits x lo (9 + n) = bits x lo 9 + 512 * bits x (lo + 9) n.
Proof.
  intros. rewrite !bits_spec by lia. rewrite !Z.pow_add_r by lia. rewrite Z.rem_mul_r by (try apply Z.pow_nonzero; lia).
  rewrite Z.div_div by (try apply Z.pow_nonzero; lia). done.
Qed.

Lemma path_page va va' : path 4 va = path 4 va' ↔ page_of va = page_of va'.
Proof.
  assert (∀ x, page_of x = idx 1 x + 512 * (idx 2 x + 512 * (idx 3 x + 512 * idx 4 x))) as E.
  { intros x. unfold page_of, idx. change 36 with (9 + (9 + (9 + 9))). rewrite !bits_cons by lia. done. }
  rewrite !E. pose proof (idx_ok 1 va). pose proof (idx_ok 2 va). pose proof (idx_ok 3 va).
  pose proof (idx_ok 1 va'). pose proof (idx_ok 2 va'). pose proof (idx_ok 3 va'). unfold ok_idx in *. cbn [path]. split.
  - intros [= -> -> -> ->]. done.
  - intros. assert (idx 1 va = idx 1 va') as -> by lia. assert (idx 2 va = idx 2 va') as -> by lia.
    assert (idx 3 va = idx 3 va') as -> by lia. by assert (idx 4 va = idx 4 va') as -> by lia.
Qed.

Definition dir_path (va : Z) : list Z := [idx 4 va; idx 3 va; idx 2 va].

Lemma dir_path_ok va : Forall ok_idx (dir_path va).
Proof. repeat constructor; apply idx_ok. Qed.

Section Leaf.
Context (s : VM) (pt va t v : Z) (Hs : pt_ok s pt) (Ht : tbl (vm_mem s) 4 pt (dir_path va) = Some t).
Let m' := <[slot t (idx 1 va) := v]> (vm_mem s).

Lemma leaf_frame p1 t1 i1 : Forall ok_idx p1 → ok_idx i1 → tbl (vm_mem s) 4 pt p1 = Some t1 →
  (p1, i1) ≠ (dir_path va, idx 1 va) → m' !! slot t1 i1 = vm_mem s !! slot t1 i1.
Proof.
  intros Hp1 Hi1 Et Hne. apply lookup_insert_ne. intros Es.
  destruct (pk_table s pt Hs _ _ Hp1 Et) as [[A1 _ _] _]. destruct (pk_table s pt Hs _ _ (dir_path_ok va) Ht) as [[A2 _ _] _].
  apply slot_inj in Es as [-> <-]; try done; [|apply idx_ok]. apply Hne. f_equal. eapply (pk_inj s pt Hs); [done|apply dir_path_ok|done|done].
Qed.

Lemma leaf_dir : tbl m' 4 pt (dir_path va) = Some t.
Proof.
  rewrite (tbl_frame _ _ _ _ _ leaf_frame); [done|apply dir_path_ok|]. intros Hx%prefix_length. simpl in Hx. lia.
Qed.

Lemma leaf_tables p1 t1 : Forall ok_idx p1 → tbl m' 4 pt p1 = Some t1 → tbl (vm_mem s) 4 pt p1 = Some t1.
Proof.
  intros Hp1 Et. destruct (decide ((dir_path va ++ [idx 1 va]) `prefix_of` p1)) as [[r ->]|Hn];
    [|rewrite <- Et; symmetry; by apply (tbl_frame _ _ _ _ _ leaf_frame)]. exfalso.
  rewrite <- app_assoc, tbl_app, leaf_dir in Et. cbn [mbind option_bind app tbl length Nat.sub dir_path] in Et.
  unfold m' in Et. rewrite lookup_insert_eq in Et. cbn [mbind option_bind] in Et. unfold pointer in Et. cbn [leaf negb] in Et.
  by rewrite andb_false_r in Et.
Qed.

Lemma leaf_iff p1 : Forall ok_idx p1 → is_Some (tbl m' 4 pt p1) ↔ is_Some (tbl (vm_mem s) 4 pt p1).
Proof.
  intros Hp1. split; [intros [t1 Et]; exists t1; by apply leaf_tables|]. intros [t1 Et].
  destruct (decide ((dir_path va ++ [idx 1 va]) `prefix_of` p1)) as [[r ->]|Hn]; [|rewrite (tbl_frame _ _ _ _ _ leaf_frame); by try eexists].
  exfalso. rewrite <- app_assoc, tbl_app, Ht in Et. cbn [mbind option_bind app tbl length Nat.sub dir_path] in Et.
  destruct (vm_mem s !! slot t (idx 1 va)) as [e|]; [|done]. cbn [mbind option_bind] in Et. unfold pointer in Et. cbn [leaf negb] in Et.
  by rewrite andb_false_r in Et.
Qed.

Lemma leaf_pt_ok : pt_ok (set_mem m' s) pt.
Proof.
  assert (∀ t1, page_ok s t1 → page_ok (set_mem m' s) t1) as Hpk.
  { intros t1 [H1 H2 H3]. split; [done|done|]. intros j Hj. apply lookup_insert_is_Some'. right. by apply H3. }
  split.
  - intros p1 t1 Hp1 Et. destruct (pk_table s pt Hs _ _ Hp1 (leaf_tables _ _ Hp1 Et)) as [H1 H2]. split; [by apply Hpk|done].
  - intros p1 p2 t1 Hp1 Hp2 E1 E2. eapply (pk_inj s pt Hs); [done|done|by apply leaf_tables|by apply leaf_tables].
  - destruct (pk_first s pt Hs) as (e0 & E0 & P0). exists e0. split; [|done]. rewrite <- E0. by apply (leaf_frame [] pt 0).
  - apply (pk_free s pt Hs).
  - apply (pk_pool s pt Hs).
  - intros t1 H1 H2. by apply Hpk, (pk_pages s pt Hs).
Qed.

Lemma leaf_same va' : page_of va' = page_of va →
  translate 4 m' pt va' = if Present v then Some (Some (pg 1 v + bits va' 0 12)) else Some None.
Proof.
  intros Hp%path_page. rewrite (translate_at _ _ _ _ _ va' leaf_dir) by (rewrite Hp; by exists [idx 1 va]).
  cbn [length dir_path Nat.sub translate leaf]. assert (idx 1 va' = idx 1 va) as -> by (cbn [path] in Hp; congruence).
  unfold m'. rewrite lookup_insert_eq. cbn [mbind option_bind]. by destruct (Present v).
Qed.

Lemma leaf_other va' : page_of va' ≠ page_of va → translate 4 m' pt va' = translate 4 (vm_mem s) pt va'.
Proof.
  intros Hp. apply (translate_frame _ _ _ _ _ leaf_frame). intros [r Hr]. apply Hp, path_page.
  rewrite Hr. destruct r; [by rewrite app_nil_r|]. apply (f_equal length) in Hr. simpl in Hr. lia.
Qed.
End Leaf.

(** ** Mapping a page *)

(** The translation of [va] in the state. *)
Definition maps (pt va a : Z) (s : VM) : Prop := GetPhysicalAddr pt va s = Some ((EFI_SUCCESS, a), s).

Lemma maps_translate pt va a s : maps pt va a s ↔ translate 4 (vm_mem s) pt va = Some (Some a).
Proof.
  unfold maps. rewrite GetPhysicalAddr_translate. destruct (translate 4 (vm_mem s) pt va) as [[b|]|]; simpl; naive_solver.
Qed.

Lemma entry_of m pt q t i : tbl m 4 pt q = Some t → is_Some (tbl m 4 pt (q ++ [i])) →
  ∃ e, m !! slot t i = Some e ∧ tbl m 4 pt (q ++ [i]) = Some (Z.land e PT_ADDR_MASK_4K).
Proof.
  intros Ht [t' Ht']. rewrite tbl_snoc, Ht in *. cbn [mbind option_bind] in *. destruct (m !! slot t i) as [e|]; [|done].
  exists e. split; [done|]. cbn [mbind option_bind] in *. rewrite mask_4K. by destruct (pointer _ e).
Qed.

(** The paths of the tables that translate [va], and how many of them are missing. *)
Definition prefixes (va : Z) : list (list Z) := [[idx 4 va]; [idx 4 va; idx 3 va]; dir_path va].

Definition missing (pt va : Z) (s : VM) : Z := foldr (λ p n, lacks pt p s + n) 0 (prefixes va).

Lemma missing_range pt va s : 0 ≤ missing pt va s ≤ 3.
Proof.
  unfold missing. simpl. pose proof (lacks_range pt [idx 4 va] s). pose proof (lacks_range pt [idx 4 va; idx 3 va] s).
  pose proof (lacks_range pt (dir_path va) s). lia.
Qed.

Lemma lacks_adds pt p q s s' : Forall ok_idx p → p ≠ q → adds pt q (vm_mem s) (vm_mem s') → lacks pt p s' = lacks pt p s.
Proof. intros Hp Hne Ha. apply lacks_ext. rewrite (Ha p Hp). split; [by intros [?|?]|by right]. Qed.

(** What mapping a page does: the page is mapped, other translations are kept, and
    the tables of the address are there. *)
Record mapped (pt va pa : Z) (s s' : VM) : Prop := {
  mp_ok : pt_ok s' pt;
  mp_free : VmMemoryPoolFreePages s' = VmMemoryPoolFreePages s - missing pt va s;
  mp_tables : ∀ p, Forall ok_idx p → is_Some (tbl (vm_mem s') 4 pt p) ↔ p ∈ prefixes va ∨ is_Some (tbl (vm_mem s) 4 pt p);
  mp_page : ∀ va', page_of va' = page_of va → maps pt va' (Z.land pa PT_ADDR_MASK_4K + bits va' 0 12) s';
  mp_other : ∀ va' a, page_of va' ≠ page_of va → maps pt va' a s → maps pt va' a s'
}.

(** The indices of an address are in range. *)
Ltac indices := cbn [app]; repeat (apply Forall_cons; split; [apply idx_ok|]); apply Forall_nil_2.

Lemma map_page_ok pt va pa s : pt_ok s pt → missing pt va s ≤ VmMemoryPoolFreePages s →
  ∃ s', VmMapVirtualPage pt va pa s = Some (EFI_SUCCESS, s') ∧ mapped pt va pa s s'.
Proof.
  intros Hs Hf. unfold VmMapVirtualPage. rewrite (bind_eq _ _ _ _ _ (release_ok s pt va Hs)).
  change (PML4Offset va) with (idx 4 va). change (PDPOffset va) with (idx 3 va).
  change (PDOffset va) with (idx 2 va). change (PTOffset va) with (idx 1 va).
  pose proof (idx_ok 4 va) as K4. pose proof (idx_ok 3 va) as K3. pose proof (idx_ok 2 va) as K2.
  unfold missing in Hf. cbn [foldr prefixes] in Hf. pose proof (lacks_range pt [idx 4 va] s) as B1.
  pose proof (lacks_range pt [idx 4 va; idx 3 va] s) as B2. pose proof (lacks_range pt (dir_path va) s) as B3.
  destruct (ensure_pdp_ok s pt [] pt (idx 4 va) Hs ltac:(cbn [app]; lia) ltac:(constructor) eq_refl K4 eq_refl)
    as (s1 & E1 & H1 & F1 & T1 & N1 & P1). rewrite (bind_eq _ _ _ _ _ E1). cbn [negb app] in *.
  destruct (entry_of _ _ _ _ (idx 4 va) T1) as (e4 & R4 & T2); [apply N1; [indices|by left]|]. cbn [app] in T2. rewrite (rd_bind _ _ _ _ R4).
  pose proof (lacks_adds pt [idx 4 va; idx 3 va] [idx 4 va] s s1 ltac:(indices) ltac:(done) N1) as L1.
  pose proof (lacks_adds pt (dir_path va) [idx 4 va] s s1 (dir_path_ok va) ltac:(done) N1) as L2.
  destruct (ensure_pd_ok s1 pt [idx 4 va] _ (idx 3 va) H1 ltac:(cbn [app]; lia) ltac:(indices) T2 K3 eq_refl)
    as (s2 & E2 & H2 & F2 & T3 & N2 & P2). rewrite (bind_eq _ _ _ _ _ E2). cbn [negb app] in *.
  destruct (entry_of _ _ _ _ (idx 3 va) T3) as (e3 & R3 & T4); [apply N2; [indices|by left]|]. cbn [app] in T4. rewrite (rd_bind _ _ _ _ R3).
  pose proof (lacks_adds pt (dir_path va) [idx 4 va; idx 3 va] s1 s2 (dir_path_ok va) ltac:(done) N2) as L3.
  destruct (ensure_pt_ok s2 pt [idx 4 va; idx 3 va] _ (idx 2 va) H2 ltac:(cbn [app]; fold (dir_path va); lia) ltac:(indices) T4 K2 eq_refl)
    as (s3 & E3 & H3 & F3 & T5 & N3 & P3). rewrite (bind_eq _ _ _ _ _ E3). cbn [negb app] in *. fold (dir_path va) in F3, N3.
  destruct (entry_of _ _ _ _ (idx 2 va) T5) as (e2 & R2 & T6); [apply N3; [apply dir_path_ok|by left]|]. cbn [app] in T6. fold (dir_path va) in T6. rewrite (rd_bind _ _ _ _ R2).
  destruct (entry_there s3 pt (dir_path va) _ (idx 1 va) H3 (dir_path_ok va) T6 (idx_ok 1 va)) as [e1 R1].
  rewrite (bind_eq _ _ _ _ _ (wr_ok _ _ s3 (ex_intro _ e1 R1))). eexists. split; [reflexivity|]. split.
  - by apply (leaf_pt_ok s3 pt va).
  - unfold missing. cbn [VmMemoryPoolFreePages set_mem foldr prefixes]. lia.
  - intros p Hp. cbn [vm_mem set_mem]. rewrite (leaf_iff s3 pt va _ _ H3 T6 p Hp), (N3 p Hp), (N2 p Hp), (N1 p Hp).
    unfold prefixes. rewrite !elem_of_cons, elem_of_nil. clear. tauto.
  - intros va' Hp. apply maps_translate. cbn [vm_mem set_mem]. rewrite (leaf_same s3 pt va _ _ H3 T6) by done.
    destruct (table_entry_ok pa) as (-> & _ & Et). unfold tab in Et. by rewrite Et, mask_4K.
  - intros va' a Hp Ha%maps_translate. apply maps_translate. cbn [vm_mem set_mem]. rewrite (leaf_other s3 pt va _ _ H3 T6) by done.
    by apply P3, P2, P1.
Qed.

Lemma prefixes_ok va : Forall (Forall ok_idx) (prefixes va).
Proof. unfold prefixes, dir_path. repeat (apply Forall_cons; split; [indices|]). apply Forall_nil_2. Qed.

Lemma missing_0 pt va s : (∀ p, p ∈ prefixes va → is_Some (tbl (vm_mem s) 4 pt p)) → missing pt va s = 0.
Proof. intros H. unfold missing. cbn [foldr prefixes]. rewrite !lacks_0; [done|..]; apply H; unfold prefixes; rewrite !elem_of_cons; tauto. Qed.

Lemma mapped_tables pt va s s' :
  (∀ p, Forall ok_idx p → is_Some (tbl (vm_mem s') 4 pt p) ↔ p ∈ prefixes va ∨ is_Some (tbl (vm_mem s) 4 pt p)) →
  missing pt va s' = 0.
Proof.
  intros H. apply missing_0. intros p Hp. apply H; [|by left]. pose proof (prefixes_ok va) as Ho. rewrite Forall_forall in Ho. by apply Ho.
Qed.

(** ** Theorems *)

(** Mapping a page: on well-formed tables, with a page in the pool for each table
    of the address that is missing, [VmMapVirtualPage] succeeds and uses exactly these
    pages, every address of the page translates to the physical page, every other
    address that was mapped translates as before, also when large pages had to be
    split, and the tables stay well formed. *)
Theorem vm_map_page pt va pa s : pt_ok s pt → missing pt va s ≤ VmMemoryPoolFreePages s →
  ∃ s', VmMapVirtualPage pt va pa s = Some (EFI_SUCCESS, s') ∧ pt_ok s' pt ∧
    VmMemoryPoolFreePages s' = VmMemoryPoolFreePages s - missing pt va s ∧ missing pt va s' = 0 ∧
    (∀ va', page_of va' = page_of va → maps pt va' (Z.land pa PT_ADDR_MASK_4K + bits va' 0 12) s') ∧
    (∀ va' a, page_of va' ≠ page_of va → maps pt va' a s → maps pt va' a s').
Proof.
  intros Hs Hf. destruct (map_page_ok pt va pa s Hs Hf) as (s' & E & HM). exists s'. split; [done|].
  destruct HM as [H1 H2 H3 H4 H5]. split; [done|]. split; [done|]. split; [by eapply mapped_tables|done].
Qed.

(** Eight pages: a PML4 with one entry, a table that maps the first gigabyte, and six
    pages for the pool. *)
Definition vm_word (i : Z) : Z := if i =? 0 then 0x2003 else if i =? 512 then 0x83 else 0.

Definition vm_demo : VM := {|
  vm_mem := list_to_map ((λ i, (0x1000 + 8 * i, vm_word i)) <$> seqZ 0 4096);
  VmMemoryPool := 0x3000; VmMemoryPoolFreePages := 6 |}.

Lemma vm_demo_word i : 0 ≤ i < 4096 → vm_mem vm_demo !! (0x1000 + 8 * i) = Some (vm_word i).
Proof.
  intros Hi. apply elem_of_list_to_map_1.
  - rewrite <- list_fmap_compose. apply NoDup_fmap_2_strong; [|apply NoDup_seqZ]. simpl. lia.
  - apply list_elem_of_fmap. exists i. split; [done|]. apply elem_of_seqZ. lia.
Qed.

Lemma vm_demo_slot t k i : t = 0x1000 * (k + 1) → 0 ≤ k < 8 → ok_idx i → vm_mem vm_demo !! slot t i = Some (vm_word (512 * k + i)).
Proof.
  intros Et Hk Hi. unfold ok_idx in Hi. assert (slot t i = 0x1000 + 8 * (512 * k + i)) as -> by (unfold slot; lia).
  apply vm_demo_word. lia.
Qed.

Lemma vm_demo_tables p t : Forall ok_idx p → tbl (vm_mem vm_demo) 4 0x1000 p = Some t →
  (p = [] ∧ t = 0x1000) ∨ (p = [0] ∧ t = 0x2000).
Proof.
  destruct p as [|i p]; [intros _ [= <-]; by left|]. intros [Hi Hp]%Forall_cons. cbn [tbl pred].
  rewrite (vm_demo_slot 0x1000 0 i ltac:(lia) ltac:(lia) Hi). cbn [mbind option_bind]. unfold vm_word. unfold ok_idx in Hi.
  destruct (Z.eqb_spec (512 * 0 + i) 0); [|destruct (Z.eqb_spec (512 * 0 + i) 512); [lia|done]].
  assert (i = 0) as -> by lia. change (pointer 4 0x2003) with true. change (tab 0x2003) with 0x2000. cbv iota.
  destruct p as [|j p]; [intros [= <-]; by right|]. apply Forall_cons in Hp as [Hj _]. cbn [tbl pred].
  rewrite (vm_demo_slot 0x2000 1 j ltac:(lia) ltac:(lia) Hj). cbn [mbind option_bind]. unfold vm_word, ok_idx in *.
  destruct (Z.eqb_spec (512 * 1 + j) 0); [lia|]. by destruct (Z.eqb_spec (512 * 1 + j) 512).
Qed.

Lemma vm_demo_page k : 0 ≤ k < 8 → page_ok vm_demo (0x1000 * (k + 1)).
Proof. intros Hk. split; [lia|lia|]. intros i Hi. rewrite (vm_demo_slot _ k i eq_refl Hk Hi). eexists. reflexivity. Qed.

Lemma vm_demo_pool a : in_pool vm_demo a ↔ 0x3000 ≤ a < 0x9000.
Proof. reflexivity. Qed.

Lemma vm_demo_ok : pt_ok vm_demo 0x1000.
Proof.
  split.
  - intros p t Hp Et. rewrite vm_demo_pool. destruct (vm_demo_tables p t Hp Et) as [[_ ->]|[_ ->]].
    + split; [apply (vm_demo_page 0); lia|lia].
    + split; [apply (vm_demo_page 1); lia|lia].
  - intros p p' t Hp Hp' H1 H2. destruct (vm_demo_tables p t Hp H1) as [[-> ->]|[-> ->]];
      destruct (vm_demo_tables p' _ Hp' H2) as [[-> E]|[-> E]]; (reflexivity || discriminate E).
  - exists 0x2003. split; [|reflexivity]. exact (vm_demo_slot 0x1000 0 0 ltac:(lia) ltac:(lia) ltac:(unfold ok_idx; lia)).
  - change (0 ≤ 6). lia.
  - change (0 < 0x3000 ∧ 0x3000 mod 4096 = 0 ∧ 0x3000 + 4096 * 6 < 2 ^ 52). lia.
  - intros t Ht Ha. pose proof (proj1 (vm_demo_pool t) Ht) as Hr. assert (∃ k, 0 ≤ k < 8 ∧ t = 0x1000 * (k + 1)) as (k & Hk & ->) by (exists (t / 4096 - 1); lia). by apply vm_demo_page.
Qed.

Lemma vm_map_page_witness :
  ∃ s', VmMapVirtualPage 0x1000 0x5000 0x1234000 vm_demo = Some (EFI_SUCCESS, s') ∧ pt_ok s' 0x1000 ∧
    VmMemoryPoolFreePages s' = 6 - missing 0x1000 0x5000 vm_demo ∧ missing 0x1000 0x5000 s' = 0 ∧
    (∀ va', page_of va' = page_of 0x5000 → maps 0x1000 va' (Z.land 0x1234000 PT_ADDR_MASK_4K + bits va' 0 12) s') ∧
    (∀ va' a, page_of va' ≠ page_of 0x5000 → maps 0x1000 va' a vm_demo → maps 0x1000 va' a s').
Proof. apply (vm_map_page 0x1000 0x5000 0x1234000 vm_demo vm_demo_ok). change (missing 0x1000 0x5000 vm_demo ≤ 6). pose proof (missing_range 0x1000 0x5000 vm_demo). lia. Defined.
