(* ===== verification/VMemRange.v ===== *)
(** * Page tables: mapping ranges of pages (VMem.c)

    Pages of the same 2 MB share all their tables, so a range costs at most three
    pages of the pool per 2 MB. *)

From Stdlib Require Import ZArith Lia.
From stdpp Require Import base list list_numbers gmap fin_sets.
From S2P Require Import Prelude MemoryMap MemoryAlloc VMem VMemProofs VMemTheorems.

Open Scope Z_scope.

(** ** Regions of 2 MB *)

Definition region (va : Z) : Z := bits va 21 27.

Lemma prefixes_region va va' : region va = region va' → prefixes va = prefixes va'.
Proof.
  assert (∀ x, region x = idx 2 x + 512 * (idx 3 x + 512 * idx 4 x)) as E.
  { intros x. unfold region, idx. change 27 with (9 + (9 + 9)). rewrite !bits_cons by lia. done. }
  rewrite !E. pose proof (idx_ok 2 va). pose proof (idx_ok 3 va). pose proof (idx_ok 2 va'). pose proof (idx_ok 3 va').
  unfold ok_idx, prefixes, dir_path in *. intros. assert (idx 2 va = idx 2 va') as -> by lia.
  assert (idx 3 va = idx 3 va') as -> by lia. by assert (idx 4 va = idx 4 va') as -> by lia.
Qed.

(** The tables of the regions in [C] are there. *)
Definition covered (pt : Z) (C : gset Z) (s : VM) : Prop :=
  ∀ va p, region va ∈ C → p ∈ prefixes va → is_Some (tbl (vm_mem s) 4 pt p).

Lemma covered_missing pt C s va : covered pt C s → region va ∈ C → missing pt va s = 0.
Proof. intros Hc Hr. apply missing_0. intros p Hp. by eapply Hc. Qed.

Lemma covered_step pt C s s' va pa : covered pt C s → mapped pt va pa s s' → covered pt ({[region va]} ∪ C) s'.
Proof.
  intros Hc HM va' p Hr Hp. pose proof (prefixes_ok va') as Ho. rewrite Forall_forall in Ho. apply (mp_tables _ _ _ _ _ HM); [by apply Ho|].
  apply elem_of_union in Hr as [Hr%elem_of_singleton|Hr]; [left; by rewrite <- (prefixes_region _ _ Hr)|right; by eapply Hc].
Qed.

(** ** Lists of pages *)

(** Mapping pages one after the other, virtual and physical addresses. *)
Fixpoint map_all (pt : Z) (l : list (Z * Z)) : M VM EFI_STATUS :=
  match l with
  | [] => mret EFI_SUCCESS
  | (va, pa) :: l =>
      Status ← VmMapVirtualPage pt va pa;
      if bool_decide (Status = EFI_SUCCESS) then map_all pt l else mret Status
  end.

Definition regions (l : list (Z * Z)) : gset Z := list_to_set (region <$> l.*1).

Lemma regions_cons va pa l : regions ((va, pa) :: l) = {[region va]} ∪ regions l.
Proof. reflexivity. Qed.

Lemma regions_step (r : Z) (R C : gset Z) (n : Z) : 0 ≤ n ≤ 3 → (r ∈ C → n = 0) →
  n + 3 * Z.of_nat (size (R ∖ ({[r]} ∪ C))) ≤ 3 * Z.of_nat (size (({[r]} ∪ R) ∖ C)).
Proof.
  intros Hn H0. destruct (decide (r ∈ C)) as [Hr|Hr].
  - rewrite H0 by done. assert (size (R ∖ ({[r]} ∪ C)) ≤ size (({[r]} ∪ R) ∖ C))%nat by (apply subseteq_size; set_solver). lia.
  - assert (({[r]} ∪ R) ∖ C = {[r]} ∪ (R ∖ ({[r]} ∪ C))) as ->.
    { apply set_eq. intros x. destruct (decide (x = r)); set_solver. }
    rewrite (size_union {[r]} (R ∖ ({[r]} ∪ C))) by set_solver. rewrite size_singleton. lia.
Qed.

(** What mapping a list of pages does. *)
Record mapped_all (pt : Z) (l : list (Z * Z)) (s s' : VM) : Prop := {
  ma_ok : pt_ok s' pt;
  ma_page : ∀ va pa va', (va, pa) ∈ l → page_of va' = page_of va → maps pt va' (Z.land pa PT_ADDR_MASK_4K + bits va' 0 12) s';
  ma_other : ∀ va' a, page_of va' ∉ page_of <$> l.*1 → maps pt va' a s → maps pt va' a s'
}.

Lemma map_all_ok pt l : ∀ C s, pt_ok s pt → covered pt C s → NoDup (page_of <$> l.*1) →
  3 * Z.of_nat (size (regions l ∖ C)) ≤ VmMemoryPoolFreePages s →
  ∃ s', map_all pt l s = Some (EFI_SUCCESS, s') ∧ mapped_all pt l s s'.
Proof.
  induction l as [|[va pa] l IH]; intros C s Hs Hc Hd Hf; cbn [map_all].
  { exists s. split; [done|]. split; [done| |by intros va' a _]. intros ? ? ? []%not_elem_of_nil. }
  rewrite regions_cons in Hf. rewrite !fmap_cons, NoDup_cons in Hd. destruct Hd as [Hn Hd].
  pose proof (regions_step (region va) (regions l) C (missing pt va s) (missing_range pt va s) (covered_missing pt C s va Hc)) as Hst.
  destruct (map_page_ok pt va pa s Hs ltac:(lia)) as (s1 & E1 & HM). rewrite (bind_eq _ _ _ _ _ E1), bool_decide_true by done.
  destruct (IH ({[region va]} ∪ C) s1) as (s2 & E2 & [H2 P2 O2]); [apply HM|by eapply covered_step|done|rewrite (mp_free _ _ _ _ _ HM); lia|].
  exists s2. split; [done|]. split; [done|..].
  - intros va1 pa1 va' [[= -> ->]|Hl]%elem_of_cons Hp; [|by eapply P2]. apply O2; [|by apply (mp_page _ _ _ _ _ HM)].
    by rewrite Hp.
  - intros va' a Ho Ha. rewrite !fmap_cons, not_elem_of_cons in Ho. destruct Ho as [Ho1 Ho2].
    apply O2; [done|]. by apply (mp_other _ _ _ _ _ HM).
Qed.

Lemma map_all_app pt l1 l2 s s' : map_all pt (l1 ++ l2) s = Some (EFI_SUCCESS, s') →
  ∃ s1, map_all pt l1 s = Some (EFI_SUCCESS, s1) ∧ map_all pt l2 s1 = Some (EFI_SUCCESS, s').
Proof.
  revert s. induction l1 as [|[va pa] l1 IH]; intros s; cbn [app map_all]; [intros E; by exists s|].
  unfold mbind, M_bind. destruct (VmMapVirtualPage pt va pa s) as [[e s1]|]; [|done]. case_bool_decide; [apply IH|]. by intros [= ->].
Qed.

(** ** Ranges *)

Fixpoint range_pages (va pa : Z) (n : nat) : list (Z * Z) :=
  match n with O => [] | S n => (va, pa) :: range_pages (va + 0x1000) (pa + 0x1000) n end.

Lemma elem_of_range x y n : ∀ va pa, (x, y) ∈ range_pages va pa n ↔
  ∃ k, 0 ≤ k < Z.of_nat n ∧ x = va + 4096 * k ∧ y = pa + 4096 * k.
Proof.
  induction n as [|n IH]; intros va pa; cbn [range_pages]; [rewrite elem_of_nil; split; [done|intros (k & Hk & _); lia]|].
  rewrite elem_of_cons, IH. split.
  - intros [[= -> ->]|(k & Hk & -> & ->)]; [exists 0; lia|exists (k + 1); lia].
  - intros (k & Hk & -> & ->). destruct (decide (k = 0)) as [->|]; [left; f_equal; lia|right; exists (k - 1); lia].
Qed.

Lemma range_virtual n : ∀ va pa, (range_pages va pa n).*1 = (λ k, va + 4096 * k) <$> seqZ 0 (Z.of_nat n).
Proof.
  induction n as [|n IH]; intros va pa; [done|]. cbn [range_pages]. rewrite fmap_cons, IH, (seqZ_cons 0 (Z.of_nat (S n))) by lia. rewrite fmap_cons.
  f_equal; [simpl; lia|]. replace (Z.pred (Z.of_nat (S n))) with (Z.of_nat n) by lia. change (Z.succ 0) with (1 + 0). rewrite <- (fmap_add_seqZ 1 0).
  rewrite <- list_fmap_compose. apply list_fmap_ext. intros i k _. simpl. lia.
Qed.

Lemma page_of_add va k : page_of (va + 4096 * k) = (page_of va + k) mod 2 ^ 36.
Proof.
  unfold page_of. rewrite !bits_spec by lia. change (2 ^ 12) with 4096.
  replace (va + 4096 * k) with (va + k * 4096) by lia. rewrite Z.div_add by lia. by rewrite Zplus_mod_idemp_l.
Qed.

Lemma range_distinct va pa n : Z.of_nat n ≤ 2 ^ 36 → NoDup (page_of <$> (range_pages va pa n).*1).
Proof.
  intros Hn. rewrite range_virtual, <- list_fmap_compose. apply NoDup_fmap_2_strong; [|apply NoDup_seqZ].
  intros k k' Hk%elem_of_seqZ Hk'%elem_of_seqZ E. simpl in E. rewrite !page_of_add in E.
  pose proof (bits_range va 12 36 ltac:(lia)). unfold page_of in E. lia.
Qed.

(** Without overflow the loop is [map_all]. *)
Lemma map_pages_all pt n : ∀ va pa, 0 ≤ va → va + 4096 * Z.of_nat n < 2 ^ 64 → 0 ≤ pa → pa + 4096 * Z.of_nat n < 2 ^ 64 →
  ∀ s, VmMapVirtualPages pt va n pa s = map_all pt (range_pages va pa n) s.
Proof.
  induction n as [|n IH]; intros va pa H1 H2 H3 H4 s; [done|]. cbn [VmMapVirtualPages range_pages map_all].
  unfold mbind, M_bind. destruct (VmMapVirtualPage pt va pa s) as [[e s1]|]; [|done]. case_bool_decide; [|done].
  rewrite !wrap64_small by lia. apply IH; lia.
Qed.

Lemma size_list_to_set_le (l : list Z) : (size (list_to_set l : gset Z) ≤ length l)%nat.
Proof.
  induction l as [|x l IH]; cbn [list_to_set length]; [by rewrite size_empty|]. rewrite size_union_alt, size_singleton.
  assert (size (list_to_set l ∖ {[x]} : gset Z) ≤ size (list_to_set l : gset Z))%nat by (apply subseteq_size; set_solver). lia.
Qed.

(** A range of [n] pages lies in at most [n / 512 + 2] regions. *)
Lemma regions_bound va pa n : Z.of_nat (size (regions (range_pages va pa n))) ≤ Z.of_nat n / 512 + 2.
Proof.
  set (R := list_to_set ((λ r, r mod 2 ^ 27) <$> seqZ (va / 2 ^ 21) (Z.of_nat n / 512 + 2)) : gset Z).
  assert (regions (range_pages va pa n) ⊆ R) as Hsub%subseteq_size.
  { intros r Hr. unfold regions, R in *. rewrite elem_of_list_to_set, range_virtual, <- list_fmap_compose in *.
    apply list_elem_of_fmap in Hr as (k & -> & Hk%elem_of_seqZ). apply list_elem_of_fmap. exists ((va + 4096 * k) / 2 ^ 21).
    split; [simpl; unfold region; by rewrite bits_spec by lia|]. apply elem_of_seqZ. change (2 ^ 21) with 2097152. lia. }
  assert (size R ≤ length (seqZ (va / 2 ^ 21) (Z.of_nat n / 512 + 2)))%nat as Hs.
  { unfold R. rewrite <- (length_fmap (λ r, r mod 2 ^ 27) (seqZ _ _)). apply size_list_to_set_le. }
  rewrite length_seqZ in Hs. lia.
Qed.

(** Mapping a range: [VmMapVirtualPages] succeeds with three pages of the pool for
    every 2 MB of the range and six more, page [k] of the virtual range then translates
    to page [k] of the physical range, all other translations are kept, and the tables
    stay well formed. *)
Theorem vm_map_pages pt n va pa s :
  pt_ok s pt → 3 * (Z.of_nat n / 512 + 2) ≤ VmMemoryPoolFreePages s → 0 ≤ va → va + 4096 * Z.of_nat n < 2 ^ 64 →
  0 ≤ pa → pa + 4096 * Z.of_nat n < 2 ^ 64 → Z.of_nat n ≤ 2 ^ 36 →
  ∃ s', VmMapVirtualPages pt va n pa s = Some (EFI_SUCCESS, s') ∧ pt_ok s' pt ∧
    (∀ k va', 0 ≤ k < Z.of_nat n → page_of va' = page_of (va + 4096 * k) →
       maps pt va' (Z.land (pa + 4096 * k) PT_ADDR_MASK_4K + bits va' 0 12) s') ∧
    (∀ va' a, (∀ k, 0 ≤ k < Z.of_nat n → page_of va' ≠ page_of (va + 4096 * k)) → maps pt va' a s → maps pt va' a s').
Proof.
  intros Hs Hf Hva0 Hva Hpa0 Hpa Hn. rewrite map_pages_all by done. pose proof (regions_bound va pa n) as Hr.
  destruct (map_all_ok pt (range_pages va pa n) ∅ s Hs) as (s' & E & [H1 H2 H3]);
    [by intros va' p ?%not_elem_of_empty|by apply range_distinct|rewrite difference_empty_L; lia|].
  exists s'. split; [done|]. split; [done|]. split.
  - intros k va' Hk Hp. eapply H2; [|exact Hp]. apply elem_of_range. by exists k.
  - intros va' a Hp. apply H3. rewrite range_virtual, <- list_fmap_compose.
    intros (k & E' & Hk%elem_of_seqZ)%list_elem_of_fmap. apply (Hp k); [lia|done].
Qed.

Lemma vm_map_pages_witness :
  ∃ s', VmMapVirtualPages 0x1000 0xffffff8000001000 100 0x7000 vm_demo = Some (EFI_SUCCESS, s') ∧ pt_ok s' 0x1000 ∧
    (∀ k va', 0 ≤ k < Z.of_nat 100 → page_of va' = page_of (0xffffff8000001000 + 4096 * k) →
       maps 0x1000 va' (Z.land (0x7000 + 4096 * k) PT_ADDR_MASK_4K + bits va' 0 12) s') ∧
    (∀ va' a, (∀ k, 0 ≤ k < Z.of_nat 100 → page_of va' ≠ page_of (0xffffff8000001000 + 4096 * k)) →
       maps 0x1000 va' a vm_demo → maps 0x1000 va' a s').
Proof. apply (vm_map_pages 0x1000 100 0xffffff8000001000 0x7000 vm_demo vm_demo_ok); [change (6 ≤ 6)|..]; lia. Defined.
