(* ===== verification/BootFixes.v ===== *)
(** * AptioMemoryFix: the way to the kernel (BootFixes.c)

    boot.efi's arguments are read, the kernel's entry is patched to come back to the
    driver, runtime memory is mapped at its virtual addresses, and what was changed for
    boot.efi is undone when it jumps to the kernel.  Physical memory is a list of
    bytes; the structures that the kernel gets are records.  The firmware, the Mach-O
    library and the assembly parts are parameters. *)

From Stdlib Require Import ZArith Lia.
From stdpp Require Import base list list_numbers gmap strings.
From S2P Require Import Prelude MemoryMap MemoryAlloc RtShims BootArgs CustomSlide VMem.

Open Scope Z_scope.

(** ** Physical memory *)

(** [CopyMem] from and to memory; [None] outside it. *)
Definition ram_get (ram : list Z) (a n : Z) : option (list Z) :=
  if (0 <=? a) && (a + n <=? Z.of_nat (length ram)) then Some (slice (Z.to_nat a) (Z.to_nat n) ram) else None.

Definition ram_put (ram : list Z) (a : Z) (bs : list Z) : option (list Z) :=
  if (0 <=? a) && (a + Z.of_nat (length bs) <=? Z.of_nat (length ram)) then Some (store (Z.to_nat a) bs ram) else None.

Lemma ram_get_ok m a n : 0 ≤ a → 0 ≤ n → a + n ≤ Z.of_nat (length m) → ram_get m a n = Some (slice (Z.to_nat a) (Z.to_nat n) m).
Proof. intros Ha Hn Hl. unfold ram_get. destruct (Z.leb_spec 0 a); [|lia]. by destruct (Z.leb_spec (a + n) (Z.of_nat (length m))); [|lia]. Qed.

Lemma ram_put_ok m a bs : 0 ≤ a → a + Z.of_nat (length bs) ≤ Z.of_nat (length m) → ram_put m a bs = Some (store (Z.to_nat a) bs m).
Proof.
  intros Ha Hl. unfold ram_put. destruct (Z.leb_spec 0 a); [|lia].
  by destruct (Z.leb_spec (a + Z.of_nat (length bs)) (Z.of_nat (length m))); [|lia].
Qed.

Lemma store_outside off bs m i : ((i < off) ∨ (off + length bs ≤ i))%nat → store off bs m !! i = m !! i.
Proof. intros [Hi|Hi]; unfold store; [by apply list_lookup_inserts_lt|by apply list_lookup_inserts_ge]. Qed.

(** ** The kernel's entry *)

Record KernelPatch := { ram : list Z; mOrigKernelCode : list Z; mOrigKernelCodeSize : Z; AsmKernelEntry : Z }.

(** [EntryPatchCode] are the bytes between the two labels of the assembly. *)
Definition KernelEntryPatchJump (EntryPatchCode : list Z) (KernelEntry : Z) (k : KernelPatch) : option (EFI_STATUS * KernelPatch) :=
  let n := Z.of_nat (length EntryPatchCode) in
  if 32 <? n then
    Some (EFI_NOT_FOUND, {| ram := ram k; mOrigKernelCode := mOrigKernelCode k; mOrigKernelCodeSize := n; AsmKernelEntry := AsmKernelEntry k |})
  else
    code ← ram_get (ram k) KernelEntry n;
    ram' ← ram_put (ram k) KernelEntry EntryPatchCode;
    Some (EFI_SUCCESS, {| ram := ram'; mOrigKernelCode := store 0 code (mOrigKernelCode k); mOrigKernelCodeSize := n;
                          AsmKernelEntry := KernelEntry |}).

(** The entry address that the Mach-O library finds is [entry]. *)
Definition KernelEntryFromMachOPatchJump (EntryPatchCode : list Z) (entry SlideAddr : Z) (k : KernelPatch)
    : option (EFI_STATUS * KernelPatch) :=
  if entry =? 0 then Some (EFI_NOT_FOUND, k) else
  let KernelEntry := if 0 <? SlideAddr then wrap64 (entry + SlideAddr) else entry in
  KernelEntryPatchJump EntryPatchCode (wrap32 KernelEntry) k.

(** ** The kernel's arguments *)

Definition kBootArgsVersion1 : Z := 1.
Definition kBootArgsFlagCSRActiveConfig : Z := Z.shiftl 1 3.

(** What the driver uses of the two versions of the structure. *)
Record KernelArgs := {
  ka_Version : Z; ka_flags : Z; ka_csrActiveConfig : Z; ka_CommandLine : list Z; ka_MemoryMap : list EFI_MEMORY_DESCRIPTOR;
  ka_chosen : option (list Z)
}.

(** [mBootArgs.csrActiveConfig] is not NULL. *)
Definition GetBootArgs (BA : KernelArgs) : bool :=
  negb (ka_Version BA =? kBootArgsVersion1) && negb (Z.land (ka_flags BA) kBootArgsFlagCSRActiveConfig =? 0).

Definition UpdateEnvironmentForBooting (fuel : nat) (RelocInfo : list RT_RELOC_PROTECT_INFO) (BA : KernelArgs) (s : Slides)
    : option (KernelArgs * Slides) :=
  r ← RestoreCustomSlideOverrides fuel (if GetBootArgs BA then Some (ka_csrActiveConfig BA) else None)
        (ka_CommandLine BA) (ka_chosen BA) s;
  let '(csr, (CommandLine, chosen, s)) := r in
  Some ({| ka_Version := ka_Version BA; ka_flags := ka_flags BA; ka_csrActiveConfig := default (ka_csrActiveConfig BA) csr;
           ka_CommandLine := CommandLine; ka_MemoryMap := RestoreProtectedRtMemoryTypes RelocInfo (ka_MemoryMap BA);
           ka_chosen := chosen |}, s).

(** ** Waking from hibernation *)

Definition kIOHibernateHandoffType : Z := 0x686f0000.
Definition kIOHibernateHandoffTypeEnd : Z := kIOHibernateHandoffType + 0.
Definition kIOHibernateHandoffTypeMemoryMap : Z := kIOHibernateHandoffType + 3.

(** A record in the handoff pages; the data of a memory map are descriptors. *)
Record Handoff := { ho_type : Z; ho_data : list EFI_MEMORY_DESCRIPTOR }.

(** The loop over the records; [None] runs past the last record. *)
Fixpoint handoff_loop (gHasBrokenS4MemoryMap : bool) (RelocInfo : list RT_RELOC_PROTECT_INFO) (l : list Handoff) : option (list Handoff) :=
  match l with
  | [] => None
  | h :: l =>
      if ho_type h =? kIOHibernateHandoffTypeEnd then Some (h :: l)
      else if ho_type h =? kIOHibernateHandoffTypeMemoryMap then
        Some ((if gHasBrokenS4MemoryMap then {| ho_type := kIOHibernateHandoffType; ho_data := ho_data h |}
               else {| ho_type := ho_type h; ho_data := RestoreProtectedRtMemoryTypes RelocInfo (ho_data h) |}) :: l)
      else cons h <$> handoff_loop gHasBrokenS4MemoryMap RelocInfo l
  end.

Record ImageHeader := { ih_runtimePages : Z; ih_systemTableOffset : Z; ih_handoff : list Handoff }.

Definition UpdateEnvironmentForHibernateWake (gHasBrokenS4MemoryMap : bool) (RelocInfo : list RT_RELOC_PROTECT_INFO)
    (gRelocatedSysTableRtArea : Z) (h : ImageHeader) : option ImageHeader :=
  l ← handoff_loop gHasBrokenS4MemoryMap RelocInfo (ih_handoff h);
  Some {| ih_runtimePages := ih_runtimePages h;
          ih_systemTableOffset := wrap32 (gRelocatedSysTableRtArea - ih_runtimePages h); ih_handoff := l |}.

(** What the kernel gets: its arguments or the hibernation image. *)
Inductive KernelInput := Booting (BA : KernelArgs) | Waking (h : ImageHeader).

(** Undoing the changes for boot.efi; [gHibernateWake] selects the input. *)
Definition update_environment (fuel : nat) (gHasBrokenS4MemoryMap : bool) (RelocInfo : list RT_RELOC_PROTECT_INFO)
    (gRelocatedSysTableRtArea : Z) (Args : KernelInput) (s : Slides) : option (KernelInput * Slides) :=
  match Args with
  | Waking h => h ← UpdateEnvironmentForHibernateWake gHasBrokenS4MemoryMap RelocInfo gRelocatedSysTableRtArea h; Some (Waking h, s)
  | Booting BA => r ← UpdateEnvironmentForBooting fuel RelocInfo BA s; Some (Booting r.1, r.2)
  end.

(** The callback. *)
Definition KernelEntryPatchJumpBack (fuel : nat) (gHasBrokenS4MemoryMap : bool) (RelocInfo : list RT_RELOC_PROTECT_INFO)
    (gRelocatedSysTableRtArea : Z) (Args : KernelInput) (s : Slides) (k : KernelPatch)
    : option (KernelInput * Slides * KernelPatch) :=
  r ← update_environment fuel gHasBrokenS4MemoryMap RelocInfo gRelocatedSysTableRtArea Args s;
  code ← ram_get (mOrigKernelCode k) 0 (mOrigKernelCodeSize k);
  ram' ← ram_put (ram k) (AsmKernelEntry k) code;
  Some (r, {| ram := ram'; mOrigKernelCode := mOrigKernelCode k; mOrigKernelCodeSize := mOrigKernelCodeSize k;
              AsmKernelEntry := AsmKernelEntry k |}).

(** ** boot.efi's arguments *)

(** Copies at most [DestMax - 1] characters and the terminator. *)
Fixpoint to_ascii (n : nat) (Source : list Z) : list Z :=
  match n, Source with
  | S n, c :: Source => if c =? 0 then [] else Z.land c 0xFF :: to_ascii n Source
  | _, _ => []
  end.

Definition UnicodeStrToAsciiStrS (Source : list Z) (DestMax : nat) (Destination : list Z) : list Z :=
  store 0 (to_ascii (DestMax - 1) Source ++ [0]) Destination.

Definition slide_given (BootArgsVar : list Z) : option bool :=
  s ← string_of BootArgsVar; Some (bool_decide (GetArgumentFromCommandLine s (str_bytes "slide=") 6 ≠ None)).

Section Arguments.
Context (OrgGetVariable : list Z → list Z → Z → list Z → VarResult).
Context (gEfiAppleBootGuid : list Z).

(** [BootArgsVar] starts as what is on the stack.  The last character of the options is
    replaced while they are read. *)
Definition ReadBooterArguments (Options BootArgsVar : list Z) (gSlideArgPresent : bool) : option bool :=
  r ← (match Options with
       | [] => Some (BootArgsVar, gSlideArgPresent)
       | _ =>
           let Options := <[(length Options - 1)%nat := 0]> Options in
           let BootArgsVar := UnicodeStrToAsciiStrS Options BOOT_LINE_LENGTH BootArgsVar in
           b ← slide_given BootArgsVar; Some (BootArgsVar, gSlideArgPresent || b)
       end);
  let '(BootArgsVar, gSlideArgPresent) := r in
  let v := OrgGetVariable L_boot_args gEfiAppleBootGuid (Z.of_nat BOOT_LINE_LENGTH) BootArgsVar in
  if negb (EFI_ERROR (vr_status v)) && (0 <? vr_size v) then
    b ← slide_given (<[Z.to_nat (vr_size v - 1) := 0]> (vr_data v)); Some (gSlideArgPresent || b)
  else Some gSlideArgPresent.
End Arguments.

(** gHasBrokenS4MemoryMap and gHasBrokenS4Allocator. *)
Definition ApplyFirmwareQuirks (FirmwareVendor : option (list Z)) (q : bool * bool) : bool * bool :=
  match FirmwareVendor with
  | None => q
  | Some v =>
      if bool_decide (v = str_bytes "American Megatrends") then (true, q.2)
      else if bool_decide (v = str_bytes "INSYDE Corp.") then (true, true)
      else q
  end.
