(* ===== verification/BootServices.v ===== *)
(** * AptioMemoryFix: virtual addresses and leaving boot services

    [PrepareJumpFromKernel] and [ExecSetVirtualAddressesToMemMap] of BootFixes.c, and
    the overrides of ExitBootServices and SetVirtualAddressMap of ServiceOverrides.c,
    which put the other parts of the driver together. *)

From Stdlib Require Import ZArith Lia.
From stdpp Require Import base list list_numbers gmap.
From S2P Require Import Prelude MemoryMap MemoryAlloc MemoryServices RtShims BootArgs CustomSlide VMem BootFixes.

Open Scope Z_scope.

(** ** The copy of the system table *)

(** [HeaderSize] of a table at [a]. *)
Definition HeaderSize (ram : list Z) (a : Z) : option Z := le_get <$> ram_get ram (a + 12) 4.

(** The address of the copy and memory; the source is a 32-bit address. *)
Definition CopyEfiSysTableToRtArea (gSysTableRtArea EfiSystemTable : Z) (ram : list Z) : option (Z * list Z) :=
  n ← HeaderSize ram EfiSystemTable;
  table ← ram_get ram EfiSystemTable n;
  ram ← ram_put ram gSysTableRtArea table;
  Some (wrap32 gSysTableRtArea, ram).

(** ** Preparing the jump *)

Record Jump := { JumpToKernel32Addr : Z; JumpToKernel64Addr : Z; gSysTableRtArea : Z }.

(** [code] is the assembly from JumpToKernel to JumpToKernelEnd, with the two entries at
    [off32] and [off64]; [gST] is the address of the system table. *)
Definition PrepareJumpFromKernel {F} `{Firmware F} (fuel : nat) (code : list Z) (off32 off64 gST : Z) (j : Jump) (ram : list Z) (f : F)
    : option (EFI_STATUS * Jump * list Z * F) :=
  if negb (JumpToKernel32Addr j =? 0) then Some (EFI_SUCCESS, j, ram, f) else
  r ← AllocatePagesFromTop (λ _ _, false) false fuel 1 BASE_4GB f;
  let '(Status, HigherMem, f) := r in
  if EFI_ERROR Status then Some (Status, j, ram, f) else
  let j := {| JumpToKernel32Addr := wrap64 (HigherMem + off32); JumpToKernel64Addr := wrap64 (HigherMem + off64);
              gSysTableRtArea := gSysTableRtArea j |} in
  if EFI_PAGES_TO_SIZE 1 <? Z.of_nat (length code) then Some (EFI_BUFFER_TOO_SMALL, j, ram, f) else
  ram ← ram_put ram HigherMem code;
  r ← AllocatePagesFromTop (λ _ _, false) false fuel 1 BASE_4GB f;
  let '(Status, area, f) := r in
  let j := {| JumpToKernel32Addr := JumpToKernel32Addr j; JumpToKernel64Addr := JumpToKernel64Addr j; gSysTableRtArea := area |} in
  if EFI_ERROR Status then Some (Status, j, ram, f) else
  n ← HeaderSize ram gST;
  table ← ram_get ram gST n;
  ram ← ram_put ram area table;
  Some (Status, j, ram, f).

(** ** The partial memory map *)

Definition ReservedMemoryType : Z := 0.

(** [sizeof (mVirtualMemoryMap)]. *)
Definition sizeof_mVirtualMemoryMap : Z := 64 * 40.

(** The descriptors that are virtualised. *)
Definition is_runtime (D : EFI_MEMORY_DESCRIPTOR) : bool :=
  negb (Type_ D =? ReservedMemoryType) && negb (Z.land (Attribute D) EFI_MEMORY_RUNTIME =? 0).

(** The page tables and the statics; [mVirtualMemoryMap] is its used part. *)
Record Virt := {
  v_vm : VM; mVirtualMemoryMap : list EFI_MEMORY_DESCRIPTOR; mVirtualMapSize : Z; mVirtualMapDescriptorSize : Z;
  gRelocatedSysTableRtArea : Z
}.

(** The future address of the system table, if it is in the descriptor. *)
Definition relocated (area : Z) (D : EFI_MEMORY_DESCRIPTOR) (old : Z) : Z :=
  if (PhysicalStart D <=? area) && (area <? wrap64 (PhysicalStart D + EFI_PAGES_TO_SIZE (NumberOfPages D)))
  then wrap64 (Z.land (VirtualStart D) 0x7FFFFFFFFF + (area - PhysicalStart D)) else old.

(** The loop; false if the map is full.  The status of mapping is not looked at. *)
Fixpoint exec_loop (PageTable area ds : Z) (l : list EFI_MEMORY_DESCRIPTOR) (v : Virt) : option (bool * Virt) :=
  match l with
  | [] => Some (true, v)
  | D :: l =>
      if is_runtime D then
        if sizeof_mVirtualMemoryMap <? wrap64 (mVirtualMapSize v + ds) then Some (false, v) else
        r ← VmMapVirtualPages PageTable (VirtualStart D) (Z.to_nat (NumberOfPages D)) (PhysicalStart D) (v_vm v);
        exec_loop PageTable area ds l {|
          v_vm := r.2; mVirtualMemoryMap := mVirtualMemoryMap v ++ [D]; mVirtualMapSize := wrap64 (mVirtualMapSize v + ds);
          mVirtualMapDescriptorSize := mVirtualMapDescriptorSize v;
          gRelocatedSysTableRtArea := relocated area D (gRelocatedSysTableRtArea v) |}
      else exec_loop PageTable area ds l v
  end.

(** The statics of the driver that these operations use, and memory. *)
Record Driver := {
  d_kernel : KernelPatch; d_jump : Jump; d_virt : Virt; d_reloc : list RT_RELOC_PROTECT_INFO; d_shims : Shims; d_monitor : Monitor;
  mExitBSMapKey : Z; rt_overridden : bool
}.

Definition set_kernel (k : KernelPatch) (d : Driver) : Driver := {|
  d_kernel := k; d_jump := d_jump d; d_virt := d_virt d; d_reloc := d_reloc d; d_shims := d_shims d; d_monitor := d_monitor d;
  mExitBSMapKey := mExitBSMapKey d; rt_overridden := rt_overridden d |}.
Definition set_ram (m : list Z) (k : KernelPatch) : KernelPatch := {|
  ram := m; mOrigKernelCode := mOrigKernelCode k; mOrigKernelCodeSize := mOrigKernelCodeSize k; AsmKernelEntry := AsmKernelEntry k |}.
Definition set_virt (v : Virt) (d : Driver) : Driver := {|
  d_kernel := d_kernel d; d_jump := d_jump d; d_virt := v; d_reloc := d_reloc d; d_shims := d_shims d; d_monitor := d_monitor d;
  mExitBSMapKey := mExitBSMapKey d; rt_overridden := rt_overridden d |}.
Definition set_reloc (l : list RT_RELOC_PROTECT_INFO) (d : Driver) : Driver := {|
  d_kernel := d_kernel d; d_jump := d_jump d; d_virt := d_virt d; d_reloc := l; d_shims := d_shims d; d_monitor := d_monitor d;
  mExitBSMapKey := mExitBSMapKey d; rt_overridden := rt_overridden d |}.
Definition set_shims (s : Shims) (d : Driver) : Driver := {|
  d_kernel := d_kernel d; d_jump := d_jump d; d_virt := d_virt d; d_reloc := d_reloc d; d_shims := s; d_monitor := d_monitor d;
  mExitBSMapKey := mExitBSMapKey d; rt_overridden := rt_overridden d |}.
Definition set_key (k : Z) (d : Driver) : Driver := {|
  d_kernel := d_kernel d; d_jump := d_jump d; d_virt := d_virt d; d_reloc := d_reloc d; d_shims := d_shims d; d_monitor := d_monitor d;
  mExitBSMapKey := k; rt_overridden := rt_overridden d |}.

Definition UninstallRtOverrides (d : Driver) : Driver := {|
  d_kernel := d_kernel d; d_jump := d_jump d; d_virt := d_virt d; d_reloc := d_reloc d; d_shims := d_shims d; d_monitor := d_monitor d;
  mExitBSMapKey := mExitBSMapKey d; rt_overridden := false |}.

Section Overrides.
Context {F : Type} `{Firmware F}.
(** The firmware's SetVirtualAddressMap: the map's size, the size of a descriptor and
    the descriptors; it may change memory, and it runs with the page tables as they are. *)
Context (SetVirtualAddressMap : Z → Z → list EFI_MEMORY_DESCRIPTOR → list Z → VM → F → EFI_STATUS * list Z * F).

(** [gRT->SetVirtualAddressMap]: with the override in place the call would not end. *)
Definition call_SetVirtualAddressMap (size ds : Z) (l : list EFI_MEMORY_DESCRIPTOR) (d : Driver) (f : F) : option (EFI_STATUS * Driver * F) :=
  if rt_overridden d then None else
  let '(Status, m, f) := SetVirtualAddressMap size ds l (ram (d_kernel d)) (v_vm (d_virt d)) f in
  Some (Status, set_kernel (set_ram m (d_kernel d)) d, f).

Definition ExecSetVirtualAddressesToMemMap (CR3 ds : Z) (MemoryMap : list EFI_MEMORY_DESCRIPTOR) (d : Driver) (f : F)
    : option (EFI_STATUS * Driver * F) :=
  let v := d_virt d in
  r ← exec_loop (GetCurrentPageTable CR3) (gSysTableRtArea (d_jump d)) ds MemoryMap {|
        v_vm := v_vm v; mVirtualMemoryMap := []; mVirtualMapSize := 0; mVirtualMapDescriptorSize := ds;
        gRelocatedSysTableRtArea := gRelocatedSysTableRtArea v |};
  let '(all, v) := r in
  if negb all then Some (EFI_OUT_OF_RESOURCES, set_virt v d, f)
  else call_SetVirtualAddressMap (mVirtualMapSize v) ds (mVirtualMemoryMap v) (set_virt v d) f.

(** The override; the result includes the caller's map. *)
Definition MOSetVirtualAddressMap (fuel : nat) (gMacOSBootNestedCount : Z) (gDumpMemArgPresent : bool) (CR3 gST ds : Z)
    (VirtualMap : list EFI_MEMORY_DESCRIPTOR) (d : Driver) (f : F) : option (EFI_STATUS * list EFI_MEMORY_DESCRIPTOR * Driver * F) :=
  let d := UninstallRtOverrides d in
  r ← (if 0 <? gMacOSBootNestedCount then
         f ← (if gDumpMemArgPresent then snd <$> ForceExitBootServices fuel (mExitBSMapKey d) f else Some f);
         let '(VirtualMap, info) := ProtectRtMemoryFromRelocation VirtualMap (gSysTableRtArea (d_jump d)) in
         r ← ExecSetVirtualAddressesToMemMap CR3 ds VirtualMap (set_reloc info d) f;
         let '(Status, d, f) := r in
         c ← CopyEfiSysTableToRtArea (gSysTableRtArea (d_jump d)) (wrap32 gST) (ram (d_kernel d));
         Some (Status, VirtualMap, set_kernel (set_ram c.2 (d_kernel d)) d, f)
       else
         r ← call_SetVirtualAddressMap (Z.of_nat (length VirtualMap) * ds) ds VirtualMap d f;
         let '(Status, d, f) := r in Some (Status, VirtualMap, d, f));
  let '(Status, VirtualMap, d, f) := r in
  s ← VirtualizeRtShims VirtualMap (d_shims d);
  Some (Status, VirtualMap, set_shims s d, f).

(** ** ExitBootServices *)

(** The Mach-O library finds the entry in memory at the image's address. *)
Context (MachoRuntimeGetEntryAddress : list Z → Z → Z).

(** The entry in the hibernation image at [a]: fileExtentMap is at offset 480 of its
    header, fileExtentMapSize at 476 and restore1CodeOffset at 36. *)
Definition hibernate_entry (ram : list Z) (a : Z) : option Z :=
  size ← le_get <$> ram_get ram (a + 476) 4;
  off ← le_get <$> ram_get ram (a + 36) 4;
  Some (wrap32 (wrap32 (a + 480) + size + off)).

Definition MOExitBootServices (fuel : nat) (EntryPatchCode : list Z) (gMacOSBootNestedCount : Z) (gHibernateWake gDumpMemArgPresent : bool)
    (MapKey : Z) (d : Driver) (f : F) : option (EFI_STATUS * Driver * F) :=
  if gMacOSBootNestedCount =? 0 then let '(Status, f) := ExitBootServices MapKey f in Some (Status, d, f) else
  if gHibernateWake && (mHibernateImageAddress (d_monitor d) =? 0) then Some (EFI_INVALID_PARAMETER, d, f) else
  r ← (if gDumpMemArgPresent then Some (EFI_SUCCESS, set_key MapKey d, f)
       else r ← ForceExitBootServices fuel MapKey f; Some (r.1, d, r.2));
  let '(Status, d, f) := r in
  if EFI_ERROR Status then Some (Status, d, f) else
  let k := d_kernel d in
  r ← (if negb gHibernateWake then
         let SlideAddr := wrap64 (mMinAllocatedAddr (d_monitor d) - 0x100000) in
         KernelEntryFromMachOPatchJump EntryPatchCode
           (MachoRuntimeGetEntryAddress (ram k) (wrap64 (SlideAddr + SLIDE_GRANULARITY))) SlideAddr k
       else
         entry ← hibernate_entry (ram k) (mHibernateImageAddress (d_monitor d));
         KernelEntryPatchJump EntryPatchCode entry k);
  Some (Status, set_kernel r.2 d, f).
End Overrides.
