(* ===== verification/BootVirtual.v ===== *)
(** * AptioMemoryFix: setting virtual addresses, theorems (BootFixes.c,
    ServiceOverrides.c) *)

From Stdlib Require Import ZArith Lia.
From stdpp Require Import base list list_numbers gmap.
From S2P Require Import Prelude MemoryMap MemoryAlloc MemoryServices RtShims BootArgs CustomSlide.
From S2P Require Import VMem VMemProofs VMemTheorems VMemRange BootFixes BootServices.

Open Scope Z_scope.

(** ** Runtime memory *)

Definition runtime (l : list EFI_MEMORY_DESCRIPTOR) : list EFI_MEMORY_DESCRIPTOR := filter (λ D, is_runtime D = true) l.

(** As the UEFI specification demands: page aligned, and no overflow. *)
Record rt_ok (D : EFI_MEMORY_DESCRIPTOR) : Prop := {
  ro_pages : 0 ≤ NumberOfPages D;
  ro_phys : 0 ≤ PhysicalStart D ∧ PhysicalStart D mod 4096 = 0 ∧ PhysicalStart D + 4096 * NumberOfPages D < 2 ^ 52;
  ro_virt : 0 ≤ VirtualStart D ∧ VirtualStart D mod 4096 = 0 ∧ VirtualStart D + 4096 * NumberOfPages D < 2 ^ 64
}.

Definition pages_of (D : EFI_MEMORY_DESCRIPTOR) : list (Z * Z) :=
  range_pages (VirtualStart D) (PhysicalStart D) (Z.to_nat (NumberOfPages D)).

Definition all_pages (l : list EFI_MEMORY_DESCRIPTOR) : list (Z * Z) := concat (pages_of <$> l).

Lemma map_desc pt D s : rt_ok D →
  VmMapVirtualPages pt (VirtualStart D) (Z.to_nat (NumberOfPages D)) (PhysicalStart D) s = map_all pt (pages_of D) s.
Proof. intros [H1 H2 H3]. apply map_pages_all; lia. Qed.

(** ** The loop *)

(** The loop maps the pages of all runtime descriptors and collects these. *)
Lemma exec_loop_ok pt area ds l : ∀ v vm', 0 < ds → Forall rt_ok (runtime l) → 0 ≤ mVirtualMapSize v →
  mVirtualMapSize v + Z.of_nat (length (runtime l)) * ds ≤ sizeof_mVirtualMemoryMap →
  map_all pt (all_pages (runtime l)) (v_vm v) = Some (EFI_SUCCESS, vm') →
  exec_loop pt area ds l v = Some (true, {|
    v_vm := vm'; mVirtualMemoryMap := mVirtualMemoryMap v ++ runtime l;
    mVirtualMapSize := mVirtualMapSize v + Z.of_nat (length (runtime l)) * ds; mVirtualMapDescriptorSize := mVirtualMapDescriptorSize v;
    gRelocatedSysTableRtArea := foldl (λ r D, relocated area D r) (gRelocatedSysTableRtArea v) (runtime l) |}).
Proof.
  induction l as [|D l IH]; intros v vm' Hds Hok Hs0 Hs Hm; cbn [exec_loop].
  { injection Hm as <-. destruct v; cbn. by rewrite app_nil_r, Z.add_0_r. }
  unfold runtime in *. rewrite filter_cons in *. destruct (is_runtime D); [|by apply IH].
  rewrite decide_True in * by done. apply Forall_cons in Hok as [HD Hok]. cbn [length] in Hs.
  unfold sizeof_mVirtualMemoryMap in *. rewrite wrap64_small by lia. destruct (Z.ltb_spec (64 * 40) (mVirtualMapSize v + ds)); [lia|].
  unfold all_pages in Hm. rewrite fmap_cons in Hm. cbn [concat] in Hm. apply map_all_app in Hm as (s1 & E1 & E2).
  rewrite map_desc, E1 by done. cbn [mbind option_bind snd].
  rewrite (IH _ vm'); [|done|done|cbn [mVirtualMapSize]; lia|cbn [mVirtualMapSize]; lia|done]. cbn [v_vm mVirtualMemoryMap mVirtualMapSize mVirtualMapDescriptorSize gRelocatedSysTableRtArea foldl].
  rewrite <- app_assoc. cbn [app length]. do 3 f_equal. lia.
Qed.

(** ** Protection does not change what is mapped *)

Lemma is_runtime_protect area D : is_runtime (protect1 area D) = is_runtime D.
Proof.
  unfold protect1. destruct (is_protected area D) eqn:E; [|done]. unfold is_runtime. cbn [set_type Type_ Attribute].
  unfold is_protected in E. apply andb_true_iff in E as [E1 E2]. rewrite E1, !andb_true_r. apply orb_true_iff in E2 as [E2|E2].
  - apply Z.eqb_eq in E2. by rewrite E2.
  - apply andb_true_iff in E2 as [E2 _]. apply Z.eqb_eq in E2. by rewrite E2.
Qed.

Lemma runtime_protect area l : runtime (protect1 area <$> l) = protect1 area <$> runtime l.
Proof.
  unfold runtime. induction l as [|D l IH]; [done|]. rewrite fmap_cons, !filter_cons, is_runtime_protect.
  destruct (decide (is_runtime D = true)); [by rewrite fmap_cons, IH|done].
Qed.

Lemma protect1_fields area D : PhysicalStart (protect1 area D) = PhysicalStart D ∧ VirtualStart (protect1 area D) = VirtualStart D ∧
  NumberOfPages (protect1 area D) = NumberOfPages D.
Proof. unfold protect1. by destruct (is_protected area D). Qed.

Lemma rt_ok_protect area D : rt_ok D → rt_ok (protect1 area D).
Proof. destruct (protect1_fields area D) as (E1 & E2 & E3). intros [H1 H2 H3]. split; by rewrite ?E1, ?E2, ?E3. Qed.

Lemma all_pages_protect area l : all_pages (protect1 area <$> l) = all_pages l.
Proof.
  unfold all_pages. f_equal. rewrite <- list_fmap_compose. apply list_fmap_ext. intros i D _. simpl. unfold pages_of.
  by destruct (protect1_fields area D) as (-> & -> & ->).
Qed.

(** ** Translations of runtime memory *)

Lemma offset_page pa o : 0 ≤ pa → pa mod 4096 = 0 → 0 ≤ o → pa + o < 2 ^ 52 →
  Z.land (pa + 4096 * (o / 4096)) PT_ADDR_MASK_4K = pa + 4096 * (o / 4096).
Proof. intros. rewrite mask_4K. apply pg_page; [lia| |]; change (2 ^ sh 1) with 4096; lia. Qed.

Lemma runtime_maps pt l s s' D o : mapped_all pt (all_pages l) s s' → Forall rt_ok l → D ∈ l → 0 ≤ o < 4096 * NumberOfPages D →
  maps pt (VirtualStart D + o) (PhysicalStart D + o) s'.
Proof.
  intros HM Hok HD Ho. rewrite Forall_forall in Hok. destruct (Hok D HD) as [H1 (H2 & H3 & H4) (H5 & H6 & H7)].
  assert (maps pt (VirtualStart D + o) (Z.land (PhysicalStart D + 4096 * (o / 4096)) PT_ADDR_MASK_4K + bits (VirtualStart D + o) 0 12) s') as Hm.
  { apply (ma_page _ _ _ _ HM (VirtualStart D + 4096 * (o / 4096))).
    - apply list_elem_of_In, in_concat. exists (pages_of D). split; apply list_elem_of_In; [by apply list_elem_of_fmap_2|]. apply elem_of_range. exists (o / 4096).
      split; [lia|done].
    - unfold page_of. rewrite !bits_spec by lia. change (2 ^ 12) with 4096. f_equal. lia. }
  rewrite offset_page in Hm by lia. rewrite bits_spec in Hm by lia. change (2 ^ 0) with 1 in Hm. change (2 ^ 12) with 4096 in Hm.
  replace (PhysicalStart D + 4096 * (o / 4096) + (VirtualStart D + o) / 1 mod 4096) with (PhysicalStart D + o) in Hm by lia. done.
Qed.

(** ** Setting virtual addresses *)

Lemma copy_table_length area gST m a m' : CopyEfiSysTableToRtArea area gST m = Some (a, m') → length m' = length m.
Proof.
  unfold CopyEfiSysTableToRtArea. destruct (HeaderSize m gST); [|done]. cbn [mbind option_bind]. destruct (ram_get m gST _); [|done].
  cbn [mbind option_bind]. unfold ram_put. destruct (_ && _); [|done]. cbn [mbind option_bind]. intros [= _ <-]. apply length_store.
Qed.

(** The runtime memory [rt] can be mapped: it is well formed, no virtual page is in two
    descriptors, and the pool has three pages for each 2 MB that are touched. *)
Record mappable (pt : Z) (rt : list EFI_MEMORY_DESCRIPTOR) (s : VM) : Prop := {
  mb_tables : pt_ok s pt;
  mb_ok : Forall rt_ok rt;
  mb_distinct : NoDup (page_of <$> (all_pages rt).*1);
  mb_pool : 3 * Z.of_nat (size (regions (all_pages rt))) ≤ VmMemoryPoolFreePages s
}.

Lemma mappable_all pt rt s : mappable pt rt s → ∃ s', map_all pt (all_pages rt) s = Some (EFI_SUCCESS, s') ∧ mapped_all pt (all_pages rt) s s'.
Proof.
  intros [H1 H2 H3 H4]. apply (map_all_ok pt (all_pages rt) ∅ s); [done|by intros va p ?%not_elem_of_empty|done|].
  by rewrite difference_empty_L.
Qed.

Section Virtual.
Context {F : Type} `{Firmware F}.
Context (SetVirtualAddressMap : Z → Z → list EFI_MEMORY_DESCRIPTOR → list Z → VM → F → EFI_STATUS * list Z * F).

(** The virtual addresses of [map] can be set: the runtime descriptors fit in
    mVirtualMemoryMap and can be mapped, the driver can remember all it protects, and the
    shims are installed and not converted yet. *)
Record settable (CR3 ds : Z) (map : list EFI_MEMORY_DESCRIPTOR) (d : Driver) : Prop := {
  sv_size : 0 < ds;
  sv_fits : Z.of_nat (length (runtime map)) * ds ≤ sizeof_mVirtualMemoryMap;
  sv_distinct : NoDup (PhysicalStart <$> map);
  sv_protected : (length (protected (gSysTableRtArea (d_jump d)) map) ≤ APTIFIX_MAX_RT_RELOC_NUM)%nat;
  sv_mappable : mappable (GetCurrentPageTable CR3) (runtime map) (v_vm (d_virt d));
  sv_shims : sh_area (d_shims d) ≠ None;
  sv_once : mRtShimsAddrUpdated (d_shims d) = false;
  sv_fixed : Forall (λ p, Fixed p = false) (sh_ptrs (d_shims d))
}.

(** Page tables in which all of [rt] can be reached, and all else as in [s]. *)
Definition virtualised (pt : Z) (rt : list EFI_MEMORY_DESCRIPTOR) (s s' : VM) : Prop :=
  (∀ D o, D ∈ rt → 0 ≤ o < 4096 * NumberOfPages D → maps pt (VirtualStart D + o) (PhysicalStart D + o) s') ∧
  (∀ va a, page_of va ∉ page_of <$> (all_pages rt).*1 → maps pt va a s → maps pt va a s').

Lemma set_virtual_ok fuel nested CR3 gST ds map d f : 0 < nested → settable CR3 ds map d →
  let area := gSysTableRtArea (d_jump d) in
  let rt := runtime map in
  ∃ vm', virtualised (GetCurrentPageTable CR3) rt (v_vm (d_virt d)) vm' ∧
    ∀ st m f', SetVirtualAddressMap (Z.of_nat (length rt) * ds) ds (protect1 area <$> rt) (ram (d_kernel d)) vm' f = (st, m, f') →
      is_Some (CopyEfiSysTableToRtArea area (wrap32 gST) m) →
      ∃ d', MOSetVirtualAddressMap SetVirtualAddressMap fuel nested false CR3 gST ds map d f = Some (st, protect1 area <$> map, d', f') ∧
        v_vm (d_virt d') = vm' ∧ (∀ kept, kept ⊆+ map → RestoreProtectedRtMemoryTypes (d_reloc d') (protect1 area <$> kept) = kept) ∧
        sh_ptrs (d_shims d') = convert (protect1 area <$> map) <$> sh_ptrs (d_shims d) ∧ rt_overridden d' = false ∧
        ∃ m', d_kernel d' = set_ram m' (d_kernel d) ∧ length m' = length m.
Proof.
  intros Hn [Hds Hsize Hd Hp Hm Ha Hu Hf] area rt. set (pt := GetCurrentPageTable CR3) in *.
  destruct (mappable_all pt rt _ Hm) as (vm' & Em & HM). exists vm'. split.
  { split; [intros D o HD Ho; eapply runtime_maps; [exact HM|apply Hm|done|done]|]. intros va a' Hva. by apply (ma_other _ _ _ _ HM). }
  intros st m f' Ef [[a m'] Hc]. unfold MOSetVirtualAddressMap. destruct (Z.ltb_spec 0 nested); [|lia]. cbn [mbind option_bind].
  assert (∀ kept, kept ⊆+ map → let '(map', info) := ProtectRtMemoryFromRelocation map area in
    map' = protect1 area <$> map ∧ RestoreProtectedRtMemoryTypes info (protect1 area <$> kept) = kept) as Hpr.
  { intros kept Hk. pose proof (protect_restores map kept area Hd Hp Hk) as H'. destruct (ProtectRtMemoryFromRelocation map area). by destruct H' as (-> & _ & ->). }
  cbn [UninstallRtOverrides d_jump]. fold area. destruct (ProtectRtMemoryFromRelocation map area) as [map' info].
  destruct (Hpr map ltac:(done)) as [-> _]. unfold ExecSetVirtualAddressesToMemMap. cbn [d_virt set_reloc UninstallRtOverrides d_jump]. fold area pt.
  assert (runtime (protect1 area <$> map) = protect1 area <$> rt) as Ert by apply runtime_protect.
  rewrite (exec_loop_ok pt area ds _ _ vm'); cbn [mVirtualMapSize v_vm]; rewrite ?Ert, ?length_fmap, ?all_pages_protect; try (done || lia).
  2: { apply Forall_fmap. eapply Forall_impl; [exact (mb_ok _ _ _ Hm)|]. intros D HD. by apply rt_ok_protect. }
  cbn [mbind option_bind negb mVirtualMapSize mVirtualMemoryMap app]. unfold call_SetVirtualAddressMap.
  cbn [rt_overridden set_virt set_reloc UninstallRtOverrides d_kernel d_virt v_vm]. rewrite Z.add_0_l, Ef. cbn [mbind option_bind].
  cbn [d_jump d_kernel set_kernel set_ram ram set_virt set_reloc UninstallRtOverrides]. fold area. rewrite Hc. cbn [mbind option_bind d_shims set_kernel set_virt set_reloc UninstallRtOverrides].
  rewrite virtualize_ok by done. cbn [mbind option_bind]. eexists. split; [reflexivity|]. cbn. split; [done|].
  split; [intros kept Hk; by apply Hpr|]. split; [done|]. split; [done|]. exists m'. split; [done|]. by apply copy_table_length in Hc.
Qed.

(** C20. macOS sets virtual addresses while boot.efi runs ([settable]: the runtime descriptors fit in the 2560
    bytes of mVirtualMemoryMap, are well formed and no virtual page is in two of them; no two
    descriptors start at one address and at most 64 are to be protected; the page tables
    form a tree; the pool has three pages for each 2 MB that are touched; the shims are
    installed and not converted before.  Page tables that share a table, as in VBox and
    probably DUET, for which VMem.c has a special path, and the argument that dumps memory
    are not covered).  When the firmware's service is called, every byte of
    runtime memory can be reached at its virtual address and all other translations are as
    before, and the service gets exactly the runtime descriptors.  If then the system table can
    be copied, the call returns the firmware's status; runtime memory is hidden as
    memory-mapped I/O in the caller's map and the driver can undo that for any part of the map;
    the pointers of the shims are converted once by that map; and the override is gone. *)
Theorem virtual_addresses_set fuel nested CR3 gST ds map d f : 0 < nested → settable CR3 ds map d →
  let area := gSysTableRtArea (d_jump d) in
  let rt := runtime map in
  ∃ vm', virtualised (GetCurrentPageTable CR3) rt (v_vm (d_virt d)) vm' ∧
    ∀ st m f', SetVirtualAddressMap (Z.of_nat (length rt) * ds) ds (protect1 area <$> rt) (ram (d_kernel d)) vm' f = (st, m, f') →
      is_Some (CopyEfiSysTableToRtArea area (wrap32 gST) m) →
      ∃ d', MOSetVirtualAddressMap SetVirtualAddressMap fuel nested false CR3 gST ds map d f = Some (st, protect1 area <$> map, d', f') ∧
        v_vm (d_virt d') = vm' ∧ (∀ kept, kept ⊆+ map → RestoreProtectedRtMemoryTypes (d_reloc d') (protect1 area <$> kept) = kept) ∧
        sh_ptrs (d_shims d') = convert (protect1 area <$> map) <$> sh_ptrs (d_shims d) ∧ rt_overridden d' = false.
Proof.
  intros Hn Hs area rt. destruct (set_virtual_ok fuel nested CR3 gST ds map d f Hn Hs) as (vm' & Hv & Hr). exists vm'. split; [exact Hv|].
  intros st m f' Ef Hc. destruct (Hr st m f' Ef Hc) as (d' & E & H1 & H2 & H3 & H4 & _). by exists d'.
Qed.
End Virtual.

(** Runtime code of two pages, the page with the system table, and free memory. *)
Definition virt_map : list EFI_MEMORY_DESCRIPTOR := [
  {| Type_ := 5; PhysicalStart := 0x7000; VirtualStart := 0xffffff8000007000; NumberOfPages := 2; Attribute := EFI_MEMORY_RUNTIME |};
  {| Type_ := 6; PhysicalStart := 0; VirtualStart := 0xffffff8000000000; NumberOfPages := 1; Attribute := EFI_MEMORY_RUNTIME |};
  {| Type_ := 7; PhysicalStart := 0x9000; VirtualStart := 0; NumberOfPages := 3; Attribute := 0xf |}].

(** A system table of 16 bytes at 32, to be copied to 0. *)
Definition driver_demo : Driver := {|
  d_kernel := {| ram := replicate 44 0 ++ le_put 4 16 ++ replicate 16 0; mOrigKernelCode := replicate 32 0; mOrigKernelCodeSize := 0; AsmKernelEntry := 0 |};
  d_jump := {| JumpToKernel32Addr := 1; JumpToKernel64Addr := 1; gSysTableRtArea := 0 |};
  d_virt := {| v_vm := vm_demo; mVirtualMemoryMap := []; mVirtualMapSize := 0; mVirtualMapDescriptorSize := 0; gRelocatedSysTableRtArea := 0 |};
  d_reloc := []; d_shims := shim_demo; d_monitor := {| mMinAllocatedAddr := 0x100000; mMaxAllocatedAddr := 0x200000; mHibernateImageAddress := 0 |};
  mExitBSMapKey := 0; rt_overridden := true |}.

Lemma virt_map_ok : mappable 0x1000 (runtime virt_map) vm_demo.
Proof.
  split.
  - exact vm_demo_ok.
  - repeat (constructor; [split; simpl; lia|]). constructor.
  - apply (bool_decide_unpack _). vm_compute. exact I.
  - change (3 * Z.of_nat (size (regions (all_pages (runtime virt_map)))) ≤ 6).
    assert (size (regions (all_pages (runtime virt_map))) = 1)%nat as ->; [vm_compute; reflexivity|lia].
Qed.

Lemma virt_settable : settable 0x1000 48 virt_map driver_demo.
Proof.
  split.
  - lia.
  - vm_compute. discriminate.
  - apply (bool_decide_unpack _). vm_compute. exact I.
  - vm_compute. lia.
  - exact virt_map_ok.
  - discriminate.
  - reflexivity.
  - by repeat constructor.
Qed.

Lemma virtual_addresses_set_witness :
  ∃ d', MOSetVirtualAddressMap (λ _ _ _ m _ f, (EFI_SUCCESS, m, f)) 0 1 false 0x1000 32 48 virt_map driver_demo fixed0
      = Some (EFI_SUCCESS, protect1 0 <$> virt_map, d', fixed0) ∧
    RestoreProtectedRtMemoryTypes (d_reloc d') (protect1 0 <$> virt_map) = virt_map ∧
    maps 0x1000 0xffffff8000008123 0x8123 (v_vm (d_virt d')) ∧
    sh_ptrs (d_shims d') = convert (protect1 0 <$> virt_map) <$> sh_ptrs shim_demo ∧ rt_overridden d' = false.
Proof.
  destruct (virtual_addresses_set (λ _ _ _ m _ f, (EFI_SUCCESS, m, f)) 0 1 0x1000 32 48 virt_map driver_demo fixed0 ltac:(lia) virt_settable) as (vm' & [Hv _] & Hr).
  edestruct Hr as (d' & E & Ev & Hb & Hp & Ho); [reflexivity|vm_compute; by eexists|].
  exists d'. split; [exact E|]. split; [exact (Hb virt_map (reflexivity _))|]. split; [|split; [exact Hp|exact Ho]]. rewrite Ev.
  change (0x1000) with (GetCurrentPageTable 0x1000) at 1.
  refine (Hv {| Type_ := 5; PhysicalStart := 0x7000; VirtualStart := 0xffffff8000007000; NumberOfPages := 2; Attribute := EFI_MEMORY_RUNTIME |} 0x1123 _ _); [|simpl; lia].
  apply list_elem_of_here.
Defined.
