(* ===== verification/BootTheorems.v ===== *)
(** * AptioMemoryFix: from boot.efi to the kernel, theorems (BootFixes.c,
    ServiceOverrides.c)

    The page tables, the shims, the protection of runtime memory and the patch of the
    kernel's entry work together. *)

From Stdlib Require Import ZArith Lia.
From stdpp Require Import base list list_numbers gmap strings.
From S2P Require Import Prelude MemoryMap MemoryAlloc MemoryServices RtShims BootArgs CustomSlide SlideTheorems.
From S2P Require Import VMem VMemProofs VMemTheorems VMemRange BootFixes BootServices BootVirtual.

Open Scope Z_scope.

(** ** The kernel's entry *)

(** [code] was saved at [E]. *)
Definition saved (E : Z) (code : list Z) (k : KernelPatch) : Prop :=
  0 ≤ E ∧ E + Z.of_nat (length code) ≤ Z.of_nat (length (ram k)) ∧ AsmKernelEntry k = E ∧
  mOrigKernelCodeSize k = Z.of_nat (length code) ∧ (length code ≤ length (mOrigKernelCode k))%nat ∧
  slice 0 (length code) (mOrigKernelCode k) = code.

Lemma patch_ok P E k :
  length (mOrigKernelCode k) = 32%nat → (length P ≤ 32)%nat → 0 ≤ E → E + Z.of_nat (length P) ≤ Z.of_nat (length (ram k)) →
  ∃ k1, KernelEntryPatchJump P E k = Some (EFI_SUCCESS, k1) ∧ ram k1 = store (Z.to_nat E) P (ram k) ∧
    saved E (slice (Z.to_nat E) (length P) (ram k)) k1.
Proof.
  intros Ho Hp HE Hr. unfold KernelEntryPatchJump. destruct (Z.ltb_spec 32 (Z.of_nat (length P))); [lia|].
  rewrite ram_get_ok, ram_put_ok by lia. cbn [mbind option_bind]. rewrite Nat2Z.id.
  set (code := slice (Z.to_nat E) (length P) (ram k)). assert (length code = length P) as Hc by (apply length_slice; lia).
  eexists. split; [reflexivity|]. split; [done|]. unfold saved. cbn [ram mOrigKernelCode mOrigKernelCodeSize AsmKernelEntry].
  rewrite !length_store, Hc. split_and!; try (done || lia). by apply slice_store_eq; [|lia].
Qed.

Lemma back_ok E code k fuel broken info area args s r : saved E code k → update_environment fuel broken info area args s = Some r →
  KernelEntryPatchJumpBack fuel broken info area args s k = Some (r, set_ram (store (Z.to_nat E) code (ram k)) k).
Proof.
  intros (H1 & H2 & H3 & H4 & H5 & H6) Hu. unfold KernelEntryPatchJumpBack. rewrite Hu. cbn [mbind option_bind].
  rewrite H4, ram_get_ok by lia. cbn [mbind option_bind]. rewrite Nat2Z.id. change (Z.to_nat 0) with 0%nat.
  rewrite H6, H3, ram_put_ok by lia. cbn [mbind option_bind]. unfold set_ram. by rewrite H3, H4.
Qed.

(** The kernel's entry is patched with the jump to the driver, and whatever boot.efi
    and the firmware do to memory before it jumps there, the callback puts the
    original code back and changes no other byte of memory. *)
Theorem kernel_entry_restored P E k :
  length (mOrigKernelCode k) = 32%nat → (length P ≤ 32)%nat → 0 ≤ E → E + Z.of_nat (length P) ≤ Z.of_nat (length (ram k)) →
  ∃ k1, KernelEntryPatchJump P E k = Some (EFI_SUCCESS, k1) ∧ slice (Z.to_nat E) (length P) (ram k1) = P ∧
    ∀ fuel broken info area args s r m, length m = length (ram k) →
      update_environment fuel broken info area args s = Some r →
      ∃ k2, KernelEntryPatchJumpBack fuel broken info area args s (set_ram m k1) = Some (r, k2) ∧
        slice (Z.to_nat E) (length P) (ram k2) = slice (Z.to_nat E) (length P) (ram k) ∧
        ∀ i, ((i < Z.to_nat E) ∨ (Z.to_nat E + length P ≤ i))%nat → ram k2 !! i = m !! i.
Proof.
  intros Ho Hp HE Hr. destruct (patch_ok P E k Ho Hp HE Hr) as (k1 & E1 & Hram & Hs). exists k1. split; [done|].
  assert (length (slice (Z.to_nat E) (length P) (ram k)) = length P) as Hl by (apply length_slice; lia).
  split; [rewrite Hram; apply slice_store_same; lia|]. intros fuel broken info area args s r m Hm Hu.
  eexists. split; [apply (back_ok E (slice (Z.to_nat E) (length P) (ram k))); [|exact Hu]|].
  { destruct Hs as (H1 & H2 & H3). split; [done|]. rewrite Hram, length_store in H2. split; [cbn [ram set_ram]; lia|done]. }
  cbn [ram set_ram]. split; [apply slice_store_eq; lia|]. intros i Hi. apply store_outside. lia.
Qed.

Definition kernel_demo : KernelPatch :=
  {| ram := seqZ 0 64; mOrigKernelCode := replicate 32 0; mOrigKernelCodeSize := 0; AsmKernelEntry := 0 |}.

Lemma kernel_entry_restored_witness :
  ∃ k1, KernelEntryPatchJump [0xE8; 1; 2] 16 kernel_demo = Some (EFI_SUCCESS, k1) ∧
    slice (Z.to_nat 16) (length [0xE8; 1; 2]) (ram k1) = [0xE8; 1; 2] ∧
    ∀ fuel broken info area args s r m, length m = length (ram kernel_demo) →
      update_environment fuel broken info area args s = Some r →
      ∃ k2, KernelEntryPatchJumpBack fuel broken info area args s (set_ram m k1) = Some (r, k2) ∧
        slice (Z.to_nat 16) (length [0xE8; 1; 2]) (ram k2) = slice (Z.to_nat 16) (length [0xE8; 1; 2]) (ram kernel_demo) ∧
        ∀ i, ((i < Z.to_nat 16) ∨ (Z.to_nat 16 + length [0xE8; 1; 2] ≤ i))%nat → ram k2 !! i = m !! i.
Proof. apply (kernel_entry_restored [0xE8; 1; 2] 16 kernel_demo); vm_compute; (reflexivity || lia || done). Defined.

(** ** Waking from hibernation *)

(** The records that the kernel sees: those before the end marker. *)
Fixpoint visible_handoff (l : list Handoff) : list Handoff :=
  match l with
  | [] => []
  | h :: l => if ho_type h =? kIOHibernateHandoffTypeEnd then [] else h :: visible_handoff l
  end.

Lemma visible_skip l1 l : Forall (λ h, ho_type h ≠ kIOHibernateHandoffTypeEnd) l1 → visible_handoff (l1 ++ l) = l1 ++ visible_handoff l.
Proof. induction 1 as [|h l1 Hh H IH]; [done|]. cbn [app visible_handoff]. destruct (Z.eqb_spec (ho_type h) kIOHibernateHandoffTypeEnd); [done|]. by rewrite IH. Qed.

Lemma handoff_skip broken info l1 l :
  Forall (λ h, ho_type h ≠ kIOHibernateHandoffTypeEnd ∧ ho_type h ≠ kIOHibernateHandoffTypeMemoryMap) l1 →
  handoff_loop broken info (l1 ++ l) = app l1 <$> handoff_loop broken info l.
Proof.
  induction 1 as [|h l1 [H1 H2] H IH]; [cbn [app]; by destruct (handoff_loop broken info l)|]. cbn [app handoff_loop].
  destruct (Z.eqb_spec (ho_type h) kIOHibernateHandoffTypeEnd); [done|].
  destruct (Z.eqb_spec (ho_type h) kIOHibernateHandoffTypeMemoryMap); [done|]. rewrite IH. by destruct (handoff_loop broken info l).
Qed.

(** On a wake the memory map handed to the kernel gets its runtime types back and all
    other records stay; on firmware whose map is not trusted, the map's record is
    turned into the end marker (the two constants are the same number), so that the
    kernel loses not only the map but also every record after it. *)
Theorem handoff_map broken info area h l1 m l2 :
  Forall (λ h, ho_type h ≠ kIOHibernateHandoffTypeEnd ∧ ho_type h ≠ kIOHibernateHandoffTypeMemoryMap) l1 →
  ho_type m = kIOHibernateHandoffTypeMemoryMap → ih_handoff h = l1 ++ m :: l2 →
  ∃ h', UpdateEnvironmentForHibernateWake broken info area h = Some h' ∧
    visible_handoff (ih_handoff h') =
      if broken then l1
      else l1 ++ {| ho_type := ho_type m; ho_data := RestoreProtectedRtMemoryTypes info (ho_data m) |} :: visible_handoff l2.
Proof.
  intros H1 Hm Hh. unfold UpdateEnvironmentForHibernateWake. rewrite Hh, handoff_skip by done. cbn [handoff_loop]. rewrite Hm.
  change (kIOHibernateHandoffTypeMemoryMap =? kIOHibernateHandoffTypeEnd) with false. rewrite Z.eqb_refl. cbn [fmap option_fmap option_map mbind option_bind].
  eexists. split; [reflexivity|]. cbn [ih_handoff].
  rewrite visible_skip by (eapply Forall_impl; [exact H1|]; by intros ? []). destruct broken; cbn [visible_handoff ho_type].
  - change (kIOHibernateHandoffType =? kIOHibernateHandoffTypeEnd) with true. by rewrite app_nil_r.
  - by change (kIOHibernateHandoffTypeMemoryMap =? kIOHibernateHandoffTypeEnd) with false.
Qed.

(** A key store after the memory map. *)
Definition handoff_demo : ImageHeader := {|
  ih_runtimePages := 0; ih_systemTableOffset := 0;
  ih_handoff := [{| ho_type := 0x686f0003; ho_data := rt_map |}; {| ho_type := 0x686f0006; ho_data := [] |}; {| ho_type := 0x686f0000; ho_data := [] |}] |}.

Lemma handoff_map_witness :
  ∃ h', UpdateEnvironmentForHibernateWake true [] 0x3000 handoff_demo = Some h' ∧ visible_handoff (ih_handoff h') = [].
Proof.
  apply (handoff_map true [] 0x3000 handoff_demo [] {| ho_type := 0x686f0003; ho_data := rt_map |}
    [{| ho_type := 0x686f0006; ho_data := [] |}; {| ho_type := 0x686f0000; ho_data := [] |}]); [constructor|reflexivity|reflexivity].
Defined.

(** ** Both ends of a boot *)

Lemma update_booting fuel broken info area BA s cmd_s :
  string_of (ka_CommandLine BA) = Some cmd_s → at_words (str_bytes "slide=") cmd_s → ka_chosen BA = None → (length cmd_s < fuel)%nat →
  ∃ BA' s' out, update_environment fuel broken info area (Booting BA) s = Some (Booting BA', s') ∧
    ka_MemoryMap BA' = RestoreProtectedRtMemoryTypes info (ka_MemoryMap BA) ∧
    string_of (ka_CommandLine BA') = Some out ∧ words out = others (str_bytes "slide=") (words cmd_s).
Proof.
  intros Hc Hw Hn Hf. destruct slide_key_ok as [Hk _].
  destruct (remove_ok (str_bytes "slide=") fuel (ka_CommandLine BA) cmd_s Hc ltac:(done) Hk Hw Hf) as (cmd' & out & E1 & _ & S1 & W1 & _).
  unfold update_environment, UpdateEnvironmentForBooting, RestoreCustomSlideOverrides, HideSlideFromOS. rewrite E1, Hn. cbn [mbind option_bind].
  eexists _, _, out. split; [reflexivity|]. done.
Qed.

Section Boot.
Context {F : Type} `{Firmware F}.
Context (SetVirtualAddressMap : Z → Z → list EFI_MEMORY_DESCRIPTOR → list Z → VM → F → EFI_STATUS * list Z * F).
(** The firmware does not change how much memory there is. *)
Context (Hlen : ∀ size ds l m vm f, length (SetVirtualAddressMap size ds l m vm f).1.2 = length m).

(** Leaving boot services with a key that the firmware accepts patches the kernel's entry. *)
Lemma exit_patches (macho : list Z → Z → Z) fuel P nested key d f f1 : 0 < nested → ExitBootServices key f = (EFI_SUCCESS, f1) →
  let SlideAddr := wrap64 (mMinAllocatedAddr (d_monitor d) - 0x100000) in
  ∀ e k, KernelEntryFromMachOPatchJump P (macho (ram (d_kernel d)) (wrap64 (SlideAddr + SLIDE_GRANULARITY))) SlideAddr (d_kernel d) = Some (e, k) →
    MOExitBootServices macho fuel P nested false false key d f = Some (EFI_SUCCESS, set_kernel k d, f1).
Proof.
  intros Hn He SlideAddr e k Ek. unfold MOExitBootServices, ForceExitBootServices. destruct (Z.eqb_spec nested 0); [lia|]. cbn [andb negb].
  rewrite He. cbn [EFI_ERROR mbind option_bind fst snd]. fold SlideAddr. by rewrite Ek.
Qed.

(** C21. A boot, not a wake from hibernation, from one end to the other.  boot.efi leaves boot
    services with a key that the firmware accepts and the kernel's entry, which its header must
    give and whose first bytes must be in memory, is patched; boot.efi changes memory as it likes and sets virtual addresses (under the conditions of C20, among
    them at most 64 descriptors to protect); memory is changed again, and the kernel is entered
    with its arguments.  Both calls return, and the kernel then starts with its own code at the
    entry and every other byte as it was last left, with the original types in its memory map
    (of which boot.efi may have dropped or reordered descriptors), and without the slide on its
    command line, where slide= must occur only at the start of words; boot-args under /chosen
    are not given, and the system table can be copied, as in C20. *)
Theorem boot_handoff (macho : list Z → Z → Z) fuel P nested key gST CR3 ds map d f f1 :
  let area := gSysTableRtArea (d_jump d) in
  let rt := runtime map in
  let SlideAddr := wrap64 (mMinAllocatedAddr (d_monitor d) - 0x100000) in
  let entry := macho (ram (d_kernel d)) (wrap64 (SlideAddr + SLIDE_GRANULARITY)) in
  let E := wrap32 (if 0 <? SlideAddr then wrap64 (entry + SlideAddr) else entry) in
  0 < nested → entry ≠ 0 → length (mOrigKernelCode (d_kernel d)) = 32%nat → (length P ≤ 32)%nat →
  E + Z.of_nat (length P) ≤ Z.of_nat (length (ram (d_kernel d))) →
  ExitBootServices key f = (EFI_SUCCESS, f1) → settable CR3 ds map d →
  ∃ d1, MOExitBootServices macho fuel P nested false false key d f = Some (EFI_SUCCESS, d1, f1) ∧
    slice (Z.to_nat E) (length P) (ram (d_kernel d1)) = P ∧
    ∀ m1, length m1 = length (ram (d_kernel d)) →
    ∃ vm', ∀ st m2 f2, SetVirtualAddressMap (Z.of_nat (length rt) * ds) ds (protect1 area <$> rt) m1 vm' f1 = (st, m2, f2) →
      is_Some (CopyEfiSysTableToRtArea area (wrap32 gST) m2) →
      ∃ d2, MOSetVirtualAddressMap SetVirtualAddressMap fuel nested false CR3 gST ds map (set_kernel (set_ram m1 (d_kernel d1)) d1) f1
          = Some (st, protect1 area <$> map, d2, f2) ∧
        ∀ m3 kept BA s cmd_s, length m3 = length (ram (d_kernel d)) → kept ⊆+ map →
          ka_MemoryMap BA = protect1 area <$> kept → string_of (ka_CommandLine BA) = Some cmd_s → at_words (str_bytes "slide=") cmd_s →
          ka_chosen BA = None → (length cmd_s < fuel)%nat →
          ∃ BA' s' k' out,
            KernelEntryPatchJumpBack fuel false (d_reloc d2) (gRelocatedSysTableRtArea (d_virt d2)) (Booting BA) s (set_ram m3 (d_kernel d2))
              = Some (Booting BA', s', k') ∧
            slice (Z.to_nat E) (length P) (ram k') = slice (Z.to_nat E) (length P) (ram (d_kernel d)) ∧
            (∀ i, ((i < Z.to_nat E) ∨ (Z.to_nat E + length P ≤ i))%nat → ram k' !! i = m3 !! i) ∧
            ka_MemoryMap BA' = kept ∧ string_of (ka_CommandLine BA') = Some out ∧ words out = others (str_bytes "slide=") (words cmd_s).
Proof.
  intros area rt SlideAddr entry E Hn He Ho HP HE Hexit Hset.
  assert (0 ≤ E) as HE0 by apply wrap32_range. destruct (patch_ok P E _ Ho HP HE0 HE) as (k1 & E1 & Hram & Hs).
  assert (KernelEntryFromMachOPatchJump P entry SlideAddr (d_kernel d) = Some (EFI_SUCCESS, k1)) as Ek.
  { unfold KernelEntryFromMachOPatchJump. destruct (Z.eqb_spec entry 0); [done|]. fold E. by rewrite E1. }
  assert (length (slice (Z.to_nat E) (length P) (ram (d_kernel d))) = length P) as Hl by (apply length_slice; lia).
  exists (set_kernel k1 d). split; [by apply (exit_patches macho fuel P nested key d f f1 Hn Hexit EFI_SUCCESS)|].
  split; [cbn [d_kernel set_kernel]; rewrite Hram; apply slice_store_same; lia|].
  intros m1 Hm1. set (d1 := set_kernel (set_ram m1 _) _). assert (settable CR3 ds map d1) as Hset1 by (destruct Hset; by split).
  destruct (set_virtual_ok SetVirtualAddressMap fuel nested CR3 gST ds map d1 f1 Hn Hset1) as (vm' & _ & Hr). exists vm'. intros st m2 f2 Ef Hc.
  pose proof (Hlen (Z.of_nat (length rt) * ds) ds (protect1 area <$> rt) m1 vm' f1) as Hm2. rewrite Ef in Hm2. cbn [fst snd] in Hm2.
  destruct (Hr st m2 f2 Ef Hc) as (d2 & E2 & _ & Hback & _ & _ & m' & Hk2 & Hm'). exists d2. split; [exact E2|].
  intros m3 kept BA s cmd_s Hm3 Hkept Hmap Hcmd Hw Hch Hf.
  destruct (update_booting fuel false (d_reloc d2) (gRelocatedSysTableRtArea (d_virt d2)) BA s cmd_s Hcmd Hw Hch Hf) as (BA' & s' & out & Eu & Um & Us & Uw).
  assert (saved E (slice (Z.to_nat E) (length P) (ram (d_kernel d))) (set_ram m3 (d_kernel d2))) as Hs2.
  { rewrite Hk2. destruct Hs as (H1 & H2 & H3). split; [done|]. split; [cbn [ram set_ram]; lia|done]. }
  eexists BA', s', _, out. split; [by apply back_ok|]. cbn [ram set_ram]. split; [|split; [|split; [|done]]].
  - apply slice_store_eq; lia.
  - intros i Hi. apply store_outside. lia.
  - rewrite Um, Hmap. by apply Hback.
Qed.
End Boot.

(** ** An example *)

Definition args_demo : KernelArgs := {|
  ka_Version := 2; ka_flags := 0; ka_csrActiveConfig := 0; ka_CommandLine := line_buf "-v slide=7"; ka_MemoryMap := protect1 0 <$> virt_map;
  ka_chosen := None |}.

(** The entry of the example's kernel is at 50. *)
Lemma boot_handoff_witness :
  ∃ d1 d2 BA' s' k' out,
    MOExitBootServices (λ _ _, 50) 99 [0xE8; 1; 2] 1 false false 42 driver_demo fixed0 = Some (EFI_SUCCESS, d1, fixed0) ∧
    MOSetVirtualAddressMap (λ _ _ _ m _ f, (EFI_SUCCESS, m, f)) 99 1 false 0x1000 32 48 virt_map
      (set_kernel (set_ram (ram (d_kernel driver_demo)) (d_kernel d1)) d1) fixed0 = Some (EFI_SUCCESS, protect1 0 <$> virt_map, d2, fixed0) ∧
    KernelEntryPatchJumpBack 99 false (d_reloc d2) (gRelocatedSysTableRtArea (d_virt d2)) (Booting args_demo) slides_init (set_ram (replicate 64 7) (d_kernel d2))
      = Some (Booting BA', s', k') ∧
    slice 50 3 (ram k') = [0; 0; 0] ∧ ram k' !! 49%nat = Some 7 ∧
    ka_MemoryMap BA' = virt_map ∧ string_of (ka_CommandLine BA') = Some out ∧ words out = [str_bytes "-v"].
Proof.
  destruct (boot_handoff (λ _ _ _ m _ f, (EFI_SUCCESS, m, f)) (λ _ _ _ _ _ _, eq_refl) (λ _ _, 50) 99 [0xE8; 1; 2] 1 42 32 0x1000 48 virt_map
    driver_demo fixed0 fixed0 ltac:(lia) ltac:(done) eq_refl ltac:(vm_compute; lia) ltac:(vm_compute; discriminate) eq_refl virt_settable) as (d1 & E1 & _ & H1).
  destruct (H1 (ram (d_kernel driver_demo)) eq_refl) as (vm' & H2). edestruct H2 as (d2 & E2 & H3); [reflexivity|vm_compute; by eexists|].
  destruct (H3 (replicate 64 7) virt_map args_demo slides_init (str_bytes "-v slide=7") eq_refl ltac:(done) eq_refl ltac:(vm_compute; reflexivity)
    ltac:(apply at_words_check; vm_compute; done) eq_refl ltac:(vm_compute; lia)) as (BA' & s' & k' & out & E3 & Hk & Ho & Hm & Hs & Hw).
  exists d1, d2, BA', s', k', out. split; [exact E1|]. split; [exact E2|]. split; [exact E3|]. split; [exact Hk|].
  split; [rewrite (Ho 49%nat); [reflexivity|left; vm_compute; lia]|]. split; [exact Hm|]. split; [exact Hs|]. rewrite Hw. vm_compute. reflexivity.
Defined.

(** ** Preparation is not repeated *)

(** A failure after the first allocation leaves [JumpToKernel32Addr] set, so that the
    next call reports success: here the code does not fit in its page. *)
Example prepare_not_repeated :
  match PrepareJumpFromKernel 5 (replicate 4097 0x90) 0 0 0 {| JumpToKernel32Addr := 0; JumpToKernel64Addr := 0; gSysTableRtArea := 0 |} [] fixed0 with
  | Some (e, j, m, f) =>
      e = EFI_BUFFER_TOO_SMALL ∧ gSysTableRtArea j = 0 ∧
      fst <$> (fst <$> (fst <$> PrepareJumpFromKernel 5 (replicate 4097 0x90) 0 0 0 j m f)) = Some EFI_SUCCESS
  | None => False
  end.
Proof. vm_compute. done. Qed.

(** ** A slide given by the user *)

Lemma argument_found s : at_words (str_bytes "slide=") s →
  GetArgumentFromCommandLine s (str_bytes "slide=") 6 ≠ None ↔ ∃ j, occurs (str_bytes "slide=") s j.
Proof.
  intros Hw. unfold GetArgumentFromCommandLine. pose proof (strstr_spec (str_bytes "slide=") ltac:(done) s) as Hs.
  destruct (AsciiStrStr s (str_bytes "slide=")) as [i|]; [|split; [done|intros [j Hj]; by destruct (Hs j)]].
  destruct Hs as [Ho _]. split; [by exists i|]. intros _.
  assert (char_at s (i + 6 - 1) = EQUALS) as ->.
  { destruct Ho as [r Hr]. unfold char_at. replace (i + 6 - 1)%nat with (i + 5)%nat by lia. by rewrite <- lookup_drop, Hr. }
  rewrite andb_false_r, orb_false_r. destruct (Hw i Ho) as [->|Hc]; [done|]. rewrite Hc, Z.eqb_refl, andb_false_r. done.
Qed.

Lemma slide_given_string buf u : string_of buf = Some u →
  slide_given buf = Some (bool_decide (GetArgumentFromCommandLine u (str_bytes "slide=") 6 ≠ None)).
Proof. intros E. unfold slide_given. by rewrite E. Qed.

Lemma string_of_zero buf : 0 ∈ buf → is_Some (string_of buf).
Proof.
  induction buf as [|c buf IH]; intros H0; [by apply not_elem_of_nil in H0|]. simpl. destruct (Z.eqb_spec c 0); [by eexists|].
  apply elem_of_cons in H0 as [?|H0]; [done|]. destruct (IH H0) as [s ->]. by eexists.
Qed.

Lemma length_to_ascii n l : (length (to_ascii n l) ≤ n)%nat.
Proof. revert l. induction n as [|n IH]; intros [|c l]; simpl; try lia. destruct (c =? 0); simpl; [lia|]. specialize (IH l). lia. Qed.

Lemma ascii_terminated l n buf : (0 < n)%nat → length buf = n → is_Some (string_of (UnicodeStrToAsciiStrS l n buf)).
Proof.
  intros Hn Hb. apply string_of_zero. unfold UnicodeStrToAsciiStrS, store. pose proof (length_to_ascii (n - 1) l) as Hl.
  apply (list_elem_of_lookup_2 _ (length (to_ascii (n - 1) l))).
  rewrite list_lookup_inserts; [|rewrite length_app; simpl; lia|lia]. rewrite Nat.sub_0_r. by apply list_lookup_middle.
Qed.

(** A slide that the user gives is respected: if boot-args hold a word that starts with
    slide=, the driver notices it, and boot.efi then reads exactly the boot-args that
    are stored; the memory map is not analysed and no slide is added. *)
Theorem user_slide_respected {F} `{Firmware F} eax Org guid opts stack v args fuel nested attempts DataSize buf (sf : Slides * F) :
  let key := str_bytes "slide=" in
  (opts = [] ∨ length stack = BOOT_LINE_LENGTH) →
  Org L_boot_args guid (Z.of_nat BOOT_LINE_LENGTH) (match opts with [] => stack | _ => UnicodeStrToAsciiStrS (<[(length opts - 1)%nat := 0]> opts) BOOT_LINE_LENGTH stack end) = v →
  vr_status v = EFI_SUCCESS → 0 < vr_size v ≤ Z.of_nat (length (vr_data v)) →
  string_of (<[Z.to_nat (vr_size v - 1) := 0]> (vr_data v)) = Some args → at_words key args → (∃ j, occurs key args j) →
  mValidSlidesNum sf.1 = TOTAL_SLIDE_NUM →
  ReadBooterArguments Org guid opts stack false = Some true ∧
  GetVariableCustomSlide eax Org guid fuel nested true attempts L_boot_args guid DataSize (Some buf) sf
    = Some (Org L_boot_args guid DataSize buf, sf).
Proof.
  intros key Hst Hv Es Hsz Hargs Hw Hj Hn. split.
  - unfold ReadBooterArguments.
    assert (∃ b, slide_given (<[Z.to_nat (vr_size v - 1) := 0]> (vr_data v)) = Some b ∧ b = true) as (b & Eb & ->).
    { rewrite (slide_given_string _ _ Hargs). eexists. split; [reflexivity|]. apply bool_decide_true. by apply argument_found. }
    assert (∀ x, (let w := Org L_boot_args guid (Z.of_nat BOOT_LINE_LENGTH) x in w = v →
      (if negb (EFI_ERROR (vr_status w)) && (0 <? vr_size w) then
         b ← slide_given (<[Z.to_nat (vr_size w - 1) := 0]> (vr_data w)); Some (false || b)
       else Some false) = Some true)) as Hfin.
    { intros x w ->. rewrite Es. cbn [EFI_ERROR negb andb]. destruct (Z.ltb_spec 0 (vr_size v)); [|lia]. by rewrite Eb. }
    destruct opts as [|o opts]; [by apply Hfin|]. destruct Hst as [|Hst]; [done|].
    destruct (ascii_terminated (<[(length (o :: opts) - 1)%nat := 0]> (o :: opts)) BOOT_LINE_LENGTH stack) as [u Hu]; [unfold BOOT_LINE_LENGTH; lia|done|].
    cbv beta iota zeta in Hv |- *. rewrite (slide_given_string _ _ Hu). cbn [mbind option_bind]. rewrite Hv, Es. cbn [EFI_ERROR negb andb].
    destruct (Z.ltb_spec 0 (vr_size v)); [|lia]. rewrite Eb. cbn [mbind option_bind]. by rewrite orb_true_r.
  - unfold GetVariableCustomSlide. cbn [default from_option id]. destruct (_ && _); [|done].
    rewrite bool_decide_false by (vm_compute; congruence). rewrite bool_decide_true by done. cbn [negb andb mbind option_bind].
    rewrite Hn, Nat.eqb_refl. done.
Qed.

(** Firmware whose boot-args are "-v slide=3". *)
Definition org_demo (_ _ : list Z) (_ : Z) (b : list Z) : VarResult :=
  {| vr_status := EFI_SUCCESS; vr_attrs := Some 7; vr_size := 11; vr_data := store 0 (str_bytes "-v slide=3") b |}.

Lemma user_slide_respected_witness :
  ReadBooterArguments org_demo [] [] (line_buf "") false = Some true ∧
  GetVariableCustomSlide 0x306A9 org_demo [] 5 1 true [] L_boot_args [] 32 (Some (replicate 32 0)) (slides_init, fixed0)
    = Some (org_demo L_boot_args [] 32 (replicate 32 0), (slides_init, fixed0)).
Proof.
  refine (user_slide_respected 0x306A9 org_demo [] [] (line_buf "") _ (str_bytes "-v slide=3") 5 1 [] 32 (replicate 32 0)
    (slides_init, fixed0) (or_introl eq_refl) eq_refl eq_refl _ _ _ _ eq_refl).
  - vm_compute. split; [reflexivity|discriminate].
  - vm_compute. reflexivity.
  - apply at_words_check; vm_compute; done.
  - exists 3%nat. exists (str_bytes "3"). vm_compute. reflexivity.
Defined.
