(* ===== verification/StartImage.v ===== *)
(** * AptioMemoryFix: starting images (BootFixes.c, ServiceOverrides.c, RtShims.c)

    The driver recognises boot.efi by its device path, installs the shims of the runtime
    services, and runs boot.efi with its overrides active.  A device path is the list of
    its nodes; the firmware's StartImage is a parameter. *)

From Stdlib Require Import ZArith Lia.
From stdpp Require Import base list list_numbers gmap strings.
From S2P Require Import Prelude MemoryMap MemoryAlloc MemoryServices RtShims BootArgs CustomSlide VMem BootFixes BootServices.

Open Scope Z_scope.

(** ** Recognising boot.efi *)

(** A node with the 16-bit characters after its header. *)
Record Node := { dp_Type : Z; dp_SubType : Z; dp_PathName : list Z }.

Definition MEDIA_DEVICE_PATH : Z := 4.
Definition MEDIA_FILEPATH_DP : Z := 4.

Definition is_file (n : Node) : bool := (dp_Type n =? MEDIA_DEVICE_PATH) && (dp_SubType n =? MEDIA_FILEPATH_DP).

(** Names end with a terminator. *)
Definition IsDevicePathValid (l : list Node) : bool :=
  forallb (λ n, negb (is_file n) || bool_decide (last (dp_PathName n) = Some 0)) l.

(** The last file node and the nodes after it. *)
Fixpoint last_file (l : list Node) : option (Node * list Node) :=
  match l with
  | [] => None
  | n :: l => match last_file l with Some r => Some r | None => if is_file n then Some (n, l) else None end
  end.

(** The loop that drops further terminators. *)
Fixpoint trim_name (name : list Z) (Len : nat) : nat :=
  match Len with
  | O => O
  | S n => if char_at name n =? 0 then trim_name name n else Len
  end.

Definition FileDevicePathNameLen (FilePath : Node) (rest : list Node) : nat :=
  if negb (IsDevicePathValid (FilePath :: rest)) then 0%nat
  else trim_name (dp_PathName FilePath) (length (dp_PathName FilePath) - 1).

Definition BACKSLASH : Z := 92.

(** [cmp] characters are compared: L_STR_SIZE of the name. *)
Definition GetAppleBootLoadedImage (cmp : nat) (FilePath : option (list Node)) : bool :=
  match FilePath ≫= last_file with
  | None => false
  | Some (LastNode, rest) =>
      let name := dp_PathName LastNode in
      let PathLen := FileDevicePathNameLen LastNode rest in
      if (8 <=? PathLen)%nat then
        let Index := (PathLen - 8)%nat in
        ((Index =? 0)%nat || (char_at name (Index - 1) =? BACKSLASH))
        && bool_decide (take cmp (drop Index name) = take cmp (str_bytes "boot.efi" ++ [0]))
      else false
  end.

Lemma trim_name_spec name Len : (Len < length name)%nat →
  (trim_name name Len ≤ Len)%nat ∧ (∀ i, (trim_name name Len ≤ i < Len)%nat → char_at name i = 0) ∧
  (trim_name name Len = 0%nat ∨ char_at name (trim_name name Len - 1) ≠ 0).
Proof.
  induction Len as [|n IH]; intros Hl; cbn [trim_name]; [split; [lia|]; split; [lia|by left]|].
  destruct (Z.eqb_spec (char_at name n) 0) as [E|E].
  - destruct IH as (H1 & H2 & H3); [lia|]. split; [lia|]. split; [|done]. intros i Hi. destruct (decide (i = n)) as [->|]; [done|]. apply H2. lia.
  - split; [lia|]. split; [lia|]. right. by replace (S n - 1)%nat with n by lia.
Qed.

(** The character after the trimmed name is a terminator. *)
Lemma after_name name : last name = Some 0 → name !! trim_name name (length name - 1) = Some 0.
Proof.
  intros Hlast. assert (0 < length name)%nat as Hpos by (destruct name; [done|simpl; lia]).
  destruct (trim_name_spec name (length name - 1) ltac:(lia)) as (H1 & H2 & _).
  destruct (decide (trim_name name (length name - 1) = length name - 1)%nat) as [->|Hne].
  - rewrite last_lookup in Hlast. by rewrite Nat.sub_1_r.
  - assert (trim_name name (length name - 1) < length name)%nat as Hl by lia. apply lookup_lt_is_Some in Hl as [c Hc].
    specialize (H2 (trim_name name (length name - 1)) ltac:(lia)). unfold char_at in H2. rewrite Hc in H2 |- *. simpl in H2. by subst c.
Qed.

Lemma last_file_is path n rest : last_file path = Some (n, rest) → is_file n = true.
Proof.
  induction path as [|m path IH]; cbn [last_file]; [done|]. destruct (last_file path) as [[n' rest']|]; [by intros [= -> ->]; apply IH|].
  destruct (is_file m) eqn:E; [by intros [= <- <-]|done].
Qed.

(** Comparing with the name, on the trimmed path. *)
Lemma compare_name cmp (w r : list Z) : cmp = 8%nat ∨ cmp = 9%nat → (8 ≤ length w)%nat →
  take cmp (drop (length w - 8) (w ++ 0 :: r)) = take cmp (str_bytes "boot.efi" ++ [0]) ↔ drop (length w - 8) w = str_bytes "boot.efi".
Proof.
  intros Hcmp Hl. rewrite drop_app_le by lia. set (d := drop (length w - 8) w).
  assert (length d = 8%nat) as Hd by (unfold d; rewrite length_drop; lia). assert (length (str_bytes "boot.efi") = 8%nat) as Hb by reflexivity.
  destruct Hcmp as [->| ->].
  - rewrite !take_app_le by lia. rewrite !take_ge by lia. done.
  - rewrite !take_app_ge by lia. rewrite Hd, Hb. cbn [Nat.sub take]. split; [apply app_inj_tail|by intros ->].
Qed.

(** An image counts as boot.efi exactly if the last file node of its device path, with
    the terminators dropped, is the name boot.efi or a path that ends with it; a path
    whose names are not terminated does not count. *)
Theorem apple_image_iff cmp path : cmp = 8%nat ∨ cmp = 9%nat →
  GetAppleBootLoadedImage cmp (Some path) = true ↔
  ∃ n rest p, last_file path = Some (n, rest) ∧ IsDevicePathValid (n :: rest) = true ∧
    take (FileDevicePathNameLen n rest) (dp_PathName n) = p ++ str_bytes "boot.efi" ∧ (p = [] ∨ last p = Some BACKSLASH).
Proof.
  intros Hcmp. unfold GetAppleBootLoadedImage. cbn [mbind option_bind].
  destruct (last_file path) as [[n rest]|] eqn:El; [|split; [done|by intros (? & ? & ? & ? & _)]].
  destruct (IsDevicePathValid (n :: rest)) eqn:Hv.
  2: { assert (FileDevicePathNameLen n rest = 0%nat) as -> by (unfold FileDevicePathNameLen; by rewrite Hv). cbn [Nat.leb].
       split; [done|]. intros (n' & rest' & p & [= <- <-] & E & _). congruence. }
  assert (FileDevicePathNameLen n rest = trim_name (dp_PathName n) (length (dp_PathName n) - 1)) as HL
    by (unfold FileDevicePathNameLen; by rewrite Hv). rewrite HL.
  pose proof Hv as Hv0. apply last_file_is in El as Hfile. cbn [IsDevicePathValid forallb] in Hv. apply andb_true_iff in Hv as [Hv _]. rewrite Hfile in Hv. apply bool_decide_eq_true in Hv.
  set (name := dp_PathName n) in *. set (L := trim_name name (length name - 1)) in *.
  pose proof (after_name name Hv) as Ha. fold L in Ha. set (w := take L name). set (r := drop (S L) name).
  assert (name = w ++ 0 :: r) as Hn by (symmetry; by apply take_drop_middle).
  assert (length w = L) as Hw by (unfold w; rewrite length_take; apply lookup_lt_Some in Ha; lia).
  assert (∀ i, (i < L)%nat → char_at name i = char_at w i) as Hc.
  { intros i Hi. unfold char_at. rewrite Hn. by rewrite lookup_app_l by lia. }
  destruct (Nat.leb_spec 8 L) as [H8|H8]; [|split; [done|]].
  2: { intros (n' & rest' & p & [= <- <-] & _ & E & _). rewrite HL in E. fold name L w in E. apply (f_equal length) in E. rewrite length_app in E. change (length (str_bytes "boot.efi")) with 8%nat in E. lia. }
  rewrite andb_true_iff, bool_decide_eq_true. rewrite Hn at 2. rewrite <- Hw, (compare_name cmp w r Hcmp) by lia. rewrite Hw. split.
  - intros [H1 H2]. exists n, rest, (take (L - 8) w). split; [done|]. split; [done|]. rewrite HL. fold name L w. split; [rewrite <- H2; by rewrite take_drop|]. apply orb_true_iff in H1 as [H1|H1]; [left; apply Nat.eqb_eq in H1; by rewrite H1|].
    destruct (decide (L - 8 = 0)%nat) as [E0|E0]; [left; by rewrite E0|]. right. apply Z.eqb_eq in H1. rewrite Hc in H1 by lia.
    rewrite last_lookup, length_take, lookup_take_lt by lia. replace (pred ((L - 8) `min` length w)) with (L - 8 - 1)%nat by lia.
    unfold char_at in H1. destruct (lookup_lt_is_Some_2 w (L - 8 - 1) ltac:(lia)) as [c Hcc]. rewrite Hcc in H1 |- *. simpl in H1. by subst c.
  - intros (n' & rest' & p & [= <- <-] & _ & E & Hp). rewrite HL in E. fold name L w in E. assert (length w = length p + 8)%nat as Hlp by (rewrite E, length_app; done).
    split; [|rewrite E, drop_app_length' by lia; done].
    destruct Hp as [->|Hp]; [apply orb_true_iff; left; apply Nat.eqb_eq; simpl in Hlp; lia|].
    apply orb_true_iff. right. apply Z.eqb_eq. assert (0 < length p)%nat by (destruct p; [done|simpl; lia]). rewrite Hc by lia.
    unfold char_at. rewrite E, lookup_app_l by lia. rewrite last_lookup in Hp. replace (L - 8 - 1)%nat with (pred (length p)) by lia. by rewrite Hp.
Qed.

Definition boot_path : list Node :=
  [{| dp_Type := 2; dp_SubType := 1; dp_PathName := [] |}; {| dp_Type := 4; dp_SubType := 4; dp_PathName := str_bytes "\System\boot.efi" ++ [0; 0] |}].

Lemma apple_image_iff_witness :
  GetAppleBootLoadedImage 9 (Some boot_path) = true ↔
  ∃ n rest p, last_file boot_path = Some (n, rest) ∧ IsDevicePathValid (n :: rest) = true ∧
    take (FileDevicePathNameLen n rest) (dp_PathName n) = p ++ str_bytes "boot.efi" ∧ (p = [] ∨ last p = Some BACKSLASH).
Proof. exact (apple_image_iff 9 boot_path (or_intror eq_refl)). Defined.

Example apple_image_boot : GetAppleBootLoadedImage 9 (Some boot_path) = true.
Proof. reflexivity. Qed.

(** ** Installing the shims *)

Section Install.
Context {F : Type} `{Firmware F}.

(** [size] is the size of the block of shims, [offsets] are those of the nine shims in it,
    in the order of mShimPtrArray, and [gRT] the services in the same order. *)
Definition InstallRtShims (fuel : nat) (gHasBrokenS4Allocator : bool) (size : Z) (offsets : list Z) (GetVariableOverride : Z)
    (gRT : list Z) (s : Shims) (f : F) : option (Shims * list Z * F) :=
  r ← (if gHasBrokenS4Allocator then
         match AllocatePool size f with
         | (Some a, f) => Some (EFI_SUCCESS, a, f)
         | (None, f) => Some (EFI_OUT_OF_RESOURCES, 0, f)
         end
       else AllocatePagesFromTop (λ _ _, false) false fuel (EFI_SIZE_TO_PAGES size) BASE_4GB f);
  let '(Status, area, f) := r in
  if EFI_ERROR Status then
    Some ({| sh_area := None; sh_override := sh_override s; sh_ptrs := sh_ptrs s; mRtShimsAddrUpdated := mRtShimsAddrUpdated s |}, gRT, f)
  else
    Some ({| sh_area := Some area; sh_override := GetVariableOverride;
             sh_ptrs := (λ p, {| gFunc := p; Func := p; Fixed := false |}) <$> gRT; mRtShimsAddrUpdated := mRtShimsAddrUpdated s |},
          (λ o, wrap64 (area + o)) <$> offsets, f).

(** ** The switches of the shims *)

Record Switches := { gRequiresWriteUnprotect : bool; gBootVariableRedirect : bool }.

(** Without the shims' memory the code writes near address 0. *)
Definition SetWriteUnprotectorMode (Enable : bool) (s : Shims) (w : Switches) : option Switches :=
  _ ← sh_area s; Some {| gRequiresWriteUnprotect := Enable; gBootVariableRedirect := gBootVariableRedirect w |}.

(** [variable] is the value of the redirection variable, if it can be read. *)
Definition SetBootVariableRedirect (variable : option bool) (Enable : bool) (s : Shims) (w : Switches) : option (bool * Switches) :=
  let Enable := if Enable then default false variable else Enable in
  _ ← sh_area s;
  Some (gBootVariableRedirect w, {| gRequiresWriteUnprotect := gRequiresWriteUnprotect w; gBootVariableRedirect := Enable |}).

(** ** Starting an image *)

(** What the driver keeps while images run. *)
Record Session := {
  gMacOSBootNestedCount : Z; gHibernateWake : bool; gSlideArgPresent : bool; s_switches : Switches; s_driver : Driver;
  (** the console has a graphics protocol *)
  s_gop : bool
}.

(** A loaded image: its device path, its bytes, its options, and whether it uses the copy
    of the system table. *)
Record LoadedImage := { li_FilePath : option (list Node); li_Image : list Z; li_LoadOptions : list Z; li_own_table : bool }.

Definition set_monitor (m : Monitor) (d : Driver) : Driver := {|
  d_kernel := d_kernel d; d_jump := d_jump d; d_virt := d_virt d; d_reloc := d_reloc d; d_shims := d_shims d; d_monitor := m;
  mExitBSMapKey := mExitBSMapKey d; rt_overridden := rt_overridden d |}.
Definition set_jump (j : Jump) (m : list Z) (d : Driver) : Driver := {|
  d_kernel := set_ram m (d_kernel d); d_jump := j; d_virt := d_virt d; d_reloc := d_reloc d; d_shims := d_shims d; d_monitor := d_monitor d;
  mExitBSMapKey := mExitBSMapKey d; rt_overridden := rt_overridden d |}.

(** The parameters of the firmware: the size of the compared name, the redirection
    variable, variables that exist, a graphics protocol somewhere, the variable service,
    the stack of [ReadBooterArguments], the assembly and the system table. *)
Record Platform := {
  pl_cmp : nat; pl_redirect : option bool; pl_variable : list Z → bool; pl_gop : bool;
  pl_GetVariable : list Z → list Z → Z → list Z → VarResult; pl_guid : list Z; pl_stack : list Z;
  pl_code : list Z; pl_off32 : Z; pl_off64 : Z; pl_gST : Z
}.
Context (pl : Platform).

(** The variables that announce a wake from hibernation. *)
Definition hibernate_wake (old : bool) : bool :=
  if pl_variable pl (str_bytes "boot-signature") then old || pl_variable pl (str_bytes "boot-image-key")
  else old || pl_variable pl (str_bytes "boot-switch-vars").

Definition clear_monitor (s : Session) : Session :=
  let m := d_monitor (s_driver s) in
  {| gMacOSBootNestedCount := gMacOSBootNestedCount s; gHibernateWake := gHibernateWake s; gSlideArgPresent := gSlideArgPresent s;
     s_switches := s_switches s;
     s_driver := set_monitor {| mMinAllocatedAddr := 0; mMaxAllocatedAddr := 0; mHibernateImageAddress := mHibernateImageAddress m |} (s_driver s);
     s_gop := s_gop s |}.

Definition set_switches (w : Switches) (s : Session) : Session := {|
  gMacOSBootNestedCount := gMacOSBootNestedCount s; gHibernateWake := gHibernateWake s; gSlideArgPresent := gSlideArgPresent s;
  s_switches := w; s_driver := s_driver s; s_gop := s_gop s |}.

Definition set_nested (n : Z) (s : Session) : Session := {|
  gMacOSBootNestedCount := n; gHibernateWake := gHibernateWake s; gSlideArgPresent := gSlideArgPresent s;
  s_switches := s_switches s; s_driver := s_driver s; s_gop := s_gop s |}.

(** What is done for boot.efi before it runs. *)
Definition prepare_apple (fuel : nat) (im : LoadedImage) (s : Session) (f : F) : option (LoadedImage * Session * F) :=
  let s := set_nested (wrap64 (gMacOSBootNestedCount s + 1)) s in
  w ← SetWriteUnprotectorMode true (d_shims (s_driver s)) (s_switches s);
  let wake := hibernate_wake (gHibernateWake s) in
  let gop := s_gop s || pl_gop pl in
  let d := s_driver s in
  r ← PrepareJumpFromKernel fuel (pl_code pl) (pl_off32 pl) (pl_off64 pl) (pl_gST pl) (d_jump d) (ram (d_kernel d)) f;
  let '(Status, j, m, f) := r in
  let d := set_jump j m d in
  if EFI_ERROR Status then
    Some (im, {| gMacOSBootNestedCount := gMacOSBootNestedCount s; gHibernateWake := wake; gSlideArgPresent := gSlideArgPresent s;
                 s_switches := w; s_driver := d; s_gop := gop |}, f)
  else
    image ← UnlockSlideSupportForSafeMode (li_Image im);
    slide ← ReadBooterArguments (pl_GetVariable pl) (pl_guid pl) (li_LoadOptions im) (pl_stack pl) (gSlideArgPresent s);
    Some ({| li_FilePath := li_FilePath im; li_Image := image; li_LoadOptions := li_LoadOptions im; li_own_table := true |},
          {| gMacOSBootNestedCount := gMacOSBootNestedCount s; gHibernateWake := wake; gSlideArgPresent := slide;
             s_switches := w; s_driver := d; s_gop := gop |}, f).

Section Run.
(** The firmware's StartImage: the image runs, and may call the overrides. *)
Context (mStoredStartImage : LoadedImage → Session → F → option (EFI_STATUS * Session * F)).

Definition MOStartImage (fuel : nat) (im : LoadedImage) (s : Session) (f : F) : option (EFI_STATUS * Session * F) :=
  let apple := GetAppleBootLoadedImage (pl_cmp pl) (li_FilePath im) in
  let s := clear_monitor s in
  w ← SetBootVariableRedirect (pl_redirect pl) true (d_shims (s_driver s)) (s_switches s);
  let s := set_switches w.2 s in
  r ← (if apple then prepare_apple fuel im s f else Some (im, s, f));
  let '(im, s, f) := r in
  r ← mStoredStartImage im s f;
  let '(Status, s, f) := r in
  s ← (if apple then
         w ← SetWriteUnprotectorMode false (d_shims (s_driver s)) (s_switches s);
         Some (set_switches w (set_nested (wrap64 (gMacOSBootNestedCount s - 1)) s))
       else Some s);
  w ← SetBootVariableRedirect (pl_redirect pl) false (d_shims (s_driver s)) (s_switches s);
  Some (Status, set_switches w.2 s, f).
End Run.
End Install.

(** ** Images that start images *)

Section Nested.
Context {F : Type} `{Firmware F} (pl : Platform) (fuel : nat).

(** What every started image leaves as it was. *)
Definition keeps (s s' : Session) : Prop :=
  gMacOSBootNestedCount s' = gMacOSBootNestedCount s ∧ d_shims (s_driver s') = d_shims (s_driver s).

Lemma keeps_trans s1 s2 s3 : keeps s1 s2 → keeps s2 s3 → keeps s1 s3.
Proof. unfold keeps. intros [-> ->] [-> ->]. done. Qed.

Lemma prepare_apple_ok im s f im' s' f' : prepare_apple pl fuel im s f = Some (im', s', f') →
  gMacOSBootNestedCount s' = wrap64 (gMacOSBootNestedCount s + 1) ∧ d_shims (s_driver s') = d_shims (s_driver s) ∧
  s_switches s' = {| gRequiresWriteUnprotect := true; gBootVariableRedirect := gBootVariableRedirect (s_switches s) |}.
Proof.
  unfold prepare_apple, SetWriteUnprotectorMode, set_nested. cbn [mbind option_bind s_driver s_switches gMacOSBootNestedCount gSlideArgPresent]. destruct (sh_area (d_shims (s_driver s))); [|done]. cbn [mbind option_bind s_driver s_switches gMacOSBootNestedCount gSlideArgPresent].
  destruct (PrepareJumpFromKernel _ _ _ _ _ _ _ _) as [[[[st j] m] f1]|]; [|done]. cbn [mbind option_bind s_driver s_switches gMacOSBootNestedCount gSlideArgPresent]. destruct (EFI_ERROR st).
  - by intros [= <- <- <-].
  - destruct (UnlockSlideSupportForSafeMode _); [|done]. cbn [mbind option_bind s_driver s_switches gMacOSBootNestedCount gSlideArgPresent]. destruct (ReadBooterArguments _ _ _ _ _); [|done]. by intros [= <- <- <-].
Qed.

Lemma start_ok run im s f st s' f' :
  (∀ im1 s1 f1 st1 s2 f2, 0 ≤ gMacOSBootNestedCount s1 < 2 ^ 64 → run im1 s1 f1 = Some (st1, s2, f2) → keeps s1 s2) →
  MOStartImage pl run fuel im s f = Some (st, s', f') → 0 ≤ gMacOSBootNestedCount s < 2 ^ 64 →
  ∃ im1 s1 f1 s2, run im1 s1 f1 = Some (st, s2, f') ∧
    gBootVariableRedirect (s_switches s1) = default false (pl_redirect pl) ∧
    (if GetAppleBootLoadedImage (pl_cmp pl) (li_FilePath im)
     then gMacOSBootNestedCount s1 = wrap64 (gMacOSBootNestedCount s + 1) ∧ gRequiresWriteUnprotect (s_switches s1) = true ∧
       gRequiresWriteUnprotect (s_switches s') = false
     else gMacOSBootNestedCount s1 = gMacOSBootNestedCount s) ∧
    keeps s s' ∧ gBootVariableRedirect (s_switches s') = false.
Proof.
  intros Hrun. unfold MOStartImage, SetBootVariableRedirect, SetWriteUnprotectorMode. cbv zeta.
  change (d_shims (s_driver (clear_monitor s))) with (d_shims (s_driver s)).
  destruct (sh_area (d_shims (s_driver s))) as [a|] eqn:Ea; [|done]. cbn [mbind option_bind fst snd]. intros E Hn.
  set (s0 := set_switches _ (clear_monitor s)) in E. assert (keeps s s0 ∧ gBootVariableRedirect (s_switches s0) = default false (pl_redirect pl)) as [H0 R0] by done.
  clearbody s0. destruct (GetAppleBootLoadedImage _ _).
  - destruct (prepare_apple pl fuel im s0 f) as [[[im1 s1] f1]|] eqn:Ep; [|done]. apply prepare_apple_ok in Ep as (P1 & P2 & P3).
    cbn [mbind option_bind] in E. destruct (run im1 s1 f1) as [[[st1 s2] f2]|] eqn:Er; [|done]. pose proof (wrap64_range (gMacOSBootNestedCount s0 + 1)) as Hw. destruct (Hrun im1 s1 f1 st1 s2 f2 ltac:(lia) Er) as [K1 K2].
    cbn [mbind option_bind] in E. destruct H0 as [H1 H2]. rewrite K2, P2, H2, Ea in E. cbn in E. rewrite K2, P2, H2, Ea in E. cbn in E. injection E as <- <- <-.
    exists im1, s1, f1, s2. split; [done|]. rewrite P3. cbn. split; [done|]. rewrite P1, H1. split; [done|].
    split; [|done]. split; cbn; [rewrite K1, P1, H1; unfold wrap64 in *; lia|congruence].
  - cbn [mbind option_bind] in E. destruct (run im s0 f) as [[[st1 s2] f2]|] eqn:Er; [|done]. destruct H0 as [H1 H2]. destruct (Hrun im s0 f st1 s2 f2 ltac:(lia) Er) as [K1 K2].
    cbn [mbind option_bind] in E. rewrite K2, H2, Ea in E. cbn in E. injection E as <- <- <-.
    exists im, s0, f, s2. split; [done|]. split; [done|]. split; [done|]. split; [|done]. split; cbn; congruence.
Qed.

(** With the shims and the jump in place an image is started, if the preparation of boot.efi
    can read the image and its arguments. *)
Definition prepared (s : Session) : Prop :=
  sh_area (d_shims (s_driver s)) ≠ None ∧ JumpToKernel32Addr (d_jump (s_driver s)) ≠ 0.

Definition readable (im : LoadedImage) : Prop :=
  UnlockSlideSupportForSafeMode (li_Image im) ≠ None ∧
  ∀ given, ReadBooterArguments (pl_GetVariable pl) (pl_guid pl) (li_LoadOptions im) (pl_stack pl) given ≠ None.

Lemma start_total run im s f :
  (∀ im1 s1 f1, prepared s1 → ∃ st1 s2 f2, run im1 s1 f1 = Some (st1, s2, f2) ∧ prepared s2) →
  prepared s → readable im → ∃ st s' f', MOStartImage pl run fuel im s f = Some (st, s', f') ∧ prepared s'.
Proof.
  intros Hrun [Ha Hj] [Hu Hb]. unfold MOStartImage, SetBootVariableRedirect, SetWriteUnprotectorMode. cbv zeta.
  change (d_shims (s_driver (clear_monitor s))) with (d_shims (s_driver s)).
  destruct (sh_area (d_shims (s_driver s))) as [a|] eqn:Ea; [|done]. cbn [mbind option_bind fst snd].
  set (s0 := set_switches _ (clear_monitor s)). assert (prepared s0) as H0 by (split; [by rewrite <- Ea in Ha|done]). clearbody s0.
  destruct (GetAppleBootLoadedImage _ _).
  - assert (∃ r, prepare_apple pl fuel im s0 f = Some r ∧ prepared r.1.2) as ([[im1 s1] f1] & -> & H1).
    { destruct H0 as [Ha0 Hj0]. unfold prepare_apple, SetWriteUnprotectorMode, set_nested.
      cbn [mbind option_bind s_driver s_switches gMacOSBootNestedCount gSlideArgPresent].
      destruct (sh_area (d_shims (s_driver s0))) eqn:Ea0; [|done]. cbn [mbind option_bind]. unfold PrepareJumpFromKernel.
      rewrite (proj2 (Z.eqb_neq _ _) Hj0). cbn [negb mbind option_bind EFI_ERROR].
      destruct (UnlockSlideSupportForSafeMode (li_Image im)); [|done]. cbn [mbind option_bind].
      specialize (Hb (gSlideArgPresent s0)). destruct (ReadBooterArguments _ _ _ _ _); [|done]. cbn [mbind option_bind].
      eexists. split; [done|]. split; [by cbn; rewrite Ea0|done]. }
    cbn [mbind option_bind]. destruct (Hrun im1 s1 f1 H1) as (st1 & s2 & f2 & -> & [Ha2 Hj2]). cbn [mbind option_bind].
    destruct (sh_area (d_shims (s_driver s2))) eqn:Ea2; [|done]. cbn. rewrite Ea2. cbn. eexists _, _, _. split; [done|]. split; cbn; [by rewrite Ea2|done].
  - cbn [mbind option_bind]. destruct (Hrun im s0 f H0) as (st1 & s2 & f2 & -> & [Ha2 Hj2]). cbn [mbind option_bind].
    destruct (sh_area (d_shims (s_driver s2))) eqn:Ea2; [|done]. cbn. eexists _, _, _. split; [done|]. split; cbn; [by rewrite Ea2|done].
Qed.
End Nested.

(** ** What running images see *)

Section Trace.
Context {F : Type} `{Firmware F} (pl : Platform) (fuel : nat).

(** The firmware with a record of the sessions in which images began to run. *)
#[local] Instance traced : Firmware (F * list Session) := {
  OrgGetMemoryMap n g := OrgGetMemoryMap n g.1;
  AllocatePool n g := let '(p, f) := AllocatePool n g.1 in (p, (f, g.2));
  FreePool p g := (FreePool p g.1, g.2);
  AllocateAddress a n g := let '(e, f) := AllocateAddress a n g.1 in (e, (f, g.2));
  FreePages a n g := (FreePages a n g.1, g.2);
  ExitBootServices k g := let '(e, f) := ExitBootServices k g.1 in (e, (f, g.2));
  ReportExitFailure g := (ReportExitFailure g.1, g.2)
}.

Lemma traced_map_loop n : ∀ size key (g : F * list Session) r g', map_loop get_pool put_pool n size key g = Some (r, g') → g'.2 = g.2.
Proof.
  induction n as [|n IH]; intros size key g r g' E; [done|]. cbn [map_loop] in E. unfold get_pool, put_pool in E.
  cbn [AllocatePool traced] in E. destruct (AllocatePool _ g.1) as [[p|] f1]; cbn [mbind option_bind] in E; [|by injection E as _ <-].
  destruct (OrgGetMemoryMap _ _) as [[[e size'] key'] m]. destruct (EFI_ERROR e); [|by injection E as _ <-].
  case_bool_decide; [by apply IH in E|by injection E as _ <-].
Qed.

Lemma traced_top overlaps check n Pages Memory (g : F * list Session) e M g' :
  AllocatePagesFromTop overlaps check n Pages Memory g = Some (e, M, g') → g'.2 = g.2.
Proof.
  unfold AllocatePagesFromTop, GetMemoryMapAlloc. destruct (OrgGetMemoryMap 0 g) as [[[e0 size] key] m0].
  destruct (if bool_decide _ then _ else _) as [[r g1]|] eqn:E1; [|done]. cbn [mbind option_bind].
  assert (g1.2 = g.2) as <- by (case_bool_decide; [by eapply traced_map_loop|by injection E1 as _ <-]).
  destruct (EFI_ERROR (mr_status r)); [by intros [= _ _ <-]|]. destruct (mr_buffer r); [|done]. cbn [mbind option_bind].
  destruct (top_search _ _ _ _ _) as [[a|] M']; [|by intros [= _ _ <-]]. cbn [AllocateAddress traced].
  destruct (AllocateAddress a Pages g1.1). by intros [= _ _ <-].
Qed.

Lemma traced_prepare im s g im' s' g' : prepare_apple (F := F * list Session) pl fuel im s g = Some (im', s', g') → g'.2 = g.2.
Proof.
  unfold prepare_apple. destruct (SetWriteUnprotectorMode _ _ _); [|done]. cbn [mbind option_bind]. unfold PrepareJumpFromKernel.
  destruct (negb _); cbn [mbind option_bind].
  { cbn [EFI_ERROR]. destruct (UnlockSlideSupportForSafeMode _); [|done]. cbn [mbind option_bind]. destruct (ReadBooterArguments _ _ _ _ _); [|done]. by intros [= _ _ <-]. }
  destruct (AllocatePagesFromTop _ _ _ _ _ g) as [[[e M] g1]|] eqn:E1; [|done]. apply traced_top in E1. cbn [mbind option_bind].
  destruct (EFI_ERROR e) eqn:Ee; cbn [mbind option_bind]; [rewrite Ee; by intros [= _ _ <-]|].
  destruct (_ <? _); cbn [mbind option_bind EFI_ERROR]; [by intros [= _ _ <-]|].
  destruct (ram_put _ _ _) as [m1|]; [|done]. cbn [mbind option_bind].
  destruct (AllocatePagesFromTop _ _ _ _ _ g1) as [[[e2 M2] g2]|] eqn:E2; [|done]. apply traced_top in E2. cbn [mbind option_bind].
  destruct (EFI_ERROR e2) eqn:Ee2; cbn [mbind option_bind]; [rewrite Ee2; intros [= _ _ <-]; congruence|].
  destruct (HeaderSize _ _); [|done]. cbn [mbind option_bind]. destruct (ram_get _ _ _); [|done]. cbn [mbind option_bind].
  destruct (ram_put _ _ _); [|done]. cbn [mbind option_bind]. rewrite Ee2. destruct (UnlockSlideSupportForSafeMode _); [|done]. cbn [mbind option_bind].
  destruct (ReadBooterArguments _ _ _ _ _); [|done]. intros [= _ _ <-]. congruence.
Qed.

(** Images and those that they start, one after the other. *)
Inductive Image := Img (im : LoadedImage) (started : list Image).

Lemma image_ind (P : Image → Prop) : (∀ im l, Forall P l → P (Img im l)) → ∀ t, P t.
Proof.
  intros Hstep. fix IH 1. intros [im l]. apply Hstep. induction l as [|t l IHl]; constructor; [apply IH|exact IHl].
Qed.

(** An image that runs is recorded, and starts its images through the override. *)
Fixpoint start_image (t : Image) (s : Session) (g : F * list Session) : option (EFI_STATUS * Session * (F * list Session)) :=
  match t with
  | Img im l =>
      MOStartImage pl (λ _ s g,
        (fix go (l : list Image) (s : Session) (g : F * list Session) : option (EFI_STATUS * Session * (F * list Session)) :=
           match l with
           | [] => Some (EFI_SUCCESS, s, g)
           | t :: l => r ← start_image t s g; go l r.1.2 r.2
           end) l s (g.1, g.2 ++ [s])) fuel im s g
  end.

Fixpoint start_all (l : list Image) (s : Session) (g : F * list Session) : option (EFI_STATUS * Session * (F * list Session)) :=
  match l with
  | [] => Some (EFI_SUCCESS, s, g)
  | t :: l => r ← start_image t s g; start_all l r.1.2 r.2
  end.

Definition is_apple (im : LoadedImage) : bool := GetAppleBootLoadedImage (pl_cmp pl) (li_FilePath im).

(** The images in the order in which they begin to run, each with the number of boot.efi that
    run then, itself included, when [n] run outside. *)
Fixpoint runs (n : Z) (t : Image) : list (LoadedImage * Z) :=
  match t with Img im l => let n := if is_apple im then wrap64 (n + 1) else n in (im, n) :: concat (runs n <$> l) end.

(** What an image finds when it begins to run. *)
Definition finds (sh : Shims) (r : LoadedImage * Z) (s : Session) : Prop :=
  gMacOSBootNestedCount s = r.2 ∧ d_shims (s_driver s) = sh ∧ gBootVariableRedirect (s_switches s) = default false (pl_redirect pl) ∧
  (is_apple r.1 = true → gRequiresWriteUnprotect (s_switches s) = true).

(** One level: what the image finds, and what is there when it has returned. *)
Lemma start_traced run im s g st s' g' :
  (∀ im1 s1 g1 st1 s2 g2, 0 ≤ gMacOSBootNestedCount s1 < 2 ^ 64 → run im1 s1 g1 = Some (st1, s2, g2) → keeps s1 s2) →
  MOStartImage (F := F * list Session) pl run fuel im s g = Some (st, s', g') → 0 ≤ gMacOSBootNestedCount s < 2 ^ 64 →
  ∃ im1 s1 g1 s2, run im1 s1 g1 = Some (st, s2, g') ∧ g1.2 = g.2 ∧
    finds (d_shims (s_driver s)) (im, if is_apple im then wrap64 (gMacOSBootNestedCount s + 1) else gMacOSBootNestedCount s) s1.
Proof.
  intros Hrun. unfold MOStartImage, SetBootVariableRedirect, SetWriteUnprotectorMode, finds, is_apple. cbv zeta.
  change (d_shims (s_driver (clear_monitor s))) with (d_shims (s_driver s)).
  destruct (sh_area (d_shims (s_driver s))) as [a|] eqn:Ea; [|done]. cbn [mbind option_bind fst snd]. intros E Hn.
  set (s0 := set_switches _ (clear_monitor s)) in E. assert (keeps s s0 ∧ gBootVariableRedirect (s_switches s0) = default false (pl_redirect pl)) as [[H0 H1] R0] by done.
  clearbody s0. destruct (GetAppleBootLoadedImage _ _).
  - destruct (prepare_apple pl fuel im s0 g) as [[[im1 s1] g1]|] eqn:Ep; [|done]. pose proof (traced_prepare _ _ _ _ _ _ Ep) as Hg.
    apply prepare_apple_ok in Ep as (P1 & P2 & P3). cbn [mbind option_bind] in E. destruct (run im1 s1 g1) as [[[st1 s2] g2]|] eqn:Er; [|done].
    pose proof (wrap64_range (gMacOSBootNestedCount s0 + 1)) as Hw. destruct (Hrun im1 s1 g1 st1 s2 g2 ltac:(lia) Er) as [K1 K2].
    cbn [mbind option_bind] in E. rewrite K2, P2, H1, Ea in E. cbn in E. rewrite K2, P2, H1, Ea in E. cbn in E. injection E as <- <- <-.
    exists im1, s1, g1, s2. split; [done|]. split; [done|]. rewrite P3, P1, H0. cbn. by rewrite P2, H1.
  - cbn [mbind option_bind] in E. destruct (run im s0 g) as [[[st1 s2] g2]|] eqn:Er; [|done]. destruct (Hrun im s0 g st1 s2 g2 ltac:(lia) Er) as [K1 K2].
    cbn [mbind option_bind] in E. rewrite K2, H1, Ea in E. cbn in E. injection E as <- <- <-.
    exists im, s0, g, s2. split; [done|]. split; [done|]. cbn. done.
Qed.

(** The images of a tree. *)
Fixpoint images (t : Image) : list LoadedImage := match t with Img im l => im :: concat (images <$> l) end.

Definition good (t : Image) : Prop := ∀ s g st s' g', start_image t s g = Some (st, s', g') → 0 ≤ gMacOSBootNestedCount s < 2 ^ 64 →
  keeps s s' ∧ ∃ log, g'.2 = g.2 ++ log ∧ Forall2 (finds (d_shims (s_driver s))) (runs (gMacOSBootNestedCount s) t) log.

Lemma start_all_good l : Forall good l → ∀ s g st s' g', start_all l s g = Some (st, s', g') → 0 ≤ gMacOSBootNestedCount s < 2 ^ 64 →
  keeps s s' ∧ ∃ log, g'.2 = g.2 ++ log ∧ Forall2 (finds (d_shims (s_driver s))) (concat (runs (gMacOSBootNestedCount s) <$> l)) log.
Proof.
  induction 1 as [|t l Ht Hl IH]; intros s g st s' g' E Hn; cbn [start_all] in E.
  { injection E as _ <- <-. split; [done|]. exists []. by rewrite app_nil_r. }
  destruct (start_image t s g) as [[[st1 s1] g1]|] eqn:E1; [|done]. cbn [mbind option_bind fst snd] in E.
  destruct (Ht _ _ _ _ _ E1 Hn) as ([K1 K2] & log1 & L1 & F1). destruct (IH _ _ _ _ _ E) as (K & log2 & L2 & F2); [by rewrite K1|].
  split; [by eapply keeps_trans; [split|]|]. exists (log1 ++ log2). split; [by rewrite L2, L1, app_assoc|].
  rewrite K1, K2 in F2. rewrite fmap_cons. cbn [concat]. by apply Forall2_app.
Qed.

Lemma start_image_good t : good t.
Proof.
  induction t as [im l IH] using image_ind. intros s g st s' g' E Hn. cbn [start_image] in E.
  change (λ (_ : LoadedImage) (s : Session) (g : F * list Session), _ l s (g.1, g.2 ++ [s])) with (λ (_ : LoadedImage) s g, start_all l s (g.1, g.2 ++ [s])) in E.
  assert (∀ (im1 : LoadedImage) s1 g1 st1 s2 g2, 0 ≤ gMacOSBootNestedCount s1 < 2 ^ 64 → start_all l s1 (g1.1, g1.2 ++ [s1]) = Some (st1, s2, g2) → keeps s1 s2) as Hrun
    by (intros im1 s1 g1 st1 s2 g2 H1 E1; by apply (start_all_good l IH _ _ _ _ _ E1)).
  destruct (start_ok pl fuel _ _ _ _ _ _ _ Hrun E Hn) as (_ & _ & _ & _ & _ & _ & _ & Hk & _). split; [done|].
  destruct (start_traced _ _ _ _ _ _ _ Hrun E Hn) as (im1 & s1 & g1 & s2 & E1 & Hg & (N1 & N2 & N3)).
  destruct (start_all_good l IH _ _ _ _ _ E1) as (_ & log & L & HF).
  { rewrite N1. cbn. destruct (is_apple im); [apply wrap64_range|done]. }
  exists (s1 :: log). cbn [snd] in L. rewrite L, Hg, <- app_assoc. split; [done|]. rewrite N1, N2 in HF. cbn [snd] in HF. cbn [runs]. cbv zeta. constructor; [by split|done].
Qed.

Lemma start_image_total t : Forall (readable pl) (images t) → ∀ s g, prepared s → ∃ st s' g', start_image t s g = Some (st, s', g') ∧ prepared s'.
Proof.
  induction t as [im l IH] using image_ind. cbn [images]. intros [Him Hl]%Forall_cons s g Hs. cbn [start_image]. apply start_total; [|done|done].
  intros _ s1 g1 H1. generalize (g1.1, g1.2 ++ [s1]) as g2. clear g1. revert s1 H1. induction IH as [|t l Ht IH IHl]; intros s1 H1 g2; [by eexists _, _, _|].
  rewrite fmap_cons in Hl. cbn [concat] in Hl. apply Forall_app in Hl as [Hl1 Hl2].
  destruct (Ht Hl1 s1 g2 H1) as (st1 & s2 & g3 & E1 & H2). cbn [start_image] in *. rewrite E1. cbn [mbind option_bind fst snd]. by apply IHl.
Qed.

(** C22. However images start other images through the override, in a run that returns: every
    image begins to run with the count of running boot.efi raised by one for each boot.efi
    among it and those that started it, so the overrides that depend on the count are active
    exactly inside; with the shims where they were; with boot variables redirected if the
    variable for it says so; and boot.efi with the write unprotection on.  When the
    outermost image returns, the count is the old one, the shims are where they were, the
    redirection is off, and after a boot.efi so is the write unprotection.  The run returns if
    the shims are installed, the jump from the kernel was prepared by an earlier boot, and the
    code and the arguments of the images can be read. *)
Theorem nested_boots t s f : 0 ≤ gMacOSBootNestedCount s < 2 ^ 64 →
  (∀ st s' g', start_image t s (f, []) = Some (st, s', g') →
     Forall2 (finds (d_shims (s_driver s))) (runs (gMacOSBootNestedCount s) t) g'.2 ∧
     keeps s s' ∧ gBootVariableRedirect (s_switches s') = false ∧
     (let '(Img im _) := t in is_apple im = true → gRequiresWriteUnprotect (s_switches s') = false)) ∧
  (prepared s → Forall (readable pl) (images t) → start_image t s (f, []) ≠ None).
Proof.
  intros Hn. split.
  - intros st s' g' E. destruct (start_image_good t _ _ _ _ _ E Hn) as (Hk & log & L & HF). cbn [snd] in L. rewrite app_nil_l in L. rewrite L.
    split; [done|]. split; [done|]. destruct t as [im l]. cbn [start_image] in E.
    change (λ (_ : LoadedImage) (s : Session) (g : F * list Session), _ l s (g.1, g.2 ++ [s])) with (λ (_ : LoadedImage) s g, start_all l s (g.1, g.2 ++ [s])) in E.
    apply start_ok in E as (im1 & s1 & f1 & s2 & _ & _ & Hc & _ & Hr); [| |done].
    + split; [done|]. unfold is_apple. intros Ha. rewrite Ha in Hc. apply Hc.
    + intros im1 s1 g1 st1 s2 g2 H1 E1. eapply start_all_good; [|exact E1|done]. apply Forall_forall. intros t _. apply start_image_good.
  - intros Hp Hr. destruct (start_image_total t Hr s (f, []) Hp) as (? & ? & ? & -> & _). done.
Qed.
End Trace.

Definition platform_demo : Platform := {|
  pl_cmp := 9; pl_redirect := Some true; pl_variable := λ _, false; pl_gop := false;
  pl_GetVariable := λ _ _ _ b, {| vr_status := EFI_NOT_FOUND; vr_attrs := None; vr_size := 0; vr_data := b |}; pl_guid := []; pl_stack := [];
  pl_code := [0x90]; pl_off32 := 0; pl_off64 := 0; pl_gST := 0 |}.

(** A driver that has prepared the jump and has installed its shims. *)
Definition driver_ready : Driver := {|
  d_kernel := {| ram := []; mOrigKernelCode := []; mOrigKernelCodeSize := 0; AsmKernelEntry := 0 |};
  d_jump := {| JumpToKernel32Addr := 1; JumpToKernel64Addr := 1; gSysTableRtArea := 0 |};
  d_virt := {| v_vm := {| vm_mem := ∅; VmMemoryPool := 0; VmMemoryPoolFreePages := 0 |}; mVirtualMemoryMap := []; mVirtualMapSize := 0;
               mVirtualMapDescriptorSize := 0; gRelocatedSysTableRtArea := 0 |};
  d_reloc := []; d_shims := shim_demo; d_monitor := {| mMinAllocatedAddr := 0x100000; mMaxAllocatedAddr := 0x200000; mHibernateImageAddress := 0 |};
  mExitBSMapKey := 0; rt_overridden := true |}.

Definition session_demo (n : Z) (unprotect : bool) : Session := {|
  gMacOSBootNestedCount := n; gHibernateWake := false; gSlideArgPresent := false;
  s_switches := {| gRequiresWriteUnprotect := unprotect; gBootVariableRedirect := false |}; s_driver := driver_ready; s_gop := true |}.

Definition boot_image : LoadedImage :=
  {| li_FilePath := Some boot_path; li_Image := replicate 32 0; li_LoadOptions := []; li_own_table := false |}.

Definition tool_image : LoadedImage := {| li_FilePath := None; li_Image := []; li_LoadOptions := []; li_own_table := false |}.

Lemma boot_image_readable : readable platform_demo boot_image ∧ readable platform_demo tool_image.
Proof. split; (split; [by vm_compute|intros [|]; by vm_compute]). Qed.

(** boot.efi starts a tool and another boot.efi. *)
Lemma nested_boots_witness :
  ∃ st s' g', start_image platform_demo 5 (Img boot_image [Img tool_image []; Img boot_image []]) (session_demo 0 false) (fixed0, []) = Some (st, s', g') ∧
    gMacOSBootNestedCount <$> g'.2 = [1; 1; 2] ∧ gMacOSBootNestedCount s' = 0.
Proof.
  destruct (nested_boots platform_demo 5 (Img boot_image [Img tool_image []; Img boot_image []]) (session_demo 0 false) fixed0) as [Hr Ht]; [simpl; lia|].
  destruct (start_image _ _ _ _ _) as [[[st s'] g']|] eqn:E.
  - exists st, s', g'. split; [reflexivity|]. destruct (Hr _ _ _ eq_refl) as (HF & [Hk _] & _). split; [|exact Hk]. clear - HF.
    change (runs _ _ _) with [(boot_image, 1); (tool_image, 1); (boot_image, 2)] in HF.
    apply Forall2_cons_inv_l in HF as (s1 & l1 & H1 & HF & ->). apply Forall2_cons_inv_l in HF as (s2 & l2 & H2 & HF & ->).
    apply Forall2_cons_inv_l in HF as (s3 & l3 & H3 & HF & ->). apply Forall2_nil_inv_l in HF as ->.
    cbn [fmap list_fmap]. by rewrite (proj1 H1), (proj1 H2), (proj1 H3).
  - exfalso. apply Ht; [done| |done]. repeat (constructor; [by apply boot_image_readable|]). constructor.
Defined.

(** A boot.efi that another one starts and that returns switches the write unprotection
    off, although the outer one is still running. *)
Example inner_boot_unprotect :
  (λ r, (gMacOSBootNestedCount r.1.2, gRequiresWriteUnprotect (s_switches r.1.2))) <$>
    start_image platform_demo 5 (Img boot_image []) (session_demo 1 true) (fixed0, []) = Some (1, false).
Proof. vm_compute. reflexivity. Qed.

(** Any image that is started resets the addresses that locate the kernel. *)
Example started_image_clears :
  (λ r, mMinAllocatedAddr (d_monitor (s_driver r.1.2))) <$>
    start_image platform_demo 5 (Img tool_image []) (session_demo 1 true) (fixed0, []) = Some 0.
Proof. vm_compute. reflexivity. Qed.

(** ** The shims from installation to virtual addresses *)

(** Installing the shims and setting virtual addresses fit together: the runtime services
    then point to the nine shims in the allocated block, each shim calls the virtual
    address of the service it replaced, and the GetVariable override is gone; if nothing
    could be allocated, the services are left alone. *)
Theorem shims_end_to_end {F} `{Firmware F} fuel size offsets override gRT s (f : F) map :
  mRtShimsAddrUpdated s = false →
  ∀ broken s1 gRT' f', InstallRtShims fuel broken size offsets override gRT s f = Some (s1, gRT', f') →
  match sh_area s1 with
  | None => gRT' = gRT
  | Some area =>
      gRT' = (λ o, wrap64 (area + o)) <$> offsets ∧ sh_override s1 = override ∧
      ∃ s2, VirtualizeRtShims map s1 = Some s2 ∧ sh_override s2 = 0 ∧
        sh_ptrs s2 = (λ p, convert map {| gFunc := p; Func := p; Fixed := false |}) <$> gRT
  end.
Proof.
  intros Hu broken s1 gRT' f'. unfold InstallRtShims. destruct (if broken then _ else _) as [[[st area] f1]|]; [|done]. cbn [mbind option_bind].
  destruct (EFI_ERROR st); [by intros [= <- <- <-]|]. intros [= <- <- <-]. cbn [sh_area sh_override]. split; [done|]. split; [done|].
  rewrite virtualize_ok; [|done|done|by apply Forall_fmap, Forall_true]. eexists. split; [reflexivity|]. cbn [sh_override sh_ptrs].
  split; [done|]. by rewrite <- list_fmap_compose.
Qed.

Lemma shims_end_to_end_witness :
  ∃ s1 gRT' f', InstallRtShims 5 true 0x300 [0; 0x40] 0x5000 [0x1010; 0x9000] {| sh_area := None; sh_override := 0; sh_ptrs := []; mRtShimsAddrUpdated := false |} fixed0
      = Some (s1, gRT', f') ∧
    match sh_area s1 with
    | None => gRT' = [0x1010; 0x9000]
    | Some area =>
        gRT' = (λ o, wrap64 (area + o)) <$> [0; 0x40] ∧ sh_override s1 = 0x5000 ∧
        ∃ s2, VirtualizeRtShims shim_map s1 = Some s2 ∧ sh_override s2 = 0 ∧
          sh_ptrs s2 = (λ p, convert shim_map {| gFunc := p; Func := p; Fixed := false |}) <$> [0x1010; 0x9000]
    end.
Proof.
  eexists _, _, _. split; [reflexivity|].
  exact (shims_end_to_end 5 0x300 [0; 0x40] 0x5000 [0x1010; 0x9000] {| sh_area := None; sh_override := 0; sh_ptrs := []; mRtShimsAddrUpdated := false |} fixed0
    shim_map eq_refl true _ _ _ eq_refl).
Defined.
