(* ===== verification/PartDisk.v ===== *)
(** * PartitionDxe: the disk, the child devices and their block I/O (Partition.c)

    A partition is a child device that maps its blocks to a range of bytes of the disk.
    The disk I/O protocol of the device, the pool and the handle database are the class
    [DiskIo]; what is documented of them is [DiskIoLaws].  The state of the driver is the
    device and the children it has installed.  DiskIo2, the asynchronous interface, is in
    PartAsync.v. *)

From Stdlib Require Import ZArith Lia.
From stdpp Require Import base list list_numbers.
From S2P Require Import Prelude.

Open Scope Z_scope.

(** ** Data *)

Record EFI_BLOCK_IO_MEDIA := {
  MediaId : Z; BlockSize : Z; LastBlock : Z; MediaPresent : bool; RemovableMedia : bool; LogicalPartition : bool
}.

Record HARDDRIVE_DEVICE_PATH := {
  hd_PartitionNumber : Z; hd_PartitionStart : Z; hd_PartitionSize : Z; hd_Signature : list Z; hd_MBRType : Z; hd_SignatureType : Z
}.

Record CDROM_DEVICE_PATH := { cd_BootEntry : Z; cd_PartitionStart : Z; cd_PartitionSize : Z }.

(** The nodes of a device path that matter here. *)
Inductive DevNode := HardDrive (hd : HARDDRIVE_DEVICE_PATH) | CdRom (cd : CDROM_DEVICE_PATH) | OtherNode.

(** A child: its device path node, the bytes [p_Start, p_End) of the disk, its media. *)
Record PARTITION_PRIVATE_DATA := {
  p_Node : DevNode; p_Start : Z; p_End : Z; p_BlockSize : Z; p_LastBlock : Z; p_Esp : bool
}.

Definition sizeof_PARTITION_PRIVATE_DATA : Z := 272.

(** [MultU64x32] and [DivU64x32]. *)
Definition MultU64x32 (a b : Z) : Z := wrap64 (a * b).

(** ** The device and the platform *)

Class DiskIo (D : Type) := {
  ReadDisk : D → Z → Z → Z → EFI_STATUS * list Z;
  WriteDisk : D → Z → Z → list Z → EFI_STATUS * D;
  (** the status of reading one byte into a NULL buffer *)
  ReadNull : D → Z → EFI_STATUS;
  (** there is memory for a pool allocation of so many bytes, or for a device path *)
  AllocatePool : D → Z → bool;
  AppendDevicePathNode : D → DevNode → bool;
  InstallMultipleProtocolInterfaces : D → PARTITION_PRIVATE_DATA → EFI_STATUS * D;
  (** the parent is opened for the child *)
  OpenProtocol : D → EFI_STATUS
}.

(** [bytes] are the contents of the media; [ready] says that the media is there and can be
    read, that the pool has memory and that protocols can be installed and opened;
    [writable] says that it can be written. *)
Class DiskIoLaws (D : Type) `{DiskIo D} := {
  bytes : D → list Z;
  ready : D → Z → Prop;
  writable : D → Z → Prop;
  read_disk_ok d id off n bs : ReadDisk d id off n = (EFI_SUCCESS, bs) →
    0 ≤ off ∧ 0 ≤ n ∧ off + n ≤ Z.of_nat (length (bytes d)) ∧ bs = slice (Z.to_nat off) (Z.to_nat n) (bytes d);
  (** a write changes nothing outside its range, and if it succeeds, stores the data *)
  write_disk_frame d id off bs st d' : WriteDisk d id off bs = (st, d') →
    length (bytes d') = length (bytes d) ∧
    ∀ i, Z.of_nat i < off ∨ off + Z.of_nat (length bs) ≤ Z.of_nat i → bytes d' !! i = bytes d !! i;
  write_disk_ok d id off bs d' : WriteDisk d id off bs = (EFI_SUCCESS, d') → bytes d' = store (Z.to_nat off) bs (bytes d);
  install_ok d c st d' : InstallMultipleProtocolInterfaces d c = (st, d') → bytes d' = bytes d;
  ready_read d id off n : ready d id → 0 ≤ off → 0 ≤ n → off + n ≤ Z.of_nat (length (bytes d)) →
    ReadDisk d id off n = (EFI_SUCCESS, slice (Z.to_nat off) (Z.to_nat n) (bytes d));
  ready_write d id off bs : ready d id → writable d id → 0 ≤ off → off + Z.of_nat (length bs) ≤ Z.of_nat (length (bytes d)) →
    ∃ d', WriteDisk d id off bs = (EFI_SUCCESS, d') ∧ ready d' id ∧ writable d' id;
  ready_alloc d id n : ready d id → 0 ≤ n → AllocatePool d n = true;
  ready_path d id node : ready d id → AppendDevicePathNode d node = true;
  ready_install d id c : ready d id → ∃ d', InstallMultipleProtocolInterfaces d c = (EFI_SUCCESS, d') ∧ ready d' id;
  ready_open d id : ready d id → OpenProtocol d = EFI_SUCCESS
}.

(** A disk in memory, which may be write-protected. *)
Record ByteDisk := { bd_bytes : list Z; bd_writable : bool }.

#[global] Instance ByteDisk_io : DiskIo ByteDisk := {
  ReadDisk d _ off n :=
    if (0 <=? off) && (0 <=? n) && (off + n <=? Z.of_nat (length (bd_bytes d)))
    then (EFI_SUCCESS, slice (Z.to_nat off) (Z.to_nat n) (bd_bytes d)) else (EFI_INVALID_PARAMETER, []);
  WriteDisk d _ off bs :=
    if negb (bd_writable d) then (EFI_WRITE_PROTECTED, d)
    else if (0 <=? off) && (off + Z.of_nat (length bs) <=? Z.of_nat (length (bd_bytes d)))
    then (EFI_SUCCESS, {| bd_bytes := store (Z.to_nat off) bs (bd_bytes d); bd_writable := true |})
    else (EFI_INVALID_PARAMETER, d);
  ReadNull _ _ := EFI_INVALID_PARAMETER;
  AllocatePool _ _ := true;
  AppendDevicePathNode _ _ := true;
  InstallMultipleProtocolInterfaces d _ := (EFI_SUCCESS, d);
  OpenProtocol _ := EFI_SUCCESS
}.

#[global] Instance ByteDisk_laws : DiskIoLaws ByteDisk.
Proof.
  refine {| bytes := bd_bytes; ready := λ _ _, True; writable := λ d _, bd_writable d = true |}.
  - intros d id off n bs. cbn. destruct (_ && _) eqn:E; intros [= <-]. zbool. done.
  - intros d id off bs st d'. cbn. destruct (bd_writable d); cbn; [|by intros [= _ <-]].
    destruct (_ && _) eqn:E; intros [= _ <-]; [|done]. cbn. zbool. split; [apply length_store|].
    intros i [Hi|Hi]; unfold store; [apply list_lookup_inserts_lt|apply list_lookup_inserts_ge]; lia.
  - intros d id off bs d'. cbn. destruct (bd_writable d); cbn; [|done]. by destruct (_ && _); intros [= <-].
  - by intros d c st d' [= _ <-].
  - intros d id off n _ H1 H2 H3. cbn. apply Z.leb_le in H1, H2, H3. by rewrite H1, H2, H3.
  - intros d id off bs _ Hw H1 H2. cbn. apply Z.leb_le in H1, H2. rewrite Hw, H1, H2. cbn. by eexists.
  - done.
  - done.
  - intros d id c _. by exists d.
  - done.
Defined.

(** ** The driver's state *)

Record Part (D : Type) := { p_disk : D; p_children : list PARTITION_PRIVATE_DATA }.
Arguments p_disk {_} _.
Arguments p_children {_} _.

Section Driver.
Context {D : Type} `{DiskIo D} (m : EFI_BLOCK_IO_MEDIA).

Definition read_disk (off n : Z) : M (Part D) (EFI_STATUS * list Z) := gets (λ s, ReadDisk (p_disk s) (MediaId m) off n).
Definition write_disk (off : Z) (bs : list Z) : M (Part D) EFI_STATUS := λ s,
  let '(st, d) := WriteDisk (p_disk s) (MediaId m) off bs in Some (st, {| p_disk := d; p_children := p_children s |}).
Definition alloc (n : Z) : M (Part D) bool := gets (λ s, AllocatePool (p_disk s) n).

(** ** Installing a child *)

(** [End - Start + 1] blocks of the parent in blocks of [bs] bytes; division by zero fails. *)
Definition last_block (Start End bs : Z) : option Z :=
  if bs =? 0 then None else Some (wrap64 (MultU64x32 (wrap64 (End - Start + 1)) (BlockSize m) / bs - 1)).

(** The interfaces are installed, then the parent is opened for the child. *)
Definition install_child (c : PARTITION_PRIVATE_DATA) : M (Part D) EFI_STATUS := λ s,
  let '(st, d) := InstallMultipleProtocolInterfaces (p_disk s) c in
  if EFI_ERROR st then Some (st, {| p_disk := d; p_children := p_children s |})
  else Some (OpenProtocol d, {| p_disk := d; p_children := p_children s ++ [c] |}).

Definition PartitionInstallChildHandle (DevicePathNode : DevNode) (Start End bs : Z) (InstallEspGuid : bool) : M (Part D) EFI_STATUS :=
  ok ← alloc sizeof_PARTITION_PRIVATE_DATA;
  if negb ok then mret EFI_OUT_OF_RESOURCES else
  match last_block Start End bs with
  | None => undef
  | Some LastBlock =>
      path ← gets (λ s, AppendDevicePathNode (p_disk s) DevicePathNode);
      if negb path then mret EFI_OUT_OF_RESOURCES else
      install_child {| p_Node := DevicePathNode; p_Start := MultU64x32 Start (BlockSize m);
                       p_End := MultU64x32 (wrap64 (End + 1)) (BlockSize m); p_BlockSize := bs; p_LastBlock := LastBlock;
                       p_Esp := InstallEspGuid |}
  end.
End Driver.

(** ** Block I/O of a child *)

Section BlockIo.
Context {D : Type} `{DiskIo D}.

Definition ProbeMediaStatus (MediaId : Z) (DefaultStatus : EFI_STATUS) : M (Part D) EFI_STATUS :=
  Status ← gets (λ s, ReadNull (p_disk s) MediaId);
  mret (if bool_decide (Status = EFI_NO_MEDIA) || bool_decide (Status = EFI_MEDIA_CHANGED) then Status else DefaultStatus).

Definition child_offset (Private : PARTITION_PRIVATE_DATA) (Lba : Z) : Z :=
  wrap64 (MultU64x32 Lba (p_BlockSize Private) + p_Start Private).

Definition PartitionReadBlocks (Private : PARTITION_PRIVATE_DATA) (MediaId Lba BufferSize : Z) : M (Part D) (EFI_STATUS * list Z) :=
  if p_BlockSize Private =? 0 then undef else
  if negb (BufferSize mod p_BlockSize Private =? 0) then (Status ← ProbeMediaStatus MediaId EFI_BAD_BUFFER_SIZE; mret (Status, [])) else
  let Offset := child_offset Private Lba in
  if p_End Private <? wrap64 (Offset + BufferSize) then (Status ← ProbeMediaStatus MediaId EFI_INVALID_PARAMETER; mret (Status, [])) else
  gets (λ s, ReadDisk (p_disk s) MediaId Offset BufferSize).

Definition PartitionWriteBlocks (Private : PARTITION_PRIVATE_DATA) (MediaId Lba : Z) (Buffer : list Z) : M (Part D) EFI_STATUS :=
  let BufferSize := Z.of_nat (length Buffer) in
  if p_BlockSize Private =? 0 then undef else
  if negb (BufferSize mod p_BlockSize Private =? 0) then ProbeMediaStatus MediaId EFI_BAD_BUFFER_SIZE else
  let Offset := child_offset Private Lba in
  if p_End Private <? wrap64 (Offset + BufferSize) then ProbeMediaStatus MediaId EFI_INVALID_PARAMETER else λ s,
  let '(st, d) := WriteDisk (p_disk s) MediaId Offset Buffer in Some (st, {| p_disk := d; p_children := p_children s |}).
End BlockIo.
