(* ===== verification/PartGpt.v ===== *)
(** * PartitionDxe: the GUID partition table (Gpt.c)

    A header is the bytes of its block; its fields are loads at their offsets.  The
    CRC service of the platform is the parameter [CalculateCrc32]. *)

From Stdlib Require Import ZArith Lia.
From stdpp Require Import base list list_numbers.
From S2P Require Import Prelude PartDisk.

Open Scope Z_scope.

(** ** Layout *)

Definition sizeof_EFI_PARTITION_TABLE_HEADER : nat := 92.
Definition sizeof_EFI_PARTITION_ENTRY : Z := 128.
Definition EFI_PTAB_HEADER_ID : Z := 0x5452415020494645.
Definition PRIMARY_PART_HEADER_LBA : Z := 1.
Definition MAX_UINTN : Z := 0xFFFFFFFFFFFFFFFF.

Definition Signature (h : list Z) : Z := load 8 0 h.
Definition HeaderSize (h : list Z) : Z := load 4 12 h.
Definition CRC32 (h : list Z) : Z := load 4 16 h.
Definition MyLBA (h : list Z) : Z := load 8 24 h.
Definition AlternateLBA (h : list Z) : Z := load 8 32 h.
Definition FirstUsableLBA (h : list Z) : Z := load 8 40 h.
Definition LastUsableLBA (h : list Z) : Z := load 8 48 h.
Definition PartitionEntryLBA (h : list Z) : Z := load 8 72 h.
Definition NumberOfPartitionEntries (h : list Z) : Z := load 4 80 h.
Definition SizeOfPartitionEntry (h : list Z) : Z := load 4 84 h.
Definition PartitionEntryArrayCRC32 (h : list Z) : Z := load 4 88 h.

(** The product of two 32-bit fields is a 32-bit number. *)
Definition array_size (h : list Z) : Z := wrap32 (NumberOfPartitionEntries h * SizeOfPartitionEntry h).

Record EFI_PARTITION_ENTRY := {
  PartitionTypeGUID : list Z; UniquePartitionGUID : list Z; StartingLBA : Z; EndingLBA : Z; Attributes : Z
}.

Definition gEfiPartTypeUnusedGuid : list Z := replicate 16 0.
Definition gEfiPartTypeSystemPartGuid : list Z :=
  [0x28; 0x73; 0x2A; 0xC1; 0x1F; 0xF8; 0xD2; 0x11; 0xBA; 0x4B; 0x00; 0xA0; 0xC9; 0x3E; 0xC9; 0x3B].

Definition entry_of (b : list Z) : EFI_PARTITION_ENTRY := {|
  PartitionTypeGUID := slice 0 16 b; UniquePartitionGUID := slice 16 16 b; StartingLBA := load 8 32 b; EndingLBA := load 8 40 b;
  Attributes := load 8 48 b |}.

(** Entry [i] of the array; [None] if the fields that are read lie outside the buffer. *)
Definition entry_at (h PartEntry : list Z) (i : nat) : option EFI_PARTITION_ENTRY :=
  let off := (i * Z.to_nat (SizeOfPartitionEntry h))%nat in
  if decide (off + 56 ≤ length PartEntry)%nat then Some (entry_of (drop off PartEntry)) else None.

Definition unused (e : EFI_PARTITION_ENTRY) : bool := bool_decide (PartitionTypeGUID e = gEfiPartTypeUnusedGuid).

(** ** The state of the entries *)

Record EFI_PARTITION_ENTRY_STATUS := { OutOfRange : bool; Overlap : bool; OsSpecific : bool }.

Definition zero_status : EFI_PARTITION_ENTRY_STATUS := {| OutOfRange := false; Overlap := false; OsSpecific := false |}.
Definition set_range (s : EFI_PARTITION_ENTRY_STATUS) := {| OutOfRange := true; Overlap := Overlap s; OsSpecific := OsSpecific s |}.
Definition set_overlap (s : EFI_PARTITION_ENTRY_STATUS) := {| OutOfRange := OutOfRange s; Overlap := true; OsSpecific := OsSpecific s |}.
Definition set_os (s : EFI_PARTITION_ENTRY_STATUS) := {| OutOfRange := OutOfRange s; Overlap := Overlap s; OsSpecific := true |}.

Definition out_of_range (h : list Z) (e : EFI_PARTITION_ENTRY) : bool :=
  (EndingLBA e <? StartingLBA e) || (StartingLBA e <? FirstUsableLBA h) || (LastUsableLBA h <? StartingLBA e) ||
  (EndingLBA e <? FirstUsableLBA h) || (LastUsableLBA h <? EndingLBA e).

Definition overlapping (a e : EFI_PARTITION_ENTRY) : bool := (StartingLBA a <=? EndingLBA e) && (StartingLBA e <=? EndingLBA a).

(** The loop over [Index2], from [j] on. *)
Fixpoint check_rest (i : nat) (a : EFI_PARTITION_ENTRY) (j : nat) (l : list EFI_PARTITION_ENTRY) (st : list EFI_PARTITION_ENTRY_STATUS)
    : list EFI_PARTITION_ENTRY_STATUS :=
  match l with
  | [] => st
  | e :: l =>
      check_rest i a (S j) l
        (if unused e then st else if overlapping a e then alter set_overlap j (alter set_overlap i st) else st)
  end.

(** The loop over [Index1]. *)
Fixpoint check_entries (h : list Z) (i : nat) (l : list EFI_PARTITION_ENTRY) (st : list EFI_PARTITION_ENTRY_STATUS)
    : list EFI_PARTITION_ENTRY_STATUS :=
  match l with
  | [] => st
  | a :: l =>
      check_entries h (S i) l
        (if unused a then st
         else if out_of_range h a then alter set_range i st
         else check_rest i a (S i) l (if Z.testbit (Attributes a) 1 then alter set_os i st else st))
  end.

(** The entries as the outer loop reads them. *)
Definition entries (h PartEntry : list Z) : option (list EFI_PARTITION_ENTRY) :=
  mapM (entry_at h PartEntry) (seq 0 (Z.to_nat (NumberOfPartitionEntries h))).

Definition PartitionCheckGptEntry (h PartEntry : list Z) (PEntryStatus : list EFI_PARTITION_ENTRY_STATUS)
    : option (list EFI_PARTITION_ENTRY_STATUS) :=
  es ← entries h PartEntry; Some (check_entries h 0 es PEntryStatus).

Section Gpt.
Context {D : Type} `{DiskIo D} (m : EFI_BLOCK_IO_MEDIA) (CalculateCrc32 : list Z → option Z).

(** ** Checksums *)

(** The checksum is also written to the header. *)
Definition PartitionCheckCrcAltSize (MaxSize Size : Z) (Hdr : list Z) : bool * list Z :=
  if Size =? 0 then (false, Hdr) else
  if negb (MaxSize =? 0) && (MaxSize <? Size) then (false, Hdr) else
  let OrgCrc := CRC32 Hdr in
  let Hdr := store 16 (le_put 4 0) Hdr in
  match CalculateCrc32 (take (Z.to_nat Size) Hdr) with
  | None => (false, Hdr)
  | Some Crc => (OrgCrc =? Crc, store 16 (le_put 4 Crc) Hdr)
  end.

Definition PartitionCheckCrc (MaxSize : Z) (Hdr : list Z) : bool * list Z := PartitionCheckCrcAltSize MaxSize (HeaderSize Hdr) Hdr.

(** [None]: the checksum is over bytes outside the buffer, or an uninitialised variable. *)
Definition PartitionSetCrcAltSize (Size : Z) (Hdr : list Z) : option (list Z) :=
  if Z.of_nat (length Hdr) <? Size then None else
  let Hdr := store 16 (le_put 4 0) Hdr in
  Crc ← CalculateCrc32 (take (Z.to_nat Size) Hdr); Some (store 16 (le_put 4 Crc) Hdr).

Definition PartitionSetCrc (Hdr : list Z) : option (list Z) := PartitionSetCrcAltSize (HeaderSize Hdr) Hdr.

(** ** Reading a table *)

Definition PartitionCheckGptEntryArrayCRC (h : list Z) : M (Part D) bool :=
  ok ← alloc (array_size h);
  if negb ok then mret false else
  r ← read_disk m (MultU64x32 (PartitionEntryLBA h) (BlockSize m)) (array_size h);
  if EFI_ERROR r.1 then mret false else
  mret (match CalculateCrc32 r.2 with None => false | Some Crc => PartitionEntryArrayCRC32 h =? Crc end).

(** [PartHeader] is the caller's buffer, which is overwritten before the array is checked. *)
Definition PartitionValidGptTable (Lba : Z) (PartHeader : list Z) : M (Part D) (bool * list Z) :=
  ok ← alloc (BlockSize m);
  if negb ok then mret (false, PartHeader) else
  r ← read_disk m (MultU64x32 Lba (BlockSize m)) (BlockSize m);
  if EFI_ERROR r.1 then mret (false, PartHeader) else
  let PartHdr := r.2 in
  if BlockSize m <? Z.of_nat sizeof_EFI_PARTITION_TABLE_HEADER then undef else
  if negb (Signature PartHdr =? EFI_PTAB_HEADER_ID) then mret (false, PartHeader) else
  let '(crc, PartHdr) := PartitionCheckCrc (BlockSize m) PartHdr in
  if negb crc || negb (MyLBA PartHdr =? Lba) || (SizeOfPartitionEntry PartHdr <? sizeof_EFI_PARTITION_ENTRY)
  then mret (false, PartHeader) else
  if MAX_UINTN / SizeOfPartitionEntry PartHdr <? NumberOfPartitionEntries PartHdr then mret (false, PartHeader) else
  let PartHeader := take sizeof_EFI_PARTITION_TABLE_HEADER PartHdr in
  b ← PartitionCheckGptEntryArrayCRC PartHeader; mret (b, PartHeader).

(** ** Writing the other copy *)

Definition entry_lba (h : list Z) : Z :=
  if MyLBA h =? PRIMARY_PART_HEADER_LBA then wrap64 (LastUsableLBA h + 1) else PRIMARY_PART_HEADER_LBA + 1.

(** The header of the other copy without its checksum, in a block of zeros. *)
Definition other_header (h : list Z) : list Z :=
  let PartHdr := h ++ replicate (Z.to_nat (BlockSize m) - length h) 0 in
  store 72 (le_put 8 (entry_lba h)) (store 32 (le_put 8 (MyLBA h)) (store 24 (le_put 8 (AlternateLBA h)) PartHdr)).

Definition PartitionRestoreGptTable (h : list Z) : M (Part D) bool :=
  ok ← alloc (BlockSize m);
  if negb ok then mret false else
  if BlockSize m <? Z.of_nat (length h) then undef else
  match PartitionSetCrc (other_header h) with
  | None => undef
  | Some PartHdr =>
      Status ← write_disk m (MultU64x32 (MyLBA PartHdr) (BlockSize m)) PartHdr;
      if EFI_ERROR Status then mret false else
      ok ← alloc (array_size h);
      if negb ok then mret false else
      r ← read_disk m (MultU64x32 (PartitionEntryLBA h) (BlockSize m)) (array_size h);
      if EFI_ERROR r.1 then mret false else
      Status ← write_disk m (MultU64x32 (entry_lba h) (BlockSize m)) r.2;
      mret (negb (EFI_ERROR Status))
  end.

(** ** The children *)

(** The fields of the protective entry at 446 + 16 i. *)
Definition protective (mbr : list Z) (i : nat) : bool :=
  let p := drop (446 + 16 * i) mbr in
  (Z.land (load 1 0 p) 0x7F =? 0) && (load 1 4 p =? 0xEE) && (load 4 8 p =? 1).

Definition gpt_node (i : nat) (e : EFI_PARTITION_ENTRY) : HARDDRIVE_DEVICE_PATH := {|
  hd_PartitionNumber := wrap32 (wrap32 (Z.of_nat i) + 1); hd_PartitionStart := StartingLBA e;
  hd_PartitionSize := wrap64 (EndingLBA e - StartingLBA e + 1); hd_Signature := UniquePartitionGUID e; hd_MBRType := 2;
  hd_SignatureType := 2 |}.

Definition skipped (e : EFI_PARTITION_ENTRY) (st : EFI_PARTITION_ENTRY_STATUS) : bool :=
  unused e || OutOfRange st || Overlap st || OsSpecific st.

(** The loop that creates the handles; the status of an installation is not used. *)
Fixpoint install_entries (i : nat) (l : list (EFI_PARTITION_ENTRY * EFI_PARTITION_ENTRY_STATUS)) : M (Part D) unit :=
  match l with
  | [] => mret tt
  | (e, st) :: l =>
      if skipped e st then install_entries (S i) l else
      _ ← PartitionInstallChildHandle m (HardDrive (gpt_node i e)) (StartingLBA e) (EndingLBA e) (BlockSize m)
            (bool_decide (PartitionTypeGUID e = gEfiPartTypeSystemPartGuid));
      install_entries (S i) l
  end.

(** Which headers there are: the primary header is used from here on, whether the last
    check of it succeeded or not. *)
Definition check_tables (PrimaryHeader BackupHeader : list Z) : M (Part D) (option (list Z)) :=
  r ← PartitionValidGptTable PRIMARY_PART_HEADER_LBA PrimaryHeader;
  let '(primary, PrimaryHeader) := r in
  if negb primary then
    r ← PartitionValidGptTable (LastBlock m) BackupHeader;
    let '(backup, BackupHeader) := r in
    if negb backup then mret None else
    _ ← PartitionRestoreGptTable BackupHeader;
    r ← PartitionValidGptTable (AlternateLBA BackupHeader) PrimaryHeader;
    mret (Some r.2)
  else
    r ← PartitionValidGptTable (AlternateLBA PrimaryHeader) BackupHeader;
    if negb r.1 then
      _ ← PartitionRestoreGptTable PrimaryHeader;
      _ ← PartitionValidGptTable (AlternateLBA PrimaryHeader) r.2;
      mret (Some PrimaryHeader)
    else mret (Some PrimaryHeader).

(** From the header on: read the entries, check them, create the handles. *)
Definition install_table (h : list Z) : M (Part D) EFI_STATUS :=
  ok ← alloc (array_size h);
  if negb ok then mret EFI_NOT_FOUND else
  r ← read_disk m (MultU64x32 (PartitionEntryLBA h) (BlockSize m)) (array_size h);
  if EFI_ERROR r.1 then mret r.1 else
  ok ← alloc (NumberOfPartitionEntries h * 3);
  if negb ok then mret EFI_NOT_FOUND else
  match entries h r.2, PartitionCheckGptEntry h r.2 (replicate (Z.to_nat (NumberOfPartitionEntries h)) zero_status) with
  | Some es, Some PEntryStatus => _ ← install_entries 0 (zip es PEntryStatus); mret EFI_SUCCESS
  | _, _ => undef
  end.

Definition PartitionInstallGptChildHandles : M (Part D) EFI_STATUS :=
  ok ← alloc (BlockSize m);
  if negb ok then mret EFI_NOT_FOUND else
  r ← read_disk m 0 (BlockSize m);
  if EFI_ERROR r.1 then mret r.1 else
  if BlockSize m <? 512 then undef else
  if negb (existsb (protective r.2) (seq 0 4)) then mret EFI_NOT_FOUND else
  ok ← alloc (Z.of_nat sizeof_EFI_PARTITION_TABLE_HEADER);
  if negb ok then mret EFI_NOT_FOUND else
  ok ← alloc (Z.of_nat sizeof_EFI_PARTITION_TABLE_HEADER);
  if negb ok then mret EFI_NOT_FOUND else
  t ← check_tables (replicate sizeof_EFI_PARTITION_TABLE_HEADER 0) (replicate sizeof_EFI_PARTITION_TABLE_HEADER 0);
  match t with
  | None => mret EFI_NOT_FOUND
  | Some h => install_table h
  end.
End Gpt.
