(* ===== verification/PartGptProofs.v ===== *)
(** * PartitionDxe: when a GUID partition table is valid, and writing its other copy *)

From Stdlib Require Import ZArith Lia.
From stdpp Require Import base list list_numbers.
From S2P Require Import Prelude PartDisk PartGpt.

Open Scope Z_scope.

(** ** Bytes *)

Lemma slice_take off n k (l : list Z) : (off + n ≤ k)%nat → slice off n (take k l) = slice off n l.
Proof. intros Hk. apply list_eq. intros i. rewrite !slice_lookup. case_decide; [|done]. apply lookup_take_lt. lia. Qed.

Lemma slice_app_l off n (l k : list Z) : (off + n ≤ length l)%nat → slice off n (l ++ k) = slice off n l.
Proof. intros Hl. apply list_eq. intros i. rewrite !slice_lookup. case_decide; [|done]. apply lookup_app_l. lia. Qed.

Lemma load_take n off k (l : list Z) : (off + n ≤ k)%nat → load n off (take k l) = load n off l.
Proof. intros Hk. unfold load. by rewrite slice_take. Qed.

Lemma load_app_l n off (l k : list Z) : (off + n ≤ length l)%nat → load n off (l ++ k) = load n off l.
Proof. intros Hl. unfold load. by rewrite slice_app_l. Qed.

Lemma store_store off a b (l : list Z) : length a = length b → store off a (store off b l) = store off a l.
Proof.
  intros Hl. unfold store. apply list_eq. intros i. destruct (decide (i < off)%nat); [by rewrite !list_lookup_inserts_lt by lia|].
  destruct (decide (off + length a ≤ i)%nat); [by rewrite !list_lookup_inserts_ge by lia|].
  destruct (decide (i < length l)%nat) as [Hi|Hi].
  - by rewrite !list_lookup_inserts by (rewrite ?length_inserts; lia).
  - rewrite !lookup_ge_None_2; [done|rewrite ?length_inserts; lia..].
Qed.

Lemma store_slice off n (l : list Z) : (off + n ≤ length l)%nat → store off (slice off n l) l = l.
Proof.
  intros Hl. unfold store. apply list_eq. intros i. pose proof (length_slice off n l Hl) as Hs.
  destruct (decide (i < off)%nat); [by rewrite !list_lookup_inserts_lt by lia|].
  destruct (decide (off + n ≤ i)%nat); [by rewrite !list_lookup_inserts_ge by lia|].
  rewrite list_lookup_inserts by lia. rewrite slice_lookup, decide_True by lia. f_equal. lia.
Qed.

Lemma store_load off n (l : list Z) : Forall is_byte l → (off + n ≤ length l)%nat → store off (le_put n (load n off l)) l = l.
Proof.
  intros Hb Hl. unfold load. pose proof (length_slice off n l Hl) as Hs. rewrite <- Hs at 1.
  rewrite le_put_get by (by apply Forall_slice). by apply store_slice.
Qed.

(** ** Checksums *)

Section Tables.
Context {D : Type} `{DiskIoLaws D} (m : EFI_BLOCK_IO_MEDIA) (crc : list Z → option Z).
Context (Hcrc : ∀ l c, crc l = Some c → 0 ≤ c < 2 ^ 32).
Context (Hbs : 512 ≤ BlockSize m < 2 ^ 32).

(** What the code demands of the block of a header. *)
Record header_ok (Lba : Z) (b : list Z) : Prop := {
  ho_sig : Signature b = EFI_PTAB_HEADER_ID;
  ho_size : 0 < HeaderSize b ≤ BlockSize m;
  ho_crc : crc (take (Z.to_nat (HeaderSize b)) (store 16 (le_put 4 0) b)) = Some (CRC32 b);
  ho_lba : MyLBA b = Lba;
  ho_entry : sizeof_EFI_PARTITION_ENTRY ≤ SizeOfPartitionEntry b;
  ho_number : NumberOfPartitionEntries b ≤ MAX_UINTN / SizeOfPartitionEntry b
}.

Lemma check_crc_true b b' : Forall is_byte b → (20 ≤ length b)%nat → PartitionCheckCrc crc (BlockSize m) b = (true, b') →
  b' = b ∧ 0 < HeaderSize b ≤ BlockSize m ∧ crc (take (Z.to_nat (HeaderSize b)) (store 16 (le_put 4 0) b)) = Some (CRC32 b).
Proof.
  intros Hb Hl. pose proof (load_range 4 12 b Hb ltac:(lia)) as Hr. unfold PartitionCheckCrc, PartitionCheckCrcAltSize, HeaderSize in *.
  destruct (Z.eqb_spec (load 4 12 b) 0); [done|]. destruct (Z.eqb_spec (BlockSize m) 0); [lia|]. cbn [negb andb].
  destruct (Z.ltb_spec (BlockSize m) (load 4 12 b)); [done|].
  destruct (crc _) as [c|] eqn:E; [|done]. intros Heq.
  pose proof (f_equal fst Heq) as Hc. pose proof (f_equal snd Heq) as Hb'. cbn [fst snd] in Hc, Hb'. clear Heq.
  apply Z.eqb_eq in Hc. subst c b'.
  rewrite store_store by reflexivity. unfold CRC32. rewrite store_load by (try done; lia). repeat split; [lia..|done].
Qed.

Lemma check_crc_ok b : Forall is_byte b → (20 ≤ length b)%nat → 0 < HeaderSize b ≤ BlockSize m →
  crc (take (Z.to_nat (HeaderSize b)) (store 16 (le_put 4 0) b)) = Some (CRC32 b) →
  PartitionCheckCrc crc (BlockSize m) b = (true, b).
Proof.
  intros Hb Hl Hs E. unfold PartitionCheckCrc, PartitionCheckCrcAltSize.
  destruct (Z.eqb_spec (HeaderSize b) 0); [lia|]. destruct (Z.eqb_spec (BlockSize m) 0); [lia|]. cbn [negb andb].
  destruct (Z.ltb_spec (BlockSize m) (HeaderSize b)); [lia|]. rewrite E, Z.eqb_refl.
  rewrite store_store by reflexivity. unfold CRC32. by rewrite store_load by (try done; lia).
Qed.

(** Setting the checksum makes it right and keeps the rest. *)
Lemma set_crc_ok b : Forall is_byte b → Z.of_nat (length b) = BlockSize m → 0 < HeaderSize b ≤ BlockSize m →
  is_Some (crc (take (Z.to_nat (HeaderSize b)) (store 16 (le_put 4 0) b))) →
  ∃ c, PartitionSetCrc crc b = Some (store 16 (le_put 4 c) b) ∧ 0 ≤ c < 2 ^ 32 ∧
    crc (take (Z.to_nat (HeaderSize b)) (store 16 (le_put 4 0) b)) = Some c.
Proof.
  intros Hb Hl Hs [c E]. exists c. unfold PartitionSetCrc, PartitionSetCrcAltSize.
  destruct (Z.ltb_spec (Z.of_nat (length b)) (HeaderSize b)); [lia|]. rewrite E. cbn [mbind option_bind].
  rewrite store_store by reflexivity. split; [done|]. split; [by eapply Hcrc|done].
Qed.

(** ** Valid tables *)

Abbreviation BS := (BlockSize m).

Definition in_disk (l : list Z) (off n : Z) : Prop := 0 ≤ off ∧ 0 ≤ n ∧ off + n ≤ Z.of_nat (length l).
Definition region (l : list Z) (off n : Z) : list Z := slice (Z.to_nat off) (Z.to_nat n) l.

(** The entries of the table with header [h]. *)
Definition array (l h : list Z) : list Z := region l (MultU64x32 (PartitionEntryLBA h) BS) (array_size h).

(** The disk [l] has a valid table at [Lba] with header [h]. *)
Record valid_at (l : list Z) (Lba : Z) (h : list Z) : Prop := {
  va_in : in_disk l (MultU64x32 Lba BS) BS;
  va_header : header_ok Lba (region l (MultU64x32 Lba BS) BS);
  va_eq : h = take 92 (region l (MultU64x32 Lba BS) BS);
  va_array_in : in_disk l (MultU64x32 (PartitionEntryLBA h) BS) (array_size h);
  va_array : crc (array l h) = Some (PartitionEntryArrayCRC32 h)
}.

Implicit Types s : Part D.
Abbreviation disk s := (bytes (p_disk s)).

Lemma read_true off n s st bs s' : read_disk m off n s = Some ((st, bs), s') → EFI_ERROR st = false →
  s' = s ∧ in_disk (disk s) off n ∧ bs = region (disk s) off n.
Proof.
  unfold read_disk, gets. intros [= E <-] He. destruct st; try done. by apply read_disk_ok in E as (? & ? & ? & ->).
Qed.

Lemma read_ready off n s : ready (p_disk s) (MediaId m) → in_disk (disk s) off n →
  read_disk m off n s = Some ((EFI_SUCCESS, region (disk s) off n), s).
Proof. intros Hr (? & ? & ?). unfold read_disk, gets. by rewrite ready_read. Qed.

Lemma alloc_ready n s : ready (p_disk s) (MediaId m) → 0 ≤ n → alloc n s = Some (true, s).
Proof. intros Hr Hn. unfold alloc, gets. by erewrite ready_alloc. Qed.

Lemma array_size_range h : 0 ≤ array_size h < 2 ^ 32.
Proof. apply wrap32_range. Qed.

Lemma region_bytes l off n : Forall is_byte l → Forall is_byte (region l off n).
Proof. apply Forall_slice. Qed.

Lemma length_region l off n : in_disk l off n → length (region l off n) = Z.to_nat n.
Proof. intros (? & ? & ?). apply length_slice. lia. Qed.

Lemma array_crc_true h s b s' : PartitionCheckGptEntryArrayCRC m crc h s = Some (b, s') → s' = s ∧
  (b = true → in_disk (disk s) (MultU64x32 (PartitionEntryLBA h) BS) (array_size h) ∧
     crc (array (disk s) h) = Some (PartitionEntryArrayCRC32 h)).
Proof.
  unfold PartitionCheckGptEntryArrayCRC. intros E. apply M_bind_Some in E as (ok & s0 & [= <- <-] & E).
  destruct (AllocatePool _ _); cbn [negb] in E; [|by injection E as <- <-].
  apply M_bind_Some in E as ([st bs] & s1 & E1 & E). cbn [fst snd] in E. destruct (EFI_ERROR st) eqn:He.
  - unfold read_disk, gets in E1. injection E1 as _ <-. by injection E as <- <-.
  - apply read_true in E1 as (-> & Hin & ->); [|done]. injection E as <- <-. split; [done|].
    intros Hb. split; [done|]. unfold array. destruct (crc _) as [c|]; [|done]. apply Z.eqb_eq in Hb. by subst.
Qed.

Lemma array_crc_ok h s : ready (p_disk s) (MediaId m) → in_disk (disk s) (MultU64x32 (PartitionEntryLBA h) BS) (array_size h) →
  crc (array (disk s) h) = Some (PartitionEntryArrayCRC32 h) → PartitionCheckGptEntryArrayCRC m crc h s = Some (true, s).
Proof.
  intros Hr Hin Hc. unfold PartitionCheckGptEntryArrayCRC. pose proof (array_size_range h).
  rewrite (bind_eq _ _ _ _ _ (alloc_ready (array_size h) s Hr ltac:(lia))). cbn [negb].
  rewrite (bind_eq _ _ _ _ _ (read_ready _ _ s Hr Hin)). cbn [fst snd EFI_ERROR]. unfold array in Hc. rewrite Hc. by rewrite Z.eqb_refl.
Qed.

Lemma take_fields n off b : (off + n ≤ 92)%nat → load n off (take 92 b) = load n off b.
Proof. intros. by apply load_take. Qed.

(** A table that the code accepts is valid. *)
Lemma valid_table_true Lba ph s b h s' : Forall is_byte (disk s) → PartitionValidGptTable m crc Lba ph s = Some ((b, h), s') →
  s' = s ∧ (b = true → valid_at (disk s) Lba h).
Proof.
  intros Hby. unfold PartitionValidGptTable. intros E. apply M_bind_Some in E as (ok & s0 & [= <- <-] & E).
  destruct (AllocatePool _ _); cbn [negb] in E; [|by injection E as <- <- <-].
  apply M_bind_Some in E as ([st bs] & s1 & E1 & E). cbn [fst snd] in E. destruct (EFI_ERROR st) eqn:He.
  { unfold read_disk, gets in E1. injection E1 as _ <-. by injection E as <- <- <-. }
  apply read_true in E1 as (-> & Hin & ->); [|done]. destruct (Z.ltb_spec BS (Z.of_nat sizeof_EFI_PARTITION_TABLE_HEADER)); [done|].
  set (blk := region _ _ _) in *. assert (length blk = Z.to_nat BS) as Hl by (by apply length_region).
  assert (Forall is_byte blk) as Hb by (by apply region_bytes).
  destruct (Z.eqb_spec (Signature blk) EFI_PTAB_HEADER_ID) as [Hs|]; cbn [negb] in E; [|by injection E as <- <- <-].
  destruct (PartitionCheckCrc _ _ _) as [c b'] eqn:Ec. destruct c; cbn [negb orb] in E; [|by injection E as <- <- <-].
  apply check_crc_true in Ec as (-> & Hsz & Hc); [|done|lia].
  destruct (Z.eqb_spec (MyLBA blk) Lba) as [Hlba|]; cbn [negb orb] in E; [|by injection E as <- <- <-].
  destruct (Z.ltb_spec (SizeOfPartitionEntry blk) sizeof_EFI_PARTITION_ENTRY); [by injection E as <- <- <-|].
  destruct (Z.ltb_spec (MAX_UINTN / SizeOfPartitionEntry blk) (NumberOfPartitionEntries blk)); [by injection E as <- <- <-|].
  apply M_bind_Some in E as (a & s1 & E1 & E). injection E as <- <- <-.
  apply array_crc_true in E1 as [-> Ha]. split; [done|]. intros Hat. destruct (Ha Hat). split; try done; by constructor.
Qed.

(** A valid table is accepted. *)
Lemma valid_table_ok Lba ph s h : Forall is_byte (disk s) → ready (p_disk s) (MediaId m) → valid_at (disk s) Lba h →
  PartitionValidGptTable m crc Lba ph s = Some ((true, h), s).
Proof.
  intros Hby Hr [Hin [H1 H2 H3 H4 H5 H6] -> Hai Ha]. unfold PartitionValidGptTable.
  set (blk := region _ _ _) in *. assert (length blk = Z.to_nat BS) as Hl by (by apply length_region).
  assert (Forall is_byte blk) as Hb by (by apply region_bytes).
  rewrite (bind_eq _ _ _ _ _ (alloc_ready BS s Hr ltac:(lia))). cbn [negb].
  rewrite (bind_eq _ _ _ _ _ (read_ready _ _ s Hr Hin)). cbn [fst snd EFI_ERROR]. fold blk.
  destruct (Z.ltb_spec BS (Z.of_nat sizeof_EFI_PARTITION_TABLE_HEADER)); [unfold sizeof_EFI_PARTITION_TABLE_HEADER in *; lia|].
  rewrite H1, Z.eqb_refl. cbn [negb]. rewrite check_crc_ok by (try done; lia). rewrite H4, Z.eqb_refl. cbn [negb orb].
  destruct (Z.ltb_spec (SizeOfPartitionEntry blk) sizeof_EFI_PARTITION_ENTRY); [lia|].
  destruct (Z.ltb_spec (MAX_UINTN / SizeOfPartitionEntry blk) (NumberOfPartitionEntries blk)); [lia|].
  by rewrite (bind_eq _ _ _ _ _ (array_crc_ok _ s Hr Hai Ha)).
Qed.

(** ** The other copy *)

Context (Htotal : ∀ l, l ≠ [] → is_Some (crc l)).

Abbreviation off x := (MultU64x32 x BS).

Definition disjoint (a n b k : Z) : Prop := a + n ≤ b ∨ b + k ≤ a.

(** The places of the other header and array are on the disk and apart from this table. *)
Record separate (l h : list Z) : Prop := {
  sp_header : in_disk l (off (AlternateLBA h)) BS;
  sp_array : in_disk l (off (entry_lba h)) (array_size h);
  sp_header_array : disjoint (off (AlternateLBA h)) BS (off (PartitionEntryLBA h)) (array_size h);
  sp_header_array' : disjoint (off (AlternateLBA h)) BS (off (entry_lba h)) (array_size h);
  sp_header_header : disjoint (off (AlternateLBA h)) BS (off (MyLBA h)) BS;
  sp_array_header : disjoint (off (entry_lba h)) (array_size h) (off (MyLBA h)) BS;
  sp_array_array : disjoint (off (entry_lba h)) (array_size h) (off (PartitionEntryLBA h)) (array_size h)
}.

Lemma off_range x : 0 ≤ off x.
Proof. apply wrap64_range. Qed.

Lemma region_store_same l a bs n : 0 ≤ a → n = Z.of_nat (length bs) → in_disk l a n → region (store (Z.to_nat a) bs l) a n = bs.
Proof. intros Ha -> (? & ? & ?). unfold region. apply slice_store_eq; lia. Qed.

Lemma region_store_disj l a bs b n : 0 ≤ a → 0 ≤ b → 0 ≤ n → disjoint a (Z.of_nat (length bs)) b n →
  region (store (Z.to_nat a) bs l) b n = region l b n.
Proof. intros Ha Hb Hn [Hd|Hd]; unfold region; apply slice_store_disj; lia. Qed.

Lemma in_disk_length l l' a n : length l' = length l → in_disk l a n → in_disk l' a n.
Proof. unfold in_disk. by intros ->. Qed.

Lemma length_other h : length h = 92%nat → length (other_header m h) = Z.to_nat BS.
Proof. intros Hh. unfold other_header. rewrite !length_store, length_app, length_replicate, Hh. lia. Qed.

Lemma other_bytes h : Forall is_byte h → Forall is_byte (other_header m h).
Proof.
  intros Hb. unfold other_header. repeat apply Forall_store; try apply le_put_bytes.
  apply Forall_app_2; [done|]. apply Forall_replicate. unfold is_byte. lia.
Qed.

Lemma entry_lba_range h : 0 ≤ entry_lba h < 2 ^ 64.
Proof. unfold entry_lba. destruct (_ =? _); [apply wrap64_range|]. unfold PRIMARY_PART_HEADER_LBA. lia. Qed.

Lemma lba_range o h : Forall is_byte h → (o + 8 ≤ length h)%nat → 0 ≤ load 8 o h < 256 ^ Z.of_nat 8.
Proof. intros Hb Hl. by apply load_range. Qed.

(** The fields that are copied, and the three that are not. *)
Lemma other_field n o h : length h = 92%nat → (o + n ≤ 24 ∨ (40 ≤ o ∧ o + n ≤ 72) ∨ (80 ≤ o ∧ o + n ≤ 92))%nat →
  load n o (other_header m h) = load n o h.
Proof.
  intros Hh Ho. unfold other_header. rewrite !load_store_disj by (rewrite length_le_put; lia). apply load_app_l. lia.
Qed.

Lemma other_lba h : Forall is_byte h → length h = 92%nat →
  MyLBA (other_header m h) = AlternateLBA h ∧ AlternateLBA (other_header m h) = MyLBA h ∧ PartitionEntryLBA (other_header m h) = entry_lba h.
Proof.
  intros Hb Hh. pose proof (lba_range 24 h Hb ltac:(lia)). pose proof (lba_range 32 h Hb ltac:(lia)). pose proof (entry_lba_range h).
  assert (length (h ++ replicate (Z.to_nat BS - length h) 0) = Z.to_nat BS) as Hl by (rewrite length_app, length_replicate, Hh; lia).
  unfold MyLBA, AlternateLBA, PartitionEntryLBA, other_header. split; [|split].
  - rewrite !(load_store_disj _ 72), !(load_store_disj _ 32) by (rewrite length_le_put; lia). rewrite load_store_same; [done|done|lia].
  - rewrite !(load_store_disj _ 72) by (rewrite length_le_put; lia). rewrite load_store_same; [done|done|rewrite length_store; lia].
  - rewrite load_store_same; [done|done|rewrite !length_store; lia].
Qed.

(** The block that is written is a right header. *)
Lemma other_ok Lba h l : Forall is_byte l → valid_at l Lba h →
  ∃ c, PartitionSetCrc crc (other_header m h) = Some (store 16 (le_put 4 c) (other_header m h)) ∧ 0 ≤ c < 2 ^ 32 ∧
    header_ok (AlternateLBA h) (store 16 (le_put 4 c) (other_header m h)).
Proof.
  intros Hby [Hin [H1 H2 H3 H4 H5 H6] -> Hai Ha]. set (blk := region _ _ _) in *.
  assert (length blk = Z.to_nat BS) as Hl by (by apply length_region). assert (Forall is_byte blk) as Hb by (by apply region_bytes).
  set (h := take 92 blk). assert (length h = 92%nat) as Hh by (unfold h; rewrite length_take; lia).
  assert (Forall is_byte h) as Hhb by (by apply Forall_take).
  assert (∀ n o, (o + n ≤ 24 ∨ (40 ≤ o ∧ o + n ≤ 72) ∨ (80 ≤ o ∧ o + n ≤ 92))%nat → load n o (other_header m h) = load n o blk) as Hf
    by (intros n o Ho; rewrite other_field by done; apply take_fields; lia).
  assert (HeaderSize (other_header m h) = HeaderSize blk) as Hsz by (apply Hf; lia).
  pose proof (length_other h Hh) as Hlo. pose proof (other_bytes h Hhb) as Hbo.
  destruct (set_crc_ok (other_header m h)) as (c & E & Hc & Ec); [done|lia|lia| |].
  { apply Htotal. intros E0. apply (f_equal length) in E0. rewrite length_take, length_store in E0. cbn [length] in E0. lia. }
  exists c. split; [done|]. split; [done|].
  assert (∀ n o, (o + n ≤ 16 ∨ 20 ≤ o)%nat → load n o (store 16 (le_put 4 c) (other_header m h)) = load n o (other_header m h)) as Hg
    by (intros n o Ho; apply load_store_disj; rewrite length_le_put; lia).
  destruct (other_lba h Hhb Hh) as (L1 & L2 & L3). split.
  - unfold Signature. rewrite Hg, Hf by lia. done.
  - unfold HeaderSize. rewrite Hg by lia. fold (HeaderSize (other_header m h)). lia.
  - rewrite store_store by reflexivity. unfold HeaderSize. rewrite Hg by lia. fold (HeaderSize (other_header m h)). rewrite Ec. f_equal.
    unfold CRC32. rewrite load_store_same; [done|done|lia].
  - unfold MyLBA. rewrite Hg by lia. exact L1.
  - unfold SizeOfPartitionEntry. rewrite Hg, Hf by lia. done.
  - unfold NumberOfPartitionEntries, SizeOfPartitionEntry. rewrite !Hg, !Hf by lia. done.
Qed.

Lemma write_ready o bs s : ready (p_disk s) (MediaId m) → writable (p_disk s) (MediaId m) → in_disk (disk s) o (Z.of_nat (length bs)) →
  ∃ s', write_disk m o bs s = Some (EFI_SUCCESS, s') ∧ ready (p_disk s') (MediaId m) ∧ writable (p_disk s') (MediaId m) ∧ p_children s' = p_children s ∧
    disk s' = store (Z.to_nat o) bs (disk s).
Proof.
  intros Hr Hw (H1 & H2 & H3). destruct (ready_write _ _ o bs Hr Hw H1 H3) as (d' & E & Hr' & Hw'). unfold write_disk. rewrite E.
  eexists. split; [reflexivity|]. cbn. split; [done|]. split; [done|]. split; [done|]. by apply write_disk_ok in E.
Qed.

(** The disk after the other copy of the table with header [h] was written. *)
Definition restored (l h : list Z) (c : Z) : list Z :=
  store (Z.to_nat (off (entry_lba h))) (array l h)
    (store (Z.to_nat (off (AlternateLBA h))) (store 16 (le_put 4 c) (other_header m h)) l).

Lemma valid_length l Lba h : valid_at l Lba h → length h = 92%nat.
Proof. intros [Hin _ -> _ _]. apply length_region in Hin. rewrite length_take. lia. Qed.

Lemma valid_bytes l Lba h : Forall is_byte l → valid_at l Lba h → Forall is_byte h.
Proof. intros Hb [_ _ -> _ _]. by apply Forall_take, region_bytes. Qed.

Lemma valid_lba l Lba h : valid_at l Lba h → MyLBA h = Lba.
Proof. intros [_ Hh -> _ _]. unfold MyLBA. rewrite take_fields by lia. apply Hh. Qed.

Lemma length_array l Lba h : valid_at l Lba h → Z.of_nat (length (array l h)) = array_size h.
Proof. intros [_ _ _ Hin _]. unfold array. rewrite length_region by done. pose proof (array_size_range h). lia. Qed.

Lemma restore_ok Lba h s : Forall is_byte (disk s) → ready (p_disk s) (MediaId m) → writable (p_disk s) (MediaId m) → valid_at (disk s) Lba h → separate (disk s) h →
  ∃ c s', PartitionRestoreGptTable m crc h s = Some (true, s') ∧ ready (p_disk s') (MediaId m) ∧ p_children s' = p_children s ∧
    0 ≤ c < 2 ^ 32 ∧ disk s' = restored (disk s) h c ∧ header_ok (AlternateLBA h) (store 16 (le_put 4 c) (other_header m h)).
Proof.
  intros Hby Hr Hw Hv Hs. destruct (other_ok Lba h _ Hby Hv) as (c & Ec & Hc & Hok). exists c.
  pose proof (valid_length _ _ _ Hv) as Hh. pose proof (length_other h Hh) as Hlo. pose proof (array_size_range h) as Has.
  set (b := store 16 (le_put 4 c) (other_header m h)) in *. assert (length b = Z.to_nat BS) as Hlb by (unfold b; by rewrite length_store).
  unfold PartitionRestoreGptTable. rewrite (bind_eq _ _ _ _ _ (alloc_ready BS s Hr ltac:(lia))). cbn [negb]. rewrite Hh.
  destruct (Z.ltb_spec BS (Z.of_nat 92)); [lia|]. rewrite Ec. fold b. rewrite (ho_lba _ _ Hok).
  destruct (write_ready (off (AlternateLBA h)) b s Hr Hw) as (s1 & E1 & Hr1 & Hw1 & C1 & D1).
  { rewrite Hlb, Z2Nat.id by lia. apply Hs. }
  rewrite (bind_eq _ _ _ _ _ E1). cbn [EFI_ERROR].
  rewrite (bind_eq _ _ _ _ _ (alloc_ready (array_size h) s1 Hr1 ltac:(lia))). cbn [negb].
  assert (in_disk (disk s1) (off (PartitionEntryLBA h)) (array_size h)) as Hin1
    by (eapply in_disk_length; [|apply Hv]; rewrite D1; apply length_store).
  rewrite (bind_eq _ _ _ _ _ (read_ready _ _ s1 Hr1 Hin1)). cbn [fst snd EFI_ERROR].
  assert (region (disk s1) (off (PartitionEntryLBA h)) (array_size h) = array (disk s) h) as ->.
  { rewrite D1. apply region_store_disj; [apply off_range..|lia|]. rewrite Hlb, Z2Nat.id by lia. apply Hs. }
  destruct (write_ready (off (entry_lba h)) (array (disk s) h) s1 Hr1 Hw1) as (s2 & E2 & Hr2 & _ & C2 & D2).
  { rewrite (length_array _ _ _ Hv). eapply in_disk_length; [|apply Hs]. rewrite D1. apply length_store. }
  rewrite (bind_eq _ _ _ _ _ E2). exists s2. split; [done|]. split; [done|]. split; [congruence|]. split; [done|].
  split; [|done]. rewrite D2, D1. done.
Qed.

Lemma length_restored l h c : length (restored l h c) = length l.
Proof. unfold restored. by rewrite !length_store. Qed.

Lemma restored_bytes l h c : Forall is_byte l → Forall is_byte h → Forall is_byte (restored l h c).
Proof.
  intros Hl Hh. apply Forall_store; [apply Forall_store; [done|]|by apply region_bytes].
  apply Forall_store; [by apply other_bytes|apply le_put_bytes].
Qed.

(** Neither part of the other copy touches a region apart from both. *)
Lemma restored_region l h c a n Lba : valid_at l Lba h → 0 ≤ a → 0 ≤ n →
  disjoint (off (AlternateLBA h)) BS a n → disjoint (off (entry_lba h)) (array_size h) a n → region (restored l h c) a n = region l a n.
Proof.
  intros Hv Ha Hn H1 H2. unfold restored. pose proof (length_other h (valid_length _ _ _ Hv)) as Hlo.
  rewrite region_store_disj; [|apply off_range|done|done|by rewrite (length_array _ _ _ Hv)].
  rewrite region_store_disj; [done|apply off_range|done|done|]. by rewrite length_store, Hlo, Z2Nat.id by lia.
Qed.

Lemma restored_header l h c Lba : valid_at l Lba h → separate l h →
  region (restored l h c) (off (AlternateLBA h)) BS = store 16 (le_put 4 c) (other_header m h).
Proof.
  intros Hv Hs. unfold restored. pose proof (length_other h (valid_length _ _ _ Hv)) as Hlo. pose proof (array_size_range h).
  rewrite region_store_disj; [|apply off_range..|lia|].
  - apply region_store_same; [apply off_range| |apply Hs]. rewrite length_store, Hlo. lia.
  - rewrite (length_array _ _ _ Hv). pose proof (sp_header_array' _ _ Hs) as [?|?]; unfold disjoint; lia.
Qed.

Lemma restored_array l h c Lba : valid_at l Lba h → separate l h → region (restored l h c) (off (entry_lba h)) (array_size h) = array l h.
Proof.
  intros Hv Hs. unfold restored. apply region_store_same; [apply off_range|by rewrite (length_array _ _ _ Hv)|].
  eapply in_disk_length; [|apply Hs]. apply length_store.
Qed.

(** The header of the other copy. *)
Definition other (h : list Z) (c : Z) : list Z := take 92 (store 16 (le_put 4 c) (other_header m h)).

Lemma other_fields h c : Forall is_byte h → length h = 92%nat →
  PartitionEntryLBA (other h c) = entry_lba h ∧ AlternateLBA (other h c) = MyLBA h ∧
  NumberOfPartitionEntries (other h c) = NumberOfPartitionEntries h ∧ SizeOfPartitionEntry (other h c) = SizeOfPartitionEntry h ∧
  PartitionEntryArrayCRC32 (other h c) = PartitionEntryArrayCRC32 h ∧ FirstUsableLBA (other h c) = FirstUsableLBA h ∧
  LastUsableLBA (other h c) = LastUsableLBA h.
Proof.
  intros Hb Hh. destruct (other_lba h Hb Hh) as (L1 & L2 & L3).
  assert (∀ n o, (20 ≤ o ∧ o + n ≤ 92)%nat → load n o (other h c) = load n o (other_header m h)) as Hg.
  { intros n o Ho. unfold other. rewrite take_fields by lia. apply load_store_disj. rewrite length_le_put. lia. }
  unfold PartitionEntryLBA, AlternateLBA, NumberOfPartitionEntries, SizeOfPartitionEntry, PartitionEntryArrayCRC32, FirstUsableLBA, LastUsableLBA.
  rewrite !Hg by lia. split; [exact L3|]. split; [exact L2|]. repeat split; apply other_field; lia.
Qed.

Lemma other_array_size h c : Forall is_byte h → length h = 92%nat → array_size (other h c) = array_size h.
Proof. intros Hb Hh. destruct (other_fields h c Hb Hh) as (_ & _ & E1 & E2 & _). unfold array_size. by rewrite E1, E2. Qed.

(** Both copies are valid afterwards. *)
Lemma restored_valid l Lba h c : Forall is_byte l → valid_at l Lba h → separate l h →
  header_ok (AlternateLBA h) (store 16 (le_put 4 c) (other_header m h)) →
  valid_at (restored l h c) (AlternateLBA h) (other h c) ∧ valid_at (restored l h c) Lba h ∧
  array (restored l h c) (other h c) = array l h ∧ array (restored l h c) h = array l h.
Proof.
  intros Hby Hv Hs Hok. pose proof (valid_length _ _ _ Hv) as Hh. pose proof (valid_bytes _ _ _ Hby Hv) as Hb.
  destruct (other_fields h c Hb Hh) as (F1 & F2 & F3 & F4 & F5 & F6). pose proof (other_array_size h c Hb Hh) as F7.
  pose proof (array_size_range h). pose proof (off_range (MyLBA h)). pose proof (off_range (PartitionEntryLBA h)).
  assert (array (restored l h c) (other h c) = array l h) as A1 by (unfold array at 1; rewrite F1, F7; by eapply restored_array).
  assert (array (restored l h c) h = array l h) as A2 by (eapply restored_region; [exact Hv|lia|lia|apply Hs|apply Hs]).
  assert (∀ a n, in_disk l a n → in_disk (restored l h c) a n) as Hin by (intros a n; apply in_disk_length, length_restored).
  pose proof (valid_lba _ _ _ Hv) as HL. split; [|split; [|done]].
  - split; [apply Hin, Hs|rewrite (restored_header _ _ _ _ Hv Hs); done|by rewrite (restored_header _ _ _ _ Hv Hs)|..].
    + rewrite F1, F7. apply Hin, Hs.
    + rewrite A1, F5. apply Hv.
  - destruct Hv as [V1 V2 V3 V4 V5]. assert (region (restored l h c) (off Lba) BS = region l (off Lba) BS) as ER.
    { rewrite <- HL. eapply restored_region; [by split|lia|lia|apply Hs|apply Hs]. }
    split; [by apply Hin|by rewrite ER|by rewrite ER|by apply Hin|by rewrite A2].
Qed.
End Tables.
