(* ===== verification/PartGptEntries.v ===== *)
(** * PartitionDxe: the checks of the entries and the children of a GUID partition table *)

From Stdlib Require Import ZArith Lia.
From stdpp Require Import base list list_numbers.
From S2P Require Import Prelude PartDisk PartGpt PartGptProofs.

Open Scope Z_scope.

(** ** The flags, entry by entry *)

Definition active (h : list Z) (e : EFI_PARTITION_ENTRY) : bool := negb (unused e) && negb (out_of_range h e).

(** [e] is in use and shares a block with [a]. *)
Definition hit (a e : EFI_PARTITION_ENTRY) : bool := negb (unused e) && overlapping a e.

(** The flags of entry [k]: it is compared with the entries before it that are in range,
    and, if it is in range, with those after it. *)
Definition entry_status (h : list Z) (l : list EFI_PARTITION_ENTRY) (k : nat) (e : EFI_PARTITION_ENTRY) : EFI_PARTITION_ENTRY_STATUS := {|
  OutOfRange := negb (unused e) && out_of_range h e;
  Overlap := existsb (λ a, active h a && hit a e) (take k l) || (active h e && existsb (hit e) (drop (S k) l));
  OsSpecific := active h e && Z.testbit (Attributes e) 1 |}.

Definition merge_status (s t : EFI_PARTITION_ENTRY_STATUS) : EFI_PARTITION_ENTRY_STATUS := {|
  OutOfRange := OutOfRange s || OutOfRange t; Overlap := Overlap s || Overlap t; OsSpecific := OsSpecific s || OsSpecific t |}.

Definition overlap_if (b : bool) (s : EFI_PARTITION_ENTRY_STATUS) : EFI_PARTITION_ENTRY_STATUS := if b then set_overlap s else s.

Lemma overlap_if_if a b s : overlap_if a (overlap_if b s) = overlap_if (a || b) s.
Proof. by destruct a, b. Qed.

Lemma alter_overlap_lookup i (b : bool) (st : list EFI_PARTITION_ENTRY_STATUS) k :
  (if b then alter set_overlap i st else st) !! k = overlap_if (b && bool_decide (k = i)) <$> st !! k.
Proof.
  destruct b; cbn [andb]; [|by destruct (st !! k)]. case_bool_decide as Hk.
  - subst. by rewrite list_lookup_alter_eq.
  - rewrite list_lookup_alter_ne by done. by destruct (st !! k).
Qed.

Lemma check_rest_lookup i a l j st k : (i < j)%nat →
  check_rest i a j l st !! k = overlap_if (bool_decide (k = i) && existsb (hit a) l ||
    (if decide (j ≤ k)%nat then match l !! (k - j)%nat with Some e => hit a e | None => false end else false)) <$> st !! k.
Proof.
  revert j st. induction l as [|e l IH]; intros j st Hj; cbn [check_rest existsb].
  { rewrite andb_false_r, lookup_nil. destruct (decide _); by destruct (st !! k). }
  rewrite IH by lia.
  assert ((if unused e then st else if overlapping a e then alter set_overlap j (alter set_overlap i st) else st) =
    (if hit a e then alter set_overlap j (if hit a e then alter set_overlap i st else st) else st)) as ->
    by (unfold hit; by destruct (unused e), (overlapping a e)).
  assert ((if hit a e then alter set_overlap j (if hit a e then alter set_overlap i st else st) else st) !! k =
    overlap_if (hit a e && bool_decide (k = j)) <$> (overlap_if (hit a e && bool_decide (k = i)) <$> st !! k)) as ->.
  { rewrite <- alter_overlap_lookup. destruct (hit a e) eqn:E; [by rewrite (alter_overlap_lookup j true)|]. by destruct (st !! k). }
  rewrite <- !option_fmap_compose. apply option_fmap_ext. intros s. unfold compose. rewrite !overlap_if_if. f_equal.
  destruct (decide (S j ≤ k)%nat).
  - rewrite decide_True by lia. replace (k - j)%nat with (S (k - S j)) by lia. cbn [lookup list_lookup].
    rewrite (bool_decide_false (k = j)), (bool_decide_false (k = i)) by lia. by rewrite !andb_false_r, !orb_false_r.
  - destruct (decide (j ≤ k)%nat).
    + assert (k = j) as -> by lia. rewrite Nat.sub_diag. cbn. rewrite (bool_decide_false (j = i)) by lia. rewrite bool_decide_true by done.
      by destruct (hit a e).
    + rewrite (bool_decide_false (k = j)) by lia. case_bool_decide; by destruct (hit a e), (existsb (hit a) l).
Qed.

(** What one round of the outer loop does. *)
Lemma check_round h i a l st k : 
  (if unused a then st else if out_of_range h a then alter set_range i st
   else check_rest i a (S i) l (if Z.testbit (Attributes a) 1 then alter set_os i st else st)) !! k =
  if decide (k = i) then merge_status (entry_status h (a :: l) 0 a) <$> st !! k
  else (overlap_if (active h a && (if decide (S i ≤ k)%nat then match l !! (k - S i)%nat with Some e => hit a e | None => false end else false))) <$> st !! k.
Proof.
  unfold active. cbn [entry_status]. destruct (unused a) eqn:Eu; [|destruct (out_of_range h a) eqn:Er].
  - destruct (decide (k = i)) as [->|Hk]; destruct (st !! _) as [[]|]; cbn; try done.
    unfold merge_status, entry_status, active. by rewrite Eu.
  - destruct (decide (k = i)) as [->|Hk].
    + rewrite list_lookup_alter_eq. destruct (st !! i) as [[]|]; cbn; [|done].
      unfold merge_status, entry_status, active. rewrite Eu, Er. done.
    + rewrite list_lookup_alter_ne by done. by destruct (st !! k).
  - rewrite check_rest_lookup by lia. destruct (decide (k = i)) as [->|Hk].
    + rewrite decide_False by lia. rewrite bool_decide_true by done. rewrite orb_false_r. cbn [andb].
      assert ((if Z.testbit (Attributes a) 1 then alter set_os i st else st) !! i =
        (if Z.testbit (Attributes a) 1 then set_os else id) <$> st !! i) as ->.
      { destruct (Z.testbit _ _); [apply list_lookup_alter_eq|by destruct (st !! i)]. }
      destruct (st !! i) as [[r o s]|]; [|done]. cbn [fmap option_fmap option_map]. f_equal.
      unfold merge_status, entry_status, active. rewrite Eu, Er. change (drop 1 (a :: l)) with (drop 0 l). rewrite drop_0.
      by destruct (Z.testbit (Attributes a) 1), (existsb (hit a) l), r, o, s.
    + rewrite bool_decide_false by done. cbn [andb orb].
      f_equal. destruct (Z.testbit _ _); [by rewrite list_lookup_alter_ne by done|done].
Qed.

Lemma check_entries_lookup h l i st k : check_entries h i l st !! k =
  if decide (i ≤ k)%nat then match l !! (k - i)%nat with
    | Some e => merge_status (entry_status h l (k - i) e) <$> st !! k
    | None => st !! k
    end else st !! k.
Proof.
  revert i st. induction l as [|a l IH]; intros i st; cbn [check_entries].
  { rewrite lookup_nil. by destruct (decide _). }
  rewrite IH, check_round. destruct (decide (k = i)) as [->|Hk].
  { rewrite decide_False by lia. rewrite decide_True by lia. by rewrite Nat.sub_diag. }
  destruct (decide (S i ≤ k)%nat).
  - rewrite decide_True by lia. replace (k - i)%nat with (S (k - S i)) by lia. cbn [lookup list_lookup].
    destruct (l !! (k - S i)%nat) as [e|] eqn:El; destruct (st !! k) as [[r o s]|]; cbn [fmap option_fmap option_map]; try done;
      [|by rewrite andb_false_r].
    f_equal. unfold merge_status, entry_status, overlap_if. cbn [take drop existsb].
    destruct (active h a && hit a e), r, o, s; cbn [OutOfRange Overlap OsSpecific set_overlap orb]; f_equal; by rewrite ?orb_true_r, ?orb_false_r.
  - rewrite decide_False by lia. rewrite andb_false_r. by destruct (st !! k).
Qed.

(** All the flags. *)
Lemma check_entries_ok h l : check_entries h 0 l (replicate (length l) zero_status) = imap (entry_status h l) l.
Proof.
  apply list_eq. intros k. rewrite check_entries_lookup, list_lookup_imap, decide_True, Nat.sub_0_r by lia.
  destruct (l !! k) as [e|] eqn:E.
  - rewrite lookup_replicate_2 by (by eapply lookup_lt_Some). cbn [fmap option_fmap option_map]. f_equal.
    unfold merge_status, zero_status. cbn [OutOfRange Overlap OsSpecific]. rewrite !orb_false_r. by destruct (entry_status h l k e).
  - apply lookup_replicate_None. by apply lookup_ge_None.
Qed.

(** ** The entries of a table *)

Section Children.
Context {D : Type} `{DiskIoLaws D} (m : EFI_BLOCK_IO_MEDIA).
Abbreviation BS := (BlockSize m).
Implicit Types s : Part D.

Lemma entries_ok h arr : 0 ≤ NumberOfPartitionEntries h → sizeof_EFI_PARTITION_ENTRY ≤ SizeOfPartitionEntry h →
  Z.of_nat (length arr) = NumberOfPartitionEntries h * SizeOfPartitionEntry h →
  ∃ es, entries h arr = Some es ∧ length es = Z.to_nat (NumberOfPartitionEntries h) ∧
    ∀ i e, es !! i = Some e → e = entry_of (drop (i * Z.to_nat (SizeOfPartitionEntry h)) arr).
Proof.
  unfold sizeof_EFI_PARTITION_ENTRY. intros Hn Hs Hl. set (N := Z.to_nat (NumberOfPartitionEntries h)). set (S := Z.to_nat (SizeOfPartitionEntry h)).
  assert (length arr = N * S)%nat as Hlen by (unfold N, S; nia).
  set (es := (λ i, entry_of (drop (i * S) arr)) <$> seq 0 N). exists es. split; [|split].
  - unfold entries. fold N. apply mapM_Some. apply Forall2_fmap_r, Forall2_same_length_lookup_2; [done|].
    intros k i j Hi Hj. apply lookup_seq in Hi as [-> Hk], Hj as [-> _]. cbn [Nat.add]. unfold entry_at. fold S.
    rewrite decide_True; [done|]. assert (S ≥ 128)%nat by (unfold S; lia). nia.
  - unfold es. by rewrite length_fmap, length_seq.
  - intros i e Hi. unfold es in Hi. rewrite list_lookup_fmap in Hi. apply fmap_Some in Hi as (k & Hk & ->). by apply lookup_seq in Hk as [-> _].
Qed.

(** ** The children *)

Definition gpt_child (i : nat) (e : EFI_PARTITION_ENTRY) : PARTITION_PRIVATE_DATA := {|
  p_Node := HardDrive (gpt_node i e); p_Start := MultU64x32 (StartingLBA e) BS; p_End := MultU64x32 (wrap64 (EndingLBA e + 1)) BS;
  p_BlockSize := BS; p_LastBlock := wrap64 (MultU64x32 (wrap64 (EndingLBA e - StartingLBA e + 1)) BS / BS - 1);
  p_Esp := bool_decide (PartitionTypeGUID e = gEfiPartTypeSystemPartGuid) |}.

(** The entries that get a child, with their numbers. *)
Definition accepted (h : list Z) (es : list EFI_PARTITION_ENTRY) : list (nat * EFI_PARTITION_ENTRY) :=
  filter (λ p, skipped p.2 (entry_status h es p.1 p.2) = false) (imap pair es).

Lemma install_child_ready node Start End bs esp s : bs ≠ 0 → ready (p_disk s) (MediaId m) →
  ∃ s', PartitionInstallChildHandle m node Start End bs esp s = Some (EFI_SUCCESS, s') ∧ ready (p_disk s') (MediaId m) ∧
    bytes (p_disk s') = bytes (p_disk s) ∧
    p_children s' = p_children s ++ [{| p_Node := node; p_Start := MultU64x32 Start BS; p_End := MultU64x32 (wrap64 (End + 1)) BS;
      p_BlockSize := bs; p_LastBlock := wrap64 (MultU64x32 (wrap64 (End - Start + 1)) BS / bs - 1); p_Esp := esp |}].
Proof.
  intros Hb Hr. unfold PartitionInstallChildHandle.
  rewrite (bind_eq _ _ _ _ _ (alloc_ready m sizeof_PARTITION_PRIVATE_DATA s Hr ltac:(unfold sizeof_PARTITION_PRIVATE_DATA; lia))). cbn [negb].
  unfold last_block. destruct (Z.eqb_spec bs 0); [done|]. rewrite bind_gets. erewrite ready_path by done. cbn [negb].
  unfold install_child. set (c := {| p_Node := node |}). destruct (ready_install _ _ c Hr) as (d' & E & Hr'). rewrite E. cbn [EFI_ERROR].
  erewrite ready_open by done. eexists. split; [reflexivity|]. split; [done|]. split; [|done]. by apply install_ok in E.
Qed.

Lemma install_entries_ok i (l : list (EFI_PARTITION_ENTRY * EFI_PARTITION_ENTRY_STATUS)) s : BS ≠ 0 → ready (p_disk s) (MediaId m) →
  ∃ s', install_entries m i l s = Some (tt, s') ∧ ready (p_disk s') (MediaId m) ∧ bytes (p_disk s') = bytes (p_disk s) ∧
    p_children s' = p_children s ++ ((λ p, gpt_child p.1 p.2.1) <$> filter (λ p, skipped p.2.1 p.2.2 = false) (imap (λ k x, (i + k, x)%nat) l)).
Proof.
  intros Hb. revert i s. induction l as [|[e st] l IH]; intros i s Hr; cbn [install_entries imap].
  { exists s. by rewrite app_nil_r. }
  assert (imap ((λ k x, ((i + k)%nat, x)) ∘ S) l = imap (λ k x, ((S i + k)%nat, x)) l) as Hi
    by (apply imap_ext; intros; unfold compose; f_equal; lia).
  rewrite Hi. destruct (skipped e st) eqn:Es.
  - rewrite filter_cons_False by (cbn; congruence). by apply IH.
  - destruct (install_child_ready (HardDrive (gpt_node i e)) (StartingLBA e) (EndingLBA e) BS
      (bool_decide (PartitionTypeGUID e = gEfiPartTypeSystemPartGuid)) s Hb Hr) as (s1 & E1 & Hr1 & D1 & C1).
    rewrite (bind_eq _ _ _ _ _ E1). destruct (IH (S i) s1 Hr1) as (s2 & E2 & Hr2 & D2 & C2). exists s2.
    split; [done|]. split; [done|]. split; [congruence|]. rewrite C2, C1, filter_cons_True by done. rewrite <- app_assoc.
    f_equal. cbn [app fmap list_fmap]. f_equal. cbn. unfold gpt_child. by rewrite Nat.add_0_r.
Qed.

Lemma zip_imap {A B} (f : nat → A → B) (l : list A) :
  zip l (imap f l) = imap (λ k x, (x, f k x)) l.
Proof.
  revert f. induction l as [|x l IH]; intros f; [done|]. cbn. f_equal. apply (IH (f ∘ S)).
Qed.

Lemma filter_fmap {A B} (f : A → B) (P : B → Prop) `{!∀ x, Decision (P x)} (l : list A) :
  filter P (f <$> l) = f <$> filter (λ x, P (f x)) l.
Proof. induction l as [|x l IH]; [done|]. rewrite fmap_cons, !filter_cons. case_decide; cbn; by rewrite IH. Qed.

Lemma status_pairs h es :
  (λ p : nat * (EFI_PARTITION_ENTRY * EFI_PARTITION_ENTRY_STATUS), gpt_child p.1 p.2.1) <$>
    filter (λ p, skipped p.2.1 p.2.2 = false) (imap (λ k x, (0 + k, x)%nat) (zip es (imap (entry_status h es) es)))
  = (λ p, gpt_child p.1 p.2) <$> accepted h es.
Proof.
  rewrite zip_imap. unfold accepted.
  assert (imap (λ k x, ((0 + k)%nat, x)) (imap (λ k x, (x, entry_status h es k x)) es) =
    (λ p : nat * EFI_PARTITION_ENTRY, (p.1, (p.2, entry_status h es p.1 p.2))) <$> imap pair es) as ->.
  { rewrite fmap_imap. apply list_eq. intros i. rewrite !list_lookup_imap. by destruct (es !! i). }
  rewrite filter_fmap, <- list_fmap_compose. done.
Qed.

(** Reading, checking and installing the table with header [h]. *)
Lemma install_table_ok h s : BS ≠ 0 → ready (p_disk s) (MediaId m) → Forall is_byte h → length h = 92%nat →
  in_disk (bytes (p_disk s)) (MultU64x32 (PartitionEntryLBA h) BS) (array_size h) → sizeof_EFI_PARTITION_ENTRY ≤ SizeOfPartitionEntry h →
  NumberOfPartitionEntries h * SizeOfPartitionEntry h < 2 ^ 32 →
  ∃ es s', entries h (array m (bytes (p_disk s)) h) = Some es ∧ install_table m h s = Some (EFI_SUCCESS, s') ∧
    ready (p_disk s') (MediaId m) ∧ bytes (p_disk s') = bytes (p_disk s) ∧
    p_children s' = p_children s ++ ((λ p, gpt_child p.1 p.2) <$> accepted h es).
Proof.
  intros Hb Hr Hby Hh Hin Hs Hov. pose proof (load_range 4 80 h Hby ltac:(lia)) as Hn. fold (NumberOfPartitionEntries h) in Hn.
  assert (array_size h = NumberOfPartitionEntries h * SizeOfPartitionEntry h) as Ha
    by (apply wrap32_small; unfold sizeof_EFI_PARTITION_ENTRY in *; nia).
  pose proof (array_size_range h) as Har. destruct (entries_ok h (array m (bytes (p_disk s)) h)) as (es & Ee & Hl & _); [lia|done|unfold array; rewrite length_region by done; lia|].
  exists es. unfold install_table.
  rewrite (bind_eq _ _ _ _ _ (alloc_ready m (array_size h) s Hr ltac:(lia))). cbn [negb].
  rewrite (bind_eq _ _ _ _ _ (read_ready m _ _ s Hr Hin)). cbn [fst snd EFI_ERROR].
  rewrite (bind_eq _ _ _ _ _ (alloc_ready m (NumberOfPartitionEntries h * 3) s Hr ltac:(lia))). cbn [negb].
  unfold PartitionCheckGptEntry. fold (array m (bytes (p_disk s)) h). rewrite Ee. cbn [mbind option_bind]. rewrite <- Hl, check_entries_ok.
  destruct (install_entries_ok 0 (zip es (imap (entry_status h es) es)) s Hb Hr) as (s' & E & Hr' & Hd & Hc).
  rewrite (bind_eq _ _ _ _ _ E). exists s'. repeat split; try done. by rewrite Hc, status_pairs.
Qed.

(** ** The children are apart and inside the usable blocks *)

Definition apart (c d : PARTITION_PRIVATE_DATA) : Prop := p_End c ≤ p_Start d ∨ p_End d ≤ p_Start c.
Definition inside (h : list Z) (c : PARTITION_PRIVATE_DATA) : Prop :=
  FirstUsableLBA h * BS ≤ p_Start c ∧ p_Start c < p_End c ∧ p_End c ≤ (LastUsableLBA h + 1) * BS.

Lemma active_range h e : active h e = true → FirstUsableLBA h ≤ StartingLBA e ≤ EndingLBA e ∧ EndingLBA e ≤ LastUsableLBA h.
Proof. unfold active, out_of_range. intros Ha. zbool. lia. Qed.

Lemma accepted_active h es p : p ∈ accepted h es → es !! p.1 = Some p.2 ∧ active h p.2 = true ∧ Overlap (entry_status h es p.1 p.2) = false.
Proof.
  unfold accepted. intros [Hs Hp]%list_elem_of_filter. apply list_elem_of_lookup in Hp as (i & Hi).
  rewrite list_lookup_imap in Hi. apply fmap_Some in Hi as (e & He & ->). cbn [fst snd] in *. split; [done|].
  unfold skipped in Hs. apply orb_false_iff in Hs as [Hs _]. apply orb_false_iff in Hs as [Hs Ho]. apply orb_false_iff in Hs as [Hu Hr].
  split; [|done]. unfold active. unfold entry_status in Hr. cbn [OutOfRange] in Hr. rewrite Hu in *. cbn [negb andb] in *. by rewrite Hr.
Qed.

(** Two accepted entries share no block. *)
Lemma accepted_apart h es p q : p ∈ accepted h es → q ∈ accepted h es → (p.1 < q.1)%nat →
  EndingLBA p.2 < StartingLBA q.2 ∨ EndingLBA q.2 < StartingLBA p.2.
Proof.
  intros (Hp & Ap & Op)%accepted_active (Hq & Aq & _)%accepted_active Hlt. unfold entry_status in Op. cbn [Overlap] in Op.
  apply orb_false_iff in Op as [_ Op]. rewrite Ap in Op. cbn [andb] in Op.
  assert (hit p.2 q.2 = false) as Hh.
  { apply not_true_iff_false. intros Hh. apply not_true_iff_false in Op. apply Op, existsb_exists. exists q.2. split; [|done].
    apply list_elem_of_In, (list_elem_of_lookup_2 _ (q.1 - S p.1)). rewrite lookup_drop. by replace (S p.1 + (q.1 - S p.1))%nat with q.1 by lia. }
  unfold hit, overlapping, active in *. apply andb_true_iff in Aq as [Aq _]. rewrite Aq in Hh. cbn [andb] in Hh.
  apply andb_false_iff in Hh as [Hh|Hh]; apply Z.leb_gt in Hh; lia.
Qed.

Lemma fop_filter {A} (R R' : A → A → Prop) (P : A → Prop) `{!∀ x, Decision (P x)} (l : list A) :
  (∀ x y, P x → P y → x ∈ l → y ∈ l → R x y → R' x y) → ForallOrdPairs R l → ForallOrdPairs R' (filter P l).
Proof.
  intros HR. induction 1 as [|x l Hx Hl IH]; [constructor|].
  assert (ForallOrdPairs R' (filter P l)) as Hf.
  { apply IH. intros ? ? ? ? ? ?. apply HR; try done; by apply list_elem_of_further. }
  rewrite filter_cons. case_decide; [|done]. constructor; [|done]. apply Forall_forall. intros y [Hy Hyl]%list_elem_of_filter.
  rewrite Forall_forall in Hx. apply HR; [done|done|apply list_elem_of_here|by apply list_elem_of_further|by apply Hx].
Qed.

Lemma fop_fmap {A B} (f : A → B) (R : B → B → Prop) (l : list A) : ForallOrdPairs (λ x y, R (f x) (f y)) l → ForallOrdPairs R (f <$> l).
Proof. induction 1 as [|x l Hx Hl IH]; cbn; constructor; [by apply Forall_fmap|done]. Qed.

Lemma fop_imap {A} (l : list A) k : ForallOrdPairs (λ p q : nat * A, (p.1 < q.1)%nat) (imap (λ i x, (k + i, x)%nat) l).
Proof.
  revert k. induction l as [|x l IH]; intros k; cbn; constructor.
  - apply Forall_forall. intros p Hp. apply list_elem_of_lookup in Hp as (i & Hi). rewrite list_lookup_imap in Hi.
    apply fmap_Some in Hi as (y & _ & ->). cbn. unfold compose. cbn. lia.
  - assert (imap ((λ i x, ((k + i)%nat, x)) ∘ S) l = imap (λ i x, ((S k + i)%nat, x)) l) as -> by (apply imap_ext; intros; unfold compose; f_equal; lia).
    apply IH.
Qed.

Context (Hbs : 512 ≤ BS < 2 ^ 32).

Lemma children_ok h es : 0 ≤ FirstUsableLBA h → (LastUsableLBA h + 1) * BS < 2 ^ 64 →
  ForallOrdPairs apart ((λ p, gpt_child p.1 p.2) <$> accepted h es) ∧ Forall (inside h) ((λ p, gpt_child p.1 p.2) <$> accepted h es).
Proof.
  intros Hf Hl.
  assert (∀ p, p ∈ accepted h es → FirstUsableLBA h ≤ StartingLBA p.2 ≤ EndingLBA p.2 ∧ EndingLBA p.2 ≤ LastUsableLBA h ∧
    p_Start (gpt_child p.1 p.2) = StartingLBA p.2 * BS ∧ p_End (gpt_child p.1 p.2) = (EndingLBA p.2 + 1) * BS) as Hb.
  { intros p Hp. apply accepted_active in Hp as (_ & Ha & _). apply active_range in Ha. split; [lia|]. split; [lia|].
    cbn [gpt_child p_Start p_End]. unfold MultU64x32. split; [apply wrap64_small; nia|].
    rewrite (wrap64_small (EndingLBA p.2 + 1)) by nia. apply wrap64_small. nia. }
  split.
  - apply fop_fmap. pose proof (fop_imap es 0) as Hfop. unfold accepted.
    apply (fop_filter (λ p q : nat * EFI_PARTITION_ENTRY, (p.1 < q.1)%nat)); [|exact Hfop].
    intros p q Pp Pq Hp Hq Hlt. assert (p ∈ accepted h es) as Ap by (by apply list_elem_of_filter).
    assert (q ∈ accepted h es) as Aq by (by apply list_elem_of_filter).
    destruct (Hb p Ap) as (_ & _ & E1 & E2), (Hb q Aq) as (_ & _ & E3 & E4). unfold apart. rewrite E1, E2, E3, E4.
    destruct (accepted_apart h es p q Ap Aq Hlt); nia.
  - apply Forall_fmap, Forall_forall. intros p Hp. destruct (Hb p Hp) as (B1 & B2 & E1 & E2). unfold compose, inside. rewrite E1, E2. nia.
Qed.
End Children.
