(* ===== verification/PartGptTheorems.v ===== *)
(** * PartitionDxe: properties of the GUID partition table *)

From Stdlib Require Import ZArith Lia.
From stdpp Require Import base list list_numbers.
From S2P Require Import Prelude PartDisk PartGpt PartGptProofs PartGptEntries.

Open Scope Z_scope.

Section Gpt.
Context {D : Type} `{DiskIoLaws D} (m : EFI_BLOCK_IO_MEDIA) (crc : list Z → option Z).
Context (Hcrc : ∀ l c, crc l = Some c → 0 ≤ c < 2 ^ 32) (Htotal : ∀ l, l ≠ [] → is_Some (crc l)).
Context (Hbs : 512 ≤ BlockSize m < 2 ^ 32).
Implicit Types s : Part D.
Abbreviation BS := (BlockSize m).
Abbreviation disk s := (bytes (p_disk s)).

(** ** Choosing the table *)

Lemma valid_table_total Lba ph s : ∃ b h, PartitionValidGptTable m crc Lba ph s = Some ((b, h), s).
Proof.
  unfold PartitionValidGptTable, alloc, read_disk. rewrite bind_gets. destruct (AllocatePool _ _); cbn [negb]; [|by eexists _, _].
  rewrite bind_gets. destruct (ReadDisk _ _ _ _) as [st b]. cbn [fst snd]. destruct (EFI_ERROR st); [by eexists _, _|].
  destruct (Z.ltb_spec BS (Z.of_nat sizeof_EFI_PARTITION_TABLE_HEADER)); [unfold sizeof_EFI_PARTITION_TABLE_HEADER in *; lia|].
  destruct (_ =? _); cbn [negb]; [|by eexists _, _]. destruct (PartitionCheckCrc _ _ _) as [c b'].
  destruct (_ || _); [by eexists _, _|]. destruct (_ <? _); [by eexists _, _|].
  unfold PartitionCheckGptEntryArrayCRC, alloc, read_disk. unfold mbind, M_bind, gets.
  destruct (AllocatePool _ _); cbn [negb]; [|by eexists _, _]. by destruct (EFI_ERROR _); eexists _, _.
Qed.

Lemma valid_table_false Lba ph s : Forall is_byte (disk s) → (∀ h, ¬ valid_at m crc (disk s) Lba h) →
  ∃ h, PartitionValidGptTable m crc Lba ph s = Some ((false, h), s).
Proof.
  intros Hb Hv. destruct (valid_table_total Lba ph s) as ([] & h & E); [|by exists h].
  apply valid_table_true in E as [_ Hva]; [|done|done]. by destruct (Hv h), Hva.
Qed.

(** The copies on the disk: both are valid, or one is lost and can be written again from the
    table with header [h], if [w]: the media can be written. *)
Inductive usable (w : Prop) (l h : list Z) : Prop :=
  | both_valid h2 : valid_at m crc l 1 h → valid_at m crc l (AlternateLBA h) h2 → usable w l h
  | backup_lost : w → valid_at m crc l 1 h → (∀ h', ¬ valid_at m crc l (AlternateLBA h) h') → separate m l h → usable w l h
  | primary_lost : w → (∀ h', ¬ valid_at m crc l 1 h') → valid_at m crc l (LastBlock m) h → separate m l h → usable w l h.

(** The header [h'] describes the same entries as [h]. *)
Record same_table (l : list Z) (h : list Z) (l' h' : list Z) : Prop := {
  st_number : NumberOfPartitionEntries h' = NumberOfPartitionEntries h;
  st_size : SizeOfPartitionEntry h' = SizeOfPartitionEntry h;
  st_first : FirstUsableLBA h' = FirstUsableLBA h;
  st_last : LastUsableLBA h' = LastUsableLBA h;
  st_array : array m l' h' = array m l h;
  st_lba : ∃ Lba, valid_at m crc l' Lba h'
}.

Lemma same_refl l l' Lba h : valid_at m crc l' Lba h → array m l' h = array m l h → same_table l h l' h.
Proof. intros Hv Ha. split; try done. by exists Lba. Qed.

(** Afterwards both places hold a valid table, and the one that is used describes the
    same entries. *)
Lemma check_tables_ok h p b s : Forall is_byte (disk s) → ready (p_disk s) (MediaId m) → usable (writable (p_disk s) (MediaId m)) (disk s) h →
  ∃ h' s', check_tables m crc p b s = Some (Some h', s') ∧ ready (p_disk s') (MediaId m) ∧ p_children s' = p_children s ∧
    Forall is_byte (disk s') ∧ same_table (disk s) h (disk s') h' ∧
    valid_at m crc (disk s') (MyLBA h) h ∧ (∃ h2, valid_at m crc (disk s') (AlternateLBA h) h2) ∧
    length (disk s') = length (disk s) ∧
    ∀ a n, 0 ≤ a → 0 ≤ n → disjoint (MultU64x32 (AlternateLBA h) BS) BS a n →
      disjoint (MultU64x32 (entry_lba h) BS) (array_size h) a n → region (disk s') a n = region (disk s) a n.
Proof.
  intros Hb Hr Hu. unfold check_tables. destruct Hu as [h2 V1 V2|Hw V1 N2 Hs|Hw N1 V2 Hs].
  - rewrite (bind_eq _ _ _ _ _ (valid_table_ok m crc Hbs 1 p s h Hb Hr V1)). cbn [negb].
    rewrite (bind_eq _ _ _ _ _ (valid_table_ok m crc Hbs _ b s h2 Hb Hr V2)). cbn [fst snd negb]. exists h, s.
    rewrite (valid_lba _ _ _ _ _ V1). split_and!; try done; [by eapply same_refl|by exists h2].
  - rewrite (bind_eq _ _ _ _ _ (valid_table_ok m crc Hbs 1 p s h Hb Hr V1)). cbn [negb].
    destruct (valid_table_false (AlternateLBA h) b s Hb N2) as (b' & E2). rewrite (bind_eq _ _ _ _ _ E2). cbn [fst snd negb].
    destruct (restore_ok m crc Hcrc Hbs Htotal 1 h s Hb Hr Hw V1 Hs) as (c & s' & E3 & Hr' & C' & Hc & D' & Hok).
    rewrite (bind_eq _ _ _ _ _ E3). destruct (valid_table_total (AlternateLBA h) b' s') as (v & h3 & E4). rewrite (bind_eq _ _ _ _ _ E4).
    destruct (restored_valid m crc Hbs _ _ _ c Hb V1 Hs Hok) as (R1 & R2 & R3 & R4). exists h, s'.
    rewrite (valid_lba _ _ _ _ _ V1), D'. split_and!; try done; [|by eapply same_refl|by exists (other m h c)|apply length_restored|].
    + apply restored_bytes; [done|by eapply valid_bytes].
    + intros a n Ha Hn. by apply (restored_region m crc Hbs _ _ _ _ _ 1).
  - destruct (valid_table_false 1 p s Hb N1) as (p' & E1). rewrite (bind_eq _ _ _ _ _ E1). cbn [negb].
    rewrite (bind_eq _ _ _ _ _ (valid_table_ok m crc Hbs _ b s h Hb Hr V2)). cbn [negb].
    destruct (restore_ok m crc Hcrc Hbs Htotal _ h s Hb Hr Hw V2 Hs) as (c & s' & E3 & Hr' & C' & Hc & D' & Hok).
    rewrite (bind_eq _ _ _ _ _ E3). destruct (restored_valid m crc Hbs _ _ _ c Hb V2 Hs Hok) as (R1 & R2 & R3 & R4).
    assert (Forall is_byte (disk s')) as Hb' by (rewrite D'; apply restored_bytes; [done|by eapply valid_bytes]).
    rewrite <- D' in R1, R2, R3, R4. rewrite (bind_eq _ _ _ _ _ (valid_table_ok m crc Hbs _ p' s' _ Hb' Hr' R1)). cbn [snd].
    exists (other m h c), s'. rewrite (valid_lba _ _ _ _ _ V2).
    destruct (other_fields m Hbs h c) as (F1 & F2 & F3 & F4 & F5 & F6 & F7); [by eapply valid_bytes|by eapply valid_length|].
    split_and!; try done; [split; try done; by eexists|by eexists|rewrite D'; apply length_restored|].
    intros a n Ha Hn. rewrite D'. by apply (restored_region m crc Hbs _ _ _ _ _ (LastBlock m)).
Qed.

Lemma same_accepted l h l' h' es : same_table l h l' h' → accepted h' es = accepted h es.
Proof.
  intros [_ _ E3 E4 _ _]. unfold accepted. apply list_filter_iff. intros p.
  assert (∀ e, out_of_range h' e = out_of_range h e) as Ho by (intros e; unfold out_of_range; by rewrite E3, E4).
  unfold entry_status, active. rewrite Ho.
  replace (existsb (λ a, negb (unused a) && negb (out_of_range h' a) && hit a p.2) (take p.1 es))
    with (existsb (λ a, negb (unused a) && negb (out_of_range h a) && hit a p.2) (take p.1 es)); [done|].
  induction (take p.1 es) as [|a k IH]; [done|]. cbn. by rewrite IH, Ho.
Qed.

Lemma same_entries l h l' h' : same_table l h l' h' → entries h' (array m l' h') = entries h (array m l h).
Proof.
  intros [E1 E2 _ _ E5 _]. rewrite E5. unfold entries. rewrite E1. generalize (seq 0 (Z.to_nat (NumberOfPartitionEntries h))). intros k.
  assert (∀ i, entry_at h' (array m l h) i = entry_at h (array m l h) i) as He by (intros i; unfold entry_at; by rewrite E2).
  induction k as [|i k IH]; [done|]. cbn. by rewrite He, IH.
Qed.

(** The way to the table. *)
Lemma install_reads h s : let l := disk s in
  Forall is_byte l → ready (p_disk s) (MediaId m) → BS ≤ Z.of_nat (length l) →
  existsb (protective (region l 0 BS)) (seq 0 4) = true → usable (writable (p_disk s) (MediaId m)) l h →
  ∃ h' s', PartitionInstallGptChildHandles m crc s = install_table m h' s' ∧ ready (p_disk s') (MediaId m) ∧ p_children s' = p_children s ∧
    Forall is_byte (disk s') ∧ same_table l h (disk s') h' ∧
    valid_at m crc (disk s') (MyLBA h) h ∧ (∃ h2, valid_at m crc (disk s') (AlternateLBA h) h2) ∧
    ∀ a n, 0 ≤ a → 0 ≤ n → disjoint (MultU64x32 (AlternateLBA h) BS) BS a n →
      disjoint (MultU64x32 (entry_lba h) BS) (array_size h) a n → region (disk s') a n = region l a n.
Proof.
  intros l Hb Hr Hl Hp Hu. unfold PartitionInstallGptChildHandles.
  rewrite (bind_eq _ _ _ _ _ (alloc_ready m BS s Hr ltac:(lia))). cbn [negb].
  assert (in_disk l 0 BS) as Hin by (unfold in_disk; lia). rewrite (bind_eq _ _ _ _ _ (read_ready m 0 BS s Hr Hin)). cbn [fst snd EFI_ERROR].
  destruct (Z.ltb_spec BS 512); [lia|]. fold l. rewrite Hp. cbn [negb].
  rewrite (bind_eq _ _ _ _ _ (alloc_ready m (Z.of_nat sizeof_EFI_PARTITION_TABLE_HEADER) s Hr ltac:(lia))). cbn [negb].
  rewrite (bind_eq _ _ _ _ _ (alloc_ready m (Z.of_nat sizeof_EFI_PARTITION_TABLE_HEADER) s Hr ltac:(lia))). cbn [negb].
  destruct (check_tables_ok h (replicate sizeof_EFI_PARTITION_TABLE_HEADER 0) (replicate sizeof_EFI_PARTITION_TABLE_HEADER 0) s Hb Hr Hu)
    as (h' & s1 & E1 & Hr1 & C1 & Hb1 & Hst & V1 & V2 & _ & Hf).
  rewrite (bind_eq _ _ _ _ _ E1). exists h', s1. split_and!; done.
Qed.

(** C9. A disk with a GUID partition table and a protective MBR keeps its partitions if both
    copies of the table are valid, or if one is lost, the media can be written, and the places
    of the lost copy are on the disk and apart from the other one: the driver installs a
    child for each entry of the valid copy that is in use and passes the checks, in order; the
    children lie inside the usable blocks and share no byte; afterwards both copies are
    valid, and no block outside the rewritten copy has changed.  This is for media that can be
    read, with blocks of at least 512 bytes, with memory, for tables of less than 2^32 bytes and
    partitions that end below 2^64; write-protected media with a lost copy are not covered (see
    [PartDemo.gpt_unverified]). *)
Theorem gpt_survives h s :
  let l := disk s in
  Forall is_byte l → ready (p_disk s) (MediaId m) → BS ≤ Z.of_nat (length l) →
  existsb (protective (region l 0 BS)) (seq 0 4) = true → usable (writable (p_disk s) (MediaId m)) l h →
  NumberOfPartitionEntries h * SizeOfPartitionEntry h < 2 ^ 32 → (LastUsableLBA h + 1) * BS < 2 ^ 64 →
  ∃ es s', PartitionInstallGptChildHandles m crc s = Some (EFI_SUCCESS, s') ∧ entries h (array m l h) = Some es ∧
    let children := (λ p, gpt_child m p.1 p.2) <$> accepted h es in
    p_children s' = p_children s ++ children ∧ ForallOrdPairs apart children ∧ Forall (inside m h) children ∧
    valid_at m crc (disk s') (MyLBA h) h ∧ (∃ h2, valid_at m crc (disk s') (AlternateLBA h) h2) ∧
    ∀ a n, 0 ≤ a → 0 ≤ n → disjoint (MultU64x32 (AlternateLBA h) BS) BS a n →
      disjoint (MultU64x32 (entry_lba h) BS) (array_size h) a n → region (disk s') a n = region l a n.
Proof.
  intros l Hb Hr Hl Hp Hu Hov Hlast. destruct (install_reads h s Hb Hr Hl Hp Hu) as (h' & s1 & -> & Hr1 & C1 & Hb1 & Hst & V1 & V2 & Hf).
  pose proof (st_lba _ _ _ _ Hst) as [Lba Hv].
  assert (sizeof_EFI_PARTITION_ENTRY ≤ SizeOfPartitionEntry h') as Hsz.
  { destruct Hv as [_ [_ _ _ _ Hs _] -> _ _]. unfold SizeOfPartitionEntry in *. by rewrite take_fields by lia. }
  destruct (install_table_ok m h' s1) as (es & s' & Ee & E2 & Hr2 & D2 & C2);
    [lia|done|by eapply valid_bytes|by eapply valid_length|apply Hv|done|by rewrite (st_number _ _ _ _ Hst), (st_size _ _ _ _ Hst)|].
  rewrite (same_entries _ _ _ _ Hst) in Ee. rewrite (same_accepted _ _ _ _ es Hst) in C2.
  exists es, s'. split; [done|]. split; [done|]. rewrite D2, C2, C1.
  assert (0 ≤ FirstUsableLBA h) as Hfirst.
  { rewrite <- (st_first _ _ _ _ Hst). apply (lba_range 40 h'); [by eapply valid_bytes|]. erewrite valid_length by done. lia. }
  destruct (children_ok m Hbs h es Hfirst Hlast). split_and!; done.
Qed.

Lemma entries_overflow h arr : Forall is_byte h → length h = 92%nat →
  2 ^ 32 ≤ NumberOfPartitionEntries h * SizeOfPartitionEntry h → Z.of_nat (length arr) = array_size h → entries h arr = None.
Proof.
  intros Hb Hh Hov Hl. destruct (entries h arr) as [es|] eqn:E; [exfalso|done]. unfold entries in E. apply mapM_Some in E.
  pose proof (load_range 4 80 h Hb ltac:(lia)) as Hn. fold (NumberOfPartitionEntries h) in Hn.
  pose proof (load_range 4 84 h Hb ltac:(lia)) as Hs. fold (SizeOfPartitionEntry h) in Hs. change (256 ^ Z.of_nat 4) with (2 ^ 32) in *.
  set (N := NumberOfPartitionEntries h) in *. set (S := SizeOfPartitionEntry h) in *.
  assert (0 < N) by nia. destruct (Forall2_lookup_l _ _ _ (Z.to_nat N - 1)%nat (Z.to_nat N - 1)%nat E) as (e & _ & He); [apply lookup_seq; lia|].
  unfold entry_at in He. destruct (decide _) as [Hd|]; [|done]. fold S in Hd.
  assert (array_size h ≤ N * S - 2 ^ 32) as Ha by (unfold array_size, wrap32; fold N S; lia).
  assert (Z.of_nat ((Z.to_nat N - 1) * Z.to_nat S) = (N - 1) * S) as Hz by (rewrite Nat2Z.inj_mul, Nat2Z.inj_sub, !Z2Nat.id by lia; lia).
  lia.
Qed.

(** The guard against overflow of the size of the array is for 64-bit numbers, but the
    size is computed with 32 bits: a table whose number and size of entries multiply to
    2^32 or more passes all checks, and the driver then reads entries outside its buffer. *)
Theorem gpt_count_overflow h s :
  let l := disk s in
  Forall is_byte l → ready (p_disk s) (MediaId m) → BS ≤ Z.of_nat (length l) →
  existsb (protective (region l 0 BS)) (seq 0 4) = true → usable (writable (p_disk s) (MediaId m)) l h →
  2 ^ 32 ≤ NumberOfPartitionEntries h * SizeOfPartitionEntry h →
  PartitionInstallGptChildHandles m crc s = None.
Proof.
  intros l Hb Hr Hl Hp Hu Hov. destruct (install_reads h s Hb Hr Hl Hp Hu) as (h' & s1 & -> & Hr1 & _ & Hb1 & Hst & _).
  pose proof (st_lba _ _ _ _ Hst) as [Lba Hv]. pose proof (array_size_range h') as Har.
  pose proof (load_range 4 80 h' ltac:(by eapply valid_bytes) ltac:(erewrite valid_length by done; lia)) as Hn. fold (NumberOfPartitionEntries h') in Hn.
  unfold install_table. rewrite (bind_eq _ _ _ _ _ (alloc_ready m (array_size h') s1 Hr1 ltac:(lia))). cbn [negb].
  rewrite (bind_eq _ _ _ _ _ (read_ready m _ _ s1 Hr1 (va_array_in _ _ _ _ _ Hv))). cbn [fst snd EFI_ERROR].
  rewrite (bind_eq _ _ _ _ _ (alloc_ready m (NumberOfPartitionEntries h' * 3) s1 Hr1 ltac:(lia))). cbn [negb].
  rewrite entries_overflow; [done|by eapply valid_bytes|by eapply valid_length|by rewrite (st_number _ _ _ _ Hst), (st_size _ _ _ _ Hst)|].
  eapply length_array, Hv.
Qed.
End Gpt.

(** ** Which entries get a child *)

(** C14. The checks of the entries: an entry gets a child exactly if it is in use, lies inside
    the usable blocks, is not reserved for an operating system, and shares no block with
    any other entry in use, where entries before it count only if they are in range
    themselves. *)
Theorem gpt_accepts h PartEntry es st i e s :
  entries h PartEntry = Some es →
  PartitionCheckGptEntry h PartEntry (replicate (length es) zero_status) = Some st → es !! i = Some e → st !! i = Some s →
  skipped e s = false ↔
    unused e = false ∧ FirstUsableLBA h ≤ StartingLBA e ≤ EndingLBA e ∧ EndingLBA e ≤ LastUsableLBA h ∧
    Z.testbit (Attributes e) 1 = false ∧
    ∀ j f, j ≠ i → es !! j = Some f → unused f = false → ((j < i)%nat → out_of_range h f = false) →
      EndingLBA e < StartingLBA f ∨ EndingLBA f < StartingLBA e.
Proof.
  intros Ee. unfold PartitionCheckGptEntry. rewrite Ee. cbn [mbind option_bind]. intros [= <-] He Hs.
  rewrite check_entries_ok, list_lookup_imap, He in Hs. injection Hs as <-. unfold skipped, entry_status. cbn [OutOfRange Overlap OsSpecific].
  unfold active, hit. destruct (unused e) eqn:Eu; cbn [orb negb andb]; [split; [done|by intros [? _]]|].
  destruct (out_of_range h e) eqn:Er; cbn [orb negb andb].
  { split; [done|]. intros (_ & H1 & H2 & _). unfold out_of_range in Er. rewrite !orb_true_iff, !Z.ltb_lt in Er. lia. }
  rewrite !orb_false_iff. unfold out_of_range in Er. rewrite !orb_false_iff, !Z.ltb_ge in Er.
  rewrite <- !not_true_iff_false, !existsb_exists. split.
  - intros [[N1 N2] N3]. split_and!; [done|lia|lia|lia|done|]. intros j f Hj Hf Hu Ho. rewrite ?not_true_iff_false in Hu, Ho.
    destruct (decide (EndingLBA e < StartingLBA f ∨ EndingLBA f < StartingLBA e)) as [|Hn]; [done|exfalso].
    destruct (decide (j < i)%nat) as [Hlt|Hlt].
    + apply N1. exists f. split.
      { apply list_elem_of_In, (list_elem_of_lookup_2 _ j). by rewrite lookup_take_lt. }
      rewrite Hu, (Ho Hlt). cbn. unfold overlapping. rewrite andb_true_iff, !Z.leb_le. lia.
    + apply N2. exists f. split.
      { apply list_elem_of_In, (list_elem_of_lookup_2 _ (j - S i)). rewrite lookup_drop. by replace (S i + (j - S i))%nat with j by lia. }
      rewrite Hu. cbn. unfold overlapping. rewrite andb_true_iff, !Z.leb_le. lia.
  - intros (_ & _ & _ & Hos & Hall). split; [split|].
    + intros (f & Hf & Hh). apply list_elem_of_In, list_elem_of_lookup in Hf as (j & Hf). apply lookup_take_Some in Hf as [Hf Hlt].
      unfold overlapping in Hh. rewrite !andb_true_iff, !negb_true_iff, !Z.leb_le in Hh. destruct Hh as [[Hu Ho] Hh].
      destruct (Hall j f ltac:(lia) Hf Hu ltac:(done)); lia.
    + intros (f & Hf & Hh). apply list_elem_of_In, list_elem_of_lookup in Hf as (j & Hf). rewrite lookup_drop in Hf.
      unfold overlapping in Hh. rewrite !andb_true_iff, !negb_true_iff, !Z.leb_le in Hh. destruct Hh as [Hu Hh].
      destruct (Hall (S i + j)%nat f ltac:(lia) Hf Hu ltac:(lia)); lia.
    + done.
Qed.
