(* ===== verification/PartIo.v ===== *)
(** * PartitionDxe: block I/O through the children *)

From Stdlib Require Import ZArith Lia.
From stdpp Require Import base list list_numbers.
From S2P Require Import Prelude PartDisk PartGpt PartGptProofs PartGptEntries.

Open Scope Z_scope.

Section Io.
Context {D : Type} `{DiskIoLaws D}.
Implicit Types (s : Part D) (p q : PARTITION_PRIVATE_DATA).
Abbreviation disk s := (bytes (p_disk s)).

(** A child that lies on the disk, which has less than 2^64 bytes. *)
Record child_ok (l : list Z) (p : PARTITION_PRIVATE_DATA) : Prop := {
  co_start : 0 ≤ p_Start p;
  co_order : p_Start p ≤ p_End p;
  co_end : p_End p ≤ Z.of_nat (length l) < 2 ^ 64;
  co_block : 0 < p_BlockSize p
}.

(** A request for blocks of the child. *)
Definition request_ok (p : PARTITION_PRIVATE_DATA) (Lba n : Z) : Prop :=
  0 ≤ Lba ∧ 0 ≤ n ∧ n mod p_BlockSize p = 0 ∧ p_Start p + Lba * p_BlockSize p + n ≤ p_End p.

Lemma request_offset l p Lba n : child_ok l p → request_ok p Lba n →
  child_offset p Lba = p_Start p + Lba * p_BlockSize p ∧ wrap64 (child_offset p Lba + n) = p_Start p + Lba * p_BlockSize p + n.
Proof.
  intros [H1 H2 H3 H4] (R1 & R2 & R3 & R4). unfold child_offset, MultU64x32.
  rewrite (wrap64_small (Lba * _)) by nia. rewrite (wrap64_small (_ + p_Start p)) by nia. split; [lia|]. rewrite wrap64_small by nia. lia.
Qed.

Lemma child_write_ok p id Lba buf s : ready (p_disk s) id → writable (p_disk s) id → child_ok (disk s) p → request_ok p Lba (Z.of_nat (length buf)) →
  ∃ s', PartitionWriteBlocks p id Lba buf s = Some (EFI_SUCCESS, s') ∧ ready (p_disk s') id ∧
    disk s' = store (Z.to_nat (p_Start p + Lba * p_BlockSize p)) buf (disk s) ∧ p_children s' = p_children s.
Proof.
  intros Hr Hw Hc Hq. destruct (request_offset _ _ _ _ Hc Hq) as [E1 E2]. destruct Hc as [C1 C2 C3 C4], Hq as (Q1 & Q2 & Q3 & Q4).
  unfold PartitionWriteBlocks. destruct (Z.eqb_spec (p_BlockSize p) 0); [lia|]. rewrite Q3, Z.eqb_refl. cbn [negb]. rewrite E2.
  destruct (Z.ltb_spec (p_End p) (p_Start p + Lba * p_BlockSize p + Z.of_nat (length buf))); [lia|]. rewrite E1.
  destruct (ready_write _ _ (p_Start p + Lba * p_BlockSize p) buf Hr Hw) as (d' & E & Hr' & _); [nia|lia|]. rewrite E.
  eexists. split; [reflexivity|]. split; [done|]. split; [by apply write_disk_ok in E|done].
Qed.

Lemma child_read_ok p id Lba n s : ready (p_disk s) id → child_ok (disk s) p → request_ok p Lba n →
  PartitionReadBlocks p id Lba n s = Some ((EFI_SUCCESS, region (disk s) (p_Start p + Lba * p_BlockSize p) n), s).
Proof.
  intros Hr Hc Hq. destruct (request_offset _ _ _ _ Hc Hq) as [E1 E2]. destruct Hc as [C1 C2 C3 C4], Hq as (Q1 & Q2 & Q3 & Q4).
  unfold PartitionReadBlocks. destruct (Z.eqb_spec (p_BlockSize p) 0); [lia|]. rewrite Q3, Z.eqb_refl. cbn [negb]. rewrite E2.
  destruct (Z.ltb_spec (p_End p) (p_Start p + Lba * p_BlockSize p + n)); [lia|]. rewrite E1. unfold gets.
  rewrite ready_read; [done|done|nia|lia|lia].
Qed.

Lemma child_ok_length l l' p : length l' = length l → child_ok l p → child_ok l' p.
Proof. intros E [? ? ? ?]. split; try done. by rewrite E. Qed.

(** A request that does not fit is refused, and the disk is not touched: a buffer that is
    not whole blocks, or blocks after the end of the child. *)
Lemma child_refuses p id Lba buf s :
  let n := Z.of_nat (length buf) in
  child_ok (disk s) p → 0 ≤ Lba → p_Start p + Lba * p_BlockSize p + n < 2 ^ 64 →
  n mod p_BlockSize p ≠ 0 ∨ p_End p < p_Start p + Lba * p_BlockSize p + n →
  ∃ st, PartitionWriteBlocks p id Lba buf s = Some (st, s) ∧ EFI_ERROR st = true ∧
    PartitionReadBlocks p id Lba n s = Some ((st, []), s).
Proof.
  intros n [C1 C2 C3 C4] HL Hw Hbad. unfold PartitionWriteBlocks, PartitionReadBlocks. fold n.
  destruct (Z.eqb_spec (p_BlockSize p) 0); [lia|].
  assert (∀ d, EFI_ERROR d = true → ∃ st, ProbeMediaStatus id d s = Some (st, s) ∧ EFI_ERROR st = true ∧
    (Status ← ProbeMediaStatus id d; mret (Status, [])) s = Some ((st, [] : list Z), s)) as Hp.
  { intros d Hd. unfold ProbeMediaStatus. rewrite bind_gets. eexists. split; [reflexivity|]. split; [|reflexivity].
    destruct (ReadNull _ _); cbn; done. }
  destruct (Z.eqb_spec (n mod p_BlockSize p) 0) as [Hm|Hm]; cbn [negb].
  - destruct Hbad as [Hbad|Hbad]; [done|].
    assert (wrap64 (child_offset p Lba + n) = p_Start p + Lba * p_BlockSize p + n) as ->.
    { unfold child_offset, MultU64x32. rewrite (wrap64_small (Lba * _)) by nia. rewrite (wrap64_small (_ + p_Start p)) by nia.
      rewrite wrap64_small by nia. lia. }
    destruct (Z.ltb_spec (p_End p) (p_Start p + Lba * p_BlockSize p + n)); [|lia]. destruct (Hp EFI_INVALID_PARAMETER) as (st & E1 & E2 & E3); [done|].
    by exists st.
  - destruct (Hp EFI_BAD_BUFFER_SIZE) as (st & E1 & E2 & E3); [done|]. by exists st.
Qed.

Lemma child_frame p id Lba buf st s s' : child_ok (disk s) p → 0 ≤ Lba → p_Start p + Lba * p_BlockSize p + Z.of_nat (length buf) < 2 ^ 64 →
  PartitionWriteBlocks p id Lba buf s = Some (st, s') → ∀ i, Z.of_nat i < p_Start p ∨ p_End p ≤ Z.of_nat i → disk s' !! i = disk s !! i.
Proof.
  intros [C1 C2 C3 C4] HL Hn E i Hi. unfold PartitionWriteBlocks in E. destruct (p_BlockSize p =? 0); [done|].
  assert (∀ d, ProbeMediaStatus id d s = Some (st, s') → s' = s) as Hp.
  { intros d. unfold ProbeMediaStatus. rewrite bind_gets. by intros [= _ <-]. }
  destruct (negb _); [by rewrite (Hp _ E)|]. assert (child_offset p Lba = p_Start p + Lba * p_BlockSize p) as Eo.
  { unfold child_offset, MultU64x32. rewrite (wrap64_small (Lba * _)) by nia. rewrite wrap64_small by nia. lia. }
  rewrite Eo, wrap64_small in E by nia.
  destruct (Z.ltb_spec (p_End p) (p_Start p + Lba * p_BlockSize p + Z.of_nat (length buf))); [by rewrite (Hp _ E)|].
  destruct (WriteDisk _ _ _ _) as [st1 d] eqn:Ew. injection E as <- <-. cbn [p_disk]. apply write_disk_frame in Ew as [_ Hf]. apply Hf. nia.
Qed.

Lemma request_dec p Lba n : request_ok p Lba n ∨ ¬ request_ok p Lba n.
Proof. unfold request_ok. lia. Qed.

(** C10. Partitions are separate devices, for requests that end at an address below 2^64
    (one that does not can wrap around and lie outside, see [child_escapes] below).  A write
    through a child, of any such blocks and whatever the disk answers, changes no byte outside
    of the child.  If the buffer is not whole blocks or ends after the child, the write is refused
    and the disk untouched; otherwise, with media that can be read and written, the data is
    read back from the child, and every block of a child that is apart from it reads as
    before. *)
Theorem child_io p q id Lba buf s :
  let n := Z.of_nat (length buf) in
  child_ok (disk s) p → child_ok (disk s) q → apart p q → 0 ≤ Lba → p_Start p + Lba * p_BlockSize p + n < 2 ^ 64 →
  ∃ st s', PartitionWriteBlocks p id Lba buf s = Some (st, s') ∧
    (∀ i, Z.of_nat i < p_Start p ∨ p_End p ≤ Z.of_nat i → disk s' !! i = disk s !! i) ∧
    (¬ request_ok p Lba n → EFI_ERROR st = true ∧ s' = s) ∧
    (request_ok p Lba n → ready (p_disk s) id → writable (p_disk s) id →
      st = EFI_SUCCESS ∧ PartitionReadBlocks p id Lba n s' = Some ((EFI_SUCCESS, buf), s') ∧
      ∀ Lba' n', request_ok q Lba' n' → fst <$> PartitionReadBlocks q id Lba' n' s' = fst <$> PartitionReadBlocks q id Lba' n' s).
Proof.
  intros n Cp Cq Ha HL Hn. destruct (PartitionWriteBlocks p id Lba buf s) as [[st s']|] eqn:E.
  2:{ unfold PartitionWriteBlocks, ProbeMediaStatus in E. destruct (Z.eqb_spec (p_BlockSize p) 0); [destruct Cp; lia|].
      repeat (case_match; [done|]). by destruct (WriteDisk _ _ _ _). }
  exists st, s'. split; [done|]. split; [by eapply child_frame|]. split.
  { intros Hr. destruct (child_refuses p id Lba buf s Cp HL Hn) as (st1 & E1 & He & _); [|rewrite E in E1; by injection E1 as -> ->].
    fold n. destruct Cp. destruct (Z.eq_dec (n mod p_BlockSize p) 0); [|by left]. right. unfold request_ok in Hr. lia. }
  intros Hq Hr Hw. destruct (child_write_ok p id Lba buf s Hr Hw Cp Hq) as (s1 & E1 & Hr' & D' & _). rewrite E in E1. injection E1 as -> ->. split; [done|].
  assert (length (disk s1) = length (disk s)) as HLd by (rewrite D'; apply length_store). pose proof Hq as (Q1 & Q2 & Q3 & Q4). pose proof Cp as [P1 P2 P3 P4]. split.
  - rewrite child_read_ok; [|done|by eapply child_ok_length|done]. rewrite D'. unfold region, n. rewrite slice_store_eq; [done|lia|].
    rewrite Nat2Z.id. nia.
  - intros Lba' n' Hq'. rewrite !child_read_ok; [|done..|by eapply child_ok_length|done]. cbn. rewrite D'. f_equal. f_equal. unfold region.
    destruct Cq as [S1 S2 S3 S4], Hq' as (R1 & R2 & R3 & R4). apply slice_store_disj. unfold apart in Ha. nia.
Qed.

(** The offset of a request is computed modulo 2^64: with the block number 2^55 - 1 a write
    to a partition with blocks of 512 bytes succeeds and overwrites the block before the
    partition. *)
Theorem child_escapes p id buf s :
  ready (p_disk s) id → writable (p_disk s) id → child_ok (disk s) p → p_BlockSize p = 512 → 512 ≤ p_Start p → length buf = 512%nat →
  ∃ s', PartitionWriteBlocks p id (2 ^ 55 - 1) buf s = Some (EFI_SUCCESS, s') ∧ disk s' = store (Z.to_nat (p_Start p - 512)) buf (disk s).
Proof.
  intros Hr Hw [C1 C2 C3 C4] Hb Hs Hl. unfold PartitionWriteBlocks, child_offset. rewrite Hb, Hl. cbn [Z.eqb negb].
  change (negb (Z.of_nat 512 mod 512 =? 0)) with false. cbv iota.
  assert (wrap64 (MultU64x32 (2 ^ 55 - 1) 512 + p_Start p) = p_Start p - 512) as ->.
  { change (MultU64x32 (2 ^ 55 - 1) 512) with (2 ^ 64 - 512). unfold wrap64. replace (2 ^ 64 - 512 + p_Start p) with (p_Start p - 512 + 1 * 2 ^ 64) by lia.
    rewrite Z.mod_add by lia. apply Z.mod_small. lia. }
  rewrite wrap64_small by lia. destruct (Z.ltb_spec (p_End p) (p_Start p - 512 + Z.of_nat 512)); [lia|].
  destruct (ready_write _ _ (p_Start p - 512) buf Hr Hw) as (d' & E & Hr' & _); [lia|lia|]. rewrite E. eexists. split; [reflexivity|].
  by apply write_disk_ok in E.
Qed.
End Io.
