(* ===== verification/PartDemo.v ===== *)
(** * PartitionDxe: concrete disks

    A disk of nine blocks with a GUID partition table, its variants with one copy
    damaged, and what the driver does with them. *)

From Stdlib Require Import ZArith Lia.
From stdpp Require Import base list list_numbers strings.
From S2P Require Import Prelude PartDisk PartGpt PartGptProofs PartGptEntries PartGptTheorems PartIo.

Open Scope Z_scope.

(** ** The checksum service: CRC-32 *)

Fixpoint crc_bits (n : nat) (c : Z) : Z :=
  match n with
  | O => c
  | S n => crc_bits n (if Z.odd c then Z.lxor (Z.shiftr c 1) 0xEDB88320 else Z.shiftr c 1)
  end.

Definition crc32 (l : list Z) : option Z :=
  match l with
  | [] => None
  | _ => Some (wrap32 (Z.lxor (fold_left (λ c b, crc_bits 8 (Z.lxor c b)) l 0xFFFFFFFF) 0xFFFFFFFF))
  end.

Example crc32_check : crc32 (str_bytes "123456789") = Some 0xCBF43926.
Proof. reflexivity. Qed.

Lemma crc32_range l c : crc32 l = Some c → 0 ≤ c < 2 ^ 32.
Proof. destruct l; [done|]. unfold crc32. intros E. apply (inj Some) in E. rewrite <- E. apply wrap32_range. Qed.

Lemma crc32_total l : l ≠ [] → is_Some (crc32 l).
Proof. destruct l; [done|]. by eexists. Qed.

(** ** The disk *)

Definition demo_media : EFI_BLOCK_IO_MEDIA := {|
  MediaId := 1; BlockSize := 512; LastBlock := 8; MediaPresent := true; RemovableMedia := false; LogicalPartition := false |}.

Definition demo_block (l : list Z) : list Z := l ++ replicate (512 - length l) 0.

Definition demo_mbr : list Z :=
  replicate 446 0 ++ [0; 0; 2; 0; 0xEE; 0xFF; 0xFF; 0xFF] ++ le_put 4 1 ++ le_put 4 8 ++ replicate 48 0 ++ [0x55; 0xAA].

Definition demo_entry (type : list Z) (first last : Z) : list Z :=
  type ++ replicate 16 7 ++ le_put 8 first ++ le_put 8 last ++ replicate 80 0.

Definition demo_array : list Z :=
  demo_block (demo_entry gEfiPartTypeSystemPartGuid 3 4 ++ demo_entry (replicate 16 1) 5 6).

(** A header for [number] entries whose array has the checksum [c]. *)
Definition demo_header (my alternate array number c : Z) : list Z :=
  default [] (PartitionSetCrc crc32 (demo_block (
    le_put 8 EFI_PTAB_HEADER_ID ++ le_put 4 0x10000 ++ le_put 4 92 ++ replicate 8 0 ++ le_put 8 my ++ le_put 8 alternate ++
    le_put 8 3 ++ le_put 8 6 ++ replicate 16 9 ++ le_put 8 array ++ le_put 4 number ++ le_put 4 128 ++ le_put 4 c))).

Definition demo_crc (a : list Z) : Z := default 0 (crc32 a).

Definition demo_bytes (primary array backup_array backup : list Z) : list Z :=
  demo_mbr ++ primary ++ array ++ replicate 2048 0 ++ backup_array ++ backup.

Definition demo_part (l : list Z) (writable : bool) : Part ByteDisk :=
  {| p_disk := {| bd_bytes := l; bd_writable := writable |}; p_children := [] |}.

(** The primary copy is erased. *)
Definition demo_backup : list Z := Eval vm_compute in demo_header 8 1 7 4 (demo_crc demo_array).
Definition demo_lost : list Z := Eval vm_compute in demo_bytes (demo_block []) (demo_block []) demo_array demo_backup.

Lemma bytes_check l : forallb (λ b, (0 <=? b) && (b <? 256)) l = true → Forall is_byte l.
Proof.
  intros Hl. apply Forall_forall. intros b Hb. rewrite forallb_forall in Hl. specialize (Hl b). rewrite andb_true_iff, Z.leb_le, Z.ltb_lt in Hl.
  apply Hl. by apply list_elem_of_In.
Qed.

Lemma no_header m crc l Lba : Signature (region l (MultU64x32 Lba (BlockSize m)) (BlockSize m)) ≠ EFI_PTAB_HEADER_ID → ∀ h, ¬ valid_at m crc l Lba h.
Proof. intros Hs h [_ [Hsig _ _ _ _ _] _ _ _]. done. Qed.

(** The conditions on a table of these disks are computed. *)
Ltac demo_check :=
  repeat match goal with
  | |- valid_at _ _ _ _ _ => constructor
  | |- header_ok _ _ _ _ => constructor
  | |- separate _ _ _ => constructor
  | |- in_disk _ _ _ => unfold in_disk
  | |- disjoint _ _ _ _ => unfold disjoint
  end; vm_compute; repeat split; intros; try discriminate; try reflexivity; try (left; discriminate); try (right; discriminate).

Lemma demo_usable : usable demo_media crc32 (writable (p_disk (demo_part demo_lost true)) (MediaId demo_media)) demo_lost (take 92 demo_backup).
Proof.
  apply primary_lost; [reflexivity|apply no_header; vm_compute; discriminate|demo_check|demo_check].
Qed.

Lemma gpt_survives_witness :
  ∃ es s', PartitionInstallGptChildHandles demo_media crc32 (demo_part demo_lost true) = Some (EFI_SUCCESS, s') ∧
    entries (take 92 demo_backup) demo_array = Some es ∧ length (accepted (take 92 demo_backup) es) = 2%nat ∧
    ForallOrdPairs apart (p_children s').
Proof.
  destruct (gpt_survives demo_media crc32 crc32_range crc32_total ltac:(cbn; lia) (take 92 demo_backup) (demo_part demo_lost true))
    as (es & s' & E1 & E2 & E3 & E4 & _).
  - apply bytes_check. vm_compute. reflexivity.
  - exact I.
  - vm_compute. discriminate.
  - vm_compute. reflexivity.
  - exact demo_usable.
  - vm_compute. reflexivity.
  - vm_compute. reflexivity.
  - assert (array demo_media demo_lost (take 92 demo_backup) = demo_array) as Ea by (vm_compute; reflexivity).
    change (bytes (p_disk (demo_part demo_lost true))) with demo_lost in E2. rewrite Ea in E2.
    exists es, s'. split; [exact E1|]. split; [exact E2|]. rewrite E3. split; [|exact E4].
    assert (∃ es', entries (take 92 demo_backup) demo_array = Some es' ∧ length (accepted (take 92 demo_backup) es') = 2%nat) as (es' & F1 & F2)
      by (eexists; split; [vm_compute; reflexivity|vm_compute; reflexivity]).
    rewrite F1 in E2. injection E2 as <-. exact F2.
Defined.

(** ** Too many entries *)

(** 2^25 + 4 entries of 128 bytes: the product is 512 modulo 2^32. *)
Definition demo_many : list Z := Eval vm_compute in demo_header 8 1 7 (2 ^ 25 + 4) (demo_crc demo_array).
Definition demo_overflow : list Z := Eval vm_compute in demo_bytes (demo_block []) (demo_block []) demo_array demo_many.

Lemma gpt_count_overflow_witness : PartitionInstallGptChildHandles demo_media crc32 (demo_part demo_overflow true) = None.
Proof.
  apply (gpt_count_overflow demo_media crc32 crc32_range crc32_total ltac:(cbn; lia) (take 92 demo_many)).
  - apply bytes_check. vm_compute. reflexivity.
  - reflexivity.
  - vm_compute. discriminate.
  - vm_compute. reflexivity.
  - apply primary_lost; [reflexivity|apply no_header; vm_compute; discriminate|demo_check|demo_check].
  - vm_compute. discriminate.
Defined.

(** ** A damaged array that cannot be repaired *)

(** The primary array says that the second partition has one more block than it has. *)
Definition demo_bad_array : list Z :=
  demo_block (demo_entry gEfiPartTypeSystemPartGuid 3 5 ++ demo_entry (replicate 16 1) 6 6).
Definition demo_protected : list Z := Eval vm_compute in
  demo_bytes (demo_header 1 8 2 4 (demo_crc demo_array)) demo_bad_array demo_array demo_backup.

(** On a write-protected disk whose primary array does not have its checksum, the driver
    installs the partitions of that array, although the backup is valid. *)
Example gpt_unverified :
  (λ r, (r.1, (λ c, (p_Start c / 512, p_End c / 512)) <$> p_children r.2)) <$>
    PartitionInstallGptChildHandles demo_media crc32 (demo_part demo_protected false) = Some (EFI_SUCCESS, [(3, 6); (6, 7)]).
Proof. vm_compute. reflexivity. Qed.

(** If it can be written, the partitions are those of the backup. *)
Example gpt_repaired :
  (λ r, (r.1, (λ c, (p_Start c / 512, p_End c / 512)) <$> p_children r.2)) <$>
    PartitionInstallGptChildHandles demo_media crc32 (demo_part demo_protected true) = Some (EFI_SUCCESS, [(3, 5); (5, 7)]).
Proof. vm_compute. reflexivity. Qed.

(** ** Entries and children *)

Definition demo_table : list Z := take 92 demo_backup.
Definition demo_entries : list EFI_PARTITION_ENTRY := Eval vm_compute in default [] (entries demo_table demo_array).

Lemma gpt_accepts_witness :
  skipped (entry_of demo_array) zero_status = false ↔
    unused (entry_of demo_array) = false ∧ 3 ≤ 3 ≤ 4 ∧ 4 ≤ 6 ∧ Z.testbit 0 1 = false ∧
    ∀ j f, j ≠ 0%nat → demo_entries !! j = Some f → unused f = false → ((j < 0)%nat → out_of_range demo_table f = false) →
      4 < StartingLBA f ∨ EndingLBA f < 3.
Proof.
  refine (gpt_accepts demo_table demo_array demo_entries (replicate 4 zero_status) 0 (entry_of demo_array) zero_status _ _ _ _); vm_compute; reflexivity.
Defined.

Definition demo_child (first last : Z) : PARTITION_PRIVATE_DATA := {|
  p_Node := OtherNode; p_Start := first * 512; p_End := (last + 1) * 512; p_BlockSize := 512; p_LastBlock := last - first; p_Esp := false |}.

Lemma demo_child_ok first last : 0 ≤ first ≤ last → last ≤ 8 → child_ok demo_lost (demo_child first last).
Proof.
  intros Hf Hl. assert (Z.of_nat (length demo_lost) = 4608) as E by (vm_compute; reflexivity). split; cbn [demo_child p_Start p_End p_BlockSize]; lia.
Qed.

Lemma child_io_witness : ∃ s', PartitionWriteBlocks (demo_child 3 4) 1 1 (replicate 512 7) (demo_part demo_lost true) = Some (EFI_SUCCESS, s') ∧
  PartitionReadBlocks (demo_child 3 4) 1 1 512 s' = Some ((EFI_SUCCESS, replicate 512 7), s').
Proof.
  destruct (child_io (demo_child 3 4) (demo_child 5 6) 1 1 (replicate 512 7) (demo_part demo_lost true)) as (st & s' & E1 & _ & _ & E2).
  - apply demo_child_ok; lia.
  - apply demo_child_ok; lia.
  - left. vm_compute. discriminate.
  - lia.
  - vm_compute. reflexivity.
  - destruct E2 as (-> & E2 & _); [vm_compute; repeat split; discriminate|exact I|reflexivity|]. exists s'. split; [exact E1|exact E2].
Defined.

Lemma child_refuses_witness : ∃ st, PartitionWriteBlocks (demo_child 3 4) 1 2 (replicate 512 7) (demo_part demo_lost true) =
  Some (st, demo_part demo_lost true) ∧ EFI_ERROR st = true.
Proof.
  destruct (child_refuses (demo_child 3 4) 1 2 (replicate 512 7) (demo_part demo_lost true)) as (st & E1 & E2 & _).
  - apply demo_child_ok; lia.
  - lia.
  - vm_compute. reflexivity.
  - right. vm_compute. reflexivity.
  - exists st. split; [exact E1|exact E2].
Defined.

Lemma child_escapes_witness : ∃ s', PartitionWriteBlocks (demo_child 3 4) 1 (2 ^ 55 - 1) (replicate 512 7) (demo_part demo_lost true) =
  Some (EFI_SUCCESS, s') ∧ bytes (p_disk s') = store 1024 (replicate 512 7) demo_lost.
Proof.
  destruct (child_escapes (demo_child 3 4) 1 (replicate 512 7) (demo_part demo_lost true)) as (s' & E1 & E2).
  - exact I.
  - reflexivity.
  - apply demo_child_ok; lia.
  - reflexivity.
  - vm_compute. discriminate.
  - apply length_replicate.
  - exists s'. split; [exact E1|exact E2].
Defined.
