(* ===== verification/PartMbr.v ===== *)
(** * PartitionDxe: the other partition formats (Mbr.c, Apple.c, ElTorito.c)

    The legacy master boot record with its chain of extended partitions, Apple's
    partition map and El Torito boot catalogs, and the order in which the formats are
    tried ([PartitionDriverBindingStart] of Partition.c).  A disk block is a list of
    bytes. *)

From Stdlib Require Import ZArith Lia.
From stdpp Require Import base list list_numbers strings.
From S2P Require Import Prelude PartDisk PartGpt.

Open Scope Z_scope.

(** ** The master boot record *)

Definition MBR_SIGNATURE : Z := 0xAA55.
Definition MBR_SIZE : Z := 512.
Definition PMBR_GPT_PARTITION : Z := 0xEE.
Definition EFI_PARTITION : Z := 0xEF.

Definition OSIndicator (Mbr : list Z) (i : nat) : Z := load 1 (450 + 16 * i) Mbr.
Definition StartLBA (Mbr : list Z) (i : nat) : Z := load 4 (454 + 16 * i) Mbr.
Definition SizeInLBA (Mbr : list Z) (i : nat) : Z := load 4 (458 + 16 * i) Mbr.
Definition mbr_signature (Mbr : list Z) : Z := load 2 510 Mbr.

Definition null_entry (Mbr : list Z) (i : nat) : bool := (OSIndicator Mbr i =? 0) || (SizeInLBA Mbr i =? 0).
Definition is_extended (Mbr : list Z) (i : nat) : bool := (OSIndicator Mbr i =? 0x05) || (OSIndicator Mbr i =? 0x0F).

(** [EndingLBA] and [NewEndingLBA], 32-bit numbers. *)
Definition end_lba (Mbr : list Z) (i : nat) : Z := wrap32 (StartLBA Mbr i + SizeInLBA Mbr i - 1).

(** The loop over Index2: false if an entry overlaps entry [i]. *)
Fixpoint valid_rest (Mbr : list Z) (i : nat) (js : list nat) : bool :=
  match js with
  | [] => true
  | j :: js =>
      if null_entry Mbr j then valid_rest Mbr i js
      else if (StartLBA Mbr i <=? end_lba Mbr j) && (StartLBA Mbr j <=? end_lba Mbr i) then false
      else valid_rest Mbr i js
  end.

(** The loop over Index1. *)
Fixpoint valid_loop (Mbr : list Z) (LastLba : Z) (ks : list nat) (MbrValid : bool) : bool :=
  match ks with
  | [] => MbrValid
  | i :: ks =>
      if null_entry Mbr i then valid_loop Mbr LastLba ks MbrValid
      else if LastLba <? end_lba Mbr i then false
      else if valid_rest Mbr i ks then valid_loop Mbr LastLba ks true else false
  end.

Definition PartitionValidMbr (Mbr : list Z) (LastLba : Z) : bool :=
  if negb (mbr_signature Mbr =? MBR_SIGNATURE) then false else valid_loop Mbr LastLba (seq 0 4) false.

Section Formats.
Context {D : Type} `{DiskIo D} (m : EFI_BLOCK_IO_MEDIA).

Definition mbr_node (Number Start Size : Z) (Signature : list Z) : DevNode := HardDrive {|
  hd_PartitionNumber := Number; hd_PartitionStart := Start; hd_PartitionSize := Size; hd_Signature := Signature ++ replicate 12 0;
  hd_MBRType := 1; hd_SignatureType := 1 |}.

(** The primary partitions; the protective entry ends the loop. *)
Fixpoint install_primary (Mbr : list Z) (ks : list nat) (PartitionNumber : Z) (Found : EFI_STATUS) : M (Part D) EFI_STATUS :=
  match ks with
  | [] => mret Found
  | i :: ks =>
      if null_entry Mbr i then install_primary Mbr ks PartitionNumber Found
      else if OSIndicator Mbr i =? PMBR_GPT_PARTITION then mret EFI_NOT_FOUND
      else
        let Start := StartLBA Mbr i in
        let Size := SizeInLBA Mbr i in
        Status ← PartitionInstallChildHandle m (mbr_node PartitionNumber Start Size (slice 440 4 Mbr)) Start (wrap64 (Start + Size - 1)) MBR_SIZE
                   (OSIndicator Mbr i =? EFI_PARTITION);
        install_primary Mbr ks (wrap32 (PartitionNumber + 1)) (if EFI_ERROR Status then Found else EFI_SUCCESS)
  end.

(** One boot record of the chain: the status, and where the next one is. *)
Definition extended_step (Parent : HARDDRIVE_DEVICE_PATH) (Ext PartitionNumber : Z) (Found : EFI_STATUS)
    : M (Part D) (EFI_STATUS * option (Z * Z)) :=
  r ← read_disk m (MultU64x32 Ext (BlockSize m)) (BlockSize m);
  if EFI_ERROR r.1 then mret (r.1, None) else
  let Mbr := r.2 in
  if SizeInLBA Mbr 0 =? 0 then mret (Found, None) else
  if is_extended Mbr 0 then mret (Found, Some (StartLBA Mbr 0, PartitionNumber)) else
  let Start := wrap64 (wrap32 (StartLBA Mbr 0 + Ext) + hd_PartitionStart Parent) in
  let Size := SizeInLBA Mbr 0 in
  if (wrap64 (hd_PartitionStart Parent + hd_PartitionSize Parent) <=? wrap64 (Start + Size - 1)) || (Start <=? hd_PartitionStart Parent)
  then mret (Found, None) else
  Status ← PartitionInstallChildHandle m (mbr_node PartitionNumber Start Size (replicate 4 0)) (wrap64 (Start - hd_PartitionStart Parent))
             (wrap64 (Start - hd_PartitionStart Parent + Size - 1)) MBR_SIZE (OSIndicator Mbr 0 =? EFI_PARTITION);
  let Found := if EFI_ERROR Status then Found else EFI_SUCCESS in
  if negb (is_extended Mbr 1) then mret (Found, None) else
  if StartLBA Mbr 1 =? 0 then mret (Found, None) else
  mret (Found, Some (StartLBA Mbr 1, wrap32 (PartitionNumber + 1))).

(** The chain of logical drives; [None] if it takes more than [fuel] records. *)
Fixpoint install_extended (fuel : nat) (Parent : HARDDRIVE_DEVICE_PATH) (Ext PartitionNumber : Z) (Found : EFI_STATUS) : M (Part D) EFI_STATUS :=
  match fuel with
  | O => undef
  | S fuel =>
      r ← extended_step Parent Ext PartitionNumber Found;
      match r.2 with
      | None => mret r.1
      | Some (Ext, PartitionNumber) =>
          if Ext <? hd_PartitionSize Parent then install_extended fuel Parent Ext PartitionNumber r.1 else mret r.1
      end
  end.

(** [DevicePath] of the parent: an extended partition is a hard drive node. *)
Definition PartitionInstallMbrChildHandles (fuel : nat) (DevicePath : list DevNode) : M (Part D) EFI_STATUS :=
  ok ← alloc (BlockSize m);
  if negb ok then mret EFI_NOT_FOUND else
  r ← read_disk m 0 (BlockSize m);
  if EFI_ERROR r.1 then mret r.1 else
  if BlockSize m <? MBR_SIZE then undef else
  if negb (PartitionValidMbr r.2 (LastBlock m)) then mret EFI_NOT_FOUND else
  match last DevicePath with
  | Some (HardDrive Parent) => install_extended fuel Parent 0 1 EFI_NOT_FOUND
  | _ => install_primary r.2 (seq 0 4) 1 EFI_NOT_FOUND
  end.

(** ** Apple's partition map *)

(** Big-endian fields. *)
Definition be_load (n off : nat) (b : list Z) : Z := le_get (reverse (slice off n b)).

(** The loop over the map; [Block] keeps what a shorter read does not overwrite. *)
Fixpoint apple_loop (fuel : nat) (SubBlockSize BlkPerSec Partition PartitionEntries : Z) (Block : list Z) (Found : EFI_STATUS)
    : M (Part D) EFI_STATUS :=
  if PartitionEntries <? Partition then mret Found else
  match fuel with
  | O => undef
  | S fuel =>
      r ← read_disk m (MultU64x32 Partition SubBlockSize) SubBlockSize;
      if EFI_ERROR r.1 then mret Found else
      let Block := store 0 r.2 Block in
      if negb (be_load 2 0 Block =? 0x504D)
      then apple_loop fuel SubBlockSize BlkPerSec (wrap32 (Partition + 1)) PartitionEntries Block Found else
      let PartitionEntries := if Partition =? 1 then be_load 4 4 Block else PartitionEntries in
      let Start := be_load 4 8 Block / BlkPerSec in
      let Size := be_load 4 12 Block / BlkPerSec in
      Status ← PartitionInstallChildHandle m (CdRom {| cd_BootEntry := 0; cd_PartitionStart := Start; cd_PartitionSize := Size |})
                 Start (wrap64 (Start + Size - 1)) SubBlockSize false;
      apple_loop fuel SubBlockSize BlkPerSec (wrap32 (Partition + 1)) PartitionEntries Block (if EFI_ERROR Status then Found else EFI_SUCCESS)
  end.

(** A block size of 0 in the map is a division by zero. *)
Definition PartitionInstallAppleChildHandles (fuel : nat) : M (Part D) EFI_STATUS :=
  ok ← alloc (BlockSize m);
  if negb ok then mret EFI_NOT_FOUND else
  r ← read_disk m (MultU64x32 0 (BlockSize m)) (BlockSize m);
  if EFI_ERROR r.1 then mret r.1 else
  if BlockSize m <? 16 then undef else
  if negb (be_load 2 0 r.2 =? 0x4552) then mret EFI_NOT_FOUND else
  let SubBlockSize := be_load 2 2 r.2 in
  if SubBlockSize =? 0 then undef else
  let BlkPerSec := BlockSize m / SubBlockSize in
  if negb (BlockSize m =? wrap32 (SubBlockSize * BlkPerSec)) then mret EFI_NOT_FOUND else
  apple_loop fuel SubBlockSize BlkPerSec 1 1 r.2 EFI_NOT_FOUND.

(** ** El Torito *)

Definition SIZE_2KB : Z := 2048.
Definition SIZE_32KB : Z := 32768.
Definition CDVOL_TYPE_END : Z := 0xFF.
Definition CDVOL_TYPE_CODED : Z := 1.

Definition media_sectors (MediaType SectorCount : Z) : Z * Z :=
  if MediaType =? 0 then (SectorCount, BlockSize m)
  else if MediaType =? 4 then (SectorCount, 512)
  else if MediaType =? 1 then (0x50 * 0x02 * 0x0F, 512)
  else if MediaType =? 2 then (0x50 * 0x02 * 0x12, 512)
  else if MediaType =? 3 then (0x50 * 0x02 * 0x24, 512)
  else (0, BlockSize m).

(** The size of a boot entry in blocks. *)
Definition boot_size (VolSpaceSize Lba SectorCount SubBlockSize : Z) : Z :=
  if SectorCount <? 2 then
    if wrap64 (LastBlock m + 1) <? VolSpaceSize then wrap32 (LastBlock m - Lba + 1) else wrap32 (VolSpaceSize - Lba)
  else wrap64 (MultU64x32 SectorCount SubBlockSize + BlockSize m - 1) / BlockSize m.

(** The entries of the catalog from [Index] on. *)
Fixpoint boot_entries (n : nat) (Buffer : list Z) (VolSpaceSize : Z) (Index : nat) (BootEntry : Z) (Found : EFI_STATUS) : M (Part D) EFI_STATUS :=
  match n with
  | O => mret Found
  | S n =>
      let e := drop (32 * Index) Buffer in
      let Lba := load 4 8 e in
      if negb (load 1 0 e =? 0x88) || (Lba =? 0) then boot_entries n Buffer VolSpaceSize (S Index) BootEntry Found else
      let '(SectorCount, SubBlockSize) := media_sectors (Z.land (load 1 1 e) 0xF) (wrap32 (load 2 6 e * (SIZE_2KB / BlockSize m))) in
      let BootEntry := if (Index =? 1)%nat then 0 else BootEntry in
      let SectorCount := if (Index =? 1)%nat then 0 else SectorCount in
      let Start := wrap32 (Lba * (SIZE_2KB / BlockSize m)) in
      let Size := boot_size VolSpaceSize Lba SectorCount SubBlockSize in
      Status ← PartitionInstallChildHandle m
                 (CdRom {| cd_BootEntry := wrap32 BootEntry; cd_PartitionStart := (if SectorCount <? 2 then 0 else Start); cd_PartitionSize := Size |})
                 Start (MultU64x32 (wrap64 (Lba + Size - 1)) (SIZE_2KB / BlockSize m)) SubBlockSize false;
      boot_entries n Buffer VolSpaceSize (S Index) (BootEntry + 1) (if EFI_ERROR Status then Found else EFI_SUCCESS)
  end.

(** The sum of the 16-bit words of the first entry. *)
Definition catalog_sum (Buffer : list Z) : Z := foldr Z.add 0 ((λ i, load 2 (2 * i) Buffer) <$> seq 0 16).

(** The loop over the volume descriptors.  [Catalog] is the pointer into the 2 KB buffer,
    which the loop over the entries moves and nothing sets back; reading a catalog to a
    moved pointer writes outside the buffer. *)
Fixpoint volume_loop (fuel : nat) (Offset VolSpaceSize : Z) (Catalog : nat) (Found : EFI_STATUS) : M (Part D) EFI_STATUS :=
  if MultU64x32 (LastBlock m) (BlockSize m) <? Offset then mret Found else
  match fuel with
  | O => undef
  | S fuel =>
      r ← read_disk m Offset SIZE_2KB;
      if EFI_ERROR r.1 then mret r.1 else
      let V := r.2 in
      if (load 1 0 V =? CDVOL_TYPE_END) || negb (bool_decide (slice 1 5 V = str_bytes "CD001")) then mret Found else
      let VolSpaceSize := if load 1 0 V =? CDVOL_TYPE_CODED then load 4 80 V else VolSpaceSize in
      let next := volume_loop fuel (wrap64 (Offset + SIZE_2KB)) VolSpaceSize in
      if negb (bool_decide (slice 7 23 V = str_bytes "EL TORITO SPECIFICATION")) then next Catalog Found else
      let Lba2KB := load 4 71 V in
      if LastBlock m <? wrap32 (Lba2KB * (SIZE_2KB / BlockSize m)) then next Catalog Found else
      r ← read_disk m (MultU64x32 Lba2KB SIZE_2KB) SIZE_2KB;
      if EFI_ERROR r.1 then next Catalog Found else
      if negb (Catalog =? 0)%nat then undef else
      let Buffer := r.2 in
      if negb (load 1 0 Buffer =? 1) || negb (load 2 30 Buffer =? 0xAA55) then next Catalog Found else
      if negb (Z.land (catalog_sum Buffer) 0xFFFF =? 0) then next Catalog Found else
      let MaxIndex := Z.to_nat (BlockSize m / 32) in
      Found ← boot_entries (MaxIndex - 1) Buffer VolSpaceSize 1 1 Found;
      next (Catalog + 32 * (MaxIndex - 1))%nat Found
  end.

Definition PartitionInstallElToritoChildHandles : M (Part D) EFI_STATUS :=
  if BlockSize m =? 0 then undef else
  if negb (SIZE_2KB mod BlockSize m =? 0) || (SIZE_2KB <? BlockSize m) then mret EFI_NOT_FOUND else
  ok ← alloc SIZE_2KB;
  if negb ok then mret EFI_NOT_FOUND else
  volume_loop (Z.to_nat (MultU64x32 (LastBlock m) (BlockSize m) / SIZE_2KB + 1)) SIZE_32KB 0 0 EFI_NOT_FOUND.

(** ** Detection *)

Definition stops (Status : EFI_STATUS) : bool :=
  negb (EFI_ERROR Status) || bool_decide (Status = EFI_MEDIA_CHANGED) || bool_decide (Status = EFI_NO_MEDIA).

(** The loop over mPartitionDetectRoutineTable. *)
Fixpoint detect_loop (routines : list (M (Part D) EFI_STATUS)) (Status : EFI_STATUS) : M (Part D) EFI_STATUS :=
  match routines with
  | [] => mret Status
  | f :: routines => Status ← f; if stops Status then mret Status else detect_loop routines Status
  end.

Definition detect (CalculateCrc32 : list Z → option Z) (fuel : nat) (DevicePath : list DevNode) : M (Part D) EFI_STATUS :=
  if MediaPresent m || (RemovableMedia m && negb (LogicalPartition m)) then
    detect_loop [PartitionInstallGptChildHandles m CalculateCrc32; PartitionInstallAppleChildHandles fuel;
                 PartitionInstallElToritoChildHandles; PartitionInstallMbrChildHandles fuel DevicePath] EFI_UNSUPPORTED
  else mret EFI_UNSUPPORTED.
End Formats.
