(* ===== verification/PartMbrTheorems.v ===== *)
(** * PartitionDxe: properties of the master boot record and of the detection *)

From Stdlib Require Import ZArith Lia.
From stdpp Require Import base list list_numbers strings.
From S2P Require Import Prelude PartDisk PartGpt PartGptProofs PartGptEntries PartGptTheorems PartMbr PartDemo.

Open Scope Z_scope.

(** ** Valid boot records *)

Abbreviation used b i := (null_entry b i = false).

(** The entries [i] and [j] share no block. *)
Definition mbr_apart (b : list Z) (i j : nat) : Prop :=
  StartLBA b i + SizeInLBA b i ≤ StartLBA b j ∨ StartLBA b j + SizeInLBA b j ≤ StartLBA b i.

(** No entry in use ends after block 2^32 - 1. *)
Definition no_wrap (b : list Z) : Prop := ∀ i, (i < 4)%nat → used b i → StartLBA b i + SizeInLBA b i ≤ 2 ^ 32.

Lemma forall_elem_cons {A} (P : A → Prop) y (l : list A) : (∀ x, x ∈ y :: l → P x) ↔ P y ∧ ∀ x, x ∈ l → P x.
Proof. setoid_rewrite elem_of_cons. naive_solver. Qed.

Lemma fop_lookup {A} (R : A → A → Prop) (l : list A) i j x y : ForallOrdPairs R l → l !! i = Some x → l !! j = Some y → (i < j)%nat → R x y.
Proof.
  intros Hf. revert i j. induction Hf as [|z l Hz Hf IH]; intros i j Hi Hj Hij; [done|]. destruct j as [|j]; [lia|]. destruct i as [|i].
  - injection Hi as ->. rewrite Forall_forall in Hz. by apply Hz, (list_elem_of_lookup_2 _ j).
  - apply (IH i j); [done|done|lia].
Qed.

Section Valid.
Context (b : list Z) (Hb : Forall is_byte b) (Hl : (512 ≤ length b)%nat) (Hw : no_wrap b).

Lemma entry_range i : (i < 4)%nat → 0 ≤ StartLBA b i ∧ 0 ≤ SizeInLBA b i.
Proof.
  intros Hi. pose proof (load_range 4 (454 + 16 * i) b Hb ltac:(lia)). pose proof (load_range 4 (458 + 16 * i) b Hb ltac:(lia)).
  unfold StartLBA, SizeInLBA. lia.
Qed.

Lemma used_end i : (i < 4)%nat → used b i → 0 < SizeInLBA b i ∧ end_lba b i = StartLBA b i + SizeInLBA b i - 1.
Proof.
  intros Hi Hu. pose proof (entry_range i Hi). pose proof (Hw i Hi Hu). unfold null_entry in Hu. zbool.
  split; [lia|]. apply wrap32_small. lia.
Qed.

Lemma valid_rest_iff i js : (i < 4)%nat → used b i → (∀ j, j ∈ js → (j < 4)%nat) →
  valid_rest b i js = true ↔ ∀ j, j ∈ js → used b j → mbr_apart b i j.
Proof.
  intros Hi Hu. destruct (used_end i Hi Hu) as [Si Ei]. induction js as [|j js IH]; intros Hj; cbn [valid_rest].
  { split; [|done]. intros _ j Hj'. by apply not_elem_of_nil in Hj'. }
  assert (j < 4)%nat as Hj4 by (apply Hj, list_elem_of_here).
  rewrite forall_elem_cons. specialize (IH (λ k Hk, Hj k (list_elem_of_further _ _ _ Hk))).
  destruct (null_entry b j) eqn:En; [rewrite IH; naive_solver|]. destruct (used_end j Hj4 En) as [Sj Ej]. rewrite Ei, Ej.
  destruct (_ && _) eqn:Eo.
  - split; [done|]. intros [Ha _]. zbool. destruct (Ha eq_refl); unfold mbr_apart in *; lia.
  - rewrite IH. split; [|by intros [_ ?]]. intros Hr. split; [|done]. intros _. apply andb_false_iff in Eo as [Eo|Eo]; apply Z.leb_gt in Eo; unfold mbr_apart; lia.
Qed.

Lemma valid_loop_iff LastLba ks v : (∀ k, k ∈ ks → (k < 4)%nat) →
  valid_loop b LastLba ks v = true ↔ (v = true ∨ ∃ i, i ∈ ks ∧ used b i) ∧
    (∀ i, i ∈ ks → used b i → StartLBA b i + SizeInLBA b i - 1 ≤ LastLba) ∧
    ForallOrdPairs (λ i j, used b i → used b j → mbr_apart b i j) ks.
Proof.
  revert v. induction ks as [|k ks IH]; intros v Hk; cbn [valid_loop].
  { split; [intros ->|intros [[|(i & Hi & _)] _]; [done|by apply not_elem_of_nil in Hi]].
    split; [by left|]. split; [|constructor]. intros i Hi. by apply not_elem_of_nil in Hi. }
  assert (k < 4)%nat as Hk4 by (apply Hk, list_elem_of_here). specialize (λ v, IH v (λ i Hi, Hk i (list_elem_of_further _ _ _ Hi))).
  assert (∀ P, ForallOrdPairs P (k :: ks) ↔ Forall (P k) ks ∧ ForallOrdPairs P ks) as Hf
    by (intros P; split; [by inversion 1|intros []; by constructor]).
  rewrite Hf, forall_elem_cons, Forall_forall. destruct (null_entry b k) eqn:En.
  { rewrite IH. setoid_rewrite elem_of_cons. split.
    - intros ([?|(i & ? & ?)] & H2 & H3); (split; [|split; [split; [congruence|done]|split; [congruence|done]]]); [by left|right; eauto].
    - intros (H1 & [_ H2] & _ & H3). split; [|done]. destruct H1 as [?|(i & [->|?] & ?)]; [by left|congruence|right; eauto]. }
  destruct (used_end k Hk4 En) as [Sk Ek]. rewrite Ek. destruct (Z.ltb_spec LastLba (StartLBA b k + SizeInLBA b k - 1)) as [Hlt|Hlt].
  { split; [done|]. intros (_ & [H2 _] & _). specialize (H2 eq_refl). lia. }
  destruct (valid_rest b k ks) eqn:Er.
  - rewrite IH. rewrite (valid_rest_iff k ks Hk4 En) in Er by (intros j Hj; apply Hk; by apply list_elem_of_further). split.
    + intros (_ & H2 & H3). split; [right; exists k; split; [apply list_elem_of_here|done]|]. split; [split; [lia|done]|]. split; [|done]. intros j Hj _. by apply Er.
    + intros (_ & [_ H2] & _ & H3). split; [by left|done].
  - split; [done|]. intros (_ & _ & H2 & _). apply not_true_iff_false in Er. destruct Er.
    apply valid_rest_iff; [done|done|intros j Hj; apply Hk; by apply list_elem_of_further|]. intros j Hj. by apply H2.
Qed.

End Valid.

Lemma mbr_valid_iff_lemma b LastLba : Forall is_byte b → (512 ≤ length b)%nat → no_wrap b →
  PartitionValidMbr b LastLba = true ↔ mbr_signature b = MBR_SIGNATURE ∧ (∃ i, (i < 4)%nat ∧ used b i) ∧
    (∀ i, (i < 4)%nat → used b i → StartLBA b i + SizeInLBA b i - 1 ≤ LastLba) ∧
    ∀ i j, (i < j < 4)%nat → used b i → used b j → mbr_apart b i j.
Proof.
  intros Hb Hl Hw. unfold PartitionValidMbr. destruct (Z.eqb_spec (mbr_signature b) MBR_SIGNATURE) as [Hs|Hs]; cbn [negb]; [|split; [done|naive_solver]].
  assert (∀ i, i ∈ seq 0 4 ↔ (i < 4)%nat) as Hin by (intros i; rewrite elem_of_seq; lia).
  rewrite (valid_loop_iff b Hb Hl Hw) by (intros k; by rewrite Hin). setoid_rewrite Hin.
  assert (ForallOrdPairs (λ i j, used b i → used b j → mbr_apart b i j) (seq 0 4) ↔ ∀ i j, (i < j < 4)%nat → used b i → used b j → mbr_apart b i j) as ->.
  { split.
    - intros Hf i j Hij. apply (fop_lookup _ _ i j i j Hf); [by apply lookup_seq; lia..|lia].
    - intros Hall. cbn [seq]. repeat first [apply FOP_nil | apply FOP_cons | apply Forall_nil_2 | apply Forall_cons_2]; apply Hall; lia. }
  split; [intros ([|H1] & H2 & H3); [done|done]|intros (_ & H1 & H2 & H3); split; [by right|done]].
Qed.

(** A boot record whose entries end below block 2^32 is accepted exactly if it has the
    signature and an entry in use, every entry in use lies on the disk, and no two of them
    share a block. *)
Theorem mbr_valid_iff b LastLba : Forall is_byte b → (512 ≤ length b)%nat → no_wrap b →
  PartitionValidMbr b LastLba = true ↔ mbr_signature b = MBR_SIGNATURE ∧ (∃ i, (i < 4)%nat ∧ used b i) ∧
    (∀ i, (i < 4)%nat → used b i → StartLBA b i + SizeInLBA b i - 1 ≤ LastLba) ∧
    ∀ i j, (i < j < 4)%nat → used b i → used b j → mbr_apart b i j.
Proof. apply mbr_valid_iff_lemma. Qed.

Lemma fop_seq n k : ForallOrdPairs (λ i j, (i < j)%nat) (seq k n).
Proof.
  revert k. induction n as [|n IH]; intros k; cbn; constructor; [|apply IH]. apply Forall_forall. intros i Hi. apply elem_of_seq in Hi. lia.
Qed.

Lemma fop_children {A B} (R : A → A → Prop) (R' : B → B → Prop) (f : Z → A → B) k (l : list A) :
  ForallOrdPairs R l → (∀ x y i j, x ∈ l → y ∈ l → R x y → R' (f i x) (f j y)) → ForallOrdPairs R' (imap (λ i x, f (k + Z.of_nat i) x) l).
Proof.
  intros Hf. revert k. induction Hf as [|x l Hx Hf IH]; intros k HR; cbn; constructor.
  - apply Forall_forall. intros c Hc. apply list_elem_of_lookup in Hc as (i & Hi). rewrite list_lookup_imap in Hi. apply fmap_Some in Hi as (y & Hy & ->).
    apply list_elem_of_lookup_2 in Hy. rewrite Forall_forall in Hx. apply HR; [apply list_elem_of_here|by apply list_elem_of_further|by apply Hx].
  - rewrite (imap_ext _ (λ i x, f (k + 1 + Z.of_nat i) x)) by (intros; unfold compose; f_equal; lia).
    apply IH. intros. apply HR; [by apply list_elem_of_further..|done].
Qed.

(** ** The partitions of a boot record *)

Section Children.
Context {D : Type} `{DiskIoLaws D} (m : EFI_BLOCK_IO_MEDIA) (Hbs : 512 ≤ BlockSize m < 2 ^ 32).
Implicit Types s : Part D.
Abbreviation BS := (BlockSize m).
Abbreviation disk s := (bytes (p_disk s)).

Definition mbr_child (b : list Z) (Number : Z) (i : nat) : PARTITION_PRIVATE_DATA := {|
  p_Node := mbr_node Number (StartLBA b i) (SizeInLBA b i) (slice 440 4 b); p_Start := MultU64x32 (StartLBA b i) BS;
  p_End := MultU64x32 (wrap64 (wrap64 (StartLBA b i + SizeInLBA b i - 1) + 1)) BS; p_BlockSize := MBR_SIZE;
  p_LastBlock := wrap64 (MultU64x32 (wrap64 (wrap64 (StartLBA b i + SizeInLBA b i - 1) - StartLBA b i + 1)) BS / MBR_SIZE - 1);
  p_Esp := OSIndicator b i =? EFI_PARTITION |}.

Definition used_entries (b : list Z) (ks : list nat) : list nat := filter (λ i, null_entry b i = false) ks.

Lemma install_primary_ok b ks N Found s : ready (p_disk s) (MediaId m) → 0 ≤ N → N + Z.of_nat (length ks) < 2 ^ 32 →
  (∀ i, i ∈ ks → used b i → OSIndicator b i ≠ PMBR_GPT_PARTITION) →
  ∃ s', install_primary m b ks N Found s = Some (match used_entries b ks with [] => Found | _ => EFI_SUCCESS end, s') ∧
    ready (p_disk s') (MediaId m) ∧ disk s' = disk s ∧
    p_children s' = p_children s ++ imap (λ k i, mbr_child b (N + Z.of_nat k) i) (used_entries b ks).
Proof.
  intros Hr HN HN' Hee. revert N Found s Hr HN HN'. induction ks as [|i ks IH]; intros N Found s Hr HN HN'; cbn [install_primary].
  { exists s. by rewrite app_nil_r. }
  cbn [length] in HN'. specialize (IH (λ j Hj, Hee j (list_elem_of_further _ _ _ Hj))). unfold used_entries. rewrite filter_cons.
  destruct (null_entry b i) eqn:En.
  - rewrite decide_False by done. apply IH; [done|lia|lia].
  - rewrite decide_True by done. destruct (Z.eqb_spec (OSIndicator b i) PMBR_GPT_PARTITION) as [Ee|_]; [by destruct (Hee i (list_elem_of_here _ _) En)|].
    destruct (install_child_ready m (mbr_node N (StartLBA b i) (SizeInLBA b i) (slice 440 4 b)) (StartLBA b i)
      (wrap64 (StartLBA b i + SizeInLBA b i - 1)) MBR_SIZE (OSIndicator b i =? EFI_PARTITION) s ltac:(done) Hr) as (s1 & E1 & Hr1 & D1 & C1).
    rewrite (bind_eq _ _ _ _ _ E1). cbn [EFI_ERROR]. rewrite wrap32_small by lia.
    destruct (IH (N + 1) EFI_SUCCESS s1 Hr1) as (s2 & E2 & Hr2 & D2 & C2); [lia|lia|]. rewrite E2. exists s2.
    split; [by destruct (used_entries b ks)|]. split; [done|]. split; [congruence|]. rewrite C2, C1, <- app_assoc. f_equal. cbn [app imap].
    f_equal; [unfold mbr_child; by rewrite Z.add_0_r|]. apply imap_ext. intros k j _. unfold compose. f_equal. lia.
Qed.

Lemma mbr_child_bounds b i N LastLba : Forall is_byte b → (512 ≤ length b)%nat → no_wrap b → (i < 4)%nat → used b i →
  StartLBA b i + SizeInLBA b i - 1 ≤ LastLba → (LastLba + 1) * BS < 2 ^ 64 →
  p_Start (mbr_child b N i) = StartLBA b i * BS ∧ p_End (mbr_child b N i) = (StartLBA b i + SizeInLBA b i) * BS ∧
  0 ≤ p_Start (mbr_child b N i) < p_End (mbr_child b N i) ∧ p_End (mbr_child b N i) ≤ (LastLba + 1) * BS.
Proof.
  intros Hb Hl Hw Hi Hu Hlast Hov. destruct (entry_range b Hb Hl i Hi) as [R1 R2]. destruct (used_end b Hb Hl Hw i Hi Hu) as [R3 _].
  pose proof (Hw i Hi Hu). cbn [mbr_child p_Start p_End]. unfold MultU64x32.
  rewrite (wrap64_small (StartLBA b i * BS)) by nia. rewrite (wrap64_small (StartLBA b i + SizeInLBA b i - 1)) by lia.
  replace (StartLBA b i + SizeInLBA b i - 1 + 1) with (StartLBA b i + SizeInLBA b i) by lia.
  rewrite (wrap64_small (StartLBA b i + SizeInLBA b i)) by lia. rewrite (wrap64_small ((StartLBA b i + SizeInLBA b i) * BS)) by nia. nia.
Qed.

(** On a disk that is no partition itself, every entry in use of a valid boot record
    without protective entry becomes a child, numbered from 1 in order; the children lie
    on the disk and share no byte. *)
Theorem mbr_children fuel path s :
  let b := region (disk s) 0 BS in
  Forall is_byte (disk s) → ready (p_disk s) (MediaId m) → BS ≤ Z.of_nat (length (disk s)) → (LastBlock m + 1) * BS < 2 ^ 64 →
  (∀ hd, last path ≠ Some (HardDrive hd)) → PartitionValidMbr b (LastBlock m) = true → no_wrap b →
  (∀ i, (i < 4)%nat → used b i → OSIndicator b i ≠ PMBR_GPT_PARTITION) →
  ∃ s', PartitionInstallMbrChildHandles m fuel path s = Some (EFI_SUCCESS, s') ∧ disk s' = disk s ∧
    let children := imap (λ k i, mbr_child b (1 + Z.of_nat k) i) (used_entries b (seq 0 4)) in
    p_children s' = p_children s ++ children ∧ children ≠ [] ∧ ForallOrdPairs apart children ∧
    Forall (λ c, 0 ≤ p_Start c < p_End c ∧ p_End c ≤ (LastBlock m + 1) * BS) children.
Proof.
  intros b Hb Hr Hl Hov Hpath Hv Hw Hee. assert (in_disk (disk s) 0 BS) as Hin by (unfold in_disk; lia).
  assert (Forall is_byte b) as Hbb by (by apply region_bytes). assert (512 ≤ length b)%nat as Hlb by (unfold b; rewrite length_region by done; lia).
  pose proof Hv as Hv'. apply (mbr_valid_iff_lemma b (LastBlock m) Hbb Hlb Hw) in Hv' as (_ & [i0 [Hi0 Hu0]] & Hend & Hap).
  unfold PartitionInstallMbrChildHandles. rewrite (bind_eq _ _ _ _ _ (alloc_ready m BS s Hr ltac:(lia))). cbn [negb].
  rewrite (bind_eq _ _ _ _ _ (read_ready m 0 BS s Hr Hin)). cbn [fst snd EFI_ERROR]. fold b.
  destruct (Z.ltb_spec BS MBR_SIZE); [unfold MBR_SIZE in *; lia|]. rewrite Hv. cbn [negb].
  destruct (install_primary_ok b (seq 0 4) 1 EFI_NOT_FOUND s Hr) as (s' & E & _ & D' & C'); [lia|cbn; lia|intros i Hi; apply Hee; apply elem_of_seq in Hi; lia|].
  assert (i0 ∈ used_entries b (seq 0 4)) as Hi0e by (apply list_elem_of_filter; split; [done|apply elem_of_seq; lia]).
  assert (∀ i, i ∈ used_entries b (seq 0 4) → (i < 4)%nat ∧ used b i) as Hue
    by (intros i [Hu Hi]%list_elem_of_filter; apply elem_of_seq in Hi; split; [lia|done]).
  assert (∀ i N, i ∈ used_entries b (seq 0 4) → p_Start (mbr_child b N i) = StartLBA b i * BS ∧
    p_End (mbr_child b N i) = (StartLBA b i + SizeInLBA b i) * BS ∧ 0 ≤ p_Start (mbr_child b N i) < p_End (mbr_child b N i) ∧
    p_End (mbr_child b N i) ≤ (LastBlock m + 1) * BS) as Hbd.
  { intros i N Hi. destruct (Hue i Hi) as [Hi4 Hu]. apply mbr_child_bounds; try done. by apply Hend. }
  exists s'. split; [|split; [done|split; [done|split; [|split]]]].
  - destruct (last path) as [[hd| |]|] eqn:El; [by destruct (Hpath hd)|..]; rewrite E; by destruct (used_entries b (seq 0 4)); [apply not_elem_of_nil in Hi0e|].
  - destruct (used_entries b (seq 0 4)); [by apply not_elem_of_nil in Hi0e|done].
  - apply (fop_children (mbr_apart b)); [apply fop_filter with (R := λ i j : nat, (i < j)%nat)|].
    + intros i j Hi Hj Hi4 Hj4 Hij. apply elem_of_seq in Hi4, Hj4. exact (Hap i j ltac:(lia) Hi Hj).
    + apply fop_seq.
    + intros i j N N' Hi Hj Hij. destruct (Hbd i N Hi) as (E1 & E2 & _), (Hbd j N' Hj) as (E3 & E4 & _). unfold apart. rewrite E1, E2, E3, E4.
      destruct Hij; nia.
  - apply Forall_forall. intros c Hc. apply list_elem_of_lookup in Hc as (k & Hk). rewrite list_lookup_imap in Hk. apply fmap_Some in Hk as (i & Hi & ->).
    apply Hbd. by eapply list_elem_of_lookup_2.
Qed.

(** ** Logical drives *)

Section Extended.
Context (Parent : HARDDRIVE_DEVICE_PATH).
Abbreviation PStart := (hd_PartitionStart Parent).
Abbreviation PSize := (hd_PartitionSize Parent).
Context (HP : 0 ≤ PStart ∧ 0 < PSize ∧ PStart + PSize + 2 ^ 33 < 2 ^ 64 ∧ PSize * BS < 2 ^ 64).

(** The boot record at block [e] of the extended partition. *)
Definition record_at (l : list Z) (e : Z) : list Z := region l (MultU64x32 e BS) BS.

(** A logical drive lies inside the extended partition and after its first block. *)
Definition logical (c : PARTITION_PRIVATE_DATA) : Prop := BS ≤ p_Start c ∧ p_Start c < p_End c ∧ p_End c ≤ PSize * BS.

(** The links that a record has. *)
Definition links (b : list Z) (e : Z) : Prop := (is_extended b 0 = true ∧ e = StartLBA b 0) ∨ (is_extended b 1 = true ∧ e = StartLBA b 1).

Lemma record_in l e : PSize * BS ≤ Z.of_nat (length l) → 0 ≤ e < PSize → in_disk l (MultU64x32 e BS) BS.
Proof. intros Hl He. unfold in_disk, MultU64x32. rewrite wrap64_small by nia. nia. Qed.

Lemma extended_step_ok e N Found s : Forall is_byte (disk s) → ready (p_disk s) (MediaId m) → PSize * BS ≤ Z.of_nat (length (disk s)) → 0 ≤ e < PSize →
  let b := record_at (disk s) e in
  ∃ st nx s' new, extended_step m Parent e N Found s = Some ((st, nx), s') ∧ ready (p_disk s') (MediaId m) ∧ disk s' = disk s ∧
    p_children s' = p_children s ++ new ∧ Forall logical new ∧ match nx with None => True | Some (e', _) => links b e' end.
Proof.
  intros Hb Hr Hl He b. pose proof (record_in _ e Hl He) as Hin. unfold extended_step.
  rewrite (bind_eq _ _ _ _ _ (read_ready m _ _ s Hr Hin)). cbn [fst snd EFI_ERROR]. fold (record_at (disk s) e). fold b.
  assert (Forall is_byte b) as Hbb by (by apply region_bytes). assert (length b = Z.to_nat BS) as Hlb by (by apply length_region).
  destruct (entry_range b Hbb ltac:(lia) 0) as [R1 R2]; [lia|].
  pose proof (load_range 4 454 b Hbb ltac:(lia)) as R3. pose proof (load_range 4 458 b Hbb ltac:(lia)) as R4.
  change (load 4 454 b) with (StartLBA b 0) in R3. change (load 4 458 b) with (SizeInLBA b 0) in R4. change (256 ^ Z.of_nat 4) with (2 ^ 32) in *.
  destruct (Z.eqb_spec (SizeInLBA b 0) 0); [eexists _, _, s, []; rewrite app_nil_r; by split_and!|].
  destruct (is_extended b 0) eqn:E0; [eexists _, _, s, []; rewrite app_nil_r; split_and!; try done; by left|].
  set (w := wrap32 (StartLBA b 0 + e)). assert (0 ≤ w < 2 ^ 32) as Hwr by apply wrap32_range. rewrite (wrap64_small (w + PStart)) by lia.
  rewrite (wrap64_small (PStart + PSize)) by lia. rewrite (wrap64_small (w + PStart + SizeInLBA b 0 - 1)) by lia.
  destruct (Z.leb_spec (PStart + PSize) (w + PStart + SizeInLBA b 0 - 1)) as [|Hend]; [eexists _, _, s, []; rewrite app_nil_r; by split_and!|].
  destruct (Z.leb_spec (w + PStart) PStart) as [|Hst]; [eexists _, _, s, []; rewrite app_nil_r; by split_and!|]. cbn [orb].
  replace (w + PStart - PStart) with w by lia. rewrite (wrap64_small w) by lia. rewrite (wrap64_small (w + SizeInLBA b 0 - 1)) by lia.
  edestruct (install_child_ready m) as (s1 & E1 & Hr1 & D1 & C1); [|exact Hr|rewrite (bind_eq _ _ _ _ _ E1)]; [done|].
  cbn [EFI_ERROR]. match type of C1 with _ = _ ++ [?c] => assert (logical c) as Hlog end.
  { unfold logical. cbn [p_Start p_End]. unfold MultU64x32. replace (w + SizeInLBA b 0 - 1 + 1) with (w + SizeInLBA b 0) by lia.
    rewrite (wrap64_small (w + SizeInLBA b 0)) by lia. rewrite (wrap64_small (w * BS)) by nia. rewrite wrap64_small by nia. nia. }
  destruct (is_extended b 1) eqn:E2; cbn [negb]; [|eexists _, _, s1, _; split_and!; try done; by apply Forall_singleton].
  destruct (Z.eqb_spec (StartLBA b 1) 0); eexists _, _, s1, _; (split_and!; [reflexivity|done|done|done|by apply Forall_singleton|]); [done|by right].
Qed.

(** A chain of boot records whose links lead forward ends: the driver follows it and
    returns after at most one record per block of the extended partition, and every
    logical drive that it installs lies inside the extended partition, after its first
    block. *)
Theorem logical_drives fuel N Found s :
  Forall is_byte (disk s) → ready (p_disk s) (MediaId m) → PSize * BS ≤ Z.of_nat (length (disk s)) →
  (∀ e e', 0 ≤ e < PSize → links (record_at (disk s) e) e' → e < e') → PSize ≤ Z.of_nat fuel →
  ∃ st s' new, install_extended m fuel Parent 0 N Found s = Some (st, s') ∧ disk s' = disk s ∧
    p_children s' = p_children s ++ new ∧ Forall logical new.
Proof.
  intros Hb Hr Hl Hlinks Hfuel.
  assert (∀ fuel e N Found s1, disk s1 = disk s → ready (p_disk s1) (MediaId m) → 0 ≤ e < PSize → PSize - e ≤ Z.of_nat fuel →
    ∃ st s' new, install_extended m fuel Parent e N Found s1 = Some (st, s') ∧ disk s' = disk s ∧
      p_children s' = p_children s1 ++ new ∧ Forall logical new) as Hmain; [|apply Hmain; [done|done|lia|lia]].
  clear fuel N Found Hfuel. induction fuel as [|fuel IH]; intros e N Found s1 Hd Hr1 He Hf; [lia|]. cbn [install_extended].
  rewrite <- Hd in Hb, Hl. destruct (extended_step_ok e N Found s1 Hb Hr1 Hl He) as (st & nx & s2 & new & E & Hr2 & D2 & C2 & F2 & Hn).
  rewrite (bind_eq _ _ _ _ _ E). cbn [fst snd]. destruct nx as [[e' N']|].
  - destruct (Z.ltb_spec e' PSize) as [Hlt|Hlt].
    + rewrite Hd in Hn. pose proof (Hlinks e e' He Hn). destruct (IH e' N' st s2) as (st3 & s3 & new3 & E3 & D3 & C3 & F3); [congruence|done|lia|lia|].
      exists st3, s3, (new ++ new3). split_and!; [done|done|by rewrite C3, C2, app_assoc|by apply Forall_app].
    + exists st, s2, new. split_and!; [done|congruence|done|done].
  - exists st, s2, new. split_and!; [done|congruence|done|done].
Qed.

(** C40. A chain that leads back never ends: if the first record of an extended partition starts
    with a link to block 0, which the guard against links to itself does not look at, the
    driver reads it again for ever. *)
Theorem extended_chain_hangs path fuel s :
  let b := record_at (disk s) 0 in
  ready (p_disk s) (MediaId m) → PSize * BS ≤ Z.of_nat (length (disk s)) → last path = Some (HardDrive Parent) →
  PartitionValidMbr b (LastBlock m) = true → is_extended b 0 = true → StartLBA b 0 = 0 → SizeInLBA b 0 ≠ 0 →
  PartitionInstallMbrChildHandles m fuel path s = None.
Proof.
  intros b Hr Hl Hpath Hv He Hs Hz. pose proof (record_in _ 0 Hl ltac:(lia)) as Hin. change (MultU64x32 0 BS) with 0 in Hin.
  unfold PartitionInstallMbrChildHandles. rewrite (bind_eq _ _ _ _ _ (alloc_ready m BS s Hr ltac:(lia))). cbn [negb].
  rewrite (bind_eq _ _ _ _ _ (read_ready m 0 BS s Hr Hin)). cbn [fst snd EFI_ERROR].
  destruct (Z.ltb_spec BS MBR_SIZE); [unfold MBR_SIZE in *; lia|]. change (region (disk s) 0 BS) with b. rewrite Hv, Hpath. cbn [negb].
  generalize 1 EFI_NOT_FOUND. induction fuel as [|fuel IH]; intros N Found; [done|]. cbn [install_extended].
  assert (extended_step m Parent 0 N Found s = Some ((Found, Some (0, N)), s)) as E.
  { unfold extended_step. change (MultU64x32 0 BS) with 0. rewrite (bind_eq _ _ _ _ _ (read_ready m 0 BS s Hr Hin)). cbn [fst snd EFI_ERROR].
    change (region (disk s) 0 BS) with b. destruct (Z.eqb_spec (SizeInLBA b 0) 0); [done|]. rewrite He, Hs. done. }
  rewrite (bind_eq _ _ _ _ _ E). cbn [fst snd]. destruct (Z.ltb_spec 0 PSize); [|lia]. apply IH.
Qed.
End Extended.
End Children.

(** ** Concrete disks *)

(** A partition record with the operating system indicator [os]. *)
Definition demo_record (os start size : Z) : list Z := [0; 0; 0; 0; os; 0; 0; 0] ++ le_put 4 start ++ le_put 4 size.
Definition demo_boot (r1 r2 : list Z) : list Z := replicate 446 0 ++ r1 ++ r2 ++ replicate 32 0 ++ [0x55; 0xAA].

(** Two partitions, of which the second is an EFI system partition. *)
Definition demo_mbr2 : list Z := Eval vm_compute in demo_boot (demo_record 0x07 1 3) (demo_record 0xEF 4 5).
Definition demo_mbr_disk : list Z := Eval vm_compute in demo_mbr2 ++ replicate 4096 0.

Lemma demo_no_wrap : no_wrap demo_mbr2.
Proof. intros i Hi _. destruct i as [|[|[|[|i]]]]; [vm_compute; discriminate..|lia]. Qed.

Lemma mbr_valid_iff_witness : mbr_signature demo_mbr2 = MBR_SIGNATURE ∧ (∃ i, (i < 4)%nat ∧ used demo_mbr2 i).
Proof.
  assert (PartitionValidMbr demo_mbr2 8 = true) as Hv by (vm_compute; reflexivity).
  rewrite mbr_valid_iff in Hv; [|apply bytes_check; vm_compute; reflexivity|vm_compute; lia|exact demo_no_wrap].
  destruct Hv as (H1 & H2 & _). split; [exact H1|exact H2].
Defined.

Lemma mbr_children_witness : ∃ s', PartitionInstallMbrChildHandles demo_media 0 [] (demo_part demo_mbr_disk true) = Some (EFI_SUCCESS, s') ∧
  ForallOrdPairs apart (p_children s').
Proof.
  destruct (mbr_children demo_media ltac:(cbn; lia) 0 [] (demo_part demo_mbr_disk true)) as (s' & E & _ & C & _ & Ha & _).
  - apply bytes_check. vm_compute. reflexivity.
  - reflexivity.
  - vm_compute. discriminate.
  - vm_compute. reflexivity.
  - intros hd Hhd. discriminate Hhd.
  - vm_compute. reflexivity.
  - exact demo_no_wrap.
  - intros i Hi _. destruct i as [|[|[|[|i]]]]; [vm_compute; discriminate..|lia].
  - exists s'. split; [exact E|]. rewrite C. exact Ha.
Defined.

(** An extended partition of four blocks: a drive in block 1 and a second record in block 2,
    which describes a drive in block 3. *)
Definition demo_parent : HARDDRIVE_DEVICE_PATH := {|
  hd_PartitionNumber := 2; hd_PartitionStart := 100; hd_PartitionSize := 4; hd_Signature := []; hd_MBRType := 1; hd_SignatureType := 1 |}.
Definition demo_chain : list Z := Eval vm_compute in
  demo_boot (demo_record 0x07 1 1) (demo_record 0x05 2 2) ++ replicate 512 0 ++ demo_boot (demo_record 0x07 1 1) (demo_record 0 0 0) ++ replicate 512 0.

Lemma logical_drives_witness : ∃ st s' new, install_extended demo_media 4 demo_parent 0 1 EFI_NOT_FOUND (demo_part demo_chain true) = Some (st, s') ∧
  p_children s' = new ∧ Forall (logical demo_media demo_parent) new.
Proof.
  destruct (logical_drives demo_media ltac:(cbn; lia) demo_parent ltac:(cbn; lia) 4 1 EFI_NOT_FOUND (demo_part demo_chain true))
    as (st & s' & new & E & _ & C & F).
  - apply bytes_check. vm_compute. reflexivity.
  - reflexivity.
  - vm_compute. discriminate.
  - intros e e' He. change (hd_PartitionSize demo_parent) with 4 in He.
    assert (e = 0 ∨ e = 1 ∨ e = 2 ∨ e = 3) as [->|[->|[->| ->]]] by lia; vm_compute; intros [[H1 ->]|[H1 ->]]; try discriminate H1; reflexivity.
  - vm_compute. discriminate.
  - exists st, s', new. split; [exact E|]. split; [exact C|exact F].
Defined.

(** The two drives are found. *)
Example logical_drives_found :
  (λ r, (r.1, (λ c, (p_Start c / 512, p_End c / 512)) <$> p_children r.2)) <$>
    install_extended demo_media 4 demo_parent 0 1 EFI_NOT_FOUND (demo_part demo_chain true) = Some (EFI_SUCCESS, [(1, 2); (3, 4)]).
Proof. vm_compute. reflexivity. Qed.

Definition demo_loop : list Z := Eval vm_compute in demo_boot (demo_record 0x05 0 4) (demo_record 0 0 0) ++ replicate 1536 0.

Lemma extended_chain_hangs_witness : PartitionInstallMbrChildHandles demo_media 1000 [HardDrive demo_parent] (demo_part demo_loop true) = None.
Proof.
  apply (extended_chain_hangs demo_media ltac:(cbn; lia) demo_parent ltac:(cbn; lia) [HardDrive demo_parent] 1000 (demo_part demo_loop true)).
  - reflexivity.
  - vm_compute. discriminate.
  - reflexivity.
  - vm_compute. reflexivity.
  - vm_compute. reflexivity.
  - vm_compute. reflexivity.
  - vm_compute. discriminate.
Defined.

(** The end of an entry is computed with 32 bits: an entry far beyond a disk of nine blocks
    is accepted. *)
Example mbr_wrap_accepted : PartitionValidMbr (demo_boot (demo_record 0x07 0xFFFFFFFF 2) (demo_record 0 0 0)) 8 = true.
Proof. vm_compute. reflexivity. Qed.

(** A protective entry after a partition: the partition is installed, but the driver
    reports that nothing was found. *)
Example protective_after_partition :
  (λ r, (r.1, length (p_children r.2))) <$> PartitionInstallMbrChildHandles demo_media 0 []
    (demo_part (demo_boot (demo_record 0x07 1 3) (demo_record 0xEE 4 5) ++ replicate 4096 0) true) = Some (EFI_NOT_FOUND, 1%nat).
Proof. vm_compute. reflexivity. Qed.

(** An Apple partition map with block size 0 is a division by zero. *)
Example apple_block_size_zero :
  PartitionInstallAppleChildHandles demo_media 10 (demo_part ([0x45; 0x52] ++ replicate 4606 0) true) = None.
Proof. vm_compute. reflexivity. Qed.

Definition demo_cd : EFI_BLOCK_IO_MEDIA := {|
  MediaId := 1; BlockSize := 2048; LastBlock := 19; MediaPresent := true; RemovableMedia := true; LogicalPartition := false |}.
Definition demo_pad (l : list Z) : list Z := l ++ replicate (2048 - length l) 0.
Definition demo_volume : list Z := demo_pad (0 :: str_bytes "CD001" ++ [1] ++ str_bytes "EL TORITO SPECIFICATION" ++ replicate 41 0 ++ le_put 4 18).
Definition demo_catalog : list Z := demo_pad ([1] ++ replicate 27 0 ++ [0xAA; 0x55; 0x55; 0xAA; 0x88; 0; 0; 0; 0; 0; 1; 0] ++ le_put 4 19).

(** One El Torito record gives a child; with two of them the second catalog is read to a
    pointer that was moved to the end of the buffer. *)
Example eltorito_one :
  (λ r, (r.1, length (p_children r.2))) <$> PartitionInstallElToritoChildHandles demo_cd
    (demo_part (replicate (Z.to_nat 32768) 0 ++ demo_volume ++ demo_pad [] ++ demo_catalog ++ demo_pad []) true) = Some (EFI_SUCCESS, 1%nat).
Proof. vm_compute. reflexivity. Qed.

Example eltorito_two : PartitionInstallElToritoChildHandles demo_cd
    (demo_part (replicate (Z.to_nat 32768) 0 ++ demo_volume ++ demo_volume ++ demo_catalog ++ demo_pad []) true) = None.
Proof. vm_compute. reflexivity. Qed.
