(* ===== verification/DataHub.v ===== *)
(** * DataHubDxe: the data hub (DataHub.c)

    Producers log records; each gets the next monotonic count.  Consumers read them back
    by count, and filter drivers are events that the hub signals when a record of their
    class is logged.  The state is [DATA_HUB_INSTANCE] with the task priority level and
    the events signalled so far: a handler of an event is a later call to the hub.  A
    record that is handed out is a value: consumers do not write to it.

    The lock functions are those of MdePkg's UefiLib; their ASSERTs are absent in release
    builds.  What the platform answers during a call is the argument [HubEnv]. *)

From Stdlib Require Import ZArith Lia.
From stdpp Require Import base list list_numbers.
From S2P Require Import Prelude.

Open Scope Z_scope.

(** ** Data *)

(** A record: the header without its constant fields Version and HeaderSize, and the raw
    data that follow it. *)
Record EFI_DATA_RECORD_HEADER := {
  RecordSize : Z; DataRecordGuid : list Z; ProducerName : list Z; DataRecordClass : Z; LogTime : list Z; LogMonotonicCount : Z;
  Raw : list Z
}.

(** An entry of the log: the record and the size the hub notes for it. *)
Record EFI_DATA_ENTRY := { Record_ : EFI_DATA_RECORD_HEADER; EntryRecordSize : Z }.

Record DATA_HUB_FILTER_DRIVER := {
  Event : Z; Tpl : Z; GetNextMonotonicCount : Z; ClassFilter : Z; FilterDataRecordGuid : list Z
}.

Record EFI_LOCK := { LockTpl : Z; OwnerTpl : Z; LockAcquired : bool }.

Record DATA_HUB_INSTANCE := {
  DataLock : EFI_LOCK; GlobalMonotonicCount : Z; DataListHead : list EFI_DATA_ENTRY; FilterDriverListHead : list DATA_HUB_FILTER_DRIVER;
  (** the platform: the current task priority level, the events signalled *)
  CurrentTpl : Z; Signalled : list Z
}.

Record HubEnv := { GetTime : list Z; AllocatePool : Z → bool }.

Definition TPL_APPLICATION : Z := 4.
Definition TPL_CALLBACK : Z := 8.
Definition TPL_NOTIFY : Z := 16.

Definition sizeof_EFI_DATA_RECORD_HEADER : Z := 72.
Definition sizeof_EFI_DATA_ENTRY : Z := 40.
Definition sizeof_DATA_HUB_FILTER_DRIVER : Z := 72.

(** DEBUG, ERROR, DATA and PROGRESS_CODE. *)
Definition all_classes : Z := Z.lor (Z.lor (Z.lor 1 2) 4) 8.

Definition zero_guid : list Z := replicate 16 0.
Definition IsZeroGuid (g : list Z) : bool := bool_decide (g = zero_guid).
Definition CompareGuid (g h : list Z) : bool := bool_decide (g = h).

(** ** State updates *)

Definition set_lock (l : EFI_LOCK) (tpl : Z) (s : DATA_HUB_INSTANCE) : DATA_HUB_INSTANCE :=
  {| DataLock := l; GlobalMonotonicCount := GlobalMonotonicCount s; DataListHead := DataListHead s;
     FilterDriverListHead := FilterDriverListHead s; CurrentTpl := tpl; Signalled := Signalled s |}.
Definition set_log (n : Z) (l : list EFI_DATA_ENTRY) (s : DATA_HUB_INSTANCE) : DATA_HUB_INSTANCE :=
  {| DataLock := DataLock s; GlobalMonotonicCount := n; DataListHead := l;
     FilterDriverListHead := FilterDriverListHead s; CurrentTpl := CurrentTpl s; Signalled := Signalled s |}.
Definition set_filters (fs : list DATA_HUB_FILTER_DRIVER) (s : DATA_HUB_INSTANCE) : DATA_HUB_INSTANCE :=
  {| DataLock := DataLock s; GlobalMonotonicCount := GlobalMonotonicCount s; DataListHead := DataListHead s;
     FilterDriverListHead := fs; CurrentTpl := CurrentTpl s; Signalled := Signalled s |}.
Definition set_signalled (es : list Z) (s : DATA_HUB_INSTANCE) : DATA_HUB_INSTANCE :=
  {| DataLock := DataLock s; GlobalMonotonicCount := GlobalMonotonicCount s; DataListHead := DataListHead s;
     FilterDriverListHead := FilterDriverListHead s; CurrentTpl := CurrentTpl s; Signalled := es |}.

Definition SignalEvent (e : Z) : M DATA_HUB_INSTANCE unit := modify (λ s, set_signalled (Signalled s ++ [e]) s).

(** ** Locks (UefiLib.c) *)

(** Raising the level below the current one is undefined. *)
Definition raise_and_own (s : DATA_HUB_INSTANCE) : option (unit * DATA_HUB_INSTANCE) :=
  let l := DataLock s in
  if LockTpl l <? CurrentTpl s then None
  else Some (tt, set_lock {| LockTpl := LockTpl l; OwnerTpl := CurrentTpl s; LockAcquired := true |} (LockTpl l) s).

Definition EfiAcquireLock : M DATA_HUB_INSTANCE unit := raise_and_own.

Definition EfiAcquireLockOrFail : M DATA_HUB_INSTANCE EFI_STATUS :=
  held ← gets (λ s, LockAcquired (DataLock s));
  if held : bool then mret EFI_ACCESS_DENIED
  else raise_and_own;; mret EFI_SUCCESS.

Definition EfiReleaseLock : M DATA_HUB_INSTANCE unit :=
  modify (λ s, let l := DataLock s in
               set_lock {| LockTpl := LockTpl l; OwnerTpl := OwnerTpl l; LockAcquired := false |} (OwnerTpl l) s).

Definition EfiInitializeLock (priority : Z) : EFI_LOCK :=
  {| LockTpl := priority; OwnerTpl := TPL_APPLICATION; LockAcquired := false |}.

(** ** Logging *)

(** The filter is signalled for records of this class and GUID. *)
Definition interested (class : Z) (guid : list Z) (f : DATA_HUB_FILTER_DRIVER) : bool :=
  negb (Z.land (ClassFilter f) class =? 0)
  && (IsZeroGuid (FilterDataRecordGuid f) || CompareGuid (FilterDataRecordGuid f) guid).

Fixpoint signal_filters (class : Z) (guid : list Z) (fs : list DATA_HUB_FILTER_DRIVER) : M DATA_HUB_INSTANCE unit :=
  match fs with
  | [] => mret tt
  | f :: fs =>
      (if interested class guid f then SignalEvent (Event f) else mret tt);;
      signal_filters class guid fs
  end.

(** The header and the data are written into the [TotalSize] bytes that were allocated;
    reading past [RawData] or writing past the entry is undefined. *)
Definition DataHubLogData (env : HubEnv) (guid producer : list Z) (class : Z) (RawData : list Z) (RawDataSize : Z) : M DATA_HUB_INSTANCE EFI_STATUS :=
  let RecordSize := wrap32 (sizeof_EFI_DATA_RECORD_HEADER + RawDataSize) in
  let TotalSize := wrap32 (sizeof_EFI_DATA_ENTRY + RecordSize) in
  tpl ← gets CurrentTpl;
  let LogTime := if tpl <=? TPL_CALLBACK then GetTime env else replicate 16 0 in
  Status ← EfiAcquireLockOrFail;
  if EFI_ERROR Status then mret Status
  else if negb (AllocatePool env TotalSize) then EfiReleaseLock;; mret EFI_OUT_OF_RESOURCES
  else if TotalSize <? sizeof_EFI_DATA_ENTRY + sizeof_EFI_DATA_RECORD_HEADER + RawDataSize then undef
  else if Z.of_nat (length RawData) <? RawDataSize then undef
  else
    n ← gets (λ s, wrap64 (GlobalMonotonicCount s + 1));
    let Record := {| RecordSize := RecordSize; DataRecordGuid := guid; ProducerName := producer; DataRecordClass := class;
                     LogTime := LogTime; LogMonotonicCount := n; Raw := take (Z.to_nat RawDataSize) RawData |} in
    let LogEntry := {| Record_ := Record; EntryRecordSize := sizeof_EFI_DATA_ENTRY + RawDataSize |} in
    modify (λ s, set_log n (DataListHead s ++ [LogEntry]) s);;
    EfiReleaseLock;;
    fs ← gets FilterDriverListHead;
    signal_filters class guid fs;;
    mret EFI_SUCCESS.

(** ** Reading *)

(** The record is of one of the classes. *)
Definition in_class (c : Z) (e : EFI_DATA_ENTRY) : bool := negb (Z.land (DataRecordClass (Record_ e)) c =? 0).

Definition count (e : EFI_DATA_ENTRY) : Z := LogMonotonicCount (Record_ e).

(** The count of the next record of the class, or zero. *)
Fixpoint next_mtc (c : Z) (l : list EFI_DATA_ENTRY) : Z :=
  match l with
  | [] => 0
  | e :: l => if in_class c e then count e else next_mtc c l
  end.

Fixpoint find_record (c cur : Z) (ReturnFirstEntry : bool) (l : list EFI_DATA_ENTRY) : option EFI_DATA_RECORD_HEADER * Z :=
  match l with
  | [] => (None, cur)
  | e :: l =>
      if negb (in_class c e) then find_record c cur ReturnFirstEntry l
      else if (count e =? cur) || ReturnFirstEntry then (Some (Record_ e), next_mtc c l)
      else find_record c cur ReturnFirstEntry l
  end.

Definition GetNextDataRecord (l : list EFI_DATA_ENTRY) (c cur : Z) : option EFI_DATA_RECORD_HEADER * Z :=
  find_record c cur (cur =? 0) l.

Fixpoint FindFilterDriverByEvent (fs : list DATA_HUB_FILTER_DRIVER) (ev : Z) : option DATA_HUB_FILTER_DRIVER :=
  match fs with
  | [] => None
  | f :: fs => if Event f =? ev then Some f else FindFilterDriverByEvent fs ev
  end.

(** [FilterDriver->GetNextMonotonicCount = n] for the filter that was found. *)
Fixpoint set_next (ev n : Z) (fs : list DATA_HUB_FILTER_DRIVER) : list DATA_HUB_FILTER_DRIVER :=
  match fs with
  | [] => []
  | f :: fs =>
      if Event f =? ev
      then {| Event := Event f; Tpl := Tpl f; GetNextMonotonicCount := n; ClassFilter := ClassFilter f;
              FilterDataRecordGuid := FilterDataRecordGuid f |} :: fs
      else f :: set_next ev n fs
  end.

Definition save_next (ev n : Z) : M DATA_HUB_INSTANCE unit :=
  modify (λ s, set_filters (set_next ev n (FilterDriverListHead s)) s).

(** The results: the status, [*MonotonicCount] and [*Record] (NULL or unset is [None]). *)
Definition GetNextResult : Type := EFI_STATUS * Z * option EFI_DATA_RECORD_HEADER.

Definition DataHubGetNextRecord (mtc : Z) (FilterDriverEvent : option Z) : M DATA_HUB_INSTANCE GetNextResult :=
  l ← gets DataListHead;
  match FilterDriverEvent with
  | None =>
      match GetNextDataRecord l all_classes mtc with
      | (None, mtc) => mret (EFI_NOT_FOUND, mtc, None)
      | (Some r, mtc) => mret (EFI_SUCCESS, mtc, Some r)
      end
  | Some ev =>
      fs ← gets FilterDriverListHead;
      match FindFilterDriverByEvent fs ev with
      | None => mret (EFI_INVALID_PARAMETER, mtc, None)
      | Some f =>
          let c := ClassFilter f in
          if negb (mtc =? 0) || (GetNextMonotonicCount f =? 0) then
            match GetNextDataRecord l c mtc with
            | (None, mtc) => mret (EFI_NOT_FOUND, mtc, None)
            | (Some r, mtc) =>
                save_next ev (if negb (mtc =? 0) then mtc else LogMonotonicCount r);;
                mret (EFI_SUCCESS, mtc, Some r)
            end
          else
            match GetNextDataRecord l c (GetNextMonotonicCount f) with
            | (None, mtc) => mret (EFI_NOT_FOUND, mtc, None)
            | (Some r, mtc) =>
                if negb (mtc =? 0) then
                  save_next ev mtc;;
                  match GetNextDataRecord l c mtc with
                  | (None, mtc) => mret (EFI_NOT_FOUND, mtc, None)
                  | (Some r, mtc) => mret (EFI_SUCCESS, mtc, Some r)
                  end
                else mret (EFI_SUCCESS, mtc, Some r)
            end
      end
  end.

(** ** Filter drivers *)

Definition DataHubRegisterFilterDriver (env : HubEnv) (ev tpl class : Z) (guid : option (list Z)) : M DATA_HUB_INSTANCE EFI_STATUS :=
  if negb (AllocatePool env sizeof_DATA_HUB_FILTER_DRIVER) then mret EFI_OUT_OF_RESOURCES
  else
    let FilterDriver := {| Event := ev; Tpl := tpl; GetNextMonotonicCount := 0;
                           ClassFilter := if class =? 0 then all_classes else class;
                           FilterDataRecordGuid := default zero_guid guid |} in
    fs ← gets FilterDriverListHead;
    match FindFilterDriverByEvent fs ev with
    | Some _ => mret EFI_ALREADY_STARTED
    | None =>
        EfiAcquireLock;;
        modify (λ s, set_filters (FilterDriverListHead s ++ [FilterDriver]) s);;
        EfiReleaseLock;;
        SignalEvent ev;;
        mret EFI_SUCCESS
    end.

(** [RemoveEntryList] of the filter that was found. *)
Fixpoint remove_filter (ev : Z) (fs : list DATA_HUB_FILTER_DRIVER) : list DATA_HUB_FILTER_DRIVER :=
  match fs with
  | [] => []
  | f :: fs => if Event f =? ev then fs else f :: remove_filter ev fs
  end.

Definition DataHubUnregisterFilterDriver (ev : Z) : M DATA_HUB_INSTANCE EFI_STATUS :=
  fs ← gets FilterDriverListHead;
  match FindFilterDriverByEvent fs ev with
  | None => mret EFI_NOT_FOUND
  | Some _ =>
      EfiAcquireLock;;
      modify (λ s, set_filters (remove_filter ev (FilterDriverListHead s)) s);;
      EfiReleaseLock;;
      mret EFI_SUCCESS
  end.

(** The driver's entry: [high] is what GetNextHighMonotonicCount gives, [install] the
    status of InstallProtocolInterface, which is returned. *)
Definition DataHubInstall (high : option Z) (install : EFI_STATUS) (tpl : Z) : EFI_STATUS * DATA_HUB_INSTANCE :=
  (install,
   {| DataLock := EfiInitializeLock TPL_NOTIFY;
      GlobalMonotonicCount := match high with Some h => wrap64 (Z.shiftl h 32) | None => 0 end;
      DataListHead := []; FilterDriverListHead := []; CurrentTpl := tpl; Signalled := [] |}).
