(* ===== verification/DataHubProofs.v ===== *)
(** * DataHubDxe: the log and its readers

    [hub_inv] is the invariant of the hub: the counts of the log increase, every filter
    stands at a record of its class or at none, the lock is free.  The reader's loop that
    the protocol documents is [read_all].  Everything about [GetNextDataRecord] follows
    from its reading of the records of one class, [of_class]. *)

From Stdlib Require Import ZArith Lia Sorted.
From stdpp Require Import base list list_numbers sets sorting.
From S2P Require Import Prelude DataHub.

Open Scope Z_scope.

(** ** The records of a class *)

Definition of_class (c : Z) (l : list EFI_DATA_ENTRY) : list EFI_DATA_ENTRY := filter (λ e, in_class c e) l.

Lemma of_class_cons c e l : of_class c (e :: l) = if in_class c e then e :: of_class c l else of_class c l.
Proof.
  unfold of_class. destruct (in_class c e) eqn:E; [rewrite filter_cons_True|rewrite filter_cons_False]; rewrite ?E; auto.
Qed.

Lemma of_class_app c l1 l2 : of_class c (l1 ++ l2) = of_class c l1 ++ of_class c l2.
Proof. apply filter_app. Qed.

(** The count of the first record, or zero. *)
Definition head_count (l : list EFI_DATA_ENTRY) : Z := from_option count 0 (head l).

Lemma next_mtc_spec c l : next_mtc c l = head_count (of_class c l).
Proof. induction l as [|e l IH]; [done|]. rewrite of_class_cons. simpl. by destruct (in_class c e). Qed.

(** ** Counts *)

Definition increasing (l : list EFI_DATA_ENTRY) : Prop := StronglySorted Z.lt (map count l).

Definition counts_ok (l : list EFI_DATA_ENTRY) : Prop := increasing l ∧ Forall (λ e, 0 < count e) l.

Lemma counts_ok_cons e l : counts_ok (e :: l) ↔ 0 < count e ∧ Forall (λ e', count e < count e') l ∧ counts_ok l.
Proof.
  unfold counts_ok, increasing. simpl. split.
  - intros [H1 H2]. inversion_clear H1. inversion_clear H2. rewrite Forall_map in H0. auto.
  - intros (H1&H2&H3&H4). split; [|by constructor]. constructor; [done|]. by rewrite Forall_map.
Qed.

Lemma counts_ok_app l1 l2 :
  counts_ok (l1 ++ l2) ↔ counts_ok l1 ∧ counts_ok l2 ∧ Forall (λ e, Forall (λ e', count e < count e') l2) l1.
Proof.
  induction l1 as [|e l1 IH]; simpl.
  - assert (counts_ok []) by (split; constructor). naive_solver.
  - rewrite !counts_ok_cons, IH, Forall_app, Forall_cons. tauto.
Qed.

Lemma counts_ok_of_class c l : counts_ok l → counts_ok (of_class c l).
Proof.
  induction l as [|e l IH]; [done|]. rewrite counts_ok_cons, of_class_cons. intros (H1&H2&H3).
  destruct (in_class c e); [|by auto]. apply counts_ok_cons. split_and!; [done| |by auto].
  apply Forall_forall. intros e' He'. apply list_elem_of_filter in He'. rewrite Forall_forall in H2. naive_solver.
Qed.

Lemma head_count_pos l : Forall (λ e, 0 < count e) l → l ≠ [] → 0 < head_count l.
Proof. destruct 1; simpl; [done|]. auto. Qed.

(** ** GetNextDataRecord *)

Lemma find_skip c cur b e l : in_class c e = false → find_record c cur b (e :: l) = find_record c cur b l.
Proof. simpl. by intros ->. Qed.

Lemma get_first c l e post :
  of_class c l = e :: post → GetNextDataRecord l c 0 = (Some (Record_ e), head_count post).
Proof.
  unfold GetNextDataRecord. change (0 =? 0) with true. induction l as [|e' l IH]; [done|].
  rewrite of_class_cons. destruct (in_class c e') eqn:E; intros Hl.
  - simplify_eq. simpl. by rewrite E, orb_true_r, next_mtc_spec.
  - rewrite find_skip by done. by apply IH.
Qed.

Lemma get_missing c cur l :
  cur ≠ 0 ∨ of_class c l = [] → cur ∉ map count (of_class c l) → GetNextDataRecord l c cur = (None, cur).
Proof.
  unfold GetNextDataRecord. intros H1. induction l as [|e l IH]; [done|]. rewrite of_class_cons in *. intros H2.
  destruct (in_class c e) eqn:E; simpl; rewrite E; simpl; [|by auto].
  rewrite map_cons, not_elem_of_cons in H2. destruct H2 as [H2 H3]. destruct H1 as [H1|]; [|done].
  rewrite (proj2 (Z.eqb_neq (count e) cur)) by done. rewrite (proj2 (Z.eqb_neq cur 0)) in * by done. simpl. auto.
Qed.

Lemma get_at c l pre e post :
  counts_ok l → of_class c l = pre ++ e :: post →
  GetNextDataRecord l c (count e) = (Some (Record_ e), head_count post).
Proof.
  intros Hok Hl. assert (0 < count e) as He.
  { apply (counts_ok_of_class c) in Hok. rewrite Hl, counts_ok_app, counts_ok_cons in Hok. tauto. }
  unfold GetNextDataRecord. rewrite (proj2 (Z.eqb_neq (count e) 0)) by lia. clear He. revert pre Hl.
  induction l as [|e' l IH]; intros pre; [by destruct pre|]. rewrite of_class_cons. apply counts_ok_cons in Hok as (H1&H2&H3).
  destruct (in_class c e') eqn:E; simpl; rewrite E; simpl; [|by eauto].
  destruct pre as [|e0 pre]; intros Hl; simplify_eq/=; [by rewrite Z.eqb_refl, next_mtc_spec|].
  assert (count e0 < count e).
  { rewrite Forall_forall in H2. apply H2. assert (e ∈ of_class c l) as He by (rewrite H0; set_solver).
    apply list_elem_of_filter in He. tauto. }
  rewrite (proj2 (Z.eqb_neq _ _)) by lia. simpl. by eapply IH.
Qed.

(** ** Filters *)

Lemma find_filter_Some fs ev f : FindFilterDriverByEvent fs ev = Some f → f ∈ fs ∧ Event f = ev.
Proof.
  induction fs as [|f' fs IH]; simpl; [done|]. case_match; zbool; intros Hf; simplify_eq; [set_solver|].
  destruct (IH Hf). set_solver.
Qed.

Lemma find_filter_None fs ev : FindFilterDriverByEvent fs ev = None ↔ ev ∉ map Event fs.
Proof.
  induction fs as [|f fs IH]; simpl; [set_solver|]. rewrite not_elem_of_cons, <- IH. case_match; zbool; naive_solver.
Qed.

Definition with_next (n : Z) (f : DATA_HUB_FILTER_DRIVER) : DATA_HUB_FILTER_DRIVER :=
  {| Event := Event f; Tpl := Tpl f; GetNextMonotonicCount := n; ClassFilter := ClassFilter f;
     FilterDataRecordGuid := FilterDataRecordGuid f |}.

Lemma find_set_next fs ev n f :
  FindFilterDriverByEvent fs ev = Some f → FindFilterDriverByEvent (set_next ev n fs) ev = Some (with_next n f).
Proof.
  induction fs as [|f' fs IH]; simpl; [done|]. destruct (Event f' =? ev) eqn:E; simpl; rewrite E; [|done].
  by intros [= <-].
Qed.

Lemma set_next_set_next ev n m fs : set_next ev n (set_next ev m fs) = set_next ev n fs.
Proof. induction fs as [|f fs IH]; simpl; [done|]. destruct (Event f =? ev) eqn:E; simpl; rewrite E; by rewrite ?IH. Qed.

Lemma set_next_events ev n fs : map Event (set_next ev n fs) = map Event fs.
Proof. induction fs as [|f fs IH]; simpl; [done|]. destruct (Event f =? ev); simpl; by rewrite ?IH. Qed.

Lemma Forall_set_next (P : DATA_HUB_FILTER_DRIVER → Prop) ev n fs f :
  FindFilterDriverByEvent fs ev = Some f → P (with_next n f) → Forall P fs → Forall P (set_next ev n fs).
Proof.
  induction fs as [|f' fs IH]; simpl; [done|]. rewrite Forall_cons. destruct (Event f' =? ev); intros Hf HP [H1 H2].
  - simplify_eq. by constructor.
  - constructor; auto.
Qed.

Lemma Forall_remove_filter (P : DATA_HUB_FILTER_DRIVER → Prop) ev fs : Forall P fs → Forall P (remove_filter ev fs).
Proof. induction 1; simpl; [done|]. destruct (Event x =? ev); auto. Qed.

Lemma remove_filter_events ev fs : sublist (map Event (remove_filter ev fs)) (map Event fs).
Proof. induction fs as [|f fs IH]; simpl; [done|]. destruct (Event f =? ev); by constructor. Qed.

Lemma signal_filters_spec class guid fs s :
  signal_filters class guid fs s
  = Some (tt, set_signalled (Signalled s ++ map Event (filter (λ f, interested class guid f) fs)) s).
Proof.
  revert s. induction fs as [|f fs IH]; intros s.
  - rewrite filter_nil. cbn [map]. rewrite app_nil_r. by destruct s.
  - cbn [signal_filters]. destruct (interested class guid f) eqn:E.
    + rewrite filter_cons_True by (by rewrite E). unfold SignalEvent. rewrite bind_modify, IH. simpl.
      by rewrite <- app_assoc.
    + rewrite filter_cons_False by (rewrite E; auto). by rewrite bind_ret, IH.
Qed.

(** ** The invariant *)

Definition filter_ok (l : list EFI_DATA_ENTRY) (f : DATA_HUB_FILTER_DRIVER) : Prop :=
  GetNextMonotonicCount f = 0 ∨ GetNextMonotonicCount f ∈ map count (of_class (ClassFilter f) l).

Definition entry_ok (e : EFI_DATA_ENTRY) : Prop :=
  RecordSize (Record_ e) = sizeof_EFI_DATA_RECORD_HEADER + Z.of_nat (length (Raw (Record_ e))).

Record hub_inv (s : DATA_HUB_INSTANCE) : Prop := {
  inv_counts : counts_ok (DataListHead s);
  inv_global : 0 ≤ GlobalMonotonicCount s ∧ Forall (λ e, count e ≤ GlobalMonotonicCount s) (DataListHead s);
  inv_entries : Forall entry_ok (DataListHead s);
  inv_events : NoDup (map Event (FilterDriverListHead s));
  inv_filters : Forall (filter_ok (DataListHead s)) (FilterDriverListHead s);
  inv_lock : LockAcquired (DataLock s) = false ∧ LockTpl (DataLock s) = TPL_NOTIFY
}.

(** What the invariant does not speak about may change. *)
Lemma hub_inv_ext s t :
  hub_inv s → DataListHead t = DataListHead s → GlobalMonotonicCount t = GlobalMonotonicCount s →
  FilterDriverListHead t = FilterDriverListHead s → LockAcquired (DataLock t) = false →
  LockTpl (DataLock t) = LockTpl (DataLock s) → hub_inv t.
Proof. intros [] E1 E2 E3 E4 E5. constructor; rewrite ?E1, ?E2, ?E3, ?E4, ?E5; tauto. Qed.

Lemma install_inv high install tpl :
  from_option (λ h, 0 ≤ h < 2 ^ 32) True high → hub_inv (DataHubInstall high install tpl).2.
Proof.
  intros Hh. constructor; simpl; try by constructor; try by repeat constructor.
  split; [|constructor]. destruct high; [apply wrap64_range|done].
Qed.

(** ** Filters that are set to a record of theirs *)

Lemma save_next_inv s ev n f :
  hub_inv s → FindFilterDriverByEvent (FilterDriverListHead s) ev = Some f →
  n ∈ map count (of_class (ClassFilter f) (DataListHead s)) →
  hub_inv (set_filters (set_next ev n (FilterDriverListHead s)) s).
Proof.
  intros [] Hf Hn. constructor; simpl; try done.
  - by rewrite set_next_events.
  - eapply Forall_set_next; [done| |done]. right. done.
Qed.

(** A record that is found has its count in the class, and so has the next one. *)
Lemma get_found c l cur r m :
  GetNextDataRecord l c cur = (Some r, m) →
  LogMonotonicCount r ∈ map count (of_class c l) ∧ (m = 0 ∨ m ∈ map count (of_class c l)).
Proof.
  unfold GetNextDataRecord. generalize (cur =? 0) as b. induction l as [|e l IH]; intros b; [done|].
  simpl. rewrite of_class_cons. destruct (in_class c e); simpl; [|by apply IH]. case_match; intros Hr.
  - injection Hr as <- <-. split; [by constructor|]. rewrite next_mtc_spec. destruct (of_class c l); [by left|].
    right. simpl. set_solver.
  - destruct (IH _ Hr) as [? [?|?]]; set_solver.
Qed.

(** ** Logging *)

Definition new_entry (s : DATA_HUB_INSTANCE) (env : HubEnv) (guid producer : list Z) (class : Z) (raw : list Z) : EFI_DATA_ENTRY :=
  {| Record_ := {| RecordSize := sizeof_EFI_DATA_RECORD_HEADER + Z.of_nat (length raw); DataRecordGuid := guid;
                   ProducerName := producer; DataRecordClass := class;
                   LogTime := if CurrentTpl s <=? TPL_CALLBACK then GetTime env else replicate 16 0;
                   LogMonotonicCount := GlobalMonotonicCount s + 1; Raw := raw |};
     EntryRecordSize := sizeof_EFI_DATA_ENTRY + Z.of_nat (length raw) |}.

(** The lock was taken and given back. *)
Definition unlocked (s : DATA_HUB_INSTANCE) : EFI_LOCK :=
  {| LockTpl := LockTpl (DataLock s); OwnerTpl := CurrentTpl s; LockAcquired := false |}.

Definition logged (s : DATA_HUB_INSTANCE) (e : EFI_DATA_ENTRY) : DATA_HUB_INSTANCE :=
  {| DataLock := unlocked s; GlobalMonotonicCount := GlobalMonotonicCount s + 1; DataListHead := DataListHead s ++ [e];
     FilterDriverListHead := FilterDriverListHead s; CurrentTpl := CurrentTpl s;
     Signalled := Signalled s
       ++ map Event (filter (λ f, interested (DataRecordClass (Record_ e)) (DataRecordGuid (Record_ e)) f) (FilterDriverListHead s)) |}.

(** The hub can be called: the invariant holds, the level is not above the lock's and a
    count is left. *)
Record ready (s : DATA_HUB_INSTANCE) : Prop := {
  ready_inv : hub_inv s;
  ready_tpl : CurrentTpl s ≤ TPL_NOTIFY;
  ready_count : GlobalMonotonicCount s + 1 < 2 ^ 64
}.

(** The data fit: the sizes of the record and of the entry do not wrap. *)
Definition data_fits (raw : list Z) : Prop :=
  sizeof_EFI_DATA_ENTRY + sizeof_EFI_DATA_RECORD_HEADER + Z.of_nat (length raw) < 2 ^ 32.

Lemma raise_ok s :
  hub_inv s → CurrentTpl s ≤ TPL_NOTIFY →
  raise_and_own s
  = Some (tt, set_lock {| LockTpl := LockTpl (DataLock s); OwnerTpl := CurrentTpl s; LockAcquired := true |} TPL_NOTIFY s).
Proof. intros [_ _ _ _ _ [_ Hl]] Ht. unfold raise_and_own. by rewrite Hl, (proj2 (Z.ltb_ge _ _)) by lia. Qed.

Lemma acquire_ok s :
  hub_inv s → CurrentTpl s ≤ TPL_NOTIFY →
  EfiAcquireLockOrFail s
  = Some (EFI_SUCCESS, set_lock {| LockTpl := LockTpl (DataLock s); OwnerTpl := CurrentTpl s; LockAcquired := true |} TPL_NOTIFY s).
Proof.
  intros Hi Ht. unfold EfiAcquireLockOrFail. rewrite bind_gets. rewrite (proj1 (inv_lock _ Hi)).
  by rewrite (bind_eq _ _ _ _ _ (raise_ok s Hi Ht)).
Qed.

Definition entry_size (raw : list Z) : Z := sizeof_EFI_DATA_ENTRY + (sizeof_EFI_DATA_RECORD_HEADER + Z.of_nat (length raw)).

(** Without memory for the entry nothing is logged. *)
Lemma log_spec s env guid producer class raw :
  ready s → data_fits raw →
  DataHubLogData env guid producer class raw (Z.of_nat (length raw)) s
  = Some (if AllocatePool env (entry_size raw)
          then (EFI_SUCCESS, logged s (new_entry s env guid producer class raw))
          else (EFI_OUT_OF_RESOURCES, set_lock (unlocked s) (CurrentTpl s) s)).
Proof.
  intros [Hi Ht Hc] Hf. unfold data_fits, entry_size, DataHubLogData in *. rewrite bind_gets.
  rewrite (bind_eq _ _ _ _ _ (acquire_ok s Hi Ht)). cbn [EFI_ERROR].
  change sizeof_EFI_DATA_ENTRY with 40 in *. change sizeof_EFI_DATA_RECORD_HEADER with 72 in *.
  rewrite (wrap32_small (72 + _)), wrap32_small by lia. destruct (AllocatePool env _); cbn [negb]; [|done].
  rewrite (proj2 (Z.ltb_ge _ _)), (proj2 (Z.ltb_ge _ _)) by lia.
  rewrite bind_gets. pose proof (inv_global _ Hi). cbn [GlobalMonotonicCount set_lock]. rewrite wrap64_small by lia.
  rewrite bind_modify. unfold EfiReleaseLock. rewrite bind_modify, bind_gets. cbn [FilterDriverListHead set_lock set_log].
  rewrite (bind_eq _ _ _ _ _ (signal_filters_spec _ _ _ _)). unfold mret, M_ret. do 2 f_equal. unfold logged, new_entry. simpl.
  rewrite Nat2Z.id, firstn_all. done.
Qed.

Lemma filter_ok_app l l' f : filter_ok l f → filter_ok (l ++ l') f.
Proof. unfold filter_ok. rewrite of_class_app, map_app. set_solver. Qed.

Lemma logged_inv s e :
  ready s → count e = GlobalMonotonicCount s + 1 → entry_ok e → hub_inv (logged s e).
Proof.
  intros [[Hc [Hg Hb] He Hev Hf Hl] _ _] Hn Ho. constructor; simpl; try done; try by destruct Hl.
  - apply counts_ok_app. split_and!; [done| |].
    + apply counts_ok_cons. split_and!; [lia|constructor|split; constructor].
    + eapply Forall_impl; [exact Hb|]. intros e' He'. simpl in He'. constructor; [lia|constructor].
  - split; [lia|]. rewrite Forall_app. split; [|constructor; [lia|constructor]].
    eapply Forall_impl; [exact Hb|]. simpl. lia.
  - rewrite Forall_app. by repeat constructor.
  - eapply Forall_impl; [exact Hf|]. intros. by apply filter_ok_app.
Qed.

Lemma new_entry_inv s env guid producer class raw : ready s → hub_inv (logged s (new_entry s env guid producer class raw)).
Proof. intros. by apply logged_inv. Qed.

(** ** Reading changes a filter at most *)

Lemma get_next_keeps s mtc ev :
  hub_inv s →
  ∃ r fs, DataHubGetNextRecord mtc ev s = Some (r, set_filters fs s) ∧ hub_inv (set_filters fs s).
Proof.
  intros Hi. assert (set_filters (FilterDriverListHead s) s = s) as Hs by (by destruct s).
  assert (∀ r : GetNextResult, ∃ r' fs, Some (r, s) = Some (r', set_filters fs s) ∧ hub_inv (set_filters fs s)) as Hret.
  { intros r. exists r, (FilterDriverListHead s). by rewrite Hs. }
  unfold DataHubGetNextRecord. rewrite bind_gets. destruct ev as [ev|].
  2:{ destruct (GetNextDataRecord _ _ _) as [[r|] m]; apply Hret. }
  rewrite bind_gets. destruct (FindFilterDriverByEvent _ _) as [f|] eqn:Hf; [|apply Hret].
  destruct (_ || _).
  - destruct (GetNextDataRecord _ _ _) as [[r|] m] eqn:Hr; [|apply Hret].
    destruct (get_found _ _ _ _ _ Hr) as [H1 H2]. unfold save_next. rewrite bind_modify.
    eexists _, _. split; [done|]. eapply save_next_inv; [done..|]. destruct (m =? 0) eqn:E; zbool; simpl; tauto.
  - destruct (GetNextDataRecord _ _ (GetNextMonotonicCount f)) as [[r|] m] eqn:Hr; [|apply Hret].
    destruct (get_found _ _ _ _ _ Hr) as [H1 H2]. destruct (m =? 0) eqn:E; zbool; cbn [negb]; [apply Hret|].
    unfold save_next. rewrite bind_modify.
    destruct (GetNextDataRecord _ _ m) as [[r'|] m'] eqn:Hr'; (eexists _, _; split; [done|]); eapply save_next_inv; try done; tauto.
Qed.

(** ** Registering *)

Definition registered (s : DATA_HUB_INSTANCE) (fs : list DATA_HUB_FILTER_DRIVER) (es : list Z) : DATA_HUB_INSTANCE :=
  set_signalled (Signalled s ++ es) (set_lock (unlocked s) (CurrentTpl s) (set_filters fs s)).

Lemma registered_inv s fs es :
  hub_inv s → NoDup (map Event fs) → Forall (filter_ok (DataListHead s)) fs → hub_inv (registered s fs es).
Proof. intros [] ??. constructor; simpl; try done. by destruct inv_lock0. Qed.

Lemma register_ok s env ev tpl class guid :
  hub_inv s → CurrentTpl s ≤ TPL_NOTIFY →
  ∃ st t, DataHubRegisterFilterDriver env ev tpl class guid s = Some (st, t) ∧ hub_inv t
          ∧ (t = s ∨ ∃ f, st = EFI_SUCCESS ∧ Event f = ev ∧ GetNextMonotonicCount f = 0
                          ∧ ClassFilter f = (if class =? 0 then all_classes else class)
                          ∧ t = registered s (FilterDriverListHead s ++ [f]) [ev]).
Proof.
  intros Hi Ht. unfold DataHubRegisterFilterDriver. destruct (AllocatePool env _); cbn [negb]; [|by eauto 10].
  rewrite bind_gets. destruct (FindFilterDriverByEvent _ _) eqn:Hf; [by eauto 10|].
  unfold EfiAcquireLock. rewrite (bind_eq _ _ _ _ _ (raise_ok s Hi Ht)), bind_modify.
  unfold EfiReleaseLock, SignalEvent. rewrite !bind_modify. eexists _, _. split; [done|]. apply find_filter_None in Hf.
  set (f := {| Event := ev; Tpl := tpl; GetNextMonotonicCount := 0; ClassFilter := if class =? 0 then all_classes else class;
               FilterDataRecordGuid := default zero_guid guid |}).
  match goal with |- hub_inv ?t ∧ _ => change t with (registered s (FilterDriverListHead s ++ [f]) [ev]) end.
  split; [|right; exists f; done]. apply registered_inv; [done| |].
  - rewrite map_app. apply NoDup_app. split_and!; [by apply Hi|set_solver|apply NoDup_singleton].
  - apply Forall_app. split; [by apply Hi|]. repeat constructor.
Qed.

Lemma unregister_ok s ev :
  hub_inv s → CurrentTpl s ≤ TPL_NOTIFY →
  ∃ st t, DataHubUnregisterFilterDriver ev s = Some (st, t) ∧ hub_inv t
          ∧ (t = s ∨ t = registered s (remove_filter ev (FilterDriverListHead s)) []).
Proof.
  intros Hi Ht. unfold DataHubUnregisterFilterDriver. rewrite bind_gets.
  destruct (FindFilterDriverByEvent _ _) eqn:Hf; [|by eauto 10].
  unfold EfiAcquireLock. rewrite (bind_eq _ _ _ _ _ (raise_ok s Hi Ht)), bind_modify.
  unfold EfiReleaseLock. rewrite bind_modify. eexists _, _. split; [done|].
  match goal with |- hub_inv ?t ∧ _ => assert (t = registered s (remove_filter ev (FilterDriverListHead s)) []) as -> end.
  { unfold registered. simpl. by rewrite app_nil_r. }
  split; [|by right]. apply registered_inv; [done| |].
  - eapply sublist_NoDup; [apply Hi|apply remove_filter_events].
  - apply Forall_remove_filter, Hi.
Qed.

(** ** The loop of a reader *)

(** Start with count zero, go on with the count of the next record until it is zero. *)
Fixpoint read_all (fuel : nat) (mtc : Z) (ev : option Z) : M DATA_HUB_INSTANCE (list EFI_DATA_RECORD_HEADER) :=
  match fuel with
  | O => undef
  | S fuel =>
      r ← DataHubGetNextRecord mtc ev;
      match r with
      | (EFI_SUCCESS, mtc, Some r) =>
          if mtc =? 0 then mret [r] else rs ← read_all fuel mtc ev; mret (r :: rs)
      | _ => mret []
      end
  end.

Lemma read_all_step fuel mtc ev s r m t :
  DataHubGetNextRecord mtc ev s = Some ((EFI_SUCCESS, m, Some r), t) →
  read_all (S fuel) mtc ev s
  = if m =? 0 then Some ([r], t) else (rs ← read_all fuel m ev; mret (r :: rs)) t.
Proof. intros E. cbn [read_all]. rewrite (bind_eq _ _ _ _ _ E). by destruct (m =? 0). Qed.

(** Going on needs records, whose counts are not zero. *)
Lemma suffix_count l c pre post :
  counts_ok l → of_class c l = pre ++ post → post ≠ [] → (head_count post =? 0) = false.
Proof.
  intros Hl E Hp. apply Z.eqb_neq. apply (counts_ok_of_class c) in Hl. rewrite E, counts_ok_app in Hl.
  destruct Hl as (_&[_ Hl]&_). pose proof (head_count_pos _ Hl Hp). lia.
Qed.

Lemma read_from s pre e post fuel :
  counts_ok (DataListHead s) → of_class all_classes (DataListHead s) = pre ++ e :: post → (length post < fuel)%nat →
  read_all fuel (count e) None s = Some (map Record_ (e :: post), s).
Proof.
  intros Hl. revert pre e fuel. induction post as [|e' post IH]; intros pre e fuel E Hf; (destruct fuel as [|fuel]; [simpl in Hf; lia|]).
  - erewrite read_all_step.
    2:{ unfold DataHubGetNextRecord. rewrite bind_gets. by erewrite get_at. }
    done.
  - erewrite read_all_step.
    2:{ unfold DataHubGetNextRecord. rewrite bind_gets. by erewrite get_at. }
    rewrite (suffix_count _ all_classes (pre ++ [e]) (e' :: post)) by (rewrite <- ?app_assoc; done).
    change (head_count (e' :: post)) with (count e').
    rewrite (bind_eq _ _ _ _ _ (IH (pre ++ [e]) e' fuel ltac:(by rewrite <- app_assoc) ltac:(simpl in Hf; lia))). done.
Qed.

Lemma read_log s fuel :
  counts_ok (DataListHead s) → (length (DataListHead s) < fuel)%nat →
  read_all fuel 0 None s = Some (map Record_ (of_class all_classes (DataListHead s)), s).
Proof.
  intros Hl Hf. assert (length (of_class all_classes (DataListHead s)) ≤ length (DataListHead s))%nat as Hlen by apply length_filter.
  destruct fuel as [|fuel]; [lia|]. destruct (of_class all_classes (DataListHead s)) as [|e post] eqn:E.
  - cbn [read_all]. erewrite bind_eq.
    2:{ unfold DataHubGetNextRecord. rewrite bind_gets. by rewrite get_missing by (rewrite E; first [by right | set_solver]). }
    done.
  - erewrite read_all_step.
    2:{ unfold DataHubGetNextRecord. rewrite bind_gets. by erewrite get_first. }
    destruct post as [|e' post]; [done|].
    rewrite (suffix_count _ all_classes [e] (e' :: post)) by done. simpl in Hlen.
    change (head_count (e' :: post)) with (count e').
    rewrite (bind_eq _ _ _ _ _ (read_from s [e] e' post fuel Hl E ltac:(lia))). done.
Qed.

(** ** The loop of a filter driver *)

Definition last_count (l : list EFI_DATA_ENTRY) : Z := from_option count 0 (last l).

(** The hub after the filter [ev] was set to [n]. *)
Definition at_count (ev n : Z) (s : DATA_HUB_INSTANCE) : DATA_HUB_INSTANCE :=
  set_filters (set_next ev n (FilterDriverListHead s)) s.

Lemma at_count_twice ev n m s : at_count ev n (at_count ev m s) = at_count ev n s.
Proof. unfold at_count. simpl. by rewrite set_next_set_next. Qed.

Section FilterDriver.
Context (s : DATA_HUB_INSTANCE) (ev : Z) (f : DATA_HUB_FILTER_DRIVER).
Hypothesis Hlog : counts_ok (DataListHead s).
Hypothesis Hf : FindFilterDriverByEvent (FilterDriverListHead s) ev = Some f.

Abbreviation log := (of_class (ClassFilter f) (DataListHead s)).

Lemma get_event_at pre e post :
  log = pre ++ e :: post →
  DataHubGetNextRecord (count e) (Some ev) s
  = Some ((EFI_SUCCESS, head_count post, Some (Record_ e)), at_count ev (head_count (post ++ [e])) s).
Proof.
  intros E. assert (0 < count e) as He.
  { apply (counts_ok_of_class (ClassFilter f)) in Hlog. rewrite E, counts_ok_app, counts_ok_cons in Hlog. tauto. }
  unfold DataHubGetNextRecord. rewrite !bind_gets, Hf. rewrite (proj2 (Z.eqb_neq (count e) 0)) by lia. cbn [negb orb].
  rewrite (get_at _ _ _ _ _ Hlog E). unfold save_next. rewrite bind_modify. destruct post as [|e' post]; [done|].
  by rewrite (suffix_count _ (ClassFilter f) (pre ++ [e]) (e' :: post)) by (rewrite <- ?app_assoc; done).
Qed.
End FilterDriver.

Lemma read_event_from s ev f pre e post fuel :
  counts_ok (DataListHead s) → FindFilterDriverByEvent (FilterDriverListHead s) ev = Some f →
  of_class (ClassFilter f) (DataListHead s) = pre ++ e :: post → (length post < fuel)%nat →
  read_all fuel (count e) (Some ev) s = Some (map Record_ (e :: post), at_count ev (last_count (e :: post)) s).
Proof.
  revert s f pre e fuel. induction post as [|e' post IH]; intros s f pre e fuel Hl Hf E Hn; (destruct fuel as [|fuel]; [simpl in Hn; lia|]);
    rewrite (read_all_step _ _ _ _ _ _ _ (get_event_at s ev f Hl Hf _ _ _ E)); [done|].
  rewrite (suffix_count _ (ClassFilter f) (pre ++ [e]) (e' :: post)) by (rewrite <- ?app_assoc; done).
  change (head_count (e' :: post)) with (count e'). simpl in Hn. erewrite bind_eq.
  2:{ apply (IH _ (with_next (count e') f) (pre ++ [e])); [done|by apply find_set_next|by rewrite <- app_assoc|lia]. }
  rewrite at_count_twice. done.
Qed.

(** The first call of a filter driver that has read [pre]. *)
Lemma get_event_zero s ev f pre e post :
  counts_ok (DataListHead s) → FindFilterDriverByEvent (FilterDriverListHead s) ev = Some f →
  of_class (ClassFilter f) (DataListHead s) = pre ++ e :: post → GetNextMonotonicCount f = last_count pre →
  ∃ n, DataHubGetNextRecord 0 (Some ev) s = Some ((EFI_SUCCESS, head_count post, Some (Record_ e)), at_count ev n s)
       ∧ (post = [] → n = count e).
Proof.
  intros Hl Hf E Hn. unfold DataHubGetNextRecord. rewrite !bind_gets, Hf. destruct pre as [|e0 pre _] using rev_ind.
  - rewrite Hn. cbn [negb orb Z.eqb last_count last from_option app] in *. rewrite (get_first _ _ _ _ E).
    unfold save_next. rewrite bind_modify. eexists. split; [done|]. intros ->. done.
  - unfold last_count in Hn. rewrite last_snoc in Hn. rewrite <- app_assoc in E. cbn [from_option app] in Hn, E.
    assert (0 < count e0 ∧ 0 < count e) as [H0 H1].
    { pose proof (counts_ok_of_class (ClassFilter f) _ Hl) as H. rewrite E, counts_ok_app, !counts_ok_cons in H. tauto. }
    rewrite Hn, (proj2 (Z.eqb_neq (count e0) 0)) by lia. cbn [negb orb Z.eqb].
    rewrite (get_at _ _ _ _ _ Hl E). cbn [head_count head from_option].
    rewrite (proj2 (Z.eqb_neq (count e) 0)) by lia. cbn [negb]. unfold save_next. rewrite bind_modify.
    erewrite (get_at _ _ (pre ++ [e0]) e post) by (rewrite <- ?app_assoc; done). by eexists.
Qed.

(** The loop delivers what has come after the records read so far, if anything has. *)
Lemma drain s ev f pre post fuel :
  counts_ok (DataListHead s) → FindFilterDriverByEvent (FilterDriverListHead s) ev = Some f →
  of_class (ClassFilter f) (DataListHead s) = pre ++ post → GetNextMonotonicCount f = last_count pre →
  post ≠ [] → (length (DataListHead s) < fuel)%nat →
  read_all fuel 0 (Some ev) s = Some (map Record_ post, at_count ev (last_count post) s).
Proof.
  intros Hl Hf E Hn Hp Hfuel. destruct post as [|e post]; [done|]. destruct fuel as [|fuel]; [lia|].
  destruct (get_event_zero _ _ _ _ _ _ Hl Hf E Hn) as (n&Hg&Hlast). rewrite (read_all_step _ _ _ _ _ _ _ Hg).
  destruct post as [|e' post]; [by rewrite Hlast|].
  rewrite (suffix_count _ (ClassFilter f) (pre ++ [e]) (e' :: post)) by (rewrite <- ?app_assoc; done).
  change (head_count (e' :: post)) with (count e'). erewrite bind_eq.
  2:{ apply (read_event_from _ _ (with_next n f) (pre ++ [e]) _ post); [done|by apply find_set_next|by rewrite <- app_assoc|].
      assert (length (of_class (ClassFilter f) (DataListHead s)) ≤ length (DataListHead s))%nat as Hlen by apply length_filter.
      rewrite E, length_app in Hlen. simpl in Hlen. lia. }
  rewrite at_count_twice. done.
Qed.

(** With nothing new, the last record is delivered again. *)
Lemma get_again s ev f pre e :
  counts_ok (DataListHead s) → FindFilterDriverByEvent (FilterDriverListHead s) ev = Some f →
  of_class (ClassFilter f) (DataListHead s) = pre ++ [e] → GetNextMonotonicCount f = count e →
  DataHubGetNextRecord 0 (Some ev) s = Some ((EFI_SUCCESS, 0, Some (Record_ e)), s).
Proof.
  intros Hl Hf E Hn. assert (0 < count e).
  { pose proof (counts_ok_of_class (ClassFilter f) _ Hl) as H. rewrite E, counts_ok_app, !counts_ok_cons in H. tauto. }
  unfold DataHubGetNextRecord. rewrite !bind_gets, Hf, Hn.
  rewrite (proj2 (Z.eqb_neq (count e) 0)) by lia. cbn [negb orb Z.eqb]. by rewrite (get_at _ _ _ _ _ Hl E).
Qed.
