(* ===== verification/DataHubTheorems.v ===== *)
(** * DataHubDxe: theorems

    Sequences of calls keep the invariant; what is logged is read back; a filter driver
    that is run after each batch of records gets each record of its class exactly once;
    and three ways in which the hub does not do what its comments say. *)

From Stdlib Require Import ZArith Lia Sorted.
From stdpp Require Import base list list_numbers sets.
From S2P Require Import Prelude DataHub DataHubProofs.

Open Scope Z_scope.

(** ** Sequences of calls *)

Inductive hub_call :=
  | LogData (env : HubEnv) (guid producer : list Z) (class : Z) (raw : list Z)
  | GetNextRecord (mtc : Z) (ev : option Z)
  | RegisterFilterDriver (env : HubEnv) (ev tpl class : Z) (guid : option (list Z))
  | UnregisterFilterDriver (ev : Z).

Definition run_call (c : hub_call) : M DATA_HUB_INSTANCE EFI_STATUS :=
  match c with
  | LogData env guid producer class raw => DataHubLogData env guid producer class raw (Z.of_nat (length raw))
  | GetNextRecord mtc ev => r ← DataHubGetNextRecord mtc ev; mret r.1.1
  | RegisterFilterDriver env ev tpl class guid => DataHubRegisterFilterDriver env ev tpl class guid
  | UnregisterFilterDriver ev => DataHubUnregisterFilterDriver ev
  end.

Fixpoint run_calls (cs : list hub_call) : M DATA_HUB_INSTANCE unit :=
  match cs with
  | [] => mret tt
  | c :: cs => run_call c;; run_calls cs
  end.

Definition call_fits (c : hub_call) : Prop :=
  match c with LogData _ _ _ _ raw => data_fits raw | _ => True end.

Lemma run_call_ok c s :
  ready s → call_fits c →
  ∃ st t, run_call c s = Some (st, t) ∧ hub_inv t ∧ CurrentTpl t = CurrentTpl s
          ∧ GlobalMonotonicCount t ≤ GlobalMonotonicCount s + 1 ∧ prefix (DataListHead s) (DataListHead t).
Proof.
  intros Hr Hc. pose proof Hr as [Hi Ht Hg]. destruct c as [env guid producer class raw|mtc ev|env ev tpl class guid|ev]; simpl in *.
  - rewrite log_spec by done. destruct (AllocatePool env _); eexists _, _; (split; [done|]).
    + split_and!; [by apply new_entry_inv|done|simpl; lia|]. by eexists.
    + split_and!; [|done|simpl; lia|done]. by eapply hub_inv_ext.
  - destruct (get_next_keeps s mtc ev Hi) as (r&fs&E&Hi'). eexists _, _. split; [by rewrite (bind_eq _ _ _ _ _ E)|].
    split_and!; [done|done|simpl; lia|done].
  - destruct (register_ok s env ev tpl class guid Hi Ht) as (st&t&E&Hi'&[->|(f&_&_&_&_&->)]);
      eexists _, _; (split; [exact E|]); split_and!; simpl; first [done | lia].
  - destruct (unregister_ok s ev Hi Ht) as (st&t&E&Hi'&[->| ->]);
      eexists _, _; (split; [exact E|]); split_and!; simpl; first [done | lia].
Qed.

Lemma run_calls_ok cs s :
  hub_inv s → CurrentTpl s ≤ TPL_NOTIFY → GlobalMonotonicCount s + Z.of_nat (length cs) < 2 ^ 64 → Forall call_fits cs →
  ∃ t, run_calls cs s = Some (tt, t) ∧ hub_inv t ∧ CurrentTpl t = CurrentTpl s ∧ prefix (DataListHead s) (DataListHead t).
Proof.
  revert s. induction cs as [|c cs IH]; intros s Hi Ht Hg Hc; [by exists s|]. apply Forall_cons in Hc as [Hc Hcs].
  simpl in Hg. destruct (run_call_ok c s) as (st&t&E&Hi'&Ht'&Hg'&Hp); [constructor; first [done|lia]|done|].
  destruct (IH t) as (u&Eu&Hu&Htu&Hpu); [done|lia|lia|done|].
  exists u. simpl. rewrite (bind_eq _ _ _ _ _ E). split_and!; [done|done|congruence|by etrans].
Qed.

(** C17. Start the driver and make any fewer than 2^32 calls of its four services at a level
    up to TPL_NOTIFY, whatever the platform's answers, with data that fit: no call leaves a
    buffer; afterwards the counts in the log are positive and strictly increasing and up
    to the global count, every record has the size of its data, no event is registered twice, every filter
    stands at a record of its class or at none, the lock is free and the level is the
    caller's. *)
Theorem hub_calls_invariant (high : option Z) (install : EFI_STATUS) (tpl : Z) (cs : list hub_call)
  (Hhigh : from_option (λ h, 0 ≤ h < 2 ^ 32) True high) (Htpl : tpl ≤ TPL_NOTIFY)
  (Hcs : Forall call_fits cs) (Hn : (Z.of_nat (length cs) < 2 ^ 32)%Z) :
  ∃ t, run_calls cs (DataHubInstall high install tpl).2 = Some (tt, t) ∧ hub_inv t ∧ CurrentTpl t = tpl.
Proof.
  destruct (run_calls_ok cs (DataHubInstall high install tpl).2) as (t&E&Hi&Ht&_); [by apply install_inv|done| |done|by eauto].
  destruct high as [h|]; simpl in *; [|lia]. rewrite Z.shiftl_mul_pow2, wrap64_small by lia. lia.
Qed.

(** ** Logging and reading *)

(** A record that is logged with success is read back: the reader's loop gives the
    records it gave before and then one with the GUID, producer, class and data that were
    passed and a greater count than all of them; the filters signalled are those that ask
    for its class and GUID, once each, in the order in which they registered. *)
Theorem hub_log_then_read (s : DATA_HUB_INSTANCE) (env : HubEnv) (guid producer : list Z) (class : Z) (raw : list Z) (fuel : nat)
  (Hs : ready s) (Hraw : data_fits raw) (Hmem : AllocatePool env (entry_size raw) = true)
  (Hclass : Z.land class all_classes ≠ 0) (Hfuel : (S (length (DataListHead s)) < fuel)%nat) :
  ∃ t old r,
    DataHubLogData env guid producer class raw (Z.of_nat (length raw)) s = Some (EFI_SUCCESS, t)
    ∧ read_all fuel 0 None s = Some (old, s) ∧ read_all fuel 0 None t = Some (old ++ [r], t)
    ∧ DataRecordGuid r = guid ∧ ProducerName r = producer ∧ DataRecordClass r = class ∧ Raw r = raw
    ∧ Forall (λ r', LogMonotonicCount r' < LogMonotonicCount r) old
    ∧ Signalled t = Signalled s ++ map Event (filter (λ f, interested class guid f) (FilterDriverListHead s)).
Proof.
  rewrite log_spec, Hmem by done. pose proof Hs as [Hi _ _]. pose proof (inv_counts _ Hi) as Hl.
  pose proof (new_entry_inv s env guid producer class raw Hs) as Hi'. set (e := new_entry s env guid producer class raw) in *.
  exists (logged s e), (map Record_ (of_class all_classes (DataListHead s))), (Record_ e).
  split_and!; try done; [apply read_log; [done|lia]| |].
  - rewrite read_log; [|by apply Hi'|simpl; rewrite length_app; simpl; lia]. cbn [DataListHead logged].
    rewrite of_class_app, map_app. do 3 f_equal. unfold of_class. rewrite filter_cons_True; [done|].
    unfold in_class, e. simpl. by rewrite (proj2 (Z.eqb_neq _ _)).
  - rewrite Forall_map. apply Forall_forall. intros e' He'. apply list_elem_of_filter in He' as [_ He'].
    destruct (inv_global _ Hi) as [_ Hg]. rewrite Forall_forall in Hg. specialize (Hg _ He'). unfold count in Hg. simpl in *. lia.
Qed.

(** ** A filter driver *)

(** A record to be logged. *)
Record log_args := { la_env : HubEnv; la_guid : list Z; la_producer : list Z; la_class : Z; la_raw : list Z }.

Definition args_ok (a : log_args) : Prop := data_fits (la_raw a) ∧ AllocatePool (la_env a) (entry_size (la_raw a)) = true.

Definition log_args_call (a : log_args) : M DATA_HUB_INSTANCE EFI_STATUS :=
  DataHubLogData (la_env a) (la_guid a) (la_producer a) (la_class a) (la_raw a) (Z.of_nat (length (la_raw a))).

Fixpoint log_all (b : list log_args) : M DATA_HUB_INSTANCE unit :=
  match b with
  | [] => mret tt
  | a :: b => log_args_call a;; log_all b
  end.

(** Log a batch, run the handler of [ev], and so on; the records the handler saw. *)
Fixpoint session (ev : Z) (bs : list (list log_args)) : M DATA_HUB_INSTANCE (list EFI_DATA_RECORD_HEADER) :=
  match bs with
  | [] => mret []
  | b :: bs =>
      log_all b;;
      fuel ← gets (λ s, S (length (DataListHead s)));
      rs ← read_all fuel 0 (Some ev);
      rs' ← session ev bs;
      mret (rs ++ rs')
  end.

Definition wanted (c : Z) (a : log_args) : bool := negb (Z.land (la_class a) c =? 0).

(** The record carries the arguments. *)
Definition carries (a : log_args) (r : EFI_DATA_RECORD_HEADER) : Prop :=
  DataRecordGuid r = la_guid a ∧ ProducerName r = la_producer a ∧ DataRecordClass r = la_class a ∧ Raw r = la_raw a.

Lemma log_all_ok b s :
  hub_inv s → CurrentTpl s ≤ TPL_NOTIFY → GlobalMonotonicCount s + Z.of_nat (length b) < 2 ^ 64 → Forall args_ok b →
  ∃ t es, log_all b s = Some (tt, t) ∧ hub_inv t ∧ CurrentTpl t = CurrentTpl s
          ∧ GlobalMonotonicCount t = GlobalMonotonicCount s + Z.of_nat (length b)
          ∧ FilterDriverListHead t = FilterDriverListHead s ∧ DataListHead t = DataListHead s ++ es
          ∧ Forall2 (λ a e, carries a (Record_ e)) b es.
Proof.
  revert s. induction b as [|a b IH]; intros s Hi Ht Hg Hb.
  { exists s, []. split_and!; try done; simpl; [lia|by rewrite app_nil_r]. }
  apply Forall_cons in Hb as [[Ha Hm] Hb]. simpl in Hg. assert (ready s) as Hr by (constructor; first [done|lia]).
  pose proof (log_spec s (la_env a) (la_guid a) (la_producer a) (la_class a) (la_raw a) Hr Ha) as E. rewrite Hm in E.
  set (e := new_entry _ _ _ _ _ _) in E.
  destruct (IH (logged s e)) as (t&es&Et&Hit&Htt&Hgt&Hft&Hlt&H2); [by apply new_entry_inv|done|simpl; lia|done|].
  exists t, (e :: es). split_and!; try done.
  - cbn [log_all]. unfold log_args_call. by rewrite (bind_eq _ _ _ _ _ E).
  - rewrite Hgt. simpl. lia.
  - rewrite Hlt. simpl. by rewrite <- app_assoc.
  - by constructor.
Qed.

Lemma carries_filter c b es :
  Forall2 (λ a e, carries a (Record_ e)) b es →
  Forall2 (λ a e, carries a (Record_ e)) (filter (λ a, wanted c a) b) (of_class c es).
Proof.
  induction 1 as [|a e b es Hae H IH]; [constructor|]. rewrite of_class_cons.
  assert (in_class c e = wanted c a) as -> by (unfold in_class, wanted; destruct Hae as (_&_&->&_); done).
  destruct (wanted c a) eqn:E; [rewrite filter_cons_True by (by rewrite E); by constructor|].
  rewrite filter_cons_False by (rewrite E; auto). done.
Qed.

Lemma last_count_app pre post : post ≠ [] → last_count (pre ++ post) = last_count post.
Proof.
  intros. unfold last_count. destruct post as [|e post _] using rev_ind; [done|]. by rewrite app_assoc, !last_snoc.
Qed.

Lemma session_ok ev bs s f :
  hub_inv s → CurrentTpl s ≤ TPL_NOTIFY → GlobalMonotonicCount s + Z.of_nat (length (concat bs)) < 2 ^ 64 →
  Forall (Forall args_ok) bs → Forall (Exists (λ a, wanted (ClassFilter f) a)) bs →
  FindFilterDriverByEvent (FilterDriverListHead s) ev = Some f →
  GetNextMonotonicCount f = last_count (of_class (ClassFilter f) (DataListHead s)) →
  ∃ rs t, session ev bs s = Some (rs, t) ∧ Forall2 carries (filter (λ a, wanted (ClassFilter f) a) (concat bs)) rs.
Proof.
  revert s f. induction bs as [|b bs IH]; intros s f Hi Ht Hg Hb Hw Hf Hn; [by exists [], s|].
  apply Forall_cons in Hb as [Hb Hbs]. apply Forall_cons in Hw as [Hw Hws]. simpl in Hg. rewrite length_app in Hg.
  destruct (log_all_ok b s) as (t&es&Et&Hit&Htt&Hgt&Hft&Hlt&H2); [done|done|lia|done|].
  apply (carries_filter (ClassFilter f)) in H2. set (new := of_class (ClassFilter f) es) in H2.
  assert (new ≠ []) as Hnew.
  { intros E. rewrite E in H2. apply Forall2_nil_inv_r in H2. apply Exists_exists in Hw as (a&Ha&Hwa).
    assert (a ∈ filter (λ a, wanted (ClassFilter f) a) b) as H by (by apply list_elem_of_filter). rewrite H2 in H. set_solver. }
  assert (of_class (ClassFilter f) (DataListHead t) = of_class (ClassFilter f) (DataListHead s) ++ new) as Eof
    by (by rewrite Hlt, of_class_app).
  rewrite <- Hft in Hf. pose proof (drain t ev f _ new (S (length (DataListHead t))) (inv_counts _ Hit) Hf Eof Hn Hnew ltac:(lia)) as Ed.
  destruct (IH (at_count ev (last_count new) t) (with_next (last_count new) f)) as (rs&u&Eu&Hrs); try done.
  - apply (save_next_inv _ _ _ f); [done|done|]. rewrite Eof, map_app. apply elem_of_app. right.
    destruct new as [|e new _] using rev_ind; [done|]. unfold last_count. rewrite last_snoc, map_app. set_solver.
  - simpl. lia.
  - simpl. lia.
  - by apply find_set_next.
  - simpl. by rewrite Eof, last_count_app.
  - exists (map Record_ new ++ rs), u. split.
    + cbn [session]. rewrite (bind_eq _ _ _ _ _ Et), bind_gets, (bind_eq _ _ _ _ _ Ed), (bind_eq _ _ _ _ _ Eu). done.
    + cbn [concat]. rewrite filter_app. apply Forall2_app; [|done]. by apply Forall2_fmap_r.
Qed.

(** C16. A filter driver that has read everything and whose handler runs after each batch of
    records, each with a record it is signalled for, is given every record of its class
    that is logged exactly once, in the order of logging, with its contents. *)
Theorem hub_exactly_once (s : DATA_HUB_INSTANCE) (ev : Z) (f : DATA_HUB_FILTER_DRIVER) (bs : list (list log_args))
  (Hs : hub_inv s) (Htpl : CurrentTpl s ≤ TPL_NOTIFY)
  (Hcount : (GlobalMonotonicCount s + Z.of_nat (length (concat bs)) < 2 ^ 64)%Z)
  (Hargs : Forall (Forall args_ok) bs) (Hsignal : Forall (Exists (λ a, interested (la_class a) (la_guid a) f)) bs)
  (Hf : FindFilterDriverByEvent (FilterDriverListHead s) ev = Some f)
  (Hread : GetNextMonotonicCount f = last_count (of_class (ClassFilter f) (DataListHead s))) :
  ∃ rs t, session ev bs s = Some (rs, t) ∧ Forall2 carries (filter (λ a, wanted (ClassFilter f) a) (concat bs)) rs.
Proof.
  apply (session_ok ev bs s f); try done. eapply Forall_impl; [exact Hsignal|]. intros b Hb.
  eapply Exists_impl; [exact Hb|]. intros a Ha. unfold interested, wanted in *. rewrite Z.land_comm.
  apply andb_prop_elim in Ha. tauto.
Qed.

(** A count of zero does not give a filter driver its first unread record.  When it has
    read everything, the call succeeds with the last record again instead of
    EFI_NOT_FOUND; and when its first call was with zero too, the second call skips a record. *)
Theorem hub_zero_count (s : DATA_HUB_INSTANCE) (ev : Z) (f : DATA_HUB_FILTER_DRIVER) (Hs : hub_inv s)
  (Hf : FindFilterDriverByEvent (FilterDriverListHead s) ev = Some f) :
  (∀ pre e, of_class (ClassFilter f) (DataListHead s) = pre ++ [e] → GetNextMonotonicCount f = count e →
     DataHubGetNextRecord 0 (Some ev) s = Some ((EFI_SUCCESS, 0, Some (Record_ e)), s))
  ∧ (∀ e1 e2 e3 post, of_class (ClassFilter f) (DataListHead s) = e1 :: e2 :: e3 :: post → GetNextMonotonicCount f = 0 →
       ∃ m t u, DataHubGetNextRecord 0 (Some ev) s = Some ((EFI_SUCCESS, m, Some (Record_ e1)), t)
                ∧ DataHubGetNextRecord 0 (Some ev) t = Some ((EFI_SUCCESS, head_count post, Some (Record_ e3)), u)).
Proof.
  pose proof (inv_counts _ Hs) as Hl. pose proof (counts_ok_of_class (ClassFilter f) _ Hl) as Hok. split.
  - intros pre e E Hn. exact (get_again _ _ _ _ _ Hl Hf E Hn).
  - intros e1 e2 e3 post E Hn. rewrite E, !counts_ok_cons in Hok. unfold DataHubGetNextRecord. rewrite !bind_gets, Hf, Hn.
    cbn [negb orb Z.eqb]. rewrite (get_first _ _ _ _ E). cbn [head_count head from_option].
    rewrite (proj2 (Z.eqb_neq (count e2) 0)) by lia. cbn [negb]. unfold save_next. rewrite bind_modify.
    eexists _, _, _. split; [done|]. rewrite !bind_gets. cbn [FilterDriverListHead DataListHead set_filters].
    rewrite (find_set_next _ _ _ _ Hf). cbn [GetNextMonotonicCount ClassFilter with_next].
    rewrite (proj2 (Z.eqb_neq (count e2) 0)) by lia. cbn [negb orb Z.eqb].
    rewrite (get_at _ _ [e1] _ _ Hl E). cbn [head_count head from_option].
    rewrite (proj2 (Z.eqb_neq (count e3) 0)) by lia. cbn [negb]. rewrite bind_modify.
    rewrite (get_at _ _ [e1; e2] _ _ Hl E). done.
Qed.

(** The sizes of the record and of the entry are kept in 32 bits: for data of at least
    2^32 - 112 bytes the entry allocated is too small for the record written to it. *)
Theorem hub_log_overflow (s : DATA_HUB_INSTANCE) (env : HubEnv) (guid producer : list Z) (class : Z) (raw : list Z) (n : Z)
  (Hs : ready s) (Hn : 2 ^ 32 - 112 ≤ n < 2 ^ 32) (Hmem : ∀ k, AllocatePool env k = true) :
  DataHubLogData env guid producer class raw n s = None.
Proof.
  destruct Hs as [Hi Ht _]. unfold DataHubLogData. rewrite bind_gets, (bind_eq _ _ _ _ _ (acquire_ok s Hi Ht)). cbn [EFI_ERROR].
  rewrite Hmem. cbn [negb]. change sizeof_EFI_DATA_ENTRY with 40. change sizeof_EFI_DATA_RECORD_HEADER with 72.
  rewrite (proj2 (Z.ltb_lt _ _)); [done|]. unfold wrap32. lia.
Qed.

(** ** The theorems at work *)

Definition demo_env : HubEnv := {| GetTime := replicate 16 7; AllocatePool := λ _, true |}.
Definition demo_guid : list Z := replicate 16 9.

Definition demo_args (class : Z) (raw : list Z) : log_args :=
  {| la_env := demo_env; la_guid := demo_guid; la_producer := zero_guid; la_class := class; la_raw := raw |}.

Definition demo_hub : DATA_HUB_INSTANCE := (DataHubInstall (Some 1) EFI_SUCCESS TPL_APPLICATION).2.

(** A filter driver for DATA records, registered with the hub. *)
Definition demo_filtered : DATA_HUB_INSTANCE :=
  from_option snd demo_hub (DataHubRegisterFilterDriver demo_env 5 TPL_CALLBACK 4 None demo_hub).

(** Three DATA records are in the log, none read. *)
Definition demo_logged : DATA_HUB_INSTANCE :=
  from_option snd demo_filtered (log_all [demo_args 4 [1]; demo_args 4 [2]; demo_args 4 [3]] demo_filtered).

Lemma demo_filtered_inv : hub_inv demo_filtered.
Proof.
  destruct (register_ok demo_hub demo_env 5 TPL_CALLBACK 4 None) as (st&t&E&Hi&_); [by apply install_inv|done|].
  unfold demo_filtered. by rewrite E.
Qed.

Lemma demo_logged_inv : hub_inv demo_logged.
Proof.
  destruct (log_all_ok [demo_args 4 [1]; demo_args 4 [2]; demo_args 4 [3]] demo_filtered) as (t&es&E&Hi&_);
    [apply demo_filtered_inv|done|done|by repeat constructor|].
  unfold demo_logged. by rewrite E.
Qed.

Lemma hub_calls_invariant_witness :
  ∃ t, run_calls [RegisterFilterDriver demo_env 5 TPL_CALLBACK 4 None; LogData demo_env demo_guid zero_guid 4 [1; 2];
                  GetNextRecord 0 (Some 5); UnregisterFilterDriver 5] (DataHubInstall (Some 1) EFI_SUCCESS TPL_APPLICATION).2
       = Some (tt, t) ∧ hub_inv t ∧ CurrentTpl t = TPL_APPLICATION.
Proof. apply hub_calls_invariant; [simpl; lia|done|by repeat constructor|done]. Defined.

Lemma hub_log_then_read_witness :
  ∃ t old r,
    DataHubLogData demo_env demo_guid zero_guid 4 [1; 2] (Z.of_nat 2) demo_filtered = Some (EFI_SUCCESS, t)
    ∧ read_all 2 0 None demo_filtered = Some (old, demo_filtered) ∧ read_all 2 0 None t = Some (old ++ [r], t)
    ∧ DataRecordGuid r = demo_guid ∧ ProducerName r = zero_guid ∧ DataRecordClass r = 4 ∧ Raw r = [1; 2]
    ∧ Forall (λ r', LogMonotonicCount r' < LogMonotonicCount r) old
    ∧ Signalled t = Signalled demo_filtered ++ map Event (filter (λ f, interested 4 demo_guid f) (FilterDriverListHead demo_filtered)).
Proof.
  apply (hub_log_then_read demo_filtered demo_env demo_guid zero_guid 4 [1; 2] 2);
    [constructor; [apply demo_filtered_inv|done|done]|done|done|done|vm_compute; lia].
Defined.

Definition demo_filter : DATA_HUB_FILTER_DRIVER :=
  {| Event := 5; Tpl := TPL_CALLBACK; GetNextMonotonicCount := 0; ClassFilter := 4; FilterDataRecordGuid := zero_guid |}.

Lemma hub_exactly_once_witness :
  ∃ rs t, session 5 [[demo_args 4 [1]; demo_args 1 [2]]; [demo_args 4 [3]; demo_args 6 [4]]] demo_filtered = Some (rs, t)
          ∧ Forall2 carries [demo_args 4 [1]; demo_args 4 [3]; demo_args 6 [4]] rs.
Proof.
  apply (hub_exactly_once demo_filtered 5 demo_filter [[demo_args 4 [1]; demo_args 1 [2]]; [demo_args 4 [3]; demo_args 6 [4]]]);
    [apply demo_filtered_inv|done|done|by repeat constructor| |done|done].
  repeat constructor; by vm_compute.
Defined.

(** The filter driver has read the three records. *)
Definition demo_drained : DATA_HUB_INSTANCE := at_count 5 (last_count (DataListHead demo_logged)) demo_logged.

Lemma demo_drained_inv : hub_inv demo_drained.
Proof. apply (save_next_inv _ _ _ demo_filter); [apply demo_logged_inv|done|by vm_compute; do 2 right; left]. Qed.

Definition demo_entry (n : nat) : EFI_DATA_ENTRY := nth n (DataListHead demo_logged) (new_entry demo_hub demo_env [] [] 0 []).

Lemma hub_zero_count_witness :
  DataHubGetNextRecord 0 (Some 5) demo_drained = Some ((EFI_SUCCESS, 0, Some (Record_ (demo_entry 2))), demo_drained)
  ∧ ∃ m t u, DataHubGetNextRecord 0 (Some 5) demo_logged = Some ((EFI_SUCCESS, m, Some (Record_ (demo_entry 0))), t)
             ∧ DataHubGetNextRecord 0 (Some 5) t = Some ((EFI_SUCCESS, 0, Some (Record_ (demo_entry 2))), u).
Proof.
  split.
  - apply (proj1 (hub_zero_count demo_drained 5 (with_next (count (demo_entry 2)) demo_filter) demo_drained_inv eq_refl)
             [demo_entry 0; demo_entry 1] (demo_entry 2)); reflexivity.
  - apply (proj2 (hub_zero_count demo_logged 5 demo_filter demo_logged_inv eq_refl)
             (demo_entry 0) (demo_entry 1) (demo_entry 2) []); reflexivity.
Defined.

(** The second of three records is not delivered when every call passes zero. *)
Example hub_skips_second :
  (r1 ← DataHubGetNextRecord 0 (Some 5); r2 ← DataHubGetNextRecord 0 (Some 5); mret (Raw <$> r1.2, Raw <$> r2.2)) demo_logged ≫= (λ x, Some x.1)
  = Some (Some [1], Some [3]).
Proof. reflexivity. Qed.
