(* ===== verification/Sha1.v ===== *)
(** * HashServiceFix: SHA-1 (sha1.c, sha1.h)

    The code is written for 32-bit words; sha1.h defines [uint32_t] as UINT64.  The model
    takes the width [w] of [uint32_t] as an argument, [sha1_h_width] is the width of the
    header.

    [SHA1Transform] copies 64 bytes into a union of 64 bytes and 16 words, on the stack.
    The union has [16 * w / 8] bytes: what the copy does not reach holds what the stack
    held, [stack n] in the [n]-th transform.  An access outside an array is [None]. *)

From Stdlib Require Import ZArith Lia.
From stdpp Require Import base list list_numbers.
From S2P Require Import Prelude.

Open Scope Z_scope.

(** [#define uint32_t UINT64] *)
Definition sha1_h_width : Z := 64.

(** [transforms] counts the transforms so far: it only names the stack contents. *)
Record SHA1_CTX := { state : list Z; count0 : Z; count1 : Z; buffer : list Z; transforms : nat }.

Section Sha1.
Context (w : Z) (stack : nat → list Z).

Definition wrap (x : Z) : Z := x mod 2 ^ w.

Definition rol (value bits : Z) : Z := Z.lor (wrap (Z.shiftl value bits)) (Z.shiftr value (32 - bits)).

(** ** One block *)

(** The words of the union. *)
Definition word_bytes : nat := Z.to_nat (w / 8).
Definition union_words (bytes : list Z) : list Z := map (λ i, load word_bytes (i * word_bytes) bytes) (seq 0 16).

Definition word (l : list Z) (i : nat) : Z := nth i l 0.

(** The new value of [block->l[i]], resp. [block->l[i & 15]]. *)
Definition blk0 (l : list Z) (i : nat) : Z :=
  Z.lor (Z.land (rol (word l i) 24) 0xFF00FF00) (Z.land (rol (word l i) 8) 0x00FF00FF).
Definition blk (l : list Z) (i : nat) : Z :=
  rol (Z.lxor (Z.lxor (Z.lxor (word l ((i + 13) mod 16)) (word l ((i + 8) mod 16))) (word l ((i + 2) mod 16))) (word l (i mod 16))) 1.

(** The macro of round [i]: its function of [w], [x], [y] and its constant. *)
Definition round_f (i : nat) (w x y : Z) : Z :=
  if (i <? 20)%nat then Z.lxor (Z.land w (Z.lxor x y)) y
  else if (i <? 40)%nat then Z.lxor (Z.lxor w x) y
  else if (i <? 60)%nat then Z.lor (Z.land (Z.lor w x) y) (Z.land w x)
  else Z.lxor (Z.lxor w x) y.
Definition round_k (i : nat) : Z :=
  if (i <? 20)%nat then 0x5A827999
  else if (i <? 40)%nat then 0x6ED9EBA1
  else if (i <? 60)%nat then 0x8F1BBCDC
  else 0xCA62C1D6.

(** The variables a..e are [vars]; round [i] calls its macro with them rotated by [i]. *)
Definition arg (i k : nat) : nat := (k + 4 * i) mod 5.

(** R0 up to round 15, R1 to R4 afterwards. *)
Definition round (i : nat) (vars l : list Z) : list Z * list Z :=
  let b := if (i <? 16)%nat then blk0 l i else blk l i in
  let v k := word vars (arg i k) in
  let z := wrap (v 4%nat + (round_f i (v 1%nat) (v 2%nat) (v 3%nat) + b + round_k i + rol (v 0%nat) 5)) in
  (<[arg i 1 := rol (v 1%nat) 30]> (<[arg i 4 := z]> vars), <[(i mod 16)%nat := b]> l).

Fixpoint rounds (n i : nat) (vars l : list Z) : list Z :=
  match n with
  | O => vars
  | S n => let '(vars, l) := round i vars l in rounds n (S i) vars l
  end.

Definition SHA1Transform (junk st buf : list Z) : list Z :=
  let block := union_words (take 64 buf ++ junk) in
  let vars := rounds 80 0 st block in
  zip_with (λ s v, wrap (s + v)) st vars.

(** ** The context *)

Definition SHA1Init (c : SHA1_CTX) : SHA1_CTX :=
  {| state := [0x67452301; 0xEFCDAB89; 0x98BADCFE; 0x10325476; 0xC3D2E1F0]; count0 := 0; count1 := 0;
     buffer := buffer c; transforms := transforms c |}.

Definition transform_ctx (c : SHA1_CTX) (bytes : list Z) : SHA1_CTX :=
  {| state := SHA1Transform (stack (transforms c)) (state c) bytes; count0 := count0 c; count1 := count1 c;
     buffer := buffer c; transforms := S (transforms c) |}.

(** [memcpy (&context->buffer[j], src, n)] *)
Definition copy_to_buffer (j : Z) (src : list Z) (n : Z) (c : SHA1_CTX) : option SHA1_CTX :=
  if (64 <? j + n) || (Z.of_nat (length src) <? n) then None
  else Some {| state := state c; count0 := count0 c; count1 := count1 c;
               buffer := store (Z.to_nat j) (take (Z.to_nat n) src) (buffer c); transforms := transforms c |}.

(** [for ( ; i + 63 < len; i += 64)]: the final [i]. *)
Fixpoint transform_loop (fuel : nat) (data : list Z) (len i : Z) (c : SHA1_CTX) : option (Z * SHA1_CTX) :=
  match fuel with
  | O => None
  | S fuel =>
      if wrap (i + 63) <? len then
        if Z.of_nat (length data) <? i + 64 then None
        else transform_loop fuel data len (wrap (i + 64)) (transform_ctx c (drop (Z.to_nat i) data))
      else Some (i, c)
  end.

Definition SHA1Update (c : SHA1_CTX) (data : list Z) (len : Z) : option SHA1_CTX :=
  let j := count0 c in
  let n0 := wrap (count0 c + wrap (Z.shiftl len 3)) in
  let n1 := if n0 <? j then wrap (count1 c + 1) else count1 c in
  let n1 := wrap (n1 + Z.shiftr len 29) in
  let c := {| state := state c; count0 := n0; count1 := n1; buffer := buffer c; transforms := transforms c |} in
  let j := Z.land (Z.shiftr j 3) 63 in
  if 63 <? wrap (j + len) then
    let i := 64 - j in
    c ← copy_to_buffer j data i c;
    '(i, c) ← transform_loop (S (length data)) data len i (transform_ctx c (buffer c));
    copy_to_buffer 0 (drop (Z.to_nat i) data) (len - i) c
  else copy_to_buffer j data len c.

(** Byte [i] of the big-endian bytes of 32-bit words. *)
Definition be_byte (x : Z) (i : nat) : Z := Z.land (Z.shiftr x (8 * Z.of_nat (3 - i))) 255.

Definition finalcount (c : SHA1_CTX) : list Z := map (be_byte (count1 c)) (seq 0 4) ++ map (be_byte (count0 c)) (seq 0 4).

(** [while ((context->count[0] & 504) != 448)] *)
Fixpoint pad_loop (fuel : nat) (c : SHA1_CTX) : option SHA1_CTX :=
  match fuel with
  | O => None
  | S fuel =>
      if Z.land (count0 c) 504 =? 448 then Some c
      else c ← SHA1Update c [0] 1; pad_loop fuel c
  end.

Definition zero_ctx (n : nat) : SHA1_CTX :=
  {| state := replicate 5 0; count0 := 0; count1 := 0; buffer := replicate 64 0; transforms := n |}.

(** The digest and the wiped context. *)
Definition SHA1Final (c : SHA1_CTX) : option (list Z * SHA1_CTX) :=
  let fc := finalcount c in
  c ← SHA1Update c [0x80] 1;
  c ← pad_loop 64 c;
  c ← SHA1Update c fc 8;
  Some (s ← state c; map (be_byte s) (seq 0 4), zero_ctx (transforms c)).

End Sha1.
