(* ===== verification/Sha1Spec.v ===== *)
(** * HashServiceFix: SHA-1 as FIPS 180 defines it, and one block of sha1.c

    The standard's loops are written for words of [w] bits and for any first 16 words of
    the schedule.  [sha1] is the standard's function, with 32-bit words; [wide_sha1] is
    what the same loops give with 64-bit words, the shifts of a 32-bit rotation, and blocks
    whose second half was never written.  [SHA1Transform] is one block of either: the 80
    unrolled rounds, which rename the working variables and keep the last 16 words of the
    schedule in the block, compute the standard's loop ([transform_compress]). *)

From Stdlib Require Import ZArith Lia.
From stdpp Require Import base list list_numbers.
From S2P Require Import Prelude Sha1.

Open Scope Z_scope.

(** ** The standard *)

(** Rotation by [n], for words of 32 bits. *)
Definition ROTL (w n x : Z) : Z := Z.lor (Z.shiftl x n mod 2 ^ w) (Z.shiftr x (32 - n)).
Definition Ch (x y z : Z) : Z := Z.lxor (Z.land x y) (Z.land (Z.lnot x) z).
Definition Parity (x y z : Z) : Z := Z.lxor (Z.lxor x y) z.
Definition Maj (x y z : Z) : Z := Z.lxor (Z.lxor (Z.land x y) (Z.land x z)) (Z.land y z).

Definition f_t (t : nat) : Z → Z → Z → Z :=
  if (t <? 20)%nat then Ch else if (t <? 40)%nat then Parity else if (t <? 60)%nat then Maj else Parity.
Definition K_t (t : nat) : Z :=
  if (t <? 20)%nat then 0x5A827999 else if (t <? 40)%nat then 0x6ED9EBA1 else if (t <? 60)%nat then 0x8F1BBCDC else 0xCA62C1D6.

(** Word [t] of a block, most significant byte first. *)
Definition be_word (b : list Z) (t : nat) : Z :=
  2 ^ 24 * nth (4 * t) b 0 + 2 ^ 16 * nth (4 * t + 1) b 0 + 2 ^ 8 * nth (4 * t + 2) b 0 + nth (4 * t + 3) b 0.

Section Loops.
Context (w : Z).

(** The first [n] words of the message schedule, [first] are the words of the block. *)
Fixpoint schedule (first : nat → Z) (n : nat) : list Z :=
  match n with
  | O => []
  | S t =>
      let ws := schedule first t in
      let W k := nth (t - k) ws 0 in
      ws ++ [if (t <? 16)%nat then first t
             else ROTL w 1 (Z.lxor (Z.lxor (Z.lxor (W 3%nat) (W 8%nat)) (W 14%nat)) (W 16%nat))]
  end.

Definition W (first : nat → Z) (t : nat) : Z := nth t (schedule first 80) 0.

Definition sha1_step (first : nat → Z) (t : nat) (h : list Z) : list Z :=
  match h with
  | [a; b'; c; d; e] =>
      [(ROTL w 5 a + f_t t b' c d + e + K_t t + W first t) mod 2 ^ w; a; ROTL w 30 b'; c; d]
  | _ => h
  end.

Definition compress (first : nat → Z) (h : list Z) : list Z :=
  zip_with (λ x y, (x + y) mod 2 ^ w) h (foldl (λ v t, sha1_step first t v) h (seq 0 80)).
End Loops.

Definition H_0 : list Z := [0x67452301; 0xEFCDAB89; 0x98BADCFE; 0x10325476; 0xC3D2E1F0].

(** The first [n] blocks of a message. *)
Fixpoint blocks (n : nat) (m : list Z) : list (list Z) :=
  match n with
  | O => []
  | S n => take 64 m :: blocks n (drop 64 m)
  end.

Definition be_bytes (n : nat) (x : Z) : list Z := rev (le_put n x).

(** A one bit, zeros up to 56 bytes of the last block, and the length in bits. *)
Definition pad (m : list Z) : list Z :=
  m ++ [0x80] ++ replicate (Z.to_nat ((55 - Z.of_nat (length m)) mod 64)) 0 ++ be_bytes 8 (8 * Z.of_nat (length m)).

Definition pad_blocks (m : list Z) : nat := length (pad m) / 64.

Definition sha1 (m : list Z) : list Z :=
  foldl (λ h b, compress 32 (be_word b) h) H_0 (blocks (pad_blocks m) (pad m)) ≫= be_bytes 4.

(** ** 64-bit words *)

(** Word [t] of a block of 128 bytes: of each eight bytes the first four, most significant
    byte first, with the fifth and the sixth mixed into the first and the second. *)
Definition wide_word (b : list Z) (t : nat) : Z :=
  let byte k := nth (8 * t + k) b 0 in
  2 ^ 24 * Z.lor (byte 0%nat) (byte 4%nat) + 2 ^ 16 * Z.lor (byte 1%nat) (byte 5%nat) + 2 ^ 8 * byte 2%nat + byte 3%nat.

(** The hash of [m] when the 64 bytes behind the blocks are [junks]: each block has 64 bytes
    of the padded message and 64 bytes of junk; the low halves of the words are the digest. *)
Definition wide_sha1 (junks : list (list Z)) (m : list Z) : list Z :=
  foldl (λ h b, compress 64 (wide_word b) h) H_0 (zip_with app (blocks (pad_blocks m) (pad m)) junks) ≫= be_bytes 4.

(** ** Rotations and round functions *)

Lemma rol_ROTL w x n : rol w x n = ROTL w n x.
Proof. done. Qed.

Lemma choose_Ch x y z : Z.lxor (Z.land x (Z.lxor y z)) z = Ch x y z.
Proof.
  apply Z.bits_inj'. intros i Hi. unfold Ch. rewrite !Z.lxor_spec, !Z.land_spec, !Z.lxor_spec, Z.lnot_spec by done.
  by destruct (Z.testbit x i), (Z.testbit y i), (Z.testbit z i).
Qed.

Lemma majority_Maj x y z : Z.lor (Z.land (Z.lor x y) z) (Z.land x y) = Maj x y z.
Proof.
  apply Z.bits_inj'. intros i Hi. unfold Maj. rewrite !Z.lor_spec, !Z.lxor_spec, !Z.land_spec, !Z.lor_spec by done.
  by destruct (Z.testbit x i), (Z.testbit y i), (Z.testbit z i).
Qed.

Lemma round_f_spec t x y z : round_f t x y z = f_t t x y z.
Proof.
  unfold round_f, f_t. destruct (t <? 20)%nat; [apply choose_Ch|]. destruct (t <? 40)%nat; [done|].
  destruct (t <? 60)%nat; [apply majority_Maj|done].
Qed.

(** ** The schedule *)

Section Schedule.
Context (w : Z).
Implicit Types b : nat → Z.

Lemma length_schedule b n : length (schedule w b n) = n.
Proof. induction n; simpl; rewrite ?length_app; simpl; lia. Qed.

Lemma schedule_prefix b n k t : (t < n)%nat → nth t (schedule w b (n + k)) 0 = nth t (schedule w b n) 0.
Proof.
  intros Ht. induction k as [|k IH]; [by rewrite Nat.add_0_r|]. rewrite Nat.add_succ_r. cbn [schedule].
  rewrite app_nth1 by (rewrite length_schedule; lia). done.
Qed.

Lemma W_at b n t : (t < n)%nat → (n ≤ 80)%nat → nth t (schedule w b n) 0 = W w b t.
Proof. intros. unfold W. replace 80%nat with (n + (80 - n))%nat by lia. by rewrite schedule_prefix. Qed.

Lemma W_eq b t :
  (t < 80)%nat →
  W w b t = if (t <? 16)%nat then b t
            else ROTL w 1 (Z.lxor (Z.lxor (Z.lxor (W w b (t - 3)) (W w b (t - 8))) (W w b (t - 14))) (W w b (t - 16))).
Proof.
  intros Ht. rewrite <- (W_at b (S t)) by lia. cbn [schedule]. rewrite app_nth2 by (rewrite length_schedule; lia).
  rewrite length_schedule, Nat.sub_diag. cbn [nth]. destruct (t <? 16)%nat eqn:E; [done|]. apply Nat.ltb_ge in E.
  by rewrite !W_at by lia.
Qed.
End Schedule.

(** ** Bytes and words *)

Lemma testbit_cons b r i :
  is_byte b → 0 ≤ i → Z.testbit (b + 256 * r) i = if i <? 8 then Z.testbit b i else Z.testbit r (i - 8).
Proof.
  intros Hb Hi. unfold is_byte in Hb. destruct (i <? 8) eqn:E; zbool.
  - rewrite <- (Z.mod_pow2_bits_low _ 8) by done. f_equal. change (2 ^ 8) with 256. lia.
  - replace i with (i - 8 + 8) at 1 by lia. rewrite <- Z.div_pow2_bits by lia. f_equal. change (2 ^ 8) with 256. lia.
Qed.

Lemma testbit_rol w x n i :
  0 ≤ i < w → 0 ≤ n ≤ 32 → Z.testbit (rol w x n) i = Z.testbit x (i - n) || Z.testbit x (i + (32 - n)).
Proof.
  intros. unfold rol, wrap. by rewrite Z.lor_spec, Z.mod_pow2_bits_low, Z.shiftl_spec, Z.shiftr_spec by lia.
Qed.

Lemma testbit_small x n i : 0 ≤ x < 2 ^ n → n ≤ i → Z.testbit x i = false.
Proof.
  intros Hx Hi. destruct (decide (x = 0)) as [->|]; [apply Z.bits_0|]. apply Z.bits_above_log2; [lia|].
  assert (Z.log2 x < n) by (apply Z.log2_lt_pow2; lia). lia.
Qed.

(** A statement about a bit number below [n] is checked number by number. *)
Ltac each_bit i n :=
  let k := eval vm_compute in (Z.to_nat n) in
  let rec go k :=
    lazymatch k with
    | O => exfalso; lia
    | S ?k => destruct (decide (i = Z.of_nat k)) as [->|]; [|go k]
    end in go k.

(** The word of four bytes, and its bits. *)
Definition word4 (a b c d : Z) : Z := a + 256 * (b + 256 * (c + 256 * (d + 256 * 0))).

Lemma testbit_word4 a b c d i :
  is_byte a → is_byte b → is_byte c → is_byte d →
  Z.testbit (word4 a b c d) i
  = if i <? 0 then false else if i <? 8 then Z.testbit a i else if i <? 16 then Z.testbit b (i - 8)
    else if i <? 24 then Z.testbit c (i - 16) else if i <? 32 then Z.testbit d (i - 24) else false.
Proof.
  intros Ha Hb Hc Hd. unfold word4. repeat case_match; zbool.
  - by apply Z.testbit_neg_r.
  - rewrite testbit_cons by (done || lia). by rewrite (proj2 (Z.ltb_lt _ _)) by lia.
  - rewrite !testbit_cons by (done || lia). by rewrite (proj2 (Z.ltb_ge i 8)), (proj2 (Z.ltb_lt (i - 8) 8)) by lia.
  - rewrite !testbit_cons by (done || lia).
    rewrite (proj2 (Z.ltb_ge i 8)), (proj2 (Z.ltb_ge (i - 8) 8)), (proj2 (Z.ltb_lt (i - 8 - 8) 8)) by lia. f_equal. lia.
  - rewrite !testbit_cons by (done || lia).
    rewrite (proj2 (Z.ltb_ge i 8)), (proj2 (Z.ltb_ge (i - 8) 8)), (proj2 (Z.ltb_ge (i - 8 - 8) 8)), (proj2 (Z.ltb_lt (i - 8 - 8 - 8) 8)) by lia.
    f_equal. lia.
  - apply (testbit_small _ 32); [|done]. unfold is_byte in *. lia.
Qed.

(** The bits of numerals. *)
Ltac eval_bits :=
  repeat match goal with
  | |- context [Z.testbit (Zpos ?p) ?i] => let v := eval vm_compute in (Z.testbit (Zpos p) i) in change (Z.testbit (Zpos p) i) with v
  end.

(** [blk0] reverses the bytes. *)
Lemma blk0_bytes a b c d :
  is_byte a → is_byte b → is_byte c → is_byte d →
  Z.lor (Z.land (rol 32 (word4 a b c d) 24) 0xFF00FF00) (Z.land (rol 32 (word4 a b c d) 8) 0x00FF00FF) = word4 d c b a.
Proof.
  intros Ha Hb Hc Hd. apply Z.bits_inj'. intros i Hi. rewrite Z.lor_spec, !Z.land_spec. destruct (Z.lt_ge_cases i 32) as [Hlt|Hge].
  - rewrite !testbit_rol, !testbit_word4 by (done || lia). each_bit i 32.
    all: eval_bits; cbn -[Z.testbit]; by rewrite ?andb_false_r, ?andb_true_r, ?orb_false_r.
  - rewrite (testbit_small 0xFF00FF00 32), (testbit_small 0x00FF00FF 32), !andb_false_r by lia.
    symmetry. apply (testbit_small _ 32); [|done]. unfold word4, is_byte in *. lia.
Qed.

Lemma load4 (t : nat) bs :
  (t * 4 + 4 ≤ length bs)%nat →
  load 4 (t * 4) bs = word4 (nth (4 * t) bs 0) (nth (4 * t + 1) bs 0) (nth (4 * t + 2) bs 0) (nth (4 * t + 3) bs 0).
Proof.
  intros Ht. unfold load, slice, word4. replace (t * 4)%nat with (4 * t)%nat in * by lia. revert bs Ht. generalize (4 * t)%nat as k.
  intros k bs Hk. rewrite <- (Nat.add_0_r k) at 2. rewrite <- !nth_skipn.
  assert (4 ≤ length (drop k bs))%nat as Hd by (rewrite length_drop; lia).
  destruct (drop k bs) as [|b0 [|b1 [|b2 [|b3 l]]]]; simpl in Hd; try lia. simpl. lia.
Qed.

(** Eight bytes, and what [blk0] makes of them with 64-bit words. *)
Definition word8 (a b c d e f g h : Z) : Z := word4 a b c d + 2 ^ 32 * word4 e f g h.

Lemma testbit_word8 a b c d e f g h i :
  is_byte a → is_byte b → is_byte c → is_byte d → is_byte e → is_byte f → is_byte g → is_byte h →
  Z.testbit (word8 a b c d e f g h) i
  = if i <? 32 then Z.testbit (word4 a b c d) i else Z.testbit (word4 e f g h) (i - 32).
Proof.
  intros Ha Hb Hc Hd He Hf Hg Hh. unfold word8. destruct (i <? 32) eqn:E; zbool.
  - destruct (decide (i < 0)); [by rewrite !Z.testbit_neg_r by lia|].
    rewrite <- (Z.mod_pow2_bits_low (_ + _) 32) by lia. f_equal.
    rewrite Z.mul_comm, Z.mod_add by lia. apply Z.mod_small. unfold word4, is_byte in *. lia.
  - replace i with (i - 32 + 32) at 1 by lia. rewrite <- Z.div_pow2_bits by lia. f_equal.
    rewrite Z.mul_comm, Z.div_add, Z.div_small by (unfold word4, is_byte in *; lia). lia.
Qed.

Lemma lor_byte a b : is_byte a → is_byte b → is_byte (Z.lor a b).
Proof.
  unfold is_byte. intros Ha Hb. split; [apply Z.lor_nonneg; lia|]. change 256 with (2 ^ 8).
  destruct (decide (Z.lor a b = 0)) as [->|Hn]; [lia|]. apply Z.log2_lt_pow2; [assert (0 ≤ Z.lor a b) by (apply Z.lor_nonneg; lia); lia|].
  rewrite Z.log2_lor by lia. apply Z.max_lub_lt.
  - destruct (decide (a = 0)) as [->|]; [done|]. apply Z.log2_lt_pow2; lia.
  - destruct (decide (b = 0)) as [->|]; [done|]. apply Z.log2_lt_pow2; lia.
Qed.

Lemma blk0_wide_bytes a b c d e f g h :
  is_byte a → is_byte b → is_byte c → is_byte d → is_byte e → is_byte f → is_byte g → is_byte h →
  Z.lor (Z.land (rol 64 (word8 a b c d e f g h) 24) 0xFF00FF00) (Z.land (rol 64 (word8 a b c d e f g h) 8) 0x00FF00FF)
  = word4 d c (Z.lor b f) (Z.lor a e).
Proof.
  intros Ha Hb Hc Hd He Hf Hg Hh. pose proof (lor_byte b f Hb Hf). pose proof (lor_byte a e Ha He).
  apply Z.bits_inj'. intros i Hi. rewrite Z.lor_spec, !Z.land_spec. destruct (Z.lt_ge_cases i 32) as [Hlt|Hge].
  - rewrite !testbit_rol, !testbit_word8, !testbit_word4 by (done || lia). each_bit i 32.
    all: eval_bits; cbn -[Z.testbit Z.lor]; rewrite ?Z.lor_spec, ?andb_false_r, ?andb_true_r, ?orb_false_r, ?orb_false_l; done.
  - rewrite (testbit_small 0xFF00FF00 32), (testbit_small 0x00FF00FF 32), !andb_false_r by lia.
    symmetry. apply (testbit_small _ 32); [|done]. unfold word4, is_byte in *. lia.
Qed.

Lemma load8 (t : nat) bs :
  (t * 8 + 8 ≤ length bs)%nat →
  let byte k := nth (8 * t + k) bs 0 in
  load 8 (t * 8) bs
  = word8 (byte 0%nat) (byte 1%nat) (byte 2%nat) (byte 3%nat) (byte 4%nat) (byte 5%nat) (byte 6%nat) (byte 7%nat).
Proof.
  intros Ht. cbv zeta. unfold load, slice, word8, word4. replace (t * 8)%nat with (8 * t)%nat in * by lia. revert bs Ht. generalize (8 * t)%nat as k.
  intros k bs Hk. rewrite <- !nth_skipn.
  assert (8 ≤ length (drop k bs))%nat as Hd by (rewrite length_drop; lia).
  destruct (drop k bs) as [|b0 [|b1 [|b2 [|b3 [|b4 [|b5 [|b6 [|b7 l]]]]]]]]; simpl in Hd; try lia. simpl. lia.
Qed.

Lemma nth_byte bs k : Forall is_byte bs → is_byte (nth k bs 0).
Proof.
  intros Hbytes. destruct (decide (k < length bs)%nat) as [Hk|Hk].
  - rewrite Forall_nth in Hbytes. by apply Hbytes.
  - rewrite nth_overflow by lia. unfold is_byte. lia.
Qed.

(** The words of the union. *)
Lemma union_word w bs (t : nat) : (t < 16)%nat → word (union_words w bs) t = load (word_bytes w) (t * word_bytes w) bs.
Proof.
  intros Ht. unfold word, union_words. rewrite (nth_indep _ 0 (load (word_bytes w) (0 * word_bytes w) bs))
    by (rewrite length_map, length_seq; lia).
  by rewrite (map_nth (λ i, load (word_bytes w) (i * word_bytes w) bs)), seq_nth by done.
Qed.

(** [first] are the words that [blk0] makes of the words of the union. *)
Definition first_words (w : Z) (bs : list Z) (first : nat → Z) : Prop :=
  ∀ l t, (t < 16)%nat → word l t = word (union_words w bs) t → blk0 w l t = first t.

Lemma first_words_32 bs : (64 ≤ length bs)%nat → Forall is_byte bs → first_words 32 bs (be_word bs).
Proof.
  intros Hl Hb l t Ht E. unfold blk0. rewrite E, union_word by done. change (word_bytes 32) with 4%nat.
  rewrite load4, blk0_bytes by (lia || by apply nth_byte). unfold word4, be_word. lia.
Qed.

Lemma first_words_64 bs : (128 ≤ length bs)%nat → Forall is_byte bs → first_words 64 bs (wide_word bs).
Proof.
  intros Hl Hb l t Ht E. unfold blk0. rewrite E, union_word by done. change (word_bytes 64) with 8%nat.
  rewrite load8, blk0_wide_bytes by (lia || by apply nth_byte). unfold word4, wide_word. lia.
Qed.

Section Block.
Context (w : Z) (bs : list Z) (first : nat → Z).
Hypothesis Hfirst : first_words w bs first.

Abbreviation block := (union_words w bs).

(** ** Rounds *)

(** Before round [i] the block holds the words of the last 16 rounds and, before round 16,
    the words of the message not used yet. *)
Record block_at (i : nat) (l : list Z) : Prop := {
  block_len : length l = 16%nat;
  block_done t : (t < i)%nat → (i ≤ t + 16)%nat → word l (t mod 16) = W w first t;
  block_todo t : (i ≤ t < 16)%nat → word l t = word block t
}.

Lemma block_at_word i l : block_at i l → (i < 80)%nat → (if (i <? 16)%nat then blk0 w l i else blk w l i) = W w first i.
Proof.
  intros [Hl Hd Ht] Hi. destruct (i <? 16)%nat eqn:E; zbool; [rewrite W_eq, (proj2 (Nat.ltb_lt _ _)) by lia; apply Hfirst; [done|apply Ht; lia]|].
  rewrite W_eq, (proj2 (Nat.ltb_ge _ _)) by done. unfold blk. rewrite rol_ROTL.
  assert (∀ k r, (0 < k)%nat → (k + r = 16)%nat → word l ((i + r) mod 16) = W w first (i - k)) as Hk.
  { intros k r Hk1 Hk2. rewrite <- (Hd (i - k)%nat) by lia. f_equal.
    replace (i + r)%nat with (i - k + 1 * 16)%nat by lia. apply Nat.Div0.mod_add. }
  rewrite (Hk 3%nat 13%nat), (Hk 8%nat 8%nat), (Hk 14%nat 2%nat) by lia. pose proof (Hk 16%nat 0%nat ltac:(lia) ltac:(lia)) as H16.
  rewrite Nat.add_0_r in H16. by rewrite H16.
Qed.

Lemma word_insert l k i x : (i < length l)%nat → word (<[i:=x]> l) k = if decide (k = i) then x else word l k.
Proof.
  intros Hi. unfold word. case_decide; [subst|].
  - apply nth_lookup_Some. by apply list_lookup_insert_eq.
  - rewrite !nth_lookup. by rewrite list_lookup_insert_ne.
Qed.

Lemma block_at_step i l : block_at i l → (i < 80)%nat → block_at (S i) (<[(i mod 16)%nat := W w first i]> l).
Proof.
  intros [Hl Hd Ht] Hi. assert (i mod 16 < 16)%nat by (by apply Nat.mod_upper_bound). constructor.
  - by rewrite length_insert.
  - intros t H1 H2. rewrite word_insert by lia. case_decide as E.
    + f_equal. assert (i mod 16 = t mod 16)%nat as E' by done. pose proof (Nat.div_mod_eq i 16). pose proof (Nat.div_mod_eq t 16). lia.
    + apply Hd; [|lia]. destruct (decide (t = i)); [by subst|lia].
  - intros t H1. rewrite word_insert by lia. rewrite decide_False; [apply Ht; lia|].
    rewrite Nat.mod_small by lia. lia.
Qed.
End Block.

Section Rounds.
Context (w : Z).
Implicit Types b : nat → Z.

(** The variables a..e of sha1.c before round [i]: the standard's, renamed. *)
Definition rot (i : nat) (l : list Z) : list Z := map (λ p, word l ((p + i) mod 5)) (seq 0 5).

Lemma mod5_cases i : ∃ q r, i = (q * 5 + r)%nat ∧ (r < 5)%nat.
Proof. exists (i / 5)%nat, (i mod 5)%nat. pose proof (Nat.div_mod_eq i 5). pose proof (Nat.mod_upper_bound i 5). lia. Qed.

Lemma rot_mod q r l : rot (q * 5 + r) l = rot r l.
Proof.
  unfold rot. apply map_ext. intros p. f_equal. replace (p + (q * 5 + r))%nat with (p + r + q * 5)%nat by lia.
  apply Nat.Div0.mod_add.
Qed.

Lemma arg_mod q r k : arg (q * 5 + r) k = arg r k.
Proof. unfold arg. replace (k + 4 * (q * 5 + r))%nat with (k + 4 * r + 4 * q * 5)%nat by lia. apply Nat.Div0.mod_add. Qed.

Lemma round_sim b i l h (b' : list Z) :
  length h = 5%nat → (if (i <? 16)%nat then blk0 w l i else blk w l i) = W w b i → b' = <[(i mod 16)%nat := W w b i]> l →
  round w i (rot i h) l = (rot (S i) (sha1_step w b i h), b').
Proof.
  intros Hh Hb ->. unfold round. rewrite Hb. clear Hb. f_equal. rewrite round_f_spec.
  change (round_k i) with (K_t i). unfold sha1_step.
  generalize (W w b i) as wi, (K_t i) as ki, (f_t i) as fi. intros wi ki fi.
  destruct (mod5_cases i) as (q&r&->&Hr). rewrite rot_mod. replace (S (q * 5 + r)) with (q * 5 + S r)%nat by lia. rewrite rot_mod.
  rewrite !arg_mod.
  destruct h as [|a [|b0 [|c [|d [|e [|]]]]]]; try discriminate Hh.
  assert (∀ z f x, wrap w (z + (f + wi + ki + rol w x 5)) = (ROTL w 5 x + f + z + ki + wi) mod 2 ^ w) as Hz
    by (intros; unfold wrap; rewrite rol_ROTL; f_equal; lia).
  rewrite Hz, rol_ROTL. clear Hz. generalize (ROTL w) as g, (2 ^ w) as p. intros g p.
  destruct r as [|[|[|[|[|]]]]]; try lia; reflexivity.
Qed.

Lemma sha1_step_length b t h : length h = 5%nat → length (sha1_step w b t h) = 5%nat.
Proof. intros Hh. by destruct h as [|? [|? [|? [|? [|? [|]]]]]]. Qed.

Lemma foldl_steps_length b ts h : length h = 5%nat → length (foldl (λ v t, sha1_step w b t v) h ts) = 5%nat.
Proof. revert h. induction ts as [|t ts IH]; intros h Hh; [done|]. simpl. by apply IH, sha1_step_length. Qed.

Lemma compress_length h b : length h = 5%nat → length (compress w b h) = 5%nat.
Proof. intros Hh. unfold compress. rewrite length_zip_with_l_eq; [done|]. by rewrite foldl_steps_length. Qed.

Lemma rounds_sim bs first n i l h :
  first_words w bs first → block_at w bs first i l → length h = 5%nat → (i + n ≤ 80)%nat →
  rounds w n i (rot i h) l = rot (i + n) (foldl (λ v t, sha1_step w first t v) h (seq i n)).
Proof.
  intros Hfirst. revert i l h. induction n as [|n IH]; intros i l h Hl Hh Hi; cbn [rounds seq foldl]; [by rewrite Nat.add_0_r|].
  rewrite (round_sim first _ _ _ (<[(i mod 16)%nat := W w first i]> l) Hh);
    [|by apply (block_at_word w bs); [..|lia]|done].
  rewrite (IH (S i)); [by rewrite <- plus_n_Sm| |by apply sha1_step_length|lia].
  apply block_at_step; first [done | lia].
Qed.

(** One transform is the standard's compression of the words of the block. *)
Lemma transform_compress junk h buf first :
  length h = 5%nat → first_words w (take 64 buf ++ junk) first → SHA1Transform w junk h buf = compress w first h.
Proof.
  intros Hh Hf. unfold SHA1Transform, compress. f_equal.
  assert (∀ l, length l = 5%nat → rot 0 l = l ∧ rot 80 l = l) as Hrot
    by (intros l Hl; by destruct l as [|? [|? [|? [|? [|? [|]]]]]]).
  rewrite <- (proj1 (Hrot h Hh)) at 1. rewrite (rounds_sim (take 64 buf ++ junk) first).
  - apply Hrot. by rewrite foldl_steps_length.
  - done.
  - constructor; [done|lia|done].
  - done.
  - done.
Qed.
End Rounds.
