(* ===== verification/Sha1Proofs.v ===== *)
(** * HashServiceFix: updates and padding

    [update_eq] says what [SHA1Update] does at any width: the blocks completed by the new
    data are transformed, the rest stays in the buffer.  [rep] relates a context to the
    message it has seen, for words of 32 bits or more and messages below 512 MiB;
    [SHA1Final] pads that message. *)

From Stdlib Require Import ZArith Lia.
From stdpp Require Import base list list_numbers.
From S2P Require Import Prelude Sha1 Sha1Spec.

Open Scope Z_scope.

(** ** Any width *)

Section Width.
Context (w : Z) (stack : nat → list Z).
Hypothesis Hw : 9 ≤ w.

Lemma wrap_small x : 0 ≤ x < 2 ^ w → wrap w x = x.
Proof. apply Z.mod_small. Qed.

Lemma pow_w : ∃ k, 2 ^ w = 512 * k ∧ 0 < k.
Proof. exists (2 ^ (w - 9)). change 512 with (2 ^ 9). rewrite <- Z.pow_add_r by lia. split; [f_equal; lia|lia]. Qed.

(** [n] whole blocks of data. *)
Fixpoint transform_all (n : nat) (data : list Z) (c : SHA1_CTX) : SHA1_CTX :=
  match n with
  | O => c
  | S n => transform_all n (drop 64 data) (transform_ctx w stack c data)
  end.

Lemma transform_loop_eq fuel data len i c :
  0 ≤ i ≤ len → len ≤ Z.of_nat (length data) → len + 64 < 2 ^ w → len - i < 64 * Z.of_nat fuel →
  transform_loop w stack fuel data len i c
  = Some (i + 64 * ((len - i) / 64), transform_all (Z.to_nat ((len - i) / 64)) (drop (Z.to_nat i) data) c).
Proof.
  revert i c. induction fuel as [|fuel IH]; intros i c Hi Hd Hl Hf; [lia|]. cbn [transform_loop].
  rewrite (wrap_small (i + 63)) by lia. destruct (i + 63 <? len) eqn:E; zbool.
  - rewrite (proj2 (Z.ltb_ge _ _)), (wrap_small (i + 64)), IH by lia.
    replace ((len - i) / 64) with (1 + (len - (i + 64)) / 64) by lia.
    replace (drop (Z.to_nat (i + 64)) data) with (drop 64 (drop (Z.to_nat i) data)) by (rewrite drop_drop; f_equal; lia).
    rewrite Z2Nat.inj_add by lia. cbn [Z.to_nat Pos.to_nat Pos.iter_op Nat.add transform_all]. f_equal. f_equal. lia.
  - replace ((len - i) / 64) with 0 by lia. by rewrite Z.mul_0_r, Z.add_0_r.
Qed.

(** The bytes in the buffer that are in use. *)
Definition used (c : SHA1_CTX) : Z := Z.land (Z.shiftr (count0 c) 3) 63.

Lemma used_eq c : used c = count0 c / 8 mod 64.
Proof. unfold used. change 63 with (Z.ones 6). by rewrite Z.land_ones, Z.shiftr_div_pow2. Qed.

Lemma used_range c : 0 ≤ used c < 64.
Proof. rewrite used_eq. by apply Z.mod_pos_bound. Qed.

(** The context with the new counts. *)
Definition counted (c : SHA1_CTX) (len : Z) : SHA1_CTX :=
  let n0 := wrap w (count0 c + wrap w (Z.shiftl len 3)) in
  {| state := state c; count0 := n0;
     count1 := wrap w ((if n0 <? count0 c then wrap w (count1 c + 1) else count1 c) + Z.shiftr len 29);
     buffer := buffer c; transforms := transforms c |}.

Definition with_buffer (b : list Z) (c : SHA1_CTX) : SHA1_CTX :=
  {| state := state c; count0 := count0 c; count1 := count1 c; buffer := b; transforms := transforms c |}.

Lemma copy_ok j src n c :
  0 ≤ j → 0 ≤ n → j + n ≤ 64 → n ≤ Z.of_nat (length src) →
  copy_to_buffer j src n c = Some (with_buffer (store (Z.to_nat j) (take (Z.to_nat n) src) (buffer c)) c).
Proof. intros. unfold copy_to_buffer. by rewrite (proj2 (Z.ltb_ge _ _)), (proj2 (Z.ltb_ge _ _)) by lia. Qed.

Lemma update_eq c data :
  Z.of_nat (length data) + 128 < 2 ^ w →
  SHA1Update w stack c data (Z.of_nat (length data))
  = Some (let j := Z.to_nat (used c) in
          let c0 := counted c (Z.of_nat (length data)) in
          if (63 <? j + length data)%nat then
            let c1 := with_buffer (store j (take (64 - j) data) (buffer c)) c0 in
            let n := ((length data - (64 - j)) / 64)%nat in
            let c2 := transform_all n (drop (64 - j) data) (transform_ctx w stack c1 (buffer c1)) in
            with_buffer (store 0 (drop (64 - j + 64 * n) data) (buffer c2)) c2
          else with_buffer (store j data (buffer c)) c0).
Proof.
  intros Hl. unfold SHA1Update. fold (used c). pose proof (used_range c) as Hj.
  change {| state := state c; count0 := _ |} with (counted c (Z.of_nat (length data))). cbv zeta.
  set (c0 := counted _ _). set (j := used c) in *. rewrite wrap_small by lia.
  destruct (63 <? j + Z.of_nat (length data)) eqn:E; zbool.
  - rewrite (proj2 (Nat.ltb_lt _ _)) by lia. rewrite copy_ok by lia. cbn [mbind option_bind].
    rewrite transform_loop_eq by lia. cbn [mbind option_bind]. cbv iota beta.
    set (n := ((length data - (64 - Z.to_nat j)) / 64)%nat).
    assert ((Z.of_nat (length data) - (64 - j)) / 64 = Z.of_nat n) as ->.
    { subst n. rewrite Nat2Z.inj_div, Nat2Z.inj_sub, Nat2Z.inj_sub, Z2Nat.id by lia. done. }
    assert (Z.of_nat (64 * n) ≤ Z.of_nat (length data) - (64 - j)).
    { assert (64 * n ≤ length data - (64 - Z.to_nat j))%nat by (subst n; apply Nat.Div0.mul_div_le). lia. }
    assert (Z.of_nat (length data) - (64 - j) < Z.of_nat (64 * n) + 64).
    { assert (length data - (64 - Z.to_nat j) < 64 * n + 64)%nat.
      { subst n. pose proof (Nat.mul_succ_div_gt (length data - (64 - Z.to_nat j)) 64 ltac:(lia)). lia. } lia. }
    replace (Z.to_nat (64 - j + 64 * Z.of_nat n)) with (64 - Z.to_nat j + 64 * n)%nat by lia.
    rewrite copy_ok by (rewrite ?length_drop; lia). rewrite Nat2Z.id.
    replace (Z.to_nat (64 - j)) with (64 - Z.to_nat j)%nat by lia. rewrite firstn_all2 by (rewrite length_drop; lia). done.
  - rewrite (proj2 (Nat.ltb_ge _ _)) by lia. rewrite copy_ok by lia. by rewrite Nat2Z.id, firstn_all.
Qed.
Lemma transform_all_frame n data c :
  count0 (transform_all n data c) = count0 c ∧ count1 (transform_all n data c) = count1 c
  ∧ buffer (transform_all n data c) = buffer c.
Proof. revert data c. induction n as [|n IH]; intros data c; cbn [transform_all]; [done|]. by destruct (IH (drop 64 data) (transform_ctx w stack c data)) as (->&->&->). Qed.

(** An update always succeeds; the buffer keeps its length. *)
Lemma update_total c data :
  Z.of_nat (length data) + 128 < 2 ^ w →
  ∃ c', SHA1Update w stack c data (Z.of_nat (length data)) = Some c' ∧ length (buffer c') = length (buffer c)
        ∧ count0 c' = count0 (counted c (Z.of_nat (length data))) ∧ count1 c' = count1 (counted c (Z.of_nat (length data))).
Proof.
  intros Hl. rewrite (update_eq c data Hl). eexists. split; [done|]. cbv zeta. case_match.
  - cbn [buffer count0 count1 with_buffer]. rewrite length_store.
    edestruct transform_all_frame as (->&->&->). cbn [buffer transform_ctx with_buffer count0 count1]. by rewrite length_store.
  - cbn [buffer count0 count1 with_buffer]. by rewrite length_store.
Qed.

(** ** Padding *)

Lemma land_504 c : Z.land (count0 c) 504 = 8 * used c.
Proof. change 504 with (Z.shiftl (Z.ones 6) 3). rewrite land_field by done. unfold used, bits. change (Z.ones 6) with 63. lia. Qed.

(** One byte more is one byte more in use. *)
Lemma used_next c c' : count0 c' = count0 (counted c 1) → used c' = (used c + 1) mod 64.
Proof.
  intros E. rewrite !used_eq, E. cbn [count0 counted]. change (Z.shiftl 1 3) with 8. destruct pow_w as (k&Hk&Hk0).
  unfold wrap. rewrite Hk. rewrite (Z.mod_small 8) by lia. set (x := count0 c + 8).
  pose proof (Z.div_mod x (512 * k) ltac:(lia)). set (q := x / (512 * k)) in *. set (r := x mod (512 * k)) in *.
  assert (count0 c = 512 * (k * q) + r - 8) as -> by lia. generalize (k * q). lia.
Qed.

Lemma pad_loop_ok (P : nat → SHA1_CTX → Prop) fuel n c :
  (∀ n c, P n c → ∃ c', SHA1Update w stack c [0] 1 = Some c' ∧ count0 c' = count0 (counted c 1) ∧ P (S n) c') →
  P n c → (56 - used c) mod 64 < Z.of_nat fuel →
  ∃ c', pad_loop w stack fuel c = Some c' ∧ P (n + Z.to_nat ((56 - used c) mod 64))%nat c'.
Proof.
  intros HP. revert n c. induction fuel as [|fuel IH]; intros n c Hc Hf; [lia|]. pose proof (used_range c) as Hj.
  cbn [pad_loop]. rewrite land_504. destruct (8 * used c =? 448) eqn:E; zbool.
  - exists c. split; [done|]. replace (used c) with 56 by lia. change (Z.to_nat ((56 - 56) mod 64)) with 0%nat. by rewrite Nat.add_0_r.
  - destruct (HP n c Hc) as (c1&E1&Ec&H1). rewrite E1. cbn [mbind option_bind].
    assert ((56 - used c) mod 64 = (56 - used c1) mod 64 + 1) as Hu.
    { rewrite (used_next _ _ Ec). lia. }
    destruct (IH (S n) c1 H1) as (c2&E2&H2); [lia|]. exists c2. split; [done|]. rewrite Hu.
    replace (n + _)%nat with (S n + Z.to_nat ((56 - used c1) mod 64))%nat by lia. done.
Qed.
End Width.

(** ** Big-endian bytes *)

Lemma be_byte_eq x i : be_byte x i = x / 2 ^ (8 * Z.of_nat (3 - i)) mod 256.
Proof. unfold be_byte. change 255 with (Z.ones 8). by rewrite Z.land_ones, Z.shiftr_div_pow2 by lia. Qed.

Lemma be_byte_word x : map (be_byte x) (seq 0 4) = be_bytes 4 x.
Proof.
  cbn [map seq]. rewrite !be_byte_eq. unfold be_bytes. cbn [le_put rev app]. rewrite !Z.div_div by lia.
  repeat (apply (f_equal2 cons); [by rewrite ?Z.div_1_r|]). done.
Qed.

Lemma be_bytes_8 lo hi : 0 ≤ lo < 2 ^ 32 → be_bytes 8 (lo + 2 ^ 32 * hi) = be_bytes 4 hi ++ be_bytes 4 lo.
Proof.
  intros Hlo. unfold be_bytes. rewrite <- rev_app_distr. f_equal. cbn [le_put app]. rewrite !Z.div_div by lia.
  change (2 ^ 32) with 4294967296 in *. repeat (apply (f_equal2 cons); [lia|]). done.
Qed.

Lemma finalcount_eq c :
  0 ≤ count0 c < 2 ^ 32 → finalcount c = be_bytes 8 (count0 c + 2 ^ 32 * count1 c).
Proof. intros. rewrite be_bytes_8 by done. unfold finalcount. by rewrite !be_byte_word. Qed.

Lemma bind_words (l : list Z) : (s ← l; map (be_byte s) (seq 0 4)) = (l ≫= be_bytes 4).
Proof. induction l as [|x l IH]; [done|]. rewrite !bind_cons, IH. by rewrite be_byte_word. Qed.

(** ** The blocks of a message *)

Section Blocks.
Context (w : Z) (stack : nat → list Z).
Hypothesis Hw : 32 ≤ w.

(** The compression function over the blocks of a message, one for each element of [js],
    which is what the stack holds in that transform. *)
Fixpoint iterate (js : list (list Z)) (m h : list Z) : list Z :=
  match js with
  | [] => h
  | j :: js => iterate js (drop 64 m) (SHA1Transform w j h (take 64 m))
  end.

(** The stacks of [n] transforms from the [t]-th on. *)
Definition stacks (t n : nat) : list (list Z) := map stack (seq t n).

Lemma length_stacks t n : length (stacks t n) = n.
Proof. unfold stacks. by rewrite length_map, length_seq. Qed.

Lemma stacks_app t a b : stacks t a ++ stacks (t + a) b = stacks t (a + b).
Proof. unfold stacks. by rewrite seq_app, map_app. Qed.

Lemma iterate_app js1 js2 m h : iterate (js1 ++ js2) m h = iterate js2 (drop (64 * length js1) m) (iterate js1 m h).
Proof.
  revert m h. induction js1 as [|j js1 IH]; intros m h; [done|]. cbn [app iterate length]. rewrite IH, drop_drop. do 2 f_equal. lia.
Qed.

Lemma iterate_prefix js m d h : (64 * length js ≤ length m)%nat → iterate js (m ++ d) h = iterate js m h.
Proof.
  revert m h. induction js as [|j js IH]; intros m h Hn; [done|]. cbn [iterate length] in *.
  rewrite drop_app_le, take_app_le by lia. apply IH. rewrite length_drop. lia.
Qed.

Lemma transform_take j h b : SHA1Transform w j h (take 64 b) = SHA1Transform w j h b.
Proof. unfold SHA1Transform. by rewrite take_take. Qed.

Lemma transform_all_state n data c :
  state (transform_all w stack n data c) = iterate (stacks (transforms c) n) data (state c)
  ∧ transforms (transform_all w stack n data c) = (transforms c + n)%nat.
Proof.
  revert data c. induction n as [|n IH]; intros data c; cbn [transform_all]; [by rewrite Nat.add_0_r|].
  destruct (IH (drop 64 data) (transform_ctx w stack c data)) as [-> ->]. cbn [state transforms transform_ctx].
  split; [|lia]. unfold stacks. cbn [seq map iterate]. by rewrite transform_take.
Qed.

Lemma take_store j bs b : (j + length bs ≤ length b)%nat → take (j + length bs) (store j bs b) = take j b ++ bs.
Proof.
  intros Hj. unfold store. apply list_eq. intros i.
  destruct (decide (i < j)%nat).
  - rewrite lookup_take_lt by lia. rewrite list_lookup_inserts_lt by lia. rewrite lookup_app_l by (rewrite length_take; lia).
    by rewrite lookup_take_lt by lia.
  - rewrite lookup_app_r by (rewrite length_take; lia). rewrite length_take, Nat.min_l by lia.
    destruct (decide (i < j + length bs)%nat).
    + rewrite lookup_take_lt by lia. by rewrite list_lookup_inserts by lia.
    + rewrite lookup_take_ge by lia. symmetry. apply lookup_ge_None. lia.
Qed.

(** ** The message a context has seen *)

Record rep (js : list (list Z)) (c : SHA1_CTX) (m : list Z) : Prop := {
  rep_state : state c = iterate js m H_0;
  rep_blocks : length js = (length m / 64)%nat;
  rep_buffer : length (buffer c) = 64%nat ∧ take (length m mod 64) (buffer c) = drop (64 * (length m / 64)) m;
  rep_count : count0 c = 8 * Z.of_nat (length m) ∧ count1 c = 0
}.

Lemma rep_init c : length (buffer c) = 64%nat → rep [] (SHA1Init c) [].
Proof. intros. by repeat split. Qed.

Lemma rep_used js c m : rep js c m → Z.to_nat (used c) = (length m mod 64)%nat.
Proof.
  intros [_ _ _ [Hc _]]. rewrite used_eq, Hc. apply Nat2Z.inj. rewrite Nat2Z.inj_mod, Z2Nat.id by lia.
  change (Z.of_nat 64) with 64. lia.
Qed.

Lemma rep_counted js c m n :
  rep js c m → 0 ≤ n → 8 * (Z.of_nat (length m) + n) < 2 ^ 32 →
  count0 (counted w c n) = 8 * (Z.of_nat (length m) + n) ∧ count1 (counted w c n) = 0.
Proof.
  intros [_ _ _ [Hc H1]] Hn Hm. cbn [count0 count1 counted]. rewrite Z.shiftl_mul_pow2, Z.shiftr_div_pow2 by lia.
  change (2 ^ 3) with 8. change (2 ^ 29) with 536870912. change (2 ^ 32) with 4294967296 in *.
  pose proof (Z.pow_le_mono_r 2 32 w ltac:(lia) Hw). change (2 ^ 32) with 4294967296 in *.
  rewrite Hc, H1, (wrap_small w (n * 8)) by lia. rewrite (wrap_small w (_ + n * 8)) by lia.
  rewrite (proj2 (Z.ltb_ge _ _)) by lia. rewrite wrap_small by lia. lia.
Qed.

(** The new data complete no block. *)
Lemma rep_partial js c m d :
  rep js c m → 8 * (Z.of_nat (length m) + Z.of_nat (length d)) < 2 ^ 32 →
  (length m mod 64 + length d < 64)%nat →
  rep js (with_buffer (store (length m mod 64) d (buffer c)) (counted w c (Z.of_nat (length d)))) (m ++ d).
Proof.
  intros Hr Hm Hj. pose proof Hr as [Hs Hn [Hb1 Hb2] _]. pose proof (Nat.div_mod_eq (length m) 64) as Hdm.
  pose proof (Nat.mod_upper_bound (length m) 64 ltac:(lia)) as Hmod.
  assert ((length m + length d) / 64 = length m / 64)%nat as Hdiv.
  { symmetry. apply (Nat.div_unique _ _ _ (length m mod 64 + length d)); lia. }
  assert ((length m + length d) mod 64 = length m mod 64 + length d)%nat as Hmd.
  { symmetry. apply (Nat.mod_unique _ _ (length m / 64)); lia. }
  constructor; cbn [state buffer count0 count1 with_buffer]; rewrite ?length_app, ?Hdiv, ?Hmd.
  - rewrite iterate_prefix by lia. exact Hs.
  - done.
  - rewrite length_store. split; [done|]. rewrite take_store by lia. rewrite Hb2, drop_app_le by lia. done.
  - rewrite Nat2Z.inj_add. apply (rep_counted js c m); [done|lia|done].
Qed.

(** The new data complete [S n] blocks. *)
Lemma rep_complete js c m d n :
  rep js c m → 8 * (Z.of_nat (length m) + Z.of_nat (length d)) < 2 ^ 32 →
  let j := (length m mod 64)%nat in
  (64 - j + 64 * n ≤ length d < 64 - j + 64 * n + 64)%nat →
  let c1 := with_buffer (store j (take (64 - j) d) (buffer c)) (counted w c (Z.of_nat (length d))) in
  let c2 := transform_all w stack n (drop (64 - j) d) (transform_ctx w stack c1 (buffer c1)) in
  rep (js ++ stacks (transforms c) (S n)) (with_buffer (store 0 (drop (64 - j + 64 * n) d) (buffer c2)) c2) (m ++ d).
Proof.
  intros Hr Hm j Hj c1 c2. pose proof Hr as [Hs Hjs [Hb1 Hb2] _]. pose proof (Nat.div_mod_eq (length m) 64) as Hdm.
  pose proof (Nat.mod_upper_bound (length m) 64 ltac:(lia)) as Hmod. fold j in Hdm, Hmod, Hb2. set (q := (length m / 64)%nat) in *.
  assert ((length m + length d) / 64 = q + S n)%nat as Hdiv.
  { symmetry. apply (Nat.div_unique _ _ _ (length d - (64 - j + 64 * n))); lia. }
  assert ((length m + length d) mod 64 = length d - (64 - j + 64 * n))%nat as Hmd.
  { symmetry. apply (Nat.mod_unique _ _ (q + S n)); lia. }
  assert (buffer c1 = drop (64 * q) m ++ take (64 - j) d) as Hbuf.
  { subst c1. cbn [buffer with_buffer]. rewrite <- Hb2. rewrite <- take_store by (rewrite length_take; lia).
    symmetry. apply firstn_all2. rewrite length_store, length_take. lia. }
  assert (take 64 (drop (64 * q) (m ++ d)) = buffer c1) as Ht.
  { rewrite Hbuf, drop_app_le by lia. rewrite take_app, length_drop. rewrite firstn_all2 by (rewrite length_drop; lia).
    f_equal. f_equal. lia. }
  assert (drop 64 (drop (64 * q) (m ++ d)) = drop (64 - j) d) as Hdr.
  { rewrite drop_drop, drop_app_ge by lia. f_equal. lia. }
  destruct (transform_all_frame w stack n (drop (64 - j) d) (transform_ctx w stack c1 (buffer c1))) as (F0&F1&Fb).
  destruct (transform_all_state n (drop (64 - j) d) (transform_ctx w stack c1 (buffer c1))) as [Fs _].
  constructor; cbn [state buffer count0 count1 with_buffer]; rewrite ?length_app, ?Hdiv, ?Hmd.
  - subst c2. rewrite Fs. cbn [state transforms transform_ctx]. rewrite iterate_app, Hjs, iterate_prefix by lia. rewrite <- Hs.
    unfold stacks. cbn [seq map iterate]. by rewrite Ht, Hdr.
  - rewrite length_stacks. lia.
  - assert (length (buffer c1) = 64%nat) as Hbl by (subst c1; cbn [buffer with_buffer]; by rewrite length_store).
    subst c2. rewrite Fb, length_store. split; [done|]. cbn [buffer transform_ctx].
    replace (length d - (64 - j + 64 * n))%nat with (0 + length (drop (64 - j + 64 * n) d))%nat by (rewrite length_drop; lia).
    rewrite take_store by (rewrite length_drop; lia). rewrite take_0, app_nil_l, drop_app_ge by lia. f_equal. lia.
  - subst c2. rewrite F0, F1, Nat2Z.inj_add. apply (rep_counted js c m); [done|lia|done].
Qed.

(** The blocks completed by [d] after [m]. *)
Definition completed (m d : list Z) : nat := length (m ++ d) / 64 - length m / 64.

Lemma update_rep js c m d :
  rep js c m → 8 * (Z.of_nat (length m) + Z.of_nat (length d)) < 2 ^ 32 →
  ∃ c', SHA1Update w stack c d (Z.of_nat (length d)) = Some c'
        ∧ rep (js ++ stacks (transforms c) (completed m d)) c' (m ++ d)
        ∧ transforms c' = (transforms c + completed m d)%nat.
Proof.
  intros Hr Hm. pose proof (Z.pow_le_mono_r 2 32 w ltac:(lia) Hw). rewrite (update_eq w stack ltac:(lia) c d) by lia.
  eexists. split; [done|]. cbv zeta. rewrite (rep_used js c m Hr). set (j := (length m mod 64)%nat).
  pose proof (Nat.mod_upper_bound (length m) 64 ltac:(lia)) as Hj. pose proof (Nat.div_mod_eq (length m) 64) as Hdm. fold j in Hj, Hdm.
  unfold completed. rewrite length_app. destruct (63 <? j + length d)%nat eqn:E; zbool.
  - set (n := ((length d - (64 - j)) / 64)%nat).
    assert (64 - j + 64 * n ≤ length d < 64 - j + 64 * n + 64)%nat as Hn.
    { pose proof (Nat.div_mod_eq (length d - (64 - j)) 64). pose proof (Nat.mod_upper_bound (length d - (64 - j)) 64). lia. }
    replace ((length m + length d) / 64 - length m / 64)%nat with (S n).
    2:{ rewrite <- (Nat.div_unique (length m + length d) 64 (length m / 64 + S n) (length d - (64 - j + 64 * n))); lia. }
    split; [by apply rep_complete|]. cbn [transforms with_buffer].
    rewrite (proj2 (transform_all_state _ _ _)). cbn [transforms transform_ctx with_buffer counted]. lia.
  - rewrite <- (Nat.div_unique (length m + length d) 64 (length m / 64) (j + length d)) by lia. rewrite Nat.sub_diag.
    unfold stacks. cbn [seq map]. rewrite app_nil_r. split; [apply rep_partial; [done|done|lia]|cbn; lia].
Qed.

Lemma completed_app m d e : (completed m d + completed (m ++ d) e)%nat = completed m (d ++ e).
Proof.
  unfold completed. rewrite <- app_assoc, !length_app.
  pose proof (Nat.Div0.div_le_mono (length m) (length m + length d) 64 ltac:(lia)).
  pose proof (Nat.Div0.div_le_mono (length m + length d) (length m + (length d + length e)) 64 ltac:(lia)). lia.
Qed.

(** Two updates in a row. *)
Definition seen (js : list (list Z)) (t0 : nat) (m d : list Z) (c : SHA1_CTX) : Prop :=
  rep (js ++ stacks t0 (completed m d)) c (m ++ d) ∧ transforms c = (t0 + completed m d)%nat.

Lemma seen_nil js c m : rep js c m → seen js (transforms c) m [] c.
Proof.
  intros Hr. unfold seen, completed. rewrite app_nil_r, Nat.sub_diag. unfold stacks. cbn [seq map]. rewrite app_nil_r. split; [done|lia].
Qed.

Lemma update_seen js t0 m d c e :
  seen js t0 m d c → 8 * (Z.of_nat (length m) + Z.of_nat (length d) + Z.of_nat (length e)) < 2 ^ 32 →
  ∃ c', SHA1Update w stack c e (Z.of_nat (length e)) = Some c' ∧ seen js t0 m (d ++ e) c'.
Proof.
  intros [Hr Ht] Hm. destruct (update_rep _ c _ e Hr) as (c'&E&R&T); [rewrite length_app; lia|]. exists c'. split; [done|].
  rewrite Ht in R, T. rewrite <- !app_assoc, stacks_app, completed_app in R. split; [done|]. rewrite T, <- completed_app. lia.
Qed.

(** ** The digest *)

(** The big-endian bytes of the low 32 bits of the words that the compression function
    gives on the padded message. *)
Definition md (js : list (list Z)) (m : list Z) : list Z := iterate js (pad m) H_0 ≫= be_bytes 4.

Definition padding (m : list Z) : list Z :=
  [0x80] ++ replicate (Z.to_nat ((55 - Z.of_nat (length m)) mod 64)) 0 ++ be_bytes 8 (8 * Z.of_nat (length m)).

Lemma pad_padding m : pad m = m ++ padding m.
Proof. done. Qed.

Lemma final_rep js c m :
  rep js c m → 8 * (Z.of_nat (length m) + 128) < 2 ^ 32 →
  ∃ c', SHA1Final w stack c = Some (md (js ++ stacks (transforms c) (pad_blocks m - length m / 64)) m, c').
Proof.
  intros Hr Hm. unfold SHA1Final. pose proof Hr as [_ _ _ (Hc&H1)]. pose proof (Z.pow_le_mono_r 2 32 w ltac:(lia) Hw).
  rewrite finalcount_eq, Hc, H1, Z.mul_0_r, Z.add_0_r by lia. pose proof (seen_nil js c m Hr) as R0. set (t0 := transforms c) in *.
  destruct (update_seen js t0 m [] c [0x80] R0) as (c1&E1&R1); [simpl; lia|]. rewrite app_nil_l in R1.
  change (Z.of_nat (length [0x80])) with 1 in E1. rewrite E1. cbn [mbind option_bind].
  assert (used c1 = (Z.of_nat (length m) + 1) mod 64) as Hu.
  { rewrite <- (Z2Nat.id (used c1)) by apply used_range. rewrite (rep_used _ _ _ (proj1 R1)), length_app, Nat2Z.inj_mod. f_equal. simpl. lia. }
  destruct (pad_loop_ok w stack ltac:(lia) (λ k c', (64 < k)%nat ∨ seen js t0 m ([0x80] ++ replicate k 0) c') 64 0 c1) as (c2&E2&R2).
  - intros k c' Hk. destruct (update_total w stack ltac:(lia) c' [0]) as (c''&E&_&Ec&_); [simpl; lia|]. exists c''.
    split_and!; [done|done|]. destruct (decide (64 < S k)%nat) as [|Hk']; [by left|]. right. destruct Hk as [Hk|R]; [lia|].
    destruct (update_seen js t0 m _ c' [0] R) as (c3&E3&R3); [rewrite !length_app, length_replicate; simpl; lia|].
    simplify_eq. by rewrite replicate_S_end, app_assoc.
  - right. by rewrite app_nil_r.
  - pose proof (Z.mod_pos_bound (56 - used c1) 64). lia.
  - rewrite E2. cbn [mbind option_bind]. rewrite Nat.add_0_l in R2. pose proof (Z.mod_pos_bound (56 - used c1) 64 ltac:(lia)) as Hk.
    destruct R2 as [|R2]; [lia|]. assert ((56 - used c1) mod 64 = (55 - Z.of_nat (length m)) mod 64) as Ek by (rewrite Hu; lia).
    rewrite Ek in *. set (fc := be_bytes 8 (8 * Z.of_nat (length m))).
    assert (Z.of_nat (length fc) = 8) as Hfc by (subst fc; unfold be_bytes; by rewrite length_rev, length_le_put).
    destruct (update_seen js t0 m _ c2 fc R2) as (c3&E3&[R3 _]); [rewrite !length_app, length_replicate; simpl; lia|].
    rewrite Hfc in E3. rewrite E3. cbn [mbind option_bind]. exists (zero_ctx (transforms c3)). do 2 f_equal.
    rewrite (rep_state _ _ _ R3), bind_words. unfold md, pad_blocks. rewrite pad_padding. unfold completed, padding. fold fc. by rewrite <- !app_assoc.
Qed.
End Blocks.

(** ** The two widths *)

Lemma iterate_compress w (first : list Z → nat → Z) js m h :
  (∀ b j, length b = 64%nat → Forall is_byte b → j ∈ js → first_words w (b ++ j) (first (b ++ j))) →
  Forall is_byte m → length h = 5%nat → (64 * length js ≤ length m)%nat →
  iterate w js m h = foldl (λ h b, compress w (first b) h) h (zip_with app (blocks (length js) m) js).
Proof.
  intros Hf. revert m h. induction js as [|j js IH]; intros m h Hm Hh Hl; [done|]. cbn [iterate blocks zip_with foldl length] in *.
  assert (length (take 64 m) = 64%nat) as Ht by (rewrite length_take; lia).
  assert (SHA1Transform w j h (take 64 m) = compress w (first (take 64 m ++ j)) h) as E.
  { apply transform_compress; [done|]. rewrite take_take. apply Hf; [done|by apply Forall_take|by left]. }
  rewrite E. apply IH; [intros; apply Hf; [done..|by right]|by apply Forall_drop|by apply compress_length|rewrite length_drop; lia].
Qed.

Lemma pad_bytes m : Forall is_byte m → Forall is_byte (pad m).
Proof.
  intros Hm. unfold pad. rewrite !Forall_app. split_and!; [done|by repeat constructor|by apply Forall_replicate|apply Forall_rev, le_put_bytes].
Qed.

Lemma pad_blocks_le m : (64 * pad_blocks m ≤ length (pad m))%nat.
Proof. unfold pad_blocks. apply Nat.Div0.mul_div_le. Qed.

(** What lies behind the block on the stack. *)
Definition junk_ok (j : list Z) : Prop := length j = 64%nat ∧ Forall is_byte j.

Lemma md_wide js m :
  Forall junk_ok js → length js = pad_blocks m → Forall is_byte m → md 64 js m = wide_sha1 js m.
Proof.
  intros Hj Hl Hm. unfold md, wide_sha1. rewrite <- Hl. f_equal. apply (iterate_compress 64 wide_word).
  - intros b j Hb Hbb Hin. rewrite Forall_forall in Hj. destruct (Hj j Hin) as [Hj1 Hj2].
    apply first_words_64; [rewrite length_app; lia|by apply Forall_app].
  - by apply pad_bytes.
  - done.
  - rewrite Hl. apply pad_blocks_le.
Qed.

Lemma md_sha1 m : Forall is_byte m → md 32 (replicate (pad_blocks m) []) m = sha1 m.
Proof.
  intros Hm. unfold md, sha1. f_equal. rewrite (iterate_compress 32 be_word).
  - rewrite length_replicate. f_equal. generalize (pad m) as l. induction (pad_blocks m) as [|n IH]; intros l; [done|].
    cbn [blocks replicate zip_with]. by rewrite app_nil_r, IH.
  - intros b j Hb Hbb Hin%elem_of_replicate_inv. subst j. rewrite app_nil_r. apply first_words_32; [lia|done].
  - by apply pad_bytes.
  - done.
  - rewrite length_replicate. apply pad_blocks_le.
Qed.
