(* ===== verification/HashService.v ===== *)
(** * HashServiceFix: the hash service (HashServiceFix.c)

    The driver tests the SHA-1 of the firmware; when there is none or it is wrong it
    installs its own.  The firmware's implementation is the record [ShaBinding]; the
    handles with the service binding protocol are a list, and the other answers of the
    platform are arguments. *)

From Stdlib Require Import ZArith Lia.
From stdpp Require Import base gmap list list_numbers strings.
From S2P Require Import Prelude Sha1.

Open Scope Z_scope.

(** gEfiHashAlgorithmSha1Guid *)
Definition gEfiHashAlgorithmSha1Guid : list Z :=
  [0x0F; 0xD8; 0xE9; 0x2A; 0xB2; 0x3F; 0x95; 0x40; 0xB7; 0xB1; 0xE9; 0x31; 0x57; 0xB9; 0x46; 0xB6].
Definition sizeof_EFI_SHA1_HASH : Z := 20.

Section Hash.
Context (w : Z) (stack : nat → list Z).

(** A NULL pointer is [None]; the size on success. *)
Definition HSGetHashSize (HashAlgorithm : option (list Z)) (HashSize : bool) : EFI_STATUS * option Z :=
  match HashAlgorithm with
  | None => (EFI_INVALID_PARAMETER, None)
  | Some g =>
      if negb HashSize then (EFI_INVALID_PARAMETER, None)
      else if bool_decide (g = gEfiHashAlgorithmSha1Guid) then (EFI_SUCCESS, Some sizeof_EFI_SHA1_HASH)
      else (EFI_UNSUPPORTED, None)
  end.

(** The context of the child before and after; the digest on success.  SHA1Final works on a
    copy of the context. *)
Definition HSHash (ctx : SHA1_CTX) (HashAlgorithm : option (list Z)) (Extend : bool) (Message : option (list Z))
    (MessageSize : Z) (Hash : bool) : option (EFI_STATUS * option (list Z) * SHA1_CTX) :=
  match HashAlgorithm, Message with
  | Some g, Some m =>
      if negb Hash || (MessageSize =? 0) then Some (EFI_INVALID_PARAMETER, None, ctx)
      else if negb (bool_decide (g = gEfiHashAlgorithmSha1Guid)) then Some (EFI_UNSUPPORTED, None, ctx)
      else
        let ctx := if Extend then ctx else SHA1Init ctx in
        ctx ← SHA1Update w stack ctx m MessageSize;
        '(digest, wiped) ← SHA1Final w stack ctx;
        Some (EFI_SUCCESS, Some digest,
              {| state := state ctx; count0 := count0 ctx; count1 := count1 ctx; buffer := buffer ctx;
                 transforms := transforms wiped |})
  | _, _ => Some (EFI_INVALID_PARAMETER, None, ctx)
  end.

(** ** Children of the service *)

(** The contexts of the children by handle.  [pool]: there is memory; [install] is the
    status of InstallProtocolInterface and the handle it gives. *)
Definition HSCreateChild (children : gmap Z SHA1_CTX) (pool : bool) (install : EFI_STATUS * Z) : EFI_STATUS * gmap Z SHA1_CTX :=
  if negb pool then (EFI_OUT_OF_RESOURCES, children)
  else if EFI_ERROR install.1 then (install.1, children)
  else (install.1, <[install.2 := zero_ctx 0]> children).

(** [handle_protocol] and [uninstall] are the statuses of the boot services for the handle;
    a NULL handle is zero. *)
Definition HSDestroyChild (children : gmap Z SHA1_CTX) (ChildHandle : Z) (handle_protocol uninstall : EFI_STATUS) : EFI_STATUS * gmap Z SHA1_CTX :=
  if ChildHandle =? 0 then (EFI_INVALID_PARAMETER, children)
  else if EFI_ERROR handle_protocol then (handle_protocol, children)
  else if EFI_ERROR uninstall then (uninstall, children)
  else (EFI_SUCCESS, delete ChildHandle children).
End Hash.

(** ** The test of the firmware's implementation *)

(** An implementation of the service on states [S]: the children it makes, the protocol
    that LocateProtocol finds, and its hash function. *)
Record ShaBinding (S : Type) := {
  CreateChild : S → EFI_STATUS * S;
  LocateHash : S → EFI_STATUS;
  Hash : S → list Z → bool → list Z → Z → option (EFI_STATUS * option (list Z) * S);
  DestroyChild : S → S
}.
Arguments CreateChild {S}. Arguments LocateHash {S}. Arguments Hash {S}. Arguments DestroyChild {S}.

Definition test_message : list Z := str_bytes "ABCDEFGHIJKLMNOP".
Definition test_digest : list Z :=
  [0x14; 0x80; 0x6E; 0x23; 0xB4; 0xCE; 0xB6; 0x5D; 0xDF; 0x01; 0xE5; 0xEA; 0x7F; 0xBC; 0xDD; 0x03; 0xAA; 0xFA; 0xF5; 0xCD].

(** The two iterations; [out] is the buffer for the digest. *)
Fixpoint test_hashes {S} (impl : ShaBinding S) (iters : list bool) (out : list Z) (s : S) : option (EFI_STATUS * list Z * S) :=
  match iters with
  | [] => Some (EFI_SUCCESS, out, s)
  | extend :: iters =>
      '(Status, digest, s) ← Hash impl s gEfiHashAlgorithmSha1Guid extend test_message 16;
      if EFI_ERROR Status then Some (Status, out, s)
      else test_hashes impl iters (default out digest) s
  end.

(** [impl] is what LocateProtocol finds; the results are the answer, [*ImplExists] and the
    state of the implementation. *)
Definition HSTestExistingShaImpl {S} (impl : option (ShaBinding S)) (s : S) : option (bool * bool * S) :=
  match impl with
  | None => Some (false, false, s)
  | Some impl =>
      let '(Status, s) := CreateChild impl s in
      if EFI_ERROR Status then Some (false, true, s)
      else if EFI_ERROR (LocateHash impl s) then Some (false, true, DestroyChild impl s)
      else
        '(Status, out, s) ← test_hashes impl [false; true] (replicate 20 0) s;
        if EFI_ERROR Status then Some (false, true, DestroyChild impl s)
        else Some (bool_decide (out = test_digest), true, DestroyChild impl s)
  end.

(** ** The entry point *)

(** CoreLocateHandle by protocol, into a buffer of [size] bytes. *)
Definition LocateHandle (handles : list Z) (size : Z) : EFI_STATUS * list Z :=
  let ResultSize := 8 * Z.of_nat (length handles) in
  if ResultSize =? 0 then (EFI_NOT_FOUND, [])
  else if size <? ResultSize then (EFI_BUFFER_TOO_SMALL, take (Z.to_nat (size / 8)) handles)
  else (EFI_SUCCESS, handles).

(** The loop that uninstalls: a status to return, or none to go on. *)
Fixpoint uninstall_loop (HandleProtocol Uninstall : Z → EFI_STATUS) (fuel : nat) (handles : list Z) : option (option EFI_STATUS * list Z) :=
  match fuel with
  | O => None
  | S fuel =>
      match LocateHandle handles 8 with
      | (EFI_SUCCESS, h :: _) =>
          if EFI_ERROR (HandleProtocol h) then Some (Some (HandleProtocol h), handles)
          else if EFI_ERROR (Uninstall h) then Some (Some (Uninstall h), handles)
          else uninstall_loop HandleProtocol Uninstall fuel (remove Z.eq_dec h handles)
      | _ => Some (None, handles)
      end
  end.

(** The status and the handles with the protocol afterwards. *)
Definition HSEntryPoint {S} (impl : option (ShaBinding S)) (s : S) (HandleProtocol Uninstall : Z → EFI_STATUS)
    (ImageHandle : Z) (install : EFI_STATUS) (handles : list Z) : option (EFI_STATUS * list Z) :=
  '(CurImplWorks, CurImplExists, _) ← HSTestExistingShaImpl impl s;
  if CurImplWorks : bool then Some (EFI_SUCCESS, handles)
  else
    '(err, handles) ← (if CurImplExists : bool then uninstall_loop HandleProtocol Uninstall (1 + length handles) handles
                       else Some (None, handles));
    match err with
    | Some Status => Some (Status, handles)
    | None => Some (install, if EFI_ERROR install then handles else handles ++ [ImageHandle])
    end.
