(* ===== verification/HashTheorems.v ===== *)
(** * HashServiceFix: theorems

    sha1.c is written for 32-bit words and would be SHA-1 with them; with the 64-bit words
    of sha1.h it cuts and pads messages as the standard says and stays inside its buffers,
    but the digest is another one, [wide_sha1], which depends on the stack: the driver's own
    hash fails the test that the driver applies to the firmware's. *)

From Stdlib Require Import ZArith Lia.
From stdpp Require Import base gmap list list_numbers strings.
From S2P Require Import Prelude Sha1 Sha1Spec Sha1Proofs HashService.

Open Scope Z_scope.

(** ** Sequences of updates *)

Fixpoint updates (w : Z) (stack : nat → list Z) (chunks : list (list Z)) (c : SHA1_CTX) : option SHA1_CTX :=
  match chunks with
  | [] => Some c
  | d :: chunks => c ← SHA1Update w stack c d (Z.of_nat (length d)); updates w stack chunks c
  end.

(** Initialise, update with each chunk, and take the digest. *)
Definition digest (w : Z) (stack : nat → list Z) (chunks : list (list Z)) (c : SHA1_CTX) : option (list Z) :=
  c ← updates w stack chunks (SHA1Init c); fst <$> SHA1Final w stack c.

Lemma updates_seen w stack chunks c js t0 m d :
  32 ≤ w → seen w stack js t0 m d c → 8 * Z.of_nat (length m + length d + length (concat chunks)) < 2 ^ 32 →
  ∃ c', updates w stack chunks c = Some c' ∧ seen w stack js t0 m (d ++ concat chunks) c'.
Proof.
  intros Hw. revert c d. induction chunks as [|e chunks IH]; intros c d Hr Hm; cbn [updates concat].
  - exists c. by rewrite app_nil_r.
  - cbn [concat] in Hm. rewrite length_app in Hm.
    destruct (update_seen w stack Hw js t0 m d c e Hr) as (c1&E1&R1); [lia|]. rewrite E1. cbn [mbind option_bind].
    destruct (IH c1 (d ++ e) R1) as (c2&E2&R2); [rewrite length_app; lia|]. exists c2. by rewrite app_assoc.
Qed.

(** The digest, for any words of at least 32 bits. *)
Lemma digest_md w stack chunks c :
  32 ≤ w → length (buffer c) = 64%nat → 8 * (Z.of_nat (length (concat chunks)) + 128) < 2 ^ 32 →
  digest w stack chunks c = Some (md w (stacks stack (transforms c) (pad_blocks (concat chunks))) (concat chunks)).
Proof.
  intros Hw Hbuf Hm. unfold digest. pose proof (seen_nil w stack [] (SHA1Init c) [] (rep_init w c Hbuf)) as R0.
  destruct (updates_seen w stack chunks _ _ _ _ _ Hw R0) as (c1&E1&R1&T1); [simpl; lia|]. rewrite E1. cbn [mbind option_bind].
  rewrite !app_nil_l in R1. destruct (final_rep w stack Hw _ c1 _ R1) as (c2&E2); [lia|]. rewrite E2. cbn [fmap option_fmap option_map fst].
  do 2 f_equal. rewrite T1. cbn [transforms SHA1Init]. unfold completed. rewrite !app_nil_l. cbn [length]. rewrite Nat.Div0.div_0_l, Nat.sub_0_r.
  rewrite stacks_app. f_equal. pose proof (Nat.Div0.div_le_mono (length (concat chunks)) (length (pad (concat chunks))) 64) as Hle.
  rewrite pad_padding, length_app in Hle. unfold pad_blocks. rewrite pad_padding, length_app. lia.
Qed.

Lemma stacks_ok stack t n : (∀ k, junk_ok (stack k)) → Forall junk_ok (stacks stack t n).
Proof. intros Hs. unfold stacks. rewrite Forall_map. apply Forall_forall. intros. apply Hs. Qed.

(** C15. With the 64-bit words of sha1.h sha1.c cuts a message into 64-byte blocks and pads it
    as FIPS 180 says, however the message was cut into chunks, without leaving the buffer
    or the data, and runs the standard's 80 steps on each block; but its words have 64 bits,
    its rotations are shifts for 32 bits, and the words of a block come from twice
    its length, the second half being what the stack held: the digest is [wide_sha1] of the
    message.  For messages of less than 512 MiB (less 128 bytes), where the second counter
    is not needed. *)
Theorem sha1_computes (stack : nat → list Z) (chunks : list (list Z)) (c : SHA1_CTX)
  (Hstack : ∀ n, junk_ok (stack n))
  (Hbuf : length (buffer c) = 64%nat) (Hbytes : Forall (Forall is_byte) chunks)
  (Htotal : Z.of_nat (length (concat chunks)) + 128 < 2 ^ 29) :
  digest sha1_h_width stack chunks c
  = Some (wide_sha1 (map stack (seq (transforms c) (pad_blocks (concat chunks)))) (concat chunks)).
Proof.
  rewrite digest_md by (done || (change (2 ^ 29) with 536870912 in *; change (2 ^ 32) with 4294967296; lia)). f_equal.
  apply md_wide; [by apply stacks_ok|apply length_stacks|by apply Forall_concat].
Qed.

Lemma sha1_computes_witness :
  digest sha1_h_width (λ n, replicate 64 (Z.of_nat n mod 256)) [str_bytes "ab"; []; str_bytes "c"] (zero_ctx 7)
  = Some (wide_sha1 [replicate 64 7] (str_bytes "abc"))
  ∧ wide_sha1 [replicate 64 7] (str_bytes "abc") ≠ wide_sha1 [replicate 64 0] (str_bytes "abc").
Proof.
  split; [|by vm_compute].
  apply (sha1_computes (λ n, replicate 64 (Z.of_nat n mod 256)) [str_bytes "ab"; []; str_bytes "c"] (zero_ctx 7)); [|done| |done].
  - intros n. split; [done|]. apply Forall_replicate. unfold is_byte. apply Z.mod_pos_bound. lia.
  - repeat constructor; unfold is_byte; simpl; lia.
Defined.

(** With 32-bit words the union has 64 bytes and no junk: sha1.c would be SHA-1. *)
Lemma sha1_words32 (chunks : list (list Z)) (c : SHA1_CTX) :
  length (buffer c) = 64%nat → Forall (Forall is_byte) chunks → 8 * (Z.of_nat (length (concat chunks)) + 128) < 2 ^ 32 →
  digest 32 (λ _, []) chunks c = Some (sha1 (concat chunks)).
Proof.
  intros Hb Hc Hm. rewrite digest_md by done. f_equal. rewrite <- md_sha1 by (by apply Forall_concat). f_equal.
  unfold stacks. generalize (transforms c) as t. induction (pad_blocks (concat chunks)) as [|n IH]; intros t; [done|]. cbn. by rewrite IH.
Qed.

Example sha1_abc :
  digest 32 (λ _, []) [str_bytes "ab"; []; str_bytes "c"] (zero_ctx 0)
  = Some [0xA9; 0x99; 0x3E; 0x36; 0x47; 0x06; 0x81; 0x6A; 0xBA; 0x3E; 0x25; 0x71; 0x78; 0x50; 0xC2; 0x6C; 0x9C; 0xD0; 0xD8; 0x9D].
Proof. vm_compute. reflexivity. Qed.

(** ** Any width *)

Lemma updates_total w stack chunks c :
  9 ≤ w → Forall (λ d, Z.of_nat (length d) + 128 < 2 ^ w) chunks →
  ∃ c', updates w stack chunks c = Some c' ∧ length (buffer c') = length (buffer c).
Proof.
  intros Hw. revert c. induction chunks as [|d chunks IH]; intros c Hl; [by exists c|]. apply Forall_cons in Hl as [Hl Hls].
  cbn [updates]. destruct (update_total w stack Hw c d Hl) as (c1&E1&Hb&_). rewrite E1. cbn [mbind option_bind].
  destruct (IH c1 Hls) as (c2&E2&Hb2). exists c2. split; [done|congruence].
Qed.

Lemma final_total w stack c : 9 ≤ w → 136 < 2 ^ w → ∃ d c', SHA1Final w stack c = Some (d, c').
Proof.
  intros Hw Hp. unfold SHA1Final. destruct (update_total w stack Hw c [0x80]) as (c1&E1&_); [simpl; lia|].
  change (Z.of_nat (length [0x80])) with 1 in E1. rewrite E1. cbn [mbind option_bind].
  destruct (pad_loop_ok w stack Hw (λ _ _, True) 64 0 c1) as (c2&E2&_); [|done| |].
  - intros n c' _. destruct (update_total w stack Hw c' [0]) as (c''&E&_&Ec&_); [simpl; lia|]. by exists c''.
  - pose proof (Z.mod_pos_bound (56 - used c1) 64). lia.
  - rewrite E2. cbn [mbind option_bind]. assert (length (finalcount c) = 8%nat) as Hf by done.
    destruct (update_total w stack Hw c2 (finalcount c)) as (c3&E3&_); [rewrite Hf; lia|].
    rewrite Hf in E3. change (Z.of_nat 8) with 8 in E3. rewrite E3. cbn [mbind option_bind]. by eauto.
Qed.

(** With the words of sha1.h, or any of at least 9 bits: hashing chunks of any sizes
    below the width's limit never reads outside the data or writes outside the 64-byte
    buffer, and the padding loop ends: a digest is always produced. *)
Theorem sha1_safe (w : Z) (stack : nat → list Z) (chunks : list (list Z)) (c : SHA1_CTX)
  (Hw : 9 ≤ w) (Hchunks : Forall (λ d, Z.of_nat (length d) + 128 < 2 ^ w) chunks) :
  is_Some (digest w stack chunks c).
Proof.
  unfold digest. destruct (updates_total w stack chunks (SHA1Init c) Hw Hchunks) as (c1&E1&_). rewrite E1. cbn [mbind option_bind].
  destruct (final_total w stack c1 Hw) as (d&c2&E2).
  - pose proof (Z.pow_le_mono_r 2 9 w). change (2 ^ 9) with 512 in *. lia.
  - rewrite E2. by eexists.
Qed.

Lemma sha1_safe_witness : is_Some (digest sha1_h_width (λ _, replicate 64 0) [str_bytes "abc"] (zero_ctx 0)).
Proof. apply sha1_safe; [done|by repeat constructor]. Defined.

(** ** The service *)

(** A child hashes [ds] one after the other, [extend] says whether the first call goes on:
    the digests of the calls. *)
Fixpoint hash_calls (w : Z) (stack : nat → list Z) (c : SHA1_CTX) (extend : bool) (ds : list (list Z)) : option (list (list Z) * SHA1_CTX) :=
  match ds with
  | [] => Some ([], c)
  | d :: ds =>
      match HSHash w stack c (Some gEfiHashAlgorithmSha1Guid) extend (Some d) (Z.of_nat (length d)) true with
      | Some (EFI_SUCCESS, Some digest, c) => prod_map (cons digest) id <$> hash_calls w stack c true ds
      | _ => None
      end
  end.

(** The stacks of a call are stacks. *)
Definition junks_of (stack : nat → list Z) (js : list (list Z)) : Prop := Forall (λ j, ∃ n, j = stack n) js.

Lemma stacks_junks stack t n : junks_of stack (stacks stack t n).
Proof. unfold junks_of, stacks. rewrite Forall_map. apply Forall_forall. intros k _. by exists k. Qed.

(** A child that has hashed [m] returns the digest of what was added. *)
Lemma hash_rep w stack c js m extend d :
  32 ≤ w → rep w js (if extend : bool then c else SHA1Init c) m → junks_of stack js → d ≠ [] →
  8 * (Z.of_nat (length m) + Z.of_nat (length d) + 128) < 2 ^ 32 →
  ∃ c' js' ks, HSHash w stack c (Some gEfiHashAlgorithmSha1Guid) extend (Some d) (Z.of_nat (length d)) true
        = Some (EFI_SUCCESS, Some (md w ks (m ++ d)), c')
        ∧ rep w js' c' (m ++ d) ∧ junks_of stack js' ∧ junks_of stack ks ∧ length ks = pad_blocks (m ++ d).
Proof.
  intros Hw Hr Hjs Hd Hm. unfold HSHash. rewrite (proj2 (Z.eqb_neq _ 0)) by (by destruct d). cbn [negb orb].
  rewrite bool_decide_true by done. cbn [negb]. destruct (update_rep w stack Hw _ _ m d Hr) as (c1&E1&R1&_); [lia|].
  rewrite E1. cbn [mbind option_bind]. destruct (final_rep w stack Hw _ c1 _ R1) as (c2&E2); [rewrite length_app; lia|].
  rewrite E2. cbn [mbind option_bind]. eexists _, _, _. split; [done|].
  split; [destruct R1; by constructor|]. split; [by apply Forall_app_2, stacks_junks|].
  split; [repeat apply Forall_app_2; try apply stacks_junks; done|].
  rewrite !length_app, (rep_blocks _ _ _ _ Hr), !length_stacks. unfold completed, pad_blocks. rewrite pad_padding, !length_app.
  pose proof (Nat.Div0.div_le_mono (length m) (length m + length d) 64 ltac:(lia)).
  pose proof (Nat.Div0.div_le_mono (length m + length d) (length m + length d + length (padding (m ++ d))) 64 ltac:(lia)). lia.
Qed.

Lemma hash_calls_rep w stack ds c js m extend :
  32 ≤ w → rep w js (if extend : bool then c else SHA1Init c) m → junks_of stack js → Forall (λ d, d ≠ []) ds →
  8 * (Z.of_nat (length m) + Z.of_nat (length (concat ds)) + 128) < 2 ^ 32 →
  ∃ digests c', hash_calls w stack c extend ds = Some (digests, c') ∧ length digests = length ds
    ∧ ∀ i x, digests !! i = Some x →
        ∃ ks, junks_of stack ks ∧ length ks = pad_blocks (m ++ concat (take (S i) ds)) ∧ x = md w ks (m ++ concat (take (S i) ds)).
Proof.
  intros Hw. revert c js m extend. induction ds as [|d ds IH]; intros c js m extend Hr Hjs Hne Hm; cbn [hash_calls].
  - by exists [], c.
  - apply Forall_cons in Hne as [Hd Hne]. cbn [concat] in Hm. rewrite length_app in Hm.
    destruct (hash_rep w stack c js m extend d Hw Hr Hjs Hd) as (c1&js1&ks&->&R1&J1&K1&L1); [lia|]. cbn.
    destruct (IH c1 js1 (m ++ d) true R1 J1 Hne) as (digests&c'&->&Hl&Hi); [rewrite length_app; lia|].
    eexists _, c'. split; [done|]. split; [cbn; lia|]. intros [|i] x Hx.
    + injection Hx as <-. exists ks. cbn [take concat]. rewrite app_nil_r. done.
    + destruct (Hi i x Hx) as (ks'&?&?&?). exists ks'. cbn [take concat] in *. by rewrite app_assoc.
Qed.

(** C37. A child of the driver's hash service hashes a message in parts: after a call that
    starts a new hash and any number of calls that extend it, none of them empty and less than
    512 MiB together, every call succeeds and returns the digest of everything given so far
    (for the hash [wide_sha1] that sha1.c computes with the words of sha1.h), whatever the
    child had hashed before: taking a digest does not disturb the hash that goes on.  Which
    bytes of the stack enter a block may differ from call to call. *)
Theorem hash_extends (stack : nat → list Z) (c : SHA1_CTX) (ds : list (list Z))
  (Hstack : ∀ n, junk_ok (stack n)) (Hbuf : length (buffer c) = 64%nat)
  (Hbytes : Forall (Forall is_byte) ds) (Hparts : Forall (λ d, d ≠ []) ds)
  (Htotal : Z.of_nat (length (concat ds)) + 128 < 2 ^ 29) :
  ∃ digests c', hash_calls sha1_h_width stack c false ds = Some (digests, c') ∧ length digests = length ds
    ∧ ∀ i x, digests !! i = Some x →
        ∃ junks, junks_of stack junks ∧ length junks = pad_blocks (concat (take (S i) ds))
                 ∧ x = wide_sha1 junks (concat (take (S i) ds)).
Proof.
  destruct (hash_calls_rep sha1_h_width stack ds c [] [] false) as (digests&c'&E&Hl&Hi);
    [done|by apply rep_init|constructor|done|simpl; change (2 ^ 29) with 536870912 in *; change (2 ^ 32) with 4294967296; lia|].
  exists digests, c'. split; [done|]. split; [done|]. intros i x Hx. destruct (Hi i x Hx) as (ks&J&L&->). rewrite app_nil_l in *.
  exists ks. split; [done|]. split; [done|]. apply md_wide; [|done|].
  - eapply Forall_impl; [exact J|]. intros ? [n ->]. apply Hstack.
  - apply Forall_concat. by apply Forall_take.
Qed.

Lemma hash_extends_witness :
  ∃ digests c', hash_calls sha1_h_width (λ _, replicate 64 0) (zero_ctx 3) false [str_bytes "ab"; str_bytes "c"] = Some (digests, c')
    ∧ length digests = 2%nat
    ∧ ∀ i x, digests !! i = Some x →
        ∃ junks, junks_of (λ _, replicate 64 0) junks ∧ length junks = pad_blocks (concat (take (S i) [str_bytes "ab"; str_bytes "c"]))
                 ∧ x = wide_sha1 junks (concat (take (S i) [str_bytes "ab"; str_bytes "c"])).
Proof.
  apply (hash_extends (λ _, replicate 64 0) (zero_ctx 3) [str_bytes "ab"; str_bytes "c"]); [|done| |by repeat constructor|done].
  - intros n. split; [done|]. apply Forall_replicate. unfold is_byte. lia.
  - repeat constructor; unfold is_byte; simpl; lia.
Defined.

(** This driver as the implementation under test. *)
Definition own_sha (w : Z) (stack : nat → list Z) : ShaBinding SHA1_CTX :=
  {| CreateChild := λ _, (EFI_SUCCESS, zero_ctx 0);
     LocateHash := λ _, EFI_SUCCESS;
     Hash := λ c g extend m n, HSHash w stack c (Some g) extend (Some m) n true;
     DestroyChild := λ c, c |}.

(** On a cleared stack the driver's own service fails the test that the driver applies to the
    firmware's, and the digest of a message depends on what the stack held; with 32-bit words
    the service would pass. *)
Example hash_service_width :
  fst <$> HSTestExistingShaImpl (Some (own_sha sha1_h_width (λ _, replicate 64 0))) (zero_ctx 0) = Some (false, true)
  ∧ digest sha1_h_width (λ _, replicate 64 0) [str_bytes "abc"] (zero_ctx 0)
    ≠ digest sha1_h_width (λ _, replicate 64 1) [str_bytes "abc"] (zero_ctx 0)
  ∧ fst <$> HSTestExistingShaImpl (Some (own_sha 32 (λ _, []))) (zero_ctx 0) = Some (true, true).
Proof. by vm_compute. Qed.

(** ** Installing the service *)

Lemma locate_many handles : (2 ≤ length handles)%nat → (LocateHandle handles 8).1 = EFI_BUFFER_TOO_SMALL.
Proof.
  intros Hn. unfold LocateHandle. rewrite (proj2 (Z.eqb_neq _ 0)) by lia. by rewrite (proj2 (Z.ltb_lt _ _)) by lia.
Qed.

(** The entry point leaves a working service alone and replaces a broken one; but the
    handles are located with room for one: when two or more handles have the service, the loop stops
    at once, none is uninstalled, and the new service is added behind the broken ones. *)
Theorem hash_entry_point {S} (impl : ShaBinding S) (s s' : S) (works : bool) (image : Z) (handles : list Z)
  (Htest : HSTestExistingShaImpl (Some impl) s = Some (works, true, s')) (Hone : handles ≠ []) :
  HSEntryPoint (Some impl) s (λ _, EFI_SUCCESS) (λ _, EFI_SUCCESS) image EFI_SUCCESS handles
  = Some (EFI_SUCCESS,
          if works then handles
          else if (1 <? length handles)%nat then handles ++ [image]
          else [image]).
Proof.
  unfold HSEntryPoint. rewrite Htest. cbn [mbind option_bind]. destruct works; [done|].
  destruct (1 <? length handles)%nat eqn:E; zbool.
  - cbn [uninstall_loop Nat.add]. destruct (LocateHandle handles 8) as [st hs] eqn:El.
    pose proof (locate_many handles ltac:(lia)) as Hst. rewrite El in Hst. cbn [fst] in Hst. subst st. done.
  - destruct handles as [|h [|]]; [done| |simpl in E; lia]. cbn [length Nat.add uninstall_loop].
    change (LocateHandle [h] 8) with (EFI_SUCCESS, [h]). cbn [EFI_ERROR]. simpl. destruct (Z.eq_dec h h); [done|done].
Qed.

(** Two handles carry a service that always answers with zeros. *)
Definition zero_sha : ShaBinding unit :=
  {| CreateChild := λ s, (EFI_SUCCESS, s); LocateHash := λ _, EFI_SUCCESS;
     Hash := λ s _ _ _ _, Some (EFI_SUCCESS, Some (replicate 20 0), s); DestroyChild := λ s, s |}.

Lemma hash_entry_point_witness :
  HSEntryPoint (Some zero_sha) tt (λ _, EFI_SUCCESS) (λ _, EFI_SUCCESS) 9 EFI_SUCCESS [1] = Some (EFI_SUCCESS, [9])
  ∧ HSEntryPoint (Some zero_sha) tt (λ _, EFI_SUCCESS) (λ _, EFI_SUCCESS) 9 EFI_SUCCESS [1; 2] = Some (EFI_SUCCESS, [1; 2; 9]).
Proof.
  split; [apply (hash_entry_point zero_sha tt tt false 9 [1])|apply (hash_entry_point zero_sha tt tt false 9 [1; 2])]; by vm_compute.
Defined.
