(* ===== verification/FsInject.v ===== *)
(** * FSInject: files injected into a volume (FSInject.c)

    The driver replaces the file system protocol of a target volume: the contents of a
    folder of a source volume appear in a folder of the target, files of a blacklist
    disappear, and two kernel names are looked for in the source first.

    Strings of CHAR16 are lists without their terminator, NULL is [None]; reading past a
    terminator or past a buffer is undefined.  The file systems below, the pool and the
    variable that tells Clover about an injection are the class [FileSystem]. *)

From Stdlib Require Import ZArith Lia.
From stdpp Require Import base list list_numbers strings.
From S2P Require Import Prelude.

Open Scope Z_scope.

(** ** Strings *)

Definition BACKSLASH : Z := 92.
Definition DOT : Z := 46.

(** The character at the start: the terminator of an empty string. *)
Definition head0 (s : list Z) : Z := nth 0 s 0.

(** [StrSize]: bytes with the terminator. *)
Definition StrSize (s : list Z) : Z := 2 * (Z.of_nat (length s) + 1).

Definition GetStrLastChar (s : list Z) : option nat :=
  match s with [] => None | _ => Some (length s - 1)%nat end.

Fixpoint search_back (s : list Z) (Char : Z) (Pos : nat) : option nat :=
  if nth Pos s 0 =? Char then Some Pos
  else match Pos with O => None | S Pos => search_back s Char Pos end.

Definition GetStrLastCharOccurence (s : list Z) (Char : Z) : option nat :=
  match s with [] => None | _ => search_back s Char (length s) end.

(** CHAR8 is signed. *)
Definition ToUpperChar (Chr : Z) : Z :=
  if 0x100 <? Chr then Chr
  else let C := if wrap8 Chr <? 128 then wrap8 Chr else wrap8 Chr - 256 in
       wrap16 (if (97 <=? C) && (C <=? 122) then C - 32 else C).

(** The loops that go on while the first string has characters and they are equal: the
    rests of both strings. *)
Fixpoint skip_equal (s1 s2 : list Z) : option (list Z * list Z) :=
  match s1 with
  | [] => Some ([], s2)
  | c1 :: t1 =>
      if ToUpperChar c1 =? ToUpperChar (head0 s2)
      then match s2 with [] => None | _ :: t2 => skip_equal t1 t2 end
      else Some (s1, s2)
  end.

Definition StrCmpiBasic (s1 s2 : option (list Z)) : option Z :=
  match s1, s2 with
  | Some s1, Some s2 =>
      match s1, s2 with
      | [], [] => Some 0
      | [], _ | _, [] => Some 1
      | _, _ => '(r1, r2) ← skip_equal s1 s2; Some (ToUpperChar (head0 r1) - ToUpperChar (head0 r2))
      end
  | _, _ => Some 1
  end.

Fixpoint starts_loop (s1 s2 : list Z) : bool :=
  let c1 := ToUpperChar (head0 s1) in
  let c2 := ToUpperChar (head0 s2) in
  match s1, s2 with
  | _ :: t1, _ :: t2 =>
      if negb (c1 =? 0) && negb (c2 =? 0) && (c1 =? c2) then starts_loop t1 t2
      else ((c1 =? 0) && (c2 =? 0)) || (negb (c1 =? 0) && (c2 =? 0))
  | _, _ => ((c1 =? 0) && (c2 =? 0)) || (negb (c1 =? 0) && (c2 =? 0))
  end.

Definition StriStartsWithBasic (s1 s2 : option (list Z)) : bool :=
  match s1, s2 with
  | Some s1, Some s2 =>
      match s1, s2 with
      | [], [] => true
      | [], _ | _, [] => false
      | _, _ => starts_loop s1 s2
      end
  | _, _ => false
  end.

(** ** The file systems below *)

Class FileSystem (S : Type) := {
  (** there is memory for so many bytes *)
  AllocatePool : S → Z → bool;
  (** a volume and a file are numbers; the handle counts when the status is a success *)
  OpenVolume : Z → S → EFI_STATUS * Z * S;
  Open : Z → option (list Z) → Z → Z → S → EFI_STATUS * Z * S;
  Close : Z → S → EFI_STATUS * S;
  Delete : Z → S → EFI_STATUS * S;
  (** the size, and whether the buffer is from the pool; the new size and the bytes *)
  Read : Z → Z → bool → S → EFI_STATUS * Z * list Z * S;
  Write : Z → Z → list Z → S → EFI_STATUS * Z * S;
  SetPosition : Z → Z → S → EFI_STATUS * S;
  GetPosition : Z → S → EFI_STATUS * Z * S;
  GetInfo : Z → list Z → Z → S → EFI_STATUS * Z * list Z * S;
  SetInfo : Z → list Z → Z → list Z → S → EFI_STATUS * S;
  Flush : Z → S → EFI_STATUS * S;
  (** the variable FSInject.KextsInjected *)
  SetKextsInjected : S → S
}.

(** ** Data *)

Record FSI_SIMPLE_FILE_SYSTEM_PROTOCOL := {
  TgtFS : Z; TgtDir : list Z; SrcFS : option Z; SrcDir : option (list Z);
  Blacklist : option (list (list Z)); ForceLoadKexts : option (list (list Z))
}.

Record FSI_FILE_PROTOCOL := {
  FSI_FS : FSI_SIMPLE_FILE_SYSTEM_PROTOCOL; FName : option (list Z); IsDir : bool; TgtFP : option Z; SrcFP : option Z; FromTgt : bool
}.

Definition sizeof_FSI_FILE_PROTOCOL : Z := 176.
Definition sizeof_FSI_SIMPLE_FILE_SYSTEM_PROTOCOL : Z := 88.
Definition EFI_FILE_MODE_READ : Z := 1.
Definition EFI_FILE_DIRECTORY : Z := 0x10.

Definition mach_kernel : list Z := str_bytes "\mach_kernel".
Definition kernel : list Z := str_bytes "\kernel".
Definition system_kernel : list Z := str_bytes "\System\Library\Kernels\kernel".

(** The file systems and the static counter of injections. *)
Record Fsi (S : Type) := { files : S; KextsInjected : Z }.
Arguments files {S}. Arguments KextsInjected {S}. Arguments Build_Fsi {S}.

Section FsInject.
Context {S : Type} `{FileSystem S}.

Definition lift {A} (o : option A) : M (Fsi S) A := λ s, a ← o; Some (a, s).

Definition set_files (f : S) (s : Fsi S) : Fsi S := Build_Fsi f (KextsInjected s).

(** A call of a file system that returns a status, resp. a status and a handle. *)
Definition call (g : S → EFI_STATUS * S) : M (Fsi S) EFI_STATUS :=
  λ s, let '(st, f) := g (files s) in Some (st, set_files f s).
Definition call_value {A} (g : S → EFI_STATUS * A * S) : M (Fsi S) (EFI_STATUS * A) :=
  λ s, let '(st, h, f) := g (files s) in Some ((st, h), set_files f s).

Definition alloc (n : Z) : M (Fsi S) bool := gets (λ s, AllocatePool (files s) n).

(** [AllocateCopyPool]: NULL without memory. *)
Definition copy_string (t : list Z) : M (Fsi S) (option (list Z)) :=
  ok ← alloc (StrSize t); mret (if ok : bool then Some t else None).

(** ** File names *)

Definition is_absolute (name : list Z) : bool := head0 name =? BACKSLASH.

(** [Parent] is read in every case but the first. *)
Definition GetNormalizedFName (Parent : option (list Z)) (name : list Z) : M (Fsi S) (option (list Z)) :=
  if is_absolute name then copy_string name
  else
    parent ← lift Parent;
    if bool_decide (name = [DOT]) then copy_string parent
    else if bool_decide (name = [DOT; DOT]) then
      match GetStrLastCharOccurence parent BACKSLASH with
      | Some (Datatypes.S _ as i) => copy_string (take i parent)
      | _ => copy_string [BACKSLASH]
      end
    else
      ok ← alloc (StrSize parent + StrSize name);
      let sep := match GetStrLastChar parent with
                 | Some i => if nth i parent 0 =? BACKSLASH then [] else [BACKSLASH]
                 | None => [BACKSLASH]
                 end in
      mret (if ok : bool then Some (parent ++ sep ++ name) else None).

Definition GetInjectionFName (tgt src name : option (list Z)) : M (Fsi S) (option (list Z)) :=
  match tgt, src, name with
  | Some tgt, Some src, Some name =>
      r ← lift (skip_equal tgt name);
      match r.1 with
      | _ :: _ => mret None
      | [] =>
          if negb (head0 r.2 =? BACKSLASH) then mret None
          else
            ok ← alloc (StrSize src + StrSize r.2 - 2);
            mret (if ok : bool then Some (src ++ r.2) else None)
      end
  | _, _, _ => mret None
  end.

(** ** Opening *)

Definition OpenFileProtocol (VolumeFS : Z) (name : option (list Z)) (mode attrs : Z) : M (Fsi S) (option Z) :=
  r ← call_value (OpenVolume VolumeFS);
  if EFI_ERROR r.1 then mret None
  else
    f ← call_value (Open r.2 name mode attrs);
    call (Close r.2);;
    mret (if EFI_ERROR f.1 then None else Some f.2).

(** The file of the injection folder that replaces [name], if there is one. *)
Definition open_source (fs : FSI_SIMPLE_FILE_SYSTEM_PROTOCOL) (tgt : list Z) (name : option (list Z)) (mode attrs : Z) : M (Fsi S) (option (option Z)) :=
  match SrcDir fs, SrcFS fs with
  | Some dir, Some vol =>
      inj ← GetInjectionFName (Some tgt) (Some dir) name;
      match inj with
      | None => mret None
      | Some _ => h ← OpenFileProtocol vol inj mode attrs; mret (Some h)
      end
  | _, _ => mret None
  end.

(** The kernel of the source for the two names of the kernel. *)
Definition open_kernel (fs : FSI_SIMPLE_FILE_SYSTEM_PROTOCOL) (name : option (list Z)) (mode attrs : Z) : M (Fsi S) (option Z) :=
  c1 ← lift (StrCmpiBasic name (Some mach_kernel));
  h1 ← (if c1 =? 0 then open_source fs [] name mode attrs else mret None);
  match h1 with
  | Some (Some h) => mret (Some h)
  | _ =>
      c2 ← lift (StrCmpiBasic name (Some system_kernel));
      if c2 =? 0 then
        h2 ← open_source fs [] (Some kernel) mode attrs;
        match h2 with
        | Some (Some h) => mret (Some h)
        | _ => h3 ← open_source fs [] (Some mach_kernel) mode attrs; mret (mjoin h3)
        end
      else mret None
  end.

(** The injection: the variable is set the first time. *)
Definition count_injection : M (Fsi S) unit :=
  modify (λ s, Build_Fsi (if KextsInjected s =? 0 then SetKextsInjected (files s) else files s) (wrap8 (KextsInjected s + 1))).

Definition blacklisted (fs : FSI_SIMPLE_FILE_SYSTEM_PROTOCOL) (name : option (list Z)) : bool :=
  existsb (λ e, StriStartsWithBasic name (Some e)) (default [] (Blacklist fs)).

(** Target, injection folder, target again: the status and the two handles. *)
Definition open_layers (this : FSI_FILE_PROTOCOL) (name : option (list Z)) (mode attrs : Z) : M (Fsi S) (EFI_STATUS * option Z * option Z) :=
  let fs := FSI_FS this in
  t ← match TgtFP this with
      | Some h => r ← call_value (Open h name mode attrs); mret (r.1, if EFI_ERROR r.1 then None else Some r.2)
      | None => mret (EFI_DEVICE_ERROR, None)
      end;
  if bool_decide (t.1 = EFI_WRITE_PROTECTED) || negb (EFI_ERROR t.1) then mret (t.1, t.2, None)
  else
    match SrcDir fs, SrcFS fs with
    | Some _, Some _ =>
        i ← open_source fs (TgtDir fs) name mode attrs;
        match i with
        | Some (Some h) => count_injection;; mret (EFI_SUCCESS, None, Some h)
        | _ =>
            let Status := match i with None => t.1 | _ => EFI_DEVICE_ERROR end in
            match TgtFP this with
            | Some _ => mret (Status, None, None)
            | None =>
                h ← OpenFileProtocol (TgtFS fs) name mode attrs;
                mret (match h with Some h => (EFI_SUCCESS, Some h, None) | None => (EFI_DEVICE_ERROR, None, None) end)
            end
        end
    | _, _ => mret (t.1, None, None)
    end.

Definition FSI_FP_Open (this : FSI_FILE_PROTOCOL) (FileName : list Z) (mode attrs : Z) : M (Fsi S) (EFI_STATUS * option FSI_FILE_PROTOCOL) :=
  let fs := FSI_FS this in
  name ← GetNormalizedFName (FName this) FileName;
  if blacklisted fs name then mret (EFI_NOT_FOUND, None)
  else
    ok ← alloc sizeof_FSI_FILE_PROTOCOL;
    if negb ok then mret (EFI_OUT_OF_RESOURCES, None)
    else
      k ← open_kernel fs name mode attrs;
      match k with
      | Some h => mret (EFI_SUCCESS, Some {| FSI_FS := fs; FName := name; IsDir := false; TgtFP := None; SrcFP := Some h; FromTgt := false |})
      | None =>
          r ← open_layers this name mode attrs;
          let '(Status, tgt, src) := r in
          if EFI_ERROR Status then mret (Status, None)
          else
            c ← (match tgt, SrcFS fs, SrcDir fs with
                 | Some _, Some _, Some _ => lift (StrCmpiBasic (Some (TgtDir fs)) name)
                 | _, _, _ => mret 1
                 end);
            src ← (match SrcFS fs with
                   | Some vol => if c =? 0 then OpenFileProtocol vol (SrcDir fs) EFI_FILE_MODE_READ 0 else mret src
                   | None => mret src
                   end);
            mret (EFI_SUCCESS, Some {| FSI_FS := fs; FName := name; IsDir := false; TgtFP := tgt; SrcFP := src; FromTgt := bool_decide (is_Some tgt) |})
      end.

(** ** Closing *)

Definition close_opt (h : option Z) : M (Fsi S) unit :=
  match h with Some h => call (Close h);; mret tt | None => mret tt end.

(** The file is freed. *)
Definition FSI_FP_Close (this : FSI_FILE_PROTOCOL) : M (Fsi S) EFI_STATUS :=
  Status ← match TgtFP this with Some h => call (Close h) | None => mret EFI_SUCCESS end;
  close_opt (SrcFP this);;
  mret Status.

(** [None] is EFI_WARN_DELETE_FAILURE. *)
Definition FSI_FP_Delete (this : FSI_FILE_PROTOCOL) : M (Fsi S) (option EFI_STATUS) :=
  Status ← match TgtFP this with Some h => st ← call (Delete h); mret (Some st) | None => mret None end;
  close_opt (SrcFP this);;
  mret Status.

(** ** Reading *)

(** The caller's buffer after [data] were stored at its start. *)
Definition stored (data buf : list Z) : list Z := data ++ drop (length data) buf.

(** [AsciiStrStr]: the offset of the first occurrence before the terminator. *)
Fixpoint matches (pat l : list Z) : option bool :=
  match pat, l with
  | [], _ => Some true
  | _, [] => None
  | p :: pat, c :: l => if p =? c then matches pat l else Some false
  end.
Fixpoint AsciiStrStr (l pat : list Z) : option (option nat) :=
  match l with
  | [] => None
  | c :: l' =>
      m ← matches pat l;
      if m : bool then Some (Some O)
      else if c =? 0 then Some None
      else r ← AsciiStrStr l' pat; Some (option_map Datatypes.S r)
  end.

(** [StrStr] on strings: the pattern occurs in the name. *)
Fixpoint occurs (name pat : list Z) : bool :=
  bool_decide (take (length pat) name = pat) || match name with [] => false | _ :: name => occurs name pat end.

Definition safe_boot : list Z := str_bytes "<string>Safe Boot</string>".
Definition root_safe : list Z := str_bytes "<string>Root</string>     ".
Definition network_root : list Z := str_bytes "<string>Network-Root</string>".
Definition root_network : list Z := str_bytes "<string>Root</string>        ".

(** OSBundleRequired becomes Root, in place. *)
Definition force_load (buf : list Z) : option (list Z) :=
  r ← AsciiStrStr buf safe_boot;
  match r with
  | Some i => Some (store i root_safe buf)
  | None =>
      r ← AsciiStrStr buf network_root;
      match r with
      | Some i => Some (store i root_network buf)
      | None => Some buf
      end
  end.

Fixpoint force_loads (name : list Z) (kexts : list (list Z)) (buf : list Z) : option (list Z) :=
  match kexts with
  | [] => Some buf
  | k :: kexts => buf ← (if occurs name k then force_load buf else Some buf); force_loads name kexts buf
  end.

(** One read; when the file system does not like the buffer, again into one of the pool. *)
Definition read_aligned (h : Z) (buf : list Z) : M (Fsi S) (EFI_STATUS * Z * list Z) :=
  let size := Z.of_nat (length buf) in
  λ s,
  let '(st, n, data, f) := Read h size false (files s) in
  if bool_decide (st = EFI_INVALID_PARAMETER) && (n =? 0) then
    if negb (AllocatePool f size) then None
    else
      let '(st, n, data', f) := Read h size true f in
      Some ((st, n, if bool_decide (st = EFI_SUCCESS) && (0 <? n) then stored data' (stored data buf) else stored data buf), set_files f s)
  else Some ((st, n, stored data buf), set_files f s).

(** The status, [*BufferSize] and the buffer. *)
Definition FSI_FP_Read (this : FSI_FILE_PROTOCOL) (buf : list Z) : M (Fsi S) (EFI_STATUS * Z * list Z) :=
  let size := Z.of_nat (length buf) in
  match TgtFP this, SrcFP this with
  | Some t, Some h => λ s,
      let '(st, n, data, f) := Read h size false (files s) in
      let buf := stored data buf in
      if n =? 0 then
        let '(st, n, data, f) := Read t size false f in Some ((st, n, stored data buf), set_files f s)
      else Some ((st, n, buf), set_files f s)
  | Some t, None =>
      r ← read_aligned t buf;
      let '(Status, n, buf) := r in
      match bool_decide (Status = EFI_SUCCESS), ForceLoadKexts (FSI_FS this), FName this with
      | true, Some kexts, Some name => buf ← lift (force_loads name kexts buf); mret (Status, n, buf)
      | _, _, _ => mret (Status, n, buf)
      end
  | None, Some h => read_aligned h buf
  | None, None => mret (EFI_DEVICE_ERROR, size, buf)
  end.

(** ** The other services go to the target, or to the source without one *)

Definition main_handle (this : FSI_FILE_PROTOCOL) : option Z :=
  match TgtFP this with Some h => Some h | None => SrcFP this end.

Definition FSI_FP_Write (this : FSI_FILE_PROTOCOL) (size : Z) (buf : list Z) : M (Fsi S) (EFI_STATUS * Z) :=
  match main_handle this with
  | Some h => call_value (Write h size buf)
  | None => mret (EFI_DEVICE_ERROR, size)
  end.

(** Both handles are set; the status is the last one. *)
Definition FSI_FP_SetPosition (this : FSI_FILE_PROTOCOL) (pos : Z) : M (Fsi S) EFI_STATUS :=
  Status ← match TgtFP this with Some h => call (SetPosition h pos) | None => mret EFI_DEVICE_ERROR end;
  match SrcFP this with Some h => call (SetPosition h pos) | None => mret Status end.

(** [None]: [*Position] is not written. *)
Definition FSI_FP_GetPosition (this : FSI_FILE_PROTOCOL) : M (Fsi S) (EFI_STATUS * option Z) :=
  match main_handle this with
  | Some h => r ← call_value (GetPosition h); mret (r.1, Some r.2)
  | None => mret (EFI_DEVICE_ERROR, None)
  end.

(** gEfiFileInfoGuid *)
Definition gEfiFileInfoGuid : list Z := [0x92; 0x6E; 0x57; 0x09; 0x3F; 0x6D; 0xD2; 0x11; 0x8E; 0x39; 0x00; 0xA0; 0xC9; 0x69; 0x72; 0x3B].

(** [Attribute] is at offset 72 of EFI_FILE_INFO. *)
Definition with_is_dir (this : FSI_FILE_PROTOCOL) (info : list Z) : FSI_FILE_PROTOCOL :=
  {| FSI_FS := FSI_FS this; FName := FName this; IsDir := negb (Z.land (load 8 72 info) EFI_FILE_DIRECTORY =? 0);
     TgtFP := TgtFP this; SrcFP := SrcFP this; FromTgt := FromTgt this |}.

(** The status, the size, the buffer and the file. *)
Definition FSI_FP_GetInfo (this : FSI_FILE_PROTOCOL) (guid : list Z) (buf : list Z) : M (Fsi S) (EFI_STATUS * Z * list Z * FSI_FILE_PROTOCOL) :=
  match main_handle this with
  | Some h => λ s,
      let '(st, n, data, f) := GetInfo h guid (Z.of_nat (length buf)) (files s) in
      let buf := stored data buf in
      Some ((st, n, buf,
             if bool_decide (st = EFI_SUCCESS) && bool_decide (guid = gEfiFileInfoGuid) then with_is_dir this buf else this),
            set_files f s)
  | None => mret (EFI_DEVICE_ERROR, Z.of_nat (length buf), buf, this)
  end.

Definition FSI_FP_SetInfo (this : FSI_FILE_PROTOCOL) (guid : list Z) (size : Z) (buf : list Z) : M (Fsi S) EFI_STATUS :=
  match main_handle this with Some h => call (SetInfo h guid size buf) | None => mret EFI_DEVICE_ERROR end.

Definition FSI_FP_Flush (this : FSI_FILE_PROTOCOL) : M (Fsi S) EFI_STATUS :=
  match main_handle this with Some h => call (Flush h) | None => mret EFI_DEVICE_ERROR end.

(** ** The volume and its installation *)

(** Without memory the root of the target stays open. *)
Definition FSI_SFS_OpenVolume (fs : FSI_SIMPLE_FILE_SYSTEM_PROTOCOL) : M (Fsi S) (EFI_STATUS * option FSI_FILE_PROTOCOL) :=
  r ← call_value (OpenVolume (TgtFS fs));
  if EFI_ERROR r.1 then mret (r.1, None)
  else
    ok ← alloc sizeof_FSI_FILE_PROTOCOL;
    if negb ok then mret (EFI_OUT_OF_RESOURCES, None)
    else
      name ← copy_string [BACKSLASH];
      mret (r.1, Some {| FSI_FS := fs; FName := name; IsDir := false; TgtFP := Some r.2; SrcFP := None; FromTgt := true |}).

(** A list that counts: not NULL and not empty. *)
Definition nonempty_list (l : option (list (list Z))) : option (list (list Z)) :=
  match l with Some [] => None | _ => l end.

(** [tgt] and [src] are what OpenProtocol gives for the two handles, [reinstall] is the
    status of ReinstallProtocolInterface; the new protocol when it is installed. *)
Definition FSInjectionInstall (tgt : EFI_STATUS * Z) (tgt_dir : list Z) (src : EFI_STATUS * Z) (src_dir : option (list Z))
    (blacklist kexts : option (list (list Z))) (reinstall : EFI_STATUS) : M (Fsi S) (EFI_STATUS * option FSI_SIMPLE_FILE_SYSTEM_PROTOCOL) :=
  if EFI_ERROR tgt.1 then mret (tgt.1, None)
  else if EFI_ERROR src.1 then mret (src.1, None)
  else
    ok ← alloc sizeof_FSI_SIMPLE_FILE_SYSTEM_PROTOCOL;
    if negb ok then mret (EFI_OUT_OF_RESOURCES, None)
    else
      t ← copy_string tgt_dir;
      match t with
      | None => mret (EFI_OUT_OF_RESOURCES, None)
      | Some t =>
          d ← match src_dir with
              | Some d => c ← copy_string d; mret (c, bool_decide (c = None))
              | None => mret (None, false)
              end;
          if d.2 : bool then mret (EFI_OUT_OF_RESOURCES, None)
          else if EFI_ERROR reinstall then mret (reinstall, None)
          else mret (EFI_SUCCESS,
                     Some {| TgtFS := tgt.2; TgtDir := t; SrcFS := Some src.2; SrcDir := d.1;
                             Blacklist := nonempty_list blacklist; ForceLoadKexts := nonempty_list kexts |})
      end.

(** ** Lists of strings *)

Definition FSInjectionCreateStringList : M (Fsi S) (option (list (list Z))) :=
  ok ← alloc 24; mret (if ok : bool then Some [] else None).

(** The list afterwards, and whether it is returned. *)
Definition FSInjectionAddStringToList (l : option (list (list Z))) (t : option (list Z)) : M (Fsi S) (option (list (list Z)) * bool) :=
  match l, t with
  | Some l, Some t =>
      ok ← alloc (24 + StrSize t);
      mret (if ok : bool then (Some (l ++ [t]), true) else (Some l, false))
  | _, _ => mret (l, false)
  end.
End FsInject.
