(* ===== verification/FsInjectSpec.v ===== *)
(** * FSInject: the union of two volumes

    [spec_open] says which files an open names: the union of the target with the injected
    folder.  [FileSystemLaws] is documented behaviour of the file systems below, whether
    their calls succeed or fail: [opened] are the open handles with their volume and path,
    [there] the files that exist, [entries] what is still to be read of a directory.
    [Working] says that volumes and files that are there can be opened and that there is
    memory.
    The lemmas relate each step of [FSI_FP_Open] to its part of the specification. *)

From Stdlib Require Import ZArith Lia.
From stdpp Require Import base gmap list list_numbers strings.
From S2P Require Import Prelude FsInject.

Open Scope Z_scope.

(** ** Strings without case *)

Definition upper (s : list Z) : list Z := map ToUpperChar s.

(** No character is taken for a terminator: not NUL and not U+0100. *)
Definition plain (s : list Z) : Prop := Forall (λ c, ToUpperChar c ≠ 0) s.

Lemma upper_head0 s : ToUpperChar (head0 s) = head0 (upper s).
Proof. by destruct s. Qed.

Lemma plain_head0 s : plain s → ToUpperChar (head0 s) = 0 → s = [].
Proof. destruct 1; [done|]. by intros. Qed.

(** What is skipped: the whole first string if it is a prefix of the second. *)
Lemma skip_equal_prefix s1 s2 :
  plain s1 → plain s2 → upper (take (length s1) s2) = upper s1 → skip_equal s1 s2 = Some ([], drop (length s1) s2).
Proof.
  intros H1. revert s2. induction H1 as [|c1 s1 Hc H1 IH]; intros s2 H2 E; [done|]. destruct H2 as [|c2 s2 Hc2 H2]; [done|].
  cbn [length take upper map] in E. injection E as E1 E2. cbn [skip_equal head0 nth]. rewrite E1, Z.eqb_refl.
  cbn [length drop]. by apply IH.
Qed.

Lemma skip_equal_other s1 s2 :
  plain s1 → plain s2 → upper (take (length s1) s2) ≠ upper s1 →
  ∃ c1 r1 r2, skip_equal s1 s2 = Some (c1 :: r1, r2) ∧ ToUpperChar c1 ≠ ToUpperChar (head0 r2).
Proof.
  intros H1. revert s2. induction H1 as [|c1 s1 Hc H1 IH]; intros s2 H2 E; [done|]. cbn [skip_equal].
  destruct (Z.eqb_spec (ToUpperChar c1) (ToUpperChar (head0 s2))) as [Ec|Ec]; [|by eauto 10].
  destruct H2 as [|c2 s2 Hc2 H2]; [done|]. apply IH; [done|]. intros E'. apply E.
  cbn [length take upper map]. f_equal; [done|exact E'].
Qed.

Lemma cmpi_spec s1 s2 :
  plain s1 → plain s2 → ∃ d, StrCmpiBasic (Some s1) (Some s2) = Some d ∧ (d = 0 ↔ upper s1 = upper s2).
Proof.
  intros H1 H2. destruct s1 as [|c1 t1], s2 as [|c2 t2]; [by exists 0| by exists 1 | by exists 1 |].
  cbn [StrCmpiBasic]. set (s1 := c1 :: t1) in *. set (s2 := c2 :: t2) in *.
  destruct (decide (upper (take (length s1) s2) = upper s1)) as [E|E].
  - rewrite skip_equal_prefix by done. cbn [mbind option_bind]. eexists. split; [done|]. change (ToUpperChar (head0 [])) with 0.
    split.
    + intros Hd. assert (plain (drop (length s1) s2)) as Hp by (by apply Forall_drop).
      apply plain_head0 in Hp; [|lia]. assert (take (length s1) s2 = s2) as Et.
      { rewrite <- (take_drop (length s1) s2) at 2. by rewrite Hp, app_nil_r. }
      rewrite <- E. by f_equal.
    + intros Eu. assert (length s1 = length s2) as El by (rewrite <- (length_map ToUpperChar s1), <- (length_map ToUpperChar s2); by f_equal).
      rewrite El, drop_all. done.
  - destruct (skip_equal_other s1 s2 H1 H2 E) as (c&r1&r2&Es&Hc). rewrite Es. cbn [mbind option_bind]. eexists. split; [done|].
    cbn [head0 nth] in *. split; [lia|]. intros Eu. exfalso. apply E.
    assert (length s1 = length s2) as El by (rewrite <- (length_map ToUpperChar s1), <- (length_map ToUpperChar s2); by f_equal).
    by rewrite El, firstn_all.
Qed.

Lemma starts_spec s1 s2 :
  plain s1 → plain s2 → s2 ≠ [] → StriStartsWithBasic (Some s1) (Some s2) = bool_decide (upper (take (length s2) s1) = upper s2).
Proof.
  intros H1 H2 Hne. assert (starts_loop s1 s2 = bool_decide (upper (take (length s2) s1) = upper s2)) as Hl.
  { clear Hne. revert s2 H2. induction H1 as [|c1 s1 Hc H1 IH]; intros s2 H2.
    - destruct H2 as [|c2 s2 Hc2 H2]; [done|]. cbn [starts_loop head0 nth]. rewrite (proj2 (Z.eqb_neq (ToUpperChar c2) 0)) by done.
      rewrite bool_decide_false by done. done.
    - destruct H2 as [|c2 s2 Hc2 H2].
      { cbn [starts_loop head0 nth]. rewrite (proj2 (Z.eqb_neq (ToUpperChar c1) 0)) by done. done. }
      cbn [starts_loop head0 nth]. rewrite (proj2 (Z.eqb_neq (ToUpperChar c1) 0)), (proj2 (Z.eqb_neq (ToUpperChar c2) 0)) by done.
      cbn [negb andb orb length take upper map]. destruct (Z.eqb_spec (ToUpperChar c1) (ToUpperChar c2)) as [Ec|Ec].
      + rewrite IH by done. apply bool_decide_ext. unfold upper. split; [intros ->; by rewrite Ec|intros [= _ E]; done].
      + rewrite bool_decide_false; [done|]. by intros [= ? _]. }
  by destruct s1, s2.
Qed.

(** ** Names *)

(** The directory above: up to the last backslash. *)
Definition parent_of (p : list Z) : list Z :=
  match GetStrLastCharOccurence p BACKSLASH with
  | Some (S _ as i) => take i p
  | _ => [BACKSLASH]
  end.

(** A name relative to a directory. *)
Definition join (p name : list Z) : list Z :=
  p ++ (if match last p with Some c => c =? BACKSLASH | None => false end then [] else [BACKSLASH]) ++ name.

Definition normalize (p name : list Z) : list Z :=
  if is_absolute name then name
  else if bool_decide (name = [DOT]) then p
  else if bool_decide (name = [DOT; DOT]) then parent_of p
  else join p name.

(** What follows [tgt] in a name below it. *)
Definition below (tgt name : list Z) : option (list Z) :=
  let rest := drop (length tgt) name in
  if bool_decide (upper (take (length tgt) name) = upper tgt) && (head0 rest =? BACKSLASH) then Some rest else None.

(** ** The union *)

Section Spec.
Context (there : Z → list Z → bool) (fs : FSI_SIMPLE_FILE_SYSTEM_PROTOCOL).

(** A file of the injection folder. *)
Definition spec_injected (rest : list Z) : option (list Z) :=
  match SrcDir fs, SrcFS fs with
  | Some dir, Some vol => if there vol (dir ++ rest) then Some (dir ++ rest) else None
  | _, _ => None
  end.

(** The kernel of the source volume. *)
Definition spec_kernel (name : list Z) : option (list Z) :=
  match (if bool_decide (upper name = upper mach_kernel) then spec_injected name else None) with
  | Some p => Some p
  | None =>
      if bool_decide (upper name = upper system_kernel)
      then match spec_injected kernel with Some p => Some p | None => spec_injected mach_kernel end
      else None
  end.

Definition injects : bool := match SrcDir fs, SrcFS fs with Some _, Some _ => true | _, _ => false end.

(** The name is hidden. *)
Definition hidden (name : list Z) : bool :=
  existsb (λ e, bool_decide (upper (take (length e) name) = upper e)) (default [] (Blacklist fs)).

Definition spec_source (name : list Z) : option (list Z) := below (TgtDir fs) name ≫= spec_injected.

(** With the target found: the injection folder is opened too at its place. *)
Definition spec_point (name : list Z) : option (list Z) :=
  if bool_decide (upper (TgtDir fs) = upper name) then spec_injected [] else None.

(** The files of target and source that an open names, or the error.  A file that was opened
    in the source is looked up in the source first. *)
Definition spec_open (from_target : bool) (name : list Z) : EFI_STATUS + option (list Z) * option (list Z) :=
  if hidden name then inl EFI_NOT_FOUND
  else match spec_kernel name with
  | Some p => inr (None, Some p)
  | None =>
      if from_target then
        if there (TgtFS fs) name then inr (Some name, spec_point name)
        else match spec_source name with
             | Some p => inr (None, Some p)
             | None => inl (if injects && bool_decide (is_Some (below (TgtDir fs) name)) then EFI_DEVICE_ERROR else EFI_NOT_FOUND)
             end
      else match spec_source name with
           | Some p => inr (None, Some p)
           | None => if injects && there (TgtFS fs) name then inr (Some name, spec_point name) else inl EFI_DEVICE_ERROR
           end
  end.
End Spec.

(** ** The file systems below *)

Class FileSystemLaws (S : Type) `{FileSystem S} := {
  opened : S → gmap Z (Z * list Z);
  there : S → Z → list Z → bool;
  (** a call that opens returns a new handle, or an error and opens nothing *)
  open_volume_law s v : let '(st, h, s') := OpenVolume v s in
    if EFI_ERROR st then opened s' = opened s else opened s !! h = None ∧ opened s' = <[h := (v, [BACKSLASH])]> (opened s);
  open_law s h v p name mode attrs : opened s !! h = Some (v, p) → let '(st, h', s') := Open h name mode attrs s in
    if EFI_ERROR st then opened s' = opened s else opened s !! h' = None ∧ ∃ q, opened s' = <[h' := (v, q)]> (opened s);
  close_ok s h : ∃ st s', Close h s = (st, s') ∧ opened s' = delete h (opened s) ∧ there s' = there s;
  set_variable_ok s : opened (SetKextsInjected s) = opened s ∧ there (SetKextsInjected s) = there s
}.

(** Volumes that can be opened, and read opens that succeed exactly for the files that exist. *)
Class Working (S : Type) `{FileSystemLaws S} : Prop := {
  memory (s : S) n : AllocatePool s n = true;
  open_volume_ok s v : ∃ h s', OpenVolume v s = (EFI_SUCCESS, h, s') ∧ opened s !! h = None
                               ∧ opened s' = <[h := (v, [BACKSLASH])]> (opened s) ∧ there s' = there s;
  open_there s h v p name : opened s !! h = Some (v, p) → is_absolute name = true → there s v name = true →
    ∃ h' s', Open h (Some name) EFI_FILE_MODE_READ 0 s = (EFI_SUCCESS, h', s') ∧ opened s !! h' = None
             ∧ opened s' = <[h' := (v, name)]> (opened s) ∧ there s' = there s;
  open_missing s h v p name : opened s !! h = Some (v, p) → is_absolute name = true → there s v name = false →
    ∃ h' s', Open h (Some name) EFI_FILE_MODE_READ 0 s = (EFI_NOT_FOUND, h', s') ∧ opened s' = opened s ∧ there s' = there s
}.

Section Steps.
Context {S : Type} `{FileSystemLaws S} `{!Working S}.
Implicit Types (s t : Fsi S).

Abbreviation handles s := (opened (files s)).
Abbreviation tree s := (there (files s)).

(** The step leaves the trees alone and opens exactly the handles [hs]. *)
Definition opens (hs : gmap Z (Z * list Z)) s t : Prop :=
  tree t = tree s ∧ handles t = hs ∪ handles s ∧ hs ##ₘ handles s.

Lemma opens_none s t : tree t = tree s → handles t = handles s → opens ∅ s t.
Proof. intros. split_and!; [done|by rewrite (left_id_L ∅ _)|apply map_disjoint_empty_l]. Qed.

Lemma opens_one s t h f : tree t = tree s → handles s !! h = None → handles t = <[h := f]> (handles s) → opens {[h := f]} s t.
Proof.
  intros. split_and!; [done|by rewrite <- insert_union_singleton_l|by apply map_disjoint_singleton_l].
Qed.

Lemma OpenFileProtocol_spec s v name :
  is_absolute name = true →
  ∃ r t, OpenFileProtocol v (Some name) EFI_FILE_MODE_READ 0 s = Some (r, t)
         ∧ match r with
           | Some h => tree s v name = true ∧ opens {[h := (v, name)]} s t
           | None => tree s v name = false ∧ opens ∅ s t
           end.
Proof.
  intros Ha. unfold OpenFileProtocol. destruct (open_volume_ok (files s) v) as (hr&s1&E1&F1&O1&T1).
  erewrite bind_eq; [|unfold call_value; by rewrite E1]. cbn [fst snd EFI_ERROR].
  assert (opened s1 !! hr = Some (v, [BACKSLASH])) as Hr by (rewrite O1; apply lookup_insert_eq).
  destruct (tree s v name) eqn:Ht.
  - destruct (open_there s1 hr v _ name Hr Ha ltac:(by rewrite T1)) as (h&s2&E2&F2&O2&T2).
    erewrite bind_eq; [|unfold call_value; cbn [files set_files]; by rewrite E2].
    destruct (close_ok s2 hr) as (st&s3&E3&O3&T3).
    erewrite bind_eq; [|unfold call; cbn [files set_files]; by rewrite E3]. cbn [fst snd EFI_ERROR].
    eexists _, _. split; [done|]. split; [done|]. rewrite O1 in F2. apply lookup_insert_None in F2 as [F2 Hne].
    apply opens_one; cbn [files set_files]; [congruence|done|]. rewrite O3, O2, O1.
    rewrite delete_insert_ne by done. by rewrite delete_insert_id.
  - destruct (open_missing s1 hr v _ name Hr Ha ltac:(by rewrite T1)) as (h&s2&E2&O2&T2).
    erewrite bind_eq; [|unfold call_value; cbn [files set_files]; by rewrite E2].
    destruct (close_ok s2 hr) as (st&s3&E3&O3&T3).
    erewrite bind_eq; [|unfold call; cbn [files set_files]; by rewrite E3]. cbn [fst snd EFI_ERROR].
    eexists _, _. split; [done|]. split; [done|]. apply opens_none; cbn [files set_files]; [congruence|].
    rewrite O3, O2, O1. by rewrite delete_insert_id.
Qed.

Lemma opens_trans_l s t u hs : opens ∅ s t → opens hs t u → opens hs s u.
Proof.
  intros (T1&O1&_) (T2&O2&D2). rewrite (left_id_L ∅ _) in O1. rewrite O1 in O2, D2. split_and!; [congruence|done|done].
Qed.

Lemma opens_tree hs s t : opens hs s t → tree t = tree s.
Proof. by intros (?&_). Qed.

(** ** With memory *)

Hypothesis Hmem : ∀ (f : S) n, AllocatePool f n = true.

Lemma alloc_ok n s : alloc n s = Some (true, s).
Proof. unfold alloc, gets. by rewrite Hmem. Qed.

Lemma copy_string_ok p s : copy_string p s = Some (Some p, s).
Proof. unfold copy_string. by rewrite (bind_eq _ _ _ _ _ (alloc_ok _ s)). Qed.

Lemma last_char p :
  match GetStrLastChar p with Some i => nth i p 0 =? BACKSLASH | None => false end
  = match last p with Some c => c =? BACKSLASH | None => false end.
Proof.
  destruct p as [|c p _] using rev_ind; [done|]. rewrite last_snoc. unfold GetStrLastChar.
  destruct (p ++ [c]) as [|c0 l] eqn:E; [by destruct p|]. rewrite <- E, length_app. cbn [length].
  replace (length p + 1 - 1)%nat with (length p + 0)%nat by lia. by rewrite app_nth2_plus.
Qed.

Lemma normalize_spec p name s : GetNormalizedFName (Some p) name s = Some (Some (normalize p name), s).
Proof.
  unfold GetNormalizedFName, normalize. destruct (is_absolute name); [apply copy_string_ok|].
  erewrite bind_eq; [|done]. case_bool_decide; [apply copy_string_ok|]. case_bool_decide.
  - unfold parent_of. destruct (GetStrLastCharOccurence p BACKSLASH) as [[|i]|]; apply copy_string_ok.
  - rewrite (bind_eq _ _ _ _ _ (alloc_ok _ s)). unfold join. rewrite <- last_char. unfold mret, M_ret. do 3 f_equal.
    destruct (GetStrLastChar p); [|done]. by destruct (_ =? _).
Qed.

Lemma injection_spec tgt src name s :
  plain tgt → plain name → GetInjectionFName (Some tgt) (Some src) (Some name) s = Some ((λ r, src ++ r) <$> below tgt name, s).
Proof.
  intros Ht Hn. unfold GetInjectionFName, below. case_bool_decide as E.
  - erewrite bind_eq; [|unfold lift; by rewrite skip_equal_prefix]. cbn [fst snd]. destruct (_ =? _); cbn [negb andb]; [|done].
    by rewrite (bind_eq _ _ _ _ _ (alloc_ok _ s)).
  - destruct (skip_equal_other tgt name Ht Hn E) as (c&r1&r2&Es&_). erewrite bind_eq; [|unfold lift; by rewrite Es]. done.
Qed.

Section Open.
Context (fs : FSI_SIMPLE_FILE_SYSTEM_PROTOCOL).
Hypothesis Hdir : from_option (λ d, is_absolute d = true) True (SrcDir fs).

(** What is opened in the source volume. *)
Definition source_handle (h : Z) (p : list Z) : gmap Z (Z * list Z) := {[h := (default 0 (SrcFS fs), p)]}.

Lemma absolute_app d r : is_absolute d = true → is_absolute (d ++ r) = true.
Proof. by destruct d. Qed.

Lemma open_source_spec tgt name s :
  plain tgt → plain name →
  ∃ r t, open_source fs tgt (Some name) EFI_FILE_MODE_READ 0 s = Some (r, t)
         ∧ match r with
           | None => (injects fs = false ∨ below tgt name = None) ∧ opens ∅ s t
           | Some None => injects fs = true ∧ is_Some (below tgt name) ∧ below tgt name ≫= spec_injected (tree s) fs = None ∧ opens ∅ s t
           | Some (Some h) => ∃ p, below tgt name ≫= spec_injected (tree s) fs = Some p ∧ opens (source_handle h p) s t
           end.
Proof.
  intros Ht Hn. assert (opens ∅ s s) as Hs by (by apply opens_none). unfold open_source, injects, spec_injected, source_handle.
  destruct (SrcDir fs) as [dir|]; [|by exists None, s; auto]. destruct (SrcFS fs) as [vol|]; [|by exists None, s; auto].
  rewrite (bind_eq _ _ _ _ _ (injection_spec tgt dir name s Ht Hn)). destruct (below tgt name) as [rest|]; cbn [fmap option_fmap option_map].
  2:{ eexists _, _. split; [done|]. split; [by right|done]. }
  destruct (OpenFileProtocol_spec s vol (dir ++ rest) (absolute_app _ _ Hdir)) as (r&t&E&Hr).
  rewrite (bind_eq _ _ _ _ _ E). eexists _, _. split; [done|]. cbn [mbind option_bind]. destruct r as [h|]; destruct Hr as [Ht' Ho]; rewrite Ht'.
  - by eexists.
  - done.
Qed.

(** Nothing found is nothing opened, whatever the reason. *)
Lemma open_source_result tgt name s :
  plain tgt → plain name →
  ∃ r t, open_source fs tgt (Some name) EFI_FILE_MODE_READ 0 s = Some (r, t)
         ∧ match mjoin r with
           | None => below tgt name ≫= spec_injected (tree s) fs = None ∧ opens ∅ s t
           | Some h => ∃ p, below tgt name ≫= spec_injected (tree s) fs = Some p ∧ opens (source_handle h p) s t
           end.
Proof.
  intros Ht Hn. destruct (open_source_spec tgt name s Ht Hn) as (r&t&E&Hr). exists r, t. split; [done|].
  destruct r as [[h|]|]; simpl; [done|tauto|]. destruct Hr as [Hb Ho]. split; [|done].
  destruct Hb as [Hi| ->]; [|done]. destruct (below tgt name); [|done]. simpl. unfold injects, spec_injected in *.
  destruct (SrcDir fs); [|done]. by destruct (SrcFS fs).
Qed.

Lemma below_nil name : is_absolute name = true → below [] name = Some name.
Proof.
  intros Ha. unfold below. cbv zeta. change (drop (length []) name) with name. change (take (length []) name) with (@nil Z).
  rewrite bool_decide_true by done. unfold is_absolute in Ha. by rewrite Ha.
Qed.

Lemma plain_kernels : plain mach_kernel ∧ plain kernel ∧ plain system_kernel ∧ is_absolute kernel = true ∧ is_absolute mach_kernel = true.
Proof.
  split_and!; [..|reflexivity|reflexivity]; unfold plain; apply (bool_decide_unpack _); vm_compute; exact I.
Qed.

Lemma open_kernel_spec name s :
  plain name → is_absolute name = true →
  ∃ r t, open_kernel fs (Some name) EFI_FILE_MODE_READ 0 s = Some (r, t)
         ∧ match r with
           | None => spec_kernel (tree s) fs name = None ∧ opens ∅ s t
           | Some h => ∃ p, spec_kernel (tree s) fs name = Some p ∧ opens (source_handle h p) s t
           end.
Proof.
  intros Hn Ha. destruct plain_kernels as (Hmk&Hk&Hsk&Ak&Amk). unfold open_kernel, spec_kernel.
  destruct (cmpi_spec name mach_kernel Hn Hmk) as (d1&E1&D1). erewrite bind_eq; [|unfold lift; by rewrite E1].
  assert (∃ r t, (if d1 =? 0 then open_source fs [] (Some name) EFI_FILE_MODE_READ 0 else mret None) s = Some (r, t)
    ∧ match mjoin r with
      | None => (if bool_decide (upper name = upper mach_kernel) then spec_injected (tree s) fs name else None) = None ∧ opens ∅ s t
      | Some h => ∃ p, (if bool_decide (upper name = upper mach_kernel) then spec_injected (tree s) fs name else None) = Some p
                       ∧ opens (source_handle h p) s t
      end) as (r1&t1&Er1&Hr1).
  { destruct (Z.eqb_spec d1 0) as [Ed|Ed].
    - rewrite bool_decide_true by tauto. destruct (open_source_result [] name s) as (r&t&E&Hr); [constructor|done|].
      rewrite below_nil in Hr by done. by eauto.
    - rewrite bool_decide_false by tauto. exists None, s. split; [done|]. split; [done|]. by apply opens_none. }
  rewrite (bind_eq _ _ _ _ _ Er1). destruct r1 as [[h|]|]; cbn [mjoin option_join] in Hr1.
  { destruct Hr1 as (p&->&Ho). exists (Some h), t1. by eauto. }
  all: destruct Hr1 as [-> Ho1].
  all: destruct (cmpi_spec name system_kernel Hn Hsk) as (d2&E2&D2); (erewrite bind_eq; [|unfold lift; by rewrite E2]).
  all: destruct (Z.eqb_spec d2 0) as [Ed|Ed]; [rewrite bool_decide_true by tauto|rewrite bool_decide_false by tauto; by exists None, t1].
  all: destruct (open_source_result [] kernel t1) as (r2&t2&Er2&Hr2); [constructor|done|].
  all: rewrite below_nil, (opens_tree _ _ _ Ho1) in Hr2 by done; cbn [mbind option_bind] in Hr2; rewrite (bind_eq _ _ _ _ _ Er2).
  all: destruct r2 as [[h|]|]; cbn [mjoin option_join] in Hr2;
    [destruct Hr2 as (p&->&Ho2); eexists _, _; split; [done|]; exists p; split; [done|by eapply opens_trans_l]|..].
  all: destruct Hr2 as [-> Ho2]; pose proof (opens_trans_l _ _ _ _ Ho1 Ho2) as Ho3.
  all: destruct (open_source_result [] mach_kernel t2) as (r3&t3&Er3&Hr3); [constructor|done|].
  all: rewrite below_nil, (opens_tree _ _ _ Ho3) in Hr3 by done; cbn [mbind option_bind] in Hr3; rewrite (bind_eq _ _ _ _ _ Er3).
  all: eexists _, _; (split; [done|]); destruct (mjoin r3); [destruct Hr3 as (p&->&Ho4); exists p|destruct Hr3 as [-> Ho4]];
    (split; [done|by eapply opens_trans_l]).
Qed.
End Open.
End Steps.
