(* ===== verification/FsInjectTheorems.v ===== *)
(** * FSInject: theorems

    Opening a file implements the union of the volumes and neither loses nor leaks a
    handle; the injection folder is listed before the target's; going into a directory and
    out again comes back; and where the driver does not do what it should. *)

From Stdlib Require Import ZArith Lia.
From stdpp Require Import base gmap list list_numbers strings.
From S2P Require Import Prelude FsInject FsInjectSpec.

Open Scope Z_scope.

(** ** Names *)

Lemma search_back_Some p c n i : search_back p c n = Some i → (i ≤ n)%nat ∧ nth i p 0 = c ∧ ∀ j, (i < j ≤ n)%nat → nth j p 0 ≠ c.
Proof.
  revert i. induction n as [|n IH]; intros i; cbn [search_back]; (case_match; zbool; [|]); intros E; simplify_eq.
  - split_and!; [done|done|lia].
  - split_and!; [done|done|lia].
  - destruct (IH _ E) as (H1&H2&H3). split_and!; [lia|done|]. intros j Hj. destruct (decide (j = Datatypes.S n)); [by subst|]. apply H3. lia.
Qed.

Lemma normalize_absolute p name : is_absolute p = true → is_absolute (normalize p name) = true.
Proof.
  intros Hp. unfold normalize. destruct (is_absolute name) eqn:Ha; [done|]. case_bool_decide; [done|]. case_bool_decide.
  - unfold parent_of. destruct (GetStrLastCharOccurence p BACKSLASH) as [[|i]|]; [done| |done]. by destruct p.
  - unfold join. by apply absolute_app.
Qed.

Lemma normalize_plain p name : plain p → plain name → plain (normalize p name).
Proof.
  intros Hp Hn. assert (plain [BACKSLASH]) as Hb by (by repeat constructor).
  unfold normalize. destruct (is_absolute name); [done|]. case_bool_decide; [done|]. case_bool_decide.
  - unfold parent_of. destruct (GetStrLastCharOccurence p BACKSLASH) as [[|i]|]; [done|by apply Forall_take|done].
  - unfold join. apply Forall_app. split; [done|]. apply Forall_app. split; [|done]. by destruct (match last p with Some _ => _ | None => _ end).
Qed.

(** ** Opening and closing *)

Section Open.
Context {S : Type} `{FileSystemLaws S} `{!Working S}.
Implicit Types (s t u : Fsi S).

Abbreviation handles s := (opened (files s)).
Abbreviation tree s := (there (files s)).

Lemma opens_trans a b s t u : opens a s t → opens b t u → opens (a ∪ b) s u.
Proof.
  intros (T1&O1&D1) (T2&O2&D2). rewrite O1 in O2, D2. apply map_disjoint_union_r in D2 as [D2 D3]. split_and!; [congruence| |].
  - rewrite O2, (assoc_L (∪)). f_equal. by apply map_union_comm.
  - by apply map_disjoint_union_l.
Qed.

Lemma count_opens hs s t : opens hs s t → ∃ u, count_injection t = Some (tt, u) ∧ opens hs s u.
Proof.
  intros (T1&O1&D1). eexists. split; [done|]. destruct (set_variable_ok (files t)) as [E1 E2].
  unfold opens. cbn [files]. destruct (_ =? _); by rewrite ?E1, ?E2.
Qed.

Lemma spec_source_off th fs name : injects fs = false → spec_source th fs name = None.
Proof.
  intros Hi. unfold spec_source, spec_injected, injects in *. destruct (below _ _); [|done]. simpl.
  destruct (SrcDir fs); [|done]. by destruct (SrcFS fs).
Qed.

Section Layers.
Context (this : FSI_FILE_PROTOCOL) (name : list Z) (s : Fsi S).
Abbreviation fs := (FSI_FS this).
Hypothesis Hdir : from_option (λ d, is_absolute d = true) True (SrcDir fs).
Hypothesis Htgt : plain (TgtDir fs).
Hypothesis Hname : plain name.
Hypothesis Habs : is_absolute name = true.

(** What the injection folder adds. *)
Lemma layer_source t :
  opens ∅ s t → injects fs = true →
  ∃ r u, open_source fs (TgtDir fs) (Some name) EFI_FILE_MODE_READ 0 t = Some (r, u)
         ∧ match r with
           | Some (Some h) => ∃ p, spec_source (tree s) fs name = Some p ∧ opens (source_handle fs h p) s u
           | Some None => spec_source (tree s) fs name = None ∧ is_Some (below (TgtDir fs) name) ∧ opens ∅ s u
           | None => spec_source (tree s) fs name = None ∧ below (TgtDir fs) name = None ∧ opens ∅ s u
           end.
Proof.
  intros Ho Hi. destruct (open_source_spec memory fs Hdir (TgtDir fs) name t Htgt Hname) as (r&u&E&Hr).
  exists r, u. split; [done|]. rewrite (opens_tree _ _ _ Ho) in Hr. unfold spec_source. destruct r as [[h|]|].
  - destruct Hr as (p&Hp&Hu). exists p. split; [done|]. by eapply opens_trans_l.
  - destruct Hr as (_&Hb&Hp&Hu). split_and!; [done|done|by eapply opens_trans_l].
  - destruct Hr as ([Hb|Hb]&Hu); [congruence|]. rewrite Hb. split_and!; [done|done|by eapply opens_trans_l].
Qed.

Lemma layers_target h p0 :
  TgtFP this = Some h → handles s !! h = Some (TgtFS fs, p0) →
  ∃ r t, open_layers this (Some name) EFI_FILE_MODE_READ 0 s = Some (r, t)
         ∧ if tree s (TgtFS fs) name then ∃ h', r = (EFI_SUCCESS, Some h', None) ∧ opens {[h' := (TgtFS fs, name)]} s t
           else match spec_source (tree s) fs name with
                | Some p => ∃ h', r = (EFI_SUCCESS, None, Some h') ∧ opens (source_handle fs h' p) s t
                | None => r = (if injects fs && bool_decide (is_Some (below (TgtDir fs) name)) then EFI_DEVICE_ERROR else EFI_NOT_FOUND, None, None)
                          ∧ opens ∅ s t
                end.
Proof.
  intros Et Hh. unfold open_layers. rewrite Et. destruct (tree s (TgtFS fs) name) eqn:Ht.
  - destruct (open_there _ _ _ _ _ Hh Habs Ht) as (h'&s'&E&F&O&T). erewrite bind_eq.
    2:{ erewrite bind_eq; [|unfold call_value; by rewrite E]. done. }
    eexists _, _. split; [done|]. exists h'. split; [done|]. by apply opens_one.
  - destruct (open_missing _ _ _ _ _ Hh Habs Ht) as (h'&s'&E&O&T). erewrite bind_eq.
    2:{ erewrite bind_eq; [|unfold call_value; by rewrite E]. done. }
    cbn [fst snd EFI_ERROR negb]. rewrite bool_decide_false by done. cbn [orb].
    assert (opens ∅ s (set_files s' s)) as Ho by (by apply opens_none).
    destruct (injects fs) eqn:Hi.
    + destruct (layer_source _ Ho Hi) as (r&u&Er&Hr). unfold injects in Hi.
      destruct (SrcDir fs); [|done]. destruct (SrcFS fs); [|done]. rewrite (bind_eq _ _ _ _ _ Er). destruct r as [[h2|]|].
      * destruct Hr as (p&->&Hu). destruct (count_opens _ _ _ Hu) as (v&Ev&Hv). rewrite (bind_eq _ _ _ _ _ Ev). eexists _, _. by eauto.
      * destruct Hr as (->&Hb&Hu). rewrite bool_decide_true by done. by eexists _, _.
      * destruct Hr as (->&Hb&Hu). rewrite Hb. by eexists _, _.
    + rewrite (spec_source_off _ _ _ Hi). unfold injects in Hi. destruct (SrcDir fs); [destruct (SrcFS fs); [done|]|]; by eexists _, _.
Qed.

Lemma layers_source :
  TgtFP this = None →
  ∃ r t, open_layers this (Some name) EFI_FILE_MODE_READ 0 s = Some (r, t)
         ∧ match spec_source (tree s) fs name with
           | Some p => ∃ h', r = (EFI_SUCCESS, None, Some h') ∧ opens (source_handle fs h' p) s t
           | None =>
               if injects fs && tree s (TgtFS fs) name then ∃ h', r = (EFI_SUCCESS, Some h', None) ∧ opens {[h' := (TgtFS fs, name)]} s t
               else r = (EFI_DEVICE_ERROR, None, None) ∧ opens ∅ s t
           end.
Proof.
  intros Et. unfold open_layers. rewrite Et, bind_ret. cbn [fst snd EFI_ERROR negb]. rewrite bool_decide_false by done. cbn [orb].
  assert (opens ∅ s s) as Ho by (by apply opens_none). destruct (injects fs) eqn:Hi.
  - destruct (layer_source _ Ho Hi) as (r&u&Er&Hr). unfold injects in Hi.
    destruct (SrcDir fs); [|done]. destruct (SrcFS fs); [|done]. rewrite (bind_eq _ _ _ _ _ Er). destruct r as [[h2|]|].
    { destruct Hr as (p&->&Hu). destruct (count_opens _ _ _ Hu) as (v&Ev&Hv). rewrite (bind_eq _ _ _ _ _ Ev). eexists _, _. by eauto. }
    all: destruct Hr as (->&_&Hu); destruct (OpenFileProtocol_spec u (TgtFS fs) name Habs) as (r2&v&E2&Hr2);
      rewrite (bind_eq _ _ _ _ _ E2); rewrite (opens_tree _ _ _ Hu) in Hr2; cbn [andb].
    all: destruct r2 as [h2|]; destruct Hr2 as [-> Hv]; eexists _, _; (split; [done|]); first [eexists; split; [done|] | split; [done|]];
      by eapply opens_trans_l.
  - rewrite (spec_source_off _ _ _ Hi). unfold injects in Hi. destruct (SrcDir fs); [destruct (SrcFS fs); [done|]|]; by eexists _, _.
Qed.
End Layers.

(** The handles of a file that was opened as [view]: the paths in the target and in the source. *)
Definition held (file : FSI_FILE_PROTOCOL) (view : option (list Z) * option (list Z)) : gmap Z (Z * list Z) :=
  match TgtFP file, view.1 with Some h, Some p => {[h := (TgtFS (FSI_FS file), p)]} | _, _ => ∅ end
  ∪ match SrcFP file, view.2 with Some h, Some p => source_handle (FSI_FS file) h p | _, _ => ∅ end.

(** The file stands for the view under this name. *)
Definition file_is (file : FSI_FILE_PROTOCOL) fs name (view : option (list Z) * option (list Z)) : Prop :=
  FSI_FS file = fs ∧ FName file = Some name ∧ (is_Some (TgtFP file) ↔ is_Some view.1) ∧ (is_Some (SrcFP file) ↔ is_Some view.2).

Lemma close_opens hs s t h f :
  opens ({[h := f]} ∪ hs) s t → hs !! h = None → ∃ st u, call (Close h) t = Some (st, u) ∧ opens hs s u.
Proof.
  intros (T&O&D) Hh. destruct (close_ok (files t) h) as (st&f'&E&O'&T'). eexists _, _. split; [unfold call; by rewrite E|].
  apply map_disjoint_union_l in D as [D1 D2]. apply map_disjoint_singleton_l in D1.
  split_and!; cbn [files set_files]; [congruence| |done]. rewrite O', O, <- (assoc_L (∪)), <- insert_union_singleton_l.
  rewrite delete_insert_id; [done|]. by apply lookup_union_None.
Qed.

(** Closing a file closes what opening it opened. *)
Lemma close_held file fs name view s t :
  file_is file fs name view → opens (held file view) s t →
  (∀ h1 h2, TgtFP file = Some h1 → SrcFP file = Some h2 → h1 ≠ h2) →
  ∃ st u, FSI_FP_Close file t = Some (st, u) ∧ handles u = handles s.
Proof.
  intros (_&_&Ht&Hs) Ho Hne. unfold FSI_FP_Close, held in *. destruct view as [vt vs]. cbn [fst snd] in *.
  destruct (TgtFP file) as [h1|] eqn:E1, (SrcFP file) as [h2|] eqn:E2.
  - destruct (proj1 Ht ltac:(done)) as (p1&->), (proj1 Hs ltac:(done)) as (p2&->). unfold source_handle in Ho.
    specialize (Hne _ _ eq_refl eq_refl).
    destruct (close_opens _ _ _ _ _ Ho) as (st1&u1&C1&O1); [by apply lookup_singleton_None|].
    rewrite (bind_eq _ _ _ _ _ C1). cbn [close_opt]. rewrite <- (right_id_L ∅ (∪) {[h2 := _]}) in O1.
    destruct (close_opens _ _ _ _ _ O1) as (st2&u2&C2&(_&O2&_)); [done|].
    erewrite bind_eq; [|by rewrite (bind_eq _ _ _ _ _ C2)]. eexists _, _. split; [done|]. by rewrite O2, (left_id_L ∅ (∪)).
  - destruct (proj1 Ht ltac:(done)) as (p1&->). destruct (close_opens _ _ _ _ _ Ho) as (st1&u1&C1&(_&O1&_)); [done|].
    rewrite (bind_eq _ _ _ _ _ C1). eexists _, _. split; [done|]. by rewrite O1, (left_id_L ∅ (∪)).
  - destruct (proj1 Hs ltac:(done)) as (p2&->). rewrite bind_ret. cbn [close_opt]. unfold source_handle in Ho.
    rewrite (left_id_L ∅ (∪)), <- (right_id_L ∅ (∪) {[h2 := _]}) in Ho.
    destruct (close_opens _ _ _ _ _ Ho) as (st2&u2&C2&(_&O2&_)); [done|].
    erewrite bind_eq; [|by rewrite (bind_eq _ _ _ _ _ C2)]. eexists _, _. split; [done|]. by rewrite O2, (left_id_L ∅ (∪)).
  - rewrite bind_ret. eexists _, _. split; [done|]. destruct Ho as (_&Ho&_). by rewrite Ho, !(left_id_L ∅ (∪)).
Qed.

(** ** The union *)

(** What the driver is installed with. *)
Record fs_ok (fs : FSI_SIMPLE_FILE_SYSTEM_PROTOCOL) : Prop := {
  ok_src : from_option (λ d, is_absolute d = true) True (SrcDir fs);
  ok_tgt : plain (TgtDir fs);
  ok_black : Forall (λ e, plain e ∧ e ≠ []) (default [] (Blacklist fs))
}.

(** A file from which others are opened: its handle of the target is open. *)
Record from_ok (this : FSI_FILE_PROTOCOL) (p : list Z) s : Prop := {
  from_name : FName this = Some p;
  from_abs : is_absolute p = true;
  from_plain : plain p;
  from_open : from_option (λ h, ∃ q, handles s !! h = Some (TgtFS (FSI_FS this), q)) True (TgtFP this)
}.

Lemma blacklisted_hidden fs name : fs_ok fs → plain name → blacklisted fs (Some name) = hidden fs name.
Proof.
  intros [_ _ Hb] Hn. unfold blacklisted, hidden. induction Hb as [|e l [He Hne] Hb IH]; [done|]. cbn [existsb].
  by rewrite starts_spec, IH.
Qed.

(** The result of an open that is to give [spec]. *)
Definition implements (spec : EFI_STATUS + option (list Z) * option (list Z)) fs name s (r : EFI_STATUS * option FSI_FILE_PROTOCOL) t : Prop :=
  match spec with
  | inl st => r = (st, None) ∧ opens ∅ s t
  | inr view => ∃ file, r = (EFI_SUCCESS, Some file) ∧ file_is file fs name view ∧ opens (held file view) s t
                        ∧ ∀ h1 h2, TgtFP file = Some h1 → SrcFP file = Some h2 → h1 ≠ h2
  end.

(** The end of an open that found its file in the target. *)
Lemma open_point fs name h s t :
  fs_ok fs → plain name → opens {[h := (TgtFS fs, name)]} s t →
  ∃ r u, (c ← (match Some h, SrcFS fs, SrcDir fs with
               | Some _, Some _, Some _ => lift (StrCmpiBasic (Some (TgtDir fs)) (Some name))
               | _, _, _ => mret 1
               end);
          src ← (match SrcFS fs with
                 | Some vol => if c =? 0 then OpenFileProtocol vol (SrcDir fs) EFI_FILE_MODE_READ 0 else mret None
                 | None => mret None
                 end);
          mret (EFI_SUCCESS, Some {| FSI_FS := fs; FName := Some name; IsDir := false; TgtFP := Some h; SrcFP := src;
                                     FromTgt := bool_decide (is_Some (Some h)) |})) t = Some (r, u)
         ∧ implements (inr (Some name, spec_point (tree s) fs name)) fs name s r u.
Proof.
  intros [Hd Ht _] Hn Ho. unfold spec_point, spec_injected.
  assert (∀ u, opens {[h := (TgtFS fs, name)]} s u →
    implements (inr (Some name, None)) fs name s (EFI_SUCCESS, Some {| FSI_FS := fs; FName := Some name; IsDir := false; TgtFP := Some h;
      SrcFP := None; FromTgt := bool_decide (is_Some (Some h)) |}) u) as Hnone.
  { intros u Hu. eexists. split; [done|]. split; [by unfold file_is; naive_solver|]. split; [|done]. unfold held. simpl. by rewrite (right_id_L ∅ (∪)). }
  destruct (SrcFS fs) as [vol|] eqn:Ev; [|destruct (SrcDir fs); rewrite !bind_ret; eexists _, _; (split; [done|]); destruct (bool_decide (upper _ = _)); by apply Hnone].
  destruct (SrcDir fs) as [dir|] eqn:Ed; [|rewrite !bind_ret; eexists _, _; (split; [done|]); destruct (bool_decide (upper _ = _)); by apply Hnone].
  destruct (cmpi_spec (TgtDir fs) name Ht Hn) as (d&E&D). erewrite bind_eq; [|unfold lift; by rewrite E].
  destruct (Z.eqb_spec d 0) as [Edz|Edz]; [rewrite (bool_decide_true (upper _ = _)) by tauto|rewrite (bool_decide_false (upper _ = _)) by tauto; rewrite bind_ret; eexists _, _; split; [done|by apply Hnone]].
  destruct (OpenFileProtocol_spec t vol dir Hd) as (r&u&Er&Hr). rewrite (bind_eq _ _ _ _ _ Er), (opens_tree _ _ _ Ho), app_nil_r in *.
  eexists _, _. split; [done|]. destruct r as [h2|]; destruct Hr as [-> Hu].
  - eexists. split; [done|]. split; [by unfold file_is; naive_solver|]. split.
    + unfold held, source_handle. simpl. rewrite Ev. by eapply opens_trans.
    + intros h1 h3 [= <-] [= <-] ->. destruct Hu as (_&_&Hu). apply map_disjoint_singleton_l in Hu.
      destruct Ho as (_&Ho&_). rewrite Ho, lookup_union_l' in Hu by (by rewrite lookup_singleton_eq). by rewrite lookup_singleton_eq in Hu.
  - apply Hnone. destruct Hu as (T1&O1&_), Ho as (T2&O2&D2). rewrite (left_id_L ∅ (∪)) in O1. split_and!; [congruence..|done].
Qed.

Lemma implements_trans spec fs name s t r u : opens ∅ s t → implements spec fs name t r u → implements spec fs name s r u.
Proof.
  intros Ho. unfold implements. destruct spec as [st|view].
  - intros [-> Hu]. split; [done|]. by eapply opens_trans_l.
  - intros (file&->&Hf&Hu&Hne). exists file. split_and!; [done..|by eapply opens_trans_l|done].
Qed.

(** A file that is only in the source. *)
Lemma implements_source fs name h p s t :
  opens (source_handle fs h p) s t →
  implements (inr (None, Some p)) fs name s
    (EFI_SUCCESS, Some {| FSI_FS := fs; FName := Some name; IsDir := false; TgtFP := None; SrcFP := Some h; FromTgt := false |}) t.
Proof.
  intros Ho. eexists. split; [done|]. split; [by unfold file_is; naive_solver|]. split; [|done].
  unfold held. simpl. by rewrite (left_id_L ∅ (∪)).
Qed.

Lemma open_implements this FileName p s :
  fs_ok (FSI_FS this) → from_ok this p s → plain FileName →
  ∃ r t, FSI_FP_Open this FileName EFI_FILE_MODE_READ 0 s = Some (r, t)
         ∧ implements (spec_open (tree s) (FSI_FS this) (bool_decide (is_Some (TgtFP this))) (normalize p FileName))
             (FSI_FS this) (normalize p FileName) s r t.
Proof.
  intros Hfs [Hnm Habs Hpl Hopen] Hfn. pose proof Hfs as [Hd Ht _]. unfold FSI_FP_Open. rewrite Hnm.
  rewrite (bind_eq _ _ _ _ _ (normalize_spec memory p FileName s)). set (name := normalize p FileName).
  assert (plain name) as Hn by (by apply normalize_plain). assert (is_absolute name = true) as Ha by (by apply normalize_absolute).
  rewrite blacklisted_hidden by done. unfold spec_open. destruct (hidden _ name).
  { eexists _, _. split; [done|]. split; [done|]. by apply opens_none. }
  rewrite (bind_eq _ _ _ _ _ (alloc_ok memory _ s)). cbn [negb].
  destruct (open_kernel_spec memory (FSI_FS this) Hd name s Hn Ha) as (k&t1&Ek&Hk). rewrite (bind_eq _ _ _ _ _ Ek). destruct k as [h|].
  { destruct Hk as (q&->&Ho). eexists _, _. split; [done|]. by apply implements_source. }
  destruct Hk as [-> Ho]. rewrite <- (opens_tree _ _ _ Ho).
  destruct (TgtFP this) as [h|] eqn:Eh.
  - rewrite bool_decide_true by done. destruct Hopen as [q Hq]. assert (handles t1 !! h = Some (TgtFS (FSI_FS this), q)) as Hq1.
    { destruct Ho as (_&Ho&_). by rewrite Ho, (left_id_L ∅ (∪)). }
    destruct (layers_target this name t1 Hd Ht Hn Ha h q Eh Hq1) as (r&t2&Er&Hr). rewrite (bind_eq _ _ _ _ _ Er).
    destruct (tree t1 (TgtFS (FSI_FS this)) name).
    { destruct Hr as (h'&->&Ho2). cbn [EFI_ERROR]. destruct (open_point (FSI_FS this) name h' t1 t2 Hfs Hn Ho2) as (r&u&E&Hi).
      rewrite E. eexists _, _. split; [done|]. by eapply implements_trans. }
    destruct (spec_source _ _ name) as [ps|].
    { destruct Hr as (h'&->&Ho2). cbn [EFI_ERROR]. rewrite bind_ret. eexists _, _. split; [by destruct (SrcFS (FSI_FS this))|].
      eapply implements_trans; [done|]. by apply implements_source. }
    destruct Hr as [-> Ho2]. exists (if injects (FSI_FS this) && bool_decide (is_Some (below (TgtDir (FSI_FS this)) name)) then EFI_DEVICE_ERROR else EFI_NOT_FOUND, None), t2.
    split; [by destruct (_ && _)|]. eapply implements_trans; [done|]. done.
  - rewrite bool_decide_false by (by intros []). destruct (layers_source this name t1 Hd Ht Hn Ha Eh) as (r&t2&Er&Hr).
    rewrite (bind_eq _ _ _ _ _ Er). destruct (spec_source _ _ name) as [ps|].
    { destruct Hr as (h'&->&Ho2). cbn [EFI_ERROR]. rewrite bind_ret. eexists _, _. split; [by destruct (SrcFS (FSI_FS this))|].
      eapply implements_trans; [done|]. by apply implements_source. }
    destruct (injects (FSI_FS this) && tree t1 (TgtFS (FSI_FS this)) name).
    { destruct Hr as (h'&->&Ho2). cbn [EFI_ERROR]. destruct (open_point (FSI_FS this) name h' t1 t2 Hfs Hn Ho2) as (r&u&E&Hi).
      rewrite E. eexists _, _. split; [done|]. by eapply implements_trans. }
    destruct Hr as [-> Ho2]. eexists _, _. split; [done|]. eapply implements_trans; [done|]. done.
Qed.
End Open.

(** ** Whatever fails *)

Section Balance.
Context {S : Type} `{FileSystemLaws S}.
Implicit Types (s t u : Fsi S).

Abbreviation handles s := (opened (files s)).

(** From [s] to [t] the file [r] was opened, or none. *)
Definition got (r : option Z) s t : Prop :=
  match r with
  | Some h => handles s !! h = None ∧ ∃ f, handles t = <[h := f]> (handles s)
  | None => handles t = handles s
  end.

Lemma got_after r s t u : handles t = handles s → got r t u → got r s u.
Proof. intros E. unfold got. by rewrite E. Qed.

Lemma OpenFileProtocol_got v name mode attrs s : ∃ r t, OpenFileProtocol v name mode attrs s = Some (r, t) ∧ got r s t.
Proof.
  unfold OpenFileProtocol. pose proof (open_volume_law (files s) v) as Hv. destruct (OpenVolume v (files s)) as [[st h] s1] eqn:E1.
  erewrite bind_eq; [|unfold call_value; by rewrite E1]. cbn [fst snd]. destruct (EFI_ERROR st); [by eexists None, _|]. destruct Hv as [Hh H1].
  pose proof (open_law s1 h v [BACKSLASH] name mode attrs ltac:(rewrite H1; apply lookup_insert_eq)) as Ho. destruct (Open h name mode attrs s1) as [[st2 h2] s2] eqn:E2.
  erewrite bind_eq; [|unfold call_value; cbn [files set_files]; by rewrite E2]. destruct (close_ok s2 h) as (st3&s3&E3&O3&_).
  erewrite bind_eq; [|unfold call; cbn [files set_files]; by rewrite E3]. cbn [fst snd]. eexists _, _. split; [done|].
  destruct (EFI_ERROR st2); unfold got; cbn [files set_files].
  - by rewrite O3, Ho, H1, delete_insert_id.
  - destruct Ho as [Hh2 (q&O2)]. rewrite H1 in Hh2. apply lookup_insert_None in Hh2 as [Hh2 Hne]. split; [done|]. exists (v, q).
    by rewrite O3, O2, H1, delete_insert_ne, delete_insert_id.
Qed.

Definition plain_opt (n : option (list Z)) : Prop := from_option plain True n.

Lemma alloc_state n s : alloc n s = Some (AllocatePool (files s) n, s).
Proof. done. Qed.

Lemma copy_string_total p s : plain p → ∃ r, copy_string p s = Some (r, s) ∧ plain_opt r.
Proof. intros Hp. unfold copy_string. rewrite (bind_eq _ _ _ _ _ (alloc_state _ s)). eexists. split; [done|]. by destruct (AllocatePool _ _). Qed.

Lemma normalized_total p name s : plain p → plain name → ∃ r, GetNormalizedFName (Some p) name s = Some (r, s) ∧ plain_opt r.
Proof.
  intros Hp Hn. assert (plain [BACKSLASH]) as Hb by (by repeat constructor). unfold GetNormalizedFName. destruct (is_absolute name); [by apply copy_string_total|].
  erewrite bind_eq; [|done]. case_bool_decide; [by apply copy_string_total|]. case_bool_decide.
  - destruct (GetStrLastCharOccurence p BACKSLASH) as [[|i]|]; apply copy_string_total; [done|by apply Forall_take|done].
  - rewrite (bind_eq _ _ _ _ _ (alloc_state _ s)). eexists. split; [done|]. destruct (AllocatePool _ _); [|done]. apply Forall_app. split; [done|].
    apply Forall_app. split; [|done]. destruct (GetStrLastChar p); [|done]. by destruct (_ =? _).
Qed.

Lemma skip_total (s1 s2 : list Z) : plain s1 → plain s2 → is_Some (skip_equal s1 s2).
Proof.
  intros H1 H2. destruct (decide (upper (take (length s1) s2) = upper s1)) as [E|E]; [by rewrite skip_equal_prefix|].
  destruct (skip_equal_other s1 s2 H1 H2 E) as (c&r1&r2&->&_). done.
Qed.

Lemma cmpi_total (s1 : list Z) name : plain s1 → plain_opt name → is_Some (StrCmpiBasic name (Some s1)) ∧ is_Some (StrCmpiBasic (Some s1) name).
Proof.
  intros H1 H2. destruct name as [n|]; [|done]. destruct (cmpi_spec n s1 H2 H1) as (d&->&_), (cmpi_spec s1 n H1 H2) as (d'&->&_). done.
Qed.

Lemma lift_total {A} (o : option A) s : is_Some o → ∃ x, lift o s = Some (x, s) ∧ o = Some x.
Proof. intros [x ->]. by exists x. Qed.

Lemma open_source_got fs tgt name mode attrs s : plain tgt → plain_opt name →
  ∃ r t, open_source fs tgt name mode attrs s = Some (r, t) ∧ got (mjoin r) s t.
Proof.
  intros Ht Hn. unfold open_source. destruct (SrcDir fs) as [dir|]; [|by eexists None, _]. destruct (SrcFS fs) as [vol|]; [|by eexists None, _].
  assert (∃ inj, GetInjectionFName (Some tgt) (Some dir) name s = Some (inj, s)) as (inj&E).
  { destruct name as [n|]; [|by eexists]. unfold GetInjectionFName. destruct (lift_total _ s (skip_total tgt n Ht Hn)) as (x&Ex&_).
    rewrite (bind_eq _ _ _ _ _ Ex). destruct x.1; [|by eexists]. destruct (negb _); [by eexists|]. rewrite (bind_eq _ _ _ _ _ (alloc_state _ s)). by eexists. }
  rewrite (bind_eq _ _ _ _ _ E). destruct inj as [n|]; [|by eexists None, _].
  destruct (OpenFileProtocol_got vol (Some n) mode attrs s) as (r&t&Er&Hr). rewrite (bind_eq _ _ _ _ _ Er). by eexists (Some r), _.
Qed.

Lemma open_kernel_got fs name mode attrs s : plain_opt name → ∃ r t, open_kernel fs name mode attrs s = Some (r, t) ∧ got r s t.
Proof.
  intros Hn. assert (plain mach_kernel ∧ plain system_kernel ∧ plain kernel) as (P1&P2&P3) by (split_and!; apply (bool_decide_unpack _); by vm_compute).
  assert (plain []) as P0 by constructor. unfold open_kernel. destruct (lift_total _ s (proj1 (cmpi_total mach_kernel name P1 Hn))) as (c1&E1&_).
  rewrite (bind_eq _ _ _ _ _ E1). assert (∃ r t, (if c1 =? 0 then open_source fs [] name mode attrs else mret None) s = Some (r, t) ∧ got (mjoin r) s t) as (r1&t1&Er1&H1).
  { destruct (c1 =? 0); [by apply open_source_got|by eexists None, _]. }
  rewrite (bind_eq _ _ _ _ _ Er1). destruct r1 as [[h|]|]; [by eexists (Some h), _|..]; cbn [mjoin option_join got] in H1.
  all: destruct (lift_total _ t1 (proj1 (cmpi_total system_kernel name P2 Hn))) as (c2&E2&_); rewrite (bind_eq _ _ _ _ _ E2);
    (destruct (c2 =? 0); [|by eexists None, _]); destruct (open_source_got fs [] (Some kernel) mode attrs t1 P0 P3) as (r2&t2&Er2&H2);
    rewrite (bind_eq _ _ _ _ _ Er2); apply (got_after _ _ _ _ H1) in H2; destruct r2 as [[h|]|]; [by eexists (Some h), _|..]; cbn [mjoin option_join got] in H2;
    destruct (open_source_got fs [] (Some mach_kernel) mode attrs t2 P0 P1) as (r3&t3&Er3&H3); rewrite (bind_eq _ _ _ _ _ Er3);
    apply (got_after _ _ _ _ H2) in H3; by eexists _, _.
Qed.

Lemma open_layers_got this name mode attrs s : plain (TgtDir (FSI_FS this)) → plain_opt name →
  from_option (λ h, is_Some (handles s !! h)) True (TgtFP this) →
  ∃ st tgt src t, open_layers this name mode attrs s = Some ((st, tgt, src), t) ∧
    if EFI_ERROR st then handles t = handles s else ∃ o, got o s t ∧ ((tgt, src) = (o, None) ∨ (tgt, src) = (None, o)).
Proof.
  intros Ht Hn Hh. unfold open_layers.
  assert (∃ st o t, match TgtFP this with
      | Some h => r ← call_value (Open h name mode attrs); mret (r.1, if EFI_ERROR r.1 then None else Some r.2)
      | None => mret (EFI_DEVICE_ERROR, None) end s = Some ((st, o), t) ∧ got o s t ∧ (EFI_ERROR st = true → o = None)) as (st&o&t1&E1&H1&H1').
  { destruct (TgtFP this) as [h|]; [|by eexists _, None, _]. destruct Hh as [[v p] Hh]. pose proof (open_law (files s) h v p name mode attrs Hh) as Ho.
    destruct (Open h name mode attrs (files s)) as [[st h2] s2] eqn:E2. erewrite bind_eq; [|unfold call_value; by rewrite E2]. cbn [fst snd].
    eexists _, _, _. split; [done|]. destruct (EFI_ERROR st); [done|]. split; [|done]. destruct Ho as [Hf (q&Ho)]. split; [done|]. by eexists. }
  rewrite (bind_eq _ _ _ _ _ E1). cbn [fst snd]. destruct (bool_decide _ || negb (EFI_ERROR st)) eqn:Eb.
  { eexists _, _, _, _. split; [done|]. destruct (EFI_ERROR st); [by rewrite H1' in H1|]. exists o. auto. }
  apply orb_false_iff in Eb as [_ Ee]. apply negb_false_iff in Ee. rewrite (H1' Ee) in H1. cbn [got] in H1.
  destruct (SrcDir (FSI_FS this)) as [dir|]; [|eexists _, _, _, _; split; [done|]; by rewrite Ee].
  destruct (SrcFS (FSI_FS this)) as [vol|]; [|eexists _, _, _, _; split; [done|]; by rewrite Ee].
  destruct (open_source_got (FSI_FS this) (TgtDir (FSI_FS this)) name mode attrs t1 Ht Hn) as (i&t2&E2&H2). rewrite (bind_eq _ _ _ _ _ E2).
  apply (got_after _ _ _ _ H1) in H2. destruct i as [[h|]|]; cbn [mjoin option_join] in H2.
  { rewrite (bind_eq _ _ t2 tt (Build_Fsi (if KextsInjected t2 =? 0 then SetKextsInjected (files t2) else files t2) (wrap8 (KextsInjected t2 + 1)))) by done.
    eexists _, _, _, _. split; [done|]. cbn [EFI_ERROR]. exists (Some h). split; [|by right]. unfold got in *. cbn [files].
    destruct (_ =? _); [|done]. by rewrite (proj1 (set_variable_ok (files t2))). }
  all: cbn [got] in H2; destruct (TgtFP this); [eexists _, _, _, _; split; [done|]; rewrite ?Ee; done|].
  all: destruct (OpenFileProtocol_got (TgtFS (FSI_FS this)) name mode attrs t2) as (r&t3&E3&H3); rewrite (bind_eq _ _ _ _ _ E3); apply (got_after _ _ _ _ H2) in H3.
  all: destruct r as [h|]; eexists _, _, _, _; (split; [done|]); cbn [EFI_ERROR]; [exists (Some h); auto|done].
Qed.

(** What an open leaves behind: an error and no new handle, or a file that holds all new
    handles, so that closing it leads back. *)
Definition balanced s (r : EFI_STATUS * option FSI_FILE_PROTOCOL) t : Prop :=
  match r with
  | (st, None) => EFI_ERROR st = true ∧ handles t = handles s
  | (st, Some file) => EFI_ERROR st = false ∧ ∃ st' u, FSI_FP_Close file t = Some (st', u) ∧ handles u = handles s
  end.

Lemma close_got file st s t1 t : EFI_ERROR st = false → got (TgtFP file) s t1 → got (SrcFP file) t1 t → balanced s (st, Some file) t.
Proof.
  intros Hst H1 H2. split; [done|]. unfold FSI_FP_Close.
  assert (∃ st' u, match TgtFP file with Some h => call (Close h) | None => mret EFI_SUCCESS end t = Some (st', u) ∧
    handles u = match TgtFP file with Some h => delete h (handles t) | None => handles t end) as (st1&u1&E1&O1).
  { destruct (TgtFP file) as [h|]; [|by eexists _, _]. destruct (close_ok (files t) h) as (st'&s'&E&O&_).
    eexists _, _. split; [unfold call; by rewrite E|done]. }
  rewrite (bind_eq _ _ _ _ _ E1). assert (∃ u, close_opt (SrcFP file) u1 = Some (tt, u) ∧ handles u = match SrcFP file with Some h => delete h (handles u1) | None => handles u1 end) as (u&E2&O2).
  { unfold close_opt. destruct (SrcFP file) as [h|]; [|by eexists]. destruct (close_ok (files u1) h) as (st'&s'&E&O&_).
    eexists. split; [erewrite bind_eq; [done|unfold call; by rewrite E]|done]. }
  rewrite (bind_eq _ _ _ _ _ E2). eexists _, _. split; [done|]. rewrite O2, O1. unfold got in *.
  destruct (TgtFP file) as [h1|], (SrcFP file) as [h2|]; [destruct H1 as [F1 (f1&H1)], H2 as [F2 (f2&H2)]|destruct H1 as [F1 (f1&H1)]|destruct H2 as [F2 (f2&H2)]|congruence].
  - rewrite H1 in F2. apply lookup_insert_None in F2 as [F2 Hne]. rewrite H2, H1, (delete_insert_ne _ h1 h2) by done.
    rewrite (delete_insert_id (handles s)) by done. by rewrite delete_insert_id.
  - by rewrite H2, H1, delete_insert_id.
  - rewrite H2, H1. rewrite H1 in F2. by rewrite delete_insert_id.
Qed.

Lemma open_balanced this FileName p mode attrs s : fs_ok (FSI_FS this) → from_ok this p s → plain FileName →
  ∃ r t, FSI_FP_Open this FileName mode attrs s = Some (r, t) ∧ balanced s r t.
Proof.
  intros [_ Ht _] [Hp _ Hpp Hop] Hn. unfold FSI_FP_Open. rewrite Hp. destruct (normalized_total p FileName s Hpp Hn) as (name&En&Hname).
  rewrite (bind_eq _ _ _ _ _ En). destruct (blacklisted _ name); [by eexists _, _|]. rewrite (bind_eq _ _ _ _ _ (alloc_state _ s)).
  destruct (AllocatePool _ _); cbn [negb]; [|by eexists _, _]. destruct (open_kernel_got (FSI_FS this) name mode attrs s Hname) as (k&t1&Ek&Hk).
  rewrite (bind_eq _ _ _ _ _ Ek). destruct k as [h|]; [eexists _, _; split; [done|]; by eapply close_got|]. cbn [got] in Hk.
  destruct (open_layers_got this name mode attrs t1 Ht Hname) as (st&tgt&src&t2&El&Hl).
  { destruct (TgtFP this); [|done]. cbn [from_option] in *. destruct Hop as [q Hq]. rewrite Hk. eauto. }
  rewrite (bind_eq _ _ _ _ _ El). destruct (EFI_ERROR st) eqn:Est; [eexists _, _; split; [done|]; split; [done|congruence]|].
  destruct Hl as (o&Hg&Hpair). apply (got_after _ _ _ _ Hk) in Hg.
  assert (∃ c, (match tgt, SrcFS (FSI_FS this), SrcDir (FSI_FS this) with Some _, Some _, Some _ => lift (StrCmpiBasic (Some (TgtDir (FSI_FS this))) name) | _, _, _ => mret 1 end) t2 = Some (c, t2) ∧ (tgt = None → c = 1)) as (c&Ec&Hc).
  { destruct (lift_total _ t2 (proj2 (cmpi_total _ name Ht Hname))) as (x&Ex&_). destruct tgt, (SrcFS (FSI_FS this)), (SrcDir (FSI_FS this)); first [by exists x|by exists 1]. }
  rewrite (bind_eq _ _ _ _ _ Ec). assert (∃ src' t3, (match SrcFS (FSI_FS this) with Some vol => if c =? 0 then OpenFileProtocol vol (SrcDir (FSI_FS this)) EFI_FILE_MODE_READ 0 else mret src | None => mret src end) t2 = Some (src', t3)
    ∧ ∃ m, got tgt s m ∧ got src' m t3) as (src'&t3&E3&m&G1&G2).
  { assert (∃ m, got tgt s m ∧ got src m t2) as Hsame by (destruct Hpair as [[= -> ->]|[= -> ->]]; [by exists t2|by exists s]).
    destruct (SrcFS (FSI_FS this)) as [vol|]; [|by eexists _, _]. destruct (Z.eqb_spec c 0) as [->|Hc0]; [|by eexists _, _].
    destruct tgt as [h|]; [|by specialize (Hc eq_refl)]. destruct (OpenFileProtocol_got vol (SrcDir (FSI_FS this)) EFI_FILE_MODE_READ 0 t2) as (r&t3&E3&H3).
    eexists _, _. split; [done|]. exists t2. split; [|done]. by destruct Hpair as [[= <- _]|[=]]. }
  rewrite (bind_eq _ _ _ _ _ E3). eexists _, _. split; [done|]. by eapply close_got.
Qed.
End Balance.


(** ** Into a directory and out again *)

(** A directory as the driver names it: absolute, without a backslash at its end unless it
    is the root. *)
Definition directory_name (p : list Z) : Prop := is_absolute p = true ∧ (p = [BACKSLASH] ∨ last p ≠ Some BACKSLASH).

(** One step of a path. *)
Definition component (n : list Z) : Prop := n ≠ [] ∧ (BACKSLASH ∉ n) ∧ n ≠ [DOT] ∧ n ≠ [DOT; DOT].

Lemma component_normalize p n : component n → normalize p n = join p n.
Proof.
  intros (Hne&Hb&H1&H2). unfold normalize. destruct (is_absolute n) eqn:Ha.
  - exfalso. apply Hb. destruct n as [|c n]; [done|]. unfold is_absolute in Ha. cbn [head0 nth] in Ha. zbool. subst c. by constructor.
  - by rewrite !bool_decide_false.
Qed.

Lemma search_back_last q n :
  BACKSLASH ∉ n → GetStrLastCharOccurence (q ++ [BACKSLASH] ++ n) BACKSLASH = Some (length q).
Proof.
  intros Hb. unfold GetStrLastCharOccurence. destruct (q ++ [BACKSLASH] ++ n) as [|c l] eqn:E; [by destruct q|]. rewrite <- E. clear E.
  rewrite !length_app. cbn [length]. replace (length q + (1 + length n))%nat with (Datatypes.S (length n) + length q)%nat by lia.
  assert (∀ k, (k ≤ Datatypes.S (length n))%nat → search_back (q ++ [BACKSLASH] ++ n) BACKSLASH (k + length q) = Some (length q)) as Hk; [|by apply Hk].
  intros k. induction k as [|k IH]; intros Hk.
  - assert (nth (length q) (q ++ [BACKSLASH] ++ n) 0 = BACKSLASH) as En
      by (replace (length q) with (length q + 0)%nat at 1 by lia; by rewrite app_nth2_plus).
    destruct (length q) as [|m] eqn:El; cbn [Nat.add search_back]; by rewrite En, Z.eqb_refl.
  - cbn [Nat.add search_back]. assert (nth (Datatypes.S (k + length q)) (q ++ [BACKSLASH] ++ n) 0 ≠ BACKSLASH) as En.
    { replace (Datatypes.S (k + length q)) with (length q + Datatypes.S k)%nat by lia. rewrite app_nth2_plus. cbn [app nth].
      destruct (decide (k < length n)%nat).
      - intros En. apply Hb. rewrite <- En. apply list_elem_of_In, nth_In. done.
      - rewrite nth_overflow by lia. done. }
    rewrite (proj2 (Z.eqb_neq _ _)) by done. apply IH. lia.
Qed.

Lemma parent_join p n : directory_name p → component n → parent_of (join p n) = p.
Proof.
  intros [Ha Hp] (_&Hb&_). unfold join, parent_of. destruct Hp as [->|Hp].
  - change (match last [BACKSLASH] with Some c => c =? BACKSLASH | None => false end) with true.
    pose proof (search_back_last [] n Hb) as E. cbn [app length] in *. by rewrite E.
  - assert (match last p with Some c => c =? BACKSLASH | None => false end = false) as ->.
    { destruct (last p) as [c|]; [|done]. apply Z.eqb_neq. congruence. }
    rewrite search_back_last by done. destruct p as [|c p]; [done|]. cbn [length]. f_equal.
    change (Datatypes.S (length p)) with (length (c :: p)). by rewrite take_app_length.
Qed.

(** Opening a directory entry and then ".." of it names the directory again. *)
Theorem fsi_enter_leave {S : Type} `{FileSystem S} (Hmem : ∀ (f : S) n, AllocatePool f n = true) (p n : list Z) (s : Fsi S)
  (Hp : directory_name p) (Hn : component n) :
  ∃ q, GetNormalizedFName (Some p) n s = Some (Some q, s) ∧ GetNormalizedFName (Some q) [DOT; DOT] s = Some (Some p, s).
Proof.
  exists (normalize p n). rewrite !(normalize_spec Hmem). split; [done|]. rewrite (component_normalize p n Hn).
  change (normalize (join p n) [DOT; DOT]) with (parent_of (join p n)). by rewrite parent_join.
Qed.

(** ** Listing the injection point *)

Class DirectoryLaws (S : Type) `{FileSystem S} := {
  (** the entries of a directory that are still to be read *)
  entries : S → Z → list (list Z);
  read_entry s h n b e es : entries s h = e :: es → Z.of_nat (length e) ≤ n →
    ∃ s', Read h n b s = (EFI_SUCCESS, Z.of_nat (length e), e, s') ∧ entries s' h = es ∧ ∀ h', h' ≠ h → entries s' h' = entries s h';
  read_end s h n b : entries s h = [] → ∃ s', Read h n b s = (EFI_SUCCESS, 0, [], s') ∧ ∀ h', entries s' h' = entries s h'
}.

(** Read entries until the size is zero. *)
Fixpoint list_dir {S} `{FileSystem S} (fuel : nat) (this : FSI_FILE_PROTOCOL) (size : nat) : M (Fsi S) (list (list Z)) :=
  match fuel with
  | O => undef
  | Datatypes.S fuel =>
      r ← FSI_FP_Read this (replicate size 0);
      let '(Status, n, buf) := r in
      if EFI_ERROR Status || (n =? 0) then mret []
      else es ← list_dir fuel this size; mret (take (Z.to_nat n) buf :: es)
  end.

Section Listing.
Context {S : Type} `{DirectoryLaws S} (this : FSI_FILE_PROTOCOL) (t h : Z) (size : nat).
Hypothesis Ht : TgtFP this = Some t.
Hypothesis Hh : SrcFP this = Some h.
Hypothesis Hne : t ≠ h.

Definition fits (e : list Z) : Prop := (0 < length e ≤ size)%nat.

Lemma read_source s e es :
  entries (files s) h = e :: es → fits e →
  ∃ s', FSI_FP_Read this (replicate size 0) s = Some ((EFI_SUCCESS, Z.of_nat (length e), stored e (replicate size 0)), s')
        ∧ entries (files s') h = es ∧ entries (files s') t = entries (files s) t.
Proof.
  intros E [H1 H2]. destruct (read_entry (files s) h (Z.of_nat size) false e es E) as (f&Er&Eh&Eo); [lia|].
  unfold FSI_FP_Read. rewrite Ht, Hh, length_replicate, Er, (proj2 (Z.eqb_neq _ 0)) by lia.
  eexists. split; [done|]. split; [done|]. by apply Eo.
Qed.

Lemma read_target s e es :
  entries (files s) h = [] → entries (files s) t = e :: es → fits e →
  ∃ s', FSI_FP_Read this (replicate size 0) s = Some ((EFI_SUCCESS, Z.of_nat (length e), stored e (replicate size 0)), s')
        ∧ entries (files s') h = [] ∧ entries (files s') t = es.
Proof.
  intros E0 E [H1 H2]. destruct (read_end (files s) h (Z.of_nat size) false E0) as (f&Er&Eo).
  destruct (read_entry f t (Z.of_nat size) false e es) as (f'&Er'&Et&Eo'); [by rewrite Eo|lia|].
  unfold FSI_FP_Read. rewrite Ht, Hh, length_replicate, Er. cbn [Z.eqb]. rewrite Er'.
  eexists. split; [done|]. cbn [files set_files]. rewrite Eo' by done. by rewrite Eo.
Qed.

Lemma list_step fuel s e s' :
  FSI_FP_Read this (replicate size 0) s = Some ((EFI_SUCCESS, Z.of_nat (length e), stored e (replicate size 0)), s') → fits e →
  list_dir (Datatypes.S fuel) this size s = (es ← list_dir fuel this size; mret (e :: es)) s'.
Proof.
  intros E [H1 _]. cbn [list_dir]. rewrite (bind_eq _ _ _ _ _ E). cbn [EFI_ERROR orb]. rewrite (proj2 (Z.eqb_neq _ 0)) by lia.
  unfold stored. by rewrite Nat2Z.id, take_app_length.
Qed.

Lemma list_both fuel s se te :
  entries (files s) h = se → entries (files s) t = te → Forall fits se → Forall fits te → (length se + length te < fuel)%nat →
  ∃ s', list_dir fuel this size s = Some (se ++ te, s').
Proof.
  intros Es Et Fs Ft. revert s fuel Es Et. induction Fs as [|e se Fe Fs IH].
  - induction Ft as [|e te Fe Ft IH]; intros s fuel Es Et Hf; (destruct fuel as [|fuel]; [simpl in Hf; lia|]).
    + destruct (read_end (files s) h (Z.of_nat size) false Es) as (f&Er&Eo).
      destruct (read_end f t (Z.of_nat size) false) as (f'&Er'&_); [by rewrite Eo|].
      cbn [list_dir]. unfold FSI_FP_Read at 1. rewrite Ht, Hh, length_replicate. erewrite bind_eq.
      2:{ rewrite Er. cbn [Z.eqb]. by rewrite Er'. }
      by eexists.
    + destruct (read_target s e te Es Et Fe) as (s1&E1&Es1&Et1). rewrite (list_step _ _ _ _ E1 Fe).
      destruct (IH s1 fuel Es1 Et1) as (s2&E2); [simpl in *; lia|]. exists s2. by rewrite (bind_eq _ _ _ _ _ E2).
  - intros s fuel Es Et Hf. destruct fuel as [|fuel]; [simpl in Hf; lia|].
    destruct (read_source s e se Es Fe) as (s1&E1&Es1&Et1). rewrite (list_step _ _ _ _ E1 Fe).
    destruct (IH s1 fuel Es1 ltac:(congruence)) as (s2&E2); [simpl in *; lia|]. exists s2. by rewrite (bind_eq _ _ _ _ _ E2).
Qed.
End Listing.

(** Reading the directory into which is injected ends, and gives the entries of the
    injection folder and then those of the target, each once. *)
Theorem fsi_listing {S : Type} `{DirectoryLaws S} (this : FSI_FILE_PROTOCOL) (t h : Z) (size fuel : nat) (s : Fsi S)
  (Ht : TgtFP this = Some t) (Hh : SrcFP this = Some h) (Hne : t ≠ h)
  (Hsrc : Forall (fits size) (entries (files s) h)) (Htgt : Forall (fits size) (entries (files s) t))
  (Hfuel : (length (entries (files s) h) + length (entries (files s) t) < fuel)%nat) :
  ∃ s', list_dir fuel this size s = Some (entries (files s) h ++ entries (files s) t, s').
Proof. by apply (list_both this t h size Ht Hh Hne fuel s). Qed.

(** ** A character that is taken for a terminator *)

Lemma skip_overrun s1 rest : plain s1 → skip_equal (s1 ++ 0x100 :: rest) s1 = None.
Proof.
  induction 1 as [|c s1 Hc Hs IH]; [done|]. cbn [app skip_equal head0 nth]. by rewrite Z.eqb_refl.
Qed.

(** U+0100 is converted to a terminator when names are compared: opening the kernel's
    name followed by it makes the driver read past the end of its own string. *)
Theorem fsi_u0100_overrun {S : Type} `{FileSystem S} (Hmem : ∀ (f : S) n, AllocatePool f n = true)
  (this : FSI_FILE_PROTOCOL) (rest : list Z) (mode attrs : Z) (s : Fsi S) (Hblack : Blacklist (FSI_FS this) = None) :
  FSI_FP_Open this (mach_kernel ++ 0x100 :: rest) mode attrs s = None.
Proof.
  unfold FSI_FP_Open, GetNormalizedFName. change (is_absolute (mach_kernel ++ 0x100 :: rest)) with true. cbv iota.
  rewrite (bind_eq _ _ _ _ _ (copy_string_ok Hmem _ s)). unfold blacklisted. rewrite Hblack. cbn [default existsb].
  rewrite (bind_eq _ _ _ _ _ (alloc_ok Hmem _ s)). cbn [negb]. unfold open_kernel.
  assert (StrCmpiBasic (Some (mach_kernel ++ 0x100 :: rest)) (Some mach_kernel) = None) as E.
  { pose proof (skip_overrun mach_kernel rest (proj1 plain_kernels)) as E. unfold StrCmpiBasic.
    change (mach_kernel ++ 0x100 :: rest) with (92 :: drop 1 mach_kernel ++ 0x100 :: rest) in *.
    change mach_kernel with (92 :: drop 1 mach_kernel). cbv iota. change (92 :: drop 1 mach_kernel) with mach_kernel. by rewrite E. }
  unfold mbind, M_bind, lift. by rewrite E.
Qed.
