(* ===== verification/FsInjectDemo.v ===== *)
(** * FSInject: two volumes

    [Disk] is a file system that satisfies the laws: a set of paths, the entries of the
    directories, and tables of open handles and of the entries still to be read.  The
    theorems are applied to it. *)

From Stdlib Require Import ZArith Lia.
From stdpp Require Import base gmap list list_numbers strings.
From S2P Require Import Prelude FsInject FsInjectSpec FsInjectTheorems.

Open Scope Z_scope.

Record Disk := {
  d_tree : list (Z * list Z); d_dirs : Z → list Z → list (list Z);
  d_open : gmap Z (Z * list Z); d_left : gmap Z (list (list Z)); d_variable : bool
}.

(** Greater than all open handles. *)
Definition new_handle (d : Disk) : Z := 1 + foldr (λ x m, Z.max x.1 m) 0 (map_to_list (d_open d)).

Definition add_handle (v : Z) (p : list Z) (d : Disk) : Disk :=
  {| d_tree := d_tree d; d_dirs := d_dirs d; d_open := <[new_handle d := (v, p)]> (d_open d);
     d_left := <[new_handle d := d_dirs d v p]> (d_left d); d_variable := d_variable d |}.

Definition drop_handle (h : Z) (d : Disk) : Disk :=
  {| d_tree := d_tree d; d_dirs := d_dirs d; d_open := delete h (d_open d); d_left := delete h (d_left d); d_variable := d_variable d |}.

Definition set_left (h : Z) (es : list (list Z)) (d : Disk) : Disk :=
  {| d_tree := d_tree d; d_dirs := d_dirs d; d_open := d_open d; d_left := <[h := es]> (d_left d); d_variable := d_variable d |}.

Definition disk_left (d : Disk) (h : Z) : list (list Z) := default [] (d_left d !! h).

#[global] Instance Disk_fs : FileSystem Disk := {
  AllocatePool _ _ := true;
  OpenVolume v d := (EFI_SUCCESS, new_handle d, add_handle v [BACKSLASH] d);
  Open h name _ _ d :=
    match d_open d !! h, name with
    | Some (v, _), Some n => if bool_decide ((v, n) ∈ d_tree d) then (EFI_SUCCESS, new_handle d, add_handle v n d) else (EFI_NOT_FOUND, 0, d)
    | _, _ => (EFI_INVALID_PARAMETER, 0, d)
    end;
  Close h d := (EFI_SUCCESS, drop_handle h d);
  Delete h d := (EFI_WRITE_PROTECTED, drop_handle h d);
  Read h n _ d :=
    match disk_left d h with
    | [] => (EFI_SUCCESS, 0, [], d)
    | e :: es => if Z.of_nat (length e) <=? n then (EFI_SUCCESS, Z.of_nat (length e), e, set_left h es d)
                 else (EFI_BUFFER_TOO_SMALL, Z.of_nat (length e), [], d)
    end;
  Write _ _ _ d := (EFI_WRITE_PROTECTED, 0, d);
  SetPosition _ _ d := (EFI_SUCCESS, d);
  GetPosition _ d := (EFI_SUCCESS, 0, d);
  GetInfo _ _ n d := (EFI_UNSUPPORTED, n, [], d);
  SetInfo _ _ _ _ d := (EFI_WRITE_PROTECTED, d);
  Flush _ d := (EFI_SUCCESS, d);
  SetKextsInjected d := {| d_tree := d_tree d; d_dirs := d_dirs d; d_open := d_open d; d_left := d_left d; d_variable := true |}
}.

Lemma new_handle_fresh d : d_open d !! new_handle d = None.
Proof.
  destruct (d_open d !! new_handle d) as [x|] eqn:E; [|done]. apply elem_of_map_to_list in E. unfold new_handle in E.
  assert (∀ (l : list (Z * (Z * list Z))) k y, (k, y) ∈ l → k ≤ foldr (λ x m, Z.max x.1 m) 0 l) as Hl.
  { induction l as [|[k' y'] l IH]; intros k y Hk; [by apply elem_of_nil in Hk|]. cbn [foldr fst].
    apply elem_of_cons in Hk as [[= -> ->]|Hk]; [lia|]. specialize (IH _ _ Hk). lia. }
  specialize (Hl _ _ _ E). lia.
Qed.

#[global] Program Instance Disk_laws : FileSystemLaws Disk := {
  opened := d_open;
  there d v p := bool_decide ((v, p) ∈ d_tree d)
}.
Next Obligation. intros d v. split; [apply new_handle_fresh|done]. Qed.
Next Obligation.
  intros d h v p name mode attrs Hh. simpl. rewrite Hh. destruct name as [n|]; [|done]. case_bool_decide; [|done].
  split; [apply new_handle_fresh|by exists n].
Qed.
Next Obligation. intros d h. by eexists _, _. Qed.
Next Obligation. done. Qed.

#[global] Instance Disk_working : Working Disk.
Proof.
  split.
  - done.
  - intros d v. eexists _, _. split; [done|]. split; [apply new_handle_fresh|done].
  - intros d h v p name Hh _ Ht. simpl in *. rewrite Hh, Ht. eexists _, _. split; [done|]. split; [apply new_handle_fresh|done].
  - intros d h v p name Hh _ Ht. simpl in *. rewrite Hh, Ht. by eexists _, _.
Qed.

#[global] Program Instance Disk_directories : DirectoryLaws Disk := { entries := disk_left }.
Next Obligation.
  intros d h n b e es E Hn. simpl. rewrite E, (proj2 (Z.leb_le _ _)) by done. eexists. split; [done|]. unfold disk_left, set_left. simpl.
  split; [by rewrite lookup_insert_eq|]. intros h' Hh. by rewrite lookup_insert_ne by congruence.
Qed.
Next Obligation. intros d h n b E. simpl. rewrite E. by eexists. Qed.

(** ** A system volume and an EFI volume with kexts *)

Definition demo_fs : FSI_SIMPLE_FILE_SYSTEM_PROTOCOL :=
  {| TgtFS := 1; TgtDir := str_bytes "\S\L\E"; SrcFS := Some 2; SrcDir := Some (str_bytes "\efi\10");
     Blacklist := Some [str_bytes "\caches"]; ForceLoadKexts := None |}.

Definition demo_dirs (v : Z) (p : list Z) : list (list Z) :=
  if bool_decide (v = 1 ∧ p = str_bytes "\S\L\E") then [str_bytes "A.kext"; str_bytes "Both.kext"]
  else if bool_decide (v = 2 ∧ p = str_bytes "\efi\10") then [str_bytes "Fake.kext"; str_bytes "Both.kext"]
  else [].

Definition demo_disk : Disk :=
  {| d_tree := [(1, str_bytes "\"); (1, str_bytes "\S\L\E"); (1, str_bytes "\S\L\E\A.kext"); (1, str_bytes "\S\L\E\Both.kext"); (1, str_bytes "\caches\x");
                (2, str_bytes "\"); (2, str_bytes "\efi\10"); (2, str_bytes "\efi\10\Fake.kext"); (2, str_bytes "\efi\10\Both.kext")];
     d_dirs := demo_dirs; d_open := {[7 := (1, str_bytes "\")]}; d_left := ∅; d_variable := false |}.

Definition demo : Fsi Disk := Build_Fsi demo_disk 0.

(** The root of the volume, open. *)
Definition demo_root : FSI_FILE_PROTOCOL :=
  {| FSI_FS := demo_fs; FName := Some [BACKSLASH]; IsDir := false; TgtFP := Some 7; SrcFP := None; FromTgt := true |}.

Lemma demo_fs_ok : fs_ok demo_fs.
Proof.
  constructor; [done|apply (bool_decide_unpack _); by vm_compute|]. simpl. constructor; [|constructor].
  split; [apply (bool_decide_unpack _); by vm_compute|done].
Qed.

Lemma demo_root_ok : from_ok demo_root [BACKSLASH] demo.
Proof. constructor; [done|done|by repeat constructor|by exists (str_bytes "\")]. Qed.

Lemma demo_memory (f : Disk) n : AllocatePool f n = true.
Proof. done. Qed.


Lemma fsi_enter_leave_witness :
  ∃ q, GetNormalizedFName (Some (str_bytes "\S\L")) (str_bytes "E") demo = Some (Some q, demo)
       ∧ GetNormalizedFName (Some q) [DOT; DOT] demo = Some (Some (str_bytes "\S\L"), demo).
Proof.
  apply (fsi_enter_leave demo_memory (str_bytes "\S\L") (str_bytes "E") demo).
  - split; [done|by right].
  - split_and!; [done|apply (bool_decide_unpack _); by vm_compute|done|done].
Defined.

(** The folder of extensions, open in both volumes. *)
Definition demo_point : option (FSI_FILE_PROTOCOL * Fsi Disk) :=
  match FSI_FP_Open demo_root (str_bytes "\S\L\E") EFI_FILE_MODE_READ 0 demo with
  | Some ((_, Some file), t) => Some (file, t)
  | _ => None
  end.
Definition demo_point_file : FSI_FILE_PROTOCOL := default demo_root (fst <$> demo_point).
Definition demo_point_disk : Fsi Disk := default demo (snd <$> demo_point).

(** A kext of both volumes is listed twice. *)
Lemma fsi_listing_witness :
  ∃ s', list_dir 5 demo_point_file 9 demo_point_disk
        = Some ([str_bytes "Fake.kext"; str_bytes "Both.kext"] ++ [str_bytes "A.kext"; str_bytes "Both.kext"], s').
Proof.
  assert (entries (files demo_point_disk) 10 = [str_bytes "Fake.kext"; str_bytes "Both.kext"]) as Es by (by vm_compute).
  assert (entries (files demo_point_disk) 8 = [str_bytes "A.kext"; str_bytes "Both.kext"]) as Et by (by vm_compute).
  rewrite <- Es, <- Et. apply (fsi_listing demo_point_file 8 10 9 5 demo_point_disk); [by vm_compute|by vm_compute|done|..].
  - rewrite Es. repeat constructor; simpl; lia.
  - rewrite Et. repeat constructor; simpl; lia.
  - rewrite Es, Et. simpl. lia.
Defined.

Lemma fsi_u0100_overrun_witness :
  FSI_FP_Open {| FSI_FS := {| TgtFS := 1; TgtDir := []; SrcFS := Some 2; SrcDir := None; Blacklist := None; ForceLoadKexts := None |};
                 FName := Some [BACKSLASH]; IsDir := false; TgtFP := Some 7; SrcFP := None; FromTgt := true |}
    (mach_kernel ++ 0x100 :: [46]) EFI_FILE_MODE_READ 0 demo = None.
Proof. apply (fsi_u0100_overrun demo_memory). reflexivity. Defined.

(** A file of both volumes is the target's when it is opened from the root, and the source's
    when it is opened, by the same name, from a file of the source. *)
Definition demo_fake : FSI_FILE_PROTOCOL :=
  {| FSI_FS := demo_fs; FName := Some (str_bytes "\S\L\E\Fake.kext"); IsDir := false; TgtFP := None; SrcFP := Some 8; FromTgt := false |}.

Definition opened_from (this : FSI_FILE_PROTOCOL) (name : list Z) : option (EFI_STATUS * option bool) :=
  match FSI_FP_Open this name EFI_FILE_MODE_READ 0 demo with
  | Some ((st, file), _) => Some (st, option_map FromTgt file)
  | None => None
  end.

Example same_name_two_files :
  opened_from demo_root (str_bytes "\S\L\E\Both.kext") = Some (EFI_SUCCESS, Some true)
  ∧ opened_from demo_fake (str_bytes "\S\L\E\Both.kext") = Some (EFI_SUCCESS, Some false).
Proof. by vm_compute. Qed.

(** A file that is in neither volume is not found, but below the folder of the injection the
    status is EFI_DEVICE_ERROR. *)
Example missing_below_target :
  opened_from demo_root (str_bytes "\S\nothing") = Some (EFI_NOT_FOUND, None)
  ∧ opened_from demo_root (str_bytes "\S\L\E\nothing") = Some (EFI_DEVICE_ERROR, None).
Proof. by vm_compute. Qed.

(** The blacklist is passed with a detour. *)
Example blacklist_detour :
  opened_from demo_root (str_bytes "\caches\x") = Some (EFI_NOT_FOUND, None) ∧ hidden demo_fs (str_bytes "\S\..\caches\x") = false.
Proof. by vm_compute. Qed.

(** The search for OSBundleRequired goes on past data that have no terminator. *)
Example force_load_overrun : force_load (str_bytes "<plist></plist>") = None.
Proof. reflexivity. Qed.
