(* ===== verification/AptioEntry.v ===== *)
(** * AptioMemoryFix: the entry point and the service tables (AptioMemoryFix.c, ServiceOverrides.c)

    Loading the driver installs its protocol, prepares the page table pool and replaces
    services in the tables of boot and runtime services.  The tables and the protocols
    belong to the machine; the statics belong to one loaded image of the driver, and
    every further load starts with fresh ones.  The world is a machine with the images
    that were loaded, and its steps are loads, what others do with memory and with
    protocols, and the call that sets virtual addresses. *)

From Stdlib Require Import ZArith Lia.
From stdpp Require Import base list gmap strings relations.
From S2P Require Import Prelude UmmMalloc MemoryMap MemoryAlloc MemoryServices RtShims VMem BootFixes BootServices StartImage.

Open Scope Z_scope.

(** ** The tables *)

(** The overrides of a loaded image, by its number. *)
Inductive Override :=
| MOAllocatePool | MOFreePool | MOAllocatePages | MOGetMemoryMap | MOExitBootServices | MOStartImage
| MOSetVirtualAddressMap.

(** What a table points to: a function of the firmware at an address, or an override. *)
Inductive Fn := Org (a : Z) | MO (image : nat) (o : Override).

#[global] Instance Override_eq_dec : EqDecision Override.
Proof. solve_decision. Defined.

#[global] Instance Fn_eq_dec : EqDecision Fn.
Proof. solve_decision. Defined.

(** The services that the driver replaces; the other fields stay as they are. *)
Record EFI_BOOT_SERVICES := {
  bs_CRC32 : Z; bs_AllocatePool : Fn; bs_FreePool : Fn; bs_AllocatePages : Fn; bs_GetMemoryMap : Fn;
  bs_ExitBootServices : Fn; bs_StartImage : Fn
}.

(** [rt_shimmed] are the nine services that the shims replace, in the order of mShimPtrArray. *)
Record EFI_RUNTIME_SERVICES := { rt_CRC32 : Z; rt_shimmed : list Z; rt_SetVirtualAddressMap : Fn }.

Definition bs_with_crc (c : Z) (t : EFI_BOOT_SERVICES) : EFI_BOOT_SERVICES := {|
  bs_CRC32 := c; bs_AllocatePool := bs_AllocatePool t; bs_FreePool := bs_FreePool t; bs_AllocatePages := bs_AllocatePages t;
  bs_GetMemoryMap := bs_GetMemoryMap t; bs_ExitBootServices := bs_ExitBootServices t; bs_StartImage := bs_StartImage t |}.
Definition rt_with_crc (c : Z) (t : EFI_RUNTIME_SERVICES) : EFI_RUNTIME_SERVICES :=
  {| rt_CRC32 := c; rt_shimmed := rt_shimmed t; rt_SetVirtualAddressMap := rt_SetVirtualAddressMap t |}.

(** The placeholders of the original functions, NULL at first, and the saved checksum. *)
Record Stored := {
  mStoredAllocatePages : option Fn; mStoredAllocatePool : option Fn; mStoredFreePool : option Fn; mStoredGetMemoryMap : option Fn;
  mStoredExitBootServices : option Fn; mStoredSetVirtualAddressMap : option Fn; mStoredStartImage : option Fn;
  mRtPreOverridesCRC32 : Z
}.

Definition stored_of (o : Override) (s : Stored) : option Fn :=
  match o with
  | MOAllocatePool => mStoredAllocatePool s | MOFreePool => mStoredFreePool s | MOAllocatePages => mStoredAllocatePages s
  | MOGetMemoryMap => mStoredGetMemoryMap s | MOExitBootServices => mStoredExitBootServices s | MOStartImage => mStoredStartImage s
  | MOSetVirtualAddressMap => mStoredSetVirtualAddressMap s
  end.

(** ** Protocols *)

(** The database of the protocol's interfaces; an interface is the number of the image
    that holds it. *)
Class ProtocolDb (P : Type) := {
  LocateProtocol : P → EFI_STATUS * nat;
  InstallProtocolInterface : nat → P → EFI_STATUS * P
}.

(** What the specification says: an installed interface is found, and a failed
    installation adds none. *)
Class ProtocolLaws (P : Type) `{ProtocolDb P} := {
  install_found i p st p' : EFI_ERROR (LocateProtocol p).1 = true → InstallProtocolInterface i p = (st, p') →
    EFI_ERROR st = false → EFI_ERROR (LocateProtocol p').1 = false ∧ (LocateProtocol p').2 = i;
  install_failed i p st p' : EFI_ERROR (LocateProtocol p).1 = true → InstallProtocolInterface i p = (st, p') →
    EFI_ERROR st = true → EFI_ERROR (LocateProtocol p').1 = true
}.

(** ** Machine and image *)

Record Machine (P F : Type) := { m_protocols : P; m_fw : F; gBS : EFI_BOOT_SERVICES; gRT : EFI_RUNTIME_SERVICES }.
Arguments m_protocols {P F}.
Arguments m_fw {P F}.
Arguments gBS {P F}.
Arguments gRT {P F}.

(** The statics of an image; [st_quirks] are gHasBrokenS4MemoryMap and
    gHasBrokenS4Allocator. *)
Record Statics := { st_quirks : bool * bool; st_vm : VM; st_shims : Shims; st_umm : UmmState; st_stored : Stored }.

Definition no_stored : Stored := {|
  mStoredAllocatePages := None; mStoredAllocatePool := None; mStoredFreePool := None; mStoredGetMemoryMap := None;
  mStoredExitBootServices := None; mStoredSetVirtualAddressMap := None; mStoredStartImage := None; mRtPreOverridesCRC32 := 0 |}.

(** What a loaded image starts with; [mem] is the machine's memory. *)
Definition fresh_statics (mem : gmap Z Z) : Statics := {|
  st_quirks := (false, false); st_vm := {| vm_mem := mem; VmMemoryPool := 0; VmMemoryPoolFreePages := 0 |};
  st_shims := {| sh_area := None; sh_override := 0; sh_ptrs := replicate 9 {| gFunc := 0; Func := 0; Fixed := false |}; mRtShimsAddrUpdated := false |};
  st_umm := umm_static ∅; st_stored := no_stored |}.

(** How the driver was built, where its code is, and the checksum that the firmware
    computes of a table. *)
Record Build := {
  APTIOFIX_CUSTOM_POOL_ALLOCATOR : bool; b_shims_size : Z; b_shims_offsets : list Z; b_GetVariableCustomSlide : Z;
  (** the test of AllocatePagesFromTop for the kernel's slides *)
  b_overlaps : Z → Z → bool; gDumpMemArgPresent : bool;
  CalculateCrc32_bs : EFI_BOOT_SERVICES → Z; CalculateCrc32_rt : EFI_RUNTIME_SERVICES → Z
}.

Definition APTIOFIX_CUSTOM_POOL_ALLOCATOR_SIZE : Z := 0x2000000.

Section Entry.
Context {P F : Type} `{ProtocolDb P} `{Firmware F} (b : Build) (fuel : nat).

Definition crc_bs (t : EFI_BOOT_SERVICES) : EFI_BOOT_SERVICES := bs_with_crc (CalculateCrc32_bs b (bs_with_crc 0 t)) t.
Definition crc_rt (t : EFI_RUNTIME_SERVICES) : EFI_RUNTIME_SERVICES := rt_with_crc (CalculateCrc32_rt b (rt_with_crc 0 t)) t.

(** ** InstallBsOverrides *)

(** The custom pool: its memory is zeroed, so every block reads as zero. *)
Definition install_pool (image : nat) (s : Statics) (f : F) (t : EFI_BOOT_SERVICES) : option (Statics * EFI_BOOT_SERVICES * F) :=
  if UmmInitialized (st_umm s) then Some (s, t, f) else
  r ← AllocatePagesFromTop (b_overlaps b) (negb (gDumpMemArgPresent b)) fuel (EFI_SIZE_TO_PAGES APTIOFIX_CUSTOM_POOL_ALLOCATOR_SIZE) BASE_4GB f;
  let '(Status, UmmHeap, f) := r in
  if EFI_ERROR Status then Some (s, t, f) else
  u ← UmmSetHeap UmmHeap (mkUmm (default_umm_heap (st_umm s)) ∅ (umm_numblocks (st_umm s)));
  let o := st_stored s in
  Some ({| st_quirks := st_quirks s; st_vm := st_vm s; st_shims := st_shims s; st_umm := u.2;
           st_stored := {|
             mStoredAllocatePages := mStoredAllocatePages o; mStoredAllocatePool := Some (bs_AllocatePool t);
             mStoredFreePool := Some (bs_FreePool t); mStoredGetMemoryMap := mStoredGetMemoryMap o;
             mStoredExitBootServices := mStoredExitBootServices o; mStoredSetVirtualAddressMap := mStoredSetVirtualAddressMap o;
             mStoredStartImage := mStoredStartImage o; mRtPreOverridesCRC32 := mRtPreOverridesCRC32 o |} |},
        {| bs_CRC32 := bs_CRC32 t; bs_AllocatePool := MO image MOAllocatePool; bs_FreePool := MO image MOFreePool;
           bs_AllocatePages := bs_AllocatePages t; bs_GetMemoryMap := bs_GetMemoryMap t; bs_ExitBootServices := bs_ExitBootServices t;
           bs_StartImage := bs_StartImage t |}, f).

Definition InstallBsOverrides (image : nat) (s : Statics) (f : F) (t : EFI_BOOT_SERVICES) : option (Statics * EFI_BOOT_SERVICES * F) :=
  r ← (if APTIOFIX_CUSTOM_POOL_ALLOCATOR b then install_pool image s f t else Some (s, t, f));
  let '(s, t, f) := r in
  let o := st_stored s in
  Some ({| st_quirks := st_quirks s; st_vm := st_vm s; st_shims := st_shims s; st_umm := st_umm s;
           st_stored := {|
             mStoredAllocatePages := Some (bs_AllocatePages t); mStoredAllocatePool := mStoredAllocatePool o;
             mStoredFreePool := mStoredFreePool o; mStoredGetMemoryMap := Some (bs_GetMemoryMap t);
             mStoredExitBootServices := Some (bs_ExitBootServices t); mStoredSetVirtualAddressMap := mStoredSetVirtualAddressMap o;
             mStoredStartImage := Some (bs_StartImage t); mRtPreOverridesCRC32 := mRtPreOverridesCRC32 o |} |},
        crc_bs {| bs_CRC32 := bs_CRC32 t; bs_AllocatePool := bs_AllocatePool t; bs_FreePool := bs_FreePool t;
           bs_AllocatePages := MO image MOAllocatePages; bs_GetMemoryMap := MO image MOGetMemoryMap;
           bs_ExitBootServices := MO image MOExitBootServices; bs_StartImage := MO image MOStartImage |}, f).

(** ** Runtime services *)

Definition InstallRtOverrides (image : nat) (s : Statics) (t : EFI_RUNTIME_SERVICES) : Statics * EFI_RUNTIME_SERVICES :=
  let o := st_stored s in
  ({| st_quirks := st_quirks s; st_vm := st_vm s; st_shims := st_shims s; st_umm := st_umm s;
      st_stored := {|
        mStoredAllocatePages := mStoredAllocatePages o; mStoredAllocatePool := mStoredAllocatePool o;
        mStoredFreePool := mStoredFreePool o; mStoredGetMemoryMap := mStoredGetMemoryMap o;
        mStoredExitBootServices := mStoredExitBootServices o; mStoredSetVirtualAddressMap := Some (rt_SetVirtualAddressMap t);
        mStoredStartImage := mStoredStartImage o; mRtPreOverridesCRC32 := rt_CRC32 t |} |},
   crc_rt {| rt_CRC32 := rt_CRC32 t; rt_shimmed := rt_shimmed t; rt_SetVirtualAddressMap := MO image MOSetVirtualAddressMap |}).

(** Without a stored function the table would get NULL. *)
Definition UninstallRtOverrides (s : Statics) (t : EFI_RUNTIME_SERVICES) : option EFI_RUNTIME_SERVICES :=
  o ← mStoredSetVirtualAddressMap (st_stored s);
  Some {| rt_CRC32 := mRtPreOverridesCRC32 (st_stored s); rt_shimmed := rt_shimmed t; rt_SetVirtualAddressMap := o |}.

(** [InstallRtShims] on the table: the checksum is renewed if the shims are installed. *)
Definition install_shims (s : Statics) (f : F) (t : EFI_RUNTIME_SERVICES) : option (Statics * EFI_RUNTIME_SERVICES * F) :=
  r ← InstallRtShims fuel (st_quirks s).2 (b_shims_size b) (b_shims_offsets b) (b_GetVariableCustomSlide b) (rt_shimmed t) (st_shims s) f;
  let '(sh, services, f) := r in
  let t' := {| rt_CRC32 := rt_CRC32 t; rt_shimmed := services; rt_SetVirtualAddressMap := rt_SetVirtualAddressMap t |} in
  Some ({| st_quirks := st_quirks s; st_vm := st_vm s; st_shims := sh; st_umm := st_umm s; st_stored := st_stored s |},
        match sh_area sh with Some _ => crc_rt t' | None => t' end, f).

(** ** The entry point *)

Definition AptioMemoryFixEntrypoint (image : nat) (FirmwareVendor : option (list Z)) (s : Statics) (m : Machine P F)
    : option (EFI_STATUS * Statics * Machine P F) :=
  let '(Status, _) := LocateProtocol (m_protocols m) in
  if negb (EFI_ERROR Status) then Some (EFI_ALREADY_STARTED, s, m) else
  let '(Status, p) := InstallProtocolInterface image (m_protocols m) in
  if EFI_ERROR Status then Some (Status, s, {| m_protocols := p; m_fw := m_fw m; gBS := gBS m; gRT := gRT m |}) else
  let q := ApplyFirmwareQuirks FirmwareVendor (st_quirks s) in
  r ← VmAllocateMemoryPool fuel (st_vm s) (m_fw m);
  let '(Status, vm, f) := r in
  let s := {| st_quirks := q; st_vm := vm; st_shims := st_shims s; st_umm := st_umm s; st_stored := st_stored s |} in
  if EFI_ERROR Status then Some (Status, s, {| m_protocols := p; m_fw := f; gBS := gBS m; gRT := gRT m |}) else
  r ← install_shims s f (gRT m);
  let '(s, rt, f) := r in
  r ← InstallBsOverrides image s f (gBS m);
  let '(s, bs, f) := r in
  let '(s, rt) := InstallRtOverrides image s rt in
  Some (EFI_SUCCESS, s, {| m_protocols := p; m_fw := f; gBS := bs; gRT := rt |}).
End Entry.

(** ** The world *)

Record World (P F : Type) := { w_m : Machine P F; w_images : list (EFI_STATUS * Statics) }.
Arguments w_m {P F}.
Arguments w_images {P F}.

Definition with_others {P F} (p : P) (f : F) (m : Machine P F) : Machine P F :=
  {| m_protocols := p; m_fw := f; gBS := gBS m; gRT := gRT m |}.
Definition with_rt {P F} (t : EFI_RUNTIME_SERVICES) (m : Machine P F) : Machine P F :=
  {| m_protocols := m_protocols m; m_fw := m_fw m; gBS := gBS m; gRT := t |}.

(** The driver is loaded; others use memory and protocols, but LocateProtocol finds the same
    interface of the driver's protocol, or none, as before; the override of
    SetVirtualAddressMap is called through the table and first uninstalls itself. *)
Inductive step {P F : Type} `{ProtocolDb P} `{Firmware F} (b : Build) (fuel : nat) : relation (World P F) :=
| step_load w FirmwareVendor mem st s m :
    AptioMemoryFixEntrypoint b fuel (length (w_images w)) FirmwareVendor (fresh_statics mem) (w_m w) = Some (st, s, m) →
    step b fuel w {| w_m := m; w_images := w_images w ++ [(st, s)] |}
| step_others w p f :
    LocateProtocol p = LocateProtocol (m_protocols (w_m w)) →
    step b fuel w {| w_m := with_others p f (w_m w); w_images := w_images w |}
| step_virtual w k st s t :
    rt_SetVirtualAddressMap (gRT (w_m w)) = MO k MOSetVirtualAddressMap → w_images w !! k = Some (st, s) →
    UninstallRtOverrides s (gRT (w_m w)) = Some t →
    step b fuel w {| w_m := with_rt t (w_m w); w_images := w_images w |}.

(** The function of the firmware behind an entry of a table: what its image has stored, for
    an override, to pass calls on to. *)
Definition stands_for {P F} (w : World P F) (fn : Fn) : option Fn :=
  match fn with Org _ => Some fn | MO k o => i ← w_images w !! k; stored_of o (st_stored i.2) end.

Definition services (t : EFI_BOOT_SERVICES) : list Fn :=
  [bs_AllocatePool t; bs_FreePool t; bs_AllocatePages t; bs_GetMemoryMap t; bs_ExitBootServices t; bs_StartImage t].

Definition is_org (fn : Fn) : bool := match fn with Org _ => true | MO _ _ => false end.

Definition valid_bs (b : Build) (t : EFI_BOOT_SERVICES) : Prop := bs_CRC32 t = CalculateCrc32_bs b (bs_with_crc 0 t).
Definition valid_rt (b : Build) (t : EFI_RUNTIME_SERVICES) : Prop := rt_CRC32 t = CalculateCrc32_rt b (rt_with_crc 0 t).

(** A machine without the driver. *)
Record pristine {P F} `{ProtocolDb P} (b : Build) (m : Machine P F) : Prop := {
  pr_protocol : EFI_ERROR (LocateProtocol (m_protocols m)).1 = true;
  pr_bs : Forall (λ fn, is_org fn = true) (services (gBS m));
  pr_rt : is_org (rt_SetVirtualAddressMap (gRT m)) = true;
  pr_crc_bs : valid_bs b (gBS m);
  pr_crc_rt : valid_rt b (gRT m)
}.

(** ** The parts of the entry point *)

Lemma crc_bs_valid b t : valid_bs b (crc_bs b t).
Proof. done. Qed.

Lemma crc_rt_valid b t : valid_rt b (crc_rt b t).
Proof. done. Qed.

(** The nine runtime services: the shims in their block, which have stored the services of
    [rt], or those of [rt] themselves if there was no memory for the block. *)
Definition shimmed (b : Build) (sh : Shims) (rt t1 : EFI_RUNTIME_SERVICES) : Prop :=
  match sh_area sh with
  | None => rt_shimmed t1 = rt_shimmed rt
  | Some area => rt_shimmed t1 = (λ o, wrap64 (area + o)) <$> b_shims_offsets b ∧ gFunc <$> sh_ptrs sh = rt_shimmed rt
  end.

(** The statics of an image that was installed over the tables [bs] and [rt], and the
    tables it left: [t1] is the runtime table with the shims. *)
Record hooks (b : Build) (k : nat) (bs : EFI_BOOT_SERVICES) (rt : EFI_RUNTIME_SERVICES) (s : Stored) (sh : Shims)
    (bs' : EFI_BOOT_SERVICES) (t1 : EFI_RUNTIME_SERVICES) : Prop := {
  hk_four : bs_AllocatePages bs' = MO k MOAllocatePages ∧ bs_GetMemoryMap bs' = MO k MOGetMemoryMap ∧
    bs_ExitBootServices bs' = MO k MOExitBootServices ∧ bs_StartImage bs' = MO k MOStartImage;
  hk_stored : mStoredAllocatePages s = Some (bs_AllocatePages bs) ∧ mStoredGetMemoryMap s = Some (bs_GetMemoryMap bs) ∧
    mStoredExitBootServices s = Some (bs_ExitBootServices bs) ∧ mStoredStartImage s = Some (bs_StartImage bs);
  hk_pool : (bs_AllocatePool bs' = bs_AllocatePool bs ∧ bs_FreePool bs' = bs_FreePool bs) ∨
    (bs_AllocatePool bs' = MO k MOAllocatePool ∧ bs_FreePool bs' = MO k MOFreePool ∧
     mStoredAllocatePool s = Some (bs_AllocatePool bs) ∧ mStoredFreePool s = Some (bs_FreePool bs));
  hk_crc : valid_bs b bs';
  hk_rt : mStoredSetVirtualAddressMap s = Some (rt_SetVirtualAddressMap rt) ∧ mRtPreOverridesCRC32 s = rt_CRC32 t1 ∧
    rt_SetVirtualAddressMap t1 = rt_SetVirtualAddressMap rt ∧ (valid_rt b rt → valid_rt b t1);
  hk_shims : shimmed b sh rt t1
}.

(** The runtime table while the override is in place. *)
Definition overridden (b : Build) (k : nat) (t : EFI_RUNTIME_SERVICES) : EFI_RUNTIME_SERVICES :=
  crc_rt b {| rt_CRC32 := rt_CRC32 t; rt_shimmed := rt_shimmed t; rt_SetVirtualAddressMap := MO k MOSetVirtualAddressMap |}.

Section Parts.
Context {P F : Type} `{ProtocolDb P} `{Firmware F} (b : Build) (fuel : nat).

Lemma install_shims_ok s f t s1 t1 (f1 : F) : install_shims b fuel s f t = Some (s1, t1, f1) →
  st_stored s1 = st_stored s ∧ rt_SetVirtualAddressMap t1 = rt_SetVirtualAddressMap t ∧ (valid_rt b t → valid_rt b t1) ∧
  shimmed b (st_shims s1) t t1.
Proof.
  unfold install_shims, InstallRtShims. destruct (if (st_quirks s).2 then _ else _) as [[[st area] f2]|]; [|done]. cbn [mbind option_bind].
  destruct (EFI_ERROR st); cbn [mbind option_bind sh_area]; intros [= <- <- <-]; (split; [done|]); (split; [done|]).
  - split; [by destruct t|done].
  - split; [intros Hv; apply crc_rt_valid|]. unfold shimmed. cbn. split; [done|]. rewrite <- list_fmap_compose. apply list_fmap_id.
Qed.

Lemma install_pool_ok k s f t s1 t1 (f1 : F) : install_pool b fuel k s f t = Some (s1, t1, f1) →
  bs_AllocatePages t1 = bs_AllocatePages t ∧ bs_GetMemoryMap t1 = bs_GetMemoryMap t ∧ bs_ExitBootServices t1 = bs_ExitBootServices t ∧
  bs_StartImage t1 = bs_StartImage t ∧
  ((bs_AllocatePool t1 = bs_AllocatePool t ∧ bs_FreePool t1 = bs_FreePool t) ∨
   (bs_AllocatePool t1 = MO k MOAllocatePool ∧ bs_FreePool t1 = MO k MOFreePool ∧
    mStoredAllocatePool (st_stored s1) = Some (bs_AllocatePool t) ∧ mStoredFreePool (st_stored s1) = Some (bs_FreePool t))) ∧
  st_shims s1 = st_shims s.
Proof.
  unfold install_pool. destruct (UmmInitialized _); [intros [= <- <- <-]; repeat split; by left|].
  destruct (AllocatePagesFromTop _ _ _ _ _ _) as [[[st h] f2]|]; [|done]. cbn [mbind option_bind].
  destruct (EFI_ERROR st); [intros [= <- <- <-]; repeat split; by left|].
  destruct (UmmSetHeap _ _) as [u|]; [|done]. cbn [mbind option_bind]. intros [= <- <- <-]. repeat split; by right.
Qed.

(** The statics and the tables after a successful load. *)
Lemma install_ok k s f bs rt s1 t1 f1 s2 bs' (f2 : F) s3 rt' :
  install_shims b fuel s f rt = Some (s1, t1, f1) → InstallBsOverrides b fuel k s1 f1 bs = Some (s2, bs', f2) →
  InstallRtOverrides b k s2 t1 = (s3, rt') → hooks b k bs rt (st_stored s3) (st_shims s3) bs' t1 ∧ rt' = overridden b k t1.
Proof.
  intros E1%install_shims_ok. destruct E1 as (_ & Hv & Hc & Hsh). unfold InstallBsOverrides.
  destruct (if APTIOFIX_CUSTOM_POOL_ALLOCATOR b then _ else _) as [[[s' t'] f']|] eqn:E; [|done]. cbn [mbind option_bind]. intros [= <- <- <-]. intros [= <- <-].
  assert (bs_AllocatePages t' = bs_AllocatePages bs ∧ bs_GetMemoryMap t' = bs_GetMemoryMap bs ∧ bs_ExitBootServices t' = bs_ExitBootServices bs ∧
    bs_StartImage t' = bs_StartImage bs ∧
    ((bs_AllocatePool t' = bs_AllocatePool bs ∧ bs_FreePool t' = bs_FreePool bs) ∨
     (bs_AllocatePool t' = MO k MOAllocatePool ∧ bs_FreePool t' = MO k MOFreePool ∧
      mStoredAllocatePool (st_stored s') = Some (bs_AllocatePool bs) ∧ mStoredFreePool (st_stored s') = Some (bs_FreePool bs))) ∧
    st_shims s' = st_shims s1) as (H1 & H2 & H3 & H4 & H5 & H6).
  { destruct (APTIOFIX_CUSTOM_POOL_ALLOCATOR b); [by apply (install_pool_ok k s1 f1 bs s' t' f')|]. injection E as <- <- <-. repeat split; by left. }
  split; [|done]. split; cbn; rewrite ?H1, ?H2, ?H3, ?H4, ?H6, ?Hv; auto using crc_bs_valid.
Qed.

(** What one load does: nothing to the tables, with an error, or the whole installation. *)
Lemma entry_cases k vendor s m st s' (m' : Machine P F) : ProtocolLaws P →
  AptioMemoryFixEntrypoint b fuel k vendor s m = Some (st, s', m') →
  (EFI_ERROR (LocateProtocol (m_protocols m)).1 = false ∧ st = EFI_ALREADY_STARTED ∧ m' = m) ∨
  (EFI_ERROR (LocateProtocol (m_protocols m)).1 = true ∧
   (EFI_ERROR st = true ∧ gBS m' = gBS m ∧ gRT m' = gRT m ∧
      (EFI_ERROR (LocateProtocol (m_protocols m')).1 = false → (LocateProtocol (m_protocols m')).2 = k) ∨
    st = EFI_SUCCESS ∧ EFI_ERROR (LocateProtocol (m_protocols m')).1 = false ∧ (LocateProtocol (m_protocols m')).2 = k ∧
      ∃ t1, hooks b k (gBS m) (gRT m) (st_stored s') (st_shims s') (gBS m') t1 ∧ gRT m' = overridden b k t1)).
Proof.
  intros HL. unfold AptioMemoryFixEntrypoint. destruct (LocateProtocol (m_protocols m)) as [st0 i0] eqn:El. cbn [fst].
  destruct (EFI_ERROR st0) eqn:E0; cbn [negb]; [|intros [= <- <- <-]; by left]. intros E. right. split; [done|].
  destruct (InstallProtocolInterface k (m_protocols m)) as [st1 p] eqn:Ei. assert (EFI_ERROR (LocateProtocol (m_protocols m)).1 = true) as Hl by by rewrite El.
  destruct (EFI_ERROR st1) eqn:E1.
  { injection E as <- <- <-. left. repeat split; [done|]. cbn. by rewrite (install_failed k _ _ _ Hl Ei E1). }
  destruct (install_found k _ _ _ Hl Ei E1) as [Hf Hk].
  destruct (VmAllocateMemoryPool _ _ _) as [[[st2 vm] f]|]; [|done]. cbn [mbind option_bind] in E.
  destruct (EFI_ERROR st2) eqn:E2; [injection E as <- <- <-; by left|].
  destruct (install_shims _ _ _ _ _) as [[[s1 t1] f1]|] eqn:Es; [|done]. cbn [mbind option_bind] in E.
  destruct (InstallBsOverrides _ _ _ _ _ _) as [[[s2 bs] f2]|] eqn:Eb; [|done]. cbn [mbind option_bind] in E.
  destruct (InstallRtOverrides _ _ _ _) as [s3 rt] eqn:Er. injection E as <- <- <-. right. cbn [gBS gRT m_protocols].
  destruct (install_ok _ _ _ _ _ _ _ _ _ _ _ _ _ Es Eb Er) as [Hh ->]. split; [done|]. split; [done|]. split; [done|]. by exists t1.
Qed.
End Parts.
