(* ===== verification/AptioTheorems.v ===== *)
(** * AptioMemoryFix: what loading the driver does to the machine

    The invariant of the service tables over all loads of the driver, the driver that
    cannot be loaded again after a failure, and the return of the entry point. *)

From Stdlib Require Import ZArith Lia.
From stdpp Require Import base list gmap strings relations.
From S2P Require Import Prelude UmmMalloc UmmProofs MemoryMap MemoryAlloc MemoryServices RtShims VMem BootFixes BootServices StartImage AptioEntry.

Open Scope Z_scope.

(** No image has been installed. *)
Definition idle {P F} (m0 : Machine P F) (w : World P F) : Prop :=
  gBS (w_m w) = gBS m0 ∧ gRT (w_m w) = gRT m0 ∧ Forall (λ i, i.1 ≠ EFI_SUCCESS) (w_images w).

(** Image [k] is installed, the only one that succeeded. *)
Definition installed {P F} `{ProtocolDb P} (b : Build) (m0 : Machine P F) (k : nat) (w : World P F) : Prop :=
  ∃ s t1, w_images w !! k = Some (EFI_SUCCESS, s) ∧ (∀ j i, w_images w !! j = Some i → i.1 = EFI_SUCCESS → j = k) ∧
    EFI_ERROR (LocateProtocol (m_protocols (w_m w))).1 = false ∧ hooks b k (gBS m0) (gRT m0) (st_stored s) (st_shims s) (gBS (w_m w)) t1 ∧
    (gRT (w_m w) = overridden b k t1 ∨ gRT (w_m w) = t1).

Lemma stands_for_org {P F} (w : World P F) fn : is_org fn = true → stands_for w fn = Some fn.
Proof. by destruct fn. Qed.

Lemma error_not_success st : EFI_ERROR st = true → st ≠ EFI_SUCCESS.
Proof. by destruct st. Qed.

Section Reach.
Context {P F : Type} `{ProtocolLaws P} `{Firmware F} (b : Build) (fuel : nat) (m0 : Machine P F) (Hm0 : pristine b m0).

Lemma idle_step w w' : idle m0 w → step b fuel w w' → idle m0 w' ∨ ∃ k, installed b m0 k w'.
Proof.
  intros (Hb & Hr & Hi) Hs. destruct Hs as [w vendor mem st s m E|w p f _|w k st s t Ev Ek Eu]; [|by left|].
  - apply entry_cases in E; [|done]. assert (∀ st, st ≠ EFI_SUCCESS → Forall (λ i : EFI_STATUS * Statics, i.1 ≠ EFI_SUCCESS) (w_images w ++ [(st, s)])) as Hf
      by (intros st' Hst; apply Forall_app; split; [done|by constructor]).
    destruct E as [(_ & -> & ->)|(_ & [(Hst & Eb & Er & _)|(-> & Hl & _ & t1 & Hh & Er)])]; [left|left|right].
    + split; [done|]. split; [done|]. by apply Hf.
    + split; [by rewrite <- Hb|]. split; [by rewrite <- Hr|]. by apply Hf, error_not_success.
    + exists (length (w_images w)), s, t1. cbn [w_images w_m]. rewrite Hb, Hr in Hh. split; [by rewrite list_lookup_middle|].
      split; [|by auto]. intros j i Hj Hs. apply lookup_snoc_Some in Hj as [[_ Hj]|[-> _]]; [|done].
      by destruct (Forall_lookup_1 _ _ _ _ Hi Hj).
  - exfalso. pose proof (pr_rt b m0 Hm0) as Ho. rewrite <- Hr, Ev in Ho. done.
Qed.

Lemma installed_step k w w' : installed b m0 k w → step b fuel w w' → installed b m0 k w'.
Proof.
  intros (s & t1 & Hk & Hu & Hl & Hh & Hr) Hs. destruct Hs as [w vendor mem st s' m E|w p f El|w j st s' t Ev Ej Eu].
  - apply entry_cases in E; [|done]. destruct E as [(_ & -> & ->)|(Hl' & _)]; [|congruence].
    exists s, t1. cbn [w_images w_m]. split; [by apply lookup_app_l_Some|]. split; [|done].
    intros j i Hj Hs. apply lookup_snoc_Some in Hj as [[_ Hj]|[_ <-]]; [by eapply Hu|done].
  - exists s, t1. cbn [w_images w_m with_others m_protocols gBS gRT]. by rewrite El.
  - exists s, t1. cbn [w_images w_m with_rt gRT gBS m_protocols]. repeat (split; [done|]). right.
    destruct (hk_rt _ _ _ _ _ _ _ _ Hh) as (Hs & Hc & Ht & _).
    destruct Hr as [Hr|Hr].
    + rewrite Hr in Ev, Eu. injection Ev as <-. rewrite Hk in Ej. injection Ej as <- <-.
      unfold UninstallRtOverrides in Eu. rewrite Hs in Eu. injection Eu as <-. rewrite Hc, <- Ht. by destruct t1.
    + exfalso. rewrite Hr, Ht in Ev. pose proof (pr_rt b m0 Hm0) as Ho. by rewrite Ev in Ho.
Qed.

Lemma reach_cases w : rtc (step b fuel) {| w_m := m0; w_images := [] |} w → idle m0 w ∨ ∃ k, installed b m0 k w.
Proof.
  intros Hr. assert (idle m0 {| w_m := m0; w_images := [] |}) as Hi by done. apply or_introl with (B := ∃ k, installed b m0 k {| w_m := m0; w_images := [] |}) in Hi.
  revert Hi. induction Hr as [w|w1 w2 w3 Hs _ IH]; [done|]. intros Hi. apply IH. destruct Hi as [Hi|[k Hi]]; [by eapply idle_step|].
  right. exists k. by eapply installed_step.
Qed.

(** An override in the tables belongs to the installed image. *)
Lemma hooks_owner k s sh (w : World P F) t1 j o : hooks b k (gBS m0) (gRT m0) s sh (gBS (w_m w)) t1 →
  gRT (w_m w) = overridden b k t1 ∨ gRT (w_m w) = t1 →
  MO j o ∈ rt_SetVirtualAddressMap (gRT (w_m w)) :: services (gBS (w_m w)) → j = k.
Proof.
  intros [(F1 & F2 & F3 & F4) _ Hp _ (_ & _ & T3 & _) _] Hr. destruct Hm0 as [_ Hob Hor _ _].
  intros Hin. rewrite Forall_forall in Hob. unfold services in Hin, Hob. rewrite F1, F2, F3, F4 in Hin. rewrite !elem_of_cons in Hin.
  destruct Hin as [E|[E|[E|[E|[E|[E|[E|E%not_elem_of_nil]]]]]]]; try (by injection E as -> _); [destruct Hr as [Hr|Hr]| | |done].
  - rewrite Hr in E. by injection E as -> _.
  - exfalso. rewrite Hr, T3 in E. by rewrite <- E in Hor.
  - destruct Hp as [[Hp _]|(Hp & _)]; rewrite Hp in E; [exfalso; specialize (Hob (bs_AllocatePool (gBS m0)) ltac:(set_solver)); by rewrite <- E in Hob|by injection E as -> _].
  - destruct Hp as [[_ Hp]|(_ & Hp & _)]; rewrite Hp in E; [exfalso; specialize (Hob (bs_FreePool (gBS m0)) ltac:(set_solver)); by rewrite <- E in Hob|by injection E as -> _].
Qed.

End Reach.

(** ** The return of the entry point *)

Section Returns.
Context {P F : Type} `{ProtocolLaws P} `{FirmwareLaws F} (b : Build).
(** Enough fuel for the memory map to be read: every retry asks for more than 512 bytes more. *)
Context (fuel : nat) (enough : ∀ f : F, map_bytes f < 512 * Z.of_nat fuel).

Lemma from_top_returns overlaps check Pages Memory (f : F) :
  ∃ e M f', AllocatePagesFromTop overlaps check fuel Pages Memory f = Some (e, M, f') ∧ pages f ⊆ pages f'.
Proof.
  assert (∃ e M f', AllocatePagesFromTop overlaps check fuel Pages Memory f = Some (e, M, f')) as (e & M & f' & E).
  { destruct (top_cases fuel enough overlaps check Pages Memory f) as (r & f1 & _ & [[_ ->]|[_ [b0 ->]]]); [by eexists _, _, _|].
    destruct (top_search _ _ _ _ _) as [[a|] M]; [destruct (AllocateAddress a Pages f1)|]; by eexists _, _, _. }
  exists e, M, f'. split; [done|]. apply from_top in E as [_ E]. destruct (EFI_ERROR e); [by rewrite E|].
  destruct E as (? & ? & _ & _ & _ & ->). set_solver.
Qed.

Lemma set_heap_returns h u : ∃ u', UmmSetHeap h u = Some (tt, u').
Proof.
  unfold UmmSetHeap, umm_init. rewrite !bind_modify, bind_gets. cbn [default_umm_heap umm_heap umm_numblocks].
  change (UMM_MALLOC_CFG_HEAP_SIZE / sizeof_umm_block) with 0x200000. change (wrap32 (0x200000 - 1)) with 0x1FFFFF.
  set (s0 := mkUmm h (umm_heap u) 0x200000). assert (in_heap s0 0 = true) as H0' by done. assert (in_heap s0 1 = true) as H1' by done.
  assert (in_heap s0 0x1FFFFF = true) as HL' by done. run. by eexists.
Qed.

Lemma shims_returns s (f : F) t : ∃ s1 t1 f1, install_shims b fuel s f t = Some (s1, t1, f1) ∧ pages f ⊆ pages f1 ∧ st_vm s1 = st_vm s.
Proof.
  unfold install_shims, InstallRtShims. destruct (st_quirks s).2.
  - destruct (AllocatePool (b_shims_size b) f) as [[a|] f1] eqn:Ea; cbn [mbind option_bind EFI_ERROR]; eexists _, _, _; (split; [reflexivity|]).
    + by apply AllocatePool_some in Ea as (_ & _ & ->).
    + by apply AllocatePool_none in Ea as (_ & ->).
  - destruct (from_top_returns (λ _ _, false) false (EFI_SIZE_TO_PAGES (b_shims_size b)) BASE_4GB f) as (e & M & f1 & -> & Hp).
    cbn [mbind option_bind]. destruct (EFI_ERROR e); by eexists _, _, _.
Qed.

Lemma overrides_returns k s (f : F) t : ∃ s1 t1 f1, InstallBsOverrides b fuel k s f t = Some (s1, t1, f1) ∧ pages f ⊆ pages f1 ∧ st_vm s1 = st_vm s.
Proof.
  unfold InstallBsOverrides. assert (∃ s1 t1 f1, (if APTIOFIX_CUSTOM_POOL_ALLOCATOR b then install_pool b fuel k s f t else Some (s, t, f)) = Some (s1, t1, f1) ∧
    pages f ⊆ pages f1 ∧ st_vm s1 = st_vm s) as (s1 & t1 & f1 & -> & Hp & Hv); [|cbn [mbind option_bind]; by eexists _, _, _].
  destruct (APTIOFIX_CUSTOM_POOL_ALLOCATOR b); [|by eexists _, _, _]. unfold install_pool. destruct (UmmInitialized _); [by eexists _, _, _|].
  destruct (from_top_returns (b_overlaps b) (negb (gDumpMemArgPresent b)) (EFI_SIZE_TO_PAGES APTIOFIX_CUSTOM_POOL_ALLOCATOR_SIZE) BASE_4GB f) as (e & h & f1 & -> & Hp).
  cbn [mbind option_bind]. destruct (EFI_ERROR e); [by eexists _, _, _|].
  destruct (set_heap_returns h (mkUmm (default_umm_heap (st_umm s)) ∅ (umm_numblocks (st_umm s)))) as [u ->]. cbn [mbind option_bind]. by eexists _, _, _.
Qed.

(** The entry point returns.  With an error it leaves both tables and all memory as they
    were, and with success the pool for page tables is 512 fresh pages that nobody else
    has. *)
Theorem entry_returns k vendor mem m :
  ∃ st s' (m' : Machine P F), AptioMemoryFixEntrypoint b fuel k vendor (fresh_statics mem) m = Some (st, s', m') ∧
    (if EFI_ERROR st then gBS m' = gBS m ∧ gRT m' = gRT m ∧ pages (m_fw m') = pages (m_fw m) ∧ pool (m_fw m') = pool (m_fw m)
    else st = EFI_SUCCESS ∧ VmMemoryPoolFreePages (st_vm s') = 0x200 ∧
      ((VmMemoryPool (st_vm s'), 0x200) ∉ pages (m_fw m)) ∧ (VmMemoryPool (st_vm s'), 0x200) ∈ pages (m_fw m')).
Proof.
  unfold AptioMemoryFixEntrypoint. destruct (LocateProtocol (m_protocols m)) as [st0 i0]. destruct (EFI_ERROR st0); cbn [negb]; [|by eexists _, _, _].
  destruct (InstallProtocolInterface k (m_protocols m)) as [st1 p]. destruct (EFI_ERROR st1) eqn:E1; [eexists _, _, _; split; [reflexivity|]; by rewrite E1|].
  unfold VmAllocateMemoryPool. cbn [fresh_statics st_vm VmMemoryPool Z.eqb negb].
  destruct (from_top_returns (λ _ _, false) false 0x200 BASE_4GB (m_fw m)) as (e & M & f1 & E & Hp). rewrite E. cbn [mbind option_bind].
  apply from_top in E as [Hpool Hpages]. destruct (EFI_ERROR e) eqn:Ee.
  { eexists _, _, _. split; [reflexivity|]. rewrite Ee. cbn [gBS gRT m_fw]. done. }
  destruct Hpages as (_ & _ & _ & _ & Hfresh & Hnew).
  match goal with |- context [install_shims b fuel ?s f1 ?t] => destruct (shims_returns s f1 t) as (s1 & t1 & f2 & -> & Hp2 & Hv2) end.
  cbn [mbind option_bind].
  destruct (overrides_returns k s1 f2 (gBS m)) as (s2 & t2 & f3 & -> & Hp3 & Hv3). cbn [mbind option_bind].
  eexists _, _, _. split; [reflexivity|]. cbn [EFI_ERROR]. split; [done|]. cbn [InstallRtOverrides st_vm m_fw]. rewrite Hv3, Hv2.
  cbn [st_vm VmMemoryPool VmMemoryPoolFreePages]. split; [done|]. split; [done|]. set_solver.
Qed.
End Returns.

(** ** A load that failed *)

Section Failed.
Context {P F : Type} `{ProtocolLaws P} `{Firmware F} (b : Build) (fuel : nat) (m0 : Machine P F) (Hm0 : pristine b m0).

(** The protocol of image 0 is found, nothing is overridden, and image 0 was the last to try. *)
Definition stuck (w : World P F) : Prop :=
  EFI_ERROR (LocateProtocol (m_protocols (w_m w))).1 = false ∧ (LocateProtocol (m_protocols (w_m w))).2 = 0%nat ∧
  gBS (w_m w) = gBS m0 ∧ gRT (w_m w) = gRT m0 ∧ w_images w ≠ [] ∧ Forall (λ i, i.1 = EFI_ALREADY_STARTED) (tail (w_images w)).

Lemma stuck_step w w' : stuck w → step b fuel w w' → stuck w'.
Proof.
  intros (Hl & Hi & Hb & Hr & Hne & Hf) Hs. destruct Hs as [w vendor mem st s m E|w p f El|w k st s t Ev _ _]; [|unfold stuck; cbn [w_images w_m with_others m_protocols gBS gRT]; rewrite El; by repeat split|].
  - apply entry_cases in E; [|done]. destruct E as [(_ & -> & ->)|(Hl' & _)]; [|congruence]. repeat split; try done; cbn [w_images].
    + by destruct (w_images w).
    + destruct (w_images w) as [|i l]; [done|]. cbn [app tail] in *. apply Forall_app. split; [done|by constructor].
  - exfalso. pose proof (pr_rt b m0 Hm0) as Ho. by rewrite <- Hr, Ev in Ho.
Qed.

(** If the first load fails after it has installed the protocol, which is when there is
    no memory for page tables, the driver can never be used again: the protocol stays
    installed, with an interface inside the image that failed, every further load returns
    EFI_ALREADY_STARTED, whatever memory was freed in between, and no service is ever
    overridden. *)
Theorem failed_load_sticks vendor mem st s m1 w :
  AptioMemoryFixEntrypoint b fuel 0 vendor (fresh_statics mem) m0 = Some (st, s, m1) → EFI_ERROR st = true →
  EFI_ERROR (InstallProtocolInterface 0 (m_protocols m0)).1 = false →
  rtc (step b fuel) {| w_m := m1; w_images := [(st, s)] |} w →
  EFI_ERROR (LocateProtocol (m_protocols (w_m w))).1 = false ∧ (LocateProtocol (m_protocols (w_m w))).2 = 0%nat ∧
  gBS (w_m w) = gBS m0 ∧ gRT (w_m w) = gRT m0 ∧ Forall (λ i, i.1 = EFI_ALREADY_STARTED) (tail (w_images w)).
Proof.
  intros E Hst Hin Hr. assert (stuck {| w_m := m1; w_images := [(st, s)] |}) as Hs.
  { pose proof (pr_protocol b m0 Hm0) as Hl. pose proof E as E'. apply entry_cases in E'; [|done]. destruct E' as [(Hl' & _)|(_ & [(_ & Hb & Hr' & _)|(-> & _)])]; [congruence| |done].
    destruct (InstallProtocolInterface 0 (m_protocols m0)) as [st1 p] eqn:Ei. cbn [fst] in Hin. destruct (install_found 0 _ _ _ Hl Ei Hin) as [Hf Hk].
    assert (m_protocols m1 = p) as Hp; [|by repeat split; cbn [w_m]; rewrite ?Hp].
    unfold AptioMemoryFixEntrypoint in E. destruct (LocateProtocol (m_protocols m0)) as [st0 i0]. cbn [fst] in Hl. rewrite Hl in E. cbn [negb] in E.
    rewrite Ei, Hin in E. destruct (VmAllocateMemoryPool _ _ _) as [[[st2 vm] f]|]; [|done]. cbn [mbind option_bind] in E.
    destruct (EFI_ERROR st2); [by injection E as _ _ <-|]. destruct (install_shims _ _ _ _ _) as [[[? ?] ?]|]; [|done]. cbn [mbind option_bind] in E.
    destruct (InstallBsOverrides _ _ _ _ _ _) as [[[? ?] ?]|]; [|done]. cbn [mbind option_bind] in E. by injection E as _ _ <-. }
  clear E. induction Hr as [w|w1 w2 w3 Hstep _ IH]; [by destruct Hs as (?&?&?&?&_&?)|]. apply IH. by eapply stuck_step.
Qed.
End Failed.

(** ** A machine *)

(** One interface of the protocol. *)
#[global] Instance option_db : ProtocolDb (option nat) := {
  LocateProtocol p := match p with Some i => (EFI_SUCCESS, i) | None => (EFI_NOT_FOUND, 0%nat) end;
  InstallProtocolInterface i p := (EFI_SUCCESS, Some i)
}.

#[global] Instance option_db_laws : ProtocolLaws (option nat).
Proof. split; [by intros i p st p' _ [= <- <-]|by intros i p st p' _ [= <- <-]]. Qed.

(** Sums of the addresses stand for the checksums. *)
Definition build_demo : Build := {|
  APTIOFIX_CUSTOM_POOL_ALLOCATOR := true; b_shims_size := 0x300; b_shims_offsets := [0; 0x40; 0x80; 0xc0; 0x100; 0x140; 0x180; 0x1c0; 0x200];
  b_GetVariableCustomSlide := 0x5000; b_overlaps := λ _ _, false; gDumpMemArgPresent := false;
  CalculateCrc32_bs t := Z.of_nat (length (filter (λ fn, is_org fn = true) (services t))); CalculateCrc32_rt t := foldr Z.add (if is_org (rt_SetVirtualAddressMap t) then 0 else 1) (rt_shimmed t) |}.

Definition machine_demo (f : MemoryServices.Fixed) : Machine (option nat) MemoryServices.Fixed := {|
  m_protocols := None; m_fw := f;
  gBS := {| bs_CRC32 := 6; bs_AllocatePool := Org 1; bs_FreePool := Org 2; bs_AllocatePages := Org 3; bs_GetMemoryMap := Org 4;
            bs_ExitBootServices := Org 5; bs_StartImage := Org 6 |};
  gRT := {| rt_CRC32 := 45; rt_shimmed := [1; 2; 3; 4; 5; 6; 7; 8; 9]; rt_SetVirtualAddressMap := Org 10 |} |}.

Lemma machine_demo_pristine f : pristine build_demo (machine_demo f).
Proof. by split; repeat constructor. Qed.


Lemma entry_returns_witness :
  ∃ st s' m', AptioMemoryFixEntrypoint build_demo 100 0 None (fresh_statics ∅) (machine_demo fixed0) = Some (st, s', m') ∧ st = EFI_SUCCESS ∧
    (VmMemoryPool (st_vm s'), 0x200) ∈ pages (m_fw m').
Proof.
  assert ((λ r, r.1.1) <$> AptioMemoryFixEntrypoint build_demo 100 0 None (fresh_statics ∅) (machine_demo fixed0) = Some EFI_SUCCESS) as Hst by (vm_compute; reflexivity).
  destruct (entry_returns build_demo 100 fixed_enough 0 None ∅ (machine_demo fixed0)) as (st & s' & m' & E & Hr).
  exists st, s', m'. split; [exact E|]. rewrite E in Hst. injection Hst as Hst. rewrite Hst in Hr. split; [exact Hst|apply Hr].
Defined.

(** Somebody has the pages that the page tables need. *)
Definition fixed_full : MemoryServices.Fixed := {| fx_pool := ∅; fx_pages := {[(267386880, 0x200)]}; fx_grow := 0 |}.

(** The first load fails, the pages are freed, and the second load does not start either. *)
Lemma failed_load_sticks_witness :
  ∃ w : World (option nat) MemoryServices.Fixed, fst <$> w_images w = [EFI_NOT_FOUND; EFI_ALREADY_STARTED] ∧ (LocateProtocol (m_protocols (w_m w))).2 = 0%nat ∧
    gBS (w_m w) = gBS (machine_demo fixed_full).
Proof.
  assert (∃ s m1 w, AptioMemoryFixEntrypoint build_demo 5 0 None (fresh_statics ∅) (machine_demo fixed_full) = Some (EFI_NOT_FOUND, s, m1) ∧
    rtc (step build_demo 5) {| w_m := m1; w_images := [(EFI_NOT_FOUND, s)] |} w ∧ fst <$> w_images w = [EFI_NOT_FOUND; EFI_ALREADY_STARTED]) as (s & m1 & w & E & Hw & Hi).
  { eexists _, _, _. split; [vm_compute; reflexivity|]. split; [|].
    - eapply rtc_l; [apply (step_others _ _ _ _ fixed0 eq_refl)|]. eapply rtc_l; [apply (step_load _ _ _ None ∅); vm_compute; reflexivity|]. apply rtc_refl.
    - reflexivity. }
  destruct (failed_load_sticks build_demo 5 (machine_demo fixed_full) (machine_demo_pristine fixed_full) None ∅ _ s m1 w E eq_refl eq_refl Hw) as (_ & Hl & Hb & _).
  exists w. split; [exact Hi|]. split; [exact Hl|exact Hb].
Defined.
