(* ===== verification/FatBinary.v ===== *)
(** * OsxFatBinaryDrv: LoadImage for fat binaries (OsxFatBinaryDrv.c)

    The driver replaces LoadImage.  The override reads the file itself, takes the part for
    the processor out of a fat binary, calls the firmware's LoadImage with it, and corrects
    the device of the loaded image.  Buffers are their addresses and contents; a read
    outside a buffer has no result.  The firmware's services are a class. *)

From Stdlib Require Import ZArith Lia.
From stdpp Require Import base list gmap strings.
From S2P Require Import Prelude BootFixes StartImage.

Open Scope Z_scope.

(** ** Fat binaries *)

Definition FAT_BINARY_MAGIC : Z := 0x0ef1fab9.
Definition CPU_TYPE_X86 : Z := 0x07.
Definition CPU_TYPE_X86_64 : Z := 0x01000007.
Definition CPU_SUBTYPE_I386_ALL : Z := 0x03.

Definition sizeof_FAT_HEADER : Z := 8.
Definition sizeof_FAT_ARCH : Z := 20.

Definition u32 (buf : list Z) (a : Z) : option Z := le_get <$> ram_get buf a 4.

(** The condition of the loop on the entry at [p]; [cpu] is the processor the driver is
    built for. *)
Definition arch_matches (cpu : Z) (buf : list Z) (p : Z) : option bool :=
  CpuType ← u32 buf p;
  if CpuType =? cpu then CpuSubtype ← u32 buf (p + 4); Some (CpuSubtype =? CPU_SUBTYPE_I386_ALL) else Some false.

(** The loop leaves [FatArch] at the entry it found, or behind the last one. *)
Fixpoint find_arch (cpu : Z) (buf : list Z) (n : nat) (FatArch : Z) : option Z :=
  match n with
  | O => Some FatArch
  | S n =>
      arch_matches cpu buf FatArch ≫= λ m : bool, if m then Some FatArch else find_arch cpu buf n (FatArch + sizeof_FAT_ARCH)
  end.

(** The offset and the size of the part. *)
Definition fat_part (cpu : Z) (buf : list Z) : option (Z * Z) :=
  NumFatArch ← u32 buf 4;
  FatArch ← find_arch cpu buf (Z.to_nat NumFatArch) sizeof_FAT_HEADER;
  Size ← u32 buf (FatArch + 12);
  Offset ← u32 buf (FatArch + 8);
  Some (Offset, Size).

(** ** The services *)

Inductive Protocol := SimpleFileSystem | LoadFileProtocol.

Class LoadServices (W : Type) := {
  (** on success the rest of the path and the handle *)
  LocateDevicePath : Protocol → list Node → W → EFI_STATUS * list Node * Z;
  HandleProtocol : Protocol → Z → W → EFI_STATUS;
  OpenVolume : Z → W → EFI_STATUS * Z * W;
  FileOpen : Z → list Z → W → EFI_STATUS * Z * W;
  FileClose : Z → W → W;
  (** the size of the buffer; the status, the size needed, and the field FileSize of the
      information *)
  FileGetInfo : Z → Z → W → EFI_STATUS * Z * Z;
  (** the size of the buffer; the status, the bytes read, and the buffer *)
  FileRead : Z → Z → W → EFI_STATUS * Z * list Z * W;
  (** the handle, the path, the policy, the size of the buffer and whether there is one *)
  LoadFile : Z → list Node → bool → Z → bool → W → EFI_STATUS * Z * list Z * W;
  DuplicateDevicePath : list Node → W → option Z * W;
  AllocPool : Z → W → option Z * W;
  ReleasePool : Z → W → W;
  (** the firmware's LoadImage: the policy, the parent, the path, the source and its size *)
  OrigLoadImage : bool → Z → option (list Node) → option (list Z) → Z → W → EFI_STATUS * Z * W;
  (** the device of a loaded image *)
  ImageDevice : Z → W → EFI_STATUS * Z;
  SetImageDevice : Z → Z → option Z → W → W
}.

Section Load.
Context {W : Type} `{LoadServices W}.

Definition lift {A} (f : W → A * W) : M W A := λ w, Some (f w).
Definition need {A} (o : option A) : M W A := λ w, (λ a, (a, w)) <$> o.

(** The local variables; [FileInfo] starts as what is on the stack. *)
Record Locals := {
  SourceBuffer : option (Z * list Z); SourceSize : Z; FreeSourceBuffer : bool; FileInfo : Z; RemainingDevicePath : option (list Node);
  DeviceHandle : Z
}.

Definition set_FileInfo (p : Z) (s : Locals) : Locals := {|
  SourceBuffer := SourceBuffer s; SourceSize := SourceSize s; FreeSourceBuffer := FreeSourceBuffer s; FileInfo := p;
  RemainingDevicePath := RemainingDevicePath s; DeviceHandle := DeviceHandle s |}.
Definition set_device (rest : list Node) (h : Z) (s : Locals) : Locals := {|
  SourceBuffer := SourceBuffer s; SourceSize := SourceSize s; FreeSourceBuffer := FreeSourceBuffer s; FileInfo := FileInfo s;
  RemainingDevicePath := Some rest; DeviceHandle := h |}.
Definition set_source (b : option (Z * list Z)) (n : Z) (free : bool) (s : Locals) : Locals := {|
  SourceBuffer := b; SourceSize := n; FreeSourceBuffer := free; FileInfo := FileInfo s;
  RemainingDevicePath := RemainingDevicePath s; DeviceHandle := DeviceHandle s |}.

(** How a part of the loop's body ends: with break, by going on, or with return. *)
Inductive Exit := Break | GoOn | Return (st : EFI_STATUS).

(** ** Reading the file *)

(** The nodes of the path are opened one after the other; every handle but the last one is
    closed. *)
Fixpoint walk (path : list Node) (Status : EFI_STATUS) (FileHandle : Z) : M W (EFI_STATUS * Z) :=
  match path with
  | [] => mret (Status, FileHandle)
  | n :: path =>
      let Status := if is_file n then Status else EFI_UNSUPPORTED in
      if EFI_ERROR Status then mret (Status, FileHandle) else
      r ← lift (FileOpen FileHandle (dp_PathName n));
      modify (FileClose FileHandle);;
      walk path r.1 r.2
  end.

(** The part of [read_file] when the information is in [FileInfo], or the call failed. *)
Definition read_content (FileHandle : Z) (Status : EFI_STATUS) (FileSize : Z) (s : Locals) : M W (Exit * Locals) :=
  if EFI_ERROR Status then mret (GoOn, s)
  else if FileInfo s =? 0 then mret (Return EFI_OUT_OF_RESOURCES, s)
  else
    p ← lift (AllocPool FileSize);
    match p with
    | None => mret (Break, s)
    | Some a =>
        r ← lift (FileRead FileHandle FileSize);
        modify (FileClose FileHandle);;
        modify (ReleasePool (FileInfo s));;
        mret (Break, set_FileInfo 0 (set_source (Some (a, r.2)) r.1.2 true s))
    end.

Definition read_file (FileHandle : Z) (s : Locals) : M W (Exit * Locals) :=
  let s := set_FileInfo 0 s in
  r ← gets (FileGetInfo FileHandle 0);
  let '(Status, FileInfoSize, _) := r in
  if bool_decide (Status = EFI_BUFFER_TOO_SMALL) then
    p ← lift (AllocPool (wrap64 (FileInfoSize + 2)));
    match p with
    | None => mret (Break, s)
    | Some p =>
        r ← gets (FileGetInfo FileHandle (wrap64 (FileInfoSize + 2)));
        let '(Status, _, FileSize) := r in read_content FileHandle Status FileSize (set_FileInfo p s)
    end
  else read_content FileHandle Status 0 s.

Definition from_file_system (FilePath : list Node) (s : Locals) : M W (Exit * Locals) :=
  r ← gets (LocateDevicePath SimpleFileSystem FilePath);
  let '(Status, FilePathNode, h) := r in
  if EFI_ERROR Status then mret (GoOn, s) else
  let s := set_device FilePathNode h s in
  Status ← gets (HandleProtocol SimpleFileSystem h);
  if EFI_ERROR Status then mret (GoOn, s) else
  r ← lift (OpenVolume h);
  let '(Status, FileHandle) := r in
  if EFI_ERROR Status then mret (GoOn, s) else
  d ← lift (DuplicateDevicePath FilePathNode);
  r ← match d with
      | None => modify (FileClose FileHandle);; mret (EFI_OUT_OF_RESOURCES, FileHandle)
      | Some OrigFilePathNode => r ← walk FilePathNode Status FileHandle; modify (ReleasePool OrigFilePathNode);; mret r
      end;
  if EFI_ERROR r.1 then mret (GoOn, s) else read_file r.2 s.

(** The buffer stays if the second call fails. *)
Definition from_load_file (BootPolicy : bool) (FilePath : list Node) (s : Locals) : M W Locals :=
  r ← gets (LocateDevicePath LoadFileProtocol FilePath);
  let '(Status, rest, h) := r in
  if EFI_ERROR Status then mret (set_device FilePath (DeviceHandle s) s) else
  let s := set_device rest h s in
  Status ← gets (HandleProtocol LoadFileProtocol h);
  if EFI_ERROR Status then mret s else
  r ← lift (LoadFile h rest BootPolicy (SourceSize s) false);
  let '(Status, size, _) := r in
  if bool_decide (Status = EFI_BUFFER_TOO_SMALL) then
    p ← lift (AllocPool size);
    match p with
    | None => mret (set_source None size false s)
    | Some a =>
        r ← lift (LoadFile h rest BootPolicy size true);
        let '(Status, size, bytes) := r in mret (set_source (Some (a, bytes)) size (negb (EFI_ERROR Status)) s)
    end
  else mret (set_source None size (negb (EFI_ERROR Status)) s).

(** The loop, which is left after one round. *)
Definition find_source (BootPolicy : bool) (FilePath : option (list Node)) (s : Locals) : M W (Exit * Locals) :=
  match SourceBuffer s, FilePath with
  | Some _, _ => mret (Break, s)
  | None, None => mret (Return EFI_INVALID_PARAMETER, s)
  | None, Some path =>
      r ← from_file_system path s;
      match r.1 with
      | GoOn => s ← from_load_file BootPolicy path r.2; mret (Break, s)
      | _ => mret r
      end
  end.

(** ** Loading *)

(** The source for the firmware: the bytes, their number, and the buffer to free.  None if
    there is no memory. *)
Definition choose_part (cpu : Z) (s : Locals) : M W (option (option (list Z) * Z * option Z)) :=
  match SourceBuffer s with
  | None => mret (Some (None, SourceSize s, None))
  | Some (_, buf) =>
      Magic ← need (u32 buf 0);
      if Magic =? FAT_BINARY_MAGIC then
        r ← need (fat_part cpu buf);
        p ← lift (AllocPool r.2);
        match p with
        | None => mret None
        | Some a => bytes ← need (ram_get buf r.1 r.2); mret (Some (Some bytes, r.2, Some a))
        end
      else mret (Some (Some buf, SourceSize s, None))
  end.

(** Some boards do not put the device handle into the loaded image. *)
Definition fix_device (Status : EFI_STATUS) (ImageHandle : Z) (s : Locals) : M W unit :=
  if negb (EFI_ERROR Status) && negb (DeviceHandle s =? 0) then
    r ← gets (ImageDevice ImageHandle);
    if negb (EFI_ERROR r.1) && negb (r.2 =? DeviceHandle s) then
      d ← match RemainingDevicePath s with Some path => lift (DuplicateDevicePath path) | None => mret None end;
      modify (SetImageDevice ImageHandle (DeviceHandle s) d)
    else mret tt
  else mret tt.

Definition free_opt (p : option Z) : M W unit := match p with Some a => modify (ReleasePool a) | None => mret tt end.

(** The handle is None if the firmware's LoadImage was not called. *)
Definition OvrLoadImage (cpu junk : Z) (BootPolicy : bool) (ParentImageHandle : Z) (FilePath : option (list Node))
    (Source : option (Z * list Z)) (Size : Z) : M W (EFI_STATUS * option Z) :=
  r ← find_source BootPolicy FilePath {|
        SourceBuffer := Source; SourceSize := Size; FreeSourceBuffer := false; FileInfo := junk; RemainingDevicePath := None; DeviceHandle := 0 |};
  let '(e, s) := r in
  match e with
  | Return st => mret (st, None)
  | _ =>
      c ← choose_part cpu s;
      match c with
      | None => mret (EFI_OUT_OF_RESOURCES, None)
      | Some (SrcBuffer, n, a) =>
          r ← lift (OrigLoadImage BootPolicy ParentImageHandle FilePath SrcBuffer n);
          let '(Status, ImageHandle) := r in
          free_opt a;;
          (if FreeSourceBuffer s then free_opt (fst <$> SourceBuffer s) else mret tt);;
          (if FileInfo s =? 0 then mret tt else modify (ReleasePool (FileInfo s)));;
          fix_device Status ImageHandle s;;
          mret (Status, Some ImageHandle)
      end
  end.
End Load.

(** ** The override in the table *)

(** The entry and the checksum of gBS, and the driver's pointer. *)
Record Hook := { h_LoadImage : Z; h_CRC32 : Z; h_OrigLoadImage : Z }.

(** [crc] is the checksum of the table with an entry and the checksum field zero, and [ovr]
    the address of the override. *)
Definition OverrideFunctions (crc : Z → Z) (ovr : Z) (t : Hook) : EFI_STATUS * Hook :=
  (EFI_SUCCESS, {| h_LoadImage := ovr; h_CRC32 := crc ovr; h_OrigLoadImage := h_LoadImage t |}).

Definition UefiMain (crc : Z → Z) (ovr : Z) (t : Hook) : EFI_STATUS * Hook := (EFI_SUCCESS, (OverrideFunctions crc ovr t).2).
