(* ===== verification/FatBinaryTheorems.v ===== *)
(** * OsxFatBinaryDrv: the part that is loaded, and the resources of the override *)

From Stdlib Require Import ZArith Lia.
From stdpp Require Import base list gmap strings.
From S2P Require Import Prelude BootFixes StartImage FatBinary.

Open Scope Z_scope.

(** ** The layout of fat binaries *)

Record FAT_ARCH := { CpuType : Z; CpuSubtype : Z; Offset : Z; Size : Z; Align : Z }.

Definition arch_fields (a : FAT_ARCH) : list Z := [CpuType a; CpuSubtype a; Offset a; Size a; Align a].
Definition arch_bytes (a : FAT_ARCH) : list Z := concat (le_put 4 <$> arch_fields a).
Definition arch_ok (a : FAT_ARCH) : Prop := Forall (λ x, 0 ≤ x < 2 ^ 32) (arch_fields a).

Definition fat_header (l : list FAT_ARCH) : list Z :=
  le_put 4 FAT_BINARY_MAGIC ++ le_put 4 (Z.of_nat (length l)) ++ concat (arch_bytes <$> l).

(** The entry for the processor. *)
Definition for_cpu (cpu : Z) (a : FAT_ARCH) : bool := (CpuType a =? cpu) && (CpuSubtype a =? CPU_SUBTYPE_I386_ALL).
Definition first_for (cpu : Z) (l : list FAT_ARCH) : option FAT_ARCH := snd <$> list_find (λ a, for_cpu cpu a = true) l.

Lemma length_arch_bytes a : length (arch_bytes a) = 20%nat.
Proof. reflexivity. Qed.

Lemma u32_app pre x post a : a = Z.of_nat (length pre) → 0 ≤ x < 2 ^ 32 → u32 (pre ++ le_put 4 x ++ post) a = Some x.
Proof.
  intros -> Hx. unfold u32. rewrite ram_get_ok by (rewrite ?length_app, ?length_le_put; lia). rewrite Nat2Z.id. unfold slice.
  rewrite drop_app_length. rewrite take_app_le by (rewrite length_le_put; lia). rewrite take_ge by (rewrite length_le_put; lia).
  cbn [fmap option_fmap option_map]. f_equal. apply le_get_put. lia.
Qed.

Lemma u32_past buf a : Z.of_nat (length buf) < a + 4 → u32 buf a = None.
Proof. intros Hl. unfold u32, ram_get. destruct (Z.leb_spec (a + 4) (Z.of_nat (length buf))); [lia|]. by rewrite andb_false_r. Qed.

(** Reading behind a prefix. *)
Lemma u32_shift pre rest a : 0 ≤ a → u32 (pre ++ rest) (Z.of_nat (length pre) + a) = u32 rest a.
Proof.
  intros Ha. unfold u32, ram_get. rewrite length_app. destruct (Z.leb_spec 0 (Z.of_nat (length pre) + a)); [|lia]. destruct (Z.leb_spec 0 a); [|lia].
  destruct (Z.leb_spec (Z.of_nat (length pre) + a + 4) (Z.of_nat (length pre + length rest))), (Z.leb_spec (a + 4) (Z.of_nat (length rest))); try lia; [|done].
  cbn [andb]. do 2 f_equal. unfold slice. rewrite drop_app_ge by lia. do 2 f_equal. lia.
Qed.

Lemma length_archs (l : list FAT_ARCH) : length (concat (arch_bytes <$> l)) = (20 * length l)%nat.
Proof. induction l as [|x l IH]; [done|]. cbn [fmap list_fmap concat length]. rewrite length_app, IH, length_arch_bytes. lia. Qed.

(** The fields of an entry. *)
Lemma arch_field pre a post i x : arch_ok a → arch_fields a !! i = Some x →
  u32 (pre ++ arch_bytes a ++ post) (Z.of_nat (length pre) + 4 * Z.of_nat i) = Some x.
Proof.
  intros Hok Hi. pose proof (Forall_lookup_1 _ _ _ _ Hok Hi) as Hx. unfold arch_bytes. rewrite <- (take_drop_middle _ _ _ Hi) at 1.
  rewrite fmap_app, concat_app, fmap_cons. cbn [concat]. rewrite <- !app_assoc, (app_assoc pre). apply u32_app; [|done].
  rewrite length_app. enough (length (concat (le_put 4 <$> take i (arch_fields a))) = 4 * i)%nat by lia.
  apply lookup_lt_Some in Hi. change (length (arch_fields a)) with 5%nat in Hi. do 5 (destruct i as [|i]; [reflexivity|]). lia.
Qed.

(** The loop finds the first entry for the processor, or ends behind the table. *)
Lemma find_arch_spec cpu l : ∀ pre post, Forall arch_ok l →
  find_arch cpu (pre ++ concat (arch_bytes <$> l) ++ post) (length l) (Z.of_nat (length pre)) =
    Some (Z.of_nat (length pre) + 20 * Z.of_nat (default (length l) (fst <$> list_find (λ a, for_cpu cpu a = true) l))).
Proof.
  induction l as [|a l IH]; intros pre post Hok; cbn [length find_arch list_find]; [simpl; f_equal; lia|].
  apply Forall_cons in Hok as [Ha Hl]. cbn [fmap list_fmap concat]. rewrite <- app_assoc.
  assert (arch_matches cpu (pre ++ arch_bytes a ++ concat (arch_bytes <$> l) ++ post) (Z.of_nat (length pre)) = Some (for_cpu cpu a)) as ->.
  { unfold arch_matches, for_cpu. pose proof (arch_field pre a (concat (arch_bytes <$> l) ++ post) 0 (CpuType a) Ha eq_refl) as E0.
    pose proof (arch_field pre a (concat (arch_bytes <$> l) ++ post) 1 (CpuSubtype a) Ha eq_refl) as E1. rewrite Z.add_0_r in E0. change (4 * Z.of_nat 1) with 4 in E1. rewrite E0. cbn [mbind option_bind].
    destruct (CpuType a =? cpu); [|done]. by rewrite E1. }
  cbn [mbind option_bind]. destruct (for_cpu cpu a) eqn:Ef; [rewrite decide_True by done; simpl; f_equal; lia|].
  rewrite decide_False by congruence. specialize (IH (pre ++ arch_bytes a) post Hl). rewrite <- app_assoc in IH. unfold sizeof_FAT_ARCH.
  rewrite length_app, length_arch_bytes in IH. replace (Z.of_nat (length pre) + 20) with (Z.of_nat (length pre + 20)) by lia. rewrite IH.
  f_equal. destruct (list_find _ l) as [[i x]|]; simpl; lia.
Qed.

(** The part taken from any fat binary, in full: the first entry for the processor; and if
    there is none, the eight bytes at offset 8 behind the table serve as an entry. *)
Lemma fat_part_spec cpu l rest : Forall arch_ok l → Z.of_nat (length l) < 2 ^ 32 →
  u32 (fat_header l ++ rest) 0 = Some FAT_BINARY_MAGIC ∧
  fat_part cpu (fat_header l ++ rest) =
    match first_for cpu l with
    | Some a => Some (Offset a, Size a)
    | None => size ← u32 rest 12; off ← u32 rest 8; Some (off, size)
    end.
Proof.
  intros Hok Hn. unfold fat_header, first_for. split; [rewrite <- !app_assoc; by apply (u32_app [])|].
  set (h := le_put 4 FAT_BINARY_MAGIC ++ le_put 4 (Z.of_nat (length l))). assert (length h = 8%nat) as Hh by (unfold h; by rewrite length_app, !length_le_put).
  unfold fat_part. rewrite <- !app_assoc, (u32_app (le_put 4 FAT_BINARY_MAGIC)) by (rewrite ?length_le_put; lia).
  cbn [mbind option_bind]. rewrite Nat2Z.id, (app_assoc (le_put 4 FAT_BINARY_MAGIC)). fold h.
  pose proof (find_arch_spec cpu l h rest Hok) as Ef. rewrite Hh in Ef. change (Z.of_nat 8) with sizeof_FAT_HEADER in Ef. rewrite Ef. cbn [mbind option_bind].
  destruct (list_find _ l) as [[i a]|] eqn:El; cbn [fmap option_fmap option_map fst snd default].
  - apply list_find_Some in El as (Hi & _ & _). pose proof (Forall_lookup_1 _ _ _ _ Hok Hi) as Ha. 
    assert (concat (arch_bytes <$> l) = concat (arch_bytes <$> take i l) ++ arch_bytes a ++ concat (arch_bytes <$> drop (S i) l)) as ->
      by (by rewrite <- (take_drop_middle _ _ _ Hi) at 1; rewrite fmap_app, concat_app).
    rewrite <- !app_assoc, !(app_assoc h).
    assert (length (h ++ concat (arch_bytes <$> take i l)) = 8 + 20 * i)%nat as Hl
      by (rewrite length_app, Hh, length_archs, length_take; apply lookup_lt_Some in Hi; lia).
    pose proof (arch_field (h ++ concat (arch_bytes <$> take i l)) a (concat (arch_bytes <$> drop (S i) l) ++ rest) 3 (Size a) Ha eq_refl) as E3.
    pose proof (arch_field (h ++ concat (arch_bytes <$> take i l)) a (concat (arch_bytes <$> drop (S i) l) ++ rest) 2 (Offset a) Ha eq_refl) as E2.
    rewrite Hl in E2, E3. unfold sizeof_FAT_HEADER, id. replace (8 + 20 * Z.of_nat i + 12) with (Z.of_nat (8 + 20 * i) + 4 * Z.of_nat 3) by lia.
    replace (8 + 20 * Z.of_nat i + 8) with (Z.of_nat (8 + 20 * i) + 4 * Z.of_nat 2) by lia. by rewrite E3, E2.
  - rewrite app_assoc. assert (8 + 20 * Z.of_nat (length l) = Z.of_nat (length (h ++ concat (arch_bytes <$> l)))) as Hl
      by (rewrite length_app, Hh, length_archs; lia).
    unfold sizeof_FAT_HEADER. by rewrite Hl, !u32_shift by lia.
Qed.

(** ** Pool and handles *)

Lemma set_drop_new (d : Z) (X : gset Z) : d ∉ X → ({[d]} ∪ X) ∖ {[d]} = X.
Proof. set_solver. Qed.

Lemma set_swap (x y : Z) (X : gset Z) : x ∉ X → y ∉ {[x]} ∪ X → ({[y]} ∪ ({[x]} ∪ X)) ∖ {[x]} = {[y]} ∪ X.
Proof. intros Hx Hy. apply set_eq. intros z. set_solver. Qed.

(** What was allocated in between stays when the buffers are freed. *)
Lemma set_between (X N Y : gset Z) : N ## X → X ∪ N ⊆ Y → Y ∖ N = X ∪ (Y ∖ (X ∪ N)).
Proof. intros Hd Hs. apply set_eq. intros z. destruct (decide (z ∈ X)); set_solver. Qed.

(** What the specification of the services says: [lw_pool] are the pool buffers in use and
    [lw_handles] the open files. *)
Class LoadLaws (W : Type) `{LoadServices W} := {
  lw_pool : W → gset Z;
  lw_handles : W → gset Z;
  alloc_some n w p w' : AllocPool n w = (Some p, w') →
    p ≠ 0 ∧ p ∉ lw_pool w ∧ lw_pool w' = {[p]} ∪ lw_pool w ∧ lw_handles w' = lw_handles w;
  alloc_none n w w' : AllocPool n w = (None, w') → lw_pool w' = lw_pool w ∧ lw_handles w' = lw_handles w;
  duplicate_some l w p w' : DuplicateDevicePath l w = (Some p, w') →
    p ∉ lw_pool w ∧ lw_pool w' = {[p]} ∪ lw_pool w ∧ lw_handles w' = lw_handles w;
  release p w : lw_pool (ReleasePool p w) = lw_pool w ∖ {[p]} ∧ lw_handles (ReleasePool p w) = lw_handles w;
  volume_spec h w st fh w' : OpenVolume h w = (st, fh, w') → EFI_ERROR st = false →
    lw_pool w' = lw_pool w ∧ fh ∉ lw_handles w ∧ lw_handles w' = {[fh]} ∪ lw_handles w;
  open_spec h name w st fh w' : FileOpen h name w = (st, fh, w') → EFI_ERROR st = false →
    lw_pool w' = lw_pool w ∧ fh ∉ lw_handles w ∧ lw_handles w' = {[fh]} ∪ lw_handles w;
  close_spec h w : lw_pool (FileClose h w) = lw_pool w ∧ lw_handles (FileClose h w) = lw_handles w ∖ {[h]};
  read_spec h n w st k b w' : FileRead h n w = (st, k, b, w') → lw_pool w' = lw_pool w ∧ lw_handles w' = lw_handles w;
  orig_spec bp par path src n w st h w' : OrigLoadImage bp par path src n w = (st, h, w') →
    lw_pool w ⊆ lw_pool w' ∧ lw_handles w' = lw_handles w
}.

Section Resources.
Context {W : Type} `{LoadLaws W}.

Lemma bind_lift {A B} (f : W → A * W) (k : A → M W B) w : (lift f ≫= k) w = let '(a, w') := f w in k a w'.
Proof. done. Qed.

(** An error stays one to the end of the path. *)
Lemma walk_error path st fh w r w' : EFI_ERROR st = true → walk path st fh w = Some (r, w') → EFI_ERROR r.1 = true.
Proof.
  intros He. destruct path as [|n path]; cbn [walk]; [by intros [= <- <-]|]. destruct (is_file n); [rewrite He|]; by intros [= <- <-].
Qed.

(** Walking down a path trades one open handle for another. *)
Lemma walk_handles path : ∀ st fh w st' fh' w' X, EFI_ERROR st = false → walk path st fh w = Some ((st', fh'), w') → EFI_ERROR st' = false →
  fh ∉ X → lw_handles w = {[fh]} ∪ X → lw_pool w' = lw_pool w ∧ fh' ∉ X ∧ lw_handles w' = {[fh']} ∪ X.
Proof.
  induction path as [|n path IH]; intros st fh w st' fh' w' X Hst; cbn [walk]; [by intros [= <- <- <-]|].
  destruct (is_file n); [rewrite Hst|by intros [= <- <- <-]]. intros E Hst' Hfh Hh. rewrite bind_lift in E.
  destruct (FileOpen fh (dp_PathName n) w) as [[st1 fh1] w1] eqn:Eo. rewrite bind_modify in E. cbn [fst snd] in E.
  destruct (EFI_ERROR st1) eqn:E1; [exfalso; eapply walk_error in E; [|exact E1]; cbn [fst] in E; congruence|].
  destruct (open_spec _ _ _ _ _ _ Eo E1) as (Hp & Hn & Hh1). destruct (close_spec fh w1) as [Hcp Hch].
  destruct (IH _ _ _ _ _ _ X E1 E Hst') as (Hp' & Hn' & Hh'); [|rewrite Hch, Hh1, Hh; apply set_swap; [done|by rewrite <- Hh]|by rewrite Hp', Hcp, Hp].
  rewrite Hh in Hn. by apply not_elem_of_union in Hn as [_ Hn].
Qed.

(** A file that was read: its buffer is the only thing that stays allocated. *)
Lemma read_content_balanced fh st size s w s' w' X Y : FileInfo s ≠ 0 → FileInfo s ∉ Y →
  read_content fh st size s w = Some ((Break, s'), w') → SourceBuffer s = None → is_Some (SourceBuffer s') →
  fh ∉ X → lw_handles w = {[fh]} ∪ X → lw_pool w = {[FileInfo s]} ∪ Y →
  ∃ a buf, SourceBuffer s' = Some (a, buf) ∧ FreeSourceBuffer s' = true ∧ FileInfo s' = 0 ∧ a ∉ Y ∧ lw_pool w' = {[a]} ∪ Y ∧ lw_handles w' = X.
Proof.
  intros Hi HiY E Hs Hs' Hfh Hh Hp. unfold read_content in E. destruct (EFI_ERROR st); [done|]. destruct (Z.eqb_spec (FileInfo s) 0); [done|].
  rewrite bind_lift in E. destruct (AllocPool size w) as [[a|] w1] eqn:Ea; [|injection E as <- <-; rewrite Hs in Hs'; by destruct Hs']. destruct (alloc_some _ _ _ _ Ea) as (Ha0 & Ha & Hpa & Hha).
  rewrite bind_lift in E. destruct (FileRead fh size w1) as [[[st1 k] b] w2] eqn:Er. rewrite !bind_modify in E. injection E as <- <-. destruct (read_spec _ _ _ _ _ _ _ Er) as [Hpr Hhr].
  destruct (close_spec fh w2) as [Hcp Hch]. destruct (release (FileInfo s) (FileClose fh w2)) as [Hrp Hrh].
  exists a, b. split; [done|]. split; [done|]. split; [done|]. rewrite Hp in Ha. rewrite Hrp, Hrh, Hcp, Hch, Hpr, Hhr, Hpa, Hha, Hp, Hh.
  split; [by apply not_elem_of_union in Ha as [_ Ha]|]. split; [by apply set_swap|by apply set_drop_new].
Qed.

Lemma read_file_balanced fh s w s' w' X : read_file fh s w = Some ((Break, s'), w') → SourceBuffer s = None → is_Some (SourceBuffer s') →
  fh ∉ X → lw_handles w = {[fh]} ∪ X →
  ∃ a buf, SourceBuffer s' = Some (a, buf) ∧ FreeSourceBuffer s' = true ∧ FileInfo s' = 0 ∧ a ∉ lw_pool w ∧
    lw_pool w' = {[a]} ∪ lw_pool w ∧ lw_handles w' = X.
Proof.
  intros E Hs Hs' Hfh Hh. unfold read_file in E. rewrite bind_gets in E. destruct (FileGetInfo fh 0 w) as [[st size] x]. case_bool_decide.
  2: { exfalso. unfold read_content in E. destruct (EFI_ERROR st); [done|]. done. }
  rewrite bind_lift in E. destruct (AllocPool _ w) as [[p|] w1] eqn:Ea; [|injection E as <- <-; cbn [set_FileInfo SourceBuffer] in Hs'; rewrite Hs in Hs'; by destruct Hs'].
  destruct (alloc_some _ _ _ _ Ea) as (Hp0 & Hp & Hpp & Hph). rewrite bind_gets in E. destruct (FileGetInfo fh _ w1) as [[st1 x1] fs].
  eapply (read_content_balanced fh st1 fs (set_FileInfo p (set_FileInfo 0 s)) w1 s' w' X (lw_pool w)); try done. by rewrite Hph.
Qed.

(** A file that was found in a file system. *)
Lemma file_system_balanced path s w s' w' : from_file_system path s w = Some ((Break, s'), w') → SourceBuffer s = None → is_Some (SourceBuffer s') →
  ∃ a buf, SourceBuffer s' = Some (a, buf) ∧ FreeSourceBuffer s' = true ∧ FileInfo s' = 0 ∧ a ∉ lw_pool w ∧
    lw_pool w' = {[a]} ∪ lw_pool w ∧ lw_handles w' = lw_handles w.
Proof.
  intros E Hs Hs'. unfold from_file_system in E. rewrite bind_gets in E. destruct (LocateDevicePath _ _ w) as [[st rest] h]. destruct (EFI_ERROR st); [done|].
  rewrite bind_gets in E. destruct (EFI_ERROR (HandleProtocol _ _ w)); [done|]. rewrite bind_lift in E.
  destruct (OpenVolume h w) as [[st1 fh] w1] eqn:Ev. destruct (EFI_ERROR st1) eqn:E1; [done|]. destruct (volume_spec _ _ _ _ _ Ev E1) as (Hp1 & Hn1 & Hh1).
  rewrite bind_lift in E. destruct (DuplicateDevicePath rest w1) as [[d|] w2] eqn:Ed; [|done]. destruct (duplicate_some _ _ _ _ Ed) as (Hd & Hp2 & Hh2).
  apply M_bind_Some in E as ([st2 fh2] & w3 & Ew & E). apply M_bind_Some in Ew as (r & w4 & Ew & E4). rewrite bind_modify in E4. injection E4 as -> <-.
  cbn [fst snd] in E. destruct (EFI_ERROR st2) eqn:E2; [done|]. rewrite Hh1 in Hh2.
  destruct (walk_handles _ _ _ _ _ _ _ (lw_handles w) E1 Ew E2 Hn1 Hh2) as (Hp4 & Hn4 & Hh4). destruct (release d w4) as [Hpr Hhr].
  assert (lw_pool (ReleasePool d w4) = lw_pool w) as Hpool by (rewrite Hpr, Hp4, Hp2, <- Hp1; by apply set_drop_new).
  rewrite <- Hpool. eapply read_file_balanced; try done. by rewrite Hhr.
Qed.

Definition locals0 (junk n : Z) : Locals := {|
  SourceBuffer := None; SourceSize := n; FreeSourceBuffer := false; FileInfo := junk; RemainingDevicePath := None; DeviceHandle := 0 |}.

(** What is passed to the firmware, and the pool while it runs. *)
Lemma choose_part_pool cpu s w a buf r w' : SourceBuffer s = Some (a, buf) → choose_part cpu s w = Some (Some r, w') →
  lw_handles w' = lw_handles w ∧ is_Some r.1.1 ∧
  match r.2 with Some p => p ∉ lw_pool w ∧ lw_pool w' = {[p]} ∪ lw_pool w | None => lw_pool w' = lw_pool w end.
Proof.
  intros Hs. unfold choose_part. rewrite Hs. intros E. apply M_bind_Some in E as (magic & w1 & Em & E). unfold need in Em. destruct (u32 buf 0); [|done]. injection Em as -> <-.
  destruct (magic =? FAT_BINARY_MAGIC); [|injection E as <- <-; by split; [|split; [eexists|]]].
  apply M_bind_Some in E as (part & w1 & Em & E). unfold need in Em. destruct (fat_part cpu buf); [|done]. injection Em as -> <-. rewrite bind_lift in E.
  destruct (AllocPool _ w) as [[p|] w1] eqn:Ea; [|done]. destruct (alloc_some _ _ _ _ Ea) as (_ & Hp & Hpp & Hph).
  apply M_bind_Some in E as (bytes & w2 & Em & E). unfold need in Em. destruct (ram_get _ _ _); [|done]. injection Em as -> <-. injection E as <- <-.
  split; [done|]. split; [by eexists|done].
Qed.

(** C25. A file that the override reads from a file system, fat or not, is loaded without
    leaks: until the device of the image is corrected, the open files are those from before,
    and the pool is the one from before together with what the firmware's LoadImage itself
    has allocated. *)
Theorem file_load_balanced cpu junk bp par path n s w1 w st h w' :
  from_file_system path (locals0 junk n) w = Some ((Break, s), w1) → is_Some (SourceBuffer s) →
  OvrLoadImage cpu junk bp par (Some path) None n w = Some ((st, Some h), w') →
  ∃ src k a w2 w3 w4, choose_part cpu s w1 = Some (Some (Some src, k, a), w2) ∧ OrigLoadImage bp par (Some path) (Some src) k w2 = (st, h, w3) ∧
    lw_handles w4 = lw_handles w ∧ lw_pool w4 = lw_pool w ∪ (lw_pool w3 ∖ lw_pool w2) ∧ fix_device st h s w4 = Some (tt, w').
Proof.
  intros Ef Hs E. destruct (file_system_balanced _ _ _ _ _ Ef eq_refl Hs) as (a & buf & Hb & Hfree & Hinfo & Ha & Hp1 & Hh1).
  unfold OvrLoadImage, find_source in E. cbn [SourceBuffer] in E. fold (locals0 junk n) in E. apply M_bind_Some in E as ([e s'] & w1' & Eb & E).
  rewrite (bind_eq _ _ _ _ _ Ef) in Eb. cbn [fst] in Eb. injection Eb as <- <- <-.
  apply M_bind_Some in E as (c & w2 & Ec & E). destruct c as [[[src k] p]|]; [|done].
  destruct (choose_part_pool _ _ _ _ _ _ _ Hb Ec) as (Hh2 & [bytes Hsrc] & Hp2). cbn [fst snd] in Hsrc, Hp2. subst src.
  rewrite bind_lift in E. destruct (OrigLoadImage _ _ _ _ _ w2) as [[st3 h3] w3] eqn:Eo. destruct (orig_spec _ _ _ _ _ _ _ _ _ Eo) as [Hp3 Hh3].
  rewrite Hfree, Hb, Hinfo in E. cbn [fmap option_fmap option_map fst free_opt Z.eqb] in E.
  apply M_bind_Some in E as ([] & w5 & E5 & E). rewrite bind_modify, bind_ret in E. destruct (release a w5) as [Hpa Hha].
  apply M_bind_Some in E as ([] & w6 & E6 & E). injection E as -> -> <-.
  exists bytes, k, p, w2, w3, (ReleasePool a w5). split; [done|]. split; [done|].
  assert (lw_handles w5 = lw_handles w3 ∧ lw_pool w5 = match p with Some p => lw_pool w3 ∖ {[p]} | None => lw_pool w3 end) as [Hh5 Hp5].
  { destruct p as [p|]; injection E5 as <-; [|done]. destruct (release p w3). done. }
  split; [congruence|]. split; [|exact E6]. rewrite Hpa, Hp5. clear - Hp1 Hp2 Hp3 Ha.
  assert (∃ N, N ## lw_pool w ∧ lw_pool w2 = lw_pool w ∪ N ∧ match p with Some p => lw_pool w3 ∖ {[p]} | None => lw_pool w3 end ∖ {[a]} = lw_pool w3 ∖ N) as (N & HN & HN2 & ->).
  { destruct p as [p|]; [exists {[a; p]}|exists {[a]}]; rewrite Hp1 in Hp2; [destruct Hp2 as [Hp2 Hp2']|]; (split; [set_solver|]); (split; [set_solver|]); [|done]. apply set_eq. intros y. clear. set_solver. }
  rewrite HN2 in Hp3 |- *. by apply set_between.
Qed.
End Resources.

(** ** Images in memory *)

(** A fat binary made of images for processors, one after the other behind the table. *)
Fixpoint place (off : Z) (l : list (Z * Z * list Z)) : list FAT_ARCH :=
  match l with
  | [] => []
  | (cpu, sub, image) :: l =>
      {| CpuType := cpu; CpuSubtype := sub; Offset := off; Size := Z.of_nat (length image); Align := 0 |} :: place (off + Z.of_nat (length image)) l
  end.

Definition fat_binary (l : list (Z * Z * list Z)) : list Z := fat_header (place (8 + 20 * Z.of_nat (length l)) l) ++ concat (snd <$> l).

(** The first image for the processor. *)
Definition image_for (cpu : Z) (l : list (Z * Z * list Z)) : option (list Z) :=
  snd ∘ snd <$> list_find (λ x, x.1 = (cpu, CPU_SUBTYPE_I386_ALL)) l.

Lemma length_place off l : length (place off l) = length l.
Proof. revert off. induction l as [|[[c s] im] l IH]; intros off; [done|]. cbn [place length]. by rewrite IH. Qed.

Lemma length_fat_header l : length (fat_header l) = (8 + 20 * length l)%nat.
Proof. unfold fat_header. rewrite !length_app, !length_le_put, length_archs. lia. Qed.

Lemma place_ok l : ∀ off, 0 ≤ off → off + Z.of_nat (length (concat (snd <$> l))) < 2 ^ 32 →
  Forall (λ x, 0 ≤ x.1.1 < 2 ^ 32 ∧ 0 ≤ x.1.2 < 2 ^ 32) l → Forall arch_ok (place off l).
Proof.
  induction l as [|[[c s] im] l IH]; intros off Ho Hl Hx; cbn [place]; [constructor|]. apply Forall_cons in Hx as [[Hc Hs] Hx]. cbn [fst snd] in Hc, Hs.
  cbn [fmap list_fmap concat snd] in Hl. rewrite length_app in Hl. constructor; [|apply IH; [lia|lia|done]].
  unfold arch_ok, arch_fields. cbn [CpuType CpuSubtype Offset Size Align]. rewrite !Forall_cons. split_and!; try lia; constructor.
Qed.

(** Where the table says it is, is the image. *)
Lemma place_first cpu l img : image_for cpu l = Some img → ∀ pre,
  ∃ a, first_for cpu (place (Z.of_nat (length pre)) l) = Some a ∧ Size a = Z.of_nat (length img) ∧ 0 ≤ Offset a ∧
    ram_get (pre ++ concat (snd <$> l)) (Offset a) (Size a) = Some img.
Proof.
  unfold image_for, first_for. induction l as [|[[c s] im] l IH]; [done|]. cbn [list_find place fst]. intros Hf pre.
  destruct (decide ((c, s) = (cpu, CPU_SUBTYPE_I386_ALL))) as [E|E].
  - injection E as -> ->. simpl in Hf. injection Hf as ->.
    exists {| CpuType := cpu; CpuSubtype := CPU_SUBTYPE_I386_ALL; Offset := Z.of_nat (length pre); Size := Z.of_nat (length img); Align := 0 |}. split.
    { rewrite decide_True by (unfold for_cpu; cbn [CpuType CpuSubtype]; by rewrite !Z.eqb_refl). reflexivity. }
    cbn [Size Offset]. split; [done|]. split; [lia|]. cbn [fmap list_fmap concat snd]. rewrite ram_get_ok by (rewrite ?length_app; lia).
    rewrite !Nat2Z.id. unfold slice. rewrite drop_app_length. by rewrite take_app_length.
  - rewrite decide_False by (unfold for_cpu; cbn [CpuType CpuSubtype]; intros [H1%Z.eqb_eq H2%Z.eqb_eq]%andb_true_iff; congruence).
    destruct (list_find _ l) as [[i x]|] eqn:El; [|done]. simpl in Hf. injection Hf as <-.
    destruct (IH eq_refl (pre ++ im)) as (a & Ha & Hs & Ho & Hr). rewrite length_app, Nat2Z.inj_add in Ha. exists a.
    destruct (list_find _ (place _ l)) as [[j y]|]; [|done]. simpl in Ha |- *. injection Ha as ->.
    split; [done|]. split; [done|]. split; [done|]. cbn [fmap list_fmap concat snd]. by rewrite app_assoc.
Qed.

Section Memory.
Context {W : Type} `{LoadServices W}.

Lemma choose_fat cpu s a buf off size bytes w p w1 : SourceBuffer s = Some (a, buf) → u32 buf 0 = Some FAT_BINARY_MAGIC →
  fat_part cpu buf = Some (off, size) → AllocPool size w = (Some p, w1) → ram_get buf off size = Some bytes →
  choose_part cpu s w = Some (Some (Some bytes, size, Some p), w1).
Proof.
  intros Hs Hm Hp Ha Hr. unfold choose_part. rewrite Hs. unfold mbind, M_bind, need, lift. rewrite Hm. cbn [fmap option_fmap option_map].
  rewrite Z.eqb_refl, Hp. cbn [fmap option_fmap option_map fst snd]. rewrite Ha. cbn [fmap option_fmap option_map]. by rewrite Hr.
Qed.

(** C24. Fat binaries and the override fit together: of a fat binary in memory, built from any
    images for processors, the firmware's LoadImage gets exactly the first image for the
    processor, with its size, and the status and the handle are the firmware's.  The buffer
    for the image is freed, and so is the value on the stack, unless that is zero. *)
Theorem fat_image_loaded cpu junk bp par path addr n l img w p w1 st h w2 :
  8 + 20 * Z.of_nat (length l) + Z.of_nat (length (concat (snd <$> l))) < 2 ^ 32 →
  Forall (λ x, 0 ≤ x.1.1 < 2 ^ 32 ∧ 0 ≤ x.1.2 < 2 ^ 32) l → image_for cpu l = Some img →
  AllocPool (Z.of_nat (length img)) w = (Some p, w1) →
  OrigLoadImage bp par path (Some img) (Z.of_nat (length img)) w1 = (st, h, w2) →
  OvrLoadImage cpu junk bp par path (Some (addr, fat_binary l)) n w =
    Some ((st, Some h), (if junk =? 0 then id else ReleasePool junk) (ReleasePool p w2)).
Proof.
  intros Hl Hx Hi Ha Ho. set (off := 8 + 20 * Z.of_nat (length l)) in *.
  assert (Forall arch_ok (place off l)) as Hok by (apply place_ok; [unfold off; lia|lia|done]).
  destruct (fat_part_spec cpu (place off l) (concat (snd <$> l)) Hok) as [Hm Hp]; [rewrite length_place; unfold off in Hl; lia|].
  destruct (place_first cpu l img Hi (fat_header (place off l))) as (a & Hf & Hs & Hoff & Hr).
  rewrite length_fat_header, length_place in Hf. replace (Z.of_nat (8 + 20 * length l)) with off in Hf by (unfold off; lia).
  rewrite Hf in Hp. change (fat_header (place off l) ++ concat (snd <$> l)) with (fat_binary l) in Hm, Hp, Hr.
  rewrite Hs in Hp, Hr. unfold OvrLoadImage, find_source. cbn [SourceBuffer]. rewrite bind_ret.
  erewrite bind_eq by (by eapply choose_fat; [reflexivity|exact Hm|exact Hp|exact Ha|exact Hr]).
  cbn beta iota. rewrite bind_lift, Ho. cbn [free_opt FreeSourceBuffer FileInfo]. rewrite bind_modify, bind_ret.
  destruct (junk =? 0); rewrite ?bind_ret, ?bind_modify; unfold fix_device; cbn [DeviceHandle Z.eqb negb]; by rewrite andb_false_r.
Qed.

(** The override frees a variable that was never set: whenever an image is loaded from
    memory, the value that happens to be on the stack is freed, so a pool buffer of somebody
    else at that address is lost. *)
Theorem stack_value_freed `{!LoadLaws W} cpu junk bp par path src n w st h w' : junk ≠ 0 →
  OvrLoadImage cpu junk bp par path (Some src) n w = Some ((st, Some h), w') → junk ∉ lw_pool w'.
Proof.
  intros Hj E. unfold OvrLoadImage, find_source in E. cbn [SourceBuffer] in E. rewrite bind_ret in E. apply M_bind_Some in E as (c & w1 & Ec & E).
  destruct c as [[[b k] p]|]; [|done]. apply M_bind_Some in E as ([st1 h1] & w2 & _ & E). apply M_bind_Some in E as ([] & w3 & _ & E).
  cbn [FreeSourceBuffer FileInfo] in E. rewrite bind_ret in E. destruct (Z.eqb_spec junk 0); [done|]. rewrite bind_modify in E.
  unfold fix_device in E. cbn [DeviceHandle Z.eqb negb] in E. rewrite andb_false_r, bind_ret in E. injection E as _ _ <-.
  rewrite (proj1 (release junk w3)). set_solver.
Qed.

(** A fat binary without an image for the processor that ends with its table: the override
    reads behind the buffer. *)
Theorem no_image_overrun cpu junk bp par path addr l n w : Forall arch_ok l → Z.of_nat (length l) < 2 ^ 32 → first_for cpu l = None →
  OvrLoadImage cpu junk bp par path (Some (addr, fat_header l)) n w = None.
Proof.
  intros Hok Hl Hf. destruct (fat_part_spec cpu l [] Hok Hl) as [Hm Hp]. rewrite app_nil_r, Hf in *.
  unfold OvrLoadImage, find_source. cbn [SourceBuffer]. rewrite bind_ret. unfold choose_part. cbn [SourceBuffer].
  unfold mbind, M_bind, need. rewrite Hm. cbn [fmap option_fmap option_map]. rewrite Z.eqb_refl, Hp. done.
Qed.
End Memory.
