(* ===== verification/FatBinaryDemo.v ===== *)
(** * OsxFatBinaryDrv: a firmware with one file, witnesses and examples *)

From Stdlib Require Import ZArith Lia.
From stdpp Require Import base list gmap strings.
From S2P Require Import Prelude BootFixes StartImage FatBinary FatBinaryTheorems.

Open Scope Z_scope.

(** The pool, the open files, the file's content, the allocations that still succeed, the
    status of reading, and what LoadImage was called with. *)
Record Disk1 := {
  d1_pool : gset Z; d1_handles : gset Z; d1_file : list Z; d1_allocs : nat; d1_read : EFI_STATUS; d1_loaded : option (list Z * Z); d1_device : Z
}.

Definition d1_set (p h : gset Z) (n : nat) (w : Disk1) : Disk1 := {|
  d1_pool := p; d1_handles := h; d1_file := d1_file w; d1_allocs := n; d1_read := d1_read w; d1_loaded := d1_loaded w; d1_device := d1_device w |}.

Definition d1_alloc (w : Disk1) : option Z * Disk1 :=
  match d1_allocs w with
  | O => (None, w)
  | S n => let p := fresh ({[0]} ∪ d1_pool w) in (Some p, d1_set ({[p]} ∪ d1_pool w) (d1_handles w) n w)
  end.

Definition d1_open (w : Disk1) : EFI_STATUS * Z * Disk1 :=
  let h := fresh (d1_handles w) in (EFI_SUCCESS, h, d1_set (d1_pool w) ({[h]} ∪ d1_handles w) (d1_allocs w) w).

#[global] Instance Disk1_services : LoadServices Disk1 := {
  LocateDevicePath g path w := match g with SimpleFileSystem => (EFI_SUCCESS, path, 7) | LoadFileProtocol => (EFI_NOT_FOUND, path, 0) end;
  HandleProtocol g h w := EFI_SUCCESS;
  OpenVolume h w := d1_open w;
  FileOpen h name w := d1_open w;
  FileClose h w := d1_set (d1_pool w) (d1_handles w ∖ {[h]}) (d1_allocs w) w;
  FileGetInfo h n w := if n <? 80 then (EFI_BUFFER_TOO_SMALL, 80, 0) else (EFI_SUCCESS, 80, Z.of_nat (length (d1_file w)));
  FileRead h n w := (d1_read w, n, d1_file w, w);
  LoadFile h path bp n has w := (EFI_NOT_FOUND, n, [], w);
  DuplicateDevicePath path w := d1_alloc w;
  AllocPool n w := d1_alloc w;
  ReleasePool p w := d1_set (d1_pool w ∖ {[p]}) (d1_handles w) (d1_allocs w) w;
  OrigLoadImage bp par path src n w := (EFI_SUCCESS, 99, {|
    d1_pool := d1_pool w; d1_handles := d1_handles w; d1_file := d1_file w; d1_allocs := d1_allocs w; d1_read := d1_read w;
    d1_loaded := (λ b, (b, n)) <$> src; d1_device := d1_device w |});
  ImageDevice h w := (EFI_SUCCESS, d1_device w);
  SetImageDevice h dev path w := {|
    d1_pool := d1_pool w; d1_handles := d1_handles w; d1_file := d1_file w; d1_allocs := d1_allocs w; d1_read := d1_read w;
    d1_loaded := d1_loaded w; d1_device := dev |}
}.

#[global, program] Instance Disk1_laws : LoadLaws Disk1 := { lw_pool := d1_pool; lw_handles := d1_handles }.
Next Obligation.
  intros n w p w'. simpl. unfold d1_alloc. destruct (d1_allocs w); [done|]. intros [= <- <-].
  pose proof (is_fresh ({[0]} ∪ d1_pool w)) as Hf. split; [|split; [|done]]; set_solver.
Qed.
Next Obligation. intros n w w'. simpl. unfold d1_alloc. destruct (d1_allocs w); by intros [= <-]. Qed.
Next Obligation.
  intros l w p w'. simpl. unfold d1_alloc. destruct (d1_allocs w); [done|]. intros [= <- <-].
  pose proof (is_fresh ({[0]} ∪ d1_pool w)) as Hf. split; [set_solver|done].
Qed.
Next Obligation. done. Qed.
Next Obligation. intros h w st fh w' [= <- <- <-] _. simpl. split; [done|]. split; [apply is_fresh|done]. Qed.
Next Obligation. intros h name w st fh w' [= <- <- <-] _. simpl. split; [done|]. split; [apply is_fresh|done]. Qed.
Next Obligation. done. Qed.
Next Obligation. by intros h n w st k b w' [= <- <- <- <-]. Qed.
Next Obligation. by intros bp par path src n w st h w' [= <- <- <-]. Qed.

Definition disk1 (file : list Z) (allocs : nat) (read : EFI_STATUS) : Disk1 := {|
  d1_pool := {[500]}; d1_handles := ∅; d1_file := file; d1_allocs := allocs; d1_read := read; d1_loaded := None; d1_device := 7 |}.

(** Images for both processors. *)
Definition images : list (Z * Z * list Z) :=
  [(CPU_TYPE_X86, CPU_SUBTYPE_I386_ALL, [1; 2; 3]); (CPU_TYPE_X86_64, CPU_SUBTYPE_I386_ALL, [4; 5; 6; 7])].

Definition file_path : list Node :=
  [{| dp_Type := 4; dp_SubType := 4; dp_PathName := str_bytes "\efi" ++ [0] |}; {| dp_Type := 4; dp_SubType := 4; dp_PathName := str_bytes "a.efi" ++ [0] |}].

Lemma fat_image_loaded_witness :
  (λ r, (r.1, d1_loaded r.2)) <$> OvrLoadImage CPU_TYPE_X86_64 0 false 1 None (Some (4096, fat_binary images)) 100 (disk1 [] 5 EFI_SUCCESS)
    = Some ((EFI_SUCCESS, Some 99), Some ([4; 5; 6; 7], 4)).
Proof.
  rewrite (fat_image_loaded CPU_TYPE_X86_64 0 false 1 None 4096 100 images [4; 5; 6; 7] (disk1 [] 5 EFI_SUCCESS) _ _ _ _ _ ltac:(vm_compute; reflexivity)
    ltac:(repeat constructor; vm_compute; congruence) eq_refl eq_refl eq_refl). reflexivity.
Defined.

Lemma file_load_balanced_witness :
  let w := disk1 (fat_binary images) 9 EFI_SUCCESS in
  ∃ s w', OvrLoadImage CPU_TYPE_X86 3 false 1 (Some file_path) None 0 w = Some ((EFI_SUCCESS, Some 99), w') ∧ d1_loaded w' = Some ([1; 2; 3], 3) ∧
    ∃ w2 w3 w4, lw_handles w4 = lw_handles w ∧ lw_pool w4 = lw_pool w ∪ (lw_pool w3 ∖ lw_pool w2) ∧ fix_device EFI_SUCCESS 99 s w4 = Some (tt, w').
Proof.
  intros w.
  assert (∃ s w1, from_file_system file_path (locals0 3 0) w = Some ((Break, s), w1) ∧ is_Some (SourceBuffer s)) as (s & w1 & Ef & Hs)
    by (eexists _, _; split; [vm_compute; reflexivity|by eexists]).
  assert (∃ w', OvrLoadImage CPU_TYPE_X86 3 false 1 (Some file_path) None 0 w = Some ((EFI_SUCCESS, Some 99), w') ∧ d1_loaded w' = Some ([1; 2; 3], 3)) as (w' & E & Hl)
    by (eexists; split; [vm_compute; reflexivity|reflexivity]).
  exists s, w'. split; [exact E|]. split; [exact Hl|].
  destruct (file_load_balanced _ _ _ _ _ _ s w1 _ _ _ _ Ef Hs E) as (src & k & a & w2 & w3 & w4 & _ & _ & Hh & Hp & Hfix).
  exists w2, w3, w4. split; [exact Hh|]. split; [exact Hp|exact Hfix].
Defined.

(** The buffer at 500 belongs to somebody else. *)
Lemma stack_value_freed_witness :
  500 ∈ lw_pool (disk1 [] 5 EFI_SUCCESS) ∧
  ∃ w', OvrLoadImage CPU_TYPE_X86_64 500 false 1 None (Some (4096, [77; 90; 0; 0])) 4 (disk1 [] 5 EFI_SUCCESS) = Some ((EFI_SUCCESS, Some 99), w') ∧
    500 ∉ lw_pool w'.
Proof.
  split; [vm_compute; reflexivity|].
  assert (∃ w', OvrLoadImage CPU_TYPE_X86_64 500 false 1 None (Some (4096, [77; 90; 0; 0])) 4 (disk1 [] 5 EFI_SUCCESS) = Some ((EFI_SUCCESS, Some 99), w')) as [w' E]
    by (eexists; vm_compute; reflexivity).
  exists w'. split; [exact E|]. exact (stack_value_freed CPU_TYPE_X86_64 500 false 1 None _ 4 _ _ _ w' ltac:(lia) E).
Defined.

Lemma no_image_overrun_witness :
  OvrLoadImage CPU_TYPE_X86_64 0 false 1 None
    (Some (4096, fat_header [{| CpuType := 18; CpuSubtype := 0; Offset := 28; Size := 0; Align := 0 |}])) 28 (disk1 [] 5 EFI_SUCCESS) = None.
Proof.
  apply (no_image_overrun CPU_TYPE_X86_64 0 false 1 None 4096 _ 28); [|vm_compute; reflexivity|reflexivity].
  repeat constructor; vm_compute; congruence.
Defined.

(** A failed read is not noticed: whatever is in the buffer is loaded. *)
Example failed_read_loaded :
  (λ r, (r.1, d1_loaded r.2)) <$> OvrLoadImage CPU_TYPE_X86_64 0 false 1 (Some file_path) None 0 (disk1 [9; 9; 9; 9] 9 EFI_DEVICE_ERROR)
    = Some ((EFI_SUCCESS, Some 99), Some ([9; 9; 9; 9], 4)).
Proof. vm_compute. reflexivity. Qed.

(** Without memory for the part, the buffer with the file stays allocated. *)
Example source_leaked :
  (λ r, (r.1, size (d1_pool r.2))) <$> OvrLoadImage CPU_TYPE_X86_64 0 false 1 (Some file_path) None 0 (disk1 (fat_binary images) 3 EFI_SUCCESS)
    = Some ((EFI_OUT_OF_RESOURCES, None), 2%nat).
Proof. vm_compute. reflexivity. Qed.

(** A node that is not a file name ends the walk with the directory still open. *)
Example handle_leaked :
  (λ r, (r.1, size (d1_handles r.2))) <$>
    OvrLoadImage CPU_TYPE_X86_64 0 false 1 (Some (file_path ++ [{| dp_Type := 4; dp_SubType := 8; dp_PathName := [] |}])) None 0 (disk1 [9; 9; 9; 9] 9 EFI_SUCCESS)
    = Some ((EFI_SUCCESS, Some 99), 1%nat).
Proof. vm_compute. reflexivity. Qed.
