(* ===== verification/KeyAggregator.v ===== *)
(** * AppleKeyAggregator: the keys that are pressed (AppleKeyAggregator.c)

    Keyboard drivers create buffers in a database and write the pressed keys into them; the
    aggregator reads all buffers at once and compares them with a key stroke.  The database
    is the list of its buffers; arrays are lists of 16-bit words, and an access outside an
    array has no result.  Whether memory is found is an argument; the pointers to the
    protocol and to scalar results are not NULL, an array may be. *)

From Stdlib Require Import ZArith Lia.
From stdpp Require Import base list sorting.
From S2P Require Import Prelude.

Open Scope Z_scope.

(** ** Data *)

(** A buffer of key strokes; [Keys] is all the memory from the field Keys to the end of the
    allocation. *)
Record APPLE_KEY_STROKES_INFO := { Index : Z; KeyBufferSize : Z; NumberOfKeys : Z; Modifiers : Z; Keys : list Z }.

(** [KeyBuffer] is the memory of the array, NULL at first. *)
Record APPLE_KEY_MAP_AGGREGATOR := {
  NextKeyStrokeIndex : Z; KeyBuffer : option (list Z); KeyBuffersSize : Z; KeyStrokesInfoList : list APPLE_KEY_STROKES_INFO
}.

(** The size of the structure and the offset of its field Keys. *)
Definition sizeof_APPLE_KEY_STROKES_INFO : Z := 64.
Definition offset_Keys : Z := 56.
Definition sizeof_APPLE_KEY_CODE : Z := 2.

(** [AllocateZeroPool] of [n] bytes, seen as words. *)
Definition zero_words (n : Z) : list Z := replicate (Z.to_nat (n / sizeof_APPLE_KEY_CODE)) 0.

(** ** Sorting *)

(** The inner loop: the word before [op] is exchanged with every smaller one of the [n]
    words from [ptr] on. *)
Fixpoint sort_inner (op ptr n : nat) (a : list Z) : option (list Z) :=
  match n with
  | O => Some a
  | S n =>
      FirstChild ← a !! (op - 1)%nat;
      x ← a !! ptr;
      sort_inner op (S ptr) n (if x <? FirstChild then <[ptr := FirstChild]> (<[(op - 1)%nat := x]> a) else a)
  end.

(** The outer loop; [NoRemaining] is what is left in it.  An inner loop over no words would
    not end. *)
Fixpoint sort_outer (NoChilds NoRemaining Index op : nat) (a : list Z) : option (list Z) :=
  a ← (if (Index <? NoChilds)%nat then (if (NoRemaining =? 0)%nat then None else sort_inner op op NoRemaining a) else Some a);
  match NoRemaining with
  | O => Some a
  | S r => sort_outer NoChilds r (S Index) (S op) a
  end.

Definition KeyMapBubbleSort (Operand : list Z) (NoChilds : nat) : option (list Z) :=
  match NoChilds with
  | O => Some Operand
  | S r => sort_outer NoChilds r 1 1 Operand
  end.

Section Aggregator.
(** The word behind the head of the list, which is where the field Index would be if the
    head was a buffer: the first field of the database protocol, its revision. *)
Context (head_Index : Z).

(** ** The database *)

(** The position of the buffer.  The search compares an entry before it looks whether it is
    the head of the list, so it can end at the head. *)
Inductive Found := At (i : nat) | Head | Null.

Fixpoint KeyMapGetKeyStrokesByIndex (List : list APPLE_KEY_STROKES_INFO) (i : Z) : Found :=
  match List with
  | [] => if head_Index =? i then Head else Null
  | x :: l =>
      if Index x =? i then At 0
      else match KeyMapGetKeyStrokesByIndex l i with At n => At (S n) | r => r end
  end.

Definition set_list (l : list APPLE_KEY_STROKES_INFO) (g : APPLE_KEY_MAP_AGGREGATOR) : APPLE_KEY_MAP_AGGREGATOR := {|
  NextKeyStrokeIndex := NextKeyStrokeIndex g; KeyBuffer := KeyBuffer g; KeyBuffersSize := KeyBuffersSize g; KeyStrokesInfoList := l |}.

(** [mem1] and [mem2] say whether the two allocations succeed; a structure that is larger
    than its allocation is undefined. *)
Definition KeyMapCreateKeyStrokesBuffer (mem1 mem2 : bool) (size : Z) (g : APPLE_KEY_MAP_AGGREGATOR)
    : option (EFI_STATUS * option Z * APPLE_KEY_MAP_AGGREGATOR) :=
  let BufferSize := wrap64 (KeyBuffersSize g + size) in
  let g := {| NextKeyStrokeIndex := NextKeyStrokeIndex g; KeyBuffer := if mem1 then Some (zero_words BufferSize) else None;
              KeyBuffersSize := BufferSize; KeyStrokesInfoList := KeyStrokesInfoList g |} in
  if negb mem1 || negb mem2 then Some (EFI_OUT_OF_RESOURCES, None, g) else
  let bytes := wrap64 (sizeof_APPLE_KEY_STROKES_INFO + wrap64 (size * sizeof_APPLE_KEY_CODE)) in
  if bytes <? offset_Keys then None else
  let x := {| Index := NextKeyStrokeIndex g; KeyBufferSize := size; NumberOfKeys := 0; Modifiers := 0; Keys := zero_words (bytes - offset_Keys) |} in
  Some (EFI_SUCCESS, Some (Index x), {|
     NextKeyStrokeIndex := wrap64 (NextKeyStrokeIndex g + 1); KeyBuffer := KeyBuffer g; KeyBuffersSize := KeyBuffersSize g;
     KeyStrokesInfoList := KeyStrokesInfoList g ++ [x] |}).

(** The head of the list is no buffer: to use it as one is undefined. *)
Definition KeyMapRemoveKeyStrokesBuffer (i : Z) (g : APPLE_KEY_MAP_AGGREGATOR) : option (EFI_STATUS * APPLE_KEY_MAP_AGGREGATOR) :=
  match KeyMapGetKeyStrokesByIndex (KeyStrokesInfoList g) i with
  | Null => Some (EFI_NOT_FOUND, g)
  | Head => None
  | At n =>
      x ← KeyStrokesInfoList g !! n;
      Some (EFI_SUCCESS, {|
        NextKeyStrokeIndex := NextKeyStrokeIndex g; KeyBuffer := KeyBuffer g; KeyBuffersSize := wrap64 (KeyBuffersSize g - KeyBufferSize x);
        KeyStrokesInfoList := delete n (KeyStrokesInfoList g) |})
  end.

(** [CopyMem] of [n] words to the start of an array. *)
Definition copy_words (n : Z) (src dst : list Z) : option (list Z) :=
  if (n <=? Z.of_nat (length src)) && (n <=? Z.of_nat (length dst)) then Some (take (Z.to_nat n) src ++ drop (Z.to_nat n) dst) else None.

Definition KeyMapSetKeyStrokeBufferKeys (i mods n : Z) (keys : option (list Z)) (g : APPLE_KEY_MAP_AGGREGATOR)
    : option (EFI_STATUS * APPLE_KEY_MAP_AGGREGATOR) :=
  match keys with
  | None => Some (EFI_INVALID_PARAMETER, g)
  | Some keys =>
      match KeyMapGetKeyStrokesByIndex (KeyStrokesInfoList g) i with
      | Null => Some (EFI_NOT_FOUND, g)
      | Head => None
      | At p =>
          x ← KeyStrokesInfoList g !! p;
          if n <=? KeyBufferSize x then
            ks ← copy_words n keys (Keys x);
            Some (EFI_SUCCESS, set_list (<[p := {| Index := Index x; KeyBufferSize := KeyBufferSize x; NumberOfKeys := n; Modifiers := mods; Keys := ks |}]>
              (KeyStrokesInfoList g)) g)
          else Some (EFI_OUT_OF_RESOURCES, g)
      end
  end.

(** ** The aggregator *)

(** A key is stored behind the first [n] words of the array if it is not among them. *)
Definition add_key (key : Z) (b : list Z * nat) : option (list Z * nat) :=
  let '(buf, n) := b in
  if bool_decide (key ∈ take n buf) then Some (buf, n)
  else if (n <? length buf)%nat then Some (<[n := key]> buf, S n) else None.

Fixpoint add_keys (keys : list Z) (b : list Z * nat) : option (list Z * nat) :=
  match keys with
  | [] => Some b
  | k :: keys => b ← add_key k b; add_keys keys b
  end.

(** The keys of a buffer. *)
Definition pressed (x : APPLE_KEY_STROKES_INFO) : option (list Z) :=
  if NumberOfKeys x <=? Z.of_nat (length (Keys x)) then Some (take (Z.to_nat (NumberOfKeys x)) (Keys x)) else None.

(** The loop over the buffers. *)
Fixpoint collect (l : list APPLE_KEY_STROKES_INFO) (mods : Z) (b : list Z * nat) : option (Z * (list Z * nat)) :=
  match l with
  | [] => Some (mods, b)
  | x :: l => ks ← pressed x; b ← add_keys ks b; collect l (Z.lor mods (Modifiers x)) b
  end.

(** What the caller gets: the status, the flags if they are set, the number of keys and its
    array. *)
Record KeyState := { ks_status : EFI_STATUS; ks_flags : option Z; ks_count : Z; ks_keys : option (list Z) }.

(** The array NULL has no words. *)
Definition set_buffer (buf : list Z) (g : APPLE_KEY_MAP_AGGREGATOR) : APPLE_KEY_MAP_AGGREGATOR := {|
  NextKeyStrokeIndex := NextKeyStrokeIndex g; KeyBuffer := (λ _, buf) <$> KeyBuffer g; KeyBuffersSize := KeyBuffersSize g;
  KeyStrokesInfoList := KeyStrokesInfoList g |}.

Definition ReadKeyState (count : Z) (keys : option (list Z)) (g : APPLE_KEY_MAP_AGGREGATOR) : option (KeyState * APPLE_KEY_MAP_AGGREGATOR) :=
  match KeyStrokesInfoList g with
  | [] => Some ({| ks_status := EFI_SUCCESS; ks_flags := Some 0; ks_count := 0; ks_keys := keys |}, g)
  | l =>
      r ← collect l 0 (default [] (KeyBuffer g), O);
      let '(mods, (buf, n)) := r in
      let g := set_buffer buf g in
      if count <? Z.of_nat n then Some ({| ks_status := EFI_BUFFER_TOO_SMALL; ks_flags := None; ks_count := Z.of_nat n; ks_keys := keys |}, g)
      else
        ks ← match keys with None => Some None | Some d => Some <$> copy_words (Z.of_nat n) buf d end;
        Some ({| ks_status := EFI_SUCCESS; ks_flags := Some mods; ks_count := Z.of_nat n; ks_keys := ks |}, g)
  end.

Definition DB_KEYS_NUM : nat := 8.

(** The loop without exact match: it succeeds with the first key, and stops at the first
    that is not pressed. *)
Fixpoint search_loop (n : nat) (keys db : list Z) (Status : EFI_STATUS) : option EFI_STATUS :=
  match n, keys with
  | O, _ => Some Status
  | S _, [] => None
  | S n, k :: keys => if bool_decide (k ∈ db) then search_loop n keys db EFI_SUCCESS else Some Status
  end.

(** [junk] is the array on the stack.  The result includes the caller's keys, which may get
    sorted. *)
Definition SearchKeyStroke (junk : list Z) (ModifyFlags PressedKeyCount : Z) (keys : option (list Z)) (ExactMatch : bool)
    (g : APPLE_KEY_MAP_AGGREGATOR) : option (EFI_STATUS * option (list Z) * APPLE_KEY_MAP_AGGREGATOR) :=
  match keys with
  | None => Some (EFI_INVALID_PARAMETER, keys, g)
  | Some ks =>
      if PressedKeyCount =? 0 then Some (EFI_NOT_FOUND, keys, g) else
      r ← ReadKeyState (Z.of_nat DB_KEYS_NUM) (Some junk) g;
      let '(r, g) := r in
      if EFI_ERROR (ks_status r) then Some (ks_status r, keys, g) else
      DbModifiers ← ks_flags r;
      DbKeys ← ks_keys r;
      let DbNoKeys := ks_count r in
      if ExactMatch then
        if (DbModifiers =? ModifyFlags) && (DbNoKeys =? PressedKeyCount) then
          if Z.of_nat (length ks) <? PressedKeyCount then None else
          ks ← KeyMapBubbleSort ks (Z.to_nat PressedKeyCount);
          db ← KeyMapBubbleSort DbKeys (Z.to_nat DbNoKeys);
          Some (if bool_decide (take (Z.to_nat PressedKeyCount) ks = take (Z.to_nat PressedKeyCount) db) then EFI_SUCCESS else EFI_NOT_FOUND, Some ks, g)
        else Some (EFI_NOT_FOUND, keys, g)
      else if Z.land DbModifiers ModifyFlags =? ModifyFlags then
        st ← search_loop (Z.to_nat PressedKeyCount) ks (take (Z.to_nat DbNoKeys) DbKeys) EFI_NOT_FOUND; Some (st, keys, g)
      else Some (EFI_NOT_FOUND, keys, g)
  end.

(** ** The entry point *)

Definition new_aggregator : APPLE_KEY_MAP_AGGREGATOR :=
  {| NextKeyStrokeIndex := 3000; KeyBuffer := None; KeyBuffersSize := 0; KeyStrokesInfoList := [] |}.

(** [present] says that the database protocol exists, [mem] that there is memory, and
    [install] is the answer of InstallMultipleProtocolInterfaces. *)
Definition InstallAggregator (present mem : bool) (install : EFI_STATUS) : option (EFI_STATUS * option APPLE_KEY_MAP_AGGREGATOR) :=
  if present then Some (EFI_DEVICE_ERROR, None)
  else if mem then Some (install, if EFI_ERROR install then None else Some new_aggregator)
  else None.
End Aggregator.
