(* ===== verification/KeyTheorems.v ===== *)
(** * AppleKeyAggregator: sorting, the state of the keys, and searching *)

From Stdlib Require Import ZArith Lia.
From stdpp Require Import base list sorting relations.
From S2P Require Import Prelude KeyAggregator.

Open Scope Z_scope.

(** ** Sorting *)

(** One round of the sort on a list: the minimum and the rest. *)
Fixpoint bubble (x : Z) (l : list Z) : Z * list Z :=
  match l with
  | [] => (x, [])
  | y :: l => if y <? x then let r := bubble y l in (r.1, x :: r.2) else let r := bubble x l in (r.1, y :: r.2)
  end.

Lemma length_bubble x l : length (bubble x l).2 = length l.
Proof. revert x. induction l as [|y l IH]; intros x; [done|]. cbn [bubble]. destruct (y <? x); cbn [snd length]; by rewrite IH. Qed.

Lemma bubble_perm x l : (bubble x l).1 :: (bubble x l).2 ≡ₚ x :: l.
Proof.
  revert x. induction l as [|y l IH]; intros x; [done|]. cbn [bubble]. destruct (y <? x); cbn [fst snd].
  - rewrite (Permutation_swap x _ _). by rewrite (IH y).
  - rewrite (Permutation_swap y _ _), (IH x). apply Permutation_swap.
Qed.

Lemma bubble_min x l : (bubble x l).1 ≤ x ∧ Forall (Z.le (bubble x l).1) (bubble x l).2.
Proof.
  revert x. induction l as [|y l IH]; intros x; cbn [bubble]; [by split|]. destruct (Z.ltb_spec y x); cbn [fst snd].
  - destruct (IH y) as [H1 H2]. split; [lia|]. constructor; [lia|done].
  - destruct (IH x) as [H1 H2]. split; [lia|]. constructor; [lia|done].
Qed.

(** The inner loop is this round, in place. *)
Lemma inner_bubble pre l : ∀ x mid tail,
  sort_inner (S (length pre)) (length pre + 1 + length mid) (length l) (pre ++ x :: mid ++ l ++ tail) =
    Some (pre ++ (bubble x l).1 :: mid ++ (bubble x l).2 ++ tail).
Proof.
  induction l as [|y l IH]; intros x mid tail; [done|]. cbn [length sort_inner bubble].
  replace (S (length pre) - 1)%nat with (length pre) by lia. rewrite (list_lookup_middle pre _ x _ eq_refl). cbn [mbind option_bind].
  assert (∀ z t, (pre ++ z :: mid ++ t) !! (length pre + 1 + length mid)%nat = t !! 0%nat) as Hptr.
  { intros z t. change (pre ++ z :: mid ++ t) with (pre ++ ([z] ++ mid) ++ t). rewrite app_assoc, lookup_app_r by (rewrite length_app; simpl; lia).
    f_equal. rewrite length_app. simpl. lia. }
  rewrite Hptr. cbn [app lookup list_lookup mbind option_bind].
  replace (S (length pre + 1 + length mid)) with (length pre + 1 + length (mid ++ [x]))%nat by (rewrite length_app; simpl; lia).
  destruct (y <? x); cbn [fst snd].
  - assert (<[(length pre + 1 + length mid)%nat := x]> (<[length pre := y]> (pre ++ x :: mid ++ y :: l ++ tail)) = pre ++ y :: (mid ++ [x]) ++ l ++ tail) as ->.
    { rewrite insert_app_r_alt, Nat.sub_diag by lia. change (<[0%nat := y]> (x :: mid ++ y :: l ++ tail)) with ([y] ++ mid ++ y :: l ++ tail).
      rewrite insert_app_r_alt by lia. f_equal. rewrite insert_app_r_alt by (simpl; lia). cbn [app]. f_equal.
      rewrite insert_app_r_alt by (simpl; lia). rewrite <- app_assoc. f_equal. replace (length pre + 1 + length mid - length pre - length [y] - length mid)%nat with 0%nat by (simpl; lia). done. }
    rewrite IH, <- app_assoc. done.
  - replace (length pre + 1 + length (mid ++ [x]))%nat with (length pre + 1 + length (mid ++ [y]))%nat by (rewrite !length_app; done).
    replace (mid ++ y :: l ++ tail) with ((mid ++ [y]) ++ l ++ tail) by (by rewrite <- app_assoc). rewrite IH, <- app_assoc. done.
Qed.

(** The outer loop sorts what is left. *)
Lemma outer_sorts n : ∀ pre l tail, length l = S n →
  ∃ l', sort_outer (length pre + S n) n (S (length pre)) (S (length pre)) (pre ++ l ++ tail) = Some (pre ++ l' ++ tail) ∧
    StronglySorted Z.le l' ∧ l' ≡ₚ l.
Proof.
  induction n as [|n IH]; intros pre l tail Hl; cbn [sort_outer].
  - destruct (Nat.ltb_spec (S (length pre)) (length pre + 1)); [lia|]. cbn [mbind option_bind]. exists l. split; [done|]. split; [|done].
    destruct l as [|x [|? ?]]; [done| |done]. repeat constructor.
  - destruct (Nat.ltb_spec (S (length pre)) (length pre + S (S n))); [|lia]. cbn [Nat.eqb]. destruct l as [|x l]; [done|]. injection Hl as Hl.
    pose proof (inner_bubble pre l x [] tail) as E. rewrite Hl in E. cbn [app length] in E. replace (length pre + 1 + 0)%nat with (S (length pre)) in E by lia.
    cbn [app]. rewrite E. cbn [mbind option_bind]. destruct (IH (pre ++ [(bubble x l).1]) (bubble x l).2 tail) as (l' & E' & Hs & Hp); [by rewrite length_bubble|].
    rewrite length_app in E'. cbn [length] in E'. rewrite <- !app_assoc in E'. cbn [app] in E'.
    replace (length pre + 1)%nat with (S (length pre)) in E' by lia. replace (S (length pre) + S n)%nat with (length pre + S (S n))%nat in E' by lia.
    exists ((bubble x l).1 :: l'). split; [exact E'|]. split.
    + constructor; [done|]. rewrite Hp. apply bubble_min.
    + rewrite Hp. apply bubble_perm.
Qed.

(** The sort of the keys: the first [n] words are put in order, the others stay. *)
Lemma sort_spec a n : (n ≤ length a)%nat →
  ∃ l, KeyMapBubbleSort a n = Some (l ++ drop n a) ∧ Sorted Z.le l ∧ l ≡ₚ take n a.
Proof.
  intros Hn. destruct n as [|n]; [by exists []|]. cbn [KeyMapBubbleSort].
  destruct (outer_sorts n [] (take (S n) a) (drop (S n) a)) as (l & E & Hs & Hp); [rewrite length_take; lia|].
  cbn [length app Nat.add] in E. rewrite take_drop in E. exists l. split; [exact E|]. split; [by apply StronglySorted_Sorted|done].
Qed.

(** ** The pressed keys *)

(** Keys without repetitions, in the order in which they come. *)
Definition add_new (acc : list Z) (k : Z) : list Z := if bool_decide (k ∈ acc) then acc else acc ++ [k].
Definition distinct (acc ks : list Z) : list Z := foldl add_new acc ks.

Lemma distinct_elem ks : ∀ acc k, k ∈ distinct acc ks ↔ k ∈ acc ∨ k ∈ ks.
Proof.
  induction ks as [|x ks IH]; intros acc k; cbn [distinct foldl]; [set_solver|]. fold (distinct (add_new acc x) ks). rewrite IH. unfold add_new.
  case_bool_decide; set_solver.
Qed.

Lemma distinct_nodup ks : ∀ acc, NoDup acc → NoDup (distinct acc ks).
Proof.
  induction ks as [|x ks IH]; intros acc Hn; cbn [distinct foldl]; [done|]. apply IH. unfold add_new. case_bool_decide as Hx; [done|].
  apply NoDup_app. split; [done|]. split; [|by apply NoDup_singleton]. set_solver.
Qed.

Lemma distinct_length ks : ∀ acc, (length acc ≤ length (distinct acc ks) ≤ length acc + length ks)%nat.
Proof.
  induction ks as [|x ks IH]; intros acc; cbn [distinct foldl length]; [lia|]. specialize (IH (add_new acc x)). unfold distinct in IH.
  unfold add_new in *. case_bool_decide; rewrite ?length_app in IH; cbn [length] in IH; lia.
Qed.

Lemma distinct_app ks1 ks2 acc : distinct acc (ks1 ++ ks2) = distinct (distinct acc ks1) ks2.
Proof. apply foldl_app. Qed.

Lemma distinct_all ks : ∀ acc, NoDup (acc ++ ks) → distinct acc ks = acc ++ ks.
Proof.
  induction ks as [|k ks IH]; intros acc Hn; cbn [distinct foldl]; [by rewrite app_nil_r|]. unfold add_new at 2. rewrite bool_decide_false.
  - fold (distinct (acc ++ [k]) ks). rewrite IH by (by rewrite <- app_assoc). by rewrite <- app_assoc.
  - apply NoDup_app in Hn as (_ & Hn & _). intros Hk. apply (Hn k Hk). by left.
Qed.

Lemma length_zero_words n : length (zero_words n) = Z.to_nat (n / 2).
Proof. apply length_replicate. Qed.

(** The array holds the distinct keys, or is too small for them. *)
Lemma add_keys_spec ks : ∀ buf n, (n ≤ length buf)%nat →
  let D := distinct (take n buf) ks in
  match add_keys ks (buf, n) with
  | Some (buf', n') => length buf' = length buf ∧ n' = length D ∧ take n' buf' = D ∧ (length D ≤ length buf)%nat
  | None => (length buf < length D)%nat
  end.
Proof.
  induction ks as [|k ks IH]; intros buf n Hn D; subst D; cbn [add_keys distinct foldl]; [rewrite length_take; split_and!; [done|lia|done|lia]|].
  assert (add_new (take n buf) k = if bool_decide (k ∈ take n buf) then take n buf else take n buf ++ [k]) as -> by done.
  unfold add_key. case_bool_decide as Hk; cbn [mbind option_bind]; [by apply IH|].
  destruct (Nat.ltb_spec n (length buf)) as [Hlt|Hge]; cbn [mbind option_bind].
  - specialize (IH (<[n := k]> buf) (S n)). rewrite length_insert in IH. specialize (IH Hlt).
    rewrite (take_S_r _ _ k), take_insert_ge in IH by (try done; by apply list_lookup_insert_eq). exact IH.
  - pose proof (distinct_length ks (take n buf ++ [k])) as Hd. unfold distinct in Hd. rewrite length_app, length_take in Hd. cbn [length] in Hd. lia.
Qed.

Definition keys_of (x : APPLE_KEY_STROKES_INFO) : list Z := take (Z.to_nat (NumberOfKeys x)) (Keys x).
Definition all_keys (l : list APPLE_KEY_STROKES_INFO) : list Z := concat (keys_of <$> l).
Definition all_modifiers (l : list APPLE_KEY_STROKES_INFO) : Z := foldl (λ m x, Z.lor m (Modifiers x)) 0 l.

Lemma elem_all_keys l k : k ∈ all_keys l ↔ ∃ x, x ∈ l ∧ k ∈ keys_of x.
Proof.
  unfold all_keys. induction l as [|y l IH]; cbn [fmap list_fmap concat]; [set_solver|]. rewrite elem_of_app, IH. set_solver.
Qed.

(** A buffer whose keys are in its memory. *)
Definition info_ok (x : APPLE_KEY_STROKES_INFO) : Prop := NumberOfKeys x ≤ Z.of_nat (length (Keys x)).

Lemma collect_spec l : ∀ mods buf n, Forall info_ok l → (n ≤ length buf)%nat →
  let D := distinct (take n buf) (all_keys l) in
  match collect l mods (buf, n) with
  | Some (mods', (buf', n')) => mods' = foldl (λ m x, Z.lor m (Modifiers x)) mods l ∧ length buf' = length buf ∧ n' = length D ∧ take n' buf' = D ∧ (length D ≤ length buf)%nat
  | None => (length buf < length D)%nat
  end.
Proof.
  induction l as [|x l IH]; intros mods buf n Hok Hn D; subst D.
  { cbn. rewrite length_take. split_and!; [done|done|lia|done|lia]. }
  apply Forall_cons in Hok as [Hx Hok]. cbn [collect]. unfold pressed, all_keys. destruct (Z.leb_spec (NumberOfKeys x) (Z.of_nat (length (Keys x)))); [|unfold info_ok in Hx; lia].
  cbn [mbind option_bind]. fold (keys_of x). cbn [fmap list_fmap concat]. fold (all_keys l). rewrite distinct_app.
  pose proof (add_keys_spec (keys_of x) buf n Hn) as Ha. cbv zeta in Ha. destruct (add_keys (keys_of x) (buf, n)) as [[buf1 n1]|]; cbn [mbind option_bind].
  - destruct Ha as (Hl & Hn1 & Ht & Hle). specialize (IH (Z.lor mods (Modifiers x)) buf1 n1 Hok ltac:(lia)). cbv zeta in IH. rewrite Ht, Hl in IH. cbn [foldl]. exact IH.
  - pose proof (distinct_length (all_keys l) (distinct (take n buf) (keys_of x))). lia.
Qed.

(** The keys that are pressed, each once. *)
Definition pressed_keys (g : APPLE_KEY_MAP_AGGREGATOR) : list Z := distinct [] (all_keys (KeyStrokesInfoList g)).

Lemma read_spec count keys g : KeyStrokesInfoList g ≠ [] → Forall info_ok (KeyStrokesInfoList g) →
  (∀ d, keys = Some d → count ≤ Z.of_nat (length d)) →
  let D := pressed_keys g in
  match ReadKeyState count keys g with
  | None => (length (default [] (KeyBuffer g)) < length D)%nat
  | Some (r, g') =>
      (length D ≤ length (default [] (KeyBuffer g)))%nat ∧ ks_count r = Z.of_nat (length D) ∧ KeyStrokesInfoList g' = KeyStrokesInfoList g ∧
      if count <? Z.of_nat (length D) then ks_status r = EFI_BUFFER_TOO_SMALL ∧ ks_keys r = keys
      else ks_status r = EFI_SUCCESS ∧ ks_flags r = Some (all_modifiers (KeyStrokesInfoList g)) ∧
        ks_keys r = (λ d, D ++ drop (length D) d) <$> keys
  end.
Proof.
  intros Hne Hok Hd. unfold pressed_keys, ReadKeyState. destruct (KeyStrokesInfoList g) as [|x0 l0] eqn:El; [done|].
  set (l := x0 :: l0) in *. set (buf := default [] (KeyBuffer g)).
  pose proof (collect_spec l 0 buf 0 Hok ltac:(lia)) as Hc. cbv zeta in Hc. rewrite take_0 in Hc.
  destruct (collect l 0 (buf, 0%nat)) as [[mods [buf' n]]|]; cbn [mbind option_bind]; [|done]. destruct Hc as (-> & Hl & -> & Ht & Hle).
  set (D := distinct [] (all_keys l)) in *. destruct (Z.ltb_spec count (Z.of_nat (length D))) as [Hlt|Hge]; [done|].
  destruct keys as [d|]; cbn [mbind option_bind fmap option_fmap option_map]; [|done]. specialize (Hd d eq_refl).
  unfold copy_words. destruct (Z.leb_spec (Z.of_nat (length D)) (Z.of_nat (length buf'))); [|lia]. destruct (Z.leb_spec (Z.of_nat (length D)) (Z.of_nat (length d))); [|lia].
  cbn [andb fmap option_fmap option_map mbind option_bind]. rewrite Nat2Z.id, Ht. done.
Qed.

(** What the aggregator reports: the modifiers of all buffers together, and every key
    that is pressed in some buffer once; the caller gets them if its array has room, and
    their number otherwise.  This holds exactly if the aggregator's own array has room for
    the keys; else it writes past its end. *)
Theorem read_key_state count keys g : KeyStrokesInfoList g ≠ [] → Forall info_ok (KeyStrokesInfoList g) →
  (∀ d, keys = Some d → count ≤ Z.of_nat (length d)) →
  ∃ D, NoDup D ∧ (∀ k, k ∈ D ↔ ∃ x, x ∈ KeyStrokesInfoList g ∧ k ∈ keys_of x) ∧
    match ReadKeyState count keys g with
    | None => (length (default [] (KeyBuffer g)) < length D)%nat
    | Some (r, g') =>
        (length D ≤ length (default [] (KeyBuffer g)))%nat ∧ ks_count r = Z.of_nat (length D) ∧ KeyStrokesInfoList g' = KeyStrokesInfoList g ∧
        if count <? Z.of_nat (length D) then ks_status r = EFI_BUFFER_TOO_SMALL ∧ ks_keys r = keys
        else ks_status r = EFI_SUCCESS ∧ ks_flags r = Some (all_modifiers (KeyStrokesInfoList g)) ∧
          ks_keys r = (λ d, D ++ drop (length D) d) <$> keys
    end.
Proof.
  intros Hne Hok Hd. exists (pressed_keys g). split; [by apply distinct_nodup, NoDup_nil_2|]. split; [|by apply read_spec].
  intros k. unfold pressed_keys. rewrite distinct_elem, elem_all_keys. set_solver.
Qed.

(** ** Searching *)

Lemma search_loop_spec n : ∀ ks db st, (n ≤ length ks)%nat →
  ∃ st', search_loop n ks db st = Some st' ∧ (st = EFI_SUCCESS → st' = EFI_SUCCESS) ∧
    (n ≠ 0%nat → st ≠ EFI_SUCCESS → st' = EFI_SUCCESS ↔ ∃ k, ks !! 0%nat = Some k ∧ k ∈ db).
Proof.
  induction n as [|n IH]; intros ks db st Hn; cbn [search_loop]; [by eexists|]. destruct ks as [|k ks]; [simpl in Hn; lia|].
  case_bool_decide as Hk.
  - destruct (IH ks db EFI_SUCCESS) as (st' & E & Hs & _); [simpl in Hn; lia|]. exists st'. split; [done|]. specialize (Hs eq_refl). split; [done|].
    intros _ _. split; [by intros _; exists k|done].
  - exists st. split; [done|]. split; [done|]. intros _ Hst. split; [done|]. intros (k' & [= <-] & Hk'). done.
Qed.

(** The search, when the array of the aggregator has room for the pressed keys. *)
Section Search.
Context (g : APPLE_KEY_MAP_AGGREGATOR) (Hok : Forall info_ok (KeyStrokesInfoList g)).
Context (Hroom : (length (pressed_keys g) ≤ length (default [] (KeyBuffer g)))%nat).

Lemma read_eight junk : length junk = 8%nat →
  ∃ r g', ReadKeyState (Z.of_nat DB_KEYS_NUM) (Some junk) g = Some (r, g') ∧
    if (8 <? length (pressed_keys g))%nat then ks_status r = EFI_BUFFER_TOO_SMALL
    else ks_status r = EFI_SUCCESS ∧
      ks_flags r = Some (all_modifiers (KeyStrokesInfoList g)) ∧ ks_count r = Z.of_nat (length (pressed_keys g)) ∧
      ks_keys r = Some (pressed_keys g ++ drop (length (pressed_keys g)) junk).
Proof.
  intros Hj. destruct (decide (KeyStrokesInfoList g = [])) as [He|Hne].
  { unfold ReadKeyState, pressed_keys. rewrite He. eexists _, g. split; [reflexivity|]. cbn. done. }
  pose proof (read_spec (Z.of_nat DB_KEYS_NUM) (Some junk) g Hne Hok) as Hr. cbv zeta in Hr.
  destruct (ReadKeyState _ _ g) as [[r g']|]; [|specialize (Hr ltac:(intros d [= <-]; unfold DB_KEYS_NUM; lia)); lia].
  destruct Hr as (_ & Hc & _ & Hr); [intros d [= <-]; unfold DB_KEYS_NUM; lia|]. unfold DB_KEYS_NUM in Hr. exists r, g'. split; [done|].
  destruct (Z.ltb_spec (Z.of_nat 8) (Z.of_nat (length (pressed_keys g)))), (Nat.ltb_spec 8 (length (pressed_keys g))); try lia; [by destruct Hr|].
  by destruct Hr as (H1 & H2 & H3).
Qed.

(** C31. The search for a key stroke of at least one key, as long as the array of the aggregator
    has room for the pressed keys (it need not, since it is allocated in bytes): if more than
    eight keys are pressed the answer is EFI_BUFFER_TOO_SMALL and the caller's keys stay.
    Otherwise, also when there is no buffer of keys at all, an exact match means that the
    modifiers are the same and the keys are the pressed ones in any order (the caller's keys may
    come back sorted); without exact match only the first of the keys has to be pressed,
    whatever the others are. *)
Theorem key_search junk flags n ks exact : length junk = 8%nat → (1 ≤ n ≤ length ks)%nat →
  ∃ st ks' g', SearchKeyStroke junk flags (Z.of_nat n) (Some ks) exact g = Some (st, Some ks', g') ∧
    take n ks' ≡ₚ take n ks ∧ drop n ks' = drop n ks ∧
    if (8 <? length (pressed_keys g))%nat then st = EFI_BUFFER_TOO_SMALL ∧ ks' = ks else
    (st = EFI_SUCCESS ↔
       if exact then all_modifiers (KeyStrokesInfoList g) = flags ∧ take n ks ≡ₚ pressed_keys g
       else Z.land (all_modifiers (KeyStrokesInfoList g)) flags = flags ∧ ∃ k, ks !! 0%nat = Some k ∧ k ∈ pressed_keys g).
Proof.
  intros Hj Hn. destruct (read_eight junk Hj) as (r & g' & E & Hr). unfold SearchKeyStroke.
  destruct (Z.eqb_spec (Z.of_nat n) 0); [lia|]. rewrite E. cbn [mbind option_bind].
  destruct (8 <? length (pressed_keys g))%nat; [rewrite Hr; by eexists _, ks, g'|]. destruct Hr as (Hst & Hf & Hc & Hk). rewrite Hst, Hf, Hk, Hc. cbn [EFI_ERROR mbind option_bind].
  set (D := pressed_keys g) in *. set (mods := all_modifiers (KeyStrokesInfoList g)). destruct exact.
  - destruct (Z.eqb_spec mods flags) as [Em|Em]; cbn [andb]; [destruct (Z.eqb_spec (Z.of_nat (length D)) (Z.of_nat n)) as [En|En]|].
    + apply Nat2Z.inj in En. destruct (Z.ltb_spec (Z.of_nat (length ks)) (Z.of_nat n)); [lia|]. rewrite !Nat2Z.id.
      destruct (sort_spec ks n ltac:(lia)) as (l1 & -> & Hs1 & Hp1).
      destruct (sort_spec (D ++ drop (length D) junk) (length D)) as (l2 & E2 & Hs2 & Hp2); [rewrite length_app; lia|]. rewrite En in E2 |- *. rewrite E2. cbn [mbind option_bind].
      rewrite take_app_length' in Hp2 by done. assert (length l1 = n) as Hl1 by (rewrite Hp1, length_take; lia). assert (length l2 = n) as Hl2 by (rewrite Hp2; done).
      rewrite !take_app_length' by done. eexists _, _, g'. split; [reflexivity|]. rewrite take_app_length', drop_app_length' by done. split; [done|]. split; [done|].
      case_bool_decide as El; (split; [|]); [intros _; split; [done|]|done|done|intros [_ Hp]; exfalso; apply El].
      * rewrite <- Hp1, El. done.
      * apply (Sorted_unique Z.le); [done|done|]. by rewrite Hp1, Hp, Hp2.
    + eexists _, ks, g'. split; [reflexivity|]. split; [done|]. split; [done|]. split; [done|]. intros [_ Hp]. exfalso. apply Permutation_length in Hp. rewrite length_take in Hp. lia.
    + eexists _, ks, g'. split; [reflexivity|]. split; [done|]. split; [done|]. split; [done|]. by intros [? _].
  - destruct (Z.eqb_spec (Z.land mods flags) flags) as [Em|Em].
    + rewrite !Nat2Z.id, take_app_length' by done. destruct (search_loop_spec n ks D EFI_NOT_FOUND ltac:(lia)) as (st & -> & _ & Hs). cbn [mbind option_bind].
      exists st, ks, g'. split; [done|]. split; [done|]. split; [done|]. rewrite Hs by (done || lia). naive_solver.
    + eexists _, ks, g'. split; [reflexivity|]. split; [done|]. split; [done|]. split; [done|]. by intros [? _].
Qed.
End Search.

(** The array of the aggregator is allocated in bytes and used in keys of two bytes: once a
    keyboard holds down more than half of the keys that its buffer has been created for,
    reading the state writes past the end of the array. *)
Theorem read_overflows head n ks count : 1 ≤ n < 2 ^ 32 → NoDup ks → n / 2 < Z.of_nat (length ks) ≤ n →
  ∃ i g1 g2, KeyMapCreateKeyStrokesBuffer true true n new_aggregator = Some (EFI_SUCCESS, Some i, g1) ∧
    KeyMapSetKeyStrokeBufferKeys head i 0 (Z.of_nat (length ks)) (Some ks) g1 = Some (EFI_SUCCESS, g2) ∧
    ReadKeyState count None g2 = None.
Proof.
  intros Hn Hd Hl. unfold KeyMapCreateKeyStrokesBuffer. cbn [negb orb new_aggregator KeyBuffersSize NextKeyStrokeIndex KeyStrokesInfoList KeyBuffer app].
  unfold sizeof_APPLE_KEY_STROKES_INFO, offset_Keys, sizeof_APPLE_KEY_CODE. rewrite (wrap64_small (n * 2)), !wrap64_small by lia. destruct (Z.ltb_spec (64 + n * 2) 56); [lia|].
  eexists _, _, _. split; [reflexivity|]. unfold KeyMapSetKeyStrokeBufferKeys. cbn [KeyStrokesInfoList KeyMapGetKeyStrokesByIndex Index]. rewrite Z.eqb_refl. cbn [lookup list_lookup mbind option_bind KeyBufferSize Keys].
  destruct (Z.leb_spec (Z.of_nat (length ks)) n); [|lia]. unfold copy_words. rewrite Z.leb_refl. rewrite length_zero_words, Z2Nat.id by lia.
  destruct (Z.leb_spec (Z.of_nat (length ks)) ((64 + n * 2 - 56) / 2)); [|lia]. cbn [andb mbind option_bind]. split; [reflexivity|].
  rewrite Nat2Z.id, take_ge by lia. cbn [insert list_insert]. 
  match goal with |- ReadKeyState _ _ (set_list [?y] ?h) = None => set (x := y); set (g := set_list [x] h) end. assert (info_ok x) as Hx by (unfold info_ok, x; cbn [NumberOfKeys Keys]; rewrite length_app; lia).
  pose proof (read_spec count None g ltac:(done) ltac:(by repeat constructor) ltac:(done)) as Hr. cbv zeta in Hr.
  assert (pressed_keys g = ks) as Hp.
  { unfold pressed_keys, all_keys, g. cbn [set_list KeyStrokesInfoList fmap list_fmap concat]. unfold keys_of, x. cbn [NumberOfKeys Keys].
    rewrite app_nil_r, Nat2Z.id, take_app_length. by apply (distinct_all ks []). }
  rewrite Hp in Hr. destruct (ReadKeyState count None g) as [[r g']|]; [|done]. exfalso. destruct Hr as [Hr _]. 
  change (length ks ≤ length (zero_words n))%nat in Hr. rewrite length_zero_words in Hr. lia.
Qed.

(** ** Sequences of calls *)

(** The calls of keyboard drivers and readers that are defined.  Buffers are for fewer than
    2^32 keys, and the two counters do not overflow. *)
Inductive kstep (head : Z) : relation APPLE_KEY_MAP_AGGREGATOR :=
| k_create mem1 mem2 size st i g g' : 0 ≤ size < 2 ^ 32 → KeyBuffersSize g + size < 2 ^ 64 → NextKeyStrokeIndex g + 1 < 2 ^ 64 →
    KeyMapCreateKeyStrokesBuffer mem1 mem2 size g = Some (st, i, g') → kstep head g g'
| k_remove i st g g' : KeyMapRemoveKeyStrokesBuffer head i g = Some (st, g') → kstep head g g'
| k_set i mods n keys st g g' : 0 ≤ n → KeyMapSetKeyStrokeBufferKeys head i mods n keys g = Some (st, g') → kstep head g g'
| k_read count keys r g g' : ReadKeyState count keys g = Some (r, g') → kstep head g g'
| k_search junk flags n keys exact r g g' : SearchKeyStroke junk flags n keys exact g = Some (r, g') → kstep head g g'.

Definition sizes (l : list APPLE_KEY_STROKES_INFO) : Z := foldr (λ x n, KeyBufferSize x + n) 0 l.

Definition info_inv (x : APPLE_KEY_STROKES_INFO) : Prop :=
  0 ≤ NumberOfKeys x ≤ KeyBufferSize x ∧ KeyBufferSize x < 2 ^ 32 ∧ Z.of_nat (length (Keys x)) = KeyBufferSize x + 4.

Record agg_inv (g : APPLE_KEY_MAP_AGGREGATOR) : Prop := {
  ai_infos : Forall info_inv (KeyStrokesInfoList g);
  ai_index : NoDup (Index <$> KeyStrokesInfoList g) ∧ Forall (λ x, 3000 ≤ Index x < NextKeyStrokeIndex g) (KeyStrokesInfoList g);
  ai_next : 3000 ≤ NextKeyStrokeIndex g < 2 ^ 64;
  ai_size : sizes (KeyStrokesInfoList g) ≤ KeyBuffersSize g < 2 ^ 64;
  ai_buffer : ∀ buf, KeyBuffer g = Some buf → KeyBuffersSize g / 2 ≤ Z.of_nat (length buf)
}.

Lemma sizes_app l1 l2 : sizes (l1 ++ l2) = sizes l1 + sizes l2.
Proof. induction l1 as [|x l1 IH]; [done|]. cbn [app sizes foldr]. fold (sizes (l1 ++ l2)) (sizes l1). lia. Qed.

Lemma sizes_nonneg l : Forall info_inv l → 0 ≤ sizes l.
Proof. induction 1 as [|x l (Hx & _) _ IH]; [done|]. cbn [sizes foldr]. fold (sizes l). lia. Qed.

Lemma all_keys_length l : Forall info_inv l → Z.of_nat (length (all_keys l)) = foldr (λ x n, NumberOfKeys x + n) 0 l.
Proof.
  unfold all_keys. induction 1 as [|x l (Hx & _ & Hk) _ IH]; [done|]. cbn [fmap list_fmap concat foldr]. rewrite length_app, Nat2Z.inj_add, IH.
  unfold keys_of. rewrite length_take. lia.
Qed.

Lemma info_inv_ok l : Forall info_inv l → Forall info_ok l.
Proof. intros Hl. eapply Forall_impl; [exact Hl|]. intros x (H1 & _ & H2). unfold info_ok. lia. Qed.

(** Where an index is found. *)
Lemma key_get_at head l i n : KeyMapGetKeyStrokesByIndex head l i = At n → ∃ x, l !! n = Some x ∧ Index x = i.
Proof.
  revert n. induction l as [|y l IH]; intros n; cbn [KeyMapGetKeyStrokesByIndex]; [by destruct (head =? i)|].
  destruct (Z.eqb_spec (Index y) i); [intros [= <-]; by exists y|]. destruct (KeyMapGetKeyStrokesByIndex head l i); [|done|done]. intros [= <-]. by apply IH.
Qed.

Lemma collect_length l : ∀ mods b mods' b', collect l mods b = Some (mods', b') → length b'.1 = length b.1.
Proof.
  assert (∀ ks b b', add_keys ks b = Some b' → length b'.1 = length b.1) as Ha.
  { induction ks as [|k ks IH]; intros [buf n] b'; cbn [add_keys]; [by intros [= <-]|]. unfold add_key. case_bool_decide; cbn [mbind option_bind]; [apply IH|].
    destruct (n <? length buf)%nat; [|done]. cbn [mbind option_bind]. intros E%IH. rewrite E. apply length_insert. }
  induction l as [|x l IH]; intros mods b mods' b'; cbn [collect]; [by intros [= <- <-]|]. destruct (pressed x) as [ks|]; [|done]. cbn [mbind option_bind].
  destruct (add_keys ks b) as [b1|] eqn:E1; [|done]. cbn [mbind option_bind]. intros E%IH. by rewrite E, (Ha _ _ _ E1).
Qed.

Lemma read_keeps count keys g r g' : ReadKeyState count keys g = Some (r, g') → agg_inv g → agg_inv g'.
Proof.
  intros E [H1 H2 H3 H4 H5]. assert (g' = g ∨ ∃ buf, length buf = length (default [] (KeyBuffer g)) ∧ g' = set_buffer buf g) as [->|(buf & Hl & ->)]; [|done|].
  - unfold ReadKeyState in E. destruct (KeyStrokesInfoList g); [left; by injection E|]. right.
    destruct (collect _ 0 _) as [[mods [buf n]]|] eqn:Ec; [|done]. apply collect_length in Ec. cbn [mbind option_bind] in E. exists buf. split; [done|].
    destruct (count <? Z.of_nat n); [by injection E as <- <-|]. destruct keys as [d|]; [destruct (copy_words _ _ _); [|done]|]; by injection E as <- <-.
  - split; try done. cbn [set_buffer KeyBuffer KeyBuffersSize]. intros b Hb. destruct (KeyBuffer g) as [b0|]; [|done]. injection Hb as <-. rewrite Hl. by apply H5.
Qed.

Lemma search_keeps junk flags n keys exact r g g' : SearchKeyStroke junk flags n keys exact g = Some (r, g') → agg_inv g → agg_inv g'.
Proof.
  intros E Hg. unfold SearchKeyStroke in E. destruct keys as [ks|]; [|by injection E as _ <-]. destruct (n =? 0); [by injection E as _ <-|].
  destruct (ReadKeyState _ _ g) as [[x g1]|] eqn:Er; [|done]. cbn [mbind option_bind] in E. assert (g' = g1) as ->; [|by eapply read_keeps].
  destruct (EFI_ERROR _); [by injection E|]. destruct (ks_flags x); [|done]. destruct (ks_keys x); [|done]. cbn [mbind option_bind] in E.
  destruct exact; [destruct (_ && _)|destruct (_ =? _)]; try by injection E.
  - destruct (_ <? _); [done|]. destruct (KeyMapBubbleSort ks _); [|done]. cbn [mbind option_bind] in E. destruct (KeyMapBubbleSort _ _); [|done]. by injection E.
  - destruct (search_loop _ _ _ _); [|done]. by injection E.
Qed.

Lemma create_keeps mem1 mem2 size st i g g' : 0 ≤ size < 2 ^ 32 → KeyBuffersSize g + size < 2 ^ 64 → NextKeyStrokeIndex g + 1 < 2 ^ 64 →
  KeyMapCreateKeyStrokesBuffer mem1 mem2 size g = Some (st, i, g') → agg_inv g → agg_inv g'.
Proof.
  intros Hs Hb Hn E [H1 [H2 H2'] H3 H4 H5]. pose proof (sizes_nonneg _ H1) as Hp. unfold KeyMapCreateKeyStrokesBuffer in E.
  assert (∀ buf, (if mem1 then Some (zero_words (wrap64 (KeyBuffersSize g + size))) else None) = Some buf → (KeyBuffersSize g + size) / 2 ≤ Z.of_nat (length buf)) as Hbuf.
  { intros buf. destruct mem1; [|done]. intros [= <-]. rewrite length_zero_words, wrap64_small by lia. lia. }
  rewrite wrap64_small in E by lia. rewrite wrap64_small in Hbuf by lia. destruct (negb mem1 || negb mem2).
  { injection E as <- <- <-. split; cbn [KeyStrokesInfoList NextKeyStrokeIndex KeyBuffersSize KeyBuffer]; try done; lia. }
  unfold sizeof_APPLE_KEY_STROKES_INFO, sizeof_APPLE_KEY_CODE, offset_Keys in E. rewrite (wrap64_small (size * 2)), !wrap64_small in E by (cbn [NextKeyStrokeIndex]; lia).
  destruct (Z.ltb_spec (64 + size * 2) 56); [lia|]. injection E as <- <- <-. cbn [NextKeyStrokeIndex KeyBuffersSize KeyBuffer KeyStrokesInfoList].
  split; cbn [KeyStrokesInfoList NextKeyStrokeIndex KeyBuffersSize KeyBuffer]; try done; try lia.
  - apply Forall_app. split; [done|]. constructor; [|constructor]. split; cbn [NumberOfKeys KeyBufferSize Keys]; [lia|]. rewrite length_zero_words. lia.
  - split; [|apply Forall_app; split; [eapply Forall_impl; [exact H2'|intros x Hx; cbn beta in *; lia]|constructor; [cbn [Index]; lia|constructor]]].
    rewrite fmap_app. apply NoDup_app. split; [done|]. split; [|by apply NoDup_singleton]. intros k Hk Hk'. apply list_elem_of_singleton in Hk'.
    apply list_elem_of_fmap in Hk as (x & -> & Hx). cbn [Index] in Hk'. rewrite Forall_forall in H2'. specialize (H2' x Hx). lia.
  - rewrite sizes_app. cbn [sizes foldr KeyBufferSize]. lia.
Qed.

Lemma remove_keeps head i st g g' : KeyMapRemoveKeyStrokesBuffer head i g = Some (st, g') → agg_inv g → agg_inv g'.
Proof.
  intros E [H1 [H2 H2'] H3 H4 H5]. unfold KeyMapRemoveKeyStrokesBuffer in E. destruct (KeyMapGetKeyStrokesByIndex _ _ i) as [n| |]; [|done|by injection E as <- <-].
  destruct (KeyStrokesInfoList g !! n) as [x|] eqn:Hx; [|done]. cbn [mbind option_bind] in E. injection E as <- <-.
  pose proof (sizes_nonneg _ (Forall_delete _ _ n H1)) as Hp. pose proof (Forall_lookup_1 _ _ _ _ H1 Hx) as (Hk & Hk2 & _).
  assert (sizes (KeyStrokesInfoList g) = KeyBufferSize x + sizes (delete n (KeyStrokesInfoList g))) as Hs.
  { rewrite <- (take_drop_middle _ _ _ Hx) at 1. rewrite delete_take_drop, !sizes_app. cbn [sizes foldr]. fold (sizes (drop (S n) (KeyStrokesInfoList g))). lia. }
  split; cbn [KeyStrokesInfoList NextKeyStrokeIndex KeyBuffersSize KeyBuffer]; rewrite ?wrap64_small by lia; try done.
  - by apply Forall_delete.
  - split; [|by apply Forall_delete]. rewrite <- (take_drop_middle _ _ _ Hx), fmap_app, fmap_cons in H2. rewrite delete_take_drop, fmap_app.
    apply NoDup_app in H2 as (N1 & N2 & N3). apply NoDup_cons in N3 as [_ N3]. apply NoDup_app. split; [done|]. split; [|done]. intros k Hk' Hk''. apply (N2 k Hk'). by right.
  - lia.
  - intros buf Hbuf. specialize (H5 buf Hbuf). assert ((KeyBuffersSize g - KeyBufferSize x) / 2 ≤ KeyBuffersSize g / 2) by (apply Z.div_le_mono; lia). lia.
Qed.

Lemma copy_words_length n src dst r : 0 ≤ n → copy_words n src dst = Some r → length r = length dst.
Proof.
  intros Hn. unfold copy_words. destruct (Z.leb_spec n (Z.of_nat (length src))), (Z.leb_spec n (Z.of_nat (length dst))); cbn [andb]; try done.
  intros [= <-]. rewrite length_app, length_take, length_drop. lia.
Qed.

Lemma set_keeps head i mods n keys st g g' : 0 ≤ n → KeyMapSetKeyStrokeBufferKeys head i mods n keys g = Some (st, g') → agg_inv g → agg_inv g'.
Proof.
  intros Hn E [H1 [H2 H2'] H3 H4 H5]. unfold KeyMapSetKeyStrokeBufferKeys in E. destruct keys as [ks|]; [|by injection E as <- <-].
  destruct (KeyMapGetKeyStrokesByIndex _ _ i) as [p| |]; [|done|by injection E as <- <-].
  destruct (KeyStrokesInfoList g !! p) as [x|] eqn:Hx; [|done]. cbn [mbind option_bind] in E. destruct (Z.leb_spec n (KeyBufferSize x)); [|by injection E as <- <-].
  destruct (copy_words n ks (Keys x)) as [ks'|] eqn:Ec; [|done]. apply copy_words_length in Ec; [|done]. injection E as <- <-.
  pose proof (Forall_lookup_1 _ _ _ _ H1 Hx) as (Hk & Hk2 & Hk3). set (y := {| Index := Index x; KeyBufferSize := KeyBufferSize x; NumberOfKeys := n; Modifiers := mods; Keys := ks' |}).
  assert (Index <$> <[p := y]> (KeyStrokesInfoList g) = Index <$> KeyStrokesInfoList g) as Hi.
  { rewrite list_fmap_insert. apply list_insert_id. by rewrite list_lookup_fmap, Hx. }
  assert (sizes (<[p := y]> (KeyStrokesInfoList g)) = sizes (KeyStrokesInfoList g)) as Hs.
  { rewrite <- (take_drop_middle _ _ _ Hx) at 2. rewrite insert_take_drop by (by eapply lookup_lt_Some). by rewrite !sizes_app. }
  split; cbn [set_list KeyStrokesInfoList NextKeyStrokeIndex KeyBuffersSize KeyBuffer]; rewrite ?Hi, ?Hs; try done.
  - apply Forall_insert; [done|]. split; cbn [y NumberOfKeys KeyBufferSize Keys]; lia.
  - split; [done|]. apply Forall_insert; [done|]. cbn [y Index]. by apply (Forall_lookup_1 _ _ _ _ H2' Hx).
Qed.

(** C32. Whatever the keyboard drivers and readers call, creating, removing, setting, reading and
    searching, as long as buffers are created for fewer than 2^32 keys (the size of a larger
    one can wrap around and its keys then have no room) and neither the sum of the sizes nor
    the number of the next buffer reaches 2^64, the aggregator stays sound: indices are unique,
    every buffer has room for its keys, and the size of the array is at least the sum of the
    sizes of the buffers.  Creating such a buffer is always defined, with and without memory, and
    so are setting keys and removing buffers, except for the index that the head of the list
    seems to have; and reading the state is defined as long as there is an array and at most
    half of its size in keys is pressed. *)
Theorem aggregator_calls head g : rtc (kstep head) new_aggregator g →
  agg_inv g ∧
  (∀ mem1 mem2 size, 0 ≤ size < 2 ^ 32 → is_Some (KeyMapCreateKeyStrokesBuffer mem1 mem2 size g)) ∧
  (∀ i, i ≠ head → is_Some (KeyMapRemoveKeyStrokesBuffer head i g)) ∧
  (∀ i mods ks n, i ≠ head → 0 ≤ n ≤ Z.of_nat (length ks) → is_Some (KeyMapSetKeyStrokeBufferKeys head i mods n (Some ks) g)) ∧
  (∀ count, is_Some (KeyBuffer g) → foldr (λ x n, NumberOfKeys x + n) 0 (KeyStrokesInfoList g) ≤ KeyBuffersSize g / 2 → is_Some (ReadKeyState count None g)).
Proof.
  intros Hr. assert (agg_inv g) as Hg.
  { assert (agg_inv new_aggregator) as H0 by (split; [constructor|split; constructor|done|done|done]). revert H0. clear - Hr.
    induction Hr as [g|g1 g2 g3 Hs _ IH]; [done|]. intros H1. apply IH. destruct Hs; [by eapply create_keeps|by eapply remove_keeps|by eapply set_keeps|by eapply read_keeps|by eapply search_keeps]. }
  assert (∀ i, i ≠ head → KeyMapGetKeyStrokesByIndex head (KeyStrokesInfoList g) i ≠ Head) as Hh.
  { intros i Hi. induction (KeyStrokesInfoList g) as [|x l IH]; cbn [KeyMapGetKeyStrokesByIndex]; [by destruct (Z.eqb_spec head i)|].
    destruct (Index x =? i); [done|]. by destruct (KeyMapGetKeyStrokesByIndex head l i). }
  split; [done|]. split; [|split; [|split]].
  - intros mem1 mem2 size Hs. unfold KeyMapCreateKeyStrokesBuffer. destruct (_ || _); [by eexists|].
    unfold sizeof_APPLE_KEY_STROKES_INFO, sizeof_APPLE_KEY_CODE, offset_Keys. rewrite (wrap64_small (size * 2)), (wrap64_small (64 + _)) by lia.
    destruct (Z.ltb_spec (64 + size * 2) 56); [lia|]. by eexists.
  - intros i Hi. unfold KeyMapRemoveKeyStrokesBuffer. specialize (Hh i Hi). destruct (KeyMapGetKeyStrokesByIndex _ _ i) as [n| |] eqn:Eg; [|done|by eexists].
    apply key_get_at in Eg as (x & -> & _). by eexists.
  - intros i mods ks n Hi Hn. unfold KeyMapSetKeyStrokeBufferKeys. specialize (Hh i Hi). destruct (KeyMapGetKeyStrokesByIndex _ _ i) as [p| |] eqn:Eg; [|done|by eexists].
    apply key_get_at in Eg as (x & Hx & _). rewrite Hx. cbn [mbind option_bind]. destruct (Z.leb_spec n (KeyBufferSize x)); [|by eexists].
    destruct (Forall_lookup_1 _ _ _ _ (ai_infos g Hg) Hx) as (Hk & Hk2 & Hk3). unfold copy_words. destruct (Z.leb_spec n (Z.of_nat (length ks))); [|lia].
    destruct (Z.leb_spec n (Z.of_nat (length (Keys x)))); [|lia]. by eexists.
  - intros count [buf Hb] Hhalf. destruct (decide (KeyStrokesInfoList g = [])) as [E|Hne]; [unfold ReadKeyState; rewrite E; by eexists|].
    pose proof (read_spec count None g Hne (info_inv_ok _ (ai_infos g Hg)) ltac:(done)) as Hs. cbv zeta in Hs. destruct (ReadKeyState count None g); [by eexists|]. exfalso.
    rewrite Hb in Hs. cbn in Hs. pose proof (ai_buffer g Hg buf Hb). pose proof (distinct_length (all_keys (KeyStrokesInfoList g)) []) as Hd. cbn [length] in Hd.
    rewrite <- (all_keys_length _ (ai_infos g Hg)) in Hhalf. unfold pressed_keys in Hs. lia.
Qed.

(** ** Two keyboards *)

(** The first holds down two keys with a modifier, the second one of the same keys. *)
Definition keyboards : APPLE_KEY_MAP_AGGREGATOR := {|
  NextKeyStrokeIndex := 3002; KeyBuffer := Some (zero_words 12); KeyBuffersSize := 12;
  KeyStrokesInfoList := [
    {| Index := 3000; KeyBufferSize := 6; NumberOfKeys := 2; Modifiers := 2; Keys := [0x7005; 0x7004] ++ replicate 8 0 |};
    {| Index := 3001; KeyBufferSize := 6; NumberOfKeys := 1; Modifiers := 8; Keys := [0x7004] ++ replicate 9 0 |}] |}.

Lemma keyboards_ok : Forall info_ok (KeyStrokesInfoList keyboards).
Proof. repeat constructor; unfold info_ok; vm_compute; discriminate. Qed.

Lemma read_key_state_witness :
  ∃ D r g', ReadKeyState 4 (Some [1; 2; 3; 4]) keyboards = Some (r, g') ∧ NoDup D ∧ length D = 2%nat ∧ ks_flags r = Some (all_modifiers (KeyStrokesInfoList keyboards)) ∧
    ks_keys r = Some (D ++ drop (length D) [1; 2; 3; 4]).
Proof.
  assert (∃ r g', ReadKeyState 4 (Some [1; 2; 3; 4]) keyboards = Some (r, g') ∧ ks_count r = 2) as (r & g' & E & Hc) by (eexists _, _; split; [vm_compute; reflexivity|reflexivity]).
  destruct (read_key_state 4 (Some [1; 2; 3; 4]) keyboards ltac:(discriminate) keyboards_ok ltac:(intros d [= <-]; simpl; lia)) as (D & Hd & _ & Hr).
  rewrite E in Hr. destruct Hr as (_ & Hn & _ & Hr). assert (length D = 2%nat) as Hl by lia.
  exists D, r, g'. split; [exact E|]. split; [exact Hd|]. split; [exact Hl|]. rewrite Hl in Hr |- *. cbn in Hr. destruct Hr as (_ & Hf & Hk). split; [exact Hf|exact Hk].
Defined.

Lemma key_search_witness :
  ∃ ks' g', SearchKeyStroke (replicate 8 0) 10 2 (Some [0x7004; 0x7005]) true keyboards = Some (EFI_SUCCESS, Some ks', g') ∧
    all_modifiers (KeyStrokesInfoList keyboards) = 10 ∧ [0x7004; 0x7005] ≡ₚ pressed_keys keyboards.
Proof.
  assert ((λ r, r.1.1) <$> SearchKeyStroke (replicate 8 0) 10 2 (Some [0x7004; 0x7005]) true keyboards = Some EFI_SUCCESS) as Hs by (vm_compute; reflexivity).
  destruct (key_search keyboards keyboards_ok ltac:(vm_compute; lia) (replicate 8 0) 10 2 [0x7004; 0x7005] true ltac:(reflexivity) ltac:(simpl; lia))
    as (st & ks' & g' & E & _ & _ & Hiff).
  change (Z.of_nat 2) with 2 in E. rewrite E in Hs. injection Hs as ->. exists ks', g'. split; [exact E|]. by apply Hiff.
Defined.

(** A buffer for six keys, as AppleKeyFeeder creates it, and four pressed keys. *)
Lemma read_overflows_witness :
  ∃ i g1 g2, KeyMapCreateKeyStrokesBuffer true true 6 new_aggregator = Some (EFI_SUCCESS, Some i, g1) ∧
    KeyMapSetKeyStrokeBufferKeys 0x10000 i 0 4 (Some [0x7004; 0x7005; 0x7006; 0x7007]) g1 = Some (EFI_SUCCESS, g2) ∧ ReadKeyState 8 None g2 = None.
Proof.
  exact (read_overflows 0x10000 6 [0x7004; 0x7005; 0x7006; 0x7007] 8 ltac:(lia) ltac:(apply (bool_decide_unpack _); vm_compute; exact I) ltac:(vm_compute; split; [reflexivity|discriminate])).
Defined.

Lemma aggregator_calls_witness :
  ∃ g, rtc (kstep 0x10000) new_aggregator g ∧ fst <$> KeyMapRemoveKeyStrokesBuffer 0x10000 3000 g = Some EFI_SUCCESS ∧ is_Some (ReadKeyState 8 None g).
Proof.
  assert (∃ g, rtc (kstep 0x10000) new_aggregator g ∧ fst <$> KeyMapRemoveKeyStrokesBuffer 0x10000 3000 g = Some EFI_SUCCESS ∧ is_Some (KeyBuffer g) ∧
    foldr (λ x n, NumberOfKeys x + n) 0 (KeyStrokesInfoList g) ≤ KeyBuffersSize g / 2) as (g & Hr & Hm & Hb & Hh).
  { eexists. split; [|split; [|split]].
    - eapply rtc_l; [eapply (k_create _ true true 6); [lia|simpl; lia|simpl; lia|vm_compute; reflexivity]|].
      eapply rtc_l; [eapply (k_set _ 3000 2 1 (Some [0x7004])); [lia|vm_compute; reflexivity]|]. apply rtc_refl.
    - vm_compute. reflexivity.
    - by eexists.
    - vm_compute. discriminate. }
  exists g. split; [exact Hr|]. split; [exact Hm|]. by apply (aggregator_calls 0x10000 g Hr).
Defined.

(** The head of the list taken for a buffer. *)
Example head_removed : KeyMapRemoveKeyStrokesBuffer 0x10000 0x10000 keyboards = None.
Proof. reflexivity. Qed.

(** The first key is pressed, the second is not, and the search succeeds. *)
Example half_match : (λ r, r.1.1) <$> SearchKeyStroke (replicate 8 0) 2 2 (Some [0x7004; 0x7050]) false keyboards = Some EFI_SUCCESS.
Proof. vm_compute. reflexivity. Qed.

(** A size whose product with two wraps is accepted, and the keys do not fit the allocation. *)
Example size_wraps :
  (λ r, (r.1.1, KeyMapSetKeyStrokeBufferKeys 0x10000 3000 0 5 (Some [1; 2; 3; 4; 5]) {|
     NextKeyStrokeIndex := 0; KeyBuffer := None; KeyBuffersSize := 0; KeyStrokesInfoList := KeyStrokesInfoList r.2 |})) <$>
    KeyMapCreateKeyStrokesBuffer true true (2 ^ 63)
      {| NextKeyStrokeIndex := 3000; KeyBuffer := None; KeyBuffersSize := 2 ^ 63; KeyStrokesInfoList := [] |} = Some (EFI_SUCCESS, None).
Proof. vm_compute. reflexivity. Qed.
