(* ===== verification/KeyFeeder.v ===== *)
(** * AppleKeyFeeder: keys of the firmware for boot.efi (AppleKeyFeeder)

    A timer reads the keys of the firmware's console, keeps them for later readers in a ring
    of 32 entries, and passes each one on to the key map database, from which a second timer
    removes it again.  The database is an interface: AppleKeyAggregator implements it, and a
    firmware may have one of its own.  The console and the timers' answers are arguments. *)

From Stdlib Require Import ZArith Lia.
From stdpp Require Import base list strings.
From S2P Require Import Prelude.

Open Scope Z_scope.

(** ** Keys *)

Record EFI_INPUT_KEY := { ScanCode : Z; UnicodeChar : Z }.
Record EFI_KEY_DATA := { Key : EFI_INPUT_KEY; KeyShiftState : Z; KeyToggleState : Z }.

#[global] Instance EFI_INPUT_KEY_eq_dec : EqDecision EFI_INPUT_KEY.
Proof. solve_decision. Defined.

#[global] Instance EFI_KEY_DATA_eq_dec : EqDecision EFI_KEY_DATA.
Proof. solve_decision. Defined.

(** The first switch, on scan codes. *)
Definition scan_keys : list (Z * Z) := [(0x01, 0x7052); (0x02, 0x7051); (0x03, 0x704F); (0x04, 0x7050)].

(** The second switch: the character, the key and the modifiers. *)
Definition char_keys : list (Z * (Z * Z)) := [
  (0x01, (0x7052, 0)); (0x02, (0x7051, 0)); (0x03, (0x7050, 0)); (0x04, (0x704F, 0)); (0x08, (0x702A, 0)); (0x0D, (0x7028, 0));
  (32, (0x702C, 0)); (33, (0x701E, 2)); (34, (0x7034, 2)); (35, (0x7020, 2)); (36, (0x7021, 2)); (37, (0x7022, 2)); (38, (0x7024, 2));
  (39, (0x7034, 0)); (40, (0x7026, 2)); (41, (0x7027, 2)); (42, (0x7025, 2)); (43, (0x702E, 2)); (44, (0x7036, 0)); (45, (0x702D, 0));
  (46, (0x7037, 0)); (47, (0x7038, 0)); (58, (0x7033, 2)); (59, (0x7033, 0)); (60, (0x7036, 2)); (61, (0x702E, 0)); (62, (0x7037, 2));
  (63, (0x7038, 2)); (64, (0x701F, 2)); (91, (0x702F, 0)); (92, (0x7031, 0)); (93, (0x7030, 0)); (94, (0x7023, 2)); (95, (0x702D, 2));
  (96, (0x7035, 0)); (123, (0x702F, 2)); (124, (0x7031, 2)); (125, (0x7030, 2)); (126, (0x7035, 2))].

Definition assoc {B} (c : Z) (l : list (Z * B)) : option B := snd <$> (snd <$> list_find (λ p, p.1 = c) l).

(** The key and the modifiers; digits leave the modifiers as they are. *)
Definition MapKeyData2AppleKey (KeyData : EFI_KEY_DATA) (CurModifierMap : Z) : option Z * Z :=
  let c := UnicodeChar (Key KeyData) in
  if c =? 0 then (assoc (ScanCode (Key KeyData)) scan_keys, 0)
  else if (97 <=? c) && (c <=? 122) then (Some (wrap16 (0x7004 + (c - 97))), 0)
  else if (65 <=? c) && (c <=? 90) then (Some (wrap16 (0x7004 + (c - 65))), 2)
  else if c =? 48 then (Some 0x7027, CurModifierMap)
  else if (49 <=? c) && (c <=? 57) then (Some (wrap16 (0x701E + (c - 49))), CurModifierMap)
  else match assoc c char_keys with Some (k, m) => (Some k, m) | None => (None, 0) end.

(** ** The database *)

(** The protocol as the feeder uses it: creating a buffer of a size, with whether there is
    memory, and setting the modifiers and keys of a buffer. *)
Class KeyDatabase (D : Type) := {
  CreateKeyStrokesBuffer : bool * bool → Z → D → option (EFI_STATUS * option Z * D);
  SetKeyStrokeBufferKeys : Z → Z → Z → option (list Z) → D → option (EFI_STATUS * D)
}.

(** ** The ring *)

(** The array and the two indices; the proxies have one each. *)
Record Ring (A : Type) := { KeyDataBuffer : list A; KeyDataBufferIndexStart : Z; KeyDataBufferIndexEnd : Z }.
Arguments KeyDataBuffer {A}.
Arguments KeyDataBufferIndexStart {A}.
Arguments KeyDataBufferIndexEnd {A}.

Definition KEYDATABUFFER_SIZE_MINUS_ONE : Z := 31.

Definition ring_read {A} (r : Ring A) : option (EFI_STATUS * option A * Ring A) :=
  if KeyDataBufferIndexStart r =? KeyDataBufferIndexEnd r then Some (EFI_NOT_READY, None, r) else
  k ← KeyDataBuffer r !! Z.to_nat (KeyDataBufferIndexStart r);
  Some (EFI_SUCCESS, Some k, {|
    KeyDataBuffer := KeyDataBuffer r; KeyDataBufferIndexStart := Z.land (KeyDataBufferIndexStart r + 1) KEYDATABUFFER_SIZE_MINUS_ONE;
    KeyDataBufferIndexEnd := KeyDataBufferIndexEnd r |}).

Definition ring_put {A} (k : A) (r : Ring A) : option (Ring A) :=
  if KeyDataBufferIndexEnd r <? Z.of_nat (length (KeyDataBuffer r)) then
    Some {| KeyDataBuffer := <[Z.to_nat (KeyDataBufferIndexEnd r) := k]> (KeyDataBuffer r); KeyDataBufferIndexStart := KeyDataBufferIndexStart r;
            KeyDataBufferIndexEnd := Z.land (KeyDataBufferIndexEnd r + 1) KEYDATABUFFER_SIZE_MINUS_ONE |}
  else None.

(** Whether the event for a waiting reader is signalled. *)
Definition ring_ready {A} (r : Ring A) : bool := negb (KeyDataBufferIndexStart r =? KeyDataBufferIndexEnd r).

(** The console in the system table. *)
Inductive Console := OriginalSimpleText | AppleKeyFeederSimpleTextProxy.
Record EFI_SYSTEM_TABLE := { ConsoleInHandle : Z; ConIn : Console }.

Section Feeder.
Context {D : Type} `{KeyDatabase D}.

(** The statics: the rings of the two proxies, whether the extended console was found, the
    database's pointer and index, whether the release timer runs; and the machine's
    database, if there is one. *)
Record Feeder := {
  f_ex : Ring EFI_KEY_DATA; f_plain : Ring EFI_INPUT_KEY; ReadKeyStrokeEx : bool; AppleKeyMapDb : bool; AppleKeyMapDbIndex : Z;
  eventKeyRelease : bool; f_db : option D
}.

Definition set_db (found : bool) (i : Z) (d : option D) (f : Feeder) : Feeder := {|
  f_ex := f_ex f; f_plain := f_plain f; ReadKeyStrokeEx := ReadKeyStrokeEx f; AppleKeyMapDb := found; AppleKeyMapDbIndex := i;
  eventKeyRelease := eventKeyRelease f; f_db := d |}.
Definition set_timer (on : bool) (f : Feeder) : Feeder := {|
  f_ex := f_ex f; f_plain := f_plain f; ReadKeyStrokeEx := ReadKeyStrokeEx f; AppleKeyMapDb := AppleKeyMapDb f; AppleKeyMapDbIndex := AppleKeyMapDbIndex f;
  eventKeyRelease := on; f_db := f_db f |}.
Definition set_ex (r : Ring EFI_KEY_DATA) (f : Feeder) : Feeder := {|
  f_ex := r; f_plain := f_plain f; ReadKeyStrokeEx := ReadKeyStrokeEx f; AppleKeyMapDb := AppleKeyMapDb f; AppleKeyMapDbIndex := AppleKeyMapDbIndex f;
  eventKeyRelease := eventKeyRelease f; f_db := f_db f |}.
Definition set_plain (r : Ring EFI_INPUT_KEY) (f : Feeder) : Feeder := {|
  f_ex := f_ex f; f_plain := r; ReadKeyStrokeEx := ReadKeyStrokeEx f; AppleKeyMapDb := AppleKeyMapDb f; AppleKeyMapDbIndex := AppleKeyMapDbIndex f;
  eventKeyRelease := eventKeyRelease f; f_db := f_db f |}.

(** ** Passing keys on *)

(** The pointer is set although the buffer may not be created. *)
Definition getAppleKeyMapDb (mem : bool * bool) (f : Feeder) : option (EFI_STATUS * Feeder) :=
  match f_db f with
  | None => Some (EFI_NOT_FOUND, f)
  | Some d =>
      r ← CreateKeyStrokesBuffer mem 6 d;
      let '(Status, i, d) := r in Some (Status, set_db true (default (AppleKeyMapDbIndex f) i) (Some d) f)
  end.

(** [timer] is the status of SetTimer. *)
Definition SendDataToAppleMap (mem : bool * bool) (timer : EFI_STATUS) (KeyData : EFI_KEY_DATA) (f : Feeder) : option (EFI_STATUS * Feeder) :=
  f ← (if AppleKeyMapDb f then Some f else snd <$> getAppleKeyMapDb mem f);
  if negb (AppleKeyMapDb f) then Some (EFI_NOT_FOUND, f) else
  match MapKeyData2AppleKey KeyData 0 with
  | (Some appleKey, CurModifierMap) =>
      d ← f_db f;
      r ← SetKeyStrokeBufferKeys (AppleKeyMapDbIndex f) CurModifierMap 1 (Some [appleKey]) d;
      let '(Status, d) := r in
      let f := set_db true (AppleKeyMapDbIndex f) (Some d) f in
      if EFI_ERROR Status then Some (Status, f)
      else if EFI_ERROR timer then Some (timer, f) else Some (timer, set_timer true f)
  | (None, _) => Some (EFI_NOT_FOUND, f)
  end.

(** The handler of the release timer; [junk] is the key on the stack. *)
Definition SendKeyRelease (junk : Z) (timer : EFI_STATUS) (f : Feeder) : option Feeder :=
  d ← (if AppleKeyMapDb f then f_db f else None);
  r ← SetKeyStrokeBufferKeys (AppleKeyMapDbIndex f) 0 0 (Some [junk]) d;
  let f := set_db true (AppleKeyMapDbIndex f) (Some r.2) f in
  Some (if EFI_ERROR timer then f else set_timer false f).

(** ** The consoles *)

(** The keyboard timer of the extended console; [read] is what the firmware's console
    returns.  The first result says whether the handler signals its own event, so that it
    runs again for the next key. *)
Definition SimpleTextExProxyBufferKeyStroke (mem : bool * bool) (timer : EFI_STATUS) (read : option EFI_KEY_DATA) (f : Feeder) : option (bool * Feeder) :=
  match read with
  | None => Some (false, f)
  | Some keyData => r ← ring_put keyData (f_ex f); s ← SendDataToAppleMap mem timer keyData (set_ex r f); Some (true, s.2)
  end.

Definition SimpleTextProxyBufferKeyStroke (mem : bool * bool) (timer : EFI_STATUS) (read : option EFI_INPUT_KEY) (f : Feeder) : option (bool * Feeder) :=
  match read with
  | None => Some (false, f)
  | Some key =>
      r ← ring_put key (f_plain f);
      s ← SendDataToAppleMap mem timer {| Key := key; KeyShiftState := 0; KeyToggleState := 0 |} (set_plain r f); Some (true, s.2)
  end.

Definition SimpleTextExProxyReadKeyStroke (f : Feeder) : option (EFI_STATUS * option EFI_KEY_DATA * Feeder) :=
  r ← ring_read (f_ex f); Some (r.1, set_ex r.2 f).

Definition SimpleTextProxyReadKeyStroke (f : Feeder) : option (EFI_STATUS * option EFI_INPUT_KEY * Feeder) :=
  if ReadKeyStrokeEx f then
    SimpleTextExProxyReadKeyStroke f ≫= λ r, let '(Status, k, f) := r in Some (Status, option_map Key k, f)
  else ring_read (f_plain f) ≫= λ r, let '(Status, k, p) := r in Some (Status, k, set_plain p f).

Definition WaitForKeyExEvent (f : Feeder) : bool := ring_ready (f_ex f).
Definition WaitForKeyEvent (f : Feeder) : bool := ring_ready (f_plain f).

(** The waiting event and the timer that the entry point creates. *)
Definition waits (f : Feeder) : bool := if ReadKeyStrokeEx f then WaitForKeyExEvent f else WaitForKeyEvent f.

Definition keyboard_timer (mem : bool * bool) (timer : EFI_STATUS) (read : option EFI_KEY_DATA) (f : Feeder) : option (bool * Feeder) :=
  if ReadKeyStrokeEx f then SimpleTextExProxyBufferKeyStroke mem timer read f
  else SimpleTextProxyBufferKeyStroke mem timer (Key <$> read) f.

Definition zero_key : EFI_INPUT_KEY := {| ScanCode := 0; UnicodeChar := 0 |}.
Definition zero_data : EFI_KEY_DATA := {| Key := zero_key; KeyShiftState := 0; KeyToggleState := 0 |}.

(** [ex] is the answer for the extended console. *)
Definition SimpleTextExProxyInit (ex : EFI_STATUS) (f : Feeder) : EFI_STATUS * Feeder :=
  (ex, {| f_ex := f_ex f; f_plain := f_plain f; ReadKeyStrokeEx := negb (EFI_ERROR ex); AppleKeyMapDb := AppleKeyMapDb f;
          AppleKeyMapDbIndex := AppleKeyMapDbIndex f; eventKeyRelease := eventKeyRelease f; f_db := f_db f |}).

Definition feeder_static (d : option D) : Feeder := {|
  f_ex := {| KeyDataBuffer := replicate 32 zero_data; KeyDataBufferIndexStart := 0; KeyDataBufferIndexEnd := 0 |};
  f_plain := {| KeyDataBuffer := replicate 32 zero_key; KeyDataBufferIndexStart := 0; KeyDataBufferIndexEnd := 0 |};
  ReadKeyStrokeEx := false; AppleKeyMapDb := false; AppleKeyMapDbIndex := 0; eventKeyRelease := false; f_db := d |}.

(** The console of the system table becomes the proxy in any case. *)
Definition SimpleTextProxyInit (ImageHandle : Z) (ex : EFI_STATUS) (f : Feeder) : EFI_STATUS * EFI_SYSTEM_TABLE * Feeder :=
  let '(Status, f) := SimpleTextExProxyInit ex f in (Status, {| ConsoleInHandle := ImageHandle; ConIn := AppleKeyFeederSimpleTextProxy |}, f).

(** [install] is the answer for the protocols.  If an event cannot be created, its handler
    is never called.  When the result is an error the firmware unloads the image: what calls
    into it do after that is not modelled. *)
Definition AppleKeyFeederEntrypoint (ImageHandle : Z) (ex install : EFI_STATUS) (d : option D) : EFI_STATUS * EFI_SYSTEM_TABLE * Feeder :=
  let '(_, SystemTable, f) := SimpleTextProxyInit ImageHandle ex (feeder_static d) in (install, SystemTable, f).
End Feeder.
Arguments Feeder : clear implicits.
