(* ===== verification/KeyFeederTheorems.v ===== *)
(** * AppleKeyFeeder: a queue of keys, and one key in the database

    The feeder's rings and its buffer in the database refine an abstract keyboard: a queue of
    at most 31 keys, and the key that is shown until it is released. *)

From Stdlib Require Import ZArith Lia.
From stdpp Require Import base list strings.
From S2P Require Import Prelude KeyAggregator KeyTheorems KeyFeeder.

Open Scope Z_scope.

(** ** The ring is a queue *)

(** The queue in the ring: from the start to the end. *)
Record ring_rep {A} (r : Ring A) (q : list A) : Prop := {
  rr_length : length (KeyDataBuffer r) = 32%nat;
  rr_start : 0 ≤ KeyDataBufferIndexStart r < 32;
  rr_end : 0 ≤ KeyDataBufferIndexEnd r < 32;
  rr_count : Z.of_nat (length q) = (KeyDataBufferIndexEnd r - KeyDataBufferIndexStart r) mod 32;
  rr_keys : ∀ i x, q !! i = Some x → KeyDataBuffer r !! Z.to_nat ((KeyDataBufferIndexStart r + Z.of_nat i) mod 32) = Some x
}.

(** A key that does not fit any more makes the queue empty. *)
Definition q_put {A} (k : A) (q : list A) : list A := if (length q =? 31)%nat then [] else q ++ [k].

Lemma next_index x : 0 ≤ x < 32 → Z.land (x + 1) KEYDATABUFFER_SIZE_MINUS_ONE = (x + 1) mod 32.
Proof. intros _. change KEYDATABUFFER_SIZE_MINUS_ONE with (Z.ones 5). by rewrite Z.land_ones. Qed.

Lemma ring_put_spec {A} (k : A) r q : ring_rep r q → ∃ r', ring_put k r = Some r' ∧ ring_rep r' (q_put k q).
Proof.
  intros [Hl Hs He Hc Hk]. unfold ring_put. destruct (Z.ltb_spec (KeyDataBufferIndexEnd r) (Z.of_nat (length (KeyDataBuffer r)))); [|lia].
  eexists. split; [reflexivity|]. unfold q_put. destruct (Nat.eqb_spec (length q) 31) as [E|E];
    split; cbn [KeyDataBuffer KeyDataBufferIndexStart KeyDataBufferIndexEnd]; rewrite ?length_insert, ?next_index by done; try done; try lia.
  - cbn [length]. lia.
  - rewrite length_app. cbn [length]. lia.
  - intros i x Hi. apply lookup_snoc_Some in Hi as [[Hi Hx]|[-> ->]].
    + rewrite list_lookup_insert_ne by lia. by apply Hk.
    + replace ((KeyDataBufferIndexStart r + Z.of_nat (length q)) mod 32) with (KeyDataBufferIndexEnd r) by lia.
      apply list_lookup_insert_eq. lia.
Qed.

Lemma ring_read_spec {A} (r : Ring A) q : ring_rep r q →
  ∃ r', ring_read r = Some (match q with [] => EFI_NOT_READY | _ => EFI_SUCCESS end, head q, r') ∧ ring_rep r' (tail q).
Proof.
  intros [Hl Hs He Hc Hk]. unfold ring_read. destruct q as [|k q].
  - cbn [length] in Hc. destruct (Z.eqb_spec (KeyDataBufferIndexStart r) (KeyDataBufferIndexEnd r)); [|lia]. by exists r.
  - cbn [length] in Hc. destruct (Z.eqb_spec (KeyDataBufferIndexStart r) (KeyDataBufferIndexEnd r)); [lia|].
    pose proof (Hk 0%nat k eq_refl) as H0. replace ((KeyDataBufferIndexStart r + Z.of_nat 0) mod 32) with (KeyDataBufferIndexStart r) in H0 by lia.
    rewrite H0. cbn [mbind option_bind]. eexists. split; [reflexivity|].
    split; cbn [KeyDataBuffer KeyDataBufferIndexStart KeyDataBufferIndexEnd tail]; rewrite ?next_index by done; try done; try lia.
    intros i x Hi. specialize (Hk (S i) x Hi).
    by replace (((KeyDataBufferIndexStart r + 1) mod 32 + Z.of_nat i) mod 32) with ((KeyDataBufferIndexStart r + Z.of_nat (S i)) mod 32) by lia.
Qed.

Lemma ring_ready_spec {A} (r : Ring A) q : ring_rep r q → ring_ready r = bool_decide (q ≠ []).
Proof.
  intros [_ Hs He Hc _]. unfold ring_ready. destruct q as [|k q]; cbn [length] in Hc;
    destruct (Z.eqb_spec (KeyDataBufferIndexStart r) (KeyDataBufferIndexEnd r)); try lia; done.
Qed.

(** ** The database *)

(** What the feeder relies on.  [db_buffer] is a buffer's size, modifiers and keys;
    [db_room] says that one more buffer can be created. *)
Class KeyDatabaseLaws (D : Type) `{KeyDatabase D} := {
  db_valid : D → Prop;
  db_room : D → Prop;
  db_buffer : D → Z → option (Z * Z * list Z);
  create_returns mem d : db_valid d → db_room d → ∃ st i d', CreateKeyStrokesBuffer mem 6 d = Some (st, i, d') ∧ db_valid d' ∧
    match i with
    | Some i => st = EFI_SUCCESS ∧ db_buffer d' i = Some (6, 0, [])
    | None => EFI_ERROR st = true ∧ ∀ j, db_buffer d' j = db_buffer d j
    end;
  set_found i mods keys n d size mods0 keys0 : db_valid d → db_buffer d i = Some (size, mods0, keys0) → 0 ≤ n ≤ size → n ≤ Z.of_nat (length keys) →
    ∃ d', SetKeyStrokeBufferKeys i mods n (Some keys) d = Some (EFI_SUCCESS, d') ∧ db_valid d' ∧ db_buffer d' i = Some (size, mods, take (Z.to_nat n) keys);
  (** no buffer has index 0 *)
  set_zero mods keys n d : db_valid d → 0 ≤ n → ∃ st, SetKeyStrokeBufferKeys 0 mods n (Some keys) d = Some (st, d) ∧ EFI_ERROR st = true
}.

(** ** The abstract keyboard *)

Inductive KeyEvent :=
| KeyboardTimer (mem : bool * bool) (timer : EFI_STATUS) (read : option EFI_KEY_DATA)
| ReleaseTimer (junk : Z) (timer : EFI_STATUS)
| ReadKey | ReadKeyEx | WaitKey.

Inductive KeyOutput := Nothing | TimerOut (again : bool) | ReadOut (st : EFI_STATUS) (k : option EFI_INPUT_KEY) | ReadExOut (st : EFI_STATUS) (k : option EFI_KEY_DATA) | WaitOut (ready : bool).

(** The queue, and the key and modifiers that are shown. *)
Record Keyboard := { kb_queue : list EFI_KEY_DATA; kb_shown : option (Z * Z) }.

Definition key_of (k : EFI_KEY_DATA) : option (Z * Z) := match MapKeyData2AppleKey k 0 with (Some a, m) => Some (a, m) | (None, _) => None end.

Definition read_status {A} (q : list A) : EFI_STATUS := match q with [] => EFI_NOT_READY | _ => EFI_SUCCESS end.

Definition kb_step (ex : bool) (e : KeyEvent) (s : Keyboard) : KeyOutput * Keyboard :=
  match e with
  | KeyboardTimer _ _ None => (TimerOut false, s)
  | KeyboardTimer _ _ (Some k) => (TimerOut true, {| kb_queue := q_put k (kb_queue s); kb_shown := match key_of k with Some a => Some a | None => kb_shown s end |})
  | ReleaseTimer _ _ => (Nothing, {| kb_queue := kb_queue s; kb_shown := None |})
  | ReadKey => (ReadOut (read_status (kb_queue s)) (Key <$> head (kb_queue s)), {| kb_queue := tail (kb_queue s); kb_shown := kb_shown s |})
  | ReadKeyEx =>
      if ex then (ReadExOut (read_status (kb_queue s)) (head (kb_queue s)), {| kb_queue := tail (kb_queue s); kb_shown := kb_shown s |})
      else (ReadExOut EFI_NOT_READY None, s)
  | WaitKey => (WaitOut (bool_decide (kb_queue s ≠ [])), s)
  end.

(** The events on the feeder; the release timer does nothing while it does not run. *)
Definition f_step {D} `{KeyDatabase D} (e : KeyEvent) (f : Feeder D) : option (KeyOutput * Feeder D) :=
  match e with
  | KeyboardTimer mem timer read => r ← keyboard_timer mem timer read f; Some (TimerOut r.1, r.2)
  | ReleaseTimer junk timer => if eventKeyRelease f then (λ f, (Nothing, f)) <$> SendKeyRelease junk timer f else Some (Nothing, f)
  | ReadKey => r ← SimpleTextProxyReadKeyStroke f; Some (ReadOut r.1.1 r.1.2, r.2)
  | ReadKeyEx => r ← SimpleTextExProxyReadKeyStroke f; Some (ReadExOut r.1.1 r.1.2, r.2)
  | WaitKey => Some (WaitOut (waits f), f)
  end.

(** Runs of events. *)
Fixpoint kb_run (ex : bool) (es : list KeyEvent) (s : Keyboard) : list KeyOutput * Keyboard :=
  match es with
  | [] => ([], s)
  | e :: es => let r := kb_step ex e s in let r' := kb_run ex es r.2 in (r.1 :: r'.1, r'.2)
  end.

Fixpoint f_run {D} `{KeyDatabase D} (es : list KeyEvent) (f : Feeder D) : option (list KeyOutput * Feeder D) :=
  match es with
  | [] => Some ([], f)
  | e :: es => r ← f_step e f; r' ← f_run es r.2; Some (r.1 :: r'.1, r'.2)
  end.

Section Refine.
Context {D : Type} `{KeyDatabaseLaws D}.

(** The queue of the feeder. *)
Definition queue_rel (f : Feeder D) (q : list EFI_KEY_DATA) : Prop :=
  if ReadKeyStrokeEx f then ring_rep (f_ex f) q else ring_rep (f_plain f) (Key <$> q) ∧ ring_rep (f_ex f) [].

(** The feeder and the database. *)
Definition linked (f : Feeder D) : Prop :=
  match f_db f with
  | None => AppleKeyMapDb f = false ∧ eventKeyRelease f = false
  | Some d => db_valid d ∧
      if AppleKeyMapDb f then AppleKeyMapDbIndex f = 0 ∨ ∃ mods keys, db_buffer d (AppleKeyMapDbIndex f) = Some (6, mods, keys)
      else db_room d ∧ AppleKeyMapDbIndex f = 0 ∧ eventKeyRelease f = false
  end.

(** What passing on a key does: the rings and consoles stay. *)
Definition same_rings (f f' : Feeder D) : Prop := f_ex f' = f_ex f ∧ f_plain f' = f_plain f ∧ ReadKeyStrokeEx f' = ReadKeyStrokeEx f.

Lemma queue_rel_same f f' q : same_rings f f' → queue_rel f q → queue_rel f' q.
Proof. unfold queue_rel. by intros (-> & -> & ->). Qed.

(** Setting keys of the feeder's buffer never fails to return. *)
Lemma set_returns d i mods keys n : db_valid d → i = 0 ∨ (∃ m k, db_buffer d i = Some (6, m, k)) → 0 ≤ n ≤ 6 → n ≤ Z.of_nat (length keys) →
  ∃ st d', SetKeyStrokeBufferKeys i mods n (Some keys) d = Some (st, d') ∧ db_valid d' ∧ (i = 0 ∨ ∃ m k, db_buffer d' i = Some (6, m, k)).
Proof.
  intros Hd [->|(m & k & Hb)] Hn Hk.
  - destruct (set_zero mods keys n d Hd ltac:(lia)) as (st & E & _). exists st, d. split; [done|]. split; [done|by left].
  - destruct (set_found _ mods keys n _ _ _ _ Hd Hb Hn Hk) as (d' & E & Hv & Hb'). eexists _, d'. split; [done|]. split; [done|]. right. by eexists _, _.
Qed.

Lemma link_returns mem f : linked f → ∃ f1, (if AppleKeyMapDb f then Some f else snd <$> getAppleKeyMapDb mem f) = Some f1 ∧ linked f1 ∧ same_rings f f1.
Proof.
  intros Hl. destruct (AppleKeyMapDb f) eqn:Ea; [by exists f|]. unfold getAppleKeyMapDb. pose proof Hl as Hl0. unfold linked in Hl. destruct (f_db f) as [d|] eqn:Ed; [|by exists f].
  rewrite Ea in Hl. destruct Hl as (Hv & Hr & Hi & He). destruct (create_returns mem d Hv Hr) as (st & i & d' & -> & Hv' & Hc). cbn [mbind option_bind fmap option_fmap option_map snd].
  eexists. split; [reflexivity|]. split; [|done]. unfold linked. cbn [set_db f_db AppleKeyMapDb AppleKeyMapDbIndex]. split; [done|].
  destruct i as [i|]; cbn [default]; [right; destruct Hc as [_ Hc]; by eexists _, _|by left].
Qed.

Lemma send_returns mem timer k f : linked f → ∃ st f', SendDataToAppleMap mem timer k f = Some (st, f') ∧ linked f' ∧ same_rings f f'.
Proof.
  intros Hl. unfold SendDataToAppleMap. destruct (link_returns mem f Hl) as (f1 & -> & Hl1 & Hs). cbn [mbind option_bind].
  destruct (AppleKeyMapDb f1) eqn:Ea; cbn [negb]; [|by eexists _, _]. destruct (MapKeyData2AppleKey k 0) as [[a|] m]; [|by eexists _, _].
  unfold linked in Hl1. destruct (f_db f1) as [d|] eqn:Ed; [|by destruct Hl1; congruence]. rewrite Ea in Hl1. destruct Hl1 as [Hv Hb]. cbn [mbind option_bind].
  destruct (set_returns d (AppleKeyMapDbIndex f1) m [a] 1 Hv Hb ltac:(lia) ltac:(simpl; lia)) as (st & d' & -> & Hv' & Hb'). cbn [mbind option_bind].
  destruct (EFI_ERROR st), (EFI_ERROR timer); eexists _, _; (split; [reflexivity|]); (split; [by split|done]).
Qed.

Lemma release_returns junk timer f : linked f → eventKeyRelease f = true → ∃ f', SendKeyRelease junk timer f = Some f' ∧ linked f' ∧ same_rings f f'.
Proof.
  intros Hl He. unfold SendKeyRelease, linked in *. destruct (f_db f) as [d|]; [|by destruct Hl; congruence].
  destruct (AppleKeyMapDb f); [|by destruct Hl as (_ & _ & _ & ?); congruence]. destruct Hl as [Hv Hb]. cbn [mbind option_bind].
  destruct (set_returns d (AppleKeyMapDbIndex f) 0 [junk] 0 Hv Hb ltac:(lia) ltac:(simpl; lia)) as (st & d' & -> & Hv' & Hb'). cbn [mbind option_bind snd].
  eexists. split; [reflexivity|]. destruct (EFI_ERROR timer); by split.
Qed.

Lemma timer_returns mem timer k f q : linked f → queue_rel f q →
  ∃ f', keyboard_timer mem timer (Some k) f = Some (true, f') ∧ linked f' ∧ queue_rel f' (q_put k q) ∧ ReadKeyStrokeEx f' = ReadKeyStrokeEx f.
Proof.
  intros Hl Hq. unfold keyboard_timer, queue_rel in *. destruct (ReadKeyStrokeEx f) eqn:Ex.
  - destruct (ring_put_spec k _ _ Hq) as (r & E & Hr). unfold SimpleTextExProxyBufferKeyStroke. rewrite E. cbn [mbind option_bind].
    destruct (send_returns mem timer k (set_ex r f) Hl) as (st & f' & -> & Hl' & S1 & S2 & S3). cbn [mbind option_bind snd]. exists f'.
    split; [done|]. split; [done|]. cbn [set_ex f_ex ReadKeyStrokeEx] in S1, S3. rewrite S3, Ex, S1. done.
  - destruct Hq as [Hp Hx]. destruct (ring_put_spec (Key k) _ _ Hp) as (r & E & Hr). cbn [fmap option_fmap option_map]. unfold SimpleTextProxyBufferKeyStroke. rewrite E. cbn [mbind option_bind].
    destruct (send_returns mem timer {| Key := Key k; KeyShiftState := 0; KeyToggleState := 0 |} (set_plain r f) Hl) as (st & f' & -> & Hl' & S1 & S2 & S3).
    cbn [mbind option_bind snd]. exists f'. split; [done|]. split; [done|]. cbn [set_plain f_ex f_plain ReadKeyStrokeEx] in S1, S2, S3. rewrite S3, Ex, S1, S2.
    split; [|done]. split; [|done]. unfold q_put in *. rewrite length_fmap in Hr. destruct (length q =? 31)%nat; [done|]. by rewrite fmap_app.
Qed.

(** One event. *)
Lemma step_refines e f s : linked f → queue_rel f (kb_queue s) →
  ∃ f', f_step e f = Some ((kb_step (ReadKeyStrokeEx f) e s).1, f') ∧ linked f' ∧ queue_rel f' (kb_queue (kb_step (ReadKeyStrokeEx f) e s).2) ∧ ReadKeyStrokeEx f' = ReadKeyStrokeEx f.
Proof.
  intros Hl Hq. destruct e as [mem timer [k|]|junk timer| | |]; cbn [f_step kb_step fst snd kb_queue].
  - destruct (timer_returns mem timer k f _ Hl Hq) as (f' & -> & Hl' & Hq' & Hx). by exists f'.
  - unfold keyboard_timer. by destruct (ReadKeyStrokeEx f) eqn:Ex; exists f.
  - destruct (eventKeyRelease f) eqn:He; [|by exists f]. destruct (release_returns junk timer f Hl He) as (f' & -> & Hl' & Hs). exists f'.
    split; [done|]. split; [done|]. split; [by apply (queue_rel_same f)|apply Hs].
  - unfold SimpleTextProxyReadKeyStroke, SimpleTextExProxyReadKeyStroke, queue_rel in *. destruct (ReadKeyStrokeEx f) eqn:Ex.
    + destruct (ring_read_spec _ _ Hq) as (r & -> & Hr). cbn [mbind option_bind fst snd]. eexists. split; [reflexivity|]. split; [done|].
      cbn [set_ex ReadKeyStrokeEx f_ex]. by rewrite Ex.
    + destruct Hq as [Hp Hx]. destruct (ring_read_spec _ _ Hp) as (r & -> & Hr). cbn [mbind option_bind fst snd]. eexists.
      split; [by destruct (kb_queue s)|]. split; [done|]. cbn [set_plain ReadKeyStrokeEx f_ex f_plain]. rewrite Ex. split; [|done]. split; [|done]. by destruct (kb_queue s).
  - unfold SimpleTextExProxyReadKeyStroke, queue_rel in *. destruct (ReadKeyStrokeEx f) eqn:Ex.
    + destruct (ring_read_spec _ _ Hq) as (r & -> & Hr). cbn [mbind option_bind fst snd]. eexists. split; [reflexivity|]. split; [done|].
      cbn [set_ex ReadKeyStrokeEx f_ex]. by rewrite Ex.
    + destruct Hq as [Hp Hx]. destruct (ring_read_spec _ _ Hx) as (r & -> & Hr). cbn [mbind option_bind fst snd]. eexists. split; [reflexivity|]. split; [done|].
      cbn [set_ex ReadKeyStrokeEx f_ex f_plain]. by rewrite Ex.
  - exists f. unfold waits, WaitForKeyExEvent, WaitForKeyEvent, queue_rel in *. destruct (ReadKeyStrokeEx f) eqn:Ex; cbn [fst snd].
    + by rewrite (ring_ready_spec _ _ Hq).
    + destruct Hq as [Hp Hx]. rewrite (ring_ready_spec _ _ Hp). split; [|done]. do 3 f_equal. by destruct (kb_queue s).
Qed.

Lemma entry_rel ImageHandle ex install d : match d with Some d => db_valid d ∧ db_room d | None => True end →
  let f := (AppleKeyFeederEntrypoint ImageHandle ex install d).2 in linked f ∧ queue_rel f [] ∧ ReadKeyStrokeEx f = negb (EFI_ERROR ex).
Proof.
  intros Hd f. assert (∀ A (x : A), ring_rep {| KeyDataBuffer := replicate 32 x; KeyDataBufferIndexStart := 0; KeyDataBufferIndexEnd := 0 |} []) as Hr
    by (intros A x; by split; cbn [KeyDataBuffer KeyDataBufferIndexStart KeyDataBufferIndexEnd]).
  split; [|split; [|done]].
  - unfold linked. cbn. destruct d as [d|]; [|done]. destruct Hd. by repeat split.
  - unfold queue_rel. cbn. destruct (negb (EFI_ERROR ex)); [apply Hr|]. split; apply Hr.
Qed.

(** C26. With any database that keeps its promises, and however the timers, the readers and the
    firmware's answers interleave, the feeder refines a keyboard with a queue: no call is
    undefined, every read and every wait answers as the queue of the keys typed so far does,
    in order; and the 32nd key that nobody reads empties the queue. *)
Theorem feeder_refines ImageHandle ex install d es : match d with Some d => db_valid d ∧ db_room d | None => True end →
  ∃ f', f_run es (AppleKeyFeederEntrypoint ImageHandle ex install d).2 = Some ((kb_run (negb (EFI_ERROR ex)) es {| kb_queue := []; kb_shown := None |}).1, f').
Proof.
  intros Hd. destruct (entry_rel ImageHandle ex install d Hd) as (Hl & Hq & Hx). cbv zeta in Hl, Hq, Hx. set (f := (AppleKeyFeederEntrypoint ImageHandle ex install d).2) in *. rewrite <- Hx. clearbody f.
  set (s := {| kb_queue := []; kb_shown := None |}). change [] with (kb_queue s) in Hq. clearbody s. clear Hx Hd.
  revert f s Hl Hq. induction es as [|e es IH]; intros f s Hl Hq; cbn [f_run kb_run fst]; [by eexists|].
  destruct (step_refines e f s Hl Hq) as (f1 & -> & Hl1 & Hq1 & Hx). cbn [mbind option_bind fst snd].
  destruct (IH f1 (kb_step (ReadKeyStrokeEx f) e s).2 Hl1 Hq1) as (f2 & E). rewrite E, Hx. cbn [mbind option_bind fst snd]. by eexists.
Qed.
End Refine.
