(* ===== verification/KeyChain.v ===== *)
(** * From the keyboard to boot.efi: AppleKeyFeeder with AppleKeyAggregator

    The aggregator keeps the promises of the database that the feeder relies on, and a key
    typed on the firmware's console is what the aggregator reports until it is released. *)

From Stdlib Require Import ZArith Lia.
From stdpp Require Import base list strings.
From S2P Require Import Prelude KeyAggregator KeyTheorems KeyFeeder KeyFeederTheorems.

Open Scope Z_scope.

(** The word behind the head of the aggregator's list. *)
Definition APPLE_KEY_MAP_PROTOCOLS_REVISION : Z := 0x010000.

#[global] Instance aggregator_db : KeyDatabase APPLE_KEY_MAP_AGGREGATOR := {
  CreateKeyStrokesBuffer mem n g := KeyMapCreateKeyStrokesBuffer mem.1 mem.2 n g;
  SetKeyStrokeBufferKeys i mods n keys g := KeyMapSetKeyStrokeBufferKeys APPLE_KEY_MAP_PROTOCOLS_REVISION i mods n keys g
}.

(** ** The aggregator as a database *)

Definition agg_buffer (g : APPLE_KEY_MAP_AGGREGATOR) (i : Z) : option (Z * Z * list Z) :=
  match KeyMapGetKeyStrokesByIndex APPLE_KEY_MAP_PROTOCOLS_REVISION (KeyStrokesInfoList g) i with
  | At n => (λ x, (KeyBufferSize x, Modifiers x, keys_of x)) <$> KeyStrokesInfoList g !! n
  | _ => None
  end.

Lemma get_insert head l p x y i : l !! p = Some x → Index y = Index x →
  KeyMapGetKeyStrokesByIndex head (<[p := y]> l) i = KeyMapGetKeyStrokesByIndex head l i.
Proof.
  revert p. induction l as [|z l IH]; intros p Hp Hi; [done|]. destruct p as [|p].
  - injection Hp as ->. cbn. by rewrite Hi.
  - cbn. destruct (Index z =? i); [done|]. by rewrite IH.
Qed.

Lemma get_append head l x i : Forall (λ y, Index y ≠ i) l → Index x = i → KeyMapGetKeyStrokesByIndex head (l ++ [x]) i = At (length l).
Proof.
  intros Hl <-. induction Hl as [|y l Hy _ IH]; cbn; [by rewrite Z.eqb_refl|]. destruct (Z.eqb_spec (Index y) (Index x)); [done|]. by rewrite IH.
Qed.

Lemma get_null head l i : Forall (λ y, Index y ≠ i) l → head ≠ i → KeyMapGetKeyStrokesByIndex head l i = Null.
Proof.
  intros Hl Hh. induction Hl as [|y l Hy _ IH]; cbn; [by destruct (Z.eqb_spec head i)|]. destruct (Z.eqb_spec (Index y) i); [done|]. by rewrite IH.
Qed.

#[global, program] Instance aggregator_db_laws : KeyDatabaseLaws APPLE_KEY_MAP_AGGREGATOR := {
  db_valid := agg_inv;
  db_room g := KeyBuffersSize g + 6 < 2 ^ 64 ∧ NextKeyStrokeIndex g + 1 < 2 ^ 64;
  db_buffer := agg_buffer
}.
Next Obligation.
  intros [m1 m2] g Hg [Hr1 Hr2]. assert (∃ st i g', KeyMapCreateKeyStrokesBuffer m1 m2 6 g = Some (st, i, g')) as (st & i & g' & E).
  { unfold KeyMapCreateKeyStrokesBuffer. destruct (negb m1 || negb m2); [by eexists _, _, _|]. by eexists _, _, _. }
  exists st, i, g'. split; [done|]. split; [by eapply (create_keeps m1 m2 6)|]. unfold KeyMapCreateKeyStrokesBuffer in E. destruct (negb m1 || negb m2).
  { injection E as <- <- <-. done. }
  injection E as <- <- <-. split; [done|]. unfold agg_buffer. cbn [KeyStrokesInfoList NextKeyStrokeIndex].
  rewrite get_append; [by rewrite list_lookup_middle| |done]. eapply Forall_impl; [apply (ai_index g Hg)|]. intros x Hx. cbn beta in Hx. lia.
Qed.
Next Obligation.
  intros i mods keys n g size m0 k0 Hg Hb Hn Hk. unfold agg_buffer in Hb. cbn [SetKeyStrokeBufferKeys aggregator_db].
  destruct (KeyMapGetKeyStrokesByIndex _ _ i) as [p| |] eqn:Eg; [|done|done]. destruct (KeyStrokesInfoList g !! p) as [x|] eqn:Hx; [|done]. injection Hb as <- <- <-.
  destruct (Forall_lookup_1 _ _ _ _ (ai_infos g Hg) Hx) as (Hi1 & Hi2 & Hi3).
  assert (∃ g', KeyMapSetKeyStrokeBufferKeys APPLE_KEY_MAP_PROTOCOLS_REVISION i mods n (Some keys) g = Some (EFI_SUCCESS, g') ∧
    g' = set_list (<[p := {| Index := Index x; KeyBufferSize := KeyBufferSize x; NumberOfKeys := n; Modifiers := mods; Keys := take (Z.to_nat n) keys ++ drop (Z.to_nat n) (Keys x) |}]> (KeyStrokesInfoList g)) g) as (g' & E & Eg').
  { unfold KeyMapSetKeyStrokeBufferKeys. rewrite Eg, Hx. cbn [mbind option_bind]. destruct (Z.leb_spec n (KeyBufferSize x)); [|lia]. unfold copy_words.
    destruct (Z.leb_spec n (Z.of_nat (length keys))); [|lia]. destruct (Z.leb_spec n (Z.of_nat (length (Keys x)))); [|lia]. by eexists. }
  exists g'. split; [done|]. split; [eapply set_keeps; [|exact E|done]; lia|]. rewrite Eg'. unfold agg_buffer. cbn [set_list KeyStrokesInfoList].
  rewrite (get_insert _ _ _ x), Eg by done. rewrite list_lookup_insert_eq by (by eapply lookup_lt_Some). cbn [fmap option_fmap option_map KeyBufferSize Modifiers]. do 2 f_equal.
  unfold keys_of. cbn [NumberOfKeys Keys]. rewrite take_app_le by (rewrite length_take; lia). by rewrite take_take, Nat.min_id.
Qed.
Next Obligation.
  intros mods keys n g Hg Hn. exists EFI_NOT_FOUND. split; [|done]. cbn. unfold KeyMapSetKeyStrokeBufferKeys. rewrite get_null; [done| |done].
  eapply Forall_impl; [apply (ai_index g Hg)|]. intros x Hx. cbn beta in Hx. lia.
Qed.

Lemma new_aggregator_ready : db_valid new_aggregator ∧ db_room new_aggregator.
Proof. split; [split; [constructor|split; constructor|done|done|done]|done]. Qed.

(** ** The chain *)

(** Events with memory and timers at hand. *)
Definition fortunate (e : KeyEvent) : Prop :=
  match e with
  | KeyboardTimer mem timer _ => mem = (true, true) ∧ timer = EFI_SUCCESS
  | ReleaseTimer _ timer => timer = EFI_SUCCESS
  | _ => True
  end.

(** The aggregator with the feeder's buffer, in which [shown] is pressed. *)
Definition shows (shown : option (Z * Z)) (g : APPLE_KEY_MAP_AGGREGATOR) : Prop :=
  ∃ ks, length ks = 10%nat ∧ (∀ k m, shown = Some (k, m) → head ks = Some k) ∧
    g = {| NextKeyStrokeIndex := 3001; KeyBuffer := Some [0; 0; 0]; KeyBuffersSize := 6;
           KeyStrokesInfoList := [{| Index := 3000; KeyBufferSize := 6; NumberOfKeys := match shown with Some _ => 1 | None => 0 end;
             Modifiers := match shown with Some (_, m) => m | None => 0 end; Keys := ks |}] |}.

Definition chained (f : Feeder APPLE_KEY_MAP_AGGREGATOR) (s : Keyboard) : Prop :=
  eventKeyRelease f = bool_decide (is_Some (kb_shown s)) ∧
  if AppleKeyMapDb f then AppleKeyMapDbIndex f = 3000 ∧ ∃ g, f_db f = Some g ∧ shows (kb_shown s) g
  else AppleKeyMapDbIndex f = 0 ∧ f_db f = Some new_aggregator ∧ kb_shown s = None.

Lemma set_shows shown mods n keys g : shows shown g → 0 ≤ n ≤ 1 → length keys = 1%nat →
  ∃ g', SetKeyStrokeBufferKeys 3000 mods n (Some keys) g = Some (EFI_SUCCESS, g') ∧
    (n = 1 → ∀ k, head keys = Some k → shows (Some (k, mods)) g') ∧ (n = 0 → mods = 0 → shows None g').
Proof.
  intros (ks & Hl & Hk & ->) Hn Hkeys. destruct keys as [|k [|]]; [done| |done]. cbn.
  destruct (Z.leb_spec n 6); [|lia]. unfold copy_words. cbn [length]. rewrite Hl. destruct (Z.leb_spec n (Z.of_nat 1)); [|lia]. destruct (Z.leb_spec n (Z.of_nat 10)); [|lia].
  eexists. split; [reflexivity|]. destruct ks as [|k0 ks]; [done|]. split.
  - intros -> k' [= <-]. exists (k :: ks). split; [done|]. split; [by intros ? ? [= <- <-]|done].
  - intros -> ->. exists (k0 :: ks). split; [done|]. split; [done|done].
Qed.

Lemma send_chained k f s : chained f s →
  ∃ st f', SendDataToAppleMap (true, true) EFI_SUCCESS k f = Some (st, f') ∧ same_rings f f' ∧
    chained f' {| kb_queue := q_put k (kb_queue s); kb_shown := match key_of k with Some a => Some a | None => kb_shown s end |}.
Proof.
  intros [Ht Hc]. unfold SendDataToAppleMap.
  assert (∃ f1 g, (if AppleKeyMapDb f then Some f else snd <$> getAppleKeyMapDb (true, true) f) = Some f1 ∧ same_rings f f1 ∧ AppleKeyMapDb f1 = true ∧
    AppleKeyMapDbIndex f1 = 3000 ∧ eventKeyRelease f1 = eventKeyRelease f ∧ f_db f1 = Some g ∧ shows (kb_shown s) g) as (f1 & g & -> & Hs & Ha & Hi & He & Hd & Hg).
  { destruct (AppleKeyMapDb f) eqn:Ea; [destruct Hc as (Hi & g & Hd & Hg); by exists f, g|]. destruct Hc as (Hi & Hd & Hn). unfold getAppleKeyMapDb. rewrite Hd. rewrite Hn.
    eexists _, _. split; [reflexivity|]. split; [done|]. split; [done|]. split; [done|]. split; [done|]. split; [reflexivity|]. by exists (replicate 10 0). }
  cbn [mbind option_bind]. rewrite Ha. cbn [negb]. unfold key_of. destruct (MapKeyData2AppleKey k 0) as [[a|] m].
  - rewrite Hd. cbn [mbind option_bind]. rewrite Hi. destruct (set_shows _ m 1 [a] g Hg ltac:(lia) eq_refl) as (g' & -> & Hg' & _). cbn [mbind option_bind EFI_ERROR].
    eexists _, _. split; [reflexivity|]. split; [done|]. split; [done|]. cbn. split; [done|]. exists g'. split; [done|]. by apply Hg'.
  - eexists _, _. split; [reflexivity|]. split; [done|]. split; [by rewrite He|]. rewrite Ha. split; [done|]. by exists g.
Qed.

Lemma chain_step e f s : fortunate e → chained f s → queue_rel f (kb_queue s) → linked f →
  ∃ f', f_step e f = Some ((kb_step (ReadKeyStrokeEx f) e s).1, f') ∧ chained f' (kb_step (ReadKeyStrokeEx f) e s).2.
Proof.
  intros He Hc Hq Hl. destruct (step_refines e f s Hl Hq) as (f' & E & _). exists f'. split; [exact E|].
  destruct e as [mem timer [k|]|junk timer| | |]; cbn [f_step kb_step snd] in *.
  - destruct He as [-> ->]. unfold keyboard_timer in E. destruct (ReadKeyStrokeEx f).
    + cbn [SimpleTextExProxyBufferKeyStroke] in E. destruct (ring_put k (f_ex f)) as [r|]; [|done]. cbn [mbind option_bind] in E.
      destruct (send_chained k (set_ex r f) s Hc) as (st & f1 & E1 & _ & Hc1). rewrite E1 in E. injection E as <-. done.
    + cbn [SimpleTextProxyBufferKeyStroke fmap option_fmap option_map] in E. destruct (ring_put (Key k) (f_plain f)) as [r|]; [|done]. cbn [mbind option_bind] in E.
      destruct (send_chained {| Key := Key k; KeyShiftState := 0; KeyToggleState := 0 |} (set_plain r f) s Hc) as (st & f1 & E1 & _ & Hc1). rewrite E1 in E. injection E as <-.
      destruct Hc1 as [H1 H2]. by split.
  - unfold keyboard_timer in E. destruct (ReadKeyStrokeEx f); injection E as <-; done.
  - cbn [fortunate] in He. subst timer. destruct Hc as [Ht Hc]. rewrite Ht in E. case_bool_decide as Hs.
    + unfold SendKeyRelease in E. destruct (AppleKeyMapDb f); [|destruct Hc as (_ & _ & Hn); rewrite Hn in Hs; by destruct Hs].
      destruct Hc as (Hi & g & Hd & Hg). rewrite Hd, Hi in E. cbn [mbind option_bind] in E. destruct (set_shows _ 0 0 [junk] g Hg ltac:(lia) eq_refl) as (g' & E' & _ & Hg').
      rewrite E' in E. injection E as <-. split; [done|]. cbn. split; [done|]. exists g'. split; [done|]. by apply Hg'.
    + injection E as <-. destruct (kb_shown s) eqn:Es; [by destruct Hs; eexists|]. split; cbn [kb_shown]; [by rewrite Ht|]. exact Hc.
  - unfold SimpleTextProxyReadKeyStroke, SimpleTextExProxyReadKeyStroke in E. destruct (ReadKeyStrokeEx f).
    + destruct (ring_read (f_ex f)) as [[[? ?] ?]|]; [|done]. cbn in E. injection E as _ _ <-. done.
    + destruct (ring_read (f_plain f)) as [[[? ?] ?]|]; [|done]. cbn in E. injection E as _ _ <-. done.
  - unfold SimpleTextExProxyReadKeyStroke in E. destruct (ring_read (f_ex f)) as [[[? ?] ?]|]; [|done]. cbn in E. destruct (ReadKeyStrokeEx f); injection E as _ _ <-; done.
  - injection E as _ <-. done.
Qed.

(** What the aggregator reports of the feeder's buffer. *)
Lemma read_shows shown g : shows shown g →
  ∃ g', ReadKeyState 8 (Some (replicate 8 0)) g = Some ({| ks_status := EFI_SUCCESS; ks_flags := Some (match shown with Some (_, m) => m | None => 0 end);
    ks_count := match shown with Some _ => 1 | None => 0 end; ks_keys := Some (match shown with Some (k, _) => k :: replicate 7 0 | None => replicate 8 0 end) |}, g').
Proof.
  intros (ks & Hl & Hk & ->). destruct ks as [|k0 ks]; [done|]. destruct shown as [[k m]|].
  - specialize (Hk k m eq_refl). injection Hk as ->. unfold ReadKeyState. cbn [KeyStrokesInfoList collect]. unfold pressed. cbn [NumberOfKeys Keys]. rewrite Hl.
    eexists. cbn.  reflexivity.
  - unfold ReadKeyState. cbn [KeyStrokesInfoList collect]. unfold pressed. cbn [NumberOfKeys Keys]. rewrite Hl. by eexists.
Qed.

(** C27. From the keyboard to boot.efi: with the aggregator as database, after any events, if
    memory and timers are at hand, boot.efi reads exactly the last key that was typed and has
    a counterpart on an Apple keyboard, with its modifiers, until the release timer has fired,
    and no key after that; reads of the console do not disturb this. *)
Theorem typed_key_reported ImageHandle ex install es : Forall fortunate es →
  ∃ outs f', f_run es (AppleKeyFeederEntrypoint ImageHandle ex install (Some new_aggregator)).2 = Some (outs, f') ∧
    let shown := kb_shown (kb_run (negb (EFI_ERROR ex)) es {| kb_queue := []; kb_shown := None |}).2 in
    ∃ g r g', f_db f' = Some g ∧ ReadKeyState 8 (Some (replicate 8 0)) g = Some (r, g') ∧ ks_status r = EFI_SUCCESS ∧
      ks_flags r = Some (match shown with Some (_, m) => m | None => 0 end) ∧ ks_count r = (match shown with Some _ => 1 | None => 0 end) ∧
      ks_keys r = Some (match shown with Some (k, _) => k :: replicate 7 0 | None => replicate 8 0 end).
Proof.
  intros Hes. destruct (entry_rel ImageHandle ex install (Some new_aggregator) new_aggregator_ready) as (Hl & Hq & Hx). cbv zeta in Hl, Hq, Hx.
  assert (chained (AppleKeyFeederEntrypoint ImageHandle ex install (Some new_aggregator)).2 {| kb_queue := []; kb_shown := None |}) as Hc by (by split).
  set (f := (AppleKeyFeederEntrypoint ImageHandle ex install (Some new_aggregator)).2) in *. rewrite <- Hx. clearbody f. clear Hx.
  set (s := {| kb_queue := []; kb_shown := None |}) in *. change [] with (kb_queue s) in Hq. clearbody s.
  revert f s Hl Hq Hc. induction Hes as [|e es He Hes IH]; intros f s Hl Hq Hc; cbn [f_run kb_run snd].
  - eexists _, f. split; [reflexivity|]. destruct Hc as [_ Hc]. destruct (AppleKeyMapDb f).
    + destruct Hc as (_ & g & Hd & Hg). destruct (read_shows _ _ Hg) as [g' E]. eexists g, _, g'. split; [done|]. split; [exact E|]. done.
    + destruct Hc as (_ & Hd & ->). eexists _, _, _. split; [exact Hd|]. split; [reflexivity|]. done.
  - destruct (step_refines e f s Hl Hq) as (f1 & E & Hl1 & Hq1 & Hx). destruct (chain_step e f s He Hc Hq Hl) as (f1' & E' & Hc1).
    rewrite E in E'. injection E' as <-. rewrite E. cbn [mbind option_bind fst snd].
    destruct (IH f1 _ Hl1 Hq1 Hc1) as (outs & f2 & E2 & H2). rewrite E2. cbn [mbind option_bind fst snd]. rewrite Hx in H2. by eexists _, f2.
Qed.

(** ** The key map *)

Definition typed (c : Z) : EFI_KEY_DATA := {| Key := {| ScanCode := 0; UnicodeChar := c |}; KeyShiftState := 0; KeyToggleState := 0 |}.

(** The printable characters. *)
Definition printable : list Z := Z.of_nat <$> seq 32 95.

(** Every printable character has a key, and no two share key and modifiers, so boot.efi can
    tell them apart. *)
Theorem key_map_injective c c' : c ∈ printable → c' ∈ printable →
  ∃ k m k' m', key_of (typed c) = Some (k, m) ∧ key_of (typed c') = Some (k', m') ∧ ((k, m) = (k', m') → c = c').
Proof.
  assert (forallb (λ c, forallb (λ c', match key_of (typed c), key_of (typed c') with Some a, Some b => negb (bool_decide (a = b)) || (c =? c') | _, _ => false end) printable)
    printable = true) as Hall by (vm_compute; reflexivity).
  intros Hc%list_elem_of_In Hc'%list_elem_of_In. rewrite forallb_forall in Hall. specialize (Hall c Hc). rewrite forallb_forall in Hall. specialize (Hall c' Hc').
  destruct (key_of (typed c)) as [[k m]|], (key_of (typed c')) as [[k' m']|]; try done. exists k, m, k', m'. split; [done|]. split; [done|]. intros E.
  rewrite bool_decide_true in Hall by done. by apply Z.eqb_eq.
Qed.

Lemma key_map_injective_witness : key_of (typed 33) = Some (0x701E, 2) ∧
  ∃ k m k' m', key_of (typed 33) = Some (k, m) ∧ key_of (typed 49) = Some (k', m') ∧ ((k, m) = (k', m') → 33 = 49).
Proof. split; [reflexivity|]. apply (key_map_injective 33 49); apply (bool_decide_unpack _); vm_compute; exact I. Defined.

(** ** Runs *)

(** The timer delivers a character. *)
Definition types (c : Z) : KeyEvent := KeyboardTimer (true, true) EFI_SUCCESS (Some (typed c)).

Lemma feeder_refines_witness :
  ∃ f', f_run [types 97; WaitKey; types 98; ReadKey; ReleaseTimer 0 EFI_SUCCESS; ReadKeyEx; ReadKey] (AppleKeyFeederEntrypoint 1 EFI_SUCCESS EFI_SUCCESS (Some new_aggregator)).2 =
    Some ([TimerOut true; WaitOut true; TimerOut true; ReadOut EFI_SUCCESS (Some (Key (typed 97))); Nothing; ReadExOut EFI_SUCCESS (Some (typed 98)); ReadOut EFI_NOT_READY None], f').
Proof. exact (feeder_refines 1 EFI_SUCCESS EFI_SUCCESS (Some new_aggregator) [types 97; WaitKey; types 98; ReadKey; ReleaseTimer 0 EFI_SUCCESS; ReadKeyEx; ReadKey] new_aggregator_ready). Defined.

Lemma typed_key_reported_witness :
  ∃ outs f' g r g', f_run [types 97; types 98] (AppleKeyFeederEntrypoint 1 EFI_NOT_FOUND EFI_SUCCESS (Some new_aggregator)).2 = Some (outs, f') ∧ f_db f' = Some g ∧
    ReadKeyState 8 (Some (replicate 8 0)) g = Some (r, g') ∧ ks_count r = 1 ∧ ks_keys r = Some (0x7005 :: replicate 7 0).
Proof.
  destruct (typed_key_reported 1 EFI_NOT_FOUND EFI_SUCCESS [types 97; types 98] ltac:(by repeat constructor)) as (outs & f' & E & g & r & g' & Hd & Hr & _ & _ & Hc & Hk).
  exists outs, f', g, r, g'. split; [exact E|]. split; [exact Hd|]. split; [exact Hr|]. split; [exact Hc|exact Hk].
Defined.

(** Thirty-two keys that nobody reads are all lost. *)
Example keys_lost :
  last <$> (fst <$> f_run (replicate 32 (types 97) ++ [ReadKey]) (AppleKeyFeederEntrypoint 1 EFI_SUCCESS EFI_SUCCESS (Some new_aggregator)).2) =
    Some (Some (ReadOut EFI_NOT_READY None)).
Proof. vm_compute. reflexivity. Qed.

(** If the first key finds no memory for the buffer, later keys are not shown either. *)
Example buffer_not_retried :
  (λ r, KeyStrokesInfoList <$> f_db r.2) <$>
    f_run [KeyboardTimer (false, true) EFI_SUCCESS (Some (typed 97)); types 98] (AppleKeyFeederEntrypoint 1 EFI_SUCCESS EFI_SUCCESS (Some new_aggregator)).2 = Some (Some []).
Proof. vm_compute. reflexivity. Qed.

(** When the protocols cannot be installed the image is unloaded, but the system table still
    names its console. *)
Example failed_install_hooked (d : option APPLE_KEY_MAP_AGGREGATOR) :
  (AppleKeyFeederEntrypoint 1 EFI_SUCCESS EFI_OUT_OF_RESOURCES d).1 = (EFI_OUT_OF_RESOURCES, {| ConsoleInHandle := 1; ConIn := AppleKeyFeederSimpleTextProxy |}).
Proof. reflexivity. Qed.
