(* ===== verification/SmcHelper.v ===== *)
(** * SMCHelper: the keys of a system management controller (SMCHelper.c)

    A controller that is emulated: a list of keys with their values, newest first, and the
    variables that hand written values over to the kernel extension.  The pool's answers and
    those of SetVariable are arguments; [None] is a null pointer followed or a copy outside
    of a buffer. *)

From Stdlib Require Import ZArith Lia.
From stdpp Require Import base list gmap strings.
From S2P Require Import Prelude.

Open Scope Z_scope.

(** ** Keys *)

(** A CHAR8 as an int, for compilers with signed and with unsigned characters. *)
Definition promote (signed_char : bool) (c : Z) : Z := if signed_char && (128 <=? c) then c - 256 else c.

Definition SMC_MAKE_IDENTIFIER (A B C D : Z) : Z := wrap32 (Z.lor (Z.lor (Z.lor (Z.shiftl A 24) (Z.shiftl B 16)) (Z.shiftl C 8)) D).

Definition SmcKeyTypeFlag : Z := SMC_MAKE_IDENTIFIER 102 108 97 103.

Definition SMC_KEY_ATTRIBUTE_WRITE : Z := Z.shiftl 1 6.
Definition SMC_KEY_ATTRIBUTE_READ : Z := Z.shiftl 1 7.

(** The characters of a key, most significant byte first. *)
Definition key_byte (x shift : Z) : Z := Z.land (Z.shiftr x shift) 0xFF.
Definition StringId (DataId : Z) : list Z := [key_byte DataId 24; key_byte DataId 16; key_byte DataId 8; Z.land DataId 0xFF; 0].

Definition SmcMakeKeyImpl (signed_char : bool) (Name : option (list Z)) (Key : bool) : option (EFI_STATUS * option Z) :=
  match Name with
  | Some (a :: b :: c :: d :: _) =>
      Some (if Key then (EFI_SUCCESS, Some (SMC_MAKE_IDENTIFIER (promote signed_char a) (promote signed_char b) (promote signed_char c) (promote signed_char d)))
            else (EFI_INVALID_PARAMETER, None))
  | Some _ => if Key then None else Some (EFI_INVALID_PARAMETER, None)
  | None => Some (EFI_INVALID_PARAMETER, None)
  end.

(** ** State *)

(** An entry of the list; [Data] is a buffer of the pool, or null. *)
Record SMC_STACK := { Id : Z; KeyType : Z; DataLen : Z; Attributes : Z; Data : option (list Z) }.

(** The list, and the variables with the GUID of the boot loader by their names. *)
Record Smc := { SmcStack : list SMC_STACK; Nvram : gmap (list Z) (list Z) }.

(** The search that all functions begin with. *)
Definition find_key (Key : Z) (stack : list SMC_STACK) : option (nat * SMC_STACK) := list_find (λ e, Id e = Key) stack.

(** CopyMem of [n] bytes to the start of a buffer. *)
Definition CopyMem (dst : list Z) (src : option (list Z)) (n : Z) : option (list Z) :=
  if n =? 0 then Some dst else
  src ← src;
  if (n <=? Z.of_nat (length src)) && (n <=? Z.of_nat (length dst)) then Some (take (Z.to_nat n) src ++ drop (Z.to_nat n) dst) else None.

(** ** Values *)

(** [mem] says whether the pool has the five bytes for [StringId]. *)
Definition SmcReadValueImpl (mem : bool) (Key Size : Z) (Value : option (list Z)) (s : Smc) : option (EFI_STATUS * option (list Z)) :=
  match Value with
  | None => Some (EFI_BUFFER_TOO_SMALL, None)
  | Some v =>
      if Size =? 0 then Some (EFI_BUFFER_TOO_SMALL, Some v) else
      if negb mem then None else
      match find_key Key (SmcStack s) with
      | Some (_, e) => v ← CopyMem v (Data e) (Z.min (DataLen e) Size); Some (EFI_SUCCESS, Some v)
      | None => Some (EFI_NOT_FOUND, Some v)
      end
  end.

(** The template of the name, with its final zero. *)
Definition name_template : list Z := str_bytes "fakesmc-key-CLKT-ui32" ++ [0].

Definition put_name (i : nat) (c : Z) (Name : list Z) : list Z := <[i := c]> Name.

Definition nvram_name (Key Type_ : Z) : list Z :=
  let Name := put_name 15 (key_byte Key 0) (put_name 14 (key_byte Key 8) (put_name 13 (key_byte Key 16) (put_name 12 (key_byte Key 24) name_template))) in
  let Name := put_name 20 (key_byte Type_ 0) (put_name 19 (key_byte Type_ 8) (put_name 18 (key_byte Type_ 16) (put_name 17 (key_byte Type_ 24) Name))) in
  if bool_decide (Name !! 20%nat = Some 0x20) then put_name 20 0 Name else Name.

(** A name ends before its first zero. *)
Fixpoint c_string (l : list Z) : list Z :=
  match l with [] => [] | c :: l => if c =? 0 then [] else c :: c_string l end.

(** SetVariable for a variable that is not volatile: no data deletes it. *)
Definition SetVariable (answer : EFI_STATUS) (name : list Z) (data : list Z) (nv : gmap (list Z) (list Z)) : gmap (list Z) (list Z) :=
  if EFI_ERROR answer then nv else match data with [] => delete name nv | _ => <[name := data]> nv end.

(** [mem] says whether the pool has the 44 bytes of the name. *)
Definition SetNvramForTheKey (mem : bool) (answer : EFI_STATUS) (Key Type_ Size : Z) (Value : list Z) (nv : gmap (list Z) (list Z)) :
  option (EFI_STATUS * gmap (list Z) (list Z)) :=
  if negb mem || negb (Size <=? Z.of_nat (length Value)) then None
  else Some (answer, SetVariable answer (c_string (nvram_name Key Type_)) (take (Z.to_nat Size) Value) nv).

Definition with_data (d : option (list Z)) (e : SMC_STACK) : SMC_STACK :=
  {| Id := Id e; KeyType := KeyType e; DataLen := DataLen e; Attributes := Attributes e; Data := d |}.

(** [mem]: the pool's first and second answer. *)
Definition SmcWriteValueImpl (mem : bool * bool) (answer : EFI_STATUS) (Key Size : Z) (Value : list Z) (s : Smc) : option (EFI_STATUS * Smc) :=
  match find_key Key (SmcStack s) with
  | Some (i, e) =>
      d ← (if Z.min (DataLen e) Size =? 0 then Some (Data e) else d ← Data e; Some <$> CopyMem d (Some Value) (Z.min (DataLen e) Size));
      r ← SetNvramForTheKey mem.1 answer Key (KeyType e) Size Value (Nvram s);
      Some (EFI_SUCCESS, {| SmcStack := <[i := with_data d e]> (SmcStack s); Nvram := r.2 |})
  | None =>
      if negb mem.1 then None else
      if mem.2 && negb (Size <=? Z.of_nat (length Value)) then None else
      let e := {| Id := Key; KeyType := SmcKeyTypeFlag; DataLen := Size; Attributes := Z.lor SMC_KEY_ATTRIBUTE_WRITE SMC_KEY_ATTRIBUTE_READ;
                  Data := if mem.2 then Some (take (Z.to_nat Size) Value) else None |} in
      Some (EFI_SUCCESS, {| SmcStack := e :: SmcStack s; Nvram := Nvram s |})
  end.

(** ** The list *)

(** [junk] is what the new buffer holds. *)
Definition SmcAddKeyImpl (mem : bool * bool) (junk : list Z) (Key Size Type_ Attributes_ : Z) (s : Smc) : option (EFI_STATUS * Smc) :=
  if negb mem.1 then None else
  let e := {| Id := Key; KeyType := Type_; DataLen := Size; Attributes := Attributes_; Data := if mem.2 then Some junk else None |} in
  Some (EFI_SUCCESS, {| SmcStack := e :: SmcStack s; Nvram := Nvram s |}).

(** The loop that counts. *)
Fixpoint count_loop (Index : Z) (stack : list SMC_STACK) : Z :=
  match stack with [] => Index | _ :: stack => count_loop (wrap32 (Index + 1)) stack end.

(** The buffer has at least four bytes. *)
Definition SmcGetKeyCountImpl (Count : option (list Z)) (s : Smc) : option (EFI_STATUS * option (list Z)) :=
  match Count with
  | None => Some (EFI_INVALID_PARAMETER, None)
  | Some (_ :: _ :: _ :: _ :: rest) =>
      let Index := count_loop 0 (SmcStack s) in
      Some (EFI_SUCCESS, Some (wrap8 (Z.shiftr Index 24) :: wrap8 (Z.shiftr Index 16) :: wrap8 (Z.shiftr Index 8) :: wrap8 Index :: rest))
  | Some _ => None
  end.

Fixpoint index_loop (Num Index : Z) (stack : list SMC_STACK) : option Z :=
  match stack with
  | [] => None
  | e :: stack => if Num =? Index then Some (Id e) else index_loop (wrap32 (Num + 1)) Index stack
  end.

(** [Key] says whether the pointer is set. *)
Definition SmcGetKeyFromIndexImpl (Index : Z) (Key : bool) (s : Smc) : EFI_STATUS * option Z :=
  if negb Key then (EFI_INVALID_PARAMETER, None) else
  match index_loop 0 Index (SmcStack s) with Some k => (EFI_SUCCESS, Some k) | None => (EFI_NOT_FOUND, None) end.

(** The three pointers are set, or one is not. *)
Definition SmcGetKeyInfoImpl (Key : Z) (pointers : bool) (s : Smc) : EFI_STATUS * option (Z * Z * Z) :=
  if negb pointers then (EFI_INVALID_PARAMETER, None) else
  match find_key Key (SmcStack s) with
  | Some (_, e) => (EFI_SUCCESS, Some (DataLen e, KeyType e, Attributes e))
  | None => (EFI_NOT_FOUND, None)
  end.

(** The loop frees every entry. *)
Fixpoint reset_loop (stack : list SMC_STACK) : list SMC_STACK :=
  match stack with [] => [] | _ :: stack => reset_loop stack end.

Definition SmcResetImpl (Mode : Z) (s : Smc) : EFI_STATUS * Smc :=
  (EFI_SUCCESS, if Mode =? 0 then s else {| SmcStack := reset_loop (SmcStack s); Nvram := Nvram s |}).

(** The state before the first call. *)
Definition smc_start (nv : gmap (list Z) (list Z)) : Smc := {| SmcStack := []; Nvram := nv |}.
