(* ===== verification/SmcTheorems.v ===== *)
(** * SMCHelper: a map of keys, and their variables

    The list refines a finite map from keys to values; as long as no key is added that is
    there, it also lists each key of the map once, newest first.  The variables are those of
    the pairs of key and type that were written. *)

From Stdlib Require Import ZArith Lia.
From stdpp Require Import base list gmap strings.
From S2P Require Import Prelude SmcHelper.

Open Scope Z_scope.

(** ** Names *)

(** A key or type without a zero byte. *)
Definition named (x : Z) : Prop := 0 ≤ x < 2 ^ 32 ∧ key_byte x 24 ≠ 0 ∧ key_byte x 16 ≠ 0 ∧ key_byte x 8 ≠ 0 ∧ key_byte x 0 ≠ 0.

#[global] Instance named_dec x : Decision (named x).
Proof. unfold named. apply _. Defined.

Definition var_name (Key Type_ : Z) : list Z := c_string (nvram_name Key Type_).

Lemma key_byte_div x s : 0 ≤ s → key_byte x s = (x / 2 ^ s) mod 256.
Proof. intros Hs. unfold key_byte. change 0xFF with (Z.ones 8). rewrite Z.land_ones, Z.shiftr_div_pow2 by lia. reflexivity. Qed.

Lemma key_bytes_inj x y : 0 ≤ x < 2 ^ 32 → 0 ≤ y < 2 ^ 32 →
  key_byte x 24 = key_byte y 24 → key_byte x 16 = key_byte y 16 → key_byte x 8 = key_byte y 8 → key_byte x 0 = key_byte y 0 → x = y.
Proof.
  intros Hx Hy. rewrite !key_byte_div by lia. change (2 ^ 24) with 16777216. change (2 ^ 16) with 65536. change (2 ^ 8) with 256. change (2 ^ 0) with 1. lia.
Qed.

Lemma c_string_cons c l : c ≠ 0 → c_string (c :: l) = c :: c_string l.
Proof. intros Hc. cbn [c_string]. by destruct (Z.eqb_spec c 0). Qed.

Lemma var_name_eq k t : named k → named t →
  var_name k t = str_bytes "fakesmc-key-" ++ [key_byte k 24; key_byte k 16; key_byte k 8; key_byte k 0; 45; key_byte t 24; key_byte t 16; key_byte t 8] ++
    (if bool_decide (key_byte t 0 = 32) then [] else [key_byte t 0]).
Proof.
  intros (_ & K1 & K2 & K3 & K4) (_ & T1 & T2 & T3 & T4). unfold var_name, nvram_name, put_name.
  change name_template with (str_bytes "fakesmc-key-" ++ [67; 76; 75; 84; 45; 117; 105; 51; 50; 0]).
  change (str_bytes "fakesmc-key-") with [102; 97; 107; 101; 115; 109; 99; 45; 107; 101; 121; 45].
  cbn [app insert list_insert lookup list_lookup]. repeat case_bool_decide; try congruence; do 12 (rewrite c_string_cons by lia); rewrite !c_string_cons by done; cbn [c_string Z.eqb app].
  - done.
  - by destruct (Z.eqb_spec (key_byte t 0) 0).
Qed.

(** Different keys or types have different variables. *)
Lemma var_name_inj k t k' t' : named k → named t → named k' → named t' → var_name k t = var_name k' t' → k = k' ∧ t = t'.
Proof.
  intros Hk Ht Hk' Ht'. rewrite !var_name_eq by done. intros [= E1 E2 E3 E4 E5 E6 E7 E8]%(inj (app (str_bytes "fakesmc-key-"))).
  destruct Hk as [Hk _], Hk' as [Hk' _], Ht as [Ht _], Ht' as [Ht' _]. split; apply key_bytes_inj; try done.
  repeat case_bool_decide; congruence.
Qed.

(** ** The abstract controller *)

Record Value := { v_type : Z; v_attributes : Z; v_data : list Z }.

(** The keys that have a value, each once, newest first; the values; the variables by key
    and type. *)
Record Controller := { c_keys : list Z; c_values : gmap Z Value; c_variables : gmap (Z * Z) (list Z) }.

Inductive SmcCall :=
| ReadValue (Key Size : Z) (buffer : list Z)
| WriteValue (answer : EFI_STATUS) (Key Size : Z) (value : list Z)
| AddKey (junk : list Z) (Key Size Type_ Attributes_ : Z)
| GetKeyCount (buffer : list Z)
| GetKeyFromIndex (Index : Z)
| GetKeyInfo (Key : Z)
| Reset (Mode : Z).

Inductive SmcOutput :=
| OutStatus (st : EFI_STATUS) | OutBuffer (st : EFI_STATUS) (buffer : list Z) | OutKey (st : EFI_STATUS) (k : option Z)
| OutInfo (st : EFI_STATUS) (info : option (Z * Z * Z)).

Definition found {A} (x : option A) : EFI_STATUS := match x with Some _ => EFI_SUCCESS | None => EFI_NOT_FOUND end.

(** [data] over the beginning of a buffer. *)
Definition overlay (data buffer : list Z) : list Z := data ++ drop (length data) buffer.

Definition big_endian (n : Z) : list Z := [(n / 2 ^ 24) mod 256; (n / 2 ^ 16) mod 256; (n / 2 ^ 8) mod 256; n mod 256].

Definition set_variable (answer : EFI_STATUS) (x : Z * Z) (data : list Z) (vars : gmap (Z * Z) (list Z)) : gmap (Z * Z) (list Z) :=
  if EFI_ERROR answer then vars else if decide (data = []) then delete x vars else <[x := data]> vars.

Definition c_write (answer : EFI_STATUS) (Key : Z) (data : list Z) (c : Controller) : Controller :=
  match c_values c !! Key with
  | Some v => {| c_keys := c_keys c; c_variables := set_variable answer (Key, v_type v) data (c_variables c);
      c_values := <[Key := {| v_type := v_type v; v_attributes := v_attributes v; v_data := overlay (take (length (v_data v)) data) (v_data v) |}]> (c_values c) |}
  | None => {| c_keys := Key :: c_keys c; c_variables := c_variables c;
      c_values := <[Key := {| v_type := SmcKeyTypeFlag; v_attributes := 0xC0; v_data := data |}]> (c_values c) |}
  end.

Definition c_step (call : SmcCall) (c : Controller) : SmcOutput * Controller :=
  match call with
  | ReadValue k n b =>
      (if n =? 0 then OutBuffer EFI_BUFFER_TOO_SMALL b
       else OutBuffer (found (c_values c !! k)) (overlay (take (Z.to_nat n) (from_option v_data [] (c_values c !! k))) b), c)
  | WriteValue answer k n x => (OutStatus EFI_SUCCESS, c_write answer k (take (Z.to_nat n) x) c)
  | AddKey junk k n t a =>
      (OutStatus EFI_SUCCESS, {| c_keys := if decide (is_Some (c_values c !! k)) then c_keys c else k :: c_keys c; c_variables := c_variables c; c_values := <[k := {| v_type := t; v_attributes := a; v_data := junk |}]> (c_values c) |})
  | GetKeyCount b => (OutBuffer EFI_SUCCESS (overlay (big_endian (Z.of_nat (length (c_keys c)))) b), c)
  | GetKeyFromIndex i => let k := c_keys c !! Z.to_nat i in (OutKey (found k) k, c)
  | GetKeyInfo k => let v := c_values c !! k in (OutInfo (found v) ((λ v, (Z.of_nat (length (v_data v)), v_type v, v_attributes v)) <$> v), c)
  | Reset m => (OutStatus EFI_SUCCESS, if m =? 0 then c else {| c_keys := []; c_values := ∅; c_variables := c_variables c |})
  end.

(** The calls on the driver, when the pool has memory. *)
Definition smc_step (call : SmcCall) (s : Smc) : option (SmcOutput * Smc) :=
  match call with
  | ReadValue k n b => r ← SmcReadValueImpl true k n (Some b) s; Some (OutBuffer r.1 (default [] r.2), s)
  | WriteValue answer k n x => r ← SmcWriteValueImpl (true, true) answer k n x s; Some (OutStatus r.1, r.2)
  | AddKey junk k n t a => r ← SmcAddKeyImpl (true, true) junk k n t a s; Some (OutStatus r.1, r.2)
  | GetKeyCount b => r ← SmcGetKeyCountImpl (Some b) s; Some (OutBuffer r.1 (default [] r.2), s)
  | GetKeyFromIndex i => let r := SmcGetKeyFromIndexImpl i true s in Some (OutKey r.1 r.2, s)
  | GetKeyInfo k => let r := SmcGetKeyInfoImpl k true s in Some (OutInfo r.1 r.2, s)
  | Reset m => let r := SmcResetImpl m s in Some (OutStatus r.1, r.2)
  end.

(** Arguments of their C types, with buffers that are as long as the caller says. *)
Definition call_ok (call : SmcCall) : Prop :=
  match call with
  | ReadValue _ n b => 0 ≤ n < 256 ∧ n ≤ Z.of_nat (length b)
  | WriteValue _ k n x => named k ∧ 0 ≤ n < 256 ∧ n ≤ Z.of_nat (length x)
  | AddKey junk _ n t _ => named t ∧ n = Z.of_nat (length junk) ∧ n < 256
  | GetKeyCount b => 4 ≤ Z.of_nat (length b)
  | GetKeyFromIndex i => 0 ≤ i < 2 ^ 32
  | _ => True
  end.

Fixpoint c_run (calls : list SmcCall) (c : Controller) : list SmcOutput * Controller :=
  match calls with
  | [] => ([], c)
  | call :: calls => let r := c_step call c in let r' := c_run calls r.2 in (r.1 :: r'.1, r'.2)
  end.

Fixpoint smc_run (calls : list SmcCall) (s : Smc) : option (list SmcOutput * Smc) :=
  match calls with
  | [] => Some ([], s)
  | call :: calls => r ← smc_step call s; r' ← smc_run calls r.2; Some (r.1 :: r'.1, r'.2)
  end.

(** ** The list and the map *)

Definition value_of (e : SMC_STACK) : Value := {| v_type := KeyType e; v_attributes := Attributes e; v_data := default [] (Data e) |}.

Definition entry_ok (e : SMC_STACK) : Prop := named (KeyType e) ∧ ∃ d, Data e = Some d ∧ DataLen e = Z.of_nat (length d).

(** The value of the newest entry with a key. *)
Definition lookup_value (stack : list SMC_STACK) (k : Z) : option Value := value_of <$> (snd <$> find_key k stack).

Record smc_rel (s : Smc) (c : Controller) : Prop := {
  sr_values : ∀ k, c_values c !! k = lookup_value (SmcStack s) k;
  sr_entries : Forall entry_ok (SmcStack s);
  sr_variables : ∀ k t, named k → named t → Nvram s !! var_name k t = c_variables c !! (k, t)
}.

(** The list has each key of the map once. *)
Definition listed (s : Smc) (c : Controller) : Prop := c_keys c = Id <$> SmcStack s.

Lemma lookup_value_cons e stack k : lookup_value (e :: stack) k = if decide (Id e = k) then Some (value_of e) else lookup_value stack k.
Proof. unfold lookup_value, find_key. cbn [list_find]. case_decide; [done|]. by destruct (list_find _ stack) as [[i x]|]. Qed.

Lemma find_key_spec k stack : match find_key k stack with
  | Some (i, e) => stack !! i = Some e ∧ Id e = k ∧ lookup_value stack k = Some (value_of e)
  | None => lookup_value stack k = None
  end.
Proof.
  unfold lookup_value. destruct (find_key k stack) as [[i e]|] eqn:E; [|done]. apply list_find_Some in E as (Hi & Hk & _). done.
Qed.

(** Only the value of the key changes when its entry gets other data. *)
Lemma lookup_value_set k stack i e d : find_key k stack = Some (i, e) → ∀ k',
  lookup_value (<[i := with_data d e]> stack) k' = if decide (k = k') then Some (value_of (with_data d e)) else lookup_value stack k'.
Proof.
  revert i. induction stack as [|x stack IH]; intros i Hf k'; [done|]. unfold find_key in Hf. cbn [list_find] in Hf. case_decide as Hx.
  - injection Hf as <- <-. cbn [insert list_insert]. rewrite lookup_value_cons. cbn [with_data Id]. rewrite Hx. case_decide; [done|].
    rewrite lookup_value_cons, Hx. by rewrite decide_False.
  - change (list_find _ stack) with (find_key k stack) in Hf. destruct (find_key k stack) as [[j y]|]; [|done]. cbn in Hf. injection Hf as <- <-.
    cbn [insert list_insert]. rewrite !lookup_value_cons, (IH j eq_refl). repeat case_decide; congruence.
Qed.

Lemma ids_set (stack : list SMC_STACK) (i : nat) e d : stack !! i = Some e → Id <$> <[i := with_data d e]> stack = Id <$> stack.
Proof. intros Hi. rewrite list_fmap_insert. cbn [with_data Id]. apply list_insert_id. by rewrite list_lookup_fmap, Hi. Qed.

(** The loops. *)
Lemma count_loop_spec stack n : count_loop (wrap32 n) stack = wrap32 (n + Z.of_nat (length stack)).
Proof.
  revert n. induction stack as [|e stack IH]; intros n; cbn [count_loop length]; [f_equal; lia|].
  replace (wrap32 (wrap32 n + 1)) with (wrap32 (n + 1)) by (unfold wrap32; lia). rewrite IH. f_equal. lia.
Qed.

Lemma index_loop_spec stack n i : 0 ≤ n ≤ i → i < 2 ^ 32 → index_loop n i stack = (Id <$> stack) !! Z.to_nat (i - n).
Proof.
  revert n. induction stack as [|e stack IH]; intros n Hn Hi; cbn [index_loop]; [done|]. destruct (Z.eqb_spec n i) as [->|Hne]; [by rewrite Z.sub_diag|].
  rewrite wrap32_small by lia. rewrite IH by lia. by replace (Z.to_nat (i - n)) with (S (Z.to_nat (i - (n + 1)))) by lia.
Qed.

Lemma reset_loop_nil stack : reset_loop stack = [].
Proof. by induction stack. Qed.

Lemma copy_overlay dst src n : 0 ≤ n ≤ Z.of_nat (length src) → n ≤ Z.of_nat (length dst) → CopyMem dst (Some src) n = Some (overlay (take (Z.to_nat n) src) dst).
Proof.
  intros Hn Hd. unfold CopyMem, overlay. destruct (Z.eqb_spec n 0) as [->|Hz]; [by rewrite take_0|]. cbn [mbind option_bind].
  destruct (Z.leb_spec n (Z.of_nat (length src))); [|lia]. destruct (Z.leb_spec n (Z.of_nat (length dst))); [|lia]. cbn [andb]. by rewrite length_take_le by lia.
Qed.

(** ** Each call *)

Section Calls.
Context (s : Smc) (c : Controller) (Hrel : smc_rel s c).

Lemma found_entry k i e : find_key k (SmcStack s) = Some (i, e) →
  SmcStack s !! i = Some e ∧ Id e = k ∧ c_values c !! k = Some (value_of e) ∧ named (KeyType e) ∧ ∃ d, Data e = Some d ∧ DataLen e = Z.of_nat (length d).
Proof.
  intros E. pose proof (find_key_spec k (SmcStack s)) as Hf. rewrite E in Hf. destruct Hf as (Hi & Hk & Hl). split; [done|]. split; [done|].
  split; [by rewrite (sr_values _ _ Hrel)|]. exact (Forall_lookup_1 _ _ _ _ (sr_entries _ _ Hrel) Hi).
Qed.

Lemma not_found k : find_key k (SmcStack s) = None → c_values c !! k = None.
Proof. intros E. pose proof (find_key_spec k (SmcStack s)) as Hf. rewrite E in Hf. by rewrite (sr_values _ _ Hrel). Qed.

Lemma read_refines k n b : call_ok (ReadValue k n b) → smc_step (ReadValue k n b) s = Some ((c_step (ReadValue k n b) c).1, s).
Proof.
  intros [Hn Hb]. cbn [smc_step c_step fst]. unfold SmcReadValueImpl. destruct (n =? 0); [done|]. cbn [negb].
  destruct (find_key k (SmcStack s)) as [[i e]|] eqn:E.
  - destruct (found_entry _ _ _ E) as (_ & _ & -> & _ & d & Hd & Hlen). rewrite Hd, Hlen, copy_overlay by lia. cbn. rewrite Hd. cbn. do 4 f_equal.
    destruct (Z.le_gt_cases (Z.of_nat (length d)) n); [rewrite !take_ge by lia|f_equal; lia]. done.
  - rewrite (not_found _ E). cbn. by rewrite take_nil.
Qed.

(** A new entry at the head. *)
Lemma push_rel e keys : entry_ok e → smc_rel {| SmcStack := e :: SmcStack s; Nvram := Nvram s |}
  {| c_keys := keys; c_variables := c_variables c; c_values := <[Id e := value_of e]> (c_values c) |}.
Proof.
  intros He. split; cbn [SmcStack Nvram c_keys c_values c_variables].
  - intros k. rewrite lookup_value_cons. case_decide as Hk; [subst; by rewrite lookup_insert_eq|]. by rewrite lookup_insert_ne, (sr_values _ _ Hrel).
  - by constructor; [|apply (sr_entries _ _ Hrel)].
  - apply (sr_variables _ _ Hrel).
Qed.

(** A variable is set. *)
Lemma variable_rel answer k t data : named k → named t → ∀ k' t', named k' → named t' →
  SetVariable answer (var_name k t) data (Nvram s) !! var_name k' t' = set_variable answer (k, t) data (c_variables c) !! (k', t').
Proof.
  intros Hk Ht k' t' Hk' Ht'. unfold SetVariable, set_variable. destruct (EFI_ERROR answer); [by apply (sr_variables _ _ Hrel)|].
  destruct (decide ((k, t) = (k', t'))) as [[= -> ->]|Hne].
  - destruct data; case_decide; try done; [by rewrite !lookup_delete_eq|by rewrite !lookup_insert_eq].
  - assert (var_name k t ≠ var_name k' t') by (intros E; apply Hne; by destruct (var_name_inj k t k' t' Hk Ht Hk' Ht' E) as [-> ->]).
    destruct data; case_decide; try done; [rewrite !lookup_delete_ne by done|rewrite !lookup_insert_ne by done]; by apply (sr_variables _ _ Hrel).
Qed.

Lemma write_refines answer k n x : call_ok (WriteValue answer k n x) →
  ∃ s', SmcWriteValueImpl (true, true) answer k n x s = Some (EFI_SUCCESS, s') ∧ smc_rel s' (c_write answer k (take (Z.to_nat n) x) c) ∧
    (listed s c → listed s' (c_write answer k (take (Z.to_nat n) x) c)).
Proof.
  intros (Hk & Hn & Hx). unfold SmcWriteValueImpl, c_write. destruct (find_key k (SmcStack s)) as [[i e]|] eqn:E.
  - destruct (found_entry _ _ _ E) as (Hi & Hid & -> & Ht & d & Hd & Hlen). rewrite Hd, Hlen. cbn [mbind option_bind].
    set (d' := overlay (take (length d) (take (Z.to_nat n) x)) d).
    assert ((if Z.min (Z.of_nat (length d)) n =? 0 then Some (Some d) else Some <$> CopyMem d (Some x) (Z.min (Z.of_nat (length d)) n)) = Some (Some d')) as ->.
    { rewrite copy_overlay by lia. subst d'. rewrite take_take. replace (length d `min` Z.to_nat n)%nat with (Z.to_nat (Z.min (Z.of_nat (length d)) n)) by lia.
      destruct (Z.eqb_spec (Z.min (Z.of_nat (length d)) n) 0) as [->|]; done. }
    cbn [mbind option_bind]. unfold SetNvramForTheKey. destruct (Z.leb_spec n (Z.of_nat (length x))); [|lia]. cbn [negb orb mbind option_bind fst snd].
    eexists. split; [reflexivity|]. split; [|unfold listed; cbn [SmcStack c_keys]; intros ->; by rewrite ids_set].
    split; cbn [SmcStack Nvram c_keys c_values c_variables].
    + intros k'. rewrite (lookup_value_set _ _ _ _ _ E). case_decide as Hkk; [subst k'; rewrite lookup_insert_eq|rewrite lookup_insert_ne by done; apply (sr_values _ _ Hrel)].
      unfold value_of. cbn. rewrite Hd. done.
    + apply Forall_insert; [apply (sr_entries _ _ Hrel)|]. split; [done|]. exists d'. split; [done|]. cbn [with_data DataLen]. rewrite Hlen. subst d'. unfold overlay.
      rewrite length_app, length_drop, !length_take. lia.
    + apply variable_rel; done.
  - rewrite (not_found _ E). cbn [fst snd negb andb]. destruct (Z.leb_spec n (Z.of_nat (length x))); [|lia]. cbn [negb andb].
    eexists. split; [reflexivity|]. split; [|unfold listed; cbn [SmcStack c_keys fmap list_fmap Id]; by intros ->].
    apply (push_rel {| Id := k; KeyType := SmcKeyTypeFlag; DataLen := n; Attributes := 0xC0; Data := Some (take (Z.to_nat n) x) |}).
    split; [by apply (bool_decide_unpack _)|]. eexists. split; [done|]. cbn [DataLen]. rewrite length_take. lia.
Qed.

Lemma count_refines b : call_ok (GetKeyCount b) →
  ∃ o, smc_step (GetKeyCount b) s = Some (o, s) ∧ (listed s c → o = (c_step (GetKeyCount b) c).1).
Proof.
  cbn [call_ok]. intros Hb. destruct b as [|b0 [|b1 [|b2 [|b3 b]]]]; try (cbn in Hb; lia). cbn [smc_step c_step fst SmcGetKeyCountImpl mbind option_bind default snd].
  eexists. split; [reflexivity|]. intros Hl.
  change 0 with (wrap32 0) at 1 2 3 4. rewrite !count_loop_spec, Hl, length_fmap, Z.add_0_l. f_equal. unfold overlay, big_endian. cbn [length drop app].
  rewrite !Z.shiftr_div_pow2 by lia. unfold wrap8, wrap32. change (2 ^ 32) with 4294967296. change (2 ^ 24) with 16777216. change (2 ^ 16) with 65536. change (2 ^ 8) with 256.
  repeat (apply (f_equal2 cons)); try done; lia.
Qed.

(** The calls about keys, not about the list of them. *)
Definition by_key (call : SmcCall) : Prop := match call with GetKeyCount _ | GetKeyFromIndex _ => False | _ => True end.

(** A call that does not add a key that is there. *)
Definition adds_fresh (call : SmcCall) (c : Controller) : Prop :=
  match call with AddKey _ k _ _ _ => c_values c !! k = None | _ => True end.

(** One call. *)
Lemma smc_step_refines call : call_ok call → ∃ o s', smc_step call s = Some (o, s') ∧ smc_rel s' (c_step call c).2 ∧
  (by_key call → o = (c_step call c).1) ∧
  (listed s c → adds_fresh call c → o = (c_step call c).1 ∧ listed s' (c_step call c).2).
Proof.
  intros Hc. destruct call as [k n b|answer k n x|junk k n t a|b|i|k|m].
  - eexists _, s. split; [by apply read_refines|done].
  - destruct (write_refines answer k n x Hc) as (s' & E & Hs & Hl). eexists _, s'. cbn [smc_step]. rewrite E. split; [reflexivity|]. split; [done|]. split; [done|]. auto.
  - destruct Hc as (Ht & Hn & _). eexists _, _. split; [reflexivity|]. cbn [c_step fst snd adds_fresh].
    split; [apply (push_rel {| Id := k; KeyType := t; DataLen := n; Attributes := a; Data := Some junk |}); split; [done|]; by exists junk|].
    split; [done|]. unfold listed. cbn [c_keys SmcStack fmap list_fmap Id]. intros -> Hk. rewrite Hk, decide_False by (by intros [? ?]). done.
  - destruct (count_refines b Hc) as (o & E & Hl). exists o, s. split; [done|]. split; [done|]. split; [done|]. auto.
  - eexists _, s. split; [reflexivity|]. split; [done|]. split; [done|]. intros Hl _. split; [|done].
    cbn [c_step fst]. unfold SmcGetKeyFromIndexImpl. cbn [negb]. destruct Hc. rewrite index_loop_spec, Z.sub_0_r, Hl by lia. by destruct (_ !! _).
  - eexists _, s. split; [reflexivity|]. split; [done|]. assert (OutInfo (SmcGetKeyInfoImpl k true s).1 (SmcGetKeyInfoImpl k true s).2 = (c_step (GetKeyInfo k) c).1) as E; [|done].
    cbn [c_step fst]. unfold SmcGetKeyInfoImpl. cbn [negb]. destruct (find_key k (SmcStack s)) as [[i e]|] eqn:E.
    + destruct (found_entry _ _ _ E) as (_ & _ & -> & _ & d & Hd & Hlen). cbn. by rewrite Hd, Hlen.
    + by rewrite (not_found _ E).
  - cbn [smc_step c_step fst snd]. unfold SmcResetImpl. destruct (m =? 0); eexists _, _; (split; [reflexivity|]); cbn [snd]; [done|]. rewrite reset_loop_nil.
    split; [|done]. split; [done|constructor|apply (sr_variables _ _ Hrel)].
Qed.
End Calls.

Fixpoint all_fresh (calls : list SmcCall) (c : Controller) : Prop :=
  match calls with [] => True | call :: calls => adds_fresh call c ∧ all_fresh calls (c_step call c).2 end.

(** ** The list of the keys *)

Definition keys_distinct (c : Controller) : Prop := NoDup (c_keys c) ∧ ∀ k, is_Some (c_values c !! k) ↔ k ∈ c_keys c.

Lemma distinct_push k v vars c : keys_distinct c →
  keys_distinct {| c_keys := if decide (is_Some (c_values c !! k)) then c_keys c else k :: c_keys c; c_values := <[k := v]> (c_values c); c_variables := vars |}.
Proof.
  intros [Hn Hd]. split; cbn [c_keys c_values].
  - case_decide as Hk; [done|]. constructor; [|done]. by rewrite <- (Hd k).
  - intros k'. rewrite lookup_insert_is_Some'. case_decide as Hk; rewrite ?elem_of_cons, <- (Hd k'); naive_solver.
Qed.

Lemma distinct_step call c : keys_distinct c → keys_distinct (c_step call c).2.
Proof.
  intros Hc. pose proof Hc as [Hn Hd]. destruct call as [| answer k n x | junk k n t a | | | | m]; try done; cbn [c_step snd].
  - unfold c_write. pose proof (distinct_push k) as Hp. destruct (c_values c !! k) as [v|] eqn:E.
    + specialize (Hp {| v_type := v_type v; v_attributes := v_attributes v; v_data := overlay (take (length (v_data v)) (take (Z.to_nat n) x)) (v_data v) |}
        (set_variable answer (k, v_type v) (take (Z.to_nat n) x) (c_variables c)) c Hc). rewrite E, decide_True in Hp by done. done.
    + specialize (Hp {| v_type := SmcKeyTypeFlag; v_attributes := 0xC0; v_data := take (Z.to_nat n) x |} (c_variables c) c Hc).
      rewrite E, decide_False in Hp by (by intros [? ?]). done.
  - by apply distinct_push.
  - destruct (m =? 0); [done|]. split; cbn [c_keys c_values]; [constructor|]. intros k. rewrite lookup_empty, elem_of_nil. split; [by intros [? ?]|done].
Qed.

Lemma distinct_run calls : ∀ c, keys_distinct c → keys_distinct (c_run calls c).2.
Proof. induction calls as [|call calls IH]; intros c Hc; [done|]. cbn [c_run snd]. by apply IH, distinct_step. Qed.

(** ** Any calls *)

Definition c_start (vars : gmap (Z * Z) (list Z)) : Controller := {| c_keys := []; c_values := ∅; c_variables := vars |}.

Lemma smc_run_refines calls : ∀ s c, Forall call_ok calls → smc_rel s c →
  ∃ outs s', smc_run calls s = Some (outs, s') ∧ smc_rel s' (c_run calls c).2 ∧
    (∀ i call, calls !! i = Some call → by_key call → outs !! i = (c_run calls c).1 !! i) ∧
    (listed s c → all_fresh calls c → outs = (c_run calls c).1).
Proof.
  induction calls as [|call calls IH]; intros s c Hcalls Hrel; cbn [smc_run c_run fst snd]; [by exists [], s|].
  apply Forall_cons in Hcalls as [Hc Hcalls]. destruct (smc_step_refines s c Hrel call Hc) as (o & s1 & -> & Hrel1 & Ho & Hl). cbn [mbind option_bind fst snd].
  destruct (IH s1 _ Hcalls Hrel1) as (outs & s2 & -> & Hrel2 & Hk & Hf). cbn [mbind option_bind fst snd]. exists (o :: outs), s2.
  split; [done|]. split; [done|]. split.
  - intros [|i] call' Hi Hb; [injection Hi as <-; cbn; by rewrite Ho|]. cbn in Hi |- *. by apply (Hk i call').
  - intros Hs [H1 H2]. destruct (Hl Hs H1) as [-> Hl1]. by rewrite (Hf Hl1 H2).
Qed.

(** C28. The emulated controller is a map: after any calls with sound arguments, if the pool has
    memory, every call about a key returns what a finite map of keys returns (the value written
    or added last, its size, type and attributes), no call leaves a buffer, and the variables
    are exactly those that writing to existing keys has set: a write of no bytes deletes one,
    a refused one changes nothing, and a write that is longer than the key stores all of it in
    the variable but only what fits in the key.  If moreover no key is added that is there, the
    count is the number of keys of the map and the indices below it give each key once; a key
    that is added again is listed and counted twice. *)
Theorem smc_refines nv vars calls : (∀ k t, named k → named t → nv !! var_name k t = vars !! (k, t)) → Forall call_ok calls →
  let r := c_run calls (c_start vars) in
  keys_distinct r.2 ∧
  ∃ outs s', smc_run calls (smc_start nv) = Some (outs, s') ∧
    (∀ i call, calls !! i = Some call → by_key call → outs !! i = r.1 !! i) ∧
    (all_fresh calls (c_start vars) → outs = r.1) ∧
    ∀ k t, named k → named t → Nvram s' !! var_name k t = c_variables r.2 !! (k, t).
Proof.
  intros Hv Hcalls r. split.
  { apply distinct_run. split; [constructor|]. intros k. cbn. rewrite lookup_empty, elem_of_nil. split; [by intros [? ?]|done]. }
  destruct (smc_run_refines calls (smc_start nv) (c_start vars) Hcalls) as (outs & s' & E & Hrel & Hk & Hf); [split; done || constructor|].
  exists outs, s'. split; [done|]. split; [done|]. split; [by apply Hf|]. apply (sr_variables _ _ Hrel).
Qed.

(** ** Names of keys *)

Lemma identifier_eq a b c d : 0 ≤ a < 256 → 0 ≤ b < 256 → 0 ≤ c < 256 → 0 ≤ d < 256 → SMC_MAKE_IDENTIFIER a b c d = a * 2 ^ 24 + (b * 2 ^ 16 + (c * 2 ^ 8 + d)).
Proof. intros Ha Hb Hc Hd. unfold SMC_MAKE_IDENTIFIER. rewrite <- !Z.lor_assoc, (shiftl_lor c 8), (shiftl_lor b 16), (shiftl_lor a 24) by lia. apply wrap32_small. lia. Qed.

(** Packing the characters of a name and printing the key are inverse, on compilers with and
    without signed characters. *)
Theorem key_names signed_char a b c d rest : Forall (λ x, 0 < x < 128) [a; b; c; d] →
  ∃ k, SmcMakeKeyImpl signed_char (Some (a :: b :: c :: d :: rest)) true = Some (EFI_SUCCESS, Some k) ∧ StringId k = [a; b; c; d; 0] ∧ named k.
Proof.
  rewrite !Forall_cons. intros (Ha & Hb & Hc & Hd & _). eexists. split; [reflexivity|].
  assert (∀ x, 0 < x < 128 → promote signed_char x = x) as Hp by (intros x Hx; unfold promote; destruct signed_char; [destruct (Z.leb_spec 128 x); [lia|]|]; done).
  rewrite !Hp, identifier_eq by lia. set (k := _ + _).
  assert (key_byte k 24 = a ∧ key_byte k 16 = b ∧ key_byte k 8 = c ∧ key_byte k 0 = d) as (E1 & E2 & E3 & E4).
  { rewrite !key_byte_div by lia. subst k. change (2 ^ 24) with 16777216. change (2 ^ 16) with 65536. change (2 ^ 8) with 256. change (2 ^ 0) with 1. lia. }
  split; [unfold StringId; change (Z.land k 0xFF) with (key_byte k 0); by rewrite E1, E2, E3, E4|]. unfold named. rewrite E1, E2, E3, E4. subst k. lia.
Qed.

Lemma key_names_witness : ∃ k, SmcMakeKeyImpl true (Some [67; 76; 75; 84; 0]) true = Some (EFI_SUCCESS, Some k) ∧ StringId k = [67; 76; 75; 84; 0] ∧ named k.
Proof. apply (key_names true 67 76 75 84 [0]). repeat constructor. Defined.

(** ** Runs *)

(** "CLKT" of type "ui32", added and written. *)
Definition CLKT : Z := SMC_MAKE_IDENTIFIER 67 76 75 84.
Definition ui32 : Z := SMC_MAKE_IDENTIFIER 117 105 51 50.
Definition clkt_calls : list SmcCall :=
  [AddKey [7; 7; 7; 7] CLKT 4 ui32 0xC0; WriteValue EFI_SUCCESS CLKT 4 [0; 0; 140; 190]; ReadValue CLKT 2 [1; 1; 1]; GetKeyInfo CLKT; GetKeyCount [9; 9; 9; 9]; GetKeyFromIndex 0].

Lemma no_variables k t : named k → named t → (∅ : gmap (list Z) (list Z)) !! var_name k t = (∅ : gmap (Z * Z) (list Z)) !! (k, t).
Proof. intros _ _. by rewrite !lookup_empty. Qed.

Lemma clkt_calls_ok : Forall call_ok clkt_calls.
Proof. repeat (constructor || split); by apply (bool_decide_unpack _). Qed.

Lemma smc_refines_witness :
  ∃ s', smc_run clkt_calls (smc_start ∅) = Some ([OutStatus EFI_SUCCESS; OutStatus EFI_SUCCESS; OutBuffer EFI_SUCCESS [0; 0; 1];
    OutInfo EFI_SUCCESS (Some (4, ui32, 0xC0)); OutBuffer EFI_SUCCESS [0; 0; 0; 1]; OutKey EFI_SUCCESS (Some CLKT)], s') ∧
    Nvram s' !! str_bytes "fakesmc-key-CLKT-ui32" = Some [0; 0; 140; 190].
Proof.
  destruct (smc_refines ∅ ∅ clkt_calls no_variables clkt_calls_ok) as (_ & outs & s' & E & _ & Hf & Hv).
  exists s'. rewrite E, Hf by (vm_compute; repeat split). split; [reflexivity|].
  exact (Hv CLKT ui32 (bool_decide_unpack _ (I : Is_true (bool_decide (named CLKT)))) (bool_decide_unpack _ (I : Is_true (bool_decide (named ui32))))).
Defined.

(** A key that is added again counts twice, and its old value stays behind the new one. *)
Example key_counted_twice :
  fst <$> smc_run [AddKey [1] CLKT 1 ui32 0; AddKey [2] CLKT 1 ui32 0; GetKeyCount [0; 0; 0; 0]; GetKeyFromIndex 0; GetKeyFromIndex 1] (smc_start ∅) =
    Some [OutStatus EFI_SUCCESS; OutStatus EFI_SUCCESS; OutBuffer EFI_SUCCESS [0; 0; 0; 2]; OutKey EFI_SUCCESS (Some CLKT); OutKey EFI_SUCCESS (Some CLKT)].
Proof. vm_compute. reflexivity. Qed.

(** A write that is longer than the key: the variable gets all of it, the key does not. *)
Example longer_write :
  (λ r, (r.1, Nvram r.2 !! var_name CLKT ui32)) <$> smc_run [AddKey [7] CLKT 1 ui32 0; WriteValue EFI_SUCCESS CLKT 2 [1; 2]; ReadValue CLKT 2 [0; 0]] (smc_start ∅) =
    Some ([OutStatus EFI_SUCCESS; OutStatus EFI_SUCCESS; OutBuffer EFI_SUCCESS [1; 0]], Some [1; 2]).
Proof. vm_compute. reflexivity. Qed.

(** A key that a write creates has no variable. *)
Example created_without_variable : (λ r, map_to_list (Nvram r.2)) <$> smc_run [WriteValue EFI_SUCCESS CLKT 1 [5]] (smc_start ∅) = Some [].
Proof. vm_compute. reflexivity. Qed.

(** Without memory for its value a key is added all the same; reading it follows a null
    pointer. *)
Example null_value_read : ∃ s, SmcAddKeyImpl (true, false) [] CLKT 4 ui32 0 (smc_start ∅) = Some (EFI_SUCCESS, s) ∧
  SmcReadValueImpl true CLKT 4 (Some [0; 0; 0; 0]) s = None.
Proof. eexists. split; reflexivity. Qed.
