(* ===== verification/PartAsync.v ===== *)
(** * PartitionDxe: asynchronous block I/O (Partition.c)

    The functions of EFI_BLOCK_IO2_PROTOCOL on a child.  A request with an event gets a task
    and an event of its own, is queued at the parent's DiskIo2, and is answered when DiskIo2
    signals that event; one without an event is performed at once.  DiskIo2 is the class
    [DiskIo2]; it answers queued requests in any order. *)

From Stdlib Require Import ZArith Lia.
From stdpp Require Import base list list_numbers gmap.
From S2P Require Import Prelude PartDisk.

Open Scope Z_scope.

(** ** DiskIo2 *)

Inductive DiskRequest := ReadDiskEx (MediaId Offset Size : Z) | WriteDiskEx (MediaId Offset : Z) (Buffer : list Z) | FlushDiskEx.

Class DiskIo2 (D : Type) := {
  (** a request with a token is queued or refused *)
  Submit : D → DiskRequest → EFI_STATUS;
  (** what a request does, at once or when its turn has come; data for a read *)
  Perform : D → DiskRequest → EFI_STATUS * list Z * D;
  (** the status of reading one byte into a NULL buffer *)
  ReadNullEx : D → Z → EFI_STATUS
}.

(** DiskIo2 and DiskIo access the same media. *)
Class DiskIo2Laws (D : Type) `{DiskIo D, DiskIo2 D} := {
  perform_read d id off n : Perform d (ReadDiskEx id off n) = (ReadDisk d id off n, d);
  perform_write d id off bs : Perform d (WriteDiskEx id off bs) = ((WriteDisk d id off bs).1, [], (WriteDisk d id off bs).2);
  read_null_same d id : ReadNullEx d id = ReadNull d id
}.

#[global] Instance ByteDisk_io2 : DiskIo2 ByteDisk := {
  Submit _ _ := EFI_SUCCESS;
  Perform d r :=
    match r with
    | ReadDiskEx id off n => (ReadDisk d id off n, d)
    | WriteDiskEx id off bs => ((WriteDisk d id off bs).1, [], (WriteDisk d id off bs).2)
    | FlushDiskEx => (EFI_SUCCESS, [], d)
    end;
  ReadNullEx d id := ReadNull d id
}.

#[global] Instance ByteDisk_io2_laws : DiskIo2Laws ByteDisk.
Proof. by split. Qed.

(** ** State *)

Record EFI_BLOCK_IO2_TOKEN := { Event : option Z; TransactionStatus : EFI_STATUS }.

(** A task; its event has the number of the task, which is the event's context. *)
Record PARTITION_ACCESS_TASK := { BlockIo2Token : Z; DiskIo2Token : EFI_STATUS }.

Section Async.
Context {D : Type} `{DiskIo2 D}.

(** The disk; the callers' tokens; the tasks and their events, which are open; DiskIo2's
    queue; the callers' events that were signalled, oldest first; the next free number. *)
Record Async := {
  a_disk : D; a_tokens : gmap Z EFI_BLOCK_IO2_TOKEN; a_tasks : gmap Z PARTITION_ACCESS_TASK; a_events : gset Z;
  a_queue : list (Z * DiskRequest); a_signals : list Z; a_next : Z
}.

Definition set_disk (d : D) (s : Async) : Async := {|
  a_disk := d; a_tokens := a_tokens s; a_tasks := a_tasks s; a_events := a_events s; a_queue := a_queue s; a_signals := a_signals s; a_next := a_next s |}.
Definition set_queue (q : list (Z * DiskRequest)) (s : Async) : Async := {|
  a_disk := a_disk s; a_tokens := a_tokens s; a_tasks := a_tasks s; a_events := a_events s; a_queue := q; a_signals := a_signals s; a_next := a_next s |}.
Definition set_task (t : Z) (task : PARTITION_ACCESS_TASK) (s : Async) : Async := {|
  a_disk := a_disk s; a_tokens := a_tokens s; a_tasks := <[t := task]> (a_tasks s); a_events := a_events s; a_queue := a_queue s;
  a_signals := a_signals s; a_next := a_next s |}.

(** CloseEvent and FreePool for a task. *)
Definition drop_task (t : Z) (s : Async) : Async := {|
  a_disk := a_disk s; a_tokens := a_tokens s; a_tasks := delete t (a_tasks s); a_events := a_events s ∖ {[t]}; a_queue := a_queue s;
  a_signals := a_signals s; a_next := a_next s |}.

(** Sets the status of a token and signals its event. *)
Definition answer_token (Token : Z) (Status : EFI_STATUS) (s : Async) : option Async :=
  tok ← a_tokens s !! Token;
  Some {| a_disk := a_disk s; a_tokens := <[Token := {| Event := Event tok; TransactionStatus := Status |}]> (a_tokens s); a_tasks := a_tasks s;
          a_events := a_events s; a_queue := a_queue s; a_signals := a_signals s ++ option_list (Event tok); a_next := a_next s |}.

(** ** Tasks *)

(** The handler of a task's event. *)
Definition PartitionOnAccessComplete (Ev : Z) (s : Async) : option Async :=
  task ← a_tasks s !! Ev;
  s ← answer_token (BlockIo2Token task) (DiskIo2Token task) s;
  Some (drop_task Ev s).

(** [mem] is the pool's answer, [create] that of CreateEvent. *)
Definition PartitionCreateAccessTask (mem : bool) (create : EFI_STATUS) (Token : Z) (s : Async) : option Z * Async :=
  if negb mem || EFI_ERROR create then (None, s) else
  (Some (a_next s), {|
    a_disk := a_disk s; a_tokens := a_tokens s; a_tasks := <[a_next s := {| BlockIo2Token := Token; DiskIo2Token := EFI_SUCCESS |}]> (a_tasks s);
    a_events := {[a_next s]} ∪ a_events s; a_queue := a_queue s; a_signals := a_signals s; a_next := a_next s + 1 |}).

Definition at_once (r : DiskRequest) (s : Async) : EFI_STATUS * list Z * Async :=
  let '(Status, data, d) := Perform (a_disk s) r in (Status, data, set_disk d s).

(** The common end of the three functions. *)
Definition access (mem : bool) (create : EFI_STATUS) (Token : option Z) (r : DiskRequest) (s : Async) : option (EFI_STATUS * list Z * Async) :=
  match Token with
  | None => Some (at_once r s)
  | Some tk =>
      tok ← a_tokens s !! tk;
      match Event tok with
      | None => Some (at_once r s)
      | Some _ =>
          match PartitionCreateAccessTask mem create tk s with
          | (None, s) => Some (EFI_OUT_OF_RESOURCES, [], s)
          | (Some t, s) =>
              let Status := Submit (a_disk s) r in
              Some (Status, [], if EFI_ERROR Status then drop_task t s else set_queue (a_queue s ++ [(t, r)]) s)
          end
      end
  end.

(** ** Block I/O *)

Definition ProbeMediaStatusEx (MediaId : Z) (DefaultStatus : EFI_STATUS) (s : Async) : EFI_STATUS :=
  let Status := ReadNullEx (a_disk s) MediaId in
  if bool_decide (Status = EFI_NO_MEDIA) || bool_decide (Status = EFI_MEDIA_CHANGED) then Status else DefaultStatus.

Definition PartitionReadBlocksEx (mem : bool) (create : EFI_STATUS) (Private : PARTITION_PRIVATE_DATA) (MediaId Lba : Z) (Token : option Z) (BufferSize : Z)
  (s : Async) : option (EFI_STATUS * list Z * Async) :=
  if p_BlockSize Private =? 0 then None else
  if negb (BufferSize mod p_BlockSize Private =? 0) then Some (ProbeMediaStatusEx MediaId EFI_BAD_BUFFER_SIZE s, [], s) else
  let Offset := child_offset Private Lba in
  if p_End Private <? wrap64 (Offset + BufferSize) then Some (ProbeMediaStatusEx MediaId EFI_INVALID_PARAMETER s, [], s) else
  access mem create Token (ReadDiskEx MediaId Offset BufferSize) s.

Definition PartitionWriteBlocksEx (mem : bool) (create : EFI_STATUS) (Private : PARTITION_PRIVATE_DATA) (MediaId Lba : Z) (Token : option Z) (Buffer : list Z)
  (s : Async) : option (EFI_STATUS * list Z * Async) :=
  let BufferSize := Z.of_nat (length Buffer) in
  if p_BlockSize Private =? 0 then None else
  if negb (BufferSize mod p_BlockSize Private =? 0) then Some (ProbeMediaStatusEx MediaId EFI_BAD_BUFFER_SIZE s, [], s) else
  let Offset := child_offset Private Lba in
  if p_End Private <? wrap64 (Offset + BufferSize) then Some (ProbeMediaStatusEx MediaId EFI_INVALID_PARAMETER s, [], s) else
  access mem create Token (WriteDiskEx MediaId Offset Buffer) s.

Definition PartitionFlushBlocksEx (mem : bool) (create : EFI_STATUS) (Token : option Z) (s : Async) : option (EFI_STATUS * list Z * Async) :=
  access mem create Token FlushDiskEx s.

(** ** The device answers *)

(** DiskIo2 performs the [i]-th request of its queue, stores the status in the task's token
    and signals the task's event. *)
Definition complete (i : nat) (s : Async) : option (list Z * Async) :=
  x ← a_queue s !! i;
  let '(Status, data, d) := Perform (a_disk s) x.2 in
  task ← a_tasks s !! x.1;
  let s := set_task x.1 {| BlockIo2Token := BlockIo2Token task; DiskIo2Token := Status |} (set_queue (delete i (a_queue s)) (set_disk d s)) in
  s ← PartitionOnAccessComplete x.1 s;
  Some (data, s).

(** A call on a child. *)
Inductive AsyncCall :=
| ReadCall (mem : bool) (create : EFI_STATUS) (p : PARTITION_PRIVATE_DATA) (id Lba : Z) (Token : option Z) (n : Z)
| WriteCall (mem : bool) (create : EFI_STATUS) (p : PARTITION_PRIVATE_DATA) (id Lba : Z) (Token : option Z) (buf : list Z)
| FlushCall (mem : bool) (create : EFI_STATUS) (Token : option Z).

Definition call_token (c : AsyncCall) : option Z := match c with ReadCall _ _ _ _ _ t _ | WriteCall _ _ _ _ _ t _ | FlushCall _ _ t => t end.

Definition call (c : AsyncCall) (s : Async) : option (EFI_STATUS * list Z * Async) :=
  match c with
  | ReadCall mem create p id Lba t n => PartitionReadBlocksEx mem create p id Lba t n s
  | WriteCall mem create p id Lba t buf => PartitionWriteBlocksEx mem create p id Lba t buf s
  | FlushCall mem create t => PartitionFlushBlocksEx mem create t s
  end.
End Async.
Arguments Async : clear implicits.
