(* ===== verification/PartAsyncTheorems.v ===== *)
(** * PartitionDxe: properties of the asynchronous block I/O

    Steps are calls of the driver and answers of the device, in any order. *)

From Stdlib Require Import ZArith Lia.
From stdpp Require Import base list list_numbers gmap.
From S2P Require Import Prelude PartDisk PartIo PartAsync.

Open Scope Z_scope.

Section Async.
Context {D : Type} `{DiskIo2 D}.
Implicit Types (s : Async D) (c : AsyncCall).

(** ** Tokens *)

(** The event of a token. *)
Definition token_event s (Token : option Z) : option Z := tk ← Token; tok ← a_tokens s !! tk; Event tok.

(** No request is under way. *)
Definition idle s : Prop := a_queue s = [] ∧ a_tasks s = ∅ ∧ a_events s = ∅.

(** ** The invariant *)

(** Tasks, their events and the queue belong together. *)
Record async_inv s : Prop := {
  ai_tasks : dom (a_tasks s) = list_to_set (a_queue s).*1;
  ai_events : a_events s = list_to_set (a_queue s).*1;
  ai_nodup : NoDup (a_queue s).*1;
  ai_next : Forall (λ t, t < a_next s) (a_queue s).*1;
  ai_token : map_Forall (λ _ task, is_Some (token_event s (Some (BlockIo2Token task)))) (a_tasks s)
}.

(** The event that will be signalled for a task, and for all requests in the queue. *)
Definition task_event s (t : Z) : option Z := task ← a_tasks s !! t; token_event s (Some (BlockIo2Token task)).
Definition pending s : list Z := omap (task_event s) (a_queue s).*1.

Lemma idle_inv s : idle s → async_inv s.
Proof. intros (Eq & Et & Ee). split; rewrite ?Eq, ?Et, ?Ee; [by rewrite dom_empty_L|done|constructor|constructor|apply map_Forall_empty]. Qed.

Lemma queue_empty_idle s : async_inv s → a_queue s = [] → idle s.
Proof.
  intros [Hd He _ _ _] Eq. rewrite Eq in Hd, He. split; [done|]. split; [|done]. by apply dom_empty_inv_L.
Qed.

(** A task that is not in the queue does not exist. *)
Lemma next_fresh s : async_inv s → a_tasks s !! a_next s = None ∧ a_next s ∉ (a_queue s).*1.
Proof.
  intros Hi. assert (a_next s ∉ (a_queue s).*1) as Hn.
  { intros Hin. pose proof (proj1 (Forall_forall _ _) (ai_next s Hi) _ Hin) as Hlt. cbn in Hlt. lia. }
  split; [|done]. apply not_elem_of_dom. by rewrite (ai_tasks s Hi), elem_of_list_to_set.
Qed.

Lemma omap_ext_in {A B} (f g : A → option B) (l : list A) : (∀ x, x ∈ l → f x = g x) → omap f l = omap g l.
Proof. induction l as [|x l IH]; intros Hfg; [done|]. cbn. rewrite (Hfg x) by set_solver. rewrite IH by set_solver. done. Qed.

(** ** Calls *)

Lemma same_inv s s' : async_inv s → a_tokens s' = a_tokens s → a_tasks s' = a_tasks s → a_events s' = a_events s → a_queue s' = a_queue s → a_next s ≤ a_next s' →
  a_signals s' = a_signals s → async_inv s' ∧ a_signals s' ++ pending s' = a_signals s ++ pending s.
Proof.
  intros [I1 I2 I3 I4 I5] E1 E2 E3 E4 E5 E6. split; [split; rewrite ?E2, ?E3, ?E4; try done|].
  - eapply Forall_impl; [exact I4|]. cbn. lia.
  - unfold token_event in *. by rewrite E1.
  - unfold pending, task_event, token_event. by rewrite E1, E2, E4, E6.
Qed.

(** A task that is dropped again. *)
Lemma drop_new s tk : async_inv s → drop_task (a_next s) (PartitionCreateAccessTask true EFI_SUCCESS tk s).2 = {|
  a_disk := a_disk s; a_tokens := a_tokens s; a_tasks := a_tasks s; a_events := a_events s; a_queue := a_queue s; a_signals := a_signals s; a_next := a_next s + 1 |}.
Proof.
  intros Hi. destruct (next_fresh s Hi) as [Hn Hq]. unfold drop_task. cbn. f_equal.
  - by rewrite delete_insert_id.
  - rewrite (ai_events s Hi). set_solver.
Qed.

(** A request that is queued. *)
Lemma queue_new s tk ev r : async_inv s → token_event s (Some tk) = Some ev →
  let s1 := (PartitionCreateAccessTask true EFI_SUCCESS tk s).2 in let s' := set_queue (a_queue s1 ++ [(a_next s, r)]) s1 in
  async_inv s' ∧ a_signals s' ++ pending s' = (a_signals s ++ pending s) ++ [ev].
Proof.
  intros Hi Hev s1 s'. destruct (next_fresh s Hi) as [Hn Hq]. destruct Hi as [I1 I2 I3 I4 I5]. split.
  - split; cbn; rewrite ?fmap_app; cbn.
    + rewrite dom_insert_L, I1, list_to_set_app_L. set_solver.
    + rewrite I2, list_to_set_app_L. set_solver.
    + apply NoDup_app. split; [done|]. split; [set_solver|apply NoDup_singleton].
    + apply Forall_app. split; [eapply Forall_impl; [exact I4|]; cbn; lia|constructor; [lia|constructor]].
    + apply map_Forall_insert_2; [by exists ev|done].
  - unfold pending. cbn. rewrite fmap_app, omap_app, <- !app_assoc. do 2 f_equal.
    + apply omap_ext_in. intros t Ht. unfold task_event, token_event. cbn. rewrite lookup_insert_ne; [done|]. by intros <-.
    + cbn. unfold task_event, token_event in *. cbn. rewrite lookup_insert_eq. cbn in Hev |- *. by rewrite Hev.
Qed.

(** What [access] does: it fails only for a token that does not exist. *)
Lemma access_step s mem create tk r : async_inv s → match tk with Some tk => is_Some (a_tokens s !! tk) | None => True end →
  ∃ st data s', access mem create tk r s = Some (st, data, s') ∧ async_inv s' ∧
    a_signals s' ++ pending s' = (a_signals s ++ pending s) ++
      (if EFI_ERROR st then [] else option_list (token_event s tk)).
Proof.
  intros Hi Htk. unfold access.
  assert (token_event s tk = None → ∃ st data s', Some (at_once r s) = Some (st, data, s') ∧ async_inv s' ∧ a_signals s' ++ pending s' =
    (a_signals s ++ pending s) ++ (if EFI_ERROR st then [] else option_list (token_event s tk))) as Hnow.
  { intros ->. unfold at_once. destruct (Perform (a_disk s) r) as [[st data] d]. eexists _, _, _. split; [reflexivity|].
    destruct (same_inv s (set_disk d s) Hi eq_refl eq_refl eq_refl eq_refl ltac:(cbn; lia) eq_refl) as [H1 H2]. split; [done|]. rewrite H2. destruct (EFI_ERROR st); by rewrite app_nil_r. }
  destruct tk as [tk|]; [|by apply Hnow]. destruct Htk as [tok Htok].
  assert (token_event s (Some tk) = Event tok) as Hev by (unfold token_event; cbn; by rewrite Htok).
  rewrite Htok. cbn [mbind option_bind]. destruct (Event tok) as [ev|] eqn:Eev; [|by apply Hnow]. clear Hnow.
  destruct (negb mem || EFI_ERROR create) eqn:Em.
  { unfold PartitionCreateAccessTask. rewrite Em. eexists _, _, _. split; [reflexivity|]. split; [done|]. by rewrite app_nil_r. }
  assert (PartitionCreateAccessTask mem create tk s = (Some (a_next s), (PartitionCreateAccessTask true EFI_SUCCESS tk s).2)) as -> by (unfold PartitionCreateAccessTask; by rewrite Em).
  eexists _, _, _. split; [reflexivity|]. cbv zeta. destruct (EFI_ERROR (Submit _ _)).
  - rewrite drop_new by done. rewrite app_nil_r. apply same_inv; try done. cbn. lia.
  - rewrite Hev. by apply (queue_new s tk ev).
Qed.

(** A call with a token that exists. *)
Definition call_ok s c : Prop :=
  match call_token c with Some tk => is_Some (a_tokens s !! tk) | None => True end ∧
  match c with ReadCall _ _ p _ _ _ _ | WriteCall _ _ p _ _ _ _ => p_BlockSize p ≠ 0 | FlushCall _ _ _ => True end.

Lemma async_call_step s c : async_inv s → call_ok s c →
  ∃ st data s', call c s = Some (st, data, s') ∧ async_inv s' ∧
    a_signals s' ++ pending s' = (a_signals s ++ pending s) ++
      (if EFI_ERROR st then [] else option_list (token_event s (call_token c))).
Proof.
  intros Hi [Htk Hb]. assert (∀ id st l, EFI_ERROR st = true → ∃ st' data s', Some (ProbeMediaStatusEx id st s, [] : list Z, s) = Some (st', data, s') ∧ async_inv s' ∧
    a_signals s' ++ pending s' = (a_signals s ++ pending s) ++ (if EFI_ERROR st' then [] else l)) as Hsame.
  { intros id st l Hst. eexists _, _, _. split; [reflexivity|]. split; [done|].
    assert (EFI_ERROR (ProbeMediaStatusEx id st s) = true) as -> by (unfold ProbeMediaStatusEx; destruct (ReadNullEx _ _); done). by rewrite app_nil_r. }
  destruct c as [mem create p id Lba tk n|mem create p id Lba tk buf|mem create tk]; cbn [call call_token] in *.
  - unfold PartitionReadBlocksEx. destruct (Z.eqb_spec (p_BlockSize p) 0); [done|]. destruct (negb _); [by apply Hsame|]. destruct (_ <? _); [by apply Hsame|]. by apply access_step.
  - unfold PartitionWriteBlocksEx. destruct (Z.eqb_spec (p_BlockSize p) 0); [done|]. destruct (negb _); [by apply Hsame|]. destruct (_ <? _); [by apply Hsame|]. by apply access_step.
  - by apply access_step.
Qed.

(** ** Answers *)

(** Setting the status of a token changes no event. *)
Lemma token_event_status s tk tok st s' : a_tokens s !! tk = Some tok →
  a_tokens s' = <[tk := {| Event := Event tok; TransactionStatus := st |}]> (a_tokens s) → ∀ tk', token_event s' tk' = token_event s tk'.
Proof.
  intros Htok E [tk'|]; [|done]. unfold token_event. cbn. rewrite E. destruct (decide (tk = tk')) as [->|Hne]; [by rewrite lookup_insert_eq, Htok|by rewrite lookup_insert_ne].
Qed.

(** Removing an element of a list without repetition. *)
Lemma delete_set (l : list Z) i t : NoDup l → l !! i = Some t → (t ∉ delete i l) ∧ (list_to_set (delete i l) : gset Z) = list_to_set l ∖ {[t]}.
Proof.
  intros Hnd Hl. pose proof (delete_Permutation _ _ _ Hl) as Hp. assert (t ∉ delete i l) as Hn by (rewrite Hp in Hnd; by inversion Hnd). split; [done|].
  assert (∀ x, x ∈ l ↔ x = t ∨ x ∈ delete i l) as Hx by (intros x; rewrite <- elem_of_cons; by apply elem_of_Permutation_proper).
  apply set_eq. intros x. rewrite elem_of_difference, !elem_of_list_to_set, Hx, elem_of_singleton. naive_solver.
Qed.

(** The device answers any request: its task and event disappear, and the caller's event is
    signalled. *)
Lemma complete_step s i : async_inv s → (i < length (a_queue s))%nat →
  ∃ data s', complete i s = Some (data, s') ∧ async_inv s' ∧ a_queue s' = delete i (a_queue s) ∧ a_signals s' ++ pending s' ≡ₚ a_signals s ++ pending s.
Proof.
  intros Hi Hlt. destruct (lookup_lt_is_Some_2 _ _ Hlt) as [[t r] Hx]. pose proof Hi as [I1 I2 I3 I4 I5].
  assert ((a_queue s).*1 !! i = Some t) as Hti by (by rewrite list_lookup_fmap, Hx).
  assert (is_Some (a_tasks s !! t)) as [task Ht] by (apply elem_of_dom; rewrite I1, elem_of_list_to_set; by eapply list_elem_of_lookup_2).
  destruct (I5 _ _ Ht) as [ev Hev]. pose proof Hev as Hev'. unfold token_event in Hev'. cbn in Hev'.
  destruct (a_tokens s !! BlockIo2Token task) as [tok|] eqn:Htok; [|done]. cbn in Hev'.
  unfold complete. rewrite Hx. cbn [mbind option_bind fst snd]. destruct (Perform (a_disk s) r) as [[st data] d]. rewrite Ht. cbn [mbind option_bind].
  unfold PartitionOnAccessComplete. cbn [set_task set_queue set_disk a_tasks]. rewrite lookup_insert_eq. cbn [mbind option_bind BlockIo2Token DiskIo2Token].
  unfold answer_token. cbn [a_tokens set_task set_queue set_disk]. rewrite Htok. cbn [mbind option_bind]. eexists _, _. split; [reflexivity|].
  set (s' := drop_task t _). assert (a_tasks s' = delete t (a_tasks s)) as Etasks by (cbn; by rewrite delete_insert_eq).
  assert ((a_queue s').*1 = delete i (a_queue s).*1) as Equeue by (cbn; by rewrite list_fmap_delete).
  assert (∀ tk', token_event s' tk' = token_event s tk') as Etok by (by eapply token_event_status).
  destruct (delete_set _ _ _ I3 Hti) as [Hnot Eset].
  split; [split|split; [done|]].
  - rewrite Etasks, Equeue, Eset, dom_delete_L. by rewrite I1.
  - rewrite Equeue, Eset. cbn. by rewrite I2.
  - rewrite Equeue. eapply sublist_NoDup; [done|apply sublist_delete].
  - rewrite Equeue. cbn. apply Forall_delete, I4.
  - rewrite Etasks. intros t' task' Ht'. apply lookup_delete_Some in Ht' as [_ Ht']. rewrite Etok. by eapply I5.
  - unfold pending. rewrite Equeue.
    assert (omap (task_event s') (delete i (a_queue s).*1) = omap (task_event s) (delete i (a_queue s).*1)) as ->.
    { apply omap_ext_in. intros t' Hin. unfold task_event. rewrite Etasks. rewrite lookup_delete_ne by (by intros <-). destruct (a_tasks s !! t'); [apply Etok|done]. }
    assert (omap (task_event s) (a_queue s).*1 ≡ₚ ev :: omap (task_event s) (delete i (a_queue s).*1)) as Hp.
    { etrans; [apply omap_Permutation, (delete_Permutation _ _ _ Hti)|]. cbn. unfold task_event at 1. rewrite Ht. cbn. unfold token_event in Hev |- *. cbn in Hev |- *. by rewrite Hev. }
    rewrite Hp. subst s'. cbn. rewrite Hev'. cbn. by rewrite <- app_assoc.
Qed.
(** ** Steps *)

(** A step with the events of the requests that it accepts to answer later. *)
Inductive async_step : Async D → list Z → Async D → Prop :=
| StepCall c s st data s' : call_ok s c → call c s = Some (st, data, s') →
    async_step s (if EFI_ERROR st then [] else option_list (token_event s (call_token c))) s'
| StepComplete i s data s' : complete i s = Some (data, s') → async_step s [] s'.

Inductive async_run : Async D → list Z → Async D → Prop :=
| RunNil s : async_run s [] s
| RunCons s1 l1 s2 l2 s3 : async_step s1 l1 s2 → async_run s2 l2 s3 → async_run s1 (l1 ++ l2) s3.

(** The device answers [n] requests, always the first one. *)
Fixpoint drain (n : nat) s : option (Async D) :=
  match n with O => Some s | S n => r ← complete 0 s; drain n r.2 end.

Lemma step_inv s l s' : async_step s l s' → async_inv s → async_inv s' ∧ a_signals s' ++ pending s' ≡ₚ (a_signals s ++ pending s) ++ l.
Proof.
  intros Hstep Hi. destruct Hstep as [c s st data s' Hok E|i s data s' E].
  - destruct (async_call_step s c Hi Hok) as (st' & data' & s1 & E' & Hi1 & Hp). rewrite E in E'. injection E' as <- <- <-. by rewrite Hp.
  - assert (i < length (a_queue s))%nat as Hlt by (unfold complete in E; destruct (a_queue s !! i) eqn:Hx; [by eapply lookup_lt_Some|done]).
    destruct (complete_step s i Hi Hlt) as (data' & s1 & E' & Hi1 & _ & Hp). rewrite E in E'. injection E' as <- <-. by rewrite app_nil_r.
Qed.

Lemma run_inv s l s' : async_run s l s' → async_inv s → async_inv s' ∧ a_signals s' ++ pending s' ≡ₚ (a_signals s ++ pending s) ++ l.
Proof.
  induction 1 as [s|s1 l1 s2 l2 s3 Hs Hr IH]; intros Hi; [by rewrite app_nil_r|]. destruct (step_inv _ _ _ Hs Hi) as [Hi2 Hp2]. destruct (IH Hi2) as [Hi3 Hp3].
  split; [done|]. by rewrite Hp3, Hp2, <- app_assoc.
Qed.

Lemma drain_spec n s : async_inv s → length (a_queue s) = n →
  ∃ s', drain n s = Some s' ∧ idle s' ∧ a_signals s' ≡ₚ a_signals s ++ pending s.
Proof.
  revert s. induction n as [|n IH]; intros s Hi Hn; cbn [drain].
  - apply nil_length_inv in Hn. exists s. split; [done|]. split; [by apply queue_empty_idle|]. unfold pending. rewrite Hn. cbn. by rewrite app_nil_r.
  - destruct (complete_step s 0 Hi ltac:(lia)) as (data & s1 & -> & Hi1 & Eq & Hp). cbn [mbind option_bind snd].
    destruct (IH s1 Hi1) as (s2 & E & Hs & Hp2); [rewrite Eq, length_delete by (apply lookup_lt_is_Some; lia); lia|]. exists s2. split; [done|]. split; [done|]. by rewrite Hp2.
Qed.

(** C11. Asynchronous requests are answered exactly once: however calls and answers of the
    device interleave, no call is undefined while its token exists, and once the device has
    answered what it had queued, the events that were signalled are those of the accepted
    requests, each once; and no task and no event of the driver is left. *)
Theorem async_exactly_once s l s' : idle s → async_run s l s' →
  (∀ c, call_ok s' c → is_Some (call c s')) ∧ (∀ i, (i < length (a_queue s'))%nat → is_Some (complete i s')) ∧
  ∃ s'', drain (length (a_queue s')) s' = Some s'' ∧ idle s'' ∧ a_signals s'' ≡ₚ a_signals s ++ l.
Proof.
  intros Hidle Hrun. destruct (run_inv _ _ _ Hrun (idle_inv _ Hidle)) as [Hi Hp]. split; [|split].
  - intros c Hc. destruct (async_call_step s' c Hi Hc) as (st & data & s1 & E & _). by eexists.
  - intros i Hlt. destruct (complete_step s' i Hi Hlt) as (data & s1 & E & _). by eexists.
  - destruct (drain_spec _ s' Hi eq_refl) as (s2 & E & Hs & Hp2). exists s2. split; [done|]. split; [done|]. rewrite Hp2, Hp.
    destruct Hidle as (Eq & _ & _). unfold pending. rewrite Eq. cbn. by rewrite app_nil_r.
Qed.
End Async.

(** ** Asynchronous and synchronous I/O *)

Section Same.
Context {D : Type} `{DiskIo2Laws D}.
Implicit Types s : Async D.

Lemma probe_same id st s ch : ProbeMediaStatus id st {| p_disk := a_disk s; p_children := ch |} = Some (ProbeMediaStatusEx id st s, {| p_disk := a_disk s; p_children := ch |}).
Proof. unfold ProbeMediaStatus, ProbeMediaStatusEx. rewrite bind_gets. cbn [p_disk]. by rewrite read_null_same. Qed.

(** A write without an event is the synchronous write. *)
Theorem write_without_event mem create p id Lba buf s ch st data s' : PartitionWriteBlocksEx mem create p id Lba None buf s = Some (st, data, s') →
  PartitionWriteBlocks p id Lba buf {| p_disk := a_disk s; p_children := ch |} = Some (st, {| p_disk := a_disk s'; p_children := ch |}).
Proof.
  unfold PartitionWriteBlocksEx, PartitionWriteBlocks. destruct (_ =? 0); [done|]. destruct (negb _); [intros [= <- <- <-]; apply probe_same|].
  destruct (_ <? _); [intros [= <- <- <-]; apply probe_same|]. unfold access, at_once. rewrite perform_write. intros [= <- <- <-]. cbn [p_disk p_children].
  by destruct (WriteDisk _ _ _ _).
Qed.

Theorem read_without_event mem create p id Lba n s ch st data s' : PartitionReadBlocksEx mem create p id Lba None n s = Some (st, data, s') →
  PartitionReadBlocks p id Lba n {| p_disk := a_disk s; p_children := ch |} = Some ((st, data), {| p_disk := a_disk s'; p_children := ch |}).
Proof.
  assert (∀ d, (Status ← ProbeMediaStatus id d; mret (Status, [] : list Z)) {| p_disk := a_disk s; p_children := ch |} =
    Some ((ProbeMediaStatusEx id d s, []), {| p_disk := a_disk s; p_children := ch |})) as Hp.
  { intros d. unfold mbind, M_bind. by rewrite probe_same. }
  unfold PartitionReadBlocksEx, PartitionReadBlocks. destruct (_ =? 0); [done|]. destruct (negb _); [intros [= <- <- <-]; apply Hp|].
  destruct (_ <? _); [intros [= <- <- <-]; apply Hp|]. unfold access, at_once. rewrite perform_read. cbn. unfold gets. cbn [p_disk].
  destruct (ReadDisk _ _ _ _) as [st0 data0]. intros [= <- <- <-]. done.
Qed.

(** C12. A write with an event does what the synchronous write does, later: if the driver
    accepts it while nothing else is under way, the device's answer leaves the disk and
    reports the status that the synchronous write would have, and signals the event. *)
Theorem write_with_event mem create p id Lba tk tok ev buf s ch st data s' :
  idle s → a_tokens s !! tk = Some tok → Event tok = Some ev → PartitionWriteBlocksEx mem create p id Lba (Some tk) buf s = Some (st, data, s') → EFI_ERROR st = false →
  ∃ st' s'', complete 0 s' = Some ([], s'') ∧ idle s'' ∧
    PartitionWriteBlocks p id Lba buf {| p_disk := a_disk s'; p_children := ch |} = Some (st', {| p_disk := a_disk s''; p_children := ch |}) ∧ a_disk s' = a_disk s ∧
    a_tokens s'' !! tk = Some {| Event := Some ev; TransactionStatus := st' |} ∧ a_signals s'' = a_signals s ++ [ev].
Proof.
  intros (Eq & Et & Ee) Htok Hev E Hst. assert (∀ d, EFI_ERROR d = true → EFI_ERROR (ProbeMediaStatusEx id d s) = true) as Hprobe
    by (intros d Hd; unfold ProbeMediaStatusEx; destruct (ReadNullEx _ _); done).
  unfold PartitionWriteBlocksEx in E. unfold PartitionWriteBlocks. destruct (p_BlockSize p =? 0); [done|].
  destruct (negb _); [injection E as <- <- <-; by rewrite Hprobe in Hst|]. destruct (_ <? _); [injection E as <- <- <-; by rewrite Hprobe in Hst|].
  unfold access in E. rewrite Htok in E. cbn [mbind option_bind] in E. rewrite Hev in E. unfold PartitionCreateAccessTask in E.
  destruct (negb mem || EFI_ERROR create); [by injection E as <- <- <-|]. cbv zeta in E. injection E as <- <- <-. rewrite Hst.
  unfold complete. cbn. rewrite Eq, Et, Ee. cbn. rewrite perform_write. rewrite lookup_insert_eq. cbn. unfold PartitionOnAccessComplete. cbn.
  rewrite lookup_insert_eq. cbn. unfold answer_token. cbn. rewrite Htok. cbn. eexists (WriteDisk (a_disk s) id (child_offset p Lba) buf).1, _. split; [reflexivity|].
  split; [split; [done|]; split; cbn; [by rewrite insert_insert_eq, delete_insert_eq, delete_empty|set_solver]|].
  cbn. rewrite lookup_insert_eq, Hev. by destruct (WriteDisk _ _ _ _).
Qed.
End Same.

(** ** Runs *)

(** A disk of four blocks of four bytes, a child with the two in the middle, two tokens. *)
Definition demo_disk : Async ByteDisk := {|
  a_disk := {| bd_bytes := replicate 16 0; bd_writable := true |};
  a_tokens := <[0 := {| Event := Some 7; TransactionStatus := EFI_NOT_READY |}]> (<[1 := {| Event := Some 8; TransactionStatus := EFI_NOT_READY |}]> ∅);
  a_tasks := ∅; a_events := ∅; a_queue := []; a_signals := []; a_next := 0 |}.
Definition demo_child : PARTITION_PRIVATE_DATA := {| p_Node := OtherNode; p_Start := 4; p_End := 12; p_BlockSize := 4; p_LastBlock := 1; p_Esp := false |}.
Definition demo_write : AsyncCall := WriteCall true EFI_SUCCESS demo_child 0 1 (Some 0) [1; 2; 3; 4].
Definition demo_read : AsyncCall := ReadCall true EFI_SUCCESS demo_child 0 1 (Some 1) 4.

(** The state after a call. *)
Definition after (c : AsyncCall) (s : Async ByteDisk) : Async ByteDisk := from_option snd s (call c s).

Lemma demo_idle : idle demo_disk.
Proof. done. Qed.

Lemma demo_run : async_run demo_disk [7; 8] (after demo_read (after demo_write demo_disk)).
Proof.
  apply (RunCons demo_disk [7] (after demo_write demo_disk) [8]); [|apply (RunCons _ [8] (after demo_read (after demo_write demo_disk)) []); [|constructor]].
  - apply (StepCall demo_write demo_disk EFI_SUCCESS [] (after demo_write demo_disk)); [split; [by eexists|done]|vm_compute; reflexivity].
  - apply (StepCall demo_read (after demo_write demo_disk) EFI_SUCCESS [] (after demo_read (after demo_write demo_disk))); [split; [by eexists|done]|vm_compute; reflexivity].
Qed.

Lemma async_exactly_once_witness :
  ∃ s'', drain 2 (after demo_read (after demo_write demo_disk)) = Some s'' ∧ idle s'' ∧ a_signals s'' ≡ₚ [7; 8].
Proof. exact (proj2 (proj2 (async_exactly_once demo_disk [7; 8] (after demo_read (after demo_write demo_disk)) demo_idle demo_run))). Defined.

Lemma write_with_event_witness :
  ∃ st' s'', complete 0 (after demo_write demo_disk) = Some ([], s'') ∧ idle s'' ∧
    PartitionWriteBlocks demo_child 0 1 [1; 2; 3; 4] {| p_disk := a_disk (after demo_write demo_disk); p_children := [] |} = Some (st', {| p_disk := a_disk s''; p_children := [] |}) ∧
    a_disk (after demo_write demo_disk) = a_disk demo_disk ∧ a_tokens s'' !! 0 = Some {| Event := Some 7; TransactionStatus := st' |} ∧ a_signals s'' = [] ++ [7].
Proof.
  exact (write_with_event true EFI_SUCCESS demo_child 0 1 0 {| Event := Some 7; TransactionStatus := EFI_NOT_READY |} 7 [1; 2; 3; 4] demo_disk [] EFI_SUCCESS []
    (after demo_write demo_disk) demo_idle eq_refl eq_refl eq_refl eq_refl).
Defined.

Lemma write_without_event_witness :
  PartitionWriteBlocks demo_child 0 0 [9; 9; 9; 9] {| p_disk := a_disk demo_disk; p_children := [] |} =
    Some (EFI_SUCCESS, {| p_disk := a_disk (after (WriteCall true EFI_SUCCESS demo_child 0 0 None [9; 9; 9; 9]) demo_disk); p_children := [] |}).
Proof. apply (write_without_event true EFI_SUCCESS demo_child 0 0 [9; 9; 9; 9] demo_disk [] EFI_SUCCESS [] _). vm_compute. reflexivity. Defined.

Lemma read_without_event_witness :
  PartitionReadBlocks demo_child 0 0 4 {| p_disk := a_disk demo_disk; p_children := [] |} = Some ((EFI_SUCCESS, [0; 0; 0; 0]), {| p_disk := a_disk demo_disk; p_children := [] |}).
Proof. apply (read_without_event true EFI_SUCCESS demo_child 0 0 4 demo_disk [] EFI_SUCCESS [0; 0; 0; 0] demo_disk). vm_compute. reflexivity. Defined.

(** Answers may come in the other order: the read sees the disk before the write. *)
Example overtaken :
  (r ← complete 1 (after demo_read (after demo_write demo_disk)); Some (r.1, a_signals r.2)) = Some ([0; 0; 0; 0], [8]).
Proof. vm_compute. reflexivity. Qed.
