(* ===== verification/PartBinding.v ===== *)
(** * PartitionDxe: starting and stopping on a device (Partition.c)

    What the driver has opened on a controller, the detection when it starts, and the
    removal of children when it stops.  A protocol that this driver has not opened answers
    with a status of the platform ([Platform]); one that it has opened answers that it is
    already started.  A media change that calls the driver again while it starts is not
    modelled. *)

From Stdlib Require Import ZArith Lia.
From stdpp Require Import base list list_numbers gmap.
From S2P Require Import Prelude PartDisk PartGpt PartMbr.

Open Scope Z_scope.

(** ** Protocols of a controller *)

(** The answers of OpenProtocol for a driver that has not opened the protocol. *)
Record Platform := { pf_BlockIo : EFI_STATUS; pf_DevicePath : EFI_STATUS; pf_DiskIo : EFI_STATUS; pf_DiskIo2 : EFI_STATUS }.

(** What this driver has opened as the driver of the controller. *)
Record Opens := { o_DevicePath : bool; o_DiskIo : bool; o_DiskIo2 : bool }.

Definition closed : Opens := {| o_DevicePath := false; o_DiskIo := false; o_DiskIo2 := false |}.

(** OpenProtocol BY_DRIVER: the status, and whether the protocol is open afterwards. *)
Definition open_by_driver (answer : EFI_STATUS) (mine : bool) : EFI_STATUS * bool :=
  if mine then (EFI_ALREADY_STARTED, true) else (answer, negb (EFI_ERROR answer)).

Definition set_path (b : bool) (o : Opens) : Opens := {| o_DevicePath := b; o_DiskIo := o_DiskIo o; o_DiskIo2 := o_DiskIo2 o |}.
Definition set_disk_io (b : bool) (o : Opens) : Opens := {| o_DevicePath := o_DevicePath o; o_DiskIo := b; o_DiskIo2 := o_DiskIo2 o |}.
Definition set_disk_io2 (b : bool) (o : Opens) : Opens := {| o_DevicePath := o_DevicePath o; o_DiskIo := o_DiskIo o; o_DiskIo2 := b |}.

(** ** Supported *)

(** The first node of RemainingDevicePath. *)
Inductive Remaining := NoPath | EndPath | HardDrivePath | VendorPath | OtherPath.

#[global] Instance Remaining_eq_dec : EqDecision Remaining.
Proof. solve_decision. Defined.

Definition PartitionDriverBindingSupported (RemainingDevicePath : Remaining) (pf : Platform) (o : Opens) : EFI_STATUS * Opens :=
  if bool_decide (RemainingDevicePath = OtherPath) then (EFI_UNSUPPORTED, o) else
  let '(Status, b) := open_by_driver (pf_DiskIo pf) (o_DiskIo o) in
  if bool_decide (Status = EFI_ALREADY_STARTED) then (EFI_SUCCESS, set_disk_io b o) else
  if EFI_ERROR Status then (Status, set_disk_io b o) else
  let o := set_disk_io false (set_disk_io b o) in
  let '(Status, b) := open_by_driver (pf_DevicePath pf) (o_DevicePath o) in
  if bool_decide (Status = EFI_ALREADY_STARTED) then (EFI_SUCCESS, set_path b o) else
  if EFI_ERROR Status then (Status, set_path b o) else
  (pf_BlockIo pf, set_path false (set_path b o)).

(** ** Start *)

Definition TPL_CALLBACK : Z := 8.

Section Binding.
Context {D : Type} `{DiskIo D}.

(** The opened protocols, the task priority level, the disk with the children. *)
Record Binding := { b_opens : Opens; b_tpl : Z; b_part : Part D }.

Definition with_opens (o : Opens) (b : Binding) : Binding := {| b_opens := o; b_tpl := b_tpl b; b_part := b_part b |}.
Definition with_tpl (t : Z) (b : Binding) : Binding := {| b_opens := b_opens b; b_tpl := t; b_part := b_part b |}.

Context (pf : Platform) (m : EFI_BLOCK_IO_MEDIA) (CalculateCrc32 : list Z → option Z) (fuel : nat) (DevicePath : list DevNode).

(** When the device is closed again after an unsuccessful detection. *)
Definition closes (Status : EFI_STATUS) : bool :=
  EFI_ERROR Status && negb (bool_decide (Status = EFI_MEDIA_CHANGED)) && negb (MediaPresent m && bool_decide (Status = EFI_NO_MEDIA)).

(** From the opening of the protocols to the label Exit. *)
Definition start_body (b : Binding) : option (EFI_STATUS * Binding) :=
  if EFI_ERROR (pf_BlockIo pf) then Some (pf_BlockIo pf, b) else
  let '(Status, path) := open_by_driver (pf_DevicePath pf) (o_DevicePath (b_opens b)) in
  let b := with_opens (set_path path (b_opens b)) b in
  if EFI_ERROR Status && negb (bool_decide (Status = EFI_ALREADY_STARTED)) then Some (Status, b) else
  let '(Status, disk) := open_by_driver (pf_DiskIo pf) (o_DiskIo (b_opens b)) in
  let b := with_opens (set_disk_io disk (b_opens b)) b in
  if EFI_ERROR Status then Some (Status, with_opens (set_path false (b_opens b)) b) else
  let OpenStatus := Status in
  let '(_, disk2) := open_by_driver (pf_DiskIo2 pf) (o_DiskIo2 (b_opens b)) in
  let b := with_opens (set_disk_io2 disk2 (b_opens b)) b in
  r ← detect m CalculateCrc32 fuel DevicePath (b_part b);
  let '(Status, part) := r in
  let b := {| b_opens := b_opens b; b_tpl := b_tpl b; b_part := part |} in
  Some (Status, if closes Status && negb (EFI_ERROR OpenStatus) then with_opens closed b else b).

(** [None] also when the level is above TPL_CALLBACK already. *)
Definition PartitionDriverBindingStart (RemainingDevicePath : Remaining) (b : Binding) : option (EFI_STATUS * Binding) :=
  let OldTpl := b_tpl b in
  if TPL_CALLBACK <? OldTpl then None else
  let b := with_tpl TPL_CALLBACK b in
  r ← match RemainingDevicePath with EndPath => Some (EFI_SUCCESS, b) | _ => start_body b end;
  Some (r.1, with_tpl OldTpl r.2).
End Binding.
Arguments Binding : clear implicits.

(** ** Stop *)

(** A child's handle: its data, whether it has a BlockIo2, and whether the parent's DiskIo is
    opened for it. *)
Record Child := { ch_Private : PARTITION_PRIVATE_DATA; ch_BlockIo2 : bool; ch_opened : bool }.

(** The children on their handles, the flushes of the parent (of BlockIo, of DiskIo2). *)
Record Children := { ch_map : gmap Z Child; ch_flushes : list bool }.

(** One turn of the loop; [uninstall] is the answer for the handle's interfaces.  Without a
    BlockIo on the handle the driver's data are computed from a null pointer. *)
Definition stop_child (uninstall : EFI_STATUS) (h : Z) (c : Children) : option (bool * Children) :=
  x ← ch_map c !! h;
  let c := {| ch_map := <[h := {| ch_Private := ch_Private x; ch_BlockIo2 := ch_BlockIo2 x; ch_opened := false |}]> (ch_map c);
              ch_flushes := ch_flushes c ++ (if ch_BlockIo2 x then [false; true] else [false]) |} in
  if EFI_ERROR uninstall
  then Some (false, {| ch_map := <[h := {| ch_Private := ch_Private x; ch_BlockIo2 := ch_BlockIo2 x; ch_opened := true |}]> (ch_map c); ch_flushes := ch_flushes c |})
  else Some (true, {| ch_map := delete h (ch_map c); ch_flushes := ch_flushes c |}).

Fixpoint stop_loop (uninstall : Z → EFI_STATUS) (ChildHandleBuffer : list Z) (AllChildrenStopped : bool) (c : Children) : option (bool * Children) :=
  match ChildHandleBuffer with
  | [] => Some (AllChildrenStopped, c)
  | h :: hs => stop_child (uninstall h) h c ≫= λ r : bool * Children, stop_loop uninstall hs (AllChildrenStopped && r.1) r.2
  end.

Definition PartitionDriverBindingStop (uninstall : Z → EFI_STATUS) (ChildHandleBuffer : list Z) (o : Opens) (c : Children) : option (EFI_STATUS * Opens * Children) :=
  match ChildHandleBuffer with
  | [] => Some (EFI_SUCCESS, closed, c)
  | _ => stop_loop uninstall ChildHandleBuffer true c ≫= λ r : bool * Children, Some (if r.1 then EFI_SUCCESS else EFI_DEVICE_ERROR, o, r.2)
  end.
