(* ===== verification/PartBindingTheorems.v ===== *)
(** * PartitionDxe: properties of starting and stopping *)

From Stdlib Require Import ZArith Lia.
From stdpp Require Import base list list_numbers gmap.
From S2P Require Import Prelude PartDisk PartGpt PartMbr PartDemo PartMbrTheorems PartBinding.

Open Scope Z_scope.

(** ** Supported *)

(** Supported leaves the protocols as it found them. *)
Theorem supported_balanced rem pf o st o' : PartitionDriverBindingSupported rem pf o = (st, o') → o' = o.
Proof.
  destruct o as [p d d2]. unfold PartitionDriverBindingSupported, open_by_driver, set_path, set_disk_io. cbn. destruct rem; cbn; try by intros [= _ <-].
  all: destruct d; cbn; [by intros [= _ <-]|]; destruct (pf_DiskIo pf); cbn; try by intros [= _ <-].
  all: destruct p; cbn; [by intros [= _ <-]|]; destruct (pf_DevicePath pf); cbn; by intros [= _ <-].
Qed.

(** ** Start *)

Section Start.
Context {D : Type} `{DiskIo D}.
Context (pf : Platform) (m : EFI_BLOCK_IO_MEDIA) (CalculateCrc32 : list Z → option Z) (fuel : nat) (DevicePath : list DevNode).
Implicit Types b : Binding D.
Abbreviation start := (PartitionDriverBindingStart pf m CalculateCrc32 fuel DevicePath).

(** What the driver has opened while it runs. *)
Definition running : Opens := {| o_DevicePath := true; o_DiskIo := true; o_DiskIo2 := negb (EFI_ERROR (pf_DiskIo2 pf)) |}.

(** The answers that let the driver run. *)
Definition device_ok : bool := negb (EFI_ERROR (pf_BlockIo pf)) && negb (EFI_ERROR (pf_DevicePath pf)) && negb (EFI_ERROR (pf_DiskIo pf)).

(** The outcomes of the detection after which the driver keeps the device: it found
    partitions, the media was changed meanwhile, or there is media of which the disk says
    that it is not there. *)
Definition keeps_device (st : EFI_STATUS) : Prop :=
  EFI_ERROR st = false ∨ st = EFI_MEDIA_CHANGED ∨ (MediaPresent m = true ∧ st = EFI_NO_MEDIA).

Lemma closes_spec st : (closes m st = false ↔ keeps_device st) ∧ (closes m st = true ↔ ¬ keeps_device st).
Proof.
  unfold closes, keeps_device. destruct (EFI_ERROR st) eqn:E; cbn [andb]; [|split; [tauto|naive_solver]].
  case_bool_decide; cbn [negb andb]; [split; naive_solver|]. destruct (MediaPresent m); cbn [andb negb]; [|split; naive_solver].
  case_bool_decide; cbn [negb]; split; naive_solver.
Qed.

Lemma start_body_first b : b_opens b = closed → pf_DevicePath pf ≠ EFI_ALREADY_STARTED →
  if device_ok then start_body pf m CalculateCrc32 fuel DevicePath b =
      (λ r, (r.1, {| b_opens := if closes m r.1 then closed else running; b_tpl := b_tpl b; b_part := r.2 |})) <$> detect m CalculateCrc32 fuel DevicePath (b_part b)
  else ∃ st, start_body pf m CalculateCrc32 fuel DevicePath b = Some (st, b) ∧ EFI_ERROR st = true.
Proof.
  intros Ho Hpath. destruct b as [o tpl part]. cbn in Ho. subst o. unfold start_body, device_ok, open_by_driver. cbn. destruct (EFI_ERROR (pf_BlockIo pf)) eqn:E1; cbn; [by eexists|].
  destruct (EFI_ERROR (pf_DevicePath pf)) eqn:E2; cbn.
  { rewrite bool_decide_false by done. cbn. by eexists. }
  destruct (EFI_ERROR (pf_DiskIo pf)) eqn:E3; cbn; [by eexists|]. destruct (detect _ _ _ _ _) as [[st0 part']|]; cbn; [|done].
  rewrite ?andb_true_r. by destruct (closes m st0).
Qed.

(** C13. Starting is balanced, on a device where the driver is not running and at a task
    priority level of at most TPL_CALLBACK, which is restored.  With a remaining path that is
    its end node the driver does nothing and succeeds.  If a protocol cannot be opened, the
    error is reported and nothing stays open.  Otherwise the driver returns if the detection of
    partitions does (C40 has disks for which it does not), with its status; and the device stays
    open (device path, DiskIo and, if there is one, DiskIo2) exactly if partitions were found,
    the media has changed, or there is media of which the disk says that it is not there. *)
Theorem start_balanced rem b : b_opens b = closed → b_tpl b ≤ TPL_CALLBACK → pf_DevicePath pf ≠ EFI_ALREADY_STARTED →
  match rem with
  | EndPath => start rem b = Some (EFI_SUCCESS, b)
  | _ =>
      if device_ok then
        match detect m CalculateCrc32 fuel DevicePath (b_part b) with
        | None => start rem b = None
        | Some (st, part) => ∃ o, start rem b = Some (st, {| b_opens := o; b_tpl := b_tpl b; b_part := part |}) ∧
            (keeps_device st → o = running) ∧ (¬ keeps_device st → o = closed)
        end
      else ∃ st, start rem b = Some (st, b) ∧ EFI_ERROR st = true
  end.
Proof.
  intros Ho Htpl Hpath. unfold PartitionDriverBindingStart. destruct (Z.ltb_spec TPL_CALLBACK (b_tpl b)); [lia|].
  pose proof (start_body_first (with_tpl TPL_CALLBACK b) Ho Hpath) as Hb. destruct (decide (rem = EndPath)) as [->|Hrem]; [by destruct b|].
  assert (∀ A (x y : A), match rem with EndPath => x | _ => y end = y) as Hm by (by destruct rem). rewrite !Hm. clear Hm Hrem.
  destruct device_ok; [|destruct Hb as (st & -> & He); exists st; by destruct b]. rewrite Hb. cbn [b_part with_tpl b_tpl].
  destruct (detect _ _ _ _ _) as [[st part]|]; [|done]. cbn. eexists. split; [reflexivity|]. cbn. destruct (closes_spec st) as [C1 C2].
  split; intros Hk; [apply C1 in Hk as ->|apply C2 in Hk as ->]; done.
Qed.

(** A device that runs is started again: the driver reports that it is started already, but
    closes the device path that the first start has opened. *)
Theorem restart_closes_path rem b : EFI_ERROR (pf_BlockIo pf) = false → b_opens b = running → b_tpl b ≤ TPL_CALLBACK → rem ≠ EndPath →
  start rem b = Some (EFI_ALREADY_STARTED, with_opens (set_path false running) b).
Proof.
  intros Hio Ho Htpl Hrem. unfold PartitionDriverBindingStart. destruct (Z.ltb_spec TPL_CALLBACK (b_tpl b)); [lia|].
  assert (start_body pf m CalculateCrc32 fuel DevicePath (with_tpl TPL_CALLBACK b) = Some (EFI_ALREADY_STARTED, with_opens (set_path false running) (with_tpl TPL_CALLBACK b))) as E.
  { unfold start_body. rewrite Hio. cbn. rewrite Ho. done. }
  destruct rem; try done; by rewrite E.
Qed.
End Start.

(** ** Stop *)

(** The children that remain: those that were not named, and those whose interfaces could not
    be uninstalled. *)
Definition remaining (uninstall : Z → EFI_STATUS) (hs : list Z) (c : gmap Z Child) : gmap Z Child :=
  filter (λ x, x.1 ∉ hs ∨ EFI_ERROR (uninstall x.1) = true) c.

Lemma stop_loop_spec uninstall hs all c : NoDup hs → Forall (λ h, is_Some (ch_map c !! h)) hs → map_Forall (λ _ x, ch_opened x = true) (ch_map c) →
  ∃ c', stop_loop uninstall hs all c = Some (all && forallb (λ h, negb (EFI_ERROR (uninstall h))) hs, c') ∧ ch_map c' = remaining uninstall hs (ch_map c).
Proof.
  revert all c. induction hs as [|h hs IH]; intros all c Hn Hc Ho; cbn [stop_loop forallb].
  - exists c. rewrite andb_true_r. split; [done|]. unfold remaining. symmetry. apply map_filter_id. intros k x _. left. apply not_elem_of_nil.
  - apply NoDup_cons in Hn as [Hh Hn]. apply Forall_cons in Hc as [[x Hx] Hc]. unfold stop_child. rewrite Hx. cbn [mbind option_bind].
    set (c1 := (if EFI_ERROR (uninstall h) then _ else _) : option (bool * Children)).
    assert (∃ r, c1 = Some (negb (EFI_ERROR (uninstall h)), r) ∧ ch_map r = if EFI_ERROR (uninstall h) then ch_map c else delete h (ch_map c)) as (r & -> & Er).
    { subst c1. destruct (EFI_ERROR (uninstall h)); eexists; (split; [reflexivity|]); cbn; rewrite ?insert_insert_eq; [|by rewrite delete_insert_eq].
      apply insert_id. rewrite Hx. f_equal. specialize (Ho _ _ Hx). cbn in Ho. destruct x. cbn in Ho |- *. by rewrite Ho. }
    cbn [mbind option_bind fst snd]. destruct (IH (all && negb (EFI_ERROR (uninstall h))) r Hn) as (c' & E & Ec').
    + rewrite Er. destruct (EFI_ERROR (uninstall h)); [done|]. rewrite Forall_forall in Hc |- *. intros h' Hin. rewrite lookup_delete_ne by (by intros <-). by apply Hc.
    + rewrite Er. destruct (EFI_ERROR (uninstall h)); [done|]. by apply map_Forall_delete.
    + exists c'. rewrite E, andb_assoc. split; [done|]. rewrite Ec', Er. apply map_eq. intros k. unfold remaining. destruct (EFI_ERROR (uninstall h)) eqn:Eu.
      * apply option_eq. intros y. rewrite !map_lookup_filter_Some. cbn. rewrite not_elem_of_cons. destruct (decide (k = h)) as [->|]; [rewrite Eu|]; naive_solver.
      * apply option_eq. intros y. rewrite !map_lookup_filter_Some, lookup_delete_Some. cbn. rewrite not_elem_of_cons. destruct (decide (k = h)) as [->|]; [rewrite Eu|]; naive_solver.
Qed.

(** Stopping children: for distinct handles of children, the driver succeeds exactly if every
    child could be removed; a child that could not keeps its link to the parent; the protocols
    of the controller stay open. *)
Theorem stop_children uninstall h hs o c : NoDup (h :: hs) → Forall (λ h, is_Some (ch_map c !! h)) (h :: hs) → map_Forall (λ _ x, ch_opened x = true) (ch_map c) →
  ∃ c', PartitionDriverBindingStop uninstall (h :: hs) o c =
      Some (if forallb (λ h, negb (EFI_ERROR (uninstall h))) (h :: hs) then EFI_SUCCESS else EFI_DEVICE_ERROR, o, c') ∧
    ch_map c' = remaining uninstall (h :: hs) (ch_map c).
Proof.
  intros Hn Hc Ho. destruct (stop_loop_spec uninstall (h :: hs) true c Hn Hc Ho) as (c' & E & Ec). exists c'. unfold PartitionDriverBindingStop. rewrite E. done.
Qed.

(** ** Runs *)

Definition demo_platform : Platform := {| pf_BlockIo := EFI_SUCCESS; pf_DevicePath := EFI_SUCCESS; pf_DiskIo := EFI_SUCCESS; pf_DiskIo2 := EFI_UNSUPPORTED |}.
Definition demo_binding : Binding ByteDisk := {| b_opens := closed; b_tpl := 4; b_part := demo_part demo_mbr_disk true |}.
Definition demo_start : option (EFI_STATUS * Binding ByteDisk) := PartitionDriverBindingStart demo_platform demo_media (λ _, Some 0) 4 [] NoPath demo_binding.

(** The state after the start. *)
Definition demo_running : Binding ByteDisk := from_option snd demo_binding demo_start.

Lemma start_balanced_witness : ∃ o, demo_start = Some (EFI_SUCCESS, {| b_opens := o; b_tpl := 4; b_part := b_part demo_running |}) ∧ o = running demo_platform.
Proof.
  assert (detect demo_media (λ _, Some 0) 4 [] (demo_part demo_mbr_disk true) = Some (EFI_SUCCESS, b_part demo_running)) as E by (vm_compute; reflexivity).
  pose proof (start_balanced demo_platform demo_media (λ _, Some 0) 4 [] NoPath demo_binding eq_refl ltac:(discriminate) ltac:(discriminate)) as H.
  change (b_part demo_binding) with (demo_part demo_mbr_disk true) in H. rewrite E in H. destruct H as (o & E1 & H1 & _).
  exists o. split; [exact E1|]. apply H1. left. reflexivity.
Defined.

Lemma supported_balanced_witness : (PartitionDriverBindingSupported HardDrivePath demo_platform closed).2 = closed.
Proof. exact (supported_balanced HardDrivePath demo_platform closed EFI_SUCCESS closed eq_refl). Defined.

Lemma restart_closes_path_witness :
  PartitionDriverBindingStart demo_platform demo_media (λ _, Some 0) 4 [] NoPath demo_running =
    Some (EFI_ALREADY_STARTED, with_opens (set_path false (running demo_platform)) demo_running).
Proof. apply (restart_closes_path demo_platform demo_media (λ _, Some 0) 4 [] NoPath demo_running); [reflexivity|vm_compute; reflexivity|vm_compute; discriminate|discriminate]. Defined.

(** Two children, of which the first cannot be removed. *)
Definition demo_kid : Child := {| ch_Private := {| p_Node := OtherNode; p_Start := 0; p_End := 512; p_BlockSize := 512; p_LastBlock := 0; p_Esp := false |};
  ch_BlockIo2 := false; ch_opened := true |}.
Definition demo_children : Children := {| ch_map := <[1 := demo_kid]> (<[2 := demo_kid]> ∅); ch_flushes := [] |}.

Lemma stop_children_witness :
  ∃ c', PartitionDriverBindingStop (λ h, if h =? 1 then EFI_ACCESS_DENIED else EFI_SUCCESS) [1; 2] closed demo_children = Some (EFI_DEVICE_ERROR, closed, c') ∧
    ch_map c' = remaining (λ h, if h =? 1 then EFI_ACCESS_DENIED else EFI_SUCCESS) [1; 2] (ch_map demo_children).
Proof.
  apply (stop_children (λ h, if h =? 1 then EFI_ACCESS_DENIED else EFI_SUCCESS) 1 [2] closed demo_children).
  - apply (bool_decide_unpack _). vm_compute. exact I.
  - repeat constructor; by eexists.
  - apply map_Forall_insert_2; [done|]. apply map_Forall_insert_2; [done|]. apply map_Forall_empty.
Defined.
