(* ===== verification/Apfs.v ===== *)
(** * ApfsDriverLoader: the driver inside an APFS container (ApfsDriverLoader.c)

    Reads the container's superblock and its EFI boot record, checks them, collects the
    extents of the embedded driver and starts it; without a protocol that tells what a
    partition is, looks for the container in a partition table itself.  The disk is that of
    PartDisk.v and PartAsync.v; the state counts the allocations that are live, and holds the
    protocol that the loader has installed and the images that run.  The answers of the boot
    services are arguments. *)

From Stdlib Require Import ZArith Lia.
From stdpp Require Import base list list_numbers strings.
From S2P Require Import Prelude PartDisk PartAsync.

Open Scope Z_scope.

(** ** Checksums *)

(** The loop over 32-bit words; sums of 64 bits. *)
Fixpoint checksum_loop (words : list Z) (Sum1 Sum2 : Z) : Z * Z :=
  match words with
  | [] => (Sum1, Sum2)
  | w :: words => let Sum1 := wrap64 (Sum1 + w) in checksum_loop words Sum1 (wrap64 (Sum2 + Sum1))
  end.

Definition ModValue : Z := 0xFFFFFFFF.

Definition checksum_words (words : list Z) : Z :=
  let '(Sum1, Sum2) := checksum_loop words 0 0 in
  let Check1 := ModValue - wrap64 (Sum1 + Sum2) mod ModValue in
  let Check2 := ModValue - wrap64 (Sum1 + Check1) mod ModValue in
  wrap64 (Z.lor (Z.shiftl Check2 32) Check1).

Definition data_words (n : nat) (Data : list Z) : list Z := (λ i, load 4 (4 * i) Data) <$> seq 0 n.

(** [None]: the words are not in the buffer. *)
Definition ApfsBlockChecksumCalculate (Data : list Z) (DataSize : Z) : option Z :=
  if DataSize / 4 * 4 <=? Z.of_nat (length Data) then Some (checksum_words (data_words (Z.to_nat (DataSize / 4)) Data)) else None.

Definition ApfsBlockChecksumVerify (Data : list Z) (DataSize : Z) : option bool :=
  if Z.of_nat (length Data) <? 8 then None else
  NewChecksum ← ApfsBlockChecksumCalculate (drop 8 Data) (wrap64 (DataSize - 8));
  Some (NewChecksum =? load 8 0 Data).

(** ** Blocks *)

(** A field of a block that is in a buffer. *)
Definition field (n off : nat) (b : list Z) : option Z := if (off + n <=? length b)%nat then Some (load n off b) else None.

(** Offsets in APFS_CSB and APFS_EFI_BOOT_RECORD. *)
Definition csb_ObjectOid : nat := 8.
Definition csb_ObjectType : nat := 24.
Definition csb_Magic : nat := 32.
Definition csb_BlockSize : nat := 36.
Definition csb_Uuid : nat := 72.
Definition csb_EfiBootRecordBlock : nat := 1272.
Definition rec_Magic : nat := 32.
Definition rec_Version : nat := 36.
Definition rec_EfiFileLen : nat := 40.
Definition rec_NumOfExtents : nat := 44.
Definition rec_RecordExtents : nat := 176.

Definition APFS_CSB_SIGNATURE : Z := 0x4253584E.
Definition APFS_EFIBOOTRECORD_SIGNATURE : Z := 0x5244534A.

(** ** State *)

(** Live allocations; the protocol that tells where the boot record is: not installed, or
    installed with its interface in memory that is allocated or not; the images that run. *)
Record Apfs := { a_live : Z; a_info : option bool; a_started : list (list Z) }.

(** The answers of the boot services; LoadImage may look at the image. *)
Record Answers := {
  ans_LoadImage : list Z → EFI_STATUS; ans_LoadedImage : EFI_STATUS; ans_CalculateCrc32 : EFI_STATUS; ans_StartImage : EFI_STATUS; ans_Install : EFI_STATUS
}.

Definition add_live (n : Z) : M Apfs unit := modify (λ s, {| a_live := a_live s + n; a_info := a_info s; a_started := a_started s |}).
Definition set_info (i : option bool) : M Apfs unit := modify (λ s, {| a_live := a_live s; a_info := i; a_started := a_started s |}).
Definition push_image (x : list Z) : M Apfs unit := modify (λ s, {| a_live := a_live s; a_info := a_info s; a_started := x :: a_started s |}).

Section Loader.
Context {D : Type} `{DiskIo D} `{DiskIo2 D} (d : D).

(** A disk with DiskIo2, or with DiskIo only. *)
Context (io2 : bool) (ans : Answers).

Definition read_disk (MediaId Offset n : Z) : EFI_STATUS * list Z :=
  if io2 then (Perform d (ReadDiskEx MediaId Offset n)).1 else ReadDisk d MediaId Offset n.

Definition pool (n : Z) : M Apfs bool := if AllocatePool d n then add_live 1;; mret true else mret false.
Definition FreePool : M Apfs unit := add_live (-1).

(** The new buffer with the old contents; the old one is freed if there is a new one.
    Without memory the old buffer stays, and the result is null. *)
Definition ReallocatePool (new : Z) (old : option (list Z)) : M Apfs (option (list Z)) :=
  ok ← pool new;
  if negb ok then mret None else
  (match old with Some _ => FreePool | None => mret tt end);;
  mret (Some (take (Z.to_nat new) (default [] old))).

(** ** Starting the driver *)

Definition sizeof_system_table : Z := 120.

Definition StartApfsDriver (EfiFileBuffer : option (list Z)) (EfiFileSize : Z) : M Apfs EFI_STATUS :=
  match EfiFileBuffer with
  | None => mret EFI_UNSUPPORTED
  | Some b =>
      if (EfiFileSize =? 0) || (0xFFFFFFFF <? EfiFileSize) then mret EFI_UNSUPPORTED else
      if Z.of_nat (length b) <? EfiFileSize then undef else
      let image := take (Z.to_nat EfiFileSize) b in
      if EFI_ERROR (ans_LoadImage ans image) then mret (ans_LoadImage ans image) else
      if EFI_ERROR (ans_LoadedImage ans) then mret (ans_LoadedImage ans) else
      ok ← pool sizeof_system_table;
      if negb ok then mret EFI_OUT_OF_RESOURCES else
      if EFI_ERROR (ans_CalculateCrc32 ans) then (FreePool;; mret (ans_CalculateCrc32 ans)) else
      if EFI_ERROR (ans_StartImage ans) then (FreePool;; mret (ans_StartImage ans)) else
      push_image image;; mret EFI_SUCCESS
  end.

(** ** Start *)

Context (MediaId LegacyBaseOffset : Z).

(** An error, or a value to go on with. *)
Definition orelse {A B} (m : M Apfs (EFI_STATUS + A)) (k : A → M Apfs (EFI_STATUS + B)) : M Apfs (EFI_STATUS + B) :=
  r ← m; match r with inl st => mret (inl st) | inr x => k x end.

(** FreePool(ApfsBlock) and an error. *)
Definition drop_block {A} (Status : EFI_STATUS) : M Apfs (EFI_STATUS + A) := FreePool;; mret (inl Status).

(** An undefined read, or a value. *)
Definition defined {A} (x : option A) : M Apfs A := match x with Some x => mret x | None => undef end.

(** The first 2048 bytes of the superblock: the size of a block. *)
Definition read_block_size : M Apfs (EFI_STATUS + Z) :=
  ok ← pool 2048;
  if negb ok then mret (inl EFI_OUT_OF_RESOURCES) else
  let '(Status, ApfsBlock) := read_disk MediaId LegacyBaseOffset 2048 in
  if EFI_ERROR Status then drop_block EFI_DEVICE_ERROR else
  oid ← defined (field 8 csb_ObjectOid ApfsBlock);
  type ← defined (field 4 csb_ObjectType ApfsBlock);
  if negb (oid =? 1) || negb (type =? 0x80000001) then drop_block EFI_UNSUPPORTED else
  magic ← defined (field 4 csb_Magic ApfsBlock);
  if negb (magic =? APFS_CSB_SIGNATURE) then drop_block EFI_UNSUPPORTED else
  size ← defined (field 4 csb_BlockSize ApfsBlock);
  FreePool;; mret (inr size).

(** The whole superblock in a new buffer: the offset of the boot record. *)
Definition read_superblock (ApfsBlockSize : Z) : M Apfs (EFI_STATUS + Z) :=
  ok ← pool ApfsBlockSize;
  if negb ok then mret (inl EFI_OUT_OF_RESOURCES) else
  let '(Status, ApfsBlock) := read_disk MediaId LegacyBaseOffset ApfsBlockSize in
  if EFI_ERROR Status then drop_block EFI_DEVICE_ERROR else
  valid ← defined (ApfsBlockChecksumVerify ApfsBlock ApfsBlockSize);
  if negb valid then drop_block EFI_UNSUPPORTED else
  _ ← defined (field 16 csb_Uuid ApfsBlock);
  ptr ← defined (field 8 csb_EfiBootRecordBlock ApfsBlock);
  mret (inr (wrap64 (MultU64x32 ptr ApfsBlockSize + LegacyBaseOffset))).

(** The boot record in the same buffer. *)
Definition read_record (ApfsBlockSize EfiBootRecordBlockOffset : Z) : M Apfs (EFI_STATUS + list Z) :=
  let '(Status, ApfsBlock) := read_disk MediaId EfiBootRecordBlockOffset ApfsBlockSize in
  if EFI_ERROR Status then drop_block EFI_DEVICE_ERROR else
  valid ← defined (ApfsBlockChecksumVerify ApfsBlock ApfsBlockSize);
  if negb valid then drop_block EFI_UNSUPPORTED else
  magic ← defined (field 4 rec_Magic ApfsBlock);
  if negb (magic =? APFS_EFIBOOTRECORD_SIGNATURE) then drop_block EFI_UNSUPPORTED else
  mret (inr ApfsBlock).

(** The loop over the extents from [Index], [n] of them left; [CurPos] is the length of the
    buffer.  A sum of sizes that wraps around would lead out of the new buffer. *)
Fixpoint extents_loop (n Index : nat) (ApfsBlockSize : Z) (record : list Z) (CurPos : Z) (EfiFileBuffer : option (list Z)) :
  M Apfs (EFI_STATUS + (Z * option (list Z))) :=
  match n with
  | O => mret (inr (CurPos, EfiFileBuffer))
  | S n =>
      addr ← defined (field 8 (rec_RecordExtents + 16 * Index) record);
      count ← defined (field 8 (rec_RecordExtents + 16 * Index + 8) record);
      let Offset := wrap64 (MultU64x32 addr ApfsBlockSize + LegacyBaseOffset) in
      let Size := MultU64x32 count ApfsBlockSize in
      if Size =? 0 then extents_loop n (S Index) ApfsBlockSize record CurPos EfiFileBuffer else
      buf ← ReallocatePool (wrap64 (CurPos + Size)) EfiFileBuffer;
      match buf with
      | None => drop_block EFI_OUT_OF_RESOURCES
      | Some b =>
          if wrap64 (CurPos + Size) <? CurPos + Size then undef else
          let '(Status, data) := read_disk MediaId Offset Size in
          if EFI_ERROR Status then (FreePool;; drop_block EFI_DEVICE_ERROR) else
          extents_loop n (S Index) ApfsBlockSize record (CurPos + Size) (Some (b ++ data))
      end
  end.

(** The driver: all extents, cut to its length. *)
Definition read_driver (ApfsBlockSize : Z) (record : list Z) : M Apfs (EFI_STATUS + option (list Z)) :=
  n ← defined (field 4 rec_NumOfExtents record);
  len ← defined (field 4 rec_EfiFileLen record);
  orelse (extents_loop (Z.to_nat n) 0 ApfsBlockSize record 0 None) (λ r,
    if len <? r.1 then (b ← ReallocatePool len r.2; mret (inr b)) else mret (inr r.2)).

Definition free_buffer (b : option (list Z)) : M Apfs unit := match b with Some _ => FreePool | None => mret tt end.

Definition sizeof_APFS_DRIVER_INFO_PRIVATE_DATA : Z := 136.

(** Installs the protocol, whose interface is in [Private], and starts the driver.  Afterwards
    [Private] is freed in any case; the protocol stays, because its removal names no
    interface. *)
Definition publish (record : list Z) (EfiFileBuffer : option (list Z)) : M Apfs EFI_STATUS :=
  ok ← pool sizeof_APFS_DRIVER_INFO_PRIVATE_DATA;
  if negb ok then (FreePool;; free_buffer EfiFileBuffer;; mret EFI_OUT_OF_RESOURCES) else
  if EFI_ERROR (ans_Install ans) then (free_buffer EfiFileBuffer;; FreePool;; FreePool;; mret (ans_Install ans)) else
  set_info (Some true);;
  len ← defined (field 4 rec_EfiFileLen record);
  Status ← StartApfsDriver EfiFileBuffer len;
  FreePool;;
  free_buffer EfiFileBuffer;;
  FreePool;; set_info (Some false);;
  mret (if EFI_ERROR Status then EFI_UNSUPPORTED else EFI_SUCCESS).

(** [has_block], [has_disk]: the I/O protocols are there. *)
Definition ApfsDriverLoaderStart (has_block has_disk : bool) : M Apfs EFI_STATUS :=
  info ← gets a_info;
  match info with
  | Some _ => mret EFI_UNSUPPORTED
  | None =>
      if negb has_block || negb has_disk then mret EFI_UNSUPPORTED else
      r ← orelse read_block_size (λ size, orelse (read_superblock size) (λ off, orelse (read_record size off) (λ record,
            orelse (read_driver size record) (λ b, Status ← publish record b; mret (inr Status : EFI_STATUS + EFI_STATUS)))));
      mret match r with inl Status => Status | inr Status => Status end
  end.

(** ** Finding the container *)

Definition gAppleApfsPartitionTypeGuid : list Z := [0xEF; 0x57; 0x34; 0x7C; 0; 0; 0xAA; 0x11; 0xAA; 0x11; 0; 0x30; 0x65; 0x43; 0xEC; 0xAC].
Definition EFI_PTAB_HEADER_ID : Z := 0x5452415020494645.

(** The loop over the entries of the table, [n] of them left: the first block of the first
    APFS partition. *)
Fixpoint scan_loop (n : nat) (Index PartitionEntrySize : Z) (Block : list Z) : option (option Z) :=
  match n with
  | O => Some None
  | S n =>
      let i := Z.to_nat Index in
      _ ← field 16 i Block;
      if bool_decide (slice i 16 Block = gAppleApfsPartitionTypeGuid) then (start ← field 8 (i + 32) Block; Some (Some start)) else
      start ← field 8 (i + 32) Block;
      if start =? 0 then
        (last ← field 8 (i + 40) Block; if last =? 0 then Some None else scan_loop n (Index + PartitionEntrySize) PartitionEntrySize Block)
      else scan_loop n (Index + PartitionEntrySize) PartitionEntrySize Block
  end.

(** The status, and the new LegacyBaseOffset. *)
Definition LegacyApfsContainerScan (BlockSize : Z) : M Apfs (EFI_STATUS * option Z) :=
  ok ← pool BlockSize;
  if negb ok then mret (EFI_OUT_OF_RESOURCES, None) else
  let '(Status, Block) := read_disk MediaId BlockSize BlockSize in
  if EFI_ERROR Status then (FreePool;; mret (EFI_DEVICE_ERROR, None)) else
  PartitionEntrySize ← defined (field 4 84 Block);
  signature ← defined (field 8 0 Block);
  if negb (signature =? EFI_PTAB_HEADER_ID) then (FreePool;; mret (EFI_UNSUPPORTED, None)) else
  PartitionNumber ← defined (field 4 80 Block);
  Lba ← defined (field 8 72 Block);
  FreePool;;
  ok ← pool (PartitionNumber * PartitionEntrySize);
  if negb ok then mret (EFI_OUT_OF_RESOURCES, None) else
  let '(Status, Block) := read_disk MediaId (MultU64x32 Lba BlockSize) (PartitionNumber * PartitionEntrySize) in
  if EFI_ERROR Status then (FreePool;; mret (EFI_DEVICE_ERROR, None)) else
  entry ← defined (scan_loop (if PartitionEntrySize =? 0 then 0%nat else Z.to_nat PartitionNumber) 0 PartitionEntrySize Block);
  FreePool;;
  mret match entry with Some start => (EFI_SUCCESS, Some (MultU64x32 start BlockSize)) | None => (EFI_UNSUPPORTED, None) end.

(** What tells the type of a partition: a protocol with the GUID of APFS partitions, those of
    EDK II and of Apple, or none, with the status of the last attempt. *)
Inductive PartitionInfo := ApfsType | Edk2Info (Type_ : Z) (guid : list Z) | AppleInfo (guid : list Z) | NoInfo (Status : EFI_STATUS).

Definition PARTITION_TYPE_GPT : Z := 2.

(** [disk], [block]: the statuses of the tests for an I/O protocol of either version. *)
Definition ApfsDriverLoaderSupported (LegacyScan : bool) (disk block : EFI_STATUS) (BlockSize : Z) (info : PartitionInfo) : M Apfs (EFI_STATUS * option Z) :=
  installed ← gets a_info;
  match installed with
  | Some _ => mret (EFI_UNSUPPORTED, None)
  | None =>
      if EFI_ERROR disk then mret (disk, None) else
      if EFI_ERROR block then mret (block, None) else
      if LegacyScan then LegacyApfsContainerScan BlockSize else
      mret (match info with
            | ApfsType => EFI_SUCCESS
            | Edk2Info t g => if negb (t =? PARTITION_TYPE_GPT) then EFI_UNSUPPORTED else if bool_decide (g = gAppleApfsPartitionTypeGuid) then EFI_SUCCESS else EFI_UNSUPPORTED
            | AppleInfo g => if bool_decide (g = gAppleApfsPartitionTypeGuid) then EFI_SUCCESS else EFI_UNSUPPORTED
            | NoInfo Status => Status
            end, None)
  end.

(** [close] is the status of the last CloseProtocol.  With the protocol installed, the
    interfaces to remove are listed without the null pointer that ends the list. *)
Definition ApfsDriverLoaderStop (close : EFI_STATUS) : M Apfs EFI_STATUS :=
  installed ← gets a_info;
  match installed with Some _ => undef | None => mret close end.
End Loader.

(** LegacyScan after the entry point: the answers of LocateProtocol for the three protocols. *)
Definition ApfsDriverLoaderInit (a b c : EFI_STATUS) : bool :=
  let Status := a in
  let Status := if bool_decide (Status = EFI_NOT_FOUND) then (if bool_decide (b = EFI_NOT_FOUND) then c else b) else Status in
  EFI_ERROR Status.
