(* ===== verification/ApfsTheorems.v ===== *)
(** * ApfsDriverLoader: properties *)

From Stdlib Require Import ZArith Lia.
From stdpp Require Import base list list_numbers strings.
From S2P Require Import Prelude PartDisk PartGptProofs PartAsync Apfs.

Open Scope Z_scope.

(** ** The checksum *)

(** Fletcher's checksum as APFS defines it: all sums modulo 2^32 - 1. *)
Fixpoint fletcher_sums (words : list Z) (s1 s2 : Z) : Z * Z :=
  match words with
  | [] => (s1, s2)
  | w :: words => let s1 := (s1 + w) mod ModValue in fletcher_sums words s1 ((s2 + s1) mod ModValue)
  end.

Definition fletcher64 (words : list Z) : Z :=
  let s := fletcher_sums words 0 0 in
  let c1 := ModValue - (s.1 + s.2) mod ModValue in
  let c2 := ModValue - (s.1 + c1) mod ModValue in
  c2 * 2 ^ 32 + c1.

Definition is_word (w : Z) : Prop := 0 ≤ w < 2 ^ 32.

(** While nothing overflows, reducing at the end is reducing at each step. *)
Lemma checksum_loop_spec words S1 S2 : Forall is_word words → 0 ≤ S1 → 0 ≤ S2 →
  let n := Z.of_nat (length words) in 2 * S2 + 2 * n * S1 + ModValue * (n * (n + 1)) < 2 ^ 65 → S1 + n * ModValue < 2 ^ 64 →
  ∃ T1 T2, checksum_loop words S1 S2 = (T1, T2) ∧ 0 ≤ T1 ≤ S1 + n * ModValue ∧ 0 ≤ T2 ∧ 2 * T2 ≤ 2 * S2 + 2 * n * S1 + ModValue * (n * (n + 1)) ∧
    fletcher_sums words (S1 mod ModValue) (S2 mod ModValue) = (T1 mod ModValue, T2 mod ModValue).
Proof.
  intros Hw. revert S1 S2. induction Hw as [|w words Hw Hws IH]; intros S1 S2 H1 H2 n Hn Hn1.
  - exists S1, S2. cbn. unfold ModValue. repeat split; lia.
  - cbn [checksum_loop fletcher_sums]. assert (0 ≤ w ≤ ModValue) as Hw' by (unfold is_word in Hw; unfold ModValue; lia).
    assert (n = Z.of_nat (length words) + 1) as En by (subst n; cbn [length]; lia). set (k := Z.of_nat (length words)) in *. assert (0 ≤ k) as Hk by lia.
    rewrite En in Hn, Hn1 |- *. assert (0 ≤ k * ModValue) as P1 by (apply Z.mul_nonneg_nonneg; [lia|done]).
    assert (0 ≤ k * S1) as P2 by (by apply Z.mul_nonneg_nonneg). assert (0 ≤ k * w) as P3 by (apply Z.mul_nonneg_nonneg; lia).
    assert (k * w ≤ k * ModValue) as P4 by (apply Z.mul_le_mono_nonneg_l; lia). assert (0 ≤ k * (k * ModValue)) as P5 by (by apply Z.mul_nonneg_nonneg).
    rewrite (wrap64_small (S1 + w)) by lia. rewrite (wrap64_small (S2 + (S1 + w))) by lia.
    destruct (IH (S1 + w) (S2 + (S1 + w))) as (T1 & T2 & E & R1 & R2 & R3 & EF); [lia..|].
    exists T1, T2. split; [done|]. split; [lia|]. split; [done|]. split; [lia|]. rewrite <- EF. rewrite Zplus_mod_idemp_l. f_equal. by rewrite Zplus_mod_idemp_r, Zplus_mod_idemp_l.
Qed.

(** The largest number of words for which the sums fit into 64 bits. *)
Definition max_words : nat := Z.to_nat 92000.

Lemma check_range x : 0 < ModValue - x mod ModValue < 2 ^ 32.
Proof. pose proof (Z.mod_pos_bound x ModValue eq_refl) as Hx. revert Hx. generalize (x mod ModValue). unfold ModValue. lia. Qed.

Lemma pack_checks c1 c2 : 0 < c1 < 2 ^ 32 → 0 < c2 < 2 ^ 32 → wrap64 (Z.lor (Z.shiftl c2 32) c1) = c2 * 2 ^ 32 + c1.
Proof. intros H1 H2. rewrite shiftl_lor by lia. apply wrap64_small. lia. Qed.

Lemma checksum_fletcher words : Forall is_word words → (length words ≤ max_words)%nat → checksum_words words = fletcher64 words.
Proof.
  intros Hw Hlen. assert (Z.of_nat (length words) ≤ 92000) as Hn by (unfold max_words in Hlen; lia). set (n := Z.of_nat (length words)) in *.
  assert (0 ≤ n) as Hn0 by lia. assert (n * (n + 1) ≤ 92000 * 92001) as Hnn by (apply Z.mul_le_mono_nonneg; lia).
  assert (n * ModValue ≤ 92000 * ModValue) as Hnm by (apply Z.mul_le_mono_nonneg_r; [done|lia]).
  assert (ModValue * (n * (n + 1)) ≤ ModValue * (92000 * 92001)) as Hnm2 by (apply Z.mul_le_mono_nonneg_l; [done|lia]).
  change (ModValue * (92000 * 92001)) with 36352998321871140000 in Hnm2. change (92000 * ModValue) with 395136991140000 in Hnm.
  destruct (checksum_loop_spec words 0 0 Hw ltac:(lia) ltac:(lia)) as (T1 & T2 & E & R1 & R2 & R3 & EF); fold n; [lia|lia|]. fold n in R1, R3.
  unfold checksum_words, fletcher64. rewrite E. change (0 mod ModValue) with 0 in EF. rewrite EF. cbn [fst snd].
  assert (T1 < 2 ^ 63 ∧ T1 + T2 < 2 ^ 64) as [B1 B2] by lia. clear - B1 B2 R1 R2. rewrite (wrap64_small (T1 + T2)) by lia. rewrite <- Zplus_mod.
  pose proof (check_range (T1 + T2)) as Hc1. revert Hc1. generalize (ModValue - (T1 + T2) mod ModValue). intros c1 Hc1.
  rewrite (wrap64_small (T1 + c1)) by lia. rewrite Zplus_mod_idemp_l. apply pack_checks; [done|apply check_range].
Qed.

(** ** Blocks *)

(** The words that the checksum of a block covers. *)
Definition block_words (b : list Z) : list Z := data_words (Z.to_nat ((Z.of_nat (length b) - 8) / 4)) (drop 8 b).

Lemma data_words_ok n b : Forall is_byte b → (4 * n ≤ length b)%nat → Forall is_word (data_words n b) ∧ length (data_words n b) = n.
Proof.
  intros Hb Hn. unfold data_words. split; [|by rewrite length_fmap, length_seq]. apply Forall_fmap, Forall_forall. intros i Hi%elem_of_seq. cbn.
  pose proof (load_range 4 (4 * i) b Hb ltac:(lia)). unfold is_word. by change (256 ^ Z.of_nat 4) with (2 ^ 32) in *.
Qed.

(** Verification of a whole block is comparison with Fletcher's checksum. *)
Lemma verify_block b : Forall is_byte b → (8 ≤ length b)%nat → Z.of_nat (length b) ≤ 2 ^ 18 →
  ApfsBlockChecksumVerify b (Z.of_nat (length b)) = Some (fletcher64 (block_words b) =? load 8 0 b).
Proof.
  intros Hb H8 Hmax. unfold ApfsBlockChecksumVerify, ApfsBlockChecksumCalculate. destruct (Z.ltb_spec (Z.of_nat (length b)) 8); [lia|].
  rewrite wrap64_small by lia. rewrite length_drop. destruct (Z.leb_spec ((Z.of_nat (length b) - 8) / 4 * 4) (Z.of_nat (length b - 8))); [|lia]. cbn [mbind option_bind].
  do 2 f_equal. destruct (data_words_ok (Z.to_nat ((Z.of_nat (length b) - 8) / 4)) (drop 8 b)) as [H1 H2]; [by apply Forall_drop|rewrite length_drop; lia|].
  apply checksum_fletcher; [done|]. etrans; [apply Nat.eq_le_incl; exact H2|]. unfold max_words. lia.
Qed.

Lemma field_ok n off b : (off + n ≤ length b)%nat → field n off b = Some (load n off b).
Proof. intros Hl. unfold field. by destruct (Nat.leb_spec (off + n) (length b)); [|lia]. Qed.

(** ** Steps on the state *)

Definition bump (n : Z) (s : Apfs) : Apfs := {| a_live := a_live s + n; a_info := a_info s; a_started := a_started s |}.

Lemma bump_bump a b s : bump a (bump b s) = bump (b + a) s.
Proof. unfold bump. cbn. f_equal. lia. Qed.

Lemma bump_0 n s : n = 0 → bump n s = s.
Proof. intros ->. destruct s. unfold bump. cbn. f_equal. lia. Qed.

Lemma bind_free {B} (k : unit → M Apfs B) s : (FreePool ≫= k) s = k tt (bump (-1) s).
Proof. done. Qed.

Lemma bind_info {B} i (k : unit → M Apfs B) s : (set_info i ≫= k) s = k tt {| a_live := a_live s; a_info := i; a_started := a_started s |}.
Proof. done. Qed.

Lemma orelse_inr {A B} (m : M Apfs (EFI_STATUS + A)) (k : A → M Apfs (EFI_STATUS + B)) s x s' : m s = Some (inr x, s') → orelse m k s = k x s'.
Proof. intros E. unfold orelse. by rewrite (bind_eq _ _ _ _ _ E). Qed.

Lemma bind_defined {A B} (x : option A) (y : A) (k : A → M Apfs B) s : x = Some y → (defined x ≫= k) s = k y s.
Proof. by intros ->. Qed.

(** A buffer that is empty is not allocated. *)
Definition buffer_of (l : list Z) : option (list Z) := match l with [] => None | _ => Some l end.
Definition buffers (l : list Z) : Z := match l with [] => 0 | _ => 1 end.

Lemma buffer_of_some l : l ≠ [] → buffer_of l = Some l ∧ buffers l = 1.
Proof. by destruct l. Qed.

Section Container.
Context {D : Type} `{DiskIoLaws D} `{!DiskIo2 D} `{!DiskIo2Laws D} (d : D) (io2 : bool) (ans : Answers) (id base : Z).
Abbreviation disk := (bytes d).

(** The offset of a block, and a block. *)
Definition at_block (bs n : Z) : Z := base + n * bs.

Definition extent (record : list Z) (bs : Z) (i : nat) : list Z :=
  region disk (at_block bs (load 8 (rec_RecordExtents + 16 * i) record)) (load 8 (rec_RecordExtents + 16 * i + 8) record * bs).
Definition extents (record : list Z) (bs : Z) (i n : nat) : list Z := concat (extent record bs <$> seq i n).

(** The fields of an extent that lies on the disk. *)
Definition extent_ok (record : list Z) (bs : Z) (i : nat) : Prop :=
  at_block bs (load 8 (rec_RecordExtents + 16 * i) record) + load 8 (rec_RecordExtents + 16 * i + 8) record * bs ≤ Z.of_nat (length disk).

(** A container whose blocks have [bs] bytes, with the boot record [record], of version 1: both
    blocks lie on the disk and have their signatures and checksums, the table of extents lies
    inside the record, the extents lie on the disk and hold at least the driver's length. *)
Record container_ok (bs : Z) (record : list Z) : Prop := {
  ct_bytes : Forall is_byte disk;
  ct_base : 0 ≤ base;
  ct_size : 1280 ≤ bs ≤ 2 ^ 18;
  ct_disk : base + Z.max 2048 bs ≤ Z.of_nat (length disk) < 2 ^ 63;
  ct_oid : load 8 csb_ObjectOid (region disk base 2048) = 1;
  ct_type : load 4 csb_ObjectType (region disk base 2048) = 0x80000001;
  ct_magic : load 4 csb_Magic (region disk base 2048) = APFS_CSB_SIGNATURE;
  ct_block : load 4 csb_BlockSize (region disk base 2048) = bs;
  ct_sum : load 8 0 (region disk base bs) = fletcher64 (block_words (region disk base bs));
  ct_record : record = region disk (at_block bs (load 8 csb_EfiBootRecordBlock (region disk base bs))) bs;
  ct_place : at_block bs (load 8 csb_EfiBootRecordBlock (region disk base bs)) + bs ≤ Z.of_nat (length disk);
  ct_record_sum : load 8 0 record = fletcher64 (block_words record);
  ct_record_magic : load 4 rec_Magic record = APFS_EFIBOOTRECORD_SIGNATURE;
  ct_record_version : load 4 rec_Version record = 1;
  ct_count : Z.of_nat rec_RecordExtents + 16 * load 4 rec_NumOfExtents record ≤ bs;
  ct_extents i : (i < Z.to_nat (load 4 rec_NumOfExtents record))%nat → extent_ok record bs i;
  ct_length : 0 < load 4 rec_EfiFileLen record ≤ Z.of_nat (length (extents record bs 0 (Z.to_nat (load 4 rec_NumOfExtents record))));
  ct_total : Z.of_nat (length (extents record bs 0 (Z.to_nat (load 4 rec_NumOfExtents record)))) < 2 ^ 63
}.

Lemma length_disk_region off n : 0 ≤ off → 0 ≤ n → off + n ≤ Z.of_nat (length disk) → length (region disk off n) = Z.to_nat n.
Proof. intros H1 H2 H3. by apply length_region. Qed.

Lemma read_disk_region off n : ready d id → 0 ≤ off → 0 ≤ n → off + n ≤ Z.of_nat (length disk) → read_disk d io2 id off n = (EFI_SUCCESS, region disk off n).
Proof. intros Hr H1 H2 H3. unfold read_disk. destruct io2; [rewrite perform_read|]; by rewrite (ready_read d id off n Hr H1 H2 H3). Qed.

Lemma bind_pool {B} n (k : bool → M Apfs B) s : ready d id → 0 ≤ n → (pool d n ≫= k) s = k true (bump 1 s).
Proof. intros Hr Hn. unfold pool. by rewrite (ready_alloc d id n Hr Hn). Qed.

Lemma realloc_ok {B} new acc (k : option (list Z) → M Apfs B) s : ready d id → 0 ≤ new →
  (ReallocatePool d new (buffer_of acc) ≫= k) s = k (Some (take (Z.to_nat new) acc)) (bump (1 - buffers acc) s).
Proof.
  intros Hr Hn. unfold ReallocatePool, mbind at 1, M_bind at 1. rewrite bind_pool by done. cbn [negb]. destruct acc as [|x acc]; cbn [buffer_of buffers].
  - cbn. by rewrite take_nil.
  - rewrite bind_free, bump_bump. done.
Qed.

Section Ok.
Context (bs : Z) (record : list Z) (Hc : container_ok bs record) (Hr : ready d id).

Lemma read_block_size_ok s : read_block_size d io2 id base s = Some (inr bs, s).
Proof.
  destruct Hc. unfold read_block_size. rewrite bind_pool by done. cbn [negb]. rewrite read_disk_region by (try done; lia). cbn [EFI_ERROR].
  assert (length (region disk base 2048) = 2048%nat) as HL by (rewrite length_disk_region by lia; lia).
  rewrite (bind_defined _ _ _ _ (field_ok 8 csb_ObjectOid _ ltac:(rewrite HL; cbn; lia))), (bind_defined _ _ _ _ (field_ok 4 csb_ObjectType _ ltac:(rewrite HL; cbn; lia))).
  rewrite ct_oid0, ct_type0. cbn [Z.eqb Pos.eqb negb orb].
  rewrite (bind_defined _ _ _ _ (field_ok 4 csb_Magic _ ltac:(rewrite HL; cbn; lia))), ct_magic0, Z.eqb_refl. cbn [negb].
  rewrite (bind_defined _ _ _ _ (field_ok 4 csb_BlockSize _ ltac:(rewrite HL; cbn; lia))), ct_block0, bind_free, bump_bump, bump_0 by done. done.
Qed.

(** Reading a block with its checksum. *)
Lemma block_verified off : 0 ≤ off → off + bs ≤ Z.of_nat (length disk) → load 8 0 (region disk off bs) = fletcher64 (block_words (region disk off bs)) →
  read_disk d io2 id off bs = (EFI_SUCCESS, region disk off bs) ∧ ApfsBlockChecksumVerify (region disk off bs) bs = Some true ∧ length (region disk off bs) = Z.to_nat bs.
Proof.
  destruct Hc. intros H1 H2 Hsum. assert (length (region disk off bs) = Z.to_nat bs) as HL by (apply length_disk_region; lia).
  split; [apply read_disk_region; try done; lia|]. split; [|done]. replace bs with (Z.of_nat (length (region disk off bs))) at 2 by lia.
  rewrite verify_block; [by rewrite Hsum, Z.eqb_refl|by apply Forall_slice|lia|lia].
Qed.

Lemma load_small n off b : Forall is_byte b → (off + n ≤ length b)%nat → 0 ≤ load n off b.
Proof. intros Hb Hl. by apply load_range. Qed.

Definition record_offset : Z := at_block bs (load 8 csb_EfiBootRecordBlock (region disk base bs)).

Lemma read_superblock_ok s : read_superblock d io2 id base bs s = Some (inr record_offset, bump 1 s).
Proof.
  destruct Hc. unfold read_superblock. rewrite bind_pool by (try done; lia). cbn [negb]. destruct (block_verified base) as (-> & HV & HL); [lia|lia|done|]. cbn [EFI_ERROR].
  rewrite (bind_defined _ _ _ _ HV). cbn [negb]. rewrite (bind_defined _ _ _ _ (field_ok 16 csb_Uuid _ ltac:(rewrite HL; cbn; lia))).
  rewrite (bind_defined _ _ _ _ (field_ok 8 csb_EfiBootRecordBlock _ ltac:(rewrite HL; cbn; lia))). unfold record_offset, at_block, MultU64x32 in *.
  pose proof (load_small 8 csb_EfiBootRecordBlock (region disk base bs) ltac:(by apply Forall_slice) ltac:(rewrite HL; cbn; lia)) as Hp.
  set (p := load 8 csb_EfiBootRecordBlock (region disk base bs)) in *. clearbody p. assert (0 ≤ p * bs) as Hpb by (apply Z.mul_nonneg_nonneg; lia).
  rewrite (wrap64_small (p * bs)) by lia. rewrite wrap64_small by lia. by rewrite Z.add_comm.
Qed.

Lemma record_range : 0 ≤ record_offset ∧ length record = Z.to_nat bs ∧ Forall is_byte record.
Proof.
  destruct Hc. assert (0 ≤ record_offset) as Hpos.
  { unfold record_offset, at_block. assert (length (region disk base bs) = Z.to_nat bs) as HL by (apply length_disk_region; lia).
    pose proof (load_small 8 csb_EfiBootRecordBlock (region disk base bs) ltac:(by apply Forall_slice) ltac:(rewrite HL; cbn; lia)). apply Z.add_nonneg_nonneg; [done|].
    apply Z.mul_nonneg_nonneg; lia. }
  split; [done|]. rewrite ct_record0. split; [apply length_disk_region; [done|lia|done]|by apply Forall_slice].
Qed.

Lemma read_record_ok s : read_record d io2 id bs record_offset s = Some (inr record, s).
Proof.
  destruct record_range as (Hpos & HL & _). destruct Hc. unfold read_record.
  destruct (block_verified record_offset Hpos) as (-> & HV & _); [done|unfold record_offset; rewrite <- ct_record0; done|]. cbn [EFI_ERROR].
  rewrite (bind_defined _ _ _ _ HV). cbn [negb]. unfold record_offset. rewrite <- ct_record0.
  rewrite (bind_defined _ _ _ _ (field_ok 4 rec_Magic record ltac:(rewrite HL; cbn; lia))), ct_record_magic0. done.
Qed.

Lemma extents_S i n : extents record bs i (S n) = extent record bs i ++ extents record bs (S i) n.
Proof. done. Qed.

(** The loop appends the extents. *)
Lemma extents_loop_ok n i acc s : (Z.of_nat i + Z.of_nat n = load 4 rec_NumOfExtents record) → Z.of_nat (length acc + length (extents record bs i n)) < 2 ^ 63 →
  extents_loop d io2 id base n i bs record (Z.of_nat (length acc)) (buffer_of acc) s =
    Some (inr (Z.of_nat (length (acc ++ extents record bs i n)), buffer_of (acc ++ extents record bs i n)), bump (buffers (acc ++ extents record bs i n) - buffers acc) s).
Proof.
  destruct record_range as (_ & HL & HB). destruct Hc. revert i acc s. induction n as [|n IH]; intros i acc s Hn Hlen.
  - cbn [extents_loop]. unfold extents. cbn. rewrite app_nil_r, bump_0 by lia. done.
  - cbn [extents_loop]. assert (rec_RecordExtents + 16 * i + 16 ≤ length record)%nat as Hin by (unfold rec_RecordExtents in *; lia).
    rewrite (bind_defined _ _ _ _ (field_ok 8 (rec_RecordExtents + 16 * i) record ltac:(lia))), (bind_defined _ _ _ _ (field_ok 8 (rec_RecordExtents + 16 * i + 8) record ltac:(lia))).
    pose proof (ct_extents0 i ltac:(lia)) as He. pose proof (load_small 8 (rec_RecordExtents + 16 * i) record HB ltac:(lia)) as Ha.
    pose proof (load_small 8 (rec_RecordExtents + 16 * i + 8) record HB ltac:(lia)) as Hk. rewrite extents_S in Hlen |- *. unfold extent_ok, at_block in He.
    assert (extent record bs i = region disk (base + load 8 (rec_RecordExtents + 16 * i) record * bs) (load 8 (rec_RecordExtents + 16 * i + 8) record * bs)) as Ee by done.
    set (a := load 8 (rec_RecordExtents + 16 * i) record) in *. set (k := load 8 (rec_RecordExtents + 16 * i + 8) record) in *. clearbody a k.
    assert (0 ≤ a * bs) as Hab by (apply Z.mul_nonneg_nonneg; lia). assert (0 ≤ k * bs) as Hkb by (apply Z.mul_nonneg_nonneg; lia).
    assert (length (extent record bs i) = Z.to_nat (k * bs)) as Hl by (rewrite Ee; apply length_disk_region; lia).
    unfold MultU64x32. rewrite (wrap64_small (a * bs)), (wrap64_small (k * bs)), (wrap64_small (a * bs + base)) by lia.
    rewrite length_app in Hlen. destruct (Z.eqb_spec (k * bs) 0) as [Hz|Hz].
    { rewrite Hz in Hl. apply nil_length_inv in Hl. rewrite Hl in Hlen |- *. cbn [app length] in Hlen |- *. apply IH; lia. }
    rewrite (wrap64_small (_ + k * bs)) by lia. rewrite realloc_ok by (try done; lia). destruct (Z.ltb_spec (Z.of_nat (length acc) + k * bs) (Z.of_nat (length acc) + k * bs)); [lia|].
    rewrite (Z.add_comm (a * bs)), read_disk_region by (try done; lia). cbn [EFI_ERROR]. rewrite <- Ee, take_ge by lia.
    assert (acc ++ extent record bs i ≠ []) as Hne by (intros E; apply (f_equal length) in E; rewrite length_app, Hl in E; cbn in E; lia).
    destruct (buffer_of_some _ Hne) as [Eb En]. rewrite <- Eb. replace (Z.of_nat (length acc) + k * bs) with (Z.of_nat (length (acc ++ extent record bs i))) by (rewrite length_app; lia).
    rewrite IH by (rewrite ?length_app; lia). rewrite <- app_assoc, bump_bump, En. do 3 f_equal. lia.
Qed.

(** The driver: its length, and the bytes of the extents up to that length. *)
Definition driver_length : Z := load 4 rec_EfiFileLen record.
Definition driver : list Z := take (Z.to_nat driver_length) (extents record bs 0 (Z.to_nat (load 4 rec_NumOfExtents record))).

Lemma read_driver_ok s : read_driver d io2 id base bs record s = Some (inr (Some driver), bump 1 s).
Proof.
  destruct record_range as (_ & HL & HB). pose proof Hc as []. unfold read_driver.
  rewrite (bind_defined _ _ _ _ (field_ok 4 rec_NumOfExtents record ltac:(rewrite HL; cbn; lia))), (bind_defined _ _ _ _ (field_ok 4 rec_EfiFileLen record ltac:(rewrite HL; cbn; lia))).
  set (n := load 4 rec_NumOfExtents record) in *. assert (0 ≤ n) as Hn by (apply load_small; [done|rewrite HL; cbn; lia]).
  pose proof (extents_loop_ok (Z.to_nat n) 0 [] s ltac:(fold n; lia) ltac:(cbn; done)) as E. cbn [app] in E. unfold driver, driver_length. fold n.
  set (img := extents record bs 0 (Z.to_nat n)) in *. rewrite (orelse_inr _ _ _ _ _ E). cbn [fst snd]. destruct (buffer_of_some img ltac:(by intros ->; cbn in ct_length0; lia)) as [Eb En].
  rewrite En, Z.sub_0_r. destruct (Z.ltb_spec (load 4 rec_EfiFileLen record) (Z.of_nat (length img))).
  - rewrite realloc_ok by (try done; lia). rewrite En, bump_bump. done.
  - rewrite Eb, take_ge by lia. done.
Qed.

(** The services agree. *)
Definition services_ok : Prop :=
  ans_LoadImage ans driver = EFI_SUCCESS ∧ ans_LoadedImage ans = EFI_SUCCESS ∧ ans_CalculateCrc32 ans = EFI_SUCCESS ∧ ans_StartImage ans = EFI_SUCCESS ∧ ans_Install ans = EFI_SUCCESS.

Lemma start_driver_ok s : services_ok →
  StartApfsDriver d ans (Some driver) driver_length s = Some (EFI_SUCCESS, {| a_live := a_live s + 1; a_info := a_info s; a_started := driver :: a_started s |}).
Proof.
  intros (S1 & S2 & S3 & S4 & _). destruct record_range as (_ & HL & HB). pose proof Hc as [].
  assert (Z.of_nat (length driver) = driver_length) as Hlen by (unfold driver, driver_length; rewrite length_take; lia).
  assert (take (Z.to_nat driver_length) driver = driver) as Htake by (apply take_ge; lia).
  assert (driver_length < 2 ^ 32) as Hmax by (apply (load_range 4 rec_EfiFileLen record HB); rewrite HL; cbn; lia).
  unfold StartApfsDriver. destruct (Z.eqb_spec driver_length 0); [unfold driver_length in *; lia|]. destruct (Z.ltb_spec 0xFFFFFFFF driver_length); [lia|].
  cbn [orb]. destruct (Z.ltb_spec (Z.of_nat (length driver)) driver_length); [lia|]. rewrite Htake, S1, S2. cbn [EFI_ERROR].
  rewrite bind_pool by done. cbn [negb]. by rewrite S3, S4.
Qed.

Lemma publish_ok s : services_ok →
  publish d ans record (Some driver) s = Some (EFI_SUCCESS, {| a_live := a_live s - 1; a_info := Some false; a_started := driver :: a_started s |}).
Proof.
  intros Hs. pose proof Hs as (_ & _ & _ & _ & S5). destruct record_range as (_ & HL & _). pose proof Hc as [].
  unfold publish. rewrite bind_pool by done. cbn [negb]. rewrite S5. cbn [EFI_ERROR].
  rewrite bind_info, (bind_defined _ driver_length _ _ (field_ok 4 rec_EfiFileLen record ltac:(rewrite HL; cbn; lia))), (bind_eq _ _ _ _ _ (start_driver_ok _ Hs)).
  cbn [free_buffer EFI_ERROR]. rewrite !bind_free, bind_info. unfold mret, M_ret, bump. cbn. do 3 f_equal. lia.
Qed.

(** C29. The embedded driver is found and started.  For a container whose superblock and boot
    record have their signatures and Fletcher checksums, the record of version 1, with blocks
    of 1280 bytes to 256 KB, whose table of extents fits in the record and whose extents lie on
    the disk and hold at least the driver's length (else the loader reads outside of its
    buffers); on media that can be read, with memory for every buffer, and when the boot
    services called for the driver succeed, the loader, which has not started a driver from this
    container before, starts exactly the bytes of the
    extents, in order, cut to the length in the record; of what it allocates only the copy
    of the system table remains. *)
Theorem apfs_driver_started s : services_ok → a_info s = None →
  ApfsDriverLoaderStart d io2 ans id base true true s = Some (EFI_SUCCESS, {| a_live := a_live s + 1; a_info := Some false; a_started := driver :: a_started s |}).
Proof.
  intros Hs Hi. unfold ApfsDriverLoaderStart. rewrite bind_gets, Hi. cbn [negb orb].
  set (s1 := {| a_live := a_live s + 1; a_info := Some false; a_started := driver :: a_started s |}). rewrite (bind_eq _ _ s (inr EFI_SUCCESS) s1); [done|].
  rewrite (orelse_inr _ _ _ _ _ (read_block_size_ok s)), (orelse_inr _ _ _ _ _ (read_superblock_ok s)), (orelse_inr _ _ _ _ _ (read_record_ok _)), (orelse_inr _ _ _ _ _ (read_driver_ok _)).
  rewrite (bind_eq _ _ _ _ _ (publish_ok _ Hs)). unfold mret, M_ret, s1. cbn. do 3 f_equal. lia.
Qed.
End Ok.

(** ** What was checked when a driver is started *)

Lemma orelse_inv {A B} (m : M Apfs (EFI_STATUS + A)) (k : A → M Apfs (EFI_STATUS + B)) s r s' : orelse m k s = Some (r, s') →
  ∃ r1 s1, m s = Some (r1, s1) ∧ match r1 with inl st => r = inl st ∧ s' = s1 | inr x => k x s1 = Some (r, s') end.
Proof. intros (r1 & s1 & E & E1)%M_bind_Some. exists r1, s1. split; [done|]. destruct r1; [by injection E1 as <- <-|done]. Qed.

Lemma defined_inv {A B} (x : option A) (k : A → M Apfs B) s r : (defined x ≫= k) s = Some r → ∃ y, x = Some y ∧ k y s = Some r.
Proof. destruct x as [y|]; [|done]. intros E. by exists y. Qed.

(** A block that verifies has the checksum that APFS defines. *)
Definition checksummed (b : list Z) : Prop := Z.of_nat (length b) ≤ 2 ^ 18 → load 8 0 b = fletcher64 (block_words b).

Lemma verified_sum b bs : Forall is_byte b → 0 ≤ bs → length b = Z.to_nat bs → ApfsBlockChecksumVerify b bs = Some true → checksummed b.
Proof.
  intros Hb Hbs Hl Hv Hmax. destruct (decide (8 ≤ length b)%nat) as [H8|H8].
  - replace bs with (Z.of_nat (length b)) in Hv by lia. rewrite verify_block in Hv by done. injection Hv as Hv. apply Z.eqb_eq in Hv. done.
  - unfold ApfsBlockChecksumVerify in Hv. by destruct (Z.ltb_spec (Z.of_nat (length b)) 8); [|lia].
Qed.

Context (Hdisk : Forall is_byte disk).

Lemma field_inv n off b x : field n off b = Some x → x = load n off b.
Proof. unfold field. by destruct (_ <=? _)%nat; intros [= <-]. Qed.

Lemma read_disk_inv off n bs' st : read_disk d io2 id off n = (st, bs') → EFI_ERROR st = false →
  bs' = region disk off n ∧ 0 ≤ n ∧ length bs' = Z.to_nat n.
Proof.
  intros E Hst. assert (ReadDisk d id off n = (EFI_SUCCESS, bs')) as E'.
  { unfold read_disk in E. destruct io2; [rewrite perform_read in E; cbn in E|]; rewrite E; by destruct st. }
  apply read_disk_ok in E' as (H1 & H2 & H3 & ->). split; [done|]. split; [done|]. apply length_slice. lia.
Qed.

Lemma started_live n : keeps a_started (add_live n).
Proof. by apply keeps_modify. Qed.
Lemma started_pool n : keeps a_started (pool d n).
Proof. unfold pool. destruct (AllocatePool d n); [apply keeps_bind; [apply started_live|intros]|]; apply keeps_ret. Qed.
Lemma started_defined {A} (x : option A) : keeps a_started (defined x).
Proof. destruct x; [apply keeps_ret|apply keeps_undef]. Qed.
Lemma started_drop {A} st : keeps a_started (drop_block st : M Apfs (EFI_STATUS + A)).
Proof. apply keeps_bind; [apply started_live|intros; apply keeps_ret]. Qed.
Hint Resolve started_live started_pool started_defined started_drop : clover.

Lemma started_realloc new old : keeps a_started (ReallocatePool d new old).
Proof. unfold ReallocatePool, FreePool. keeps_tac. Qed.
Hint Resolve started_realloc : clover.

Lemma started_block_size : keeps a_started (read_block_size d io2 id base).
Proof. unfold read_block_size, FreePool. keeps_tac. Qed.
Lemma started_superblock bs : keeps a_started (read_superblock d io2 id base bs).
Proof. unfold read_superblock. keeps_tac. Qed.
Lemma started_record bs off : keeps a_started (read_record d io2 id bs off).
Proof. unfold read_record. keeps_tac. Qed.

Lemma read_block_size_inv s r s' : read_block_size d io2 id base s = Some (r, s') → a_started s' = a_started s ∧
  ∀ bs, r = inr bs → let b := region disk base 2048 in
    load 8 csb_ObjectOid b = 1 ∧ load 4 csb_ObjectType b = 0x80000001 ∧ load 4 csb_Magic b = APFS_CSB_SIGNATURE ∧ load 4 csb_BlockSize b = bs.
Proof.
  intros E. split; [exact (started_block_size _ _ _ E)|]. intros bs -> b. unfold read_block_size in E.
  apply M_bind_Some in E as (ok & s1 & _ & E). destruct ok; [|done]. cbn [negb] in E. destruct (read_disk _ _ _ _ _) as [st blk] eqn:Er.
  destruct (EFI_ERROR st) eqn:Est; [done|]. destruct (read_disk_inv _ _ _ _ Er Est) as (-> & _ & _).
  apply defined_inv in E as (oid & ->%field_inv & E). apply defined_inv in E as (ty & ->%field_inv & E). fold b in E.
  destruct (Z.eqb_spec (load 8 csb_ObjectOid b) 1); [|done]. destruct (Z.eqb_spec (load 4 csb_ObjectType b) 0x80000001); [|done]. cbn [negb orb] in E.
  apply defined_inv in E as (mg & ->%field_inv & E). fold b in E. destruct (Z.eqb_spec (load 4 csb_Magic b) APFS_CSB_SIGNATURE); [|done]. cbn [negb] in E.
  apply defined_inv in E as (sz & ->%field_inv & E). by injection E.
Qed.

Lemma read_superblock_inv bs s r s' : read_superblock d io2 id base bs s = Some (r, s') → a_started s' = a_started s ∧
  ∀ off, r = inr off → let b := region disk base bs in
    checksummed b ∧ length b = Z.to_nat bs ∧ off = wrap64 (MultU64x32 (load 8 csb_EfiBootRecordBlock b) bs + base).
Proof.
  intros E. split; [exact (started_superblock _ _ _ _ E)|]. intros off -> b. unfold read_superblock in E.
  apply M_bind_Some in E as (ok & s1 & _ & E). destruct ok; [|done]. cbn [negb] in E. destruct (read_disk _ _ _ _ _) as [st blk] eqn:Er.
  destruct (EFI_ERROR st) eqn:Est; [done|]. destruct (read_disk_inv _ _ _ _ Er Est) as (-> & Hbs & Hlen). fold b in E, Hlen.
  apply defined_inv in E as (v & Hv & E). destruct v; [|done]. cbn [negb] in E. apply defined_inv in E as (u & _ & E).
  apply defined_inv in E as (p & ->%field_inv & E). split; [apply (verified_sum b bs); try done; by apply Forall_slice|]. split; [done|]. by injection E.
Qed.

Lemma read_record_inv bs off s r s' : read_record d io2 id bs off s = Some (r, s') → a_started s' = a_started s ∧
  ∀ record, r = inr record → record = region disk off bs ∧ checksummed record ∧ length record = Z.to_nat bs ∧ load 4 rec_Magic record = APFS_EFIBOOTRECORD_SIGNATURE.
Proof.
  intros E. split; [exact (started_record _ _ _ _ _ E)|]. intros record ->. unfold read_record in E. destruct (read_disk _ _ _ _ _) as [st blk] eqn:Er.
  destruct (EFI_ERROR st) eqn:Est; [done|]. destruct (read_disk_inv _ _ _ _ Er Est) as (-> & Hbs & Hlen).
  apply defined_inv in E as (v & Hv & E). destruct v; [|done]. apply (verified_sum _ bs ltac:(by apply Forall_slice) Hbs Hlen) in Hv. cbn [negb] in E. apply defined_inv in E as (mg & ->%field_inv & E).
  destruct (Z.eqb_spec (load 4 rec_Magic (region disk off bs)) APFS_EFIBOOTRECORD_SIGNATURE); [|done]. cbn [negb] in E. injection E as <- <-. done.
Qed.

(** An extent as the loader computes it, with the wrap-around of its products. *)
Definition extent_read (record : list Z) (bs : Z) (i : nat) : list Z :=
  region disk (wrap64 (MultU64x32 (load 8 (rec_RecordExtents + 16 * i) record) bs + base)) (MultU64x32 (load 8 (rec_RecordExtents + 16 * i + 8) record) bs).
Definition extents_read (record : list Z) (bs : Z) (i n : nat) : list Z := concat (extent_read record bs <$> seq i n).

Lemma started_extents n i bs record pos buf : keeps a_started (extents_loop d io2 id base n i bs record pos buf).
Proof.
  revert i pos buf. induction n as [|n IH]; intros i pos buf; cbn [extents_loop]; unfold FreePool; [apply keeps_ret|].
  repeat first [progress intros | apply IH | solve [auto with clover] | apply keeps_bind | case_match].
Qed.

Lemma extents_loop_inv n i bs record acc s pos buf s' :
  extents_loop d io2 id base n i bs record (Z.of_nat (length (default [] acc))) acc s = Some (inr (pos, buf), s') →
  default [] buf = default [] acc ++ extents_read record bs i n ∧ pos = Z.of_nat (length (default [] buf)).
Proof.
  revert i acc s. induction n as [|n IH]; intros i acc s E; cbn [extents_loop] in E.
  { injection E as <- <- <-. unfold extents_read. cbn. by rewrite app_nil_r. }
  apply defined_inv in E as (a & ->%field_inv & E). apply defined_inv in E as (k & ->%field_inv & E). unfold extents_read. cbn [seq fmap list_fmap concat].
  fold (extents_read record bs (S i) n). unfold extent_read at 1.
  set (off := wrap64 (MultU64x32 (load 8 (rec_RecordExtents + 16 * i) record) bs + base)) in *. set (size := MultU64x32 (load 8 (rec_RecordExtents + 16 * i + 8) record) bs) in *.
  destruct (Z.eqb_spec size 0) as [Hz|Hz].
  { apply IH in E. rewrite Hz. done. }
  apply M_bind_Some in E as (b & s1 & Eb & E). destruct b as [b|]; [|done]. destruct (Z.ltb_spec (wrap64 (Z.of_nat (length (default [] acc)) + size)) (Z.of_nat (length (default [] acc)) + size)) as [|Hw]; [discriminate E|].
  destruct (read_disk _ _ _ _ _) as [st data] eqn:Er. destruct (EFI_ERROR st) eqn:Est; [done|]. destruct (read_disk_inv _ _ _ _ Er Est) as (-> & Hsize & Hlen).
  assert (b = default [] acc) as ->.
  { unfold ReallocatePool in Eb. apply M_bind_Some in Eb as (ok & s2 & _ & Eb). destruct ok; [|done]. cbn [negb] in Eb. apply M_bind_Some in Eb as (u & s3 & _ & Eb).
    injection Eb as <- <-. apply take_ge. lia. }
  replace (Z.of_nat (length (default [] acc)) + size) with (Z.of_nat (length (default [] (Some (default [] acc ++ region disk off size))))) in E by (cbn; rewrite length_app; lia).
  apply IH in E as [E1 ->]. split; [|done]. rewrite E1. cbn. by rewrite <- app_assoc.
Qed.

Lemma started_driver bs record : keeps a_started (read_driver d io2 id base bs record).
Proof. unfold read_driver, orelse. repeat first [progress intros | apply started_extents | solve [auto with clover] | apply keeps_bind | case_match]. Qed.

Lemma take_cut (m n : nat) (l : list Z) : (m ≤ n)%nat → take m (take n l) = take m l.
Proof. intros Hm. by rewrite take_take, Nat.min_l. Qed.

(** What is read has the bytes of the driver at its beginning. *)
Lemma read_driver_inv bs record s b s' : read_driver d io2 id base bs record s = Some (inr (Some b), s') → let len := Z.to_nat (load 4 rec_EfiFileLen record) in
  take len b = take len (extents_read record bs 0 (Z.to_nat (load 4 rec_NumOfExtents record))).
Proof.
  intros E len. unfold read_driver in E. apply defined_inv in E as (n & ->%field_inv & E). apply defined_inv in E as (l & ->%field_inv & E).
  apply orelse_inv in E as (r & s1 & Er & E). destruct r as [st|[pos buf]]; [by destruct E|]. apply (extents_loop_inv _ _ _ _ None) in Er as [Eb ->]. cbn [default fst snd app] in Eb, E.
  destruct (_ <? _).
  - apply M_bind_Some in E as (b1 & s2 & E1 & E). injection E as -> <-. unfold ReallocatePool in E1. apply M_bind_Some in E1 as (ok & s3 & _ & E1). destruct ok; [|done].
    cbn [negb] in E1. apply M_bind_Some in E1 as (u & s4 & _ & E1). injection E1 as <- <-. rewrite Eb. subst len. by apply take_cut.
  - injection E as -> <-. cbn [default] in Eb. by rewrite <- Eb.
Qed.

Lemma start_driver_inv buf len s st s' : StartApfsDriver d ans buf len s = Some (st, s') →
  (EFI_ERROR st = true ∧ a_started s' = a_started s) ∨ st = EFI_SUCCESS ∧ ∃ b, buf = Some b ∧ a_started s' = take (Z.to_nat len) b :: a_started s.
Proof.
  unfold StartApfsDriver. destruct buf as [b|]; [|by intros [= <- <-]; left]. destruct (_ || _); [by intros [= <- <-]; left|]. destruct (_ <? _); [done|].
  destruct (EFI_ERROR (ans_LoadImage _ _)) eqn:E1; [by intros [= <- <-]; left|]. destruct (EFI_ERROR (ans_LoadedImage _)) eqn:E2; [by intros [= <- <-]; left|].
  intros (ok & s1 & Ep%started_pool & E)%M_bind_Some. destruct ok; [|injection E as <- <-; by left]. cbn [negb] in E.
  destruct (EFI_ERROR (ans_CalculateCrc32 _)) eqn:E3; [injection E as <- <-; by left|]. destruct (EFI_ERROR (ans_StartImage _)) eqn:E4; [injection E as <- <-; by left|].
  injection E as <- <-. right. split; [done|]. exists b. cbn. by rewrite Ep.
Qed.

Lemma free_buffer_keeps b : keeps a_started (free_buffer b).
Proof. unfold free_buffer. destruct b; [apply started_live|apply keeps_ret]. Qed.

Lemma publish_inv record buf s st s' : publish d ans record buf s = Some (st, s') →
  a_started s' = a_started s ∨ st = EFI_SUCCESS ∧ ∃ b, buf = Some b ∧ a_started s' = take (Z.to_nat (load 4 rec_EfiFileLen record)) b :: a_started s.
Proof.
  unfold publish. intros (ok & s1 & Ep%started_pool & E)%M_bind_Some. rewrite <- Ep. destruct ok; cbn [negb] in E.
  2:{ left. revert E. assert (keeps a_started (FreePool;; free_buffer buf;; mret EFI_OUT_OF_RESOURCES)) as Hk; [|apply Hk]. unfold FreePool. pose proof (free_buffer_keeps buf). keeps_tac. }
  destruct (EFI_ERROR (ans_Install ans)).
  { left. revert E. assert (keeps a_started (free_buffer buf;; FreePool;; FreePool;; mret (ans_Install ans))) as Hk; [|apply Hk]. unfold FreePool. pose proof (free_buffer_keeps buf). keeps_tac. }
  rewrite bind_info in E. apply defined_inv in E as (len & ->%field_inv & E). apply M_bind_Some in E as (st1 & s2 & Es & E).
  apply start_driver_inv in Es. cbn [a_started] in Es. rewrite bind_free in E. apply M_bind_Some in E as (u & s3 & Ef%free_buffer_keeps & E). rewrite bind_free, bind_info in E. injection E as <- <-.
  cbn [a_started bump] in *. rewrite Ef. cbn [bump a_started]. destruct Es as [[_ ->]|[-> Hb]]; [by left|by right].
Qed.

End Container.
