(* ===== verification/ApfsDemo.v ===== *)
(** * ApfsDriverLoader: containers *)

From Stdlib Require Import ZArith Lia.
From stdpp Require Import base list list_numbers strings.
From S2P Require Import Prelude PartDisk PartGptProofs PartAsync Apfs ApfsTheorems.

Open Scope Z_scope.

(** ** A container *)

(** A block of 2048 bytes with some fields (width, offset, value), and its checksum. *)
Definition block_with (fields : list (nat * nat * Z)) : list Z :=
  foldl (λ b f, store f.1.2 (le_put f.1.1 f.2) b) (replicate 2048 0) fields.
Definition with_sum (b : list Z) : list Z := store 0 (le_put 8 (fletcher64 (block_words b))) b.

Definition demo_super : list Z := with_sum (block_with
  [(8%nat, csb_ObjectOid, 1); (4%nat, csb_ObjectType, 0x80000001); (4%nat, csb_Magic, APFS_CSB_SIGNATURE); (4%nat, csb_BlockSize, 2048); (8%nat, csb_EfiBootRecordBlock, 1)]).

(** A boot record for a driver of [len] bytes with extents (block, count). *)
Definition versioned_record (version len : Z) (extents : list (Z * Z)) : list Z := with_sum (block_with
  ([(4%nat, rec_Magic, APFS_EFIBOOTRECORD_SIGNATURE); (4%nat, rec_Version, version); (4%nat, rec_EfiFileLen, len); (4%nat, rec_NumOfExtents, Z.of_nat (length extents))] ++
   concat (imap (λ i e, [(8%nat, (rec_RecordExtents + 16 * i)%nat, e.1); (8%nat, (rec_RecordExtents + 16 * i + 8)%nat, e.2)]) extents))).

Definition demo_record : Z → list (Z * Z) → list Z := versioned_record 1.

(** The superblock, the record, and two blocks; the driver begins in the last one. *)
Definition demo_container (len : Z) : ByteDisk := {|
  bd_bytes := demo_super ++ demo_record len [(3, 1); (2, 1)] ++ replicate 2048 20 ++ replicate 2048 10; bd_writable := true |}.

Definition demo_answers : Answers := {|
  ans_LoadImage := λ _, EFI_SUCCESS; ans_LoadedImage := EFI_SUCCESS; ans_CalculateCrc32 := EFI_SUCCESS; ans_StartImage := EFI_SUCCESS; ans_Install := EFI_SUCCESS |}.
Definition demo_apfs : Apfs := {| a_live := 0; a_info := None; a_started := [] |}.
Definition demo_good : ByteDisk := demo_container 3000.
Definition demo_image : list Z := replicate 2048 10 ++ replicate 952 20.

Lemma demo_container_ok : container_ok demo_good 0 2048 (demo_record 3000 [(3, 1); (2, 1)]).
Proof.
  split; try (vm_compute; done).
  - apply (bool_decide_unpack (Forall is_byte (bytes demo_good))). vm_compute. exact I.
  - intros i Hi. assert (i = 0 ∨ i = 1)%nat as [->| ->]; [|vm_compute; done|vm_compute; done].
    assert (Z.to_nat (load 4 rec_NumOfExtents (demo_record 3000 [(3, 1); (2, 1)])) = 2%nat) as E by (vm_compute; reflexivity). rewrite E in Hi. lia.
Qed.

Lemma demo_driver : driver demo_good 0 2048 (demo_record 3000 [(3, 1); (2, 1)]) = demo_image.
Proof. vm_compute. reflexivity. Qed.

Lemma apfs_driver_started_witness :
  ApfsDriverLoaderStart demo_good true demo_answers 0 0 true true demo_apfs = Some (EFI_SUCCESS, {| a_live := 1; a_info := Some false; a_started := [demo_image] |}).
Proof.
  rewrite <- demo_driver.
  exact (apfs_driver_started demo_good true demo_answers 0 0 2048 (demo_record 3000 [(3, 1); (2, 1)]) demo_container_ok I demo_apfs
    (conj eq_refl (conj eq_refl (conj eq_refl (conj eq_refl eq_refl)))) eq_refl).
Defined.

(** The state after the start. *)
Definition demo_after : Apfs := {| a_live := 1; a_info := Some false; a_started := [demo_image] |}.

Lemma demo_start_result : ApfsDriverLoaderStart demo_good false demo_answers 0 0 true true demo_apfs = Some (EFI_SUCCESS, demo_after).
Proof. vm_compute. reflexivity. Qed.

Lemma demo_bytes : Forall is_byte (bytes demo_good).
Proof. apply (bool_decide_unpack (Forall is_byte (bytes demo_good))). vm_compute. exact I. Qed.


(** ** Other containers *)

(** The version of the record is not looked at: a driver of version 7 is started. *)
Example any_version :
  (λ r, (r.1, a_started r.2)) <$> ApfsDriverLoaderStart {| bd_bytes := demo_super ++ versioned_record 7 3000 [(3, 1); (2, 1)] ++ replicate 2048 20 ++ replicate 2048 10; bd_writable := true |}
    false demo_answers 0 0 true true demo_apfs = Some (EFI_SUCCESS, [demo_image]).
Proof. vm_compute. reflexivity. Qed.

(** A record whose driver is longer than its extents: LoadImage reads past the buffer. *)
Example image_past_extents : ApfsDriverLoaderStart (demo_container 5000) false demo_answers 0 0 true true demo_apfs = None.
Proof. vm_compute. reflexivity. Qed.

(** If the driver cannot be started, the protocol stays installed with its interface freed,
    and the controller is refused from then on. *)
Example failed_start_sticks :
  let refuse := {| ans_LoadImage := λ _, EFI_UNSUPPORTED; ans_LoadedImage := EFI_SUCCESS; ans_CalculateCrc32 := EFI_SUCCESS; ans_StartImage := EFI_SUCCESS; ans_Install := EFI_SUCCESS |} in
  (r ← ApfsDriverLoaderStart demo_good false refuse 0 0 true true demo_apfs; r' ← ApfsDriverLoaderStart demo_good false demo_answers 0 0 true true r.2; Some (r.1, r.2, r'.1)) =
    Some (EFI_UNSUPPORTED, {| a_live := 0; a_info := Some false; a_started := [] |}, EFI_UNSUPPORTED).
Proof. vm_compute. reflexivity. Qed.

(** A superblock of blocks without bytes: the checksum is taken of memory behind the buffer. *)
Example no_block_size :
  ApfsDriverLoaderStart {| bd_bytes := store csb_BlockSize [0; 0; 0; 0] (bd_bytes demo_good); bd_writable := true |} false demo_answers 0 0 true true demo_apfs = None.
Proof. vm_compute. reflexivity. Qed.

(** ** A partition table *)

(** Blocks of 512 bytes: the header, then entries of 128 bytes, the second of which is APFS. *)
Definition demo_gpt (entry_size : Z) : ByteDisk := {|
  bd_bytes := replicate 512 0 ++
    take 512 (foldl (λ b f, store f.1.2 (le_put f.1.1 f.2) b) (replicate 512 0) [(8%nat, 0%nat, EFI_PTAB_HEADER_ID); (8%nat, 72%nat, 2); (4%nat, 80%nat, 4); (4%nat, 84%nat, entry_size)]) ++
    store 128 gAppleApfsPartitionTypeGuid (foldl (λ b f, store f.1.2 (le_put f.1.1 f.2) b) (replicate 512 0) [(1%nat, 0%nat, 1); (8%nat, 32%nat, 34); (8%nat, 160%nat, 40)]);
  bd_writable := true |}.

Example legacy_scan_finds : fst <$> LegacyApfsContainerScan (demo_gpt 128) false 0 512 demo_apfs = Some (EFI_SUCCESS, Some 20480).
Proof. vm_compute. reflexivity. Qed.

(** The size of an entry comes from the disk: with small entries the scan reads behind them. *)
Example legacy_scan_overruns : LegacyApfsContainerScan (demo_gpt 8) false 0 512 demo_apfs = None.
Proof. vm_compute. reflexivity. Qed.
